(* ===== verification/_CoqProject ===== *)
-Q . S2P
Prelude.v
GoStrings.v
GoCrypto.v
Encoding.v
VectorClock.v
VfsPath.v
Merkle.v
Crypto.v
Chunker.v
Util.v
Storage.v
Encrypted.v
Circuit.v
Rbac.v
Database.v
Vfs.v
Server.v
Upload.v
Download.v
Transfer.v
Devices.v
SyncEngine.v
SyncHandlers.v
Password.v
Users.v
Jwt.v
Totp.v
ApiTokens.v
AuthService.v
Worker.v
Gc.v
Shares.v
PublicShares.v
Events.v
FileApi.v
Middleware.v
WebDav.v
Schema.v
Accounts.v
WebSocket.v
Config.v
Federation.v
Backup.v
