(* ===== verification/Prelude.v ===== *)
(** * VaultDrift: a verified model of the server and its synchronisation core

    VaultDrift is a self-hosted file server in Go: files are cut into chunks that
    are stored once under their digest, a virtual file system over an SQL database
    gives them names, and devices, share links, WebDAV clients and other servers
    reach them over HTTP.  This development translates the code under
    src/internal into Rocq and proves what makes it correct.  Where the code does
    something other than it means to, the model does what the code does and a
    theorem says so.

    ** How the code is modelled

    A Go function that returns a value and an error is a computation [GoM W A] on
    the state [W] its component threads (below): its result is a value, an error,
    a run-time panic, or the exhaustion of a bound.  A mutex-protected section is
    one step.  Components that are concurrent by nature are step relations over an
    explicit state: the circuit breaker, the worker pool, the event notifier and
    the WebSocket hub; their theorems hold in every reachable state of every
    interleaving.  HTTP handlers run alone, from their first statement to their
    last; an error reply is the error [ErrHTTP].  Bodies arrive decoded, [None]
    when they do not decode.  Integers that can overflow are reduced to their
    width.  Go strings are byte strings, Go maps are finite maps; loops over a map
    whose order matters are proved for every order or are shown not to depend on
    it.  A call of the SQL driver, of the file system or of the random source
    takes one entry of a list of faults, so that "whatever calls are refused" is a
    quantifier; time is a field of the state.

    ** The files, from the bottom up

    Prelude (this file): integers, errors and computations, rules for reasoning
    about them ([hoare], [preserves], [safe], [runs]), lists, tactics and hint
    databases.  GoStrings: the functions of strings, path and path/filepath.
    GoCrypto: SHA-256, HMAC, AES-GCM, AES-CTR and X25519 as interfaces, each with
    an instance for examples.  Encoding: base64, base32 and hexadecimal, defined.

    Content.  Chunker (chunk/chunker.go): content-defined chunking, its three
    loops against one reference.  Crypto (crypto/crypto.go, keys.go): key
    derivation, authenticated and stream encryption, key wrapping and sharing.
    Storage (storage/storage.go, local.go): the interface [Backend] with its laws,
    and the local backend that implements it.  Encrypted (chunk/encrypted.go,
    manifest.go): encrypting and reassembling files over any [Backend].  Util
    (util): identifiers and digests.  Circuit (circuit/breaker.go).

    The database.  Database (db/files.go, manifests.go, chunks.go), Devices
    (db/syncstate.go), Users (db/users.go, sessions.go, apitokens.go), Shares
    (db/shares.go), Schema (db/db.go, schema.go, seed.go, audit.go, settings.go)
    and the first part of Federation (db/federation.go): tables as finite maps
    with their constraints.  Tables beyond those of files are put next to them by
    [Ext], so that one driver and one fault list serve all.

    Files.  VfsPath (vfs/path.go), Vfs (vfs/vfs.go, trash.go, versioning.go),
    Server, Upload, Download, Transfer, FileApi and WebDav (server/context.go,
    handlers_upload.go, handlers_download.go, handlers_files.go,
    handlers_folders.go, handlers_trash.go, handlers_versions.go;
    webdav/handler.go).  Gc and Worker (worker/gc.go, manager.go, pool.go):
    collection of what is no longer used, and the jobs that run it.  Backup
    (server/handlers_backup.go).

    Synchronisation.  VectorClock (sync/vector.go), Merkle (sync/merkle.go),
    SyncEngine (sync/engine.go), SyncHandlers (server/handlers_sync.go).

    Access.  Password, Jwt, Totp, ApiTokens, AuthService, Rbac (auth/), Middleware
    (server/middleware.go, middleware_auth.go), Accounts (server/handlers_auth.go,
    handlers_user.go, handlers_admin.go), Shares and PublicShares
    (server/handlers_shares.go, handlers_public.go), Federation (federation/,
    server/handlers_federation.go).

    Notification and configuration.  Events (server/events.go), WebSocket
    (server/websocket.go), Config (config/).

    A record has the name of the struct with a prefix on its fields, a definition
    the name of the function or method it translates; where two methods share a
    name the receiver is put in front ([VFS_CreateFile], [LocalBackend_Put]).

    ** What the theorems show

    Content survives: an upload in any order of its parts, a WebDAV PUT, an
    encrypted file and a backup are read back as they were written
    ([upload_download_roundtrip], [put_get_roundtrip],
    [EncryptAndStore_Reassemble], [Stream_roundtrip], [backup_restore_roundtrip]);
    ranges are exact ([range_requests_exact]); chunks that a file needs are never
    deleted, by uploads, collection or deletion ([references_never_dangle],
    [collection_keeps_references]); a failed restore never loses the database
    ([restore_keeps_database]).

    The tables keep their constraints under every operation
    ([operations_keep_constraints]), and migration survives interruption
    ([migrate_restarts]).

    Nobody reaches what is not theirs: files ([requests_stay_with_owner],
    [webdav_stays_with_owner]), share links ([share_link_guarded],
    [download_limit_holds]), tokens ([Login_admits_only], [login_replies]), routes
    ([protected_routes]), administration ([administration_scope],
    [backups_confined]), events ([events_reach_their_audience], [deliver_exact])
    and federation ([peers_have_an_origin], [invitation_admits_once]).

    Components implement their specification: the local backend a map of blobs
    ([LocalBackend_refines_map]), the breaker its three states
    ([Execute_refines]), streaming the reference chunker ([ChunkStream_refines]),
    the rate limiter a sliding window ([rate_limited]), the comparison of vector
    clocks the pointwise order ([Compare_correct]), the difference of trees the
    difference of listings ([Diff_differs]).  Jobs that are pushed are run and
    reported ([jobs_are_reported]).

    ** Bounds

    Recursion that is not structural takes a bound, and exhausting it is a result
    of its own ([OutOfFuel]), so that no theorem is true because a bound was too
    small: the theorems hold for every bound above the size of what is visited, or
    say that the result is the same for all of them.  The walks over folders
    (Vfs, FileApi) need more than the number of folders above or below:
    [GetFolderPath] returns exactly when the chain of parents ends, and runs out
    of every bound after a folder was moved below itself, where the code does not
    return either.  Building and comparing Merkle trees needs more than the depth
    of the tree; emptying the trash more than its batches.  Regrouping bits and
    splitting strings fix their bound themselves, at the length of the input.  The
    loops of the chunker, of ranges and of the queues recurse on what is still to
    be read.

    ** Parameters

    The cryptographic interfaces and ed25519; the JSON of token claims, manifests,
    frames and events; gzip and tar; the XML escaping and the time of HTTP
    headers; the text that the driver makes of a stored instant and reads back
    ([reread]) and its order ([sql_before]); floating-point numbers and their
    parser in the configuration; what the terminal, the environment and the
    configuration file yield; the figures of the connection pool and of the Go run
    time; what another server answers.  The hypotheses on them are the laws of
    their documentation.  Each theorem that has hypotheses is accompanied by a
    closed instance at concrete values.

    ** Not modelled

    The S3 client and the S3 and IPFS backends (storage/s3.go, ipfs.go,
    s3client/): adapters of remote services, whose effect when a reply is lost is
    that of the service.  The FUSE mount (fuse/), the command line client (cli/)
    and the desktop client (desktop/): programs around a kernel interface, a
    terminal and a window toolkit.  Media streaming, previews and thumbnails
    (media/, preview/, thumbnail/, server/handlers_thumbnail.go): external
    converters and image codecs; the test of the user in front of the media and
    preview endpoints is modelled with the middleware and admits nobody.  Tracing
    and metrics (tracing/, server/metrics.go): counters that nothing depends on.
    Construction and registration (server/server.go, cmd/), but for the order of
    the middlewares and the credentials of WebDAV.  Within modelled components:
    logging, the timing of replies, and the cancellation of contexts. *)

From stdpp Require Export base gmap strings list sorting fin_maps pretty.
From Stdlib Require Export ZArith Lia.
From Stdlib.Strings Require Export Byte.
From Stdlib.Strings Require Export Ascii.

#[global] Open Scope Z_scope.

Create HintDb vault.
Create HintDb preserves.
Create HintDb safe.
Create Rewrite HintDb vault_rw.

(** ** Machine integers

    Go integers are kept as [Z]; every operation that can leave the range of
    its type goes through the reduction of that type. *)

Definition u64 (z : Z) : Z := z mod 2 ^ 64.
Definition u32 (z : Z) : Z := z mod 2 ^ 32.
Definition i64 (z : Z) : Z := (z + 2 ^ 63) mod 2 ^ 64 - 2 ^ 63.

Definition max_u64 : Z := 2 ^ 64 - 1.
Definition max_i64 : Z := 2 ^ 63 - 1.

Definition in_u64 (z : Z) : Prop := 0 <= z < 2 ^ 64.
Definition in_i64 (z : Z) : Prop := - 2 ^ 63 <= z < 2 ^ 63.

Lemma u64_range z : in_u64 (u64 z).
Proof. unfold in_u64, u64. apply Z.mod_pos_bound. lia. Qed.

Lemma u64_id z : in_u64 z -> u64 z = z.
Proof. unfold in_u64, u64. intros. by apply Z.mod_small. Qed.

Lemma u32_id z : 0 <= z < 2 ^ 32 -> u32 z = z.
Proof. unfold u32. intros. by apply Z.mod_small. Qed.

Lemma i64_range z : in_i64 (i64 z).
Proof.
  unfold in_i64, i64. pose proof (Z.mod_pos_bound (z + 2 ^ 63) (2 ^ 64)). lia.
Qed.

Lemma i64_id z : in_i64 z -> i64 z = z.
Proof. unfold in_i64, i64. intros. rewrite Z.mod_small; lia. Qed.

Lemma i64_mod z : i64 z mod 2 ^ 64 = z mod 2 ^ 64.
Proof.
  unfold i64. rewrite Zminus_mod, Zmod_mod, <-Zminus_mod. f_equal. lia.
Qed.

Lemma i64_congr a b : a mod 2 ^ 64 = b mod 2 ^ 64 -> i64 a = i64 b.
Proof. intros E. unfold i64. rewrite (Zplus_mod a), (Zplus_mod b), E. done. Qed.

Lemma i64_add_l a b : i64 (i64 a + b) = i64 (a + b).
Proof. apply i64_congr. by rewrite Zplus_mod, i64_mod, <-Zplus_mod. Qed.

Lemma i64_add a b : i64 (i64 a + i64 b) = i64 (a + b).
Proof. rewrite i64_add_l, Z.add_comm, i64_add_l. f_equal. lia. Qed.

#[export] Hint Resolve u64_range i64_range : vault.
#[export] Hint Rewrite u64_id i64_id u32_id using (assumption || (unfold in_u64, in_i64; lia)) : vault_rw.

(** ** Errors, panics and effects

    A Go function that returns [(T, error)] is a computation whose result is
    [Ok] or [Err]; a run-time panic is [Panic]; a bounded recursion that runs
    out of its bound is [OutOfFuel].  The sentinel errors that the code
    compares with [==] are constructors, [fmt.Errorf] without and with [%w] are
    [Errorf] and [Wrapf]. *)

Inductive error : Type :=
  | Errorf (msg : string)
  | Wrapf (msg : string) (e : error)
  (* internal/vfs/errors.go *)
  | ErrNotFound | ErrAlreadyExists | ErrInvalidPath | ErrIsFile
  | ErrPermissionDenied | ErrInvalidName
  (* internal/circuit/breaker.go *)
  | ErrOpenCircuit | ErrTimeout
  (* internal/auth *)
  | ErrInvalidResource | ErrInvalidCredentials | ErrUserDisabled
  | ErrUserLocked | ErrInvalidTOTP | ErrInvalidSession | ErrSessionExpired
  | ErrPasswordChangeRequired | ErrInvalidAPIToken | ErrAPITokenExpired
  (* internal/crypto *)
  | ErrInvalidCiphertext | ErrDecryptionFailed
  (* the SQL driver or the storage device refused the call *)
  | ErrDriver
  (* SQL constraints *)
  | ErrUnique | ErrForeignKey
  (* a handler wrote this error response and returned *)
  | ErrHTTP (code : Z) (msg : string).

Inductive Res (A : Type) : Type :=
  | Ok (a : A)
  | Err (e : error)
  | Panic (msg : string)
  | OutOfFuel.
Arguments Ok {A} a.
Arguments Err {A} e.
Arguments Panic {A} msg.
Arguments OutOfFuel {A}.

#[export] Instance Res_ret : MRet Res := fun A a => Ok a.
#[export] Instance Res_bind : MBind Res := fun A B k m =>
  match m with
  | Ok a => k a
  | Err e => Err e
  | Panic s => Panic s
  | OutOfFuel => OutOfFuel
  end.
#[export] Instance Res_fmap : FMap Res := fun A B f m => a ← m; Ok (f a).

Definition is_ok {A} (r : Res A) : bool := match r with Ok _ => true | _ => false end.

(** [for x in l { s = f(s, x) }] with early exit. *)
Fixpoint foldM {A B} (f : A -> B -> Res A) (a : A) (l : list B) : Res A :=
  match l with
  | [] => Ok a
  | b :: l => a' ← f a b; foldM f a' l
  end.

(** Stateful code: [W] is the state that the component threads. *)
Definition GoM (W A : Type) : Type := W -> Res A * W.

#[export] Instance GoM_ret {W} : MRet (GoM W) := fun A a w => (Ok a, w).
#[export] Instance GoM_bind {W} : MBind (GoM W) := fun A B k m w =>
  match m w with
  | (Ok a, w') => k a w'
  | (Err e, w') => (Err e, w')
  | (Panic s, w') => (Panic s, w')
  | (OutOfFuel, w') => (OutOfFuel, w')
  end.

Definition fail {W A} (e : error) : GoM W A := fun w => (Err e, w).
Definition panic {W A} (msg : string) : GoM W A := fun w => (Panic msg, w).
Definition out_of_fuel {W A} : GoM W A := fun w => (OutOfFuel, w).
Definition get_w {W} : GoM W W := fun w => (Ok w, w).
Definition put_w {W} (w' : W) : GoM W unit := fun _ => (Ok tt, w').
Definition lift {W A} (r : Res A) : GoM W A := fun w => (r, w).

(** [v, err := m(); ...]: the error becomes a value that the code inspects. *)
Definition attempt {W A} (m : GoM W A) : GoM W (A + error) := fun w =>
  match m w with
  | (Ok a, w') => (Ok (inl a), w')
  | (Err e, w') => (Ok (inr e), w')
  | (Panic s, w') => (Panic s, w')
  | (OutOfFuel, w') => (OutOfFuel, w')
  end.

(** [if err != nil { return fmt.Errorf("msg: %w", err) }] *)
Definition wrap {W A} (msg : string) (m : GoM W A) : GoM W A := fun w =>
  match m w with
  | (Err e, w') => (Err (Wrapf msg e), w')
  | r => r
  end.

(** [if err != nil { return e' }]: the original error is dropped. *)
Definition instead {W A} (e' : error) (m : GoM W A) : GoM W A := fun w =>
  match m w with
  | (Err _, w') => (Err e', w')
  | r => r
  end.

(** [_ = m()] *)
Definition ignore {W A} (m : GoM W A) : GoM W unit := _ ← attempt m; mret tt.

(** [for _, x := range l { body }] with early return on error. *)
Fixpoint forM {W B} (l : list B) (body : B -> GoM W unit) : GoM W unit :=
  match l with
  | [] => mret tt
  | b :: l => body b ;; forM l body
  end.

Lemma bind_ok {W A B} (m : GoM W A) (k : A -> GoM W B) w a w' :
  m w = (Ok a, w') -> (m ≫= k) w = k a w'.
Proof. intros H. unfold mbind, GoM_bind. by rewrite H. Qed.

Lemma bind_err {W A B} (m : GoM W A) (k : A -> GoM W B) w e w' :
  m w = (Err e, w') -> (m ≫= k) w = (Err e, w').
Proof. intros H. unfold mbind, GoM_bind. by rewrite H. Qed.

Lemma bind_ok_inv {W A B} (m : GoM W A) (k : A -> GoM W B) w b w' :
  (m ≫= k) w = (Ok b, w') -> exists a w1, m w = (Ok a, w1) /\ k a w1 = (Ok b, w').
Proof.
  unfold mbind, GoM_bind. destruct (m w) as [[a|e|s|] w1] eqn:E; intros H; simplify_eq; eauto.
Qed.

Lemma bind_assoc {W A B C} (m : GoM W A) (f : A -> GoM W B) (g : B -> GoM W C) w :
  ((m ≫= f) ≫= g) w = (m ≫= (fun a => f a ≫= g)) w.
Proof. unfold mbind, GoM_bind. by destruct (m w) as [[]]. Qed.

Lemma bind_ext {W A B} (m : GoM W A) (f g : A -> GoM W B) w :
  (forall a w, f a w = g a w) -> (m ≫= f) w = (m ≫= g) w.
Proof. intros E. unfold mbind, GoM_bind. destruct (m w) as [[] ?]; auto. Qed.

Lemma bind_mret {W A B} (a : A) (f : A -> GoM W B) w : (mret a ≫= f) w = f a w.
Proof. done. Qed.

Lemma bind_get {W A} (k : W -> GoM W A) w : (get_w ≫= k) w = k w w.
Proof. done. Qed.

Lemma bind_put {W A} (w' : W) (k : unit -> GoM W A) w : (put_w w' ≫= k) w = k tt w'.
Proof. done. Qed.

Lemma bind_lift_ok {W A B} (a : A) (k : A -> GoM W B) w : (lift (Ok a) ≫= k) w = k a w.
Proof. done. Qed.

#[export] Hint Rewrite @bind_mret @bind_get @bind_put @bind_lift_ok : vault_rw.

Lemma forM_app {W B} (l l' : list B) (body : B -> GoM W unit) w :
  forM (l ++ l') body w = (forM l body;; forM l' body) w.
Proof.
  revert w. induction l as [|b l IH]; intros w; [done|]. simpl. rewrite bind_assoc.
  apply bind_ext. auto.
Qed.

Lemma foldM_app {A B} (f : A -> B -> Res A) a l l' :
  foldM f a (l ++ l') = (a' ← foldM f a l; foldM f a' l').
Proof.
  revert a. induction l as [|b l IH]; intros a; [done|]. simpl. unfold mbind, Res_bind in *.
  destruct (f a b); auto.
Qed.

(** A loop whose steps succeed under an invariant succeeds. *)
Lemma foldM_inv {A B} (I : A -> Prop) (f : A -> B -> Res A) l a :
  I a -> (forall a b, I a -> exists a', f a b = Ok a' /\ I a') ->
  exists a', foldM f a l = Ok a' /\ I a'.
Proof.
  intros Ha Hf. revert a Ha. induction l as [|b l IH]; intros a Ha; [by exists a|].
  destruct (Hf a b Ha) as (a1 & E & Ha1). simpl. rewrite E. by apply IH.
Qed.

(** The computation returns a value or an error: no panic, no exhausted bound. *)
Definition settles {A} (r : Res A) : Prop := match r with Ok _ | Err _ => True | _ => False end.

(** ** Reasoning about computations

    [hoare P m Q E]: from a state that satisfies [P], [m] neither panics nor runs
    out of its bound, returns a value and a state that satisfy [Q], or an error in
    a state that satisfies [E]. *)

Definition hoare {W A} (P : W -> Prop) (m : GoM W A) (Q : A -> W -> Prop) (E : W -> Prop) : Prop :=
  forall w, P w ->
    match m w with
    | (Ok a, w') => Q a w'
    | (Err _, w') => E w'
    | _ => False
    end.

Lemma hoare_ret {W A} (P : W -> Prop) (a : A) (Q : A -> W -> Prop) E :
  (forall w, P w -> Q a w) -> hoare P (mret a) Q E.
Proof. intros H w Hw. by apply H. Qed.

Lemma hoare_fail {W A} (P : W -> Prop) e (Q : A -> W -> Prop) (E : W -> Prop) :
  (forall w, P w -> E w) -> hoare P (fail e) Q E.
Proof. intros H w Hw. by apply H. Qed.

Lemma hoare_bind {W A B} (P : W -> Prop) (m : GoM W A) (k : A -> GoM W B) Q R E :
  hoare P m Q E -> (forall a, hoare (Q a) (k a) R E) -> hoare P (m ≫= k) R E.
Proof.
  intros Hm Hk w Hw. specialize (Hm w Hw). unfold mbind, GoM_bind.
  destruct (m w) as [[a|e|s|] w']; try done. by apply Hk.
Qed.

Lemma hoare_conseq {W A} (P P' : W -> Prop) (m : GoM W A) (Q Q' : A -> W -> Prop) (E E' : W -> Prop) :
  hoare P m Q E -> (forall w, P' w -> P w) -> (forall a w, Q a w -> Q' a w) -> (forall w, E w -> E' w) ->
  hoare P' m Q' E'.
Proof. intros Hm HP HQ HE w Hw. specialize (Hm w (HP w Hw)); destruct (m w) as [[]]; auto. Qed.

Lemma hoare_wrap {W A} (P : W -> Prop) msg (m : GoM W A) Q E : hoare P m Q E -> hoare P (wrap msg m) Q E.
Proof. intros Hm w Hw. specialize (Hm w Hw). unfold wrap. by destruct (m w) as [[]]. Qed.

Lemma hoare_instead {W A} (P : W -> Prop) e (m : GoM W A) Q E : hoare P m Q E -> hoare P (instead e m) Q E.
Proof. intros Hm w Hw. specialize (Hm w Hw). unfold instead. by destruct (m w) as [[]]. Qed.

Lemma hoare_attempt {W A} (P : W -> Prop) (m : GoM W A) Q E E' : hoare P m Q E ->
  hoare P (attempt m) (fun r w => match r with inl a => Q a w | inr _ => E w end) E'.
Proof. intros Hm w Hw. specialize (Hm w Hw). unfold attempt. by destruct (m w) as [[]]. Qed.

Lemma hoare_ignore {W A} (P Q : W -> Prop) (m : GoM W A) E :
  hoare P m (fun _ => Q) Q -> hoare P (ignore m) (fun _ => Q) E.
Proof.
  intros Hm. unfold ignore. eapply hoare_bind; [by apply hoare_attempt|].
  intros [a|e]; by apply hoare_ret.
Qed.

Lemma hoare_forM {W B} (I : W -> Prop) (l : list B) (body : B -> GoM W unit) E :
  (forall b, b ∈ l -> hoare I (body b) (fun _ => I) E) -> hoare I (forM l body) (fun _ => I) E.
Proof.
  induction l as [|b l IH]; intros Hb; simpl; [by apply hoare_ret|].
  eapply hoare_bind; [apply Hb; by left|]. intros ?. apply IH. intros. apply Hb. by right.
Qed.

Lemma hoare_lift {W A} (P : W -> Prop) (r : Res A) Q (E : W -> Prop) :
  match r with Ok a => forall w, P w -> Q a w | Err _ => forall w, P w -> E w | _ => False end ->
  hoare P (lift r) Q E.
Proof. intros H w Hw. unfold lift. destruct r; auto. Qed.

(** [preserves I m]: whatever the outcome of [m], the state still satisfies [I]. *)
Definition preserves {W A} (I : W -> Prop) (m : GoM W A) : Prop := forall w, I w -> I (m w).2.

Lemma preserves_hoare {W A} (I : W -> Prop) (m : GoM W A) : hoare I m (fun _ => I) I -> preserves I m.
Proof. intros Hm w Hw. specialize (Hm w Hw). by destruct (m w) as [[]]. Qed.

Lemma hoare_settles {W A} (P : W -> Prop) (m : GoM W A) Q E w : hoare P m Q E -> P w -> settles (m w).1.
Proof. intros Hm Hw. specialize (Hm w Hw). by destruct (m w) as [[]]. Qed.

Lemma preserves_ret {W A} (I : W -> Prop) (r : Res A) : preserves I (fun w => (r, w)).
Proof. by intros w Hw. Qed.

Lemma preserves_bind {W A B} (I : W -> Prop) (m : GoM W A) (k : A -> GoM W B) :
  preserves I m -> (forall a, preserves I (k a)) -> preserves I (m ≫= k).
Proof.
  intros Hm Hk w Hw. specialize (Hm w Hw). unfold mbind, GoM_bind. destruct (m w) as [[a|e|s|] w']; try done.
  by apply Hk.
Qed.

Lemma preserves_get {W A} (I : W -> Prop) (k : W -> GoM W A) :
  (forall w, preserves I (k w)) -> preserves I (get_w ≫= k).
Proof. intros Hk w Hw. by apply Hk. Qed.

Lemma preserves_wrap {W A} (I : W -> Prop) msg (m : GoM W A) : preserves I m -> preserves I (wrap msg m).
Proof. intros Hm w Hw. specialize (Hm w Hw). unfold wrap. by destruct (m w) as [[]]. Qed.

Lemma preserves_instead {W A} (I : W -> Prop) e (m : GoM W A) : preserves I m -> preserves I (instead e m).
Proof. intros Hm w Hw. specialize (Hm w Hw). unfold instead. by destruct (m w) as [[]]. Qed.

Lemma preserves_attempt {W A} (I : W -> Prop) (m : GoM W A) : preserves I m -> preserves I (attempt m).
Proof. intros Hm w Hw. specialize (Hm w Hw). unfold attempt. by destruct (m w) as [[]]. Qed.

Lemma preserves_ignore {W A} (I : W -> Prop) (m : GoM W A) : preserves I m -> preserves I (ignore m).
Proof. intros Hm. apply preserves_bind; [by apply preserves_attempt|]. intros ?. apply preserves_ret. Qed.

Lemma preserves_if {W A} (I : W -> Prop) (b : bool) (m n : GoM W A) :
  preserves I m -> preserves I n -> preserves I (if b then m else n).
Proof. by destruct b. Qed.

Lemma preserves_forM {W B} (I : W -> Prop) (l : list B) (body : B -> GoM W unit) :
  (forall b, preserves I (body b)) -> preserves I (forM l body).
Proof.
  intros Hb. induction l as [|b l IH]; simpl; [apply preserves_ret|]. apply preserves_bind; [done|]. by intros ?.
Qed.

(** [safe m]: from every state [m] returns a value or an error. *)
Definition safe {W A} (m : GoM W A) : Prop := forall w, settles (m w).1.

Lemma safe_ret {W A} (a : A) : safe (W := W) (mret a).
Proof. by intros w. Qed.

Lemma safe_fail {W A} e : safe (@fail W A e).
Proof. by intros w. Qed.

Lemma safe_get {W} : safe (@get_w W).
Proof. by intros w. Qed.

Lemma safe_bind {W A B} (m : GoM W A) (k : A -> GoM W B) : safe m -> (forall a, safe (k a)) -> safe (m ≫= k).
Proof.
  intros Hm Hk w. specialize (Hm w). unfold mbind, GoM_bind. destruct (m w) as [[] w']; try done. by apply Hk.
Qed.

Lemma safe_wrap {W A} msg (m : GoM W A) : safe m -> safe (wrap msg m).
Proof. intros Hm w. specialize (Hm w). unfold wrap. by destruct (m w) as [[]]. Qed.

Lemma safe_instead {W A} e (m : GoM W A) : safe m -> safe (instead e m).
Proof. intros Hm w. specialize (Hm w). unfold instead. by destruct (m w) as [[]]. Qed.

Lemma safe_attempt {W A} (m : GoM W A) : safe m -> safe (attempt m).
Proof. intros Hm w. specialize (Hm w). unfold attempt. by destruct (m w) as [[]]. Qed.

(** What [attempt] of a safe computation returns is a value. *)
Lemma attempt_safe {W A} (m : GoM W A) w : safe m -> exists r w', attempt m w = (Ok r, w').
Proof. intros Hm. specialize (Hm w). unfold attempt. destruct (m w) as [[] w']; try done; eauto. Qed.

Lemma safe_forM {W B} (l : list B) (body : B -> GoM W unit) : (forall b, safe (body b)) -> safe (forM l body).
Proof.
  intros Hb. induction l as [|b l IH]; simpl; [apply safe_ret|]. apply safe_bind; [done|]. by intros ?.
Qed.

(** [runs R m]: [m] settles, and [R] relates the states around it whatever its
    outcome. *)
Definition runs {W} (R : relation W) {A} (m : GoM W A) : Prop := forall w r w', m w = (r, w') -> settles r /\ R w w'.

Section Runs.
Context {W} (R : relation W) `{!PreOrder R}.

Lemma runs_ret {A} (a : A) : runs R (mret a).
Proof. by intros w r w' [= <- <-]. Qed.

Lemma runs_fail {A} e : runs R (A := A) (fail e).
Proof. by intros w r w' [= <- <-]. Qed.

Lemma runs_lift {A} (x : Res A) : settles x -> runs R (lift x).
Proof. by intros Hx w r w' [= <- <-]. Qed.

Lemma runs_bind {A B} (m : GoM W A) (k : A -> GoM W B) : runs R m -> (forall a, runs R (k a)) -> runs R (m ≫= k).
Proof.
  intros Hm Hk w r w'. unfold mbind, GoM_bind. destruct (m w) as [x w1] eqn:E. apply Hm in E as [Hs Hw].
  destruct x as [a|e|s|]; try done.
  - intros Ek. apply Hk in Ek as [? ?]. split; [done|]. by etransitivity.
  - by intros [= <- <-].
Qed.

Lemma runs_wrap {A} msg (m : GoM W A) : runs R m -> runs R (wrap msg m).
Proof.
  intros Hm w r w'. unfold wrap. destruct (m w) as [x w1] eqn:E. apply Hm in E as [Hs Hw]. destruct x; try done; by intros [= <- <-].
Qed.

Lemma runs_instead {A} e (m : GoM W A) : runs R m -> runs R (instead e m).
Proof.
  intros Hm w r w'. unfold instead. destruct (m w) as [x w1] eqn:E. apply Hm in E as [Hs Hw]. destruct x; try done; by intros [= <- <-].
Qed.

Lemma runs_attempt {A} (m : GoM W A) : runs R m -> runs R (attempt m).
Proof.
  intros Hm w r w'. unfold attempt. destruct (m w) as [x w1] eqn:E. apply Hm in E as [Hs Hw]. destruct x; try done; by intros [= <- <-].
Qed.

Lemma runs_ignore {A} (m : GoM W A) : runs R m -> runs R (ignore m).
Proof. intros Hm. apply runs_bind; [by apply runs_attempt|]. intros x. apply runs_ret. Qed.

Lemma runs_forM {B} (l : list B) body : (forall b, b ∈ l -> runs R (body b)) -> runs R (forM l body).
Proof.
  induction l as [|b l IH]; intros Hb; simpl; [apply runs_ret|].
  apply runs_bind; [apply Hb; by left|]. intros ?. apply IH. intros. apply Hb. by right.
Qed.

Lemma runs_ext {A} (m n : GoM W A) : (forall w, m w = n w) -> runs R n -> runs R m.
Proof. intros E Hn w r w'. rewrite E. apply Hn. Qed.
End Runs.

(** The same from one state. *)
Definition runs_at {W} (R : relation W) (w : W) {A} (m : GoM W A) : Prop := forall r w', m w = (r, w') -> settles r /\ R w w'.

Section RunsAt.
Context {W} (R : relation W) `{!PreOrder R} (w : W).

Lemma at_runs {A} (m : GoM W A) : runs R m -> runs_at R w m.
Proof. intros Hm r w'. apply Hm. Qed.

Lemma at_checked {A B} e (x : Res A) (k : A -> GoM W B) : settles x -> (forall a, x = Ok a -> runs_at R w (k a)) ->
  runs_at R w (instead e (lift x) ≫= k).
Proof. intros Hx Hk r w'. destruct x as [a|e'|s|]; try done; [by apply Hk|]. by intros [= <- <-]. Qed.

Lemma at_bind {A B} (m : GoM W A) (k : A -> GoM W B) :
  runs_at R w m -> (forall a w1, m w = (Ok a, w1) -> runs_at R w1 (k a)) -> runs_at R w (m ≫= k).
Proof.
  intros Hm Hk r w'. unfold mbind, GoM_bind. destruct (m w) as [x w1] eqn:E. apply Hm in E as Hx. destruct Hx as [Hs Hw].
  destruct x as [a|e|s|]; try done.
  - intros Ek. apply (Hk a w1) in Ek as [? ?]; [|done]. split; [done|]. by etransitivity.
  - by intros [= <- <-].
Qed.

Lemma at_instead {A} e (m : GoM W A) : runs_at R w m -> runs_at R w (instead e m).
Proof. intros Hm r w'. unfold instead. destruct (m w) as [x w1] eqn:E. apply Hm in E as [Hs Hw]. destruct x; try done; by intros [= <- <-]. Qed.
End RunsAt.

Create HintDb quiet.
#[export] Hint Resolve runs_ret runs_fail runs_bind runs_wrap runs_instead runs_attempt runs_ignore : quiet.
#[export] Hint Extern 1 (PreOrder _) => typeclasses eauto : quiet.

(** ** Lists *)

Lemma filter_all {A} (P : A -> Prop) `{forall a, Decision (P a)} l : Forall P l -> filter P l = l.
Proof. induction 1 as [|a l Ha Hl IH]; [done|]. by rewrite filter_cons_True, IH. Qed.

Lemma insert_snoc {A} (l : list A) x y : <[length l := x]> (l ++ [y]) = l ++ [x].
Proof. induction l as [|a l IH]; [done|]. simpl. by f_equal. Qed.

Lemma lookup_snoc {A} (l : list A) x : (l ++ [x]) !! length l = Some x.
Proof. by induction l. Qed.

Lemma three_inj {A} (a b c a' b' c' : A) : [a; b; c] = [a'; b'; c'] -> a = a' /\ b = b' /\ c = c'.
Proof. by intros [= -> -> ->]. Qed.

Lemma filter_none {A} (P : A -> Prop) `{forall a, Decision (P a)} l : Forall (fun a => ~ P a) l -> filter P l = [].
Proof. induction 1 as [|a l Ha Hl IH]; [done|]. by rewrite filter_cons_False. Qed.

(** ** Tactics shared by the components *)

(** Case analysis on the boolean tests of executable definitions. *)
Ltac case_bool :=
  match goal with
  | |- context [if ?b then _ else _] =>
      lazymatch type of b with
      | bool => destruct b eqn:?
      end
  end.

Ltac bool_to_prop :=
  repeat match goal with
  | H : _ && _ = true |- _ => apply andb_true_iff in H as [? ?]
  | H : _ || _ = false |- _ => apply orb_false_iff in H as [? ?]
  | H : negb _ = true |- _ => apply negb_true_iff in H
  | H : negb _ = false |- _ => apply negb_false_iff in H
  | H : (_ <? _) = true |- _ => apply Z.ltb_lt in H
  | H : (_ <? _) = false |- _ => apply Z.ltb_ge in H
  | H : (_ <=? _) = true |- _ => apply Z.leb_le in H
  | H : (_ <=? _) = false |- _ => apply Z.leb_gt in H
  | H : (_ =? _) = true |- _ => apply Z.eqb_eq in H
  | H : (_ =? _) = false |- _ => apply Z.eqb_neq in H
  end.

(** Executes one bind of a computation whose first step is known. *)
Ltac step_with H := rewrite (bind_ok _ _ _ _ _ H).

(** Pushes [preserves] through the structure of a computation; what is left are the
    calls for which the database [preserves] has no lemma. *)
Ltac preserve_step :=
  match goal with
  | |- preserves _ (get_w ≫= _) => apply preserves_get; intros ?
  | |- preserves _ (_ ≫= _) => apply preserves_bind; [|intros ?]
  | |- preserves _ (mret _) => apply preserves_ret
  | |- preserves _ (fail _) => apply preserves_ret
  | |- preserves _ (panic _) => apply preserves_ret
  | |- preserves _ out_of_fuel => apply preserves_ret
  | |- preserves _ (wrap _ _) => apply preserves_wrap
  | |- preserves _ (instead _ _) => apply preserves_instead
  | |- preserves _ (attempt _) => apply preserves_attempt
  | |- preserves _ (ignore _) => apply preserves_ignore
  | |- preserves _ (forM _ _) => apply preserves_forM; intros ?
  | |- preserves _ (let _ := _ in _) => intro
  | |- preserves _ (if ?b then _ else _) => destruct b
  | |- preserves _ (match ?x with _ => _ end) => destruct x
  end.

Ltac preserve := repeat (first [solve [auto with preserves] | preserve_step]).

(** The same for [safe]. *)
Ltac safe_step :=
  match goal with
  | |- safe (_ ≫= _) => apply safe_bind; [|intros ?]
  | |- safe (mret _) => apply safe_ret
  | |- safe (fail _) => apply safe_fail
  | |- safe get_w => apply safe_get
  | |- safe (wrap _ _) => apply safe_wrap
  | |- safe (instead _ _) => apply safe_instead
  | |- safe (attempt _) => apply safe_attempt
  | |- safe (ignore _) => unfold ignore
  | |- safe (forM _ _) => apply safe_forM; intros ?
  | |- safe (let _ := _ in _) => intro
  | |- safe (if ?b then _ else _) => destruct b
  | |- safe (match ?x with _ => _ end) => destruct x
  end.

Ltac safety := repeat (first [solve [auto with safe] | safe_step]).
