(* ===== verification/GoStrings.v ===== *)
(** * The Go string functions that the program uses

    Go strings are byte sequences, modelled as [string].  This file holds the
    functions of the packages [strings], [path] and [path/filepath] (Unix
    separators) that the modelled code calls, with the lemmas about splitting
    and joining at a separator that the path code relies on. *)

From S2P Require Import Prelude.

Notation ascii := Ascii.ascii.

(** ** Slices *)

Fixpoint str_take (n : nat) (s : string) : string :=
  match n, s with
  | S n, String c s => String c (str_take n s)
  | _, _ => ""
  end.

Fixpoint str_drop (n : nat) (s : string) : string :=
  match n, s with
  | S n, String _ s => str_drop n s
  | _, _ => s
  end.

(** [s[i]] for an index in range. *)
Fixpoint str_get (s : string) (n : nat) : option ascii :=
  match s, n with
  | "", _ => None
  | String c _, O => Some c
  | String _ s, S n => str_get s n
  end%string.

Notation len := String.length.

(** [%q] of text without characters to escape. *)
Definition quote : string := String "034"%char "".
Definition quoted (s : string) : string := (quote +:+ s +:+ quote)%string.

(** ** Package strings *)

Definition HasPrefix (s prefix : string) : bool := String.prefix prefix s.

Definition HasSuffix (s suffix : string) : bool :=
  bool_decide (len suffix <= len s)%nat && bool_decide (str_drop (len s - len suffix) s = suffix).

Definition TrimPrefix (s prefix : string) : string :=
  if HasPrefix s prefix then str_drop (len prefix) s else s.

Definition TrimSuffix (s suffix : string) : string :=
  if HasSuffix s suffix then str_take (len s - len suffix) s else s.

(** Membership of a byte. *)
Fixpoint has_char (c : ascii) (s : string) : bool :=
  match s with
  | "" => false
  | String d s => bool_decide (d = c) || has_char c s
  end%string.

(** [strings.Split(s, sep)] for a one-byte separator. *)
Fixpoint split_char (sep : ascii) (s : string) : list string :=
  match s with
  | "" => [""]
  | String c s =>
      if bool_decide (c = sep) then "" :: split_char sep s
      else match split_char sep s with
           | [] => [String c ""]
           | w :: ws => String c w :: ws
           end
  end%string.

(** [strings.Join(l, sep)] for a one-byte separator. *)
Fixpoint join_char (sep : ascii) (l : list string) : string :=
  match l with
  | [] => ""
  | [w] => w
  | w :: ws => w +:+ String sep (join_char sep ws)
  end.

Fixpoint trim_left (c : ascii) (s : string) : string :=
  match s with
  | String d s' => if bool_decide (d = c) then trim_left c s' else s
  | "" => ""
  end%string.

Fixpoint trim_right (c : ascii) (s : string) : string :=
  match s with
  | "" => ""
  | String d s' =>
      match trim_right c s' with
      | "" => if bool_decide (d = c) then "" else String d ""
      | t => String d t
      end
  end%string.

(** [strings.Trim(s, cutset)] for a one-byte cutset. *)
Definition Trim (s : string) (c : ascii) : string := trim_right c (trim_left c s).

(** [strings.Index] and [strings.LastIndex] of one byte; [-1] when absent. *)
Fixpoint index_from (c : ascii) (s : string) (i : Z) : Z :=
  match s with
  | "" => -1
  | String d s => if bool_decide (d = c) then i else index_from c s (i + 1)
  end%string.

Definition IndexByte (s : string) (c : ascii) : Z := index_from c s 0.

Fixpoint last_index_from (c : ascii) (s : string) (i best : Z) : Z :=
  match s with
  | "" => best
  | String d s => last_index_from c s (i + 1) (if bool_decide (d = c) then i else best)
  end%string.

Definition LastIndex (s : string) (c : ascii) : Z := last_index_from c s 0 (-1).

(** [strings.ReplaceAll(s, old, new)] for a one-byte [old]. *)
Fixpoint ReplaceAll (s : string) (old : ascii) (new : string) : string :=
  match s with
  | "" => ""
  | String c s => (if bool_decide (c = old) then new else String c "") +:+ ReplaceAll s old new
  end%string.

(** [strings.Split(s, sep)] for a non-empty separator string: [fuel] bounds the
    number of pieces and [len s + 1] is always enough. *)
Fixpoint index_str (sep s : string) (i : nat) : option nat :=
  if String.prefix sep s then Some i
  else match s with
       | "" => None
       | String _ s => index_str sep s (S i)
       end%string.

Fixpoint split_str_fuel (fuel : nat) (sep s : string) : list string :=
  match fuel with
  | O => [s]
  | S fuel =>
      match index_str sep s 0 with
      | None => [s]
      | Some i => str_take i s :: split_str_fuel fuel sep (str_drop (i + len sep) s)
      end
  end.

Definition SplitStr (s sep : string) : list string := split_str_fuel (S (len s)) sep s.

(** ** Packages path and path/filepath (Unix) *)

Definition slash : ascii := "/"%char.

(** One element of [Clean]; [out] is the result so far, last element first. *)
Definition clean_step (rooted : bool) (out : list string) (c : string) : list string :=
  if bool_decide (c = "") || bool_decide (c = ".") then out
  else if bool_decide (c = "..") then
    match out with
    | [] => if rooted then [] else [".."]
    | t :: out' => if bool_decide (t = "..") then ".." :: out else out'
    end
  else c :: out.

Definition clean_elems (rooted : bool) (l : list string) : list string :=
  reverse (foldl (clean_step rooted) [] l).

Definition Clean (p : string) : string :=
  if bool_decide (p = "") then "."
  else if HasPrefix p "/" then String slash (join_char slash (clean_elems true (split_char slash p)))
  else let s := join_char slash (clean_elems false (split_char slash p)) in
       if bool_decide (s = "") then "." else s.

(** [path.Base]. *)
Definition path_Base (p : string) : string :=
  if bool_decide (p = "") then "."
  else let p := trim_right slash p in
       let p := str_drop (Z.to_nat (LastIndex p slash + 1)) p in
       if bool_decide (p = "") then "/" else p.

(** [path.Dir]. *)
Definition path_Dir (p : string) : string :=
  Clean (str_take (Z.to_nat (LastIndex p slash + 1)) p).

(** ** Lemmas *)

Lemma str_app_nil_l s : ("" +:+ s)%string = s.
Proof. reflexivity. Qed.

Lemma str_app_cons c s t : (String c s +:+ t)%string = String c (s +:+ t).
Proof. reflexivity. Qed.

Create Rewrite HintDb str.
#[export] Hint Rewrite str_app_nil_l str_app_cons : str.

(** [simpl] for strings: [stdpp] keeps [+:+] folded. *)
Ltac str_simpl := simpl; autorewrite with str in *; simpl.

Lemma app_str_nil s : (s +:+ "")%string = s.
Proof. induction s as [|c s IH]; str_simpl; [done|]. by rewrite IH. Qed.

Lemma str_app_assoc (s t u : string) : ((s +:+ t) +:+ u)%string = (s +:+ (t +:+ u))%string.
Proof. induction s as [|c s IH]; str_simpl; [done|]. by rewrite IH. Qed.

Lemma str_drop_app s t : str_drop (len s) (s +:+ t) = t.
Proof. induction s as [|c s IH]; str_simpl; [by destruct t|done]. Qed.

Lemma str_drop_S_app s c t : str_drop (S (len s)) (s +:+ String c t) = t.
Proof. induction s as [|d s IH]; str_simpl; [by destruct t|]. by destruct s. Qed.

Lemma str_take_app s t : str_take (len s) (s +:+ t) = s.
Proof. induction s as [|c s IH]; str_simpl; [by destruct t|]. by rewrite IH. Qed.

Lemma len_app s t : len (s +:+ t) = (len s + len t)%nat.
Proof. induction s as [|c s IH]; str_simpl; [done|]. by rewrite IH. Qed.

Lemma prefix_spec s t : String.prefix s t = true <-> exists u, t = (s +:+ u)%string.
Proof.
  revert t. induction s as [|c s IH]; intros t.
  - split; [by exists t|]. intros _. by destruct t.
  - destruct t as [|d t]; simpl; [split; [done|]; by intros [u Hu]|].
    destruct (Ascii.ascii_dec c d) as [->|Hne]; [rewrite IH|].
    + split; intros [u Hu]; exists u; autorewrite with str in *; congruence.
    + split; [done|]. intros [u Hu]. autorewrite with str in *. congruence.
Qed.

Lemma prefix_app s t : String.prefix s (s +:+ t) = true.
Proof. apply prefix_spec. eauto. Qed.

Lemma TrimPrefix_app s t : TrimPrefix (s +:+ t) s = t.
Proof. unfold TrimPrefix, HasPrefix. by rewrite prefix_app, str_drop_app. Qed.

Lemma HasPrefix_char c d s : HasPrefix (String c s) (String d "") = bool_decide (c = d).
Proof.
  unfold HasPrefix. simpl. destruct (Ascii.ascii_dec d c) as [<-|Hne].
  - destruct s; by rewrite bool_decide_true.
  - rewrite bool_decide_false; [done|]. by intros ->.
Qed.

Lemma HasPrefix_slash c s : HasPrefix (String c s) "/" = bool_decide (c = slash).
Proof. apply HasPrefix_char. Qed.

Lemma has_char_app c s t : has_char c (s +:+ t) = has_char c s || has_char c t.
Proof. induction s as [|d s IH]; str_simpl; [done|]. by rewrite IH, orb_assoc. Qed.

(** *** Splitting and joining *)

Lemma split_char_cons sep s : exists w ws, split_char sep s = w :: ws.
Proof.
  induction s as [|c s (w & ws & E)]; simpl; [eauto|]. case_bool_decide; [eauto|].
  rewrite E. eauto.
Qed.

Lemma join_char_cons2 sep w w' ws :
  join_char sep (w :: w' :: ws) = (w +:+ String sep (join_char sep (w' :: ws)))%string.
Proof. done. Qed.

Lemma join_split sep s : join_char sep (split_char sep s) = s.
Proof.
  induction s as [|c s IH]; str_simpl; [done|].
  destruct (split_char_cons sep s) as (w & ws & E). rewrite E in *. case_bool_decide.
  - rewrite join_char_cons2, IH. by subst.
  - destruct ws; [simpl in *; by rewrite IH|].
    rewrite join_char_cons2 in *. by rewrite str_app_cons, IH.
Qed.

Lemma split_no_sep sep s : has_char sep s = false -> split_char sep s = [s].
Proof.
  induction s as [|c s IH]; str_simpl; [done|]. intros [Hc Hs]%orb_false_iff.
  rewrite Hc, IH by done. done.
Qed.

Lemma split_app sep w s :
  has_char sep w = false -> split_char sep (w +:+ String sep s) = w :: split_char sep s.
Proof.
  induction w as [|c w IH]; str_simpl; [by rewrite bool_decide_true|].
  intros [Hc Hs]%orb_false_iff. rewrite Hc, IH by done. done.
Qed.

Definition no_sep (sep : ascii) (w : string) : Prop := has_char sep w = false.

Lemma split_no_seps sep s : Forall (no_sep sep) (split_char sep s).
Proof.
  induction s as [|c s IH]; str_simpl; [by repeat constructor|].
  destruct (split_char_cons sep s) as (w & ws & E). rewrite E in *.
  case_bool_decide; [by constructor|]. inversion_clear IH. constructor; [|done].
  unfold no_sep in *. simpl. by rewrite bool_decide_false.
Qed.

Lemma split_join sep l :
  l <> [] -> Forall (no_sep sep) l -> split_char sep (join_char sep l) = l.
Proof.
  intros Hne Hl. induction Hl as [|w ws Hw Hws IH]; [done|]. destruct ws as [|w' ws].
  - simpl. by apply split_no_sep.
  - rewrite join_char_cons2, split_app by done. by rewrite IH.
Qed.

(** *** Clean *)

(** An element that [Clean] keeps: not empty, not a dot element, without separator. *)
Definition good_elem (c : string) : Prop :=
  c <> "" /\ c <> "." /\ c <> ".." /\ no_sep slash c.

#[export] Instance good_elem_dec c : Decision (good_elem c).
Proof. unfold good_elem, no_sep. apply _. Defined.

Lemma clean_step_good out c :
  Forall good_elem out -> no_sep slash c -> Forall good_elem (clean_step true out c).
Proof.
  intros Hout Hc. unfold clean_step. repeat case_bool_decide; simpl; try done.
  - destruct Hout as [|t out Ht Hout]; [constructor|]. case_bool_decide; [|done].
    destruct Ht as (_ & _ & ? & _). done.
  - by constructor.
Qed.

Lemma clean_elems_good l : Forall (no_sep slash) l -> Forall good_elem (clean_elems true l).
Proof.
  unfold clean_elems. rewrite Forall_reverse. assert (Forall good_elem []) as H0 by constructor.
  revert H0. generalize (@nil string). induction l as [|c l IH]; intros out Hout Hl; simpl; [done|].
  inversion_clear Hl. by apply IH; [apply clean_step_good|].
Qed.

Lemma clean_step_keep rooted out c : good_elem c -> clean_step rooted out c = c :: out.
Proof. intros (? & ? & ? & _). unfold clean_step. by rewrite !bool_decide_false. Qed.

Lemma clean_fold_id rooted l out :
  Forall good_elem l -> foldl (clean_step rooted) out l = reverse l ++ out.
Proof.
  intros Hl. revert out. induction Hl as [|c l Hc Hl IH]; intros out; simpl; [done|].
  rewrite clean_step_keep, IH, reverse_cons by done. by rewrite <-app_assoc.
Qed.

Lemma clean_elems_id rooted l : Forall good_elem l -> clean_elems rooted l = l.
Proof. intros. unfold clean_elems. rewrite clean_fold_id by done. by rewrite app_nil_r, reverse_involutive. Qed.

Lemma good_elems_no_sep l : Forall good_elem l -> Forall (no_sep slash) l.
Proof. intros H. eapply Forall_impl; [exact H|]. by intros ? (_ & _ & _ & ?). Qed.

(** The canonical absolute path with the given elements. *)
Definition abs_path (l : list string) : string := String slash (join_char slash l).

Lemma abs_path_elems l :
  Forall good_elem l -> clean_elems true (split_char slash (abs_path l)) = l.
Proof.
  intros Hl. unfold abs_path. simpl. destruct l as [|w ws].
  - done.
  - rewrite split_join; [|done|by apply good_elems_no_sep].
    change (clean_elems true (w :: ws) = w :: ws). by apply clean_elems_id.
Qed.

Lemma Clean_abs s :
  Clean (String slash s) = abs_path (clean_elems true (split_char slash (String slash s))) /\
  Forall good_elem (clean_elems true (split_char slash (String slash s))).
Proof.
  split; [|apply clean_elems_good, split_no_seps].
  unfold Clean. rewrite bool_decide_false, HasPrefix_slash, bool_decide_true by done. done.
Qed.

Lemma Clean_abs_path l : Forall good_elem l -> Clean (abs_path l) = abs_path l.
Proof.
  intros Hl. unfold abs_path at 1. rewrite (proj1 (Clean_abs _)).
  fold (abs_path l). by rewrite abs_path_elems.
Qed.

Lemma abs_path_inj l l' : Forall good_elem l -> Forall good_elem l' -> abs_path l = abs_path l' -> l = l'.
Proof. intros Hl Hl' E. rewrite <-(abs_path_elems l), <-(abs_path_elems l') by done. by rewrite E. Qed.

#[export] Hint Resolve clean_elems_good split_no_seps : vault.

Lemma trim_left_no_sep c w : no_sep c w -> trim_left c w = w.
Proof. destruct w as [|d w]; [done|]. unfold no_sep. simpl. by intros [-> _]%orb_false_iff. Qed.

Lemma trim_right_no_sep c w : no_sep c w -> trim_right c w = w.
Proof.
  induction w as [|d w IH]; [done|]. unfold no_sep in *. simpl. intros [Hd Hw]%orb_false_iff.
  rewrite IH, Hd by done. by destruct w.
Qed.

Lemma Trim_no_sep c w : no_sep c w -> Trim w c = w.
Proof. intros H. unfold Trim. by rewrite trim_left_no_sep, trim_right_no_sep. Qed.

(** *** Last elements *)

Lemma LastIndex_app s c w : has_char c w = false -> LastIndex (s +:+ String c w) c = Z.of_nat (len s).
Proof.
  intros Hw. unfold LastIndex.
  assert (forall w i b, has_char c w = false -> last_index_from c w i b = b) as Hno.
  { intros w'. induction w' as [|d w' IH]; intros i b; simpl; [done|].
    intros [Hd Hw']%orb_false_iff. rewrite Hd. by apply IH. }
  replace (Z.of_nat (len s)) with (0 + Z.of_nat (len s)) by lia. generalize 0 (-1).
  induction s as [|d s IH]; intros i b; str_simpl.
  - rewrite bool_decide_true, Hno by done. lia.
  - rewrite IH. lia.
Qed.

Lemma join_char_snoc sep l w :
  l <> [] -> join_char sep (l ++ [w]) = (join_char sep l +:+ String sep w)%string.
Proof.
  induction l as [|v l IH]; [done|]. intros _. destruct l as [|v' l]; [done|].
  change ((v :: v' :: l) ++ [w]) with (v :: v' :: (l ++ [w])).
  rewrite !join_char_cons2. change (v' :: l ++ [w]) with ((v' :: l) ++ [w]).
  rewrite IH by done. by rewrite <-str_app_cons, str_app_assoc.
Qed.

(** A canonical path ends in its last element, which is not a separator. *)
Lemma abs_path_snoc l w :
  abs_path (l ++ [w]) = ((if bool_decide (l = []) then "" else abs_path l) +:+ String slash w)%string.
Proof.
  unfold abs_path. destruct l as [|v l]; [done|]. rewrite bool_decide_false by done.
  rewrite join_char_snoc by done. by rewrite str_app_cons.
Qed.

Lemma split_char_snoc sep s t :
  split_char sep (s +:+ String sep t) = split_char sep s ++ split_char sep t.
Proof.
  induction s as [|c s IH]; str_simpl; [by rewrite bool_decide_true|]. rewrite IH.
  case_bool_decide; [done|]. by destruct (split_char_cons sep s) as (w & ws & ->).
Qed.

Lemma clean_fold_skip rooted out l : clean_elems rooted (out ++ "" :: l) = clean_elems rooted (out ++ l).
Proof. unfold clean_elems. by rewrite !foldl_app. Qed.

(** Joining elements below a canonical directory. *)
Lemma Clean_join root l : Forall good_elem root -> Forall good_elem l -> l <> [] ->
  Clean (abs_path root +:+ String slash (join_char slash l)) = abs_path (root ++ l).
Proof.
  intros Hr Hl Hne. unfold abs_path at 1. rewrite str_app_cons, (proj1 (Clean_abs _)). f_equal.
  simpl. rewrite split_char_snoc, (split_join slash l) by (done || by apply good_elems_no_sep).
  change (""%string :: split_char slash (join_char slash root) ++ l) with ([] ++ ""%string :: split_char slash (join_char slash root) ++ l).
  rewrite clean_fold_skip. simpl. destruct root as [|w ws].
  - simpl. change (""%string :: l) with ([] ++ ""%string :: l). rewrite clean_fold_skip. by apply clean_elems_id.
  - rewrite split_join by (done || by apply good_elems_no_sep). apply clean_elems_id. by apply Forall_app.
Qed.

Lemma path_Dir_abs l w : Forall good_elem (l ++ [w]) -> path_Dir (abs_path (l ++ [w])) = abs_path l.
Proof.
  intros [Hl Hw]%Forall_app. apply Forall_singleton in Hw as (_ & _ & _ & Hw).
  unfold path_Dir. rewrite abs_path_snoc, LastIndex_app by done.
  set (X := if bool_decide (l = []) then ""%string else abs_path l).
  replace (Z.to_nat (Z.of_nat (len X) + 1)) with (len (X +:+ String slash "")%string) by (rewrite len_app; simpl; lia).
  assert (X +:+ String slash w = (X +:+ String slash "") +:+ w)%string as -> by by rewrite str_app_assoc.
  rewrite str_take_app. unfold X. case_bool_decide as E; [by subst|].
  unfold abs_path at 1. rewrite str_app_cons, (proj1 (Clean_abs _)). f_equal. simpl.
  rewrite split_char_snoc, split_join by (done || by apply good_elems_no_sep).
  change (""%string :: l ++ split_char slash "") with ([] ++ ""%string :: (l ++ ""%string :: [])).
  rewrite clean_fold_skip. simpl. rewrite clean_fold_skip, app_nil_r. by apply clean_elems_id.
Qed.

(** *** Pieces of strings *)

Lemma str_take_drop n s : (str_take n s +:+ str_drop n s)%string = s.
Proof. revert s. induction n as [|n IH]; intros [|c s]; str_simpl; try done. by rewrite IH. Qed.

Lemma str_take_len n s : len (str_take n s) = Nat.min n (len s).
Proof. revert s. induction n as [|n IH]; intros [|c s]; simpl; auto. Qed.

Lemma no_sep_take_drop c n s : no_sep c s -> no_sep c (str_take n s) /\ no_sep c (str_drop n s).
Proof.
  unfold no_sep. rewrite <-(str_take_drop n s) at 1. rewrite has_char_app. by intros ?%orb_false_iff.
Qed.

Lemma str_snoc_inj s t c d : (s +:+ String c "" = t +:+ String d "")%string -> s = t /\ c = d.
Proof.
  revert t. induction s as [|a s IH]; intros [|b t]; str_simpl.
  - by intros [= ->].
  - intros [= -> E]. destruct t; simpl in *; discriminate.
  - intros [= -> E]. destruct s; simpl in *; discriminate.
  - intros [= -> E]. apply IH in E as [-> ->]. done.
Qed.

Lemma str_app_inj_r s t u : (s +:+ u = t +:+ u)%string -> s = t.
Proof.
  intros E. assert (len s = len t) as Hl by (apply (f_equal len) in E; rewrite !len_app in E; lia).
  revert t E Hl. induction s as [|a s IH]; intros [|b t]; str_simpl; try done.
  intros [= -> E] [= Hl]. f_equal. eauto.
Qed.
