(* ===== verification/GoCrypto.v ===== *)
(** * Cryptographic primitives and encodings of the Go standard library

    The primitives are interfaces: SHA-256 is a function to 32-byte digests,
    AES-256-GCM a pair of functions whose [open] inverts [seal] under the same key
    and nonce.  Authenticity and collision freedom are never assumed of them in
    general; theorems that need a fact of that kind take it as a hypothesis about
    the concrete messages involved.  The encodings are defined. *)

From S2P Require Import Prelude GoStrings.

Abbreviation bytes := (list byte).

#[export] Instance byte_eq_dec : EqDecision byte := Byte.byte_eq_dec.

(** ** Bytes *)

Definition bz (b : byte) : Z := Z.of_N (Byte.to_N b).
Definition zb (z : Z) : byte := default x00 (Byte.of_N (Z.to_N (z mod 256))).

Lemma bz_range b : 0 <= bz b < 256.
Proof. unfold bz. pose proof (Byte.to_N_bounded b). lia. Qed.

Lemma bz_zb z : bz (zb z) = z mod 256.
Proof.
  unfold bz, zb. pose proof (Z.mod_pos_bound z 256 ltac:(lia)).
  destruct (Byte.of_N (Z.to_N (z mod 256))) as [b|] eqn:E; simpl.
  - apply Byte.to_of_N in E. lia.
  - apply Byte.of_N_None_iff in E. lia.
Qed.

Lemma zb_bz b : zb (bz b) = b.
Proof.
  unfold bz, zb. pose proof (Byte.to_N_bounded b). rewrite Z.mod_small by lia.
  rewrite N2Z.id, Byte.of_to_N. done.
Qed.

Definition bytes_of (s : string) : bytes := String.list_byte_of_string s.
Definition string_of (b : bytes) : string := String.string_of_list_byte b.

Lemma string_of_bytes s : string_of (bytes_of s) = s.
Proof. apply String.string_of_list_byte_of_string. Qed.

Lemma bytes_of_inj s t : bytes_of s = bytes_of t -> s = t.
Proof. intros H. rewrite <-(string_of_bytes s), <-(string_of_bytes t). by rewrite H. Qed.

(** ** encoding/hex *)

Definition hex_digit (z : Z) : ascii :=
  default "0"%char (str_get "0123456789abcdef" (Z.to_nat z)).

Fixpoint hex_encode (b : bytes) : string :=
  match b with
  | [] => ""
  | x :: b => String (hex_digit (bz x / 16)) (String (hex_digit (bz x mod 16)) (hex_encode b))
  end.

Lemma hex_encode_len b : len (hex_encode b) = (2 * length b)%nat.
Proof. induction b as [|x b IH]; simpl; lia. Qed.

(** ** crypto/sha256 *)

Class HashFn : Type := {
  sha256 : bytes -> bytes;
  sha256_length : forall m, length (sha256 m) = 32%nat
}.

(** [hex.EncodeToString(sha256.Sum256(data)[:])] *)
Definition sha256_hex `{HashFn} (data : bytes) : string := hex_encode (sha256 data).

Lemma sha256_hex_len `{HashFn} m : len (sha256_hex m) = 64%nat.
Proof. unfold sha256_hex. by rewrite hex_encode_len, sha256_length. Qed.

(** ** crypto/aes, crypto/cipher (GCM)

    [seal key nonce plaintext] is ciphertext followed by the 16-byte tag. *)

Class AEAD : Type := {
  gcm_seal : bytes -> bytes -> bytes -> bytes;
  gcm_open : bytes -> bytes -> bytes -> option bytes;
  gcm_open_seal : forall k n m, gcm_open k n (gcm_seal k n m) = Some m;
  gcm_seal_length : forall k n m, length (gcm_seal k n m) = (length m + 16)%nat
}.

(** ** crypto/sha512, crypto/hmac, AES-CTR, crypto/ecdh *)

Class Sha512 : Type := {
  sha512 : bytes -> bytes;
  sha512_length : forall m, length (sha512 m) = 64%nat
}.

(** [hmac.New(sha256.New, key)], written to and summed. *)
Class Hmac : Type := {
  hmac_sha256 : bytes -> bytes -> bytes;
  hmac_length : forall k m, length (hmac_sha256 k m) = 32%nat
}.

(** The CTR key stream: XOR-ing it twice gives the input back. *)
Class Ctr : Type := {
  ctr_xor : bytes -> bytes -> bytes -> bytes;
  ctr_involutive : forall k iv m, ctr_xor k iv (ctr_xor k iv m) = m;
  ctr_length : forall k iv m, length (ctr_xor k iv m) = length m
}.

(** X25519: private keys, their public keys, the raw encoding of public keys,
    and the agreed secret, which is refused for some public keys. *)
Class Ecdh : Type := {
  privkey : Type; pubkey : Type;
  public_of : privkey -> pubkey;
  pub_bytes : pubkey -> bytes;
  new_public : bytes -> option pubkey;
  ecdh : privkey -> pubkey -> option bytes;
  new_public_bytes : forall p, new_public (pub_bytes p) = Some p;
  ecdh_agree : forall a b, ecdh a (public_of b) = ecdh b (public_of a)
}.

(** ** crypto/rand: a stream of bytes; a read may be refused *)

Record Rand := mkRand { rnd_bytes : nat -> byte; rnd_pos : nat; rnd_faults : list bool }.

Definition next_fault (l : list bool) : bool * list bool :=
  match l with [] => (false, []) | f :: l => (f, l) end.

(** [rand.Read(b)] of [n] bytes. *)
Definition rand_read (n : nat) : GoM Rand bytes := fun r =>
  let '(f, l) := next_fault (rnd_faults r) in
  if f then (Err ErrDriver, mkRand (rnd_bytes r) (rnd_pos r) l)
  else (Ok (map (fun i => rnd_bytes r (rnd_pos r + i)) (seq 0 n)), mkRand (rnd_bytes r) (rnd_pos r + n) l).

Lemma rand_read_length n r b r' : rand_read n r = (Ok b, r') -> length b = n.
Proof.
  unfold rand_read. destruct (next_fault _) as [[] l]; intros [= <- <-]. by rewrite length_map, length_seq.
Qed.

(** ** Concrete instances, used to evaluate the definitions on examples *)

(** A checksum with the shape of a digest. *)
Definition toy_sum (m : bytes) : Z := foldl (fun a b => (a * 257 + bz b + 1) mod 2 ^ 64) 7 m.

Program Definition toy_hash : HashFn := {|
  sha256 m := map (fun i => zb (toy_sum m / 2 ^ (8 * Z.of_nat i) + Z.of_nat i)) (seq 0 32)
|}.
Next Obligation. reflexivity. Qed.

(** A transparent "cipher" whose tag is the first half of the key. *)
Definition toy_tag (k : bytes) : bytes := take 16 (k ++ replicate 16 x00).

Program Definition toy_aead : AEAD := {|
  gcm_seal k n m := m ++ toy_tag k;
  gcm_open k n c :=
    if bool_decide (drop (length c - 16) c = toy_tag k) then Some (take (length c - 16) c) else None
|}.
Next Obligation.
  intros k n m. simpl. assert (length (toy_tag k) = 16%nat) as Hl
    by (unfold toy_tag; rewrite length_take, length_app, length_replicate; lia).
  rewrite length_app, Hl. replace (length m + 16 - 16)%nat with (length m) by lia.
  rewrite drop_app_length, take_app_length. by rewrite bool_decide_true.
Qed.
Next Obligation.
  intros k n m. simpl. rewrite length_app. unfold toy_tag.
  rewrite length_take, length_app, length_replicate. lia.
Qed.

Program Definition toy_sha512 : Sha512 := {|
  sha512 m := map (fun i => zb (toy_sum m / 2 ^ (8 * Z.of_nat (i mod 8)) + Z.of_nat i)) (seq 0 64)
|}.
Next Obligation. reflexivity. Qed.

Program Definition toy_hmac : Hmac := {|
  hmac_sha256 k m := map (fun i => zb (toy_sum (k ++ m) / 2 ^ (8 * Z.of_nat (i mod 8)) + Z.of_nat i)) (seq 0 32)
|}.
Next Obligation. reflexivity. Qed.

(** Key agreement by addition modulo 251. *)
Program Definition toy_ecdh : Ecdh := {|
  privkey := byte; pubkey := byte;
  public_of b := b; pub_bytes b := [b];
  new_public l := if bool_decide (length l = 1%nat) then head l else None;
  ecdh a b := Some [zb ((bz a + bz b) mod 251)]
|}.
Next Obligation. reflexivity. Qed.
Next Obligation. intros a b. simpl. by rewrite Z.add_comm. Qed.

Definition toy_rand : Rand := mkRand (fun i => zb (Z.of_nat i * 7 + 3)) 0 [].
