(* ===== verification/Encoding.v ===== *)
(** * Text encodings of bytes (encoding/base64, encoding/base32, encoding/hex; internal/util/encoding.go)

    An encoding regroups the bits of its input into digits of [w] bits.  The
    decoders skip line ends and ignore the unused low bits of the last digit, as
    the standard library does. *)

From S2P Require Import Prelude GoStrings GoCrypto.

(** ** Bits *)

(** The [w] low bits of a number, most significant first. *)
Fixpoint to_bits (w : nat) (z : Z) : list bool :=
  match w with O => [] | S w => to_bits w (z / 2) ++ [Z.odd z] end.

Definition from_bits (l : list bool) : Z := foldl (fun a b => 2 * a + Z.b2z b) 0 l.

Fixpoint chunk_fuel (fuel w : nat) (l : list bool) : list (list bool) :=
  match fuel, l with
  | S fuel, _ :: _ => take w l :: chunk_fuel fuel w (drop w l)
  | _, _ => []
  end.

Definition chunks (w : nat) (l : list bool) : list (list bool) := chunk_fuel (length l) w l.

Definition bits_of_bytes (b : bytes) : list bool := concat (map (fun x => to_bits 8 (bz x)) b).

(** A last group of fewer than eight bits is dropped. *)
Definition bytes_of_bits (l : list bool) : bytes :=
  map (fun c => zb (from_bits c)) (filter (fun c => length c = 8%nat) (chunks 8 l)).

(** The last digit is filled up with zeros. *)
Definition digits_of_bits (w : nat) (l : list bool) : list Z :=
  map (fun c => from_bits (c ++ replicate (w - length c) false)) (chunks w l).

Definition bits_of_digits (w : nat) (l : list Z) : list bool := concat (map (to_bits w) l).

(** ** Alphabets *)

Record Alphabet := mkAlphabet { letters : string; width : nat; group : nat }.

Definition base64url : Alphabet :=
  mkAlphabet "ABCDEFGHIJKLMNOPQRSTUVWXYZabcdefghijklmnopqrstuvwxyz0123456789-_" 6 4.
Definition base64std : Alphabet :=
  mkAlphabet "ABCDEFGHIJKLMNOPQRSTUVWXYZabcdefghijklmnopqrstuvwxyz0123456789+/" 6 4.
Definition base32std : Alphabet := mkAlphabet "ABCDEFGHIJKLMNOPQRSTUVWXYZ234567" 5 8.

Definition digit_char (a : Alphabet) (d : Z) : ascii := default "A"%char (str_get (letters a) (Z.to_nat d)).
Definition char_digit (a : Alphabet) (c : ascii) : option Z :=
  let i := IndexByte (letters a) c in if i =? -1 then None else Some i.

Definition chars (s : string) : list ascii := String.list_ascii_of_string s.
Definition text (l : list ascii) : string := String.string_of_list_ascii l.

(** ** Encoding and decoding *)

Definition encode_raw (a : Alphabet) (b : bytes) : string :=
  text (map (digit_char a) (digits_of_bits (width a) (bits_of_bytes b))).

Definition pad_len (a : Alphabet) (n : nat) : nat := (group a - n mod group a) mod group a.

Fixpoint repeat_char (c : ascii) (n : nat) : string := match n with O => "" | S n => String c (repeat_char c n) end.

Definition encode_padded (a : Alphabet) (b : bytes) : string :=
  let s := encode_raw a b in (s +:+ repeat_char "="%char (pad_len a (len s)))%string.

Definition is_newline (c : ascii) : bool := bool_decide (c = "010"%char) || bool_decide (c = "013"%char).

Definition strip_newlines (s : string) : string := text (List.filter (fun c => negb (is_newline c)) (chars s)).

Fixpoint all_digits (a : Alphabet) (l : list ascii) : option (list Z) :=
  match l with
  | [] => Some []
  | c :: l => d ← char_digit a c; ds ← all_digits a l; Some (d :: ds)
  end.

(** The bits left over by the last digit must be fewer than a digit has. *)
Definition decode_chars (a : Alphabet) (s : string) : option bytes :=
  if bool_decide (((width a * len s) mod 8 < width a)%nat)
  then ds ← all_digits a (chars s); Some (bytes_of_bits (bits_of_digits (width a) ds))
  else None.

Definition decode_raw (a : Alphabet) (s : string) : option bytes := decode_chars a (strip_newlines s).

Definition decode_padded (a : Alphabet) (s : string) : option bytes :=
  let s := strip_newlines s in
  let body := trim_right "="%char s in
  if bool_decide (len s = len body + pad_len a (len body))%nat then decode_chars a body else None.

(** ** encoding/hex *)

Definition hex_value (c : ascii) : option Z :=
  let n := Z.of_N (N_of_ascii c) in
  if (48 <=? n) && (n <=? 57) then Some (n - 48)
  else if (97 <=? n) && (n <=? 102) then Some (n - 87)
  else if (65 <=? n) && (n <=? 70) then Some (n - 55)
  else None.

Fixpoint hex_decode (s : string) : option bytes :=
  match s with
  | "" => Some []
  | String c "" => None
  | String c (String d s) =>
      x ← hex_value c; y ← hex_value d; b ← hex_decode s; Some (zb (16 * x + y) :: b)
  end%string.

(** ** internal/util/encoding.go *)

Definition Base64URLEncode (data : bytes) : string := encode_raw base64url data.

Definition Base64URLDecode (s : string) : option bytes :=
  let s := if negb (len s mod 4 =? 0)%nat then (s +:+ repeat_char "="%char (4 - len s mod 4))%string else s in
  decode_padded base64url s.

Definition Base64StdEncode (data : bytes) : string := encode_padded base64std data.
Definition Base64StdDecode (s : string) : option bytes := decode_padded base64std s.
Definition HexEncode (data : bytes) : string := hex_encode data.
Definition HexDecode (s : string) : option bytes := hex_decode s.
Definition SafeToken (randomBytes : bytes) : string := Base64URLEncode randomBytes.

(** [EscapeJSON], on text in UTF-8: the bytes of a longer character are copied. *)
Definition escape_char (c : ascii) : string :=
  let n := N_of_ascii c in
  let back (s : string) := String "\"%char s in
  if (n =? 34)%N then back (String "034"%char "")
  else if (n =? 92)%N then back "\"
  else if (n =? 8)%N then back "b"
  else if (n =? 12)%N then back "f"
  else if (n =? 10)%N then back "n"
  else if (n =? 13)%N then back "r"
  else if (n =? 9)%N then back "t"
  else if (n <? 32)%N then back ("u00" +:+ hex_encode [zb (Z.of_N n)])
  else String c "".

Fixpoint EscapeJSON (s : string) : string :=
  match s with "" => "" | String c s => escape_char c +:+ EscapeJSON s end%string.

(** ** Lemmas *)

Lemma from_bits_snoc l b : from_bits (l ++ [b]) = 2 * from_bits l + Z.b2z b.
Proof. unfold from_bits. by rewrite foldl_app. Qed.

Lemma to_bits_length w z : length (to_bits w z) = w.
Proof. revert z. induction w as [|w IH]; intros z; simpl; [done|]. rewrite length_app, IH. simpl. lia. Qed.

Lemma to_from_bits l : to_bits (length l) (from_bits l) = l.
Proof.
  induction l as [|b l IH] using rev_ind; [done|].
  rewrite length_app, Nat.add_comm, from_bits_snoc. simpl. f_equal.
  - replace ((2 * from_bits l + Z.b2z b) / 2) with (from_bits l); [done|].
    rewrite Z.add_comm, Z.mul_comm, Z.div_add by lia. by destruct b.
  - f_equal. rewrite Z.add_comm, Z.odd_add_mul_2. by destruct b.
Qed.

Lemma from_to_bits w z : 0 <= z < 2 ^ Z.of_nat w -> from_bits (to_bits w z) = z.
Proof.
  revert z. induction w as [|w IH]; intros z Hz; [simpl in *; unfold from_bits; simpl; lia|].
  cbn [to_bits]. rewrite from_bits_snoc, IH.
  - rewrite (Z.div_mod z 2) at 3 by lia. rewrite Zmod_odd. destruct (Z.odd z); simpl; lia.
  - rewrite Nat2Z.inj_succ, Z.pow_succ_r in Hz by lia. split; [apply Z.div_pos; lia|]. apply Z.div_lt_upper_bound; lia.
Qed.

Lemma from_bits_range l : 0 <= from_bits l < 2 ^ Z.of_nat (length l).
Proof.
  induction l as [|b l IH] using rev_ind; [done|].
  rewrite from_bits_snoc, length_app, Nat2Z.inj_add, Z.pow_add_r by lia. change (2 ^ Z.of_nat (length [b])) with 2.
  destruct b; simpl; lia.
Qed.

(** *** Regrouping *)

Lemma chunk_fuel_enough fuel w l : (0 < w)%nat -> (length l <= fuel)%nat -> chunk_fuel fuel w l = chunks w l.
Proof.
  intros Hw. unfold chunks. revert l. induction fuel as [fuel IH] using lt_wf_ind. intros l Hl.
  destruct l as [|b l]; [by destruct fuel|]. destruct fuel as [|fuel]; [simpl in Hl; lia|]. simpl. f_equal.
  assert (length (drop w (b :: l)) <= length l)%nat as Hd by (rewrite length_drop; simpl; lia). simpl in Hl.
  rewrite (IH fuel), (IH (length l)) by (simpl; lia). done.
Qed.

Lemma chunks_cons w l : (0 < w)%nat -> l <> [] -> chunks w l = take w l :: chunks w (drop w l).
Proof.
  intros Hw Hl. destruct l as [|b l]; [done|]. unfold chunks at 1. simpl. f_equal.
  apply chunk_fuel_enough; [done|]. rewrite length_drop. simpl. lia.
Qed.

(** The digits of a bit string hold its bits and fewer than [w] zeros. *)
Lemma digits_bits w l : (0 < w)%nat ->
  exists pad, bits_of_digits w (digits_of_bits w l) = l ++ replicate pad false /\ (pad < w)%nat.
Proof.
  intros Hw. remember (length l) as n eqn:Hn. revert l Hn. induction n as [n IH] using lt_wf_ind. intros l ->.
  destruct (decide (l = [])) as [->|Hl]; [by exists 0%nat|].
  unfold digits_of_bits. rewrite chunks_cons by done. cbn [map]. unfold bits_of_digits. cbn [map concat].
  assert (length (take w l ++ replicate (w - length (take w l)) false) = w) as Hlen.
  { rewrite length_app, length_replicate, length_take. lia. }
  pose proof (to_from_bits (take w l ++ replicate (w - length (take w l)) false)) as EX. rewrite Hlen in EX. rewrite EX. clear EX.
  assert (length (drop w l) < length l)%nat as Hlt by (rewrite length_drop; destruct l; [done|simpl; lia]).
  destruct (IH _ Hlt (drop w l) eq_refl) as (pad & E & Hpad).
  unfold bits_of_digits, digits_of_bits in E. rewrite E.
  destruct (decide (w <= length l)%nat) as [Hle|Hgt].
  - exists pad. split; [|done]. rewrite length_take, Nat.min_l by done. rewrite Nat.sub_diag. simpl.
    by rewrite app_nil_r, app_assoc, take_drop.
  - rewrite drop_ge in E |- * by lia. simpl in E. destruct pad; [|done].
    exists (w - length l)%nat. rewrite take_ge by lia. simpl. rewrite app_nil_r. split; [done|].
    destruct l; [done|simpl; lia].
Qed.

(** Whole bytes followed by fewer than eight bits. *)
Lemma bytes_bits b pad : (length pad < 8)%nat -> bytes_of_bits (bits_of_bytes b ++ pad) = b.
Proof.
  intros Hpad. induction b as [|x b IH]; unfold bytes_of_bits, bits_of_bytes; cbn [map concat app].
  - destruct pad as [|p pad]; [done|]. rewrite chunks_cons by (done || lia). rewrite take_ge, drop_ge by lia.
    rewrite filter_cons_False by lia. done.
  - fold (bits_of_bytes b). rewrite <-app_assoc. pose proof (to_bits_length 8 (bz x)) as Hlen.
    rewrite chunks_cons; [|lia|by destruct (to_bits 8 (bz x))].
    rewrite take_app_length', drop_app_length' by done. rewrite filter_cons_True by done. cbn [map].
    rewrite from_to_bits by (pose proof (bz_range x); simpl; lia). rewrite zb_bz. f_equal. apply IH.
Qed.

Lemma digits_range w l : (0 < w)%nat -> Forall (fun d => 0 <= d < 2 ^ Z.of_nat w) (digits_of_bits w l).
Proof.
  intros Hw. remember (length l) as n eqn:Hn. revert l Hn. induction n as [n IH] using lt_wf_ind. intros l ->.
  destruct (decide (l = [])) as [->|Hl]; [constructor|]. unfold digits_of_bits. rewrite chunks_cons by done. cbn [map].
  constructor.
  - set (c := take w l ++ replicate (w - length (take w l)) false).
    assert (length c = w) as Hc by (unfold c; rewrite length_app, length_replicate, length_take; lia).
    pose proof (from_bits_range c) as Hr. by rewrite Hc in Hr.
  - apply (IH (length (drop w l))); [|done]. rewrite length_drop. destruct l; [done|simpl; lia].
Qed.

Lemma digits_length w l : (0 < w)%nat -> (w * length (digits_of_bits w l) < length l + w)%nat /\
  (length l <= w * length (digits_of_bits w l))%nat.
Proof.
  intros Hw. destruct (digits_bits w l Hw) as (pad & E & Hpad).
  assert (length (bits_of_digits w (digits_of_bits w l)) = w * length (digits_of_bits w l))%nat as Hlen.
  { generalize (digits_of_bits w l) as ds. intros ds. unfold bits_of_digits.
    induction ds as [|d ds IH]; simpl; [lia|]. rewrite length_app, to_bits_length, IH. lia. }
  rewrite E, length_app, length_replicate in Hlen. lia.
Qed.

(** *** Round trips *)

(** The characters of an alphabet: distinct, one for each digit, no line ends and
    no padding. *)
Definition alphabet_ok (a : Alphabet) : Prop :=
  (0 < width a <= 8)%nat /\ (0 < group a)%nat /\
  forall d, 0 <= d < 2 ^ Z.of_nat (width a) ->
    char_digit a (digit_char a d) = Some d /\ is_newline (digit_char a d) = false /\ digit_char a d <> "="%char.

Definition alphabet_okb (a : Alphabet) : bool :=
  forallb (fun n => let c := digit_char a (Z.of_nat n) in
    bool_decide (char_digit a c = Some (Z.of_nat n)) && negb (is_newline c) && negb (bool_decide (c = "="%char)))
    (seq 0 (2 ^ width a)).

Lemma alphabet_okb_ok a : (0 < width a <= 8)%nat -> (0 < group a)%nat -> alphabet_okb a = true -> alphabet_ok a.
Proof.
  intros Hw Hg H. split; [done|]. split; [done|]. intros d Hd. unfold alphabet_okb in H. rewrite forallb_forall in H.
  specialize (H (Z.to_nat d)). rewrite Z2Nat.id in H by lia.
  assert (List.In (Z.to_nat d) (seq 0 (2 ^ width a))) as Hin.
  { apply in_seq. split; [lia|]. rewrite Nat.add_0_l. apply Nat2Z.inj_lt. rewrite Nat2Z.inj_pow, Z2Nat.id by lia.
    change (Z.of_nat 2) with 2. lia. }
  apply H in Hin. apply andb_true_iff in Hin as [Hin H3]. apply andb_true_iff in Hin as [H1 H2].
  apply bool_decide_eq_true in H1. apply negb_true_iff in H2, H3. apply bool_decide_eq_false in H3. done.
Qed.

Lemma base64url_ok : alphabet_ok base64url.
Proof. apply alphabet_okb_ok; [simpl; lia|simpl; lia|]. vm_compute. reflexivity. Qed.
Lemma base64std_ok : alphabet_ok base64std.
Proof. apply alphabet_okb_ok; [simpl; lia|simpl; lia|]. vm_compute. reflexivity. Qed.
Lemma base32std_ok : alphabet_ok base32std.
Proof. apply alphabet_okb_ok; [simpl; lia|simpl; lia|]. vm_compute. reflexivity. Qed.

#[export] Hint Resolve base64url_ok base64std_ok base32std_ok : vault.

Lemma chars_text l : chars (text l) = l.
Proof. unfold chars, text. by rewrite String.list_ascii_of_string_of_list_ascii. Qed.

Lemma text_chars s : text (chars s) = s.
Proof. unfold chars, text. by rewrite String.string_of_list_ascii_of_string. Qed.

Lemma text_length l : len (text l) = length l.
Proof. induction l as [|c l IH]; simpl; [done|]. by rewrite IH. Qed.

Section RoundTrip.
Context (a : Alphabet) (Ha : alphabet_ok a).

Lemma all_digits_chars ds : Forall (fun d => 0 <= d < 2 ^ Z.of_nat (width a)) ds ->
  all_digits a (map (digit_char a) ds) = Some ds.
Proof.
  induction 1 as [|d ds Hd Hds IH]; [done|]. destruct Ha as (_ & _ & Hc). simpl. by rewrite (proj1 (Hc d Hd)), IH.
Qed.

Lemma strip_encoded b : strip_newlines (encode_raw a b) = encode_raw a b.
Proof.
  destruct Ha as (Hw & _ & Hc). unfold strip_newlines, encode_raw. rewrite chars_text. f_equal.
  pose proof (digits_range (width a) (bits_of_bytes b) ltac:(lia)) as Hr.
  induction Hr as [|d ds Hd Hds IH]; [done|]. simpl. destruct (Hc d Hd) as (_ & -> & _). simpl. by rewrite IH.
Qed.

Lemma encode_raw_length b :
  (width a * len (encode_raw a b) < 8 * length b + width a /\ 8 * length b <= width a * len (encode_raw a b))%nat.
Proof.
  destruct Ha as (Hw & _). unfold encode_raw. rewrite text_length, length_map.
  assert (length (bits_of_bytes b) = 8 * length b)%nat as <-; [|by apply digits_length; lia].
  unfold bits_of_bytes. induction b as [|x b IH]; [done|].
  cbn [map concat length]. rewrite length_app, to_bits_length, IH. lia.
Qed.

Lemma decode_chars_encode b : decode_chars a (encode_raw a b) = Some b.
Proof.
  destruct Ha as (Hw & _). unfold decode_chars. rewrite bool_decide_true.
  2:{ pose proof (encode_raw_length b) as [H1 H2].
      replace (width a * len (encode_raw a b))%nat
        with ((width a * len (encode_raw a b) - 8 * length b) + length b * 8)%nat by lia.
      rewrite Nat.Div0.mod_add. eapply Nat.le_lt_trans; [apply Nat.Div0.mod_le|]. lia. }
  unfold encode_raw. rewrite chars_text, all_digits_chars by (apply digits_range; lia). simpl.
  destruct (digits_bits (width a) (bits_of_bytes b) ltac:(lia)) as (pad & -> & Hpad). f_equal.
  apply bytes_bits. rewrite length_replicate. lia.
Qed.

Lemma decode_raw_encode b : decode_raw a (encode_raw a b) = Some b.
Proof. unfold decode_raw. rewrite strip_encoded. apply decode_chars_encode. Qed.

Lemma trim_pad s n : Forall (fun c => c <> "="%char) (chars s) -> trim_right "="%char (s +:+ repeat_char "="%char n) = s.
Proof.
  intros Hs. induction s as [|c s IH]; str_simpl.
  - induction n as [|n IHn]; [done|]. simpl. rewrite IHn. done.
  - simpl in Hs. apply Forall_cons in Hs as [Hc Hs]. rewrite IH by done. 
    destruct s; [|done]. by rewrite bool_decide_false.
Qed.

Lemma encoded_no_pad b : Forall (fun c => c <> "="%char) (chars (encode_raw a b)).
Proof.
  destruct Ha as (Hw & _ & Hc). unfold encode_raw. rewrite chars_text.
  pose proof (digits_range (width a) (bits_of_bytes b) ltac:(lia)) as Hr. induction Hr as [|d ds Hd Hds IH]; [constructor|].
  simpl. constructor; [|done]. by apply Hc.
Qed.

Lemma encoded_no_sep c b :
  forallb (fun n => negb (bool_decide (digit_char a (Z.of_nat n) = c))) (seq 0 (2 ^ width a)) = true ->
  no_sep c (encode_raw a b).
Proof.
  intros HA. destruct Ha as (Hw & _). unfold no_sep, encode_raw.
  pose proof (digits_range (width a) (bits_of_bytes b) ltac:(lia)) as Hr.
  induction Hr as [|d ds Hd Hds IH]; [done|]. simpl. unfold text in *. rewrite IH, orb_false_r.
  rewrite forallb_forall in HA. specialize (HA (Z.to_nat d)). rewrite Z2Nat.id in HA by lia. apply negb_true_iff, HA.
  apply in_seq. split; [lia|]. rewrite Nat.add_0_l. apply Nat2Z.inj_lt. rewrite Nat2Z.inj_pow, Z2Nat.id by lia.
  change (Z.of_nat 2) with 2. lia.
Qed.

Lemma strip_padded b n : strip_newlines (encode_raw a b +:+ repeat_char "="%char n) = (encode_raw a b +:+ repeat_char "="%char n)%string.
Proof.
  assert (forall s t, strip_newlines (s +:+ t) = (strip_newlines s +:+ strip_newlines t)%string) as Happ.
  { intros s t. unfold strip_newlines. induction s as [|c s IH]; [done|]. str_simpl. destruct (negb _); str_simpl; by rewrite IH. }
  rewrite Happ, strip_encoded. f_equal. induction n as [|n IH]; [done|]. simpl. unfold strip_newlines in *. simpl. by f_equal.
Qed.

Lemma repeat_char_len c n : len (repeat_char c n) = n.
Proof. induction n as [|n IH]; simpl; [done|]. by rewrite IH. Qed.

Lemma decode_padded_pad b : decode_padded a (encode_raw a b +:+ repeat_char "="%char (pad_len a (len (encode_raw a b)))) = Some b.
Proof.
  unfold decode_padded. rewrite strip_padded, trim_pad by apply encoded_no_pad.
  rewrite len_app, repeat_char_len, bool_decide_true by done. apply decode_chars_encode.
Qed.

Lemma decode_padded_encode b : decode_padded a (encode_padded a b) = Some b.
Proof. apply decode_padded_pad. Qed.
End RoundTrip.

Lemma Base64URL_roundtrip b : Base64URLDecode (Base64URLEncode b) = Some b.
Proof.
  unfold Base64URLDecode, Base64URLEncode. set (n := len (encode_raw base64url b)).
  pose proof (decode_padded_pad base64url base64url_ok b) as Hd. fold n in Hd. unfold pad_len in Hd. simpl group in Hd.
  destruct (Nat.eqb_spec (n mod 4) 0) as [E|E]; simpl negb; cbn iota.
  - rewrite E in Hd. simpl in Hd. by rewrite app_str_nil in Hd.
  - rewrite Nat.mod_small in Hd; [done|]. pose proof (Nat.mod_upper_bound n 4). lia.
Qed.

Lemma hex_digit_value z : 0 <= z < 16 -> hex_value (hex_digit z) = Some z.
Proof.
  intros Hz. assert (forallb (fun n => bool_decide (hex_value (hex_digit (Z.of_nat n)) = Some (Z.of_nat n))) (seq 0 16) = true)
    as H by (vm_compute; reflexivity).
  rewrite forallb_forall in H. specialize (H (Z.to_nat z)). rewrite Z2Nat.id in H by lia.
  eapply bool_decide_eq_true_1, H. apply in_seq. lia.
Qed.

Lemma hex_decode_encode b : hex_decode (hex_encode b) = Some b.
Proof.
  induction b as [|x b IH]; [done|]. pose proof (bz_range x). simpl.
  rewrite !hex_digit_value by (split; [apply Z.div_pos || apply Z.mod_pos_bound; lia|apply Z.div_lt_upper_bound || apply Z.mod_pos_bound; lia]).
  simpl. rewrite IH. simpl. do 2 f_equal. rewrite <-(zb_bz x) at 3. f_equal.
  pose proof (Z.div_mod (bz x) 16 ltac:(lia)). lia.
Qed.
