(* ===== verification/VectorClock.v ===== *)
(** * Vector clocks (internal/sync/vector.go)

    A [VectorClock] is a Go map from device identifiers to [uint64] counters;
    the nil map, which reads as empty and cannot be written, is [None]. *)

From S2P Require Import Prelude.

(** ** Data *)

Definition VectorClock : Type := option (gmap string Z).

Inductive Ordering : Type := Before | Equal | After | Concurrent.

#[export] Instance Ordering_eq_dec : EqDecision Ordering.
Proof. solve_decision. Defined.

(** The entries that [range] visits. *)
Definition entries (v : VectorClock) : gmap string Z := default ∅ v.

(** ** Operations *)

Definition NewVectorClock : VectorClock := Some ∅.

Definition Get (v : VectorClock) (deviceID : string) : Z :=
  default 0 (entries v !! deviceID).

(** Assignment to an entry: a nil map panics. *)
Definition set_entry (v : VectorClock) (deviceID : string) (counter : Z) : Res VectorClock :=
  match v with
  | None => Panic "assignment to entry in nil map"
  | Some m => Ok (Some (<[deviceID := counter]> m))
  end.

Definition Increment (v : VectorClock) (deviceID : string) : Res VectorClock :=
  set_entry v deviceID (u64 (Get v deviceID + 1)).

Definition merge_step (v : VectorClock) (e : string * Z) : Res VectorClock :=
  let '(device, counter) := e in
  if Get v device <? counter then set_entry v device counter else Ok v.

Definition Merge (v other : VectorClock) : Res VectorClock :=
  foldM merge_step v (map_to_list (entries other)).

(** The two loops of [Compare], over the flags [(superset, subset)]. *)
Definition compare_step (other : VectorClock) (flags : bool * bool) (e : string * Z) : bool * bool :=
  let '(superset, subset) := flags in
  let '(device, counter) := e in
  let otherCounter := Get other device in
  if otherCounter <? counter then (true, subset)
  else if counter <? otherCounter then (superset, true)
  else (superset, subset).

Definition missing_step (v : VectorClock) (subset : bool) (e : string * Z) : bool :=
  let '(device, counter) := e in
  if negb (bool_decide (is_Some (entries v !! device))) && (0 <? counter) then true else subset.

Definition Compare (v other : VectorClock) : Ordering :=
  let '(superset, subset) :=
    foldl (compare_step other) (false, false) (map_to_list (entries v)) in
  let subset := foldl (missing_step v) subset (map_to_list (entries other)) in
  match superset, subset with
  | false, false => Equal
  | true, false => After
  | false, true => Before
  | true, true => Concurrent
  end.

Definition IsConcurrent (v other : VectorClock) : bool :=
  bool_decide (Compare v other = Concurrent).

Definition HappenedBefore (v other : VectorClock) : bool :=
  bool_decide (Compare v other = Before).

Definition copy_step (m : gmap string Z) (e : string * Z) : gmap string Z :=
  let '(device, counter) := e in <[device := counter]> m.

Definition Copy (v : VectorClock) : VectorClock :=
  Some (foldl copy_step ∅ (map_to_list (entries v))).

(** ** Specification: the pointwise order *)

Definition wf_clock (v : VectorClock) : Prop := map_Forall (fun _ c => in_u64 c) (entries v).

Definition vc_le (v w : VectorClock) : Prop := forall d, Get v d <= Get w d.

#[export] Instance vc_equiv : Equiv VectorClock := fun v w => forall d, Get v d = Get w d.

#[export] Instance vc_equivalence : Equivalence (≡@{VectorClock}).
Proof. split; repeat intro; unfold equiv, vc_equiv in *; naive_solver congruence. Qed.

#[export] Instance vc_le_proper : Proper ((≡) ==> (≡) ==> iff) vc_le.
Proof. intros v v' Hv w w' Hw. unfold vc_le. split; intros H d; specialize (H d); rewrite ?Hv, ?Hw in *; by rewrite <-?Hv, <-?Hw in *. Qed.

#[export] Instance vc_le_preorder : PreOrder vc_le.
Proof. split; [intros v d; lia | intros u v w H1 H2 d; specialize (H1 d); specialize (H2 d); lia]. Qed.

(** What each answer of [Compare] means. *)
Definition ordering_spec (o : Ordering) (v w : VectorClock) : Prop :=
  match o with
  | Equal => v ≡ w
  | After => vc_le w v /\ ~ vc_le v w
  | Before => vc_le v w /\ ~ vc_le w v
  | Concurrent => ~ vc_le v w /\ ~ vc_le w v
  end.

Definition flip_ordering (o : Ordering) : Ordering :=
  match o with Before => After | After => Before | o => o end.

(** ** Lemmas *)

Lemma Get_nonneg v d : wf_clock v -> 0 <= Get v d.
Proof.
  intros H. unfold Get. destruct (entries v !! d) eqn:E; simpl; [|lia].
  apply H in E. unfold in_u64 in E. lia.
Qed.

#[export] Hint Resolve Get_nonneg : vault.

Lemma superset_fold other l flags :
  (foldl (compare_step other) flags l).1 = true <->
  flags.1 = true \/ exists d c, (d, c) ∈ l /\ Get other d < c.
Proof.
  revert flags. induction l as [|[d c] l IH]; intros [sp sb]; simpl; [set_solver|].
  rewrite IH. clear IH. destruct (Get other d <? c) eqn:E1; [|destruct (c <? Get other d) eqn:E2];
    bool_to_prop; simpl; set_solver by lia.
Qed.

Lemma subset_fold other l flags :
  (foldl (compare_step other) flags l).2 = true <->
  flags.2 = true \/ exists d c, (d, c) ∈ l /\ c < Get other d.
Proof.
  revert flags. induction l as [|[d c] l IH]; intros [sp sb]; simpl; [set_solver|].
  rewrite IH. clear IH. destruct (Get other d <? c) eqn:E1; [|destruct (c <? Get other d) eqn:E2];
    bool_to_prop; simpl; set_solver by lia.
Qed.

Lemma missing_fold v l b :
  foldl (missing_step v) b l = true <->
  b = true \/ exists d c, (d, c) ∈ l /\ entries v !! d = None /\ 0 < c.
Proof.
  revert b. induction l as [|[d c] l IH]; intros b; simpl; [set_solver|].
  rewrite IH. clear IH.
  destruct (entries v !! d) eqn:E; [|destruct (0 <? c) eqn:E2]; bool_to_prop;
    rewrite ?bool_decide_true, ?bool_decide_false by (rewrite ?is_Some_None; eauto with congruence);
    simpl; set_solver by (congruence || lia).
Qed.

Lemma elem_entries (v : VectorClock) d c : (d, c) ∈ map_to_list (entries v) <-> entries v !! d = Some c.
Proof. apply elem_of_map_to_list. Qed.

Lemma Get_Some v d c : entries v !! d = Some c -> Get v d = c.
Proof. unfold Get. by intros ->. Qed.

Lemma Get_None v d : entries v !! d = None -> Get v d = 0.
Proof. unfold Get. by intros ->. Qed.

Lemma wf_entry v d c : wf_clock v -> entries v !! d = Some c -> 0 <= c.
Proof. intros H E. apply H in E. unfold in_u64 in E. lia. Qed.

(** The order is decided by looking at the entries of the left clock. *)
Lemma vc_le_or_witness v w :
  wf_clock w -> vc_le v w \/ exists d c, entries v !! d = Some c /\ Get w d < c.
Proof.
  intros Hw. destruct (decide (map_Exists (fun d c => Get w d < c) (entries v))) as [Hex|Hex].
  - right. destruct Hex as (d & c & ? & ?). eauto.
  - left. intros d. destruct (entries v !! d) as [c|] eqn:E.
    + rewrite (Get_Some _ _ _ E). apply Z.nlt_ge. intros Hlt. apply Hex. by exists d, c.
    + rewrite (Get_None _ _ E). auto with vault.
Qed.

Lemma witness_not_vc_le v w d c : entries v !! d = Some c -> Get w d < c -> ~ vc_le v w.
Proof. intros E Hlt Hle. specialize (Hle d). rewrite (Get_Some _ _ _ E) in Hle. lia. Qed.

(** The flag [superset] stays unset exactly when [v] is below [other]. *)
Lemma superset_spec v other sub :
  wf_clock other ->
  (foldl (compare_step other) (false, sub) (map_to_list (entries v))).1 = true <-> ~ vc_le v other.
Proof.
  intros Ho. rewrite superset_fold. simpl. split.
  - intros [?|(d & c & Hin & Hlt)]; [done|]. apply elem_entries in Hin.
    eauto using witness_not_vc_le.
  - intros Hn. right. destruct (vc_le_or_witness v other Ho) as [?|(d & c & ? & ?)]; [done|].
    exists d, c. by rewrite elem_entries.
Qed.

(** The flag [subset], after both loops, stays unset exactly when [other] is below [v]. *)
Lemma subset_spec v other sup :
  wf_clock v ->
  foldl (missing_step v)
    (foldl (compare_step other) (sup, false) (map_to_list (entries v))).2
    (map_to_list (entries other)) = true <-> ~ vc_le other v.
Proof.
  intros Hv. rewrite missing_fold, subset_fold. simpl. split.
  - intros [[?|(d & c & Hin & Hlt)]|(d & c & Hin & HN & Hpos)] Hle; [done| |];
      apply elem_entries in Hin; specialize (Hle d).
    + rewrite (Get_Some _ _ _ Hin) in Hle. lia.
    + rewrite (Get_Some _ _ _ Hin), (Get_None _ _ HN) in Hle. lia.
  - intros Hn. destruct (vc_le_or_witness other v Hv) as [?|(d & c & Hin & Hlt)]; [done|].
    destruct (entries v !! d) as [c'|] eqn:E.
    + left. right. exists d, c'. rewrite elem_entries, (Get_Some _ _ _ Hin).
      by rewrite (Get_Some _ _ _ E) in Hlt.
    + right. exists d, c. rewrite elem_entries. by rewrite (Get_None _ _ E) in Hlt.
Qed.

Lemma equiv_vc_le v w : v ≡ w <-> vc_le v w /\ vc_le w v.
Proof.
  split.
  - intros H. split; intros d; specialize (H d); lia.
  - intros [H1 H2] d. specialize (H1 d). specialize (H2 d). lia.
Qed.

Lemma ordering_spec_unique o o' v w :
  ordering_spec o v w -> ordering_spec o' v w -> o = o'.
Proof. destruct o, o'; simpl; rewrite ?equiv_vc_le; tauto. Qed.

Lemma ordering_spec_flip o v w : ordering_spec o v w -> ordering_spec (flip_ordering o) w v.
Proof. destruct o; simpl; rewrite ?equiv_vc_le; tauto. Qed.

Lemma Compare_meets_spec v other :
  wf_clock v -> wf_clock other -> ordering_spec (Compare v other) v other.
Proof.
  intros Hv Ho. unfold Compare.
  pose proof (superset_spec v other false Ho) as Hsup.
  pose proof (subset_spec v other false Hv) as Hsub.
  pose proof (vc_le_or_witness v other Ho) as Hl.
  pose proof (vc_le_or_witness other v Hv) as Hr.
  pose proof (witness_not_vc_le v other) as Wl. pose proof (witness_not_vc_le other v) as Wr.
  destruct (foldl (compare_step other) (false, false) _) as [sp sb]. simpl in *.
  destruct (foldl (missing_step v) sb _), sp; simpl; rewrite ?equiv_vc_le; naive_solver.
Qed.

(** *** Merge *)

Lemma Get_insert m d c d' :
  Get (Some (<[d := c]> m)) d' = if decide (d = d') then c else Get (Some m) d'.
Proof. unfold Get; simpl. rewrite lookup_insert. by case_decide. Qed.

Lemma merge_fold m l :
  NoDup l.*1 ->
  exists m', foldM merge_step (Some m) l = Ok (Some m') /\
    forall d, Get (Some m') d =
      match (list_to_map l : gmap string Z) !! d with
      | Some c => Z.max (Get (Some m) d) c
      | None => Get (Some m) d
      end.
Proof.
  revert m. induction l as [|[d c] l IH]; intros m Hnd; simpl in *; [by exists m|].
  apply NoDup_cons in Hnd as [Hd Hnd].
  assert (HN : (list_to_map l : gmap string Z) !! d = None) by by apply not_elem_of_list_to_map.
  destruct (Get (Some m) d <? c) eqn:E; bool_to_prop.
  - destruct (IH (<[d := c]> m) Hnd) as (m' & Hf & Hget). exists m'. split; [done|].
    intros d'. rewrite Hget, Get_insert, lookup_insert. case_decide; [|done]. subst. rewrite HN. lia.
  - destruct (IH m Hnd) as (m' & Hf & Hget). exists m'. split; [done|].
    intros d'. rewrite Hget, lookup_insert. case_decide; [|done]. subst. rewrite HN. lia.
Qed.

(** Whatever order the runtime enumerates the entries of [other] in, the merged
    clock holds the maximum for each device. *)
Lemma merge_any_order m other l :
  wf_clock (Some m) -> wf_clock other -> l ≡ₚ map_to_list (entries other) ->
  exists m', foldM merge_step (Some m) l = Ok (Some m') /\
    forall d, Get (Some m') d = Z.max (Get (Some m) d) (Get other d).
Proof.
  intros Hm Ho Hl.
  assert (Hnd : NoDup l.*1) by (rewrite Hl; apply NoDup_fst_map_to_list).
  destruct (merge_fold m l Hnd) as (m' & Hf & Hget). exists m'. split; [done|].
  intros d. rewrite Hget. replace (list_to_map l : gmap string Z) with (entries other).
  - pose proof (Get_nonneg (Some m) d Hm). destruct (entries other !! d) eqn:E.
    + by rewrite (Get_Some _ _ _ E).
    + rewrite (Get_None _ _ E). lia.
  - rewrite <-(list_to_map_to_list (entries other)). symmetry. by apply list_to_map_proper.
Qed.

Lemma wf_from_Get m : (forall d, in_u64 (Get (Some m) d)) -> wf_clock (Some m).
Proof. intros H d c E. specialize (H d). unfold Get in H. simpl in *. by rewrite E in H. Qed.

Lemma wf_Get v d : wf_clock v -> in_u64 (Get v d).
Proof.
  intros H. unfold Get. destruct (entries v !! d) eqn:E; simpl; [by apply H in E|]. unfold in_u64. lia.
Qed.

Lemma Merge_max m other :
  wf_clock (Some m) -> wf_clock other ->
  exists m', Merge (Some m) other = Ok (Some m') /\ wf_clock (Some m') /\
    forall d, Get (Some m') d = Z.max (Get (Some m) d) (Get other d).
Proof.
  intros Hm Ho. destruct (merge_any_order m other _ Hm Ho (Permutation_refl _)) as (m' & Hf & Hget).
  exists m'. split_and!; [done| |done]. apply wf_from_Get. intros d. rewrite Hget.
  pose proof (wf_Get _ d Hm). pose proof (wf_Get _ d Ho). unfold in_u64 in *. lia.
Qed.

Lemma u64_succ z : 0 <= z < 2 ^ 64 -> u64 (z + 1) = if z <? max_u64 then z + 1 else 0.
Proof.
  unfold u64, max_u64. intros Hz. destruct (z <? 2 ^ 64 - 1) eqn:E; bool_to_prop.
  - apply Z.mod_small. lia.
  - replace (z + 1) with (2 ^ 64) by lia. reflexivity.
Qed.

(** ** Properties *)

(** [C11] [Compare] decides the pointwise order of the counters: for clocks whose
    counters are [uint64] values it answers [Equal], [Before], [After] or
    [Concurrent] exactly when the clocks are equal, strictly below, strictly above
    or incomparable, whatever devices they mention; and swapping the arguments
    swaps [Before] and [After]. *)
Theorem Compare_correct (v other : VectorClock) (Hv : wf_clock v) (Ho : wf_clock other) :
  (forall o, Compare v other = o <-> ordering_spec o v other) /\
  Compare other v = flip_ordering (Compare v other).
Proof.
  split.
  - intros o. split; [intros <-; by apply Compare_meets_spec|].
    intros H. by apply (ordering_spec_unique _ _ v other); [apply Compare_meets_spec|].
  - apply (ordering_spec_unique _ _ other v); [by apply Compare_meets_spec|].
    by apply ordering_spec_flip, Compare_meets_spec.
Qed.

(** [Fact] Merging into a non-nil clock never fails and yields the least upper
    bound of the two clocks, in whatever order [range] enumerates the entries of
    the other clock. *)
Theorem Merge_least_upper_bound m (other : VectorClock) (l : list (string * Z))
    (Hm : wf_clock (Some m)) (Ho : wf_clock other) (Hl : l ≡ₚ map_to_list (entries other)) :
  exists u u', Merge (Some m) other = Ok u /\ foldM merge_step (Some m) l = Ok u' /\ u ≡ u' /\
    wf_clock u /\ vc_le (Some m) u /\ vc_le other u /\
    forall x, vc_le (Some m) x -> vc_le other x -> vc_le u x.
Proof.
  destruct (Merge_max m other Hm Ho) as (u & Hu & Hwf & Hget).
  destruct (merge_any_order m other l Hm Ho Hl) as (u' & Hu' & Hget').
  exists (Some u), (Some u'). split_and!; try done.
  - intros d. by rewrite Hget, Hget'.
  - intros d. rewrite Hget. lia.
  - intros d. rewrite Hget. lia.
  - intros x H1 H2 d. rewrite Hget. specialize (H1 d). specialize (H2 d). lia.
Qed.

(** [Fact] A device's tick moves its clock strictly forward, as long as the 64-bit
    counter does not wrap: at [2^64 - 1] the counter restarts at zero and the new
    clock compares as [Before] the old one.  A nil clock cannot be ticked: the
    assignment panics. *)
Theorem Increment_order m d (Hm : wf_clock (Some m)) :
  (exists u, Increment (Some m) d = Ok u /\ wf_clock u /\
     (forall d', d' <> d -> Get u d' = Get (Some m) d') /\
     if Get (Some m) d <? max_u64
     then Get u d = Get (Some m) d + 1 /\ HappenedBefore (Some m) u = true
     else Get u d = 0 /\ HappenedBefore u (Some m) = true) /\
  exists msg, Increment None d = Panic msg.
Proof.
  split; [|by eexists].
  set (u := Some (<[d := u64 (Get (Some m) d + 1)]> m)).
  assert (Hget : forall d', Get u d' = if decide (d = d') then u64 (Get (Some m) d + 1) else Get (Some m) d')
    by (intros; apply Get_insert).
  assert (Hwf : wf_clock u).
  { apply wf_from_Get. intros d'. fold u. rewrite Hget. case_decide; auto using wf_Get, u64_range. }
  exists u. split_and!; [done|done| |].
  - intros d' Hne. rewrite Hget. by rewrite decide_False.
  - pose proof (wf_Get _ d Hm) as Hr. unfold in_u64, HappenedBefore in *.
    rewrite (u64_succ _ Hr) in Hget. clearbody u.
    destruct (Get (Some m) d <? max_u64) eqn:E; bool_to_prop; (split;
      [by rewrite Hget, decide_True
      |apply bool_decide_eq_true, Compare_correct; auto; split; intros Hle || intros d';
       rewrite ?Hget; try case_decide; subst; try lia]).
    all: specialize (Hle d); rewrite Hget, decide_True in Hle by done; unfold max_u64 in *; lia.
Qed.

(** ** Witnesses *)

Definition clock_a : VectorClock := Some {["laptop" := 3; "phone" := 1]}.
Definition clock_b : VectorClock := Some {["laptop" := 2; "tablet" := 5]}.

Lemma wf_clock_a : wf_clock clock_a.
Proof. apply (bool_decide_eq_true_1 (map_Forall (fun _ c => 0 <= c < 2 ^ 64) (entries clock_a))). vm_compute. reflexivity. Qed.

Lemma wf_clock_b : wf_clock clock_b.
Proof. apply (bool_decide_eq_true_1 (map_Forall (fun _ c => 0 <= c < 2 ^ 64) (entries clock_b))). vm_compute. reflexivity. Qed.

Lemma Compare_correct_witness :
  Compare clock_a clock_b = Concurrent /\ ordering_spec Concurrent clock_a clock_b.
Proof.
  split; [vm_compute; reflexivity|].
  apply (Compare_correct clock_a clock_b wf_clock_a wf_clock_b). vm_compute. reflexivity.
Defined.

Lemma Merge_least_upper_bound_witness :
  exists u, Merge clock_a clock_b = Ok u /\ vc_le clock_a u /\ vc_le clock_b u.
Proof.
  destruct (Merge_least_upper_bound {["laptop" := 3; "phone" := 1]} clock_b _
              wf_clock_a wf_clock_b (Permutation_refl _)) as (u & u' & H & _ & _ & _ & H1 & H2 & _).
  exists u. exact (conj H (conj H1 H2)).
Defined.

Lemma Increment_order_witness :
  exists u, Increment clock_a "phone" = Ok u /\ Get u "phone" = 2 /\ HappenedBefore clock_a u = true.
Proof.
  destruct (Increment_order {["laptop" := 3; "phone" := 1]} "phone" wf_clock_a) as [(u & H & _ & _ & H1 & H2) _].
  exists u. exact (conj H (conj H1 H2)).
Defined.
