(* ===== verification/VfsPath.v ===== *)
(** * Virtual paths (internal/vfs/path.go)

    The path functions of the virtual filesystem, on Unix separators
    ([filepath.ToSlash] is then the identity).  An index or slice expression
    that the code could evaluate out of range is a [Panic]. *)

From S2P Require Import Prelude GoStrings.

Definition Separator : string := "/".

(** [filepath.ToSlash] where the OS separator is already a slash. *)
Definition ToSlash (path : string) : string := path.

(** [s[:n]] *)
Definition slice_to (s : string) (n : Z) : Res string :=
  if (0 <=? n) && (n <=? Z.of_nat (len s)) then Ok (str_take (Z.to_nat n) s)
  else Panic "slice bounds out of range".

(** ** Operations *)

Definition Normalize (path : string) : string :=
  if bool_decide (path = "") then Separator
  else
    let path := if negb (HasPrefix path Separator) then (Separator +:+ path)%string else path in
    let path := ToSlash (Clean path) in
    if negb (HasPrefix path Separator) then (Separator +:+ path)%string else path.

Definition Split (path : string) : string * string :=
  let path := TrimSuffix (Normalize path) Separator in
  let lastIdx := LastIndex path slash in
  if lastIdx =? -1 then (Separator, path)
  else if lastIdx =? 0 then (Separator, str_drop 1 path)
  else (str_take (Z.to_nat lastIdx) path, str_drop (Z.to_nat (lastIdx + 1)) path).

Definition join_step (result e : string) : string :=
  let e := Trim e slash in
  if bool_decide (e = "") then result else (result +:+ Separator +:+ e)%string.

Definition rangeSlice (s : list string) : list string := s.

Definition Join (elem : list string) : string :=
  match elem with
  | [] => Separator
  | e0 :: rest => Normalize (foldl join_step (Normalize e0) (rangeSlice rest))
  end.

Definition Dir (path : string) : string := (Split path).1.
Definition Base (path : string) : string := (Split path).2.
Definition IsRoot (path : string) : bool := bool_decide (Normalize path = Separator).
Definition GetName (path : string) : string := Base path.
Definition GetParent (path : string) : string := Dir path.

Definition NUL : ascii := "000"%char.

Definition isValidComponent (name : string) : bool :=
  if bool_decide (name = "") then false
  else if bool_decide (name = ".") || bool_decide (name = "..") then false
  else if has_char NUL name || has_char slash name then false
  else true.

(** The loop over the components: an empty one is skipped. *)
Fixpoint validate_components (components : list string) : Res unit :=
  match components with
  | [] => Ok tt
  | comp :: rest =>
      if bool_decide (comp = "") then validate_components rest
      else if negb (isValidComponent comp) then Err ErrInvalidPath
      else validate_components rest
  end.

Definition Validate (path : string) : Res unit :=
  let path := Normalize path in
  if bool_decide (path = "") then Err ErrInvalidPath
  else if has_char NUL path then Err ErrInvalidPath
  else validate_components (split_char slash (Trim path slash)).

Definition Ext (path : string) : string :=
  let base := Base path in
  let idx := LastIndex base "."%char in
  if idx =? -1 then "" else str_drop (Z.to_nat idx) base.

Definition StripExt (path : string) : Res string :=
  let ext := Ext path in
  if bool_decide (ext = "") then Ok path
  else slice_to path (Z.of_nat (len path) - Z.of_nat (len ext)).

Definition matchRegex (pattern s : string) : bool :=
  if bool_decide (pattern = "^.*$") then true
  else
    let pattern := if HasPrefix pattern "^" then str_drop 1 pattern else pattern in
    let pattern := if HasSuffix pattern "$" then str_take (len pattern - 1) pattern else pattern in
    if bool_decide (pattern = ".*") then true
    else
      match SplitStr pattern ".*" with
      | [p0; p1] =>
          HasPrefix s (TrimSuffix p0 "\") && HasSuffix s (TrimPrefix p1 "\")
      | _ => bool_decide (pattern = s)
      end.

Definition MatchPattern (pattern path : string) : bool :=
  let pattern := ReplaceAll pattern "."%char "\." in
  let pattern := ReplaceAll pattern "*"%char ".*" in
  let pattern := ReplaceAll pattern "?"%char "." in
  matchRegex ("^" +:+ pattern +:+ "$") path.

(** [for j := n - 1; j >= 0; j-- { if a[j] == '/' { return a[:j] } }; return Separator] *)
Fixpoint back_up (a : string) (n : nat) : string :=
  match n with
  | O => Separator
  | S j => if bool_decide (str_get a j = Some slash) then str_take j a else back_up a j
  end.

(** The first index below [n] at which the strings differ. *)
Fixpoint first_diff (a b : string) (i n : nat) : option nat :=
  match n with
  | O => None
  | S n => if bool_decide (str_get a i = str_get b i) then first_diff a b (S i) n else Some i
  end.

Definition commonPrefix (a b : string) : string :=
  let minLen := Nat.min (len a) (len b) in
  match first_diff a b 0 minLen with
  | Some i => back_up a i
  | None =>
      if bool_decide (minLen < len a)%nat && bool_decide (str_get a minLen = Some slash)
      then str_take minLen a
      else if bool_decide (minLen < len b)%nat && bool_decide (str_get b minLen = Some slash)
      then str_take minLen b
      else if bool_decide (minLen = 0%nat) then Separator
      else back_up a minLen
  end.

(** The loop of [CommonPath], with its early exit at the root. *)
Fixpoint common_loop (first : string) (rest : list string) : string :=
  match rest with
  | [] => first
  | p :: rest =>
      let first := commonPrefix first p in
      if bool_decide (first = Separator) then first else common_loop first rest
  end.

Definition CommonPath (paths : list string) : string :=
  match paths with
  | [] => Separator
  | [p] => Dir p
  | p :: rest => common_loop (Normalize p) (Normalize <$> rest)
  end.

Definition Rel (base target : string) : Res string :=
  let base := Normalize base in
  let target := Normalize target in
  if negb (HasPrefix target base) then Err ErrInvalidPath
  else
    let rel := TrimPrefix (TrimPrefix target base) Separator in
    if bool_decide (rel = "") then Ok "." else Ok rel.

(** ** Specification: a path denotes the list of its elements *)

Definition elems (path : string) : list string := clean_elems true (split_char slash path).

(** [target] lies in the tree rooted at [base]. *)
Definition below (base target : string) : Prop := exists r, elems target = elems base ++ r.

(** ** Lemmas *)

Lemma elems_good p : Forall good_elem (elems p).
Proof. unfold elems. auto with vault. Qed.

#[export] Hint Resolve elems_good : vault.

Lemma elems_slash p : elems (String slash p) = elems p.
Proof. reflexivity. Qed.

Lemma elems_abs_path l : Forall good_elem l -> elems (abs_path l) = l.
Proof. apply abs_path_elems. Qed.

Lemma HasPrefix_abs l : HasPrefix (abs_path l) "/" = true.
Proof. unfold abs_path. by rewrite HasPrefix_slash, bool_decide_true. Qed.

Lemma Clean_elems p : Clean (String slash p) = abs_path (elems p).
Proof. rewrite <-elems_slash. apply Clean_abs. Qed.

Lemma Normalize_elems p : Normalize p = abs_path (elems p).
Proof.
  unfold Normalize, ToSlash. case_bool_decide as Hp; [by subst|].
  destruct p as [|c p]; [done|]. unfold Separator.
  rewrite HasPrefix_slash. case_bool_decide as Hc; cbn [negb]; subst.
  - by rewrite Clean_elems, HasPrefix_abs, <-elems_slash.
  - change ("/" +:+ String c p)%string with (String slash (String c p)).
    by rewrite Clean_elems, HasPrefix_abs.
Qed.

Lemma Normalize_abs_path l : Forall good_elem l -> Normalize (abs_path l) = abs_path l.
Proof. intros. by rewrite Normalize_elems, elems_abs_path. Qed.

Lemma split_char_app sep s t :
  split_char sep (s +:+ String sep t) = split_char sep s ++ split_char sep t.
Proof.
  induction s as [|c s IH]; str_simpl; [by rewrite bool_decide_true|].
  rewrite IH. destruct (split_char_cons sep s) as (w & ws & ->). by case_bool_decide.
Qed.

(** Appending good elements below a path. *)
Lemma elems_app s l :
  Forall good_elem l -> elems (s +:+ String slash (join_char slash l)) = elems s ++ l.
Proof.
  intros Hl. unfold elems. rewrite split_char_app. unfold clean_elems. rewrite foldl_app.
  destruct l as [|w ws]; [by rewrite app_nil_r|].
  rewrite split_join; [|done|by apply good_elems_no_sep].
  by rewrite clean_fold_id, reverse_app, reverse_involutive.
Qed.

Lemma elems_snoc s w : good_elem w -> elems (s +:+ String slash w) = elems s ++ [w].
Proof. intros. apply (elems_app s [w]). by constructor. Qed.

Lemma Join_good d l :
  Forall good_elem l -> Join (d :: l) = abs_path (elems d ++ l).
Proof.
  intros Hl. simpl. rewrite !Normalize_elems. f_equal. unfold rangeSlice.
  set (P := fun r => elems (foldl join_step r l) = elems r ++ l).
  assert (forall r, P r) as HP; [|rewrite HP, elems_abs_path by auto with vault; done].
  unfold P. clear P. induction Hl as [|w ws Hw Hws IH]; intros r; simpl; [by rewrite app_nil_r|].
  rewrite IH. unfold join_step at 1, Separator. rewrite Trim_no_sep by apply Hw.
  rewrite bool_decide_false by apply Hw. change ("/" +:+ w) with (String slash w).
  rewrite elems_snoc by done. by rewrite <-app_assoc.
Qed.

Lemma HasSuffix_snoc_slash s w c :
  no_sep slash (String c w) -> HasSuffix (s +:+ String c w) "/" = false.
Proof.
  unfold no_sep. intros Hw. unfold HasSuffix. simpl. rewrite len_app. simpl.
  apply andb_false_intro2, bool_decide_eq_false. intros E. revert Hw.
  replace (len s + S (len w) - 1)%nat with (len s + len w)%nat in E by lia.
  assert (forall s t n, str_drop (len s + n) (s +:+ t) = str_drop n t) as Hdrop.
  { clear. intros s t n. induction s as [|d s IH]; str_simpl; [done|]. done. }
  rewrite Hdrop in E. clear Hdrop. revert c E. induction w as [|d w IH]; intros c E; simpl in E.
  - injection E as ->. done.
  - intros [_ Hd]%orb_false_iff. by apply (IH d).
Qed.

Lemma TrimSuffix_snoc_slash s w :
  good_elem w -> TrimSuffix (s +:+ String slash w) "/" = (s +:+ String slash w)%string.
Proof.
  intros (Hne & _ & _ & Hw). destruct w as [|c w]; [done|]. unfold TrimSuffix.
  assert (s +:+ String slash (String c w) = (s +:+ String slash "") +:+ String c w)%string as ->
    by by rewrite str_app_assoc.
  by rewrite HasSuffix_snoc_slash.
Qed.

Lemma Split_snoc l w :
  Forall good_elem (l ++ [w]) -> Split (abs_path (l ++ [w])) = (abs_path l, w).
Proof.
  intros Hl. unfold Split. rewrite Normalize_abs_path by done.
  assert (good_elem w) as Hw by (apply Forall_app in Hl as [_ Hl]; by inversion Hl).
  rewrite abs_path_snoc. set (X := if bool_decide (l = []) then "" else abs_path l).
  unfold Separator. rewrite TrimSuffix_snoc_slash by done. rewrite LastIndex_app by apply Hw.
  destruct (bool_decide (l = [])) eqn:El; unfold X.
  - apply bool_decide_eq_true in El as ->. by destruct w.
  - assert (Z.of_nat (len (abs_path l)) =? 0 = false) as -> by done.
    assert (Z.of_nat (len (abs_path l)) =? -1 = false) as -> by (apply Z.eqb_neq; lia).
    replace (Z.to_nat (Z.of_nat (len (abs_path l)) + 1)) with (S (len (abs_path l))) by lia.
    by rewrite Nat2Z.id, str_take_app, str_drop_S_app.
Qed.

Lemma join_char_empty l : Forall good_elem l -> join_char slash l = "" <-> l = [].
Proof.
  intros Hl. split; [|by intros ->]. destruct Hl as [|w ws (Hw & _) _]; [done|].
  destruct w as [|c w]; [done|]. destruct ws; simpl; by rewrite ?str_app_cons.
Qed.

Lemma join_char_head l c s :
  Forall good_elem l -> join_char slash l = String c s -> c <> slash.
Proof.
  intros Hl E. destruct Hl as [|w ws (Hne & _ & _ & Hw) _]; [done|].
  destruct w as [|d w]; [done|]. apply orb_false_iff in Hw as [Hd%bool_decide_eq_false _].
  destruct ws; simpl in E; rewrite ?str_app_cons in E; by injection E as <- _.
Qed.

Lemma trim_right_app c s t : trim_right c t = t -> t <> "" -> trim_right c (s +:+ t) = (s +:+ t)%string.
Proof.
  intros Ht Hne. induction s as [|d s IH]; str_simpl; [done|]. rewrite IH.
  destruct (s +:+ t)%string eqn:E; [|done]. destruct s; [|done]. by rewrite str_app_nil_l in E.
Qed.

Lemma Trim_join l : Forall good_elem l -> Trim (join_char slash l) slash = join_char slash l.
Proof.
  intros Hl. unfold Trim.
  assert (trim_left slash (join_char slash l) = join_char slash l) as ->.
  { destruct (join_char slash l) as [|c s] eqn:E; [done|]. simpl.
    rewrite bool_decide_false; [done|]. by eapply join_char_head. }
  destruct l as [|w l _] using rev_ind; [done|]. apply Forall_app in Hl as [_ Hw].
  inversion_clear Hw as [|? ? (Hne & _ & _ & Hs) _].
  destruct (decide (l = [])) as [->|Hl]; [by apply trim_right_no_sep|].
  rewrite join_char_snoc by done.
  assert (forall s, s +:+ String slash w = (s +:+ "/") +:+ w)%string as -> by (intros; by rewrite str_app_assoc).
  apply trim_right_app; [by apply trim_right_no_sep|done].
Qed.

Lemma abs_path_app l r :
  l <> [] -> r <> [] -> abs_path (l ++ r) = (abs_path l +:+ abs_path r)%string.
Proof.
  intros Hl Hr. unfold abs_path. rewrite str_app_cons. f_equal.
  induction l as [|w l IH]; [done|]. destruct l as [|w' l].
  - destruct r; [done|]. done.
  - change ((w :: w' :: l) ++ r) with (w :: w' :: (l ++ r)). rewrite !join_char_cons2.
    change (w' :: l ++ r) with ((w' :: l) ++ r). rewrite IH by done.
    by rewrite str_app_assoc, str_app_cons.
Qed.

(** What remains of a canonical path below a base. *)
Lemma Rel_elems base target r :
  elems target = elems base ++ r ->
  Rel base target = Ok (if bool_decide (r = []) then "." else join_char slash r).
Proof.
  intros E. unfold Rel. rewrite !Normalize_elems, E.
  pose proof (elems_good target) as Hg. rewrite E in Hg. apply Forall_app in Hg as [Hl Hr].
  set (l := elems base) in *. clearbody l. clear E.
  assert (exists u, abs_path (l ++ r) = (abs_path l +:+ u)%string /\ TrimPrefix u Separator = join_char slash r)
    as (u & Hu & Htrim).
  { destruct (decide (r = [])) as [->|Hr0]; [exists ""; by rewrite app_nil_r, app_str_nil|].
    destruct (decide (l = [])) as [->|Hl0].
    - exists (join_char slash r). split; [done|]. unfold TrimPrefix.
      destruct (join_char slash r) as [|c s] eqn:Ej; [done|]. unfold Separator.
      rewrite HasPrefix_slash, bool_decide_false; [done|]. by eapply join_char_head.
    - exists (abs_path r). split; [by apply abs_path_app|]. apply (TrimPrefix_app "/"). }
  rewrite Hu. unfold HasPrefix at 1. rewrite prefix_app. cbn [negb]. rewrite TrimPrefix_app, Htrim.
  repeat case_bool_decide; try done; exfalso; by apply (join_char_empty r) in Hr; naive_solver.
Qed.

Lemma elems_dot s : elems (s +:+ "/.") = elems s.
Proof.
  change "/." with (String slash "."). unfold elems. rewrite split_char_app.
  unfold clean_elems. by rewrite foldl_app.
Qed.

Lemma Join_dot base : Join [base; "."] = Normalize base.
Proof.
  change (Normalize (Normalize base +:+ "/.") = Normalize base).
  rewrite !Normalize_elems, elems_dot, elems_abs_path by auto with vault. done.
Qed.

Lemma Join_elems base r :
  r <> [] -> Forall good_elem r -> Join [base; join_char slash r] = abs_path (elems base ++ r).
Proof.
  intros Hne Hr. unfold Join. cbn [rangeSlice foldl]. unfold join_step, Separator.
  rewrite Trim_join by done. rewrite bool_decide_false by by rewrite join_char_empty.
  rewrite !Normalize_elems. f_equal. change ("/" +:+ join_char slash r)%string with (String slash (join_char slash r)).
  rewrite elems_app by done. rewrite elems_abs_path; auto with vault.
Qed.

Lemma Join_rel base r :
  Forall good_elem r ->
  Join [base; if bool_decide (r = []) then "." else join_char slash r] = abs_path (elems base ++ r).
Proof.
  intros Hr. case_bool_decide as Er; [subst|by apply Join_elems].
  by rewrite Join_dot, Normalize_elems, app_nil_r.
Qed.

(** ** Properties *)

(** [Fact] [Normalize] maps every string to a canonical absolute path: a slash
    followed by elements that are non-empty, contain no slash and are neither dot
    nor dot-dot, so no path climbs above the root; canonical paths are fixed
    points, so normalisation is idempotent and two paths normalise alike exactly
    when they denote the same elements. *)
Theorem Normalize_canonical (p : string) :
  (exists l, Forall good_elem l /\ Normalize p = abs_path l) /\
  Normalize (Normalize p) = Normalize p /\
  forall q, Normalize p = Normalize q <-> elems p = elems q.
Proof.
  rewrite Normalize_elems. split_and!.
  - eauto with vault.
  - apply Normalize_abs_path. auto with vault.
  - intros q. rewrite Normalize_elems. split; [|congruence].
    apply abs_path_inj; auto with vault.
Qed.

(** [Fact] [Split] takes a path other than the root apart into its parent
    directory and its last element, and [Join] puts them together again; the root
    splits into itself and the empty name. *)
Theorem Split_Join (p : string) :
  if IsRoot p then Split p = ("/", "")
  else good_elem (Base p) /\ Split p = (Dir p, Base p) /\
       elems p = elems (Dir p) ++ [Base p] /\ Join [Dir p; Base p] = Normalize p.
Proof.
  assert (Split p = Split (Normalize p)) as HS.
  { unfold Split. by rewrite (Normalize_elems p), (Normalize_abs_path _ (elems_good p)). }
  unfold IsRoot, Dir, Base. rewrite HS, Normalize_elems. pose proof (elems_good p) as Hg.
  destruct (elems p) as [|w l _] eqn:E using rev_ind; [done|].
  rewrite bool_decide_false.
  2:{ unfold Separator. change "/" with (abs_path []). intros H%abs_path_inj; [|done|constructor].
      by destruct l. }
  rewrite Split_snoc by done. cbn [fst snd]. apply Forall_app in Hg as [Hl Hw].
  split_and!; [by inversion Hw|done|by rewrite elems_abs_path|].
  rewrite (Join_good _ [w]) by done. by rewrite elems_abs_path.
Qed.

(** [Fact] For a target inside the tree of the base, [Rel] returns the remaining
    elements and joining them to the base gives the target back.  But the check
    is on the text of the paths, not on their elements: a sibling whose name merely
    starts with the base's name is accepted, although it does not lie below. *)
Theorem Rel_Join :
  (forall base target r, elems target = elems base ++ r ->
     exists rel, Rel base target = Ok rel /\ Join [base; rel] = Normalize target) /\
  exists base target rel, Rel base target = Ok rel /\ ~ below base target /\
     Join [base; rel] <> Normalize target.
Proof.
  split.
  - intros base target r E. rewrite (Rel_elems _ _ _ E). eexists. split; [done|].
    rewrite Normalize_elems, E. apply Join_rel.
    pose proof (elems_good target) as Hg. rewrite E in Hg. by apply Forall_app in Hg as [_ Hg].
  - exists "/foo", "/foobar", "bar". split_and!; [reflexivity| |by vm_compute].
    intros [r E]. vm_compute in E. discriminate E.
Qed.

(** ** Divergences from the comments *)

(** [CommonPath] is documented to return the longest common path prefix; for
    sibling files at the root it returns the empty string, and for two equal paths
    their parent. *)
Lemma CommonPath_root_siblings :
  CommonPath ["/a"; "/b"] = "" /\ CommonPath ["/a/b"; "/a/b"] = "/a".
Proof. split; reflexivity. Qed.

(** [MatchPattern] is documented as a glob; a pattern with a dot and no star
    does not even match itself, and [?] does not match a character. *)
Lemma MatchPattern_literals :
  MatchPattern "a.txt" "a.txt" = false /\ MatchPattern "a?c" "abc" = false /\
  MatchPattern "*.txt" "a.txt" = true.
Proof. split_and!; reflexivity. Qed.
