(* ===== verification/Merkle.v ===== *)
(** * Merkle trees of a file listing (internal/sync/merkle.go)

    [Build] groups a flat listing into a tree and [Diff] compares two trees.
    Recursion that is not structural takes a bound; running out of it stands for
    the unbounded recursion of the code.  [sort.Slice] and [sort.Strings] are a
    merge sort by byte order (the order of equal keys is unspecified in Go). *)

From S2P Require Import Prelude GoStrings GoCrypto.

(** ** Data *)

Inductive MerkleNode : Type :=
  mkNode (hash path : string) (isFile : bool) (size modTime : Z) (children : list MerkleNode).

Definition Hash (n : MerkleNode) : string := let 'mkNode h _ _ _ _ _ := n in h.
Definition Path (n : MerkleNode) : string := let 'mkNode _ p _ _ _ _ := n in p.
Definition IsFile (n : MerkleNode) : bool := let 'mkNode _ _ f _ _ _ := n in f.
Definition Size (n : MerkleNode) : Z := let 'mkNode _ _ _ s _ _ := n in s.
Definition ModTime (n : MerkleNode) : Z := let 'mkNode _ _ _ _ m _ := n in m.
Definition Children (n : MerkleNode) : list MerkleNode := let 'mkNode _ _ _ _ _ c := n in c.

(** [MerkleTree]: the root pointer and the user. *)
Record MerkleTree := { Root : option MerkleNode; UserID : string }.

Record DiffResult := mkDiff { Added : list string; Modified : list string; Deleted : list string }.

Record FileInfo := mkFile {
  fi_Path : string; fi_IsFile : bool; fi_Size : Z; fi_ModTime : Z; fi_Hash : string
}.

#[export] Instance FileInfo_eq_dec : EqDecision FileInfo.
Proof. solve_decision. Defined.

(** ** Operations *)

Fixpoint indexOf_from (s : string) (c : ascii) (i : Z) : Z :=
  match s with
  | "" => -1
  | String d s => if bool_decide (d = c) then i else indexOf_from s c (i + 1)
  end%string.

Definition indexOf (s : string) (c : ascii) : Z := indexOf_from s c 0.
Definition contains (s : string) (c : ascii) : bool := negb (indexOf s c =? -1).

(** [f.Path[len(prefix)+1:]] below the root, the whole path at the root. *)
Definition rel_path (prefix path : string) : Res string :=
  if bool_decide (prefix = "") then Ok path
  else if bool_decide (S (len prefix) <= len path)%nat then Ok (str_drop (S (len prefix)) path)
  else Panic "slice bounds out of range".

Definition grouping : Type := list FileInfo * gmap string (list FileInfo).

(** One file of the grouping loop: [(directChildren, groups)]. *)
Definition group_step (prefix : string) (acc : grouping) (f : FileInfo) : Res grouping :=
  let '(directChildren, groups) := acc in
  relPath ← rel_path prefix (fi_Path f);
  let idx := indexOf relPath slash in
  if idx =? -1 then Ok (directChildren ++ [f], groups)
  else
    let dirName := str_take (Z.to_nat idx) relPath in
    let dirName := if bool_decide (prefix = "") then dirName
                   else (prefix +:+ "/" +:+ dirName)%string in
    Ok (directChildren, <[dirName := default [] (groups !! dirName) ++ [f]]> groups).

Fixpoint map_res {A B} (f : A -> Res B) (l : list A) : Res (list B) :=
  match l with
  | [] => Ok []
  | a :: l => b ← f a; bs ← map_res f l; Ok (b :: bs)
  end.

Definition path_le (a b : MerkleNode) : Prop := String.le (Path a) (Path b).
Definition file_le (a b : FileInfo) : Prop := String.le (fi_Path a) (fi_Path b).

#[export] Instance path_le_dec : RelDecision path_le.
Proof. intros a b. unfold path_le. apply _. Defined.
#[export] Instance file_le_dec : RelDecision file_le.
Proof. intros a b. unfold file_le. apply _. Defined.

Definition sort_children (l : list MerkleNode) : list MerkleNode := merge_sort path_le l.
Definition sort_files (l : list FileInfo) : list FileInfo := merge_sort file_le l.
Definition sort_strings (l : list string) : list string := merge_sort String.le l.

Definition sum_sizes (l : list MerkleNode) : Z := foldl (fun total c => i64 (total + Size c)) 0 l.

Definition latest (l : list MerkleNode) : Z :=
  foldl (fun t c => if t <? ModTime c then ModTime c else t) 0 l.

Section Hashing.
Context `{HashFn}.

Definition hashString (s : string) : string := sha256_hex (bytes_of s).

Definition computeNodeHash (children : list MerkleNode) : string :=
  sha256_hex (concat ((fun c => bytes_of (Hash c)) <$> children)).

(** The leaf node of a file, the empty node of a directory entry. *)
Definition direct_child (f : FileInfo) : MerkleNode :=
  if fi_IsFile f
  then mkNode (fi_Hash f) (fi_Path f) true (fi_Size f) (fi_ModTime f) []
  else mkNode (hashString (fi_Path f)) (fi_Path f) false 0 (fi_ModTime f) [].

Definition dir_node (prefix : string) (children : list MerkleNode) : MerkleNode :=
  mkNode (computeNodeHash children) prefix false (sum_sizes children) (latest children) children.

Fixpoint buildNode (fuel : nat) (prefix : string) (files : list FileInfo) : Res (option MerkleNode) :=
  match fuel with
  | O => OutOfFuel
  | S fuel =>
      match files with
      | [] => Ok None
      | f0 :: rest =>
          if negb (bool_decide (prefix = "")) && bool_decide (rest = [])
             && bool_decide (fi_Path f0 = prefix)
          then Ok (Some (mkNode (fi_Hash f0) (fi_Path f0) true (fi_Size f0) (fi_ModTime f0) []))
          else
            g ← foldM (group_step prefix) ([], ∅) files;
            let '(directChildren, groups) := (g : grouping) in
            let dirNames := sort_strings (map_to_list groups).*1 in
            subs ← map_res (fun d => buildNode fuel d (default [] (groups !! d))) dirNames;
            let children := sort_children ((direct_child <$> directChildren) ++ omap id subs) in
            Ok (Some (dir_node prefix children))
      end
  end.

Definition Build (fuel : nat) (files : list FileInfo) : Res (option MerkleNode) :=
  match files with
  | [] => Ok None
  | _ => buildNode fuel "" (sort_files files)
  end.
End Hashing.

Fixpoint collectPaths (node : MerkleNode) : list string :=
  let 'mkNode _ p _ _ _ ch := node in p :: flat_map collectPaths ch.

(** [map[path]child], later children overwriting earlier ones. *)
Definition child_map (l : list MerkleNode) : gmap string MerkleNode :=
  foldl (fun m c => <[Path c := c]> m) ∅ l.

Definition add_paths (d : DiffResult) (l : list string) : DiffResult :=
  mkDiff (Added d ++ l) (Modified d) (Deleted d).
Definition del_paths (d : DiffResult) (l : list string) : DiffResult :=
  mkDiff (Added d) (Modified d) (Deleted d ++ l).
Definition mod_path (d : DiffResult) (p : string) : DiffResult :=
  mkDiff (Added d) (Modified d ++ [p]) (Deleted d).

Fixpoint diffNodes (fuel : nat) (local remote : MerkleNode) (result : DiffResult) : Res DiffResult :=
  match fuel with
  | O => OutOfFuel
  | S fuel =>
      if bool_decide (Hash local = Hash remote) then Ok result
      else if IsFile local && IsFile remote then Ok (mod_path result (Path local))
      else if negb (Bool.eqb (IsFile local) (IsFile remote))
      then Ok (add_paths (del_paths result [Path local]) [Path remote])
      else
        let localChildren := child_map (Children local) in
        let remoteChildren := child_map (Children remote) in
        result ← foldM (fun result e =>
                   let '(path, remoteChild) := e in
                   match localChildren !! path with
                   | Some localChild => diffNodes fuel localChild remoteChild result
                   | None => Ok (add_paths result (collectPaths remoteChild))
                   end) result (map_to_list remoteChildren);
        Ok (foldl (fun result e =>
              let '(path, localChild) := e in
              match remoteChildren !! path with
              | Some _ => result
              | None => del_paths result (collectPaths localChild)
              end) result (map_to_list localChildren))
  end.

Definition empty_diff : DiffResult := mkDiff [] [] [].

Definition Diff (fuel : nat) (local remote : option MerkleNode) : Res DiffResult :=
  match local, remote with
  | None, None => Ok empty_diff
  | None, Some remote => Ok (add_paths empty_diff (collectPaths remote))
  | Some local, None => Ok (del_paths empty_diff (collectPaths local))
  | Some local, Some remote =>
      if bool_decide (Hash local = Hash remote) then Ok empty_diff
      else diffNodes fuel local remote empty_diff
  end.

Fixpoint findNodeRecursive (node : MerkleNode) (path : string) : option MerkleNode :=
  let 'mkNode _ p _ _ _ ch := node in
  if bool_decide (p = path) then Some node
  else (fix go (l : list MerkleNode) : option MerkleNode :=
          match l with
          | [] => None
          | child :: l => match findNodeRecursive child path with
                          | Some found => Some found
                          | None => go l
                          end
          end) ch.

Definition FindNode (t : MerkleTree) (path : string) : option MerkleNode :=
  match Root t with None => None | Some root => findNodeRecursive root path end.

Definition GetRootHash (t : MerkleTree) : string :=
  match Root t with None => "" | Some root => Hash root end.

(** ** Specification *)

Fixpoint subnodes (node : MerkleNode) : list MerkleNode :=
  let 'mkNode _ _ _ _ _ ch := node in node :: flat_map subnodes ch.

(** The file entries at the leaves of a tree. *)
Fixpoint leaf_files (node : MerkleNode) : list FileInfo :=
  let 'mkNode h p f s m ch := node in
  if f then [mkFile p true s m h] else flat_map leaf_files ch.

Fixpoint height (node : MerkleNode) : nat :=
  let 'mkNode _ _ _ _ _ ch := node in S (foldr max 0%nat (map height ch)).

(** Example executions. *)
Section Examples.
#[local] Existing Instance toy_hash.

Definition f_a := mkFile "docs/a.txt" true 3 10 "ha".
Definition f_b := mkFile "docs/sub/b.txt" true 4 12 "hb".
Definition f_c := mkFile "c.txt" true 5 11 "hc".
Definition f_d := mkFile "docs" false 0 9 "hd".

Example Build_example :
  match Build 5 [f_b; f_a; f_c] with
  | Ok (Some t) => collectPaths t = [""; "c.txt"; "docs"; "docs/a.txt"; "docs/sub"; "docs/sub/b.txt"] /\
                   Size t = 12 /\ ModTime t = 12
  | _ => False
  end.
Proof. vm_compute. auto. Qed.
End Examples.

(** ** Lemmas: splitting a listing into direct children and groups *)

Definition no_leading_slash (f : FileInfo) : Prop := HasPrefix (fi_Path f) "/" = false.

(** [f] lies below the directory [prefix], at the relative path [rest]. *)
Definition under (prefix : string) (f : FileInfo) (rest : string) : Prop :=
  if bool_decide (prefix = "") then fi_Path f = rest /\ no_leading_slash f
  else fi_Path f = (prefix +:+ String slash rest)%string.

(** The group that the loop puts [f] in. *)
Definition child_key (prefix : string) (f : FileInfo) : option string :=
  match rel_path prefix (fi_Path f) with
  | Ok relPath =>
      let idx := indexOf relPath slash in
      if idx =? -1 then None
      else let dirName := str_take (Z.to_nat idx) relPath in
           Some (if bool_decide (prefix = "") then dirName
                 else (prefix +:+ "/" +:+ dirName)%string)
  | _ => None
  end.

Fixpoint slashes (s : string) : nat :=
  match s with
  | "" => 0%nat
  | String c s => ((if bool_decide (c = slash) then 1 else 0) + slashes s)%nat
  end%string.

Lemma rel_path_under prefix f rest : under prefix f rest -> rel_path prefix (fi_Path f) = Ok rest.
Proof.
  unfold under, rel_path. case_bool_decide; [by intros [-> _]|]. intros ->.
  rewrite bool_decide_true by (rewrite len_app; simpl; lia).
  by rewrite str_drop_S_app.
Qed.

Lemma indexOf_spec s c :
  if has_char c s
  then exists x rest, s = (x +:+ String c rest)%string /\ has_char c x = false /\ indexOf s c = Z.of_nat (len x)
  else indexOf s c = -1.
Proof.
  unfold indexOf.
  assert (forall i, if has_char c s
    then exists x rest, s = (x +:+ String c rest)%string /\ has_char c x = false /\ indexOf_from s c i = i + Z.of_nat (len x)
    else indexOf_from s c i = -1) as H; [|specialize (H 0); by destruct (has_char c s)].
  induction s as [|d s IH]; intros i; simpl; [done|]. case_bool_decide as Hd; simpl.
  - exists "", s. subst. simpl. split_and!; [done|done|lia].
  - specialize (IH (i + 1)). destruct (has_char c s); [|done].
    destruct IH as (x & rest & -> & Hx & ->). exists (String d x), rest. simpl.
    rewrite Hx, bool_decide_false, str_app_cons by done. split_and!; [done|done|lia].
Qed.

Lemma slashes_app x rest :
  has_char slash x = false -> slashes (x +:+ String slash rest) = S (slashes rest).
Proof.
  induction x as [|c x IH]; str_simpl; [done|]. intros [Hc Hx]%orb_false_iff.
  rewrite Hc, IH by done. done.
Qed.

(** A grouped file lies below its group's directory, one level down. *)
Lemma child_key_under prefix f rest d :
  under prefix f rest -> child_key prefix f = Some d ->
  d <> "" /\ exists rest', under d f rest' /\ slashes rest = S (slashes rest').
Proof.
  intros Hu. unfold child_key. rewrite (rel_path_under _ _ _ Hu).
  pose proof (indexOf_spec rest slash) as Hi. destruct (has_char slash rest) eqn:E.
  2:{ by rewrite Hi. }
  destruct Hi as (x & rest' & -> & Hx & ->).
  assert (Z.of_nat (len x) =? -1 = false) as -> by (apply Z.eqb_neq; lia).
  rewrite Nat2Z.id, str_take_app, slashes_app by done. intros [= <-].
  unfold under in *. revert Hu. case_bool_decide as Hp.
  - intros [Hf Hns]. assert (x <> "") as Hxn.
    { intros ->. unfold no_leading_slash in Hns. rewrite Hf, str_app_nil_l, HasPrefix_slash in Hns.
      by rewrite bool_decide_true in Hns. }
    split; [done|]. exists rest'. by rewrite bool_decide_false.
  - intros Hf. assert (prefix +:+ "/" +:+ x <> "")%string as Hne by by destruct prefix.
    split; [done|]. exists rest'. rewrite bool_decide_false by done. split; [|done].
    rewrite Hf. change ("/" +:+ x)%string with (String slash x).
    by rewrite str_app_assoc, str_app_cons.
Qed.

Definition groups_of (groups : gmap string (list FileInfo)) (d : string) : list FileInfo :=
  default [] (groups !! d).

Lemma group_fold prefix files direct groups :
  Forall (fun f => exists rest, rel_path prefix (fi_Path f) = Ok rest) files ->
  exists groups', foldM (group_step prefix) (direct, groups) files =
      Ok (direct ++ filter (fun f => child_key prefix f = None) files, groups') /\
    (forall d, groups_of groups' d = groups_of groups d ++ filter (fun f => child_key prefix f = Some d) files) /\
    (forall d, d ∈ (map_to_list groups').*1 <->
       d ∈ (map_to_list groups).*1 \/ exists f, f ∈ files /\ child_key prefix f = Some d).
Proof.
  assert (forall (m : gmap string (list FileInfo)) d, d ∈ (map_to_list m).*1 <-> is_Some (m !! d)) as Hkeys.
  { intros m d. rewrite list_elem_of_fmap. split.
    - intros ([k v] & -> & Hkv%elem_of_map_to_list). by exists v.
    - intros [v Hv]. exists (d, v). by rewrite elem_of_map_to_list. }
  intros Hf. revert direct groups. induction Hf as [|f files [rest Hu] Hf IH]; intros direct groups.
  { exists groups. simpl. rewrite app_nil_r. split_and!; [done|by intros; rewrite app_nil_r|set_solver]. }
  assert (group_step prefix (direct, groups) f =
    match child_key prefix f with
    | None => Ok (direct ++ [f], groups)
    | Some d => Ok (direct, <[d := groups_of groups d ++ [f]]> groups)
    end) as Hs.
  { unfold group_step, child_key. rewrite Hu. simpl.
    by destruct (indexOf rest slash =? -1). }
  cbn [foldM]. rewrite Hs. rewrite filter_cons.
  destruct (child_key prefix f) as [d|] eqn:E; simpl.
  - destruct (IH direct (<[d := groups_of groups d ++ [f]]> groups)) as (g' & H1 & H2 & H3).
    exists g'. split_and!; [done| |].
    + intros d'. rewrite H2, filter_cons. unfold groups_of at 1. rewrite lookup_insert. case_decide as Hd; simpl.
      * subst d'. rewrite decide_True by congruence. by rewrite <-app_assoc.
      * rewrite decide_False by congruence. done.
    + intros d'. rewrite H3, !Hkeys, lookup_insert. case_decide as Hd; simpl; [subst; set_solver|]. set_solver.
  - destruct (IH (direct ++ [f]) groups) as (g' & H1 & H2 & H3).
    exists g'. rewrite H1, <-app_assoc. split_and!; [done| |].
    + intros d'. rewrite H2, filter_cons, decide_False by congruence. done.
    + intros d'. rewrite H3. set_solver.
Qed.

(** Splitting a list by an optional key. *)
Lemma partition_by_key {A K} `{EqDecision K} (key : A -> option K) (l : list A) (ds : list K) :
  NoDup ds -> (forall a d, a ∈ l -> key a = Some d -> d ∈ ds) ->
  l ≡ₚ filter (fun a => key a = None) l ++ concat ((fun d => filter (fun a => key a = Some d) l) <$> ds).
Proof.
  intros Hnd. induction l as [|a l IH]; intros Hcov.
  { simpl. clear Hcov Hnd. induction ds; simpl; done. }
  assert (l ≡ₚ filter (fun a => key a = None) l ++ concat ((fun d => filter (fun a => key a = Some d) l) <$> ds))
    as Hl by (apply IH; intros; eapply Hcov; [by right|done]).
  rewrite filter_cons. destruct (key a) as [d|] eqn:E.
  - rewrite decide_False by done. rewrite Hl at 1. rewrite Permutation_middle. f_equiv.
    specialize (Hcov a d ltac:(by left) E). clear IH Hl.
    apply list_elem_of_split in Hcov as (ds1 & ds2 & ->).
    rewrite !fmap_app, !fmap_cons, !concat_app. simpl. rewrite filter_cons, decide_True by done.
    assert (forall ds' : list K, d ∉ ds' -> (fun d => filter (fun a => key a = Some d) (a :: l)) <$> ds' =
       (fun d => filter (fun a => key a = Some d) l) <$> ds') as Hsame.
    { intros ds' Hd. apply list_fmap_ext. intros i x Hx. rewrite filter_cons, decide_False; [done|].
      intros Hk. apply Hd. apply list_elem_of_lookup. exists i. congruence. }
    apply NoDup_app in Hnd as (Hn1 & Hn12 & [Hn2 _]%NoDup_cons).
    rewrite (Hsame ds1), (Hsame ds2) by set_solver. simpl. by rewrite Permutation_middle.
  - rewrite decide_True by done. simpl. f_equiv. rewrite Hl at 1. f_equiv. apply Permutation_refl'.
    f_equal. apply list_fmap_ext. intros i x Hx. by rewrite filter_cons, decide_False by congruence.
Qed.

(** *** Sums modulo 2^64 *)

Definition sumZ (l : list Z) : Z := foldr Z.add 0 l.

Lemma sumZ_cons z l : sumZ (z :: l) = z + sumZ l.
Proof. done. Qed.

Lemma sumZ_app l l' : sumZ (l ++ l') = sumZ l + sumZ l'.
Proof. induction l; simpl; lia. Qed.

Lemma sumZ_perm l l' : l ≡ₚ l' -> sumZ l = sumZ l'.
Proof. induction 1; simpl; lia. Qed.

Lemma sum_sizes_from z l : foldl (fun total c => i64 (total + Size c)) (i64 z) l = i64 (z + sumZ (Size <$> l)).
Proof.
  revert z. induction l as [|n l IH]; intros z; [by rewrite Z.add_0_r|].
  cbn [foldl]. rewrite i64_add_l, IH, fmap_cons, sumZ_cons. f_equal. lia.
Qed.

Lemma sum_sizes_sum l : sum_sizes l = i64 (sumZ (Size <$> l)).
Proof. apply (sum_sizes_from 0). Qed.

(** *** Building a tree *)

Definition files_of (files : list FileInfo) : list FileInfo := filter (fun f => fi_IsFile f = true) files.
Definition total_size (files : list FileInfo) : Z := sumZ (fi_Size <$> files_of files).

(** The tree holds exactly the files of the listing, and their total size. *)
Definition describes (t : MerkleNode) (files : list FileInfo) : Prop :=
  leaf_files t ≡ₚ files_of files /\ i64 (Size t) = i64 (total_size files) /\ in_i64 (Size t).

Lemma files_of_app l l' : files_of (l ++ l') = files_of l ++ files_of l'.
Proof. apply filter_app. Qed.

Lemma total_size_app l l' : total_size (l ++ l') = total_size l + total_size l'.
Proof. unfold total_size. by rewrite files_of_app, fmap_app, sumZ_app. Qed.

Lemma files_of_perm l l' : l ≡ₚ l' -> files_of l ≡ₚ files_of l'.
Proof. intros H. unfold files_of. by rewrite H. Qed.

Lemma total_size_perm l l' : l ≡ₚ l' -> total_size l = total_size l'.
Proof. intros H. unfold total_size. apply sumZ_perm. by rewrite (files_of_perm _ _ H). Qed.

#[export] Instance describes_perm t : Proper ((≡ₚ) ==> iff) (describes t).
Proof. intros l l' H. unfold describes. by rewrite (files_of_perm _ _ H), (total_size_perm _ _ H). Qed.

Section BuildProofs.
Context `{HashFn}.

Lemma direct_children_describe l :
  flat_map leaf_files (direct_child <$> l) = files_of l /\
  sumZ (Size <$> (direct_child <$> l)) = total_size l.
Proof.
  unfold total_size, files_of. induction l as [|[p [|] s m h] l [IH1 IH2]]; [done| |].
  - rewrite !fmap_cons, filter_cons_True by done. rewrite fmap_cons, !sumZ_cons.
    cbn [flat_map]. rewrite IH1, IH2. done.
  - rewrite !fmap_cons, filter_cons_False by done. rewrite !sumZ_cons. cbn [flat_map].
    rewrite IH1, IH2. done.
Qed.

Lemma dir_node_describes prefix ch ch' files :
  ch ≡ₚ ch' -> flat_map leaf_files ch' ≡ₚ files_of files ->
  i64 (sumZ (Size <$> ch')) = i64 (total_size files) -> describes (dir_node prefix ch) files.
Proof.
  intros Hp Hl Hs. split_and!; simpl; [| |rewrite sum_sizes_sum; auto with vault].
  - by rewrite (Permutation_flat_map leaf_files Hp).
  - rewrite sum_sizes_sum, <-Hs. rewrite (sumZ_perm (Size <$> ch) (Size <$> ch')) by by rewrite Hp.
    apply i64_congr, i64_mod.
Qed.

Lemma map_res_describe (build : string -> Res (option MerkleNode)) (G : string -> list FileInfo) ds :
  (forall d, d ∈ ds -> exists t, build d = Ok (Some t) /\ describes t (G d)) ->
  exists ts, map_res build ds = Ok (Some <$> ts) /\
    flat_map leaf_files ts ≡ₚ files_of (concat (G <$> ds)) /\
    i64 (sumZ (Size <$> ts)) = i64 (total_size (concat (G <$> ds))).
Proof.
  induction ds as [|d ds IH]; intros Hd; [by exists []|].
  destruct (Hd d ltac:(by left)) as (t & Ht & Hl & Hs & _).
  destruct IH as (ts & Hts & Hls & Hss); [intros; apply Hd; by right|].
  exists (t :: ts). cbn [map_res]. rewrite Ht, Hts. split_and!; [done| |].
  - simpl. by rewrite Hl, Hls, files_of_app.
  - rewrite !fmap_cons, sumZ_cons. simpl. rewrite total_size_app, <-i64_add, Hs, Hss. apply i64_add.
Qed.

Lemma omap_id_Some {A} (l : list A) : omap id (Some <$> l) = l.
Proof. induction l as [|a l IH]; [done|]. csimpl. by rewrite IH. Qed.

(** On files below a prefix, the single-file shortcut is never taken. *)
Lemma buildNode_step fuel prefix files :
  files <> [] -> Forall (fun f => exists rest, under prefix f rest) files ->
  buildNode (S fuel) prefix files =
    (g ← foldM (group_step prefix) ([], ∅) files;
     let '(directChildren, groups) := (g : grouping) in
     subs ← map_res (fun d => buildNode fuel d (default [] (groups !! d))) (sort_strings (map_to_list groups).*1);
     Ok (Some (dir_node prefix (sort_children ((direct_child <$> directChildren) ++ omap id subs))))).
Proof.
  intros Hne Hf. destruct files as [|f0 rest0]; [done|]. cbn [buildNode].
  assert (negb (bool_decide (prefix = "")) && bool_decide (rest0 = []) && bool_decide (fi_Path f0 = prefix) = false)
    as ->; [|done].
  inversion_clear Hf as [|? ? (r & Hu)]. unfold under in Hu.
  case_bool_decide as Hp; [done|]. apply andb_false_intro2, bool_decide_eq_false. intros Heq.
  apply (f_equal len) in Heq. rewrite Hu, len_app in Heq. simpl in Heq. lia.
Qed.

(** With a bound above the nesting depth, [buildNode] returns a tree of the
    files below the prefix. *)
Lemma buildNode_describes fuel prefix files :
  files <> [] ->
  Forall (fun f => exists rest, under prefix f rest /\ (slashes rest < fuel)%nat) files ->
  exists t, buildNode fuel prefix files = Ok (Some t) /\ describes t files.
Proof.
  revert prefix files. induction fuel as [|fuel IH]; intros prefix files Hne Hf.
  { destruct files; [done|]. inversion_clear Hf as [|? ? (? & _ & ?)]. lia. }
  rewrite buildNode_step; [|done|eapply Forall_impl; [done|]; naive_solver].
  destruct (group_fold prefix files [] ∅) as (g & Hfold & Hg & Hkeys).
  { eapply Forall_impl; [done|]. intros ? (r & Hu & _). eauto using rel_path_under. }
  rewrite Hfold. simpl. 
  set (ds := sort_strings (map_to_list g).*1).
  assert (Hds : ds ≡ₚ (map_to_list g).*1) by apply merge_sort_Permutation.
  assert (HG : forall d, default [] (g !! d) = filter (fun f => child_key prefix f = Some d) files).
  { intros d. specialize (Hg d). unfold groups_of in Hg. by rewrite lookup_empty in Hg. }
  destruct (map_res_describe (fun d => buildNode fuel d (default [] (g !! d)))
              (fun d => filter (fun f => child_key prefix f = Some d) files) ds) as (ts & Hts & Hl & Hs).
  { intros d Hd. rewrite Hds, Hkeys, map_to_list_empty in Hd.
    destruct Hd as [Hd|(f & Hin & Hk)]; [by apply not_elem_of_nil in Hd|].
    rewrite HG. apply IH.
    - intros Hnil. apply (not_elem_of_nil f). rewrite <-Hnil. by apply list_elem_of_filter.
    - apply Forall_forall. intros f' [Hk' Hin']%list_elem_of_filter. rewrite Forall_forall in Hf.
      destruct (Hf _ Hin') as (r & Hu & Hsl). destruct (child_key_under _ _ _ _ Hu Hk') as (_ & r' & Hu' & E).
      exists r'. split; [done|lia]. }
  rewrite Hts. simpl. rewrite omap_id_Some. eexists. split; [done|].
  set (direct := filter (fun f => child_key prefix f = None) files).
  destruct (direct_children_describe direct) as [Hdl Hdsz].
  assert (files ≡ₚ direct ++ concat ((fun d => filter (fun f => child_key prefix f = Some d) files) <$> ds)) as Hpart.
  { apply partition_by_key.
    - rewrite Hds. apply NoDup_fst_map_to_list.
    - intros f d Hin Hk. rewrite Hds, Hkeys. right. eauto. }
  rewrite Hpart. eapply dir_node_describes; [apply merge_sort_Permutation| |].
  - by rewrite flat_map_app, files_of_app, Hdl, Hl.
  - rewrite fmap_app, sumZ_app, total_size_app, Hdsz, <-i64_add, Hs. apply i64_add.
Qed.
End BuildProofs.

(** *** Absolute paths never leave the root *)

Lemma sort_strings_empty_head ds : "" ∈ ds -> exists l, sort_strings ds = ""%string :: l.
Proof.
  intros Hin. unfold sort_strings.
  assert (StronglySorted String.le (merge_sort String.le ds)) as Hs by apply (StronglySorted_merge_sort _ _).
  rewrite <-(merge_sort_Permutation String.le ds) in Hin.
  destruct (merge_sort String.le ds) as [|h l]; [by apply not_elem_of_nil in Hin|].
  exists l. f_equal. apply elem_of_cons in Hin as [|Hin]; [done|].
  inversion_clear Hs as [|? ? _ Hh]. rewrite Forall_forall in Hh. specialize (Hh _ Hin).
  destruct h as [|c h]; [done|]. by destruct Hh.
Qed.

Lemma child_key_absolute f : HasPrefix (fi_Path f) "/" = true -> child_key "" f = Some ""%string.
Proof.
  unfold child_key. simpl. destruct (fi_Path f) as [|c p]; [done|].
  rewrite HasPrefix_slash. intros ->%bool_decide_eq_true. done.
Qed.

Section BuildTheorems.
Context `{HashFn}.

(** The group of the absolute paths is again a listing at the root. *)
Lemma buildNode_absolute fuel files f :
  f ∈ files -> HasPrefix (fi_Path f) "/" = true -> buildNode fuel "" files = OutOfFuel.
Proof.
  intros Hin Hf. revert files Hin. induction fuel as [|fuel IH]; intros files Hin; [done|].
  destruct (group_fold "" files [] ∅) as (g & Hfold & Hg & Hkeys).
  { apply Forall_forall. intros f' _. by exists (fi_Path f'). }
  destruct files as [|f0 rest0]; [by apply not_elem_of_nil in Hin|]. cbn [buildNode].
  rewrite (bool_decide_true ("" = ""%string)) by done. cbn [negb andb]. rewrite Hfold. simpl.
  assert ("" ∈ (map_to_list g).*1) as Hk.
  { apply Hkeys. right. eauto using child_key_absolute. }
  destruct (sort_strings_empty_head _ Hk) as (l & ->). cbn [map_res].
  rewrite IH; [done|]. specialize (Hg ""%string). unfold groups_of in Hg. rewrite Hg, lookup_empty. simpl.
  rewrite filter_cons. case_decide as Hd.
  - apply elem_of_cons in Hin as [->|Hin]; [by left|right]. apply list_elem_of_filter.
    eauto using child_key_absolute.
  - apply elem_of_cons in Hin as [->|Hin]; [by destruct Hd; apply child_key_absolute|].
    apply list_elem_of_filter. eauto using child_key_absolute.
Qed.

Lemma Build_diverges files f fuel :
  f ∈ files -> HasPrefix (fi_Path f) "/" = true -> Build fuel files = OutOfFuel.
Proof.
  intros Hin Hf. unfold Build. destruct files as [|f0 l]; [by apply not_elem_of_nil in Hin|].
  apply buildNode_absolute with f; [|done]. unfold sort_files.
  by rewrite (merge_sort_Permutation file_le).
Qed.

(** [Fact] A listing that holds a path with a leading slash -- the form in which
    the virtual file system lists every file -- is never built: whatever the
    recursion bound, the recursion on the empty directory name exhausts it. *)
Theorem Build_absolute_diverges files f fuel :
  f ∈ files -> HasPrefix (fi_Path f) "/" = true -> Build fuel files = OutOfFuel.
Proof. apply Build_diverges. Qed.

(** [Fact] On a listing of relative paths [Build] returns as soon as the bound
    exceeds the nesting depth of the paths, and the tree it returns holds at
    its leaves exactly the file entries of the listing (directory entries
    become empty nodes); the size of the root is the sum of the file sizes
    modulo the width of int64. *)
Theorem Build_leaf_files files fuel :
  files <> [] -> Forall (fun f => no_leading_slash f /\ (slashes (fi_Path f) < fuel)%nat) files ->
  exists t, Build fuel files = Ok (Some t) /\
    leaf_files t ≡ₚ filter (fun f => fi_IsFile f = true) files /\
    Size t = i64 (sumZ (fi_Size <$> filter (fun f => fi_IsFile f = true) files)).
Proof.
  intros Hne Hf. unfold Build. destruct files as [|f0 l] eqn:E; [done|]. rewrite <-E in *. clear E.
  destruct (buildNode_describes fuel "" (sort_files files)) as (t & Ht & Hd).
  - unfold sort_files. intros Hnil. apply Hne, Permutation_nil. by rewrite <-Hnil, merge_sort_Permutation.
  - unfold sort_files. rewrite (merge_sort_Permutation file_le). eapply Forall_impl; [done|].
    intros f [? ?]. by exists (fi_Path f).
  - exists t. unfold sort_files in Hd. rewrite (merge_sort_Permutation file_le) in Hd.
    destruct Hd as (Hl & Hs & Hr). split_and!; [done|done|]. unfold total_size in Hs.
    by rewrite <-(i64_id (Size t)).
Qed.

(** [Fact] A directory's hash is computed from its children's hashes only: two
    listings of one file each, with the same content hash and different names,
    have the same root hash, and [Diff] reports no change for the rename. *)
Theorem Diff_rename_invisible f f' fuel :
  (0 < fuel)%nat -> fi_IsFile f = true -> fi_IsFile f' = true ->
  has_char slash (fi_Path f) = false -> has_char slash (fi_Path f') = false -> fi_Hash f = fi_Hash f' ->
  exists t t', Build fuel [f] = Ok (Some t) /\ Build fuel [f'] = Ok (Some t') /\
    collectPaths t = [""%string; fi_Path f] /\ collectPaths t' = [""%string; fi_Path f'] /\
    Diff fuel (Some t) (Some t') = Ok empty_diff.
Proof.
  intros Hfuel Hf Hf' Hs Hs' Hh.
  assert (forall g : FileInfo, fi_IsFile g = true -> has_char slash (fi_Path g) = false ->
    Build fuel [g] = Ok (Some (dir_node "" [direct_child g]))) as Hb.
  { intros g Hg Hgs. destruct fuel as [|n]; [lia|]. change (Build (S n) [g]) with (buildNode (S n) "" [g]).
    pose proof (indexOf_spec (fi_Path g) slash) as Hi. rewrite Hgs in Hi.
    cbn [buildNode]. rewrite bool_decide_true by done. cbn [negb andb foldM]. unfold group_step, rel_path.
    rewrite bool_decide_true by done. simpl. by rewrite Hi. }
  exists (dir_node "" [direct_child f]), (dir_node "" [direct_child f']). split_and!; [auto|auto| | |].
  - simpl. unfold direct_child. by rewrite Hf.
  - simpl. unfold direct_child. by rewrite Hf'.
  - cbn [Diff]. unfold dir_node, direct_child. rewrite Hf, Hf', Hh. simpl.
    unfold computeNodeHash. simpl. by rewrite bool_decide_true.
Qed.
End BuildTheorems.

(** ** Comparing two trees *)

Inductive change := CAdded | CModified | CDeleted.

Definition changes (k : change) (d : DiffResult) : list string :=
  match k with CAdded => Added d | CModified => Modified d | CDeleted => Deleted d end.

(** [differs a b k p]: the comparison of [a] with [b] finds change [k] at [p]. *)
Inductive differs : MerkleNode -> MerkleNode -> change -> string -> Prop :=
  | d_file a b : Hash a <> Hash b -> IsFile a = true -> IsFile b = true -> differs a b CModified (Path a)
  | d_type_old a b : Hash a <> Hash b -> IsFile a <> IsFile b -> differs a b CDeleted (Path a)
  | d_type_new a b : Hash a <> Hash b -> IsFile a <> IsFile b -> differs a b CAdded (Path b)
  | d_new a b c p : Hash a <> Hash b -> IsFile a = false -> IsFile b = false ->
      c ∈ Children b -> Path c ∉ Path <$> Children a -> p ∈ collectPaths c -> differs a b CAdded p
  | d_gone a b c p : Hash a <> Hash b -> IsFile a = false -> IsFile b = false ->
      c ∈ Children a -> Path c ∉ Path <$> Children b -> p ∈ collectPaths c -> differs a b CDeleted p
  | d_below a b c c' k p : Hash a <> Hash b -> IsFile a = false -> IsFile b = false ->
      c ∈ Children a -> c' ∈ Children b -> Path c = Path c' -> differs c c' k p -> differs a b k p.

(** No directory has two children of the same path. *)
Definition distinct_children (t : MerkleNode) : Prop :=
  Forall (fun n => NoDup (Path <$> Children n)) (subnodes t).

Lemma child_map_lookup l p c :
  NoDup (Path <$> l) -> child_map l !! p = Some c <-> c ∈ l /\ Path c = p.
Proof.
  unfold child_map.
  assert (forall m : gmap string MerkleNode, NoDup (Path <$> l) -> (forall q, q ∈ Path <$> l -> m !! q = None) ->
    foldl (fun m c => <[Path c := c]> m) m l !! p = Some c <-> m !! p = Some c \/ c ∈ l /\ Path c = p) as Hm.
  { induction l as [|n l IH]; intros m; simpl; [set_solver|].
    intros [Hn Hnd]%NoDup_cons Hfresh. rewrite IH; [|done|].
    - rewrite lookup_insert. case_decide as Hd.
      + subst p. specialize (Hfresh (Path n) ltac:(by left)). split; [set_solver|].
        intros [|[[->|Hin]%elem_of_cons He]]; [congruence|by left|].
        destruct Hn. rewrite <-He. by apply list_elem_of_fmap_2.
      + set_solver.
    - intros q Hq. rewrite lookup_insert_ne by (intros He; by rewrite <-He in Hq). apply Hfresh. by right. }
  intros Hnd. rewrite (Hm ∅ Hnd) by (intros; apply lookup_empty). rewrite lookup_empty. naive_solver.
Qed.

(** [r'] is [r] with the changes [P] recorded. *)
Definition records (r r' : DiffResult) (P : change -> string -> Prop) : Prop :=
  forall k p, p ∈ changes k r' <-> p ∈ changes k r \/ P k p.

Lemma records_foldM {E} (step : DiffResult -> E -> Res DiffResult) (l : list E) (P : E -> change -> string -> Prop) r :
  (forall r e, e ∈ l -> exists r', step r e = Ok r' /\ records r r' (P e)) ->
  exists r', foldM step r l = Ok r' /\ records r r' (fun k p => exists e, e ∈ l /\ P e k p).
Proof.
  revert r. induction l as [|e l IH]; intros r He.
  { exists r. split; [done|]. intros k p. set_solver. }
  destruct (He r e ltac:(by left)) as (r1 & H1 & Hr1). cbn [foldM]. rewrite H1. simpl.
  destruct (IH r1) as (r2 & H2 & Hr2); [intros; apply He; by right|].
  exists r2. split; [done|]. intros k p. rewrite (Hr2 k p), (Hr1 k p). set_solver.
Qed.

Lemma records_foldl {E} (step : DiffResult -> E -> DiffResult) (l : list E) (P : E -> change -> string -> Prop) r :
  (forall r e, e ∈ l -> records r (step r e) (P e)) ->
  records r (foldl step r l) (fun k p => exists e, e ∈ l /\ P e k p).
Proof.
  revert r. induction l as [|e l IH]; intros r He k p; simpl; [set_solver|].
  assert (records (step r e) (foldl step (step r e) l) (fun k p => exists e, e ∈ l /\ P e k p)) as Hl
    by (apply IH; intros; apply He; by right).
  rewrite (Hl k p), (He r e ltac:(by left) k p). set_solver.
Qed.

Lemma add_records r l : records r (add_paths r l) (fun k p => k = CAdded /\ p ∈ l).
Proof. intros [] p; simpl; set_solver. Qed.
Lemma del_records r l : records r (del_paths r l) (fun k p => k = CDeleted /\ p ∈ l).
Proof. intros [] p; simpl; set_solver. Qed.
Lemma mod_records r q : records r (mod_path r q) (fun k p => k = CModified /\ p = q).
Proof. intros [] p; simpl; set_solver. Qed.
#[export] Hint Resolve add_records del_records mod_records : vault.

Lemma child_map_none l p : NoDup (Path <$> l) -> child_map l !! p = None <-> p ∉ Path <$> l.
Proof.
  intros Hnd. rewrite eq_None_not_Some. f_equiv. split.
  - intros [c Hc]. apply child_map_lookup in Hc as [Hin <-]; [|done]. by apply list_elem_of_fmap_2.
  - intros (c & -> & Hin)%list_elem_of_fmap. exists c. by apply child_map_lookup.
Qed.

Lemma distinct_children_inv n c :
  distinct_children n -> NoDup (Path <$> Children n) /\ (c ∈ Children n -> distinct_children c).
Proof.
  unfold distinct_children. destruct n as [h p f s m ch]. cbn [subnodes Children].
  intros [Hn Hc]%Forall_cons. split; [done|]. intros Hin. rewrite Forall_forall in *.
  intros n Hnn. apply Hc. apply list_elem_of_In, in_flat_map. exists c. by rewrite <-!list_elem_of_In.
Qed.

Lemma height_child n c : c ∈ Children n -> (height c < height n)%nat.
Proof.
  destruct n as [h p f s m ch]. cbn [Children height]. intros Hin. induction Hin as [? l|]; simpl in *; lia.
Qed.

(** The changes below two directories, as the two loops over the child maps
    enumerate them. *)
Lemma diff_dirs a b k p :
  Hash a <> Hash b -> IsFile a = false -> IsFile b = false ->
  NoDup (Path <$> Children a) -> NoDup (Path <$> Children b) ->
  (exists e, e ∈ map_to_list (child_map (Children b)) /\
     match child_map (Children a) !! e.1 with
     | Some c => differs c e.2 k p | None => k = CAdded /\ p ∈ collectPaths e.2 end) \/
  (exists e, e ∈ map_to_list (child_map (Children a)) /\
     match child_map (Children b) !! e.1 with
     | Some _ => False | None => k = CDeleted /\ p ∈ collectPaths e.2 end)
  <-> differs a b k p.
Proof.
  intros Hh Ha Hb Hna Hnb. split.
  - intros [([q c] & Hc & Hd)|([q c] & Hc & Hd)];
      apply elem_of_map_to_list, child_map_lookup in Hc as [Hc Hq]; simpl in *; try done; subst q.
    + destruct (child_map (Children a) !! Path c) as [c0|] eqn:E.
      * apply child_map_lookup in E as [Hc0 He]; [|done]. by apply d_below with c0 c.
      * destruct Hd as [-> Hp]. apply child_map_none in E; [|done]. by apply d_new with c.
    + destruct (child_map (Children b) !! Path c) as [c0|] eqn:E; [done|].
      destruct Hd as [-> Hp]. apply child_map_none in E; [|done]. by apply d_gone with c.
  - intros Hd. inversion Hd as [| | |? ? c ? _ _ _ Hc Hn Hp|? ? c ? _ _ _ Hc Hn Hp|? ? c c' ? ? _ _ _ Hc Hc' He Hcc];
      subst; try congruence.
    + left. exists (Path c, c). rewrite elem_of_map_to_list, child_map_lookup by done. cbn [fst snd].
      by rewrite (proj2 (child_map_none _ _ Hna) Hn).
    + right. exists (Path c, c). rewrite elem_of_map_to_list, child_map_lookup by done. cbn [fst snd].
      by rewrite (proj2 (child_map_none _ _ Hnb) Hn).
    + left. exists (Path c', c'). rewrite elem_of_map_to_list, child_map_lookup by done. cbn [fst snd].
      by rewrite (proj2 (child_map_lookup _ (Path c') c Hna)).
Qed.

Lemma diffNodes_records fuel a b r :
  distinct_children a -> distinct_children b -> (height a <= fuel)%nat ->
  exists r', diffNodes fuel a b r = Ok r' /\ records r r' (differs a b).
Proof.
  revert a b r. induction fuel as [|fuel IH]; intros a b r Ha Hb Hh.
  { destruct a. simpl in Hh. lia. }
  cbn [diffNodes]. case_bool_decide as Hhash.
  { exists r. split; [done|]. intros k p. split; [by left|]. intros [?|Hd]; [done|by inversion Hd]. }
  destruct (IsFile a && IsFile b) eqn:Eff.
  { bool_to_prop. eexists. split; [done|]. intros k p. rewrite (mod_records r (Path a) k p).
    f_equiv. split; [intros [-> ->]; by constructor|]. intros Hd. inversion Hd; by try congruence. }
  destruct (Bool.eqb (IsFile a) (IsFile b)) eqn:Et; simpl.
  2:{ apply eqb_false_iff in Et. eexists. split; [done|]. intros k p.
      rewrite (add_records _ _ k p), (del_records _ _ k p), !list_elem_of_singleton. split.
      - intros [[?|[-> ->]]|[-> ->]]; [by left|right; by constructor|right; by constructor].
      - intros [?|Hd]; [auto|]. inversion Hd; by try congruence; auto. }
  apply eqb_prop in Et. rewrite Et, andb_diag in Eff. rewrite Eff in Et.
  destruct (distinct_children_inv a a Ha) as [Hna _]. destruct (distinct_children_inv b b Hb) as [Hnb _].
  edestruct (records_foldM (fun result e => let '(path, remoteChild) := e in
      match child_map (Children a) !! path with
      | Some localChild => diffNodes fuel localChild remoteChild result
      | None => Ok (add_paths result (collectPaths remoteChild))
      end) (map_to_list (child_map (Children b)))
    (fun e k p => match child_map (Children a) !! e.1 with
       | Some c => differs c e.2 k p | None => k = CAdded /\ p ∈ collectPaths e.2 end) r) as (r1 & -> & Hr1).
  { intros r0 [q c'] [Hc' Hq]%elem_of_map_to_list%child_map_lookup; [|done]. cbn [fst snd].
    destruct (child_map (Children a) !! q) as [c|] eqn:Hc; [|eauto with vault].
    apply child_map_lookup in Hc as [Hc _]; [|done]. apply IH.
    - by apply (distinct_children_inv a).
    - by apply (distinct_children_inv b).
    - pose proof (height_child _ _ Hc). lia. }
  simpl. eexists. split; [done|]. intros k p.
  eassert (Hr2 : records r1 _ (fun k p => exists e, e ∈ map_to_list (child_map (Children a)) /\
       match child_map (Children b) !! e.1 with
       | Some _ => False | None => k = CDeleted /\ p ∈ collectPaths e.2 end)).
  2:{ rewrite (Hr2 k p), (Hr1 k p), <-(diff_dirs a b k p Hhash Et Eff Hna Hnb). tauto. }
  apply records_foldl. intros r0 [q c] _. cbn [fst snd].
  destruct (child_map (Children b) !! q); [|auto with vault]. intros k' p'. tauto.
Qed.


Lemma MerkleNode_rect_strong (P : MerkleNode -> Prop) :
  (forall h p f s m ch, (forall c, c ∈ ch -> P c) -> P (mkNode h p f s m ch)) -> forall n, P n.
Proof.
  intros HP. assert (forall k n, (height n <= k)%nat -> P n) as H by
    (induction k as [|k IH]; intros [h p f s m ch] Hh; [simpl in Hh; lia|]; apply HP; intros c Hc;
     apply IH; pose proof (height_child (mkNode h p f s m ch) c Hc); lia).
  intros n. by apply (H (height n)).
Qed.

(** [Fact] [FindNode] finds a node exactly when the tree has one of that path, and
    the node it returns is a node of the tree at that path. *)
Theorem FindNode_spec t path :
  match FindNode t path with
  | Some n => Path n = path /\ exists root, Root t = Some root /\ n ∈ subnodes root
  | None => forall root, Root t = Some root -> path ∉ collectPaths root
  end.
Proof.
  unfold FindNode. destruct (Root t) as [root|]; [|done].
  assert (match findNodeRecursive root path with
    | Some n => Path n = path /\ n ∈ subnodes root | None => path ∉ collectPaths root end) as Hr.
  { induction root as [h p f s m ch IH] using MerkleNode_rect_strong.
    cbn [findNodeRecursive collectPaths subnodes]. case_bool_decide as Hp.
    { split; [done|by left]. }
    induction ch as [|c ch IHch]; [set_solver|].
    pose proof (IH c ltac:(by left)) as Hc. destruct (findNodeRecursive c path) as [n|].
    - destruct Hc as [? Hn]. split; [done|]. right. simpl. apply elem_of_app. by left.
    - specialize (IHch ltac:(intros; apply IH; by right)). revert IHch.
      match goal with |- match ?x with _ => _ end -> _ => destruct x as [n|] end.
      + intros [? Hn]. split; [done|]. apply elem_of_cons in Hn as [->|Hn]; [by destruct Hp|].
        right. simpl. apply elem_of_app. by right.
      + intros Hn. simpl. set_solver. }
  destruct (findNodeRecursive root path) as [n|]; [naive_solver|by intros ? [= ->]].
Qed.

(** ** Witnesses *)

Section Witnesses.
#[local] Existing Instance toy_hash.

Definition leaf (p h : string) : MerkleNode := mkNode h p true 1 1 [].
Definition t_local : MerkleNode := mkNode "r1" "" false 2 1 [leaf "a" "h1"; leaf "b" "h2"].
Definition t_remote : MerkleNode := mkNode "r2" "" false 2 1 [leaf "b" "h3"; leaf "c" "h4"].

Lemma Build_absolute_witness :
  HasPrefix (fi_Path (mkFile "/a.txt" true 1 1 "h")) "/" = true /\
  Build 100 [mkFile "/a.txt" true 1 1 "h"] = OutOfFuel.
Proof.
  split; [reflexivity|]. apply (Build_absolute_diverges _ (mkFile "/a.txt" true 1 1 "h")); [by left|reflexivity].
Defined.

Lemma Build_leaf_files_witness :
  exists t, Build 3 [f_b; f_a; f_d] = Ok (Some t) /\ leaf_files t ≡ₚ [f_b; f_a] /\ Size t = 7.
Proof.
  apply (Build_leaf_files [f_b; f_a; f_d] 3); [done|].
  repeat (apply Forall_cons; split; [split; [reflexivity|vm_compute; lia]|]). apply Forall_nil. done.
Defined.

Lemma Diff_rename_witness :
  exists t t', Build 2 [f_c] = Ok (Some t) /\ Build 2 [mkFile "d.txt" true 5 11 "hc"] = Ok (Some t') /\
    collectPaths t = ["" ; "c.txt"]%string /\ collectPaths t' = [""; "d.txt"]%string /\
    Diff 2 (Some t) (Some t') = Ok empty_diff.
Proof. apply (Diff_rename_invisible f_c (mkFile "d.txt" true 5 11 "hc")); first [lia|reflexivity]. Defined.

End Witnesses.
