(* ===== verification/Crypto.v ===== *)
(** * Cryptographic operations (internal/crypto)

    crypto.go: random bytes, key derivation, authenticated and stream encryption;
    keys.go: key wrapping, key sharing by X25519 and the master key store.  The
    primitives are the interfaces of GoCrypto.v.  [aes.NewCipher] and
    [cipher.NewGCM] do not fail on the 32-byte keys that reach them. *)

From S2P Require Import Prelude GoStrings GoCrypto.

Definition KeySize : Z := 32.
Definition NonceSize : nat := 12.
Definition SaltSize : nat := 16.
Definition Overhead : nat := NonceSize + 16.

Definition blen (b : bytes) : Z := Z.of_nat (length b).

(** ** Random material *)

Definition RandomBytes (n : nat) : GoM Rand bytes := wrap "failed to read random bytes" (rand_read n).
Definition RandomBytesInto (b : bytes) : GoM Rand bytes :=
  wrap "failed to read random bytes" (rand_read (length b)).
Definition GenerateKey : GoM Rand bytes := RandomBytes (Z.to_nat KeySize).
Definition GenerateNonce : GoM Rand bytes := RandomBytes NonceSize.
Definition GenerateSalt : GoM Rand bytes := RandomBytes SaltSize.
Definition GenerateFileKey : GoM Rand bytes := GenerateKey.

Definition SecureCompare (a b : bytes) : bool := bool_decide (a = b).

(** ** Key derivation *)

Definition xor_byte (a b : byte) : byte := zb (Z.lxor (bz a) (bz b)).

(** [binary.BigEndian.PutUint32] and [binary.LittleEndian.Uint32] *)
Definition be32 (i : Z) : bytes := [zb (i / 2 ^ 24); zb (i / 2 ^ 16); zb (i / 2 ^ 8); zb i].
Definition le32 (b : bytes) : option Z :=
  match b with
  | b0 :: b1 :: b2 :: b3 :: _ => Some (bz b0 + bz b1 * 2 ^ 8 + bz b2 * 2 ^ 16 + bz b3 * 2 ^ 24)
  | _ => None
  end.

(** [for k := range t { dk[len(dk)-u+k] ^= t[k] }] *)
Definition xor_tail (dk t : bytes) : bytes :=
  let base := (length dk - length t)%nat in
  take base dk ++ zip_with xor_byte (drop base dk) t.

Section Derive.
Context `{Hmac} `{HashFn} `{Sha512}.

(** One pass of the inner loop: [(dk, t)]. *)
Definition inner_pass (password : bytes) (acc : bytes * bytes) : bytes * bytes :=
  let '(dk, t) := acc in
  let t := hmac_sha256 password t in
  (xor_tail dk t, t).

Definition outer_pass (password salt : bytes) (iterations : nat) (dk : bytes) (i : nat) : bytes :=
  let uBuf := be32 (u32 (Z.of_nat i)) in
  let dk := dk ++ hmac_sha256 password (salt ++ uBuf) in
  let t := drop (length dk - 32) dk in
  (Nat.iter (iterations - 1) (inner_pass password) (dk, t)).1.

Definition pbkdf2 (password salt : bytes) (iterations keyLen : nat) : bytes :=
  let u := 32%nat in
  let n := ((keyLen + u - 1) / u)%nat in
  take keyLen (foldl (outer_pass password salt iterations) [] (seq 1 n)).

Definition DeriveKey (passphrase : string) (salt : bytes) : bytes :=
  pbkdf2 (bytes_of passphrase) salt 100000 32.

Definition blockSize : nat := 1024.

(** [copy(dst, src)] *)
Definition copy_into (dst src : bytes) : bytes :=
  take (length dst) src ++ drop (length src) dst.

(** [blocks[i]] with the run-time bounds check. *)
Definition block_at (blocks : list bytes) (i : Z) : Res bytes :=
  if i <? 0 then Panic "index out of range"
  else match blocks !! Z.to_nat i with Some b => Ok b | None => Panic "index out of range" end.

Definition expand_step (blocks : list bytes) (i : nat) : Res (list bytes) :=
  prev ← block_at blocks (Z.of_nat i - 1);
  cur ← block_at blocks (Z.of_nat i);
  let z := Z.of_nat i in
  let h := prev ++ [zb z; zb (z / 2 ^ 8); zb (z / 2 ^ 16); zb (z / 2 ^ 24)] in
  Ok (<[i := copy_into cur (sha512 h)]> blocks).

(** [for j := 0; j < blockSize && j < len(result); j++ { blocks[i][j] ^= result[j] }] *)
Definition xor_head (block result : bytes) : bytes :=
  zip_with xor_byte block result ++ drop (length result) block.

Definition mix_step (numBlocks : Z) (blocks : list bytes) (i : nat) : Res (list bytes) :=
  let prevIdx := Z.rem (Z.of_nat i - 1 + numBlocks) numBlocks in
  cur ← block_at blocks (Z.of_nat i);
  word ← match le32 cur with Some w => Ok w | None => Panic "slice bounds out of range" end;
  let idxBlock := Z.rem word numBlocks in
  prev ← block_at blocks prevIdx;
  other ← block_at blocks idxBlock;
  Ok (<[i := xor_head cur (sha512 (prev ++ other))]> blocks).

Definition DeriveKeyArgon2idStyle (passphrase : string) (salt : bytes) (memoryKB : Z) (iterations : nat) : Res bytes :=
  let key := pbkdf2 (bytes_of passphrase) salt 1000 64 in
  let numBlocks := Z.quot (i64 (memoryKB * 1024)) 1024 in
  let numBlocks := if numBlocks <? 4 then 4 else numBlocks in
  let nb := Z.to_nat numBlocks in
  let zero := replicate blockSize x00 in
  let blocks := <[0%nat := copy_into zero key]> (replicate nb zero) in
  blocks ← foldM expand_step blocks (seq 1 (nb - 1));
  blocks ← foldM (fun blocks _ => foldM (mix_step numBlocks) blocks (seq 0 nb)) blocks (seq 0 iterations);
  last ← block_at blocks (numBlocks - 1);
  Ok (sha256 (last ++ salt)).
End Derive.

(** ** Authenticated encryption *)

Definition key_size_error (n : Z) : error :=
  Errorf ("invalid key size: expected 32, got " +:+ pretty n).

Section Cipher.
Context `{AEAD}.

Definition Encrypt (plaintext key : bytes) : GoM Rand bytes :=
  if negb (blen key =? KeySize) then fail (key_size_error (blen key))
  else
    nonce ← GenerateNonce;
    mret (nonce ++ gcm_seal key nonce plaintext).

Definition Decrypt (ciphertext key : bytes) : Res bytes :=
  if negb (blen key =? KeySize) then Err (key_size_error (blen key))
  else if (length ciphertext <? NonceSize + 16)%nat then Err ErrInvalidCiphertext
  else
    let nonce := take NonceSize ciphertext in
    let ciphertext := drop NonceSize ciphertext in
    match gcm_open key nonce ciphertext with
    | None => Err ErrDecryptionFailed
    | Some plaintext => Ok plaintext
    end.

(** *** Chunked streams *)

Record StreamEncryptor := { se_key : bytes; se_nonce : bytes }.
Record StreamDecryptor := { sd_key : bytes; sd_nonce : bytes }.

Definition NewStreamEncryptor (key : bytes) : GoM Rand (StreamEncryptor * bytes) :=
  if negb (blen key =? KeySize) then fail (key_size_error (blen key))
  else
    nonce ← GenerateNonce;
    mret ({| se_key := key; se_nonce := nonce |}, nonce).

(** The first eight bytes of the nonce, then the chunk index as 32 bits. *)
Definition chunk_nonce (nonce : bytes) (chunkIndex : Z) : bytes :=
  let chunkNonce := copy_into (replicate NonceSize x00) nonce in
  take 8 chunkNonce ++ be32 (u32 chunkIndex).

Definition EncryptChunk (se : StreamEncryptor) (plaintext : bytes) (chunkIndex : Z) : bytes :=
  gcm_seal (se_key se) (chunk_nonce (se_nonce se) chunkIndex) plaintext.

Definition NewStreamDecryptor (key nonce : bytes) : Res StreamDecryptor :=
  if negb (blen key =? KeySize) then Err (key_size_error (blen key))
  else if negb (length nonce =? NonceSize)%nat then Err (Errorf ("invalid nonce size: expected 12, got " +:+ pretty (blen nonce)))
  else Ok {| sd_key := key; sd_nonce := nonce |}.

Definition DecryptChunk (sd : StreamDecryptor) (ciphertext : bytes) (chunkIndex : Z) : Res bytes :=
  match gcm_open (sd_key sd) (chunk_nonce (sd_nonce sd) chunkIndex) ciphertext with
  | None => Err ErrDecryptionFailed
  | Some plaintext => Ok plaintext
  end.

(** *** Key wrapping *)

Record KeyWrapper := { masterKey : bytes }.

Definition NewKeyWrapper (masterKey : bytes) : Res KeyWrapper :=
  if negb (blen masterKey =? KeySize) then Err (Errorf ("invalid master key size: expected 32, got " +:+ pretty (blen masterKey)))
  else Ok {| masterKey := masterKey |}.

Definition WrapKey (kw : KeyWrapper) (fileKey : bytes) : GoM Rand bytes := Encrypt fileKey (masterKey kw).
Definition UnwrapKey (kw : KeyWrapper) (wrappedKey : bytes) : Res bytes := Decrypt wrappedKey (masterKey kw).

(** *** Sharing a key *)

Context `{HashFn} `{Ecdh}.

Definition CryptoHash (data : bytes) : bytes := sha256 data.

Definition ECDHSharedSecret (privateKey : privkey) (publicKey : pubkey) : Res bytes :=
  match ecdh privateKey publicKey with
  | None => Err (Wrapf "ECDH failed" ErrDriver)
  | Some sharedSecret => Ok (CryptoHash sharedSecret)
  end.

(** [recipientPublic] has the type of a private key in the code, and its
    public half is used. *)
Definition ShareFileKey (fileKey : bytes) (senderPrivate recipientPublic : privkey) : GoM Rand (bytes * bytes) :=
  let senderPublic := public_of senderPrivate in
  sharedKey ← lift (ECDHSharedSecret senderPrivate (public_of recipientPublic));
  wrappedKey ← wrap "failed to encrypt file key" (Encrypt fileKey sharedKey);
  mret (pub_bytes senderPublic, wrappedKey).

Definition ReceiveFileKey (wrappedKey senderPublicBytes : bytes) (recipientPrivate : privkey) : Res bytes :=
  match new_public senderPublicBytes with
  | None => Err (Wrapf "invalid sender public key" ErrDriver)
  | Some senderPublic =>
      sharedKey ← ECDHSharedSecret recipientPrivate senderPublic;
      match Decrypt wrappedKey sharedKey with
      | Err e => Err (Wrapf "failed to decrypt file key" e)
      | r => r
      end
  end.
End Cipher.

Definition EncryptCTR `{Ctr} (plaintext key iv : bytes) : Res bytes :=
  if negb (blen key =? KeySize) then Err (key_size_error (blen key))
  else if negb (blen iv =? 16) then Err (Errorf ("invalid IV size: expected 16, got " +:+ pretty (blen iv)))
  else Ok (ctr_xor key iv plaintext).

Definition DecryptCTR `{Ctr} (ciphertext key iv : bytes) : Res bytes := EncryptCTR ciphertext key iv.

Definition HMAC `{Hmac} (key data : bytes) : bytes := hmac_sha256 key data.
Definition VerifyHMAC `{Hmac} (key data mac : bytes) : bool := SecureCompare mac (HMAC key data).
Definition HashToString `{HashFn} (data : bytes) : string := hex_encode (CryptoHash data).

(** ** The master key store *)

Definition MasterKeyStore : Type := gmap string bytes.
Definition NewMasterKeyStore : MasterKeyStore := ∅.
Definition MasterKeyStore_Store (mks : MasterKeyStore) (userID : string) (key : bytes) : MasterKeyStore :=
  <[userID := key]> mks.
Definition MasterKeyStore_Get (mks : MasterKeyStore) (userID : string) : bytes * bool :=
  match mks !! userID with None => ([], false) | Some key => (key, true) end.
Definition MasterKeyStore_Delete (mks : MasterKeyStore) (userID : string) : MasterKeyStore := delete userID mks.

(** The loop over the keys zeroes and deletes each entry. *)
Definition MasterKeyStore_Clear (mks : MasterKeyStore) : MasterKeyStore :=
  foldl (fun mks k => delete k (<[k := replicate (length (default [] (mks !! k))) x00]> mks))
        mks (map_to_list mks).*1.

(** ** Lemmas *)

(** The next [n] bytes of the stream, when the read is not refused. *)
Lemma rand_read_ok n r : rnd_faults r = [] ->
  exists b r', rand_read n r = (Ok b, r') /\ length b = n /\ rnd_faults r' = [].
Proof.
  intros Hf. unfold rand_read. rewrite Hf. simpl. eexists _, _. split; [done|]. split; [|done].
  by rewrite length_map, length_seq.
Qed.

Lemma RandomBytes_ok n r : rnd_faults r = [] ->
  exists b r', RandomBytes n r = (Ok b, r') /\ length b = n /\ rnd_faults r' = [].
Proof.
  intros Hf. destruct (rand_read_ok n r Hf) as (b & r' & E & ?). unfold RandomBytes, wrap. rewrite E. eauto.
Qed.

Section CipherProofs.
Context `{AEAD}.

Lemma Decrypt_seal key nonce m : length key = 32%nat -> length nonce = NonceSize ->
  Decrypt (nonce ++ gcm_seal key nonce m) key = Ok m.
Proof.
  intros Hk Hn. unfold Decrypt, blen. rewrite Hk. simpl.
  destruct (Nat.ltb_spec (length (nonce ++ gcm_seal key nonce m)) 28) as [Hlt|_].
  { rewrite length_app, gcm_seal_length, Hn in Hlt. unfold NonceSize in Hlt. lia. }
  unfold NonceSize in *. rewrite take_app_length', drop_app_length' by done. by rewrite gcm_open_seal.
Qed.

Lemma Encrypt_seal m key r : length key = 32%nat -> rnd_faults r = [] ->
  exists nonce r', Encrypt m key r = (Ok (nonce ++ gcm_seal key nonce m), r') /\
    rnd_faults r' = [] /\ length nonce = NonceSize.
Proof.
  intros Hk Hf. destruct (RandomBytes_ok NonceSize r Hf) as (nonce & r' & E & Hn & Hf').
  unfold Encrypt, blen. rewrite Hk. simpl. unfold GenerateNonce. step_with E. by eexists _, _.
Qed.

Lemma Encrypt_ok m key r : length key = 32%nat -> rnd_faults r = [] ->
  exists c r', Encrypt m key r = (Ok c, r') /\ rnd_faults r' = [] /\
    length c = (length m + Overhead)%nat /\ Decrypt c key = Ok m.
Proof.
  intros Hk Hf. destruct (Encrypt_seal m key r Hk Hf) as (nonce & r' & E & Hf' & Hn).
  eexists _, _. split; [exact E|]. split; [done|]. split; [|by apply Decrypt_seal].
  rewrite length_app, gcm_seal_length, Hn. unfold Overhead. lia.
Qed.

(** [Fact] With a 32-byte key [Encrypt] yields a ciphertext 28 bytes longer than
    the message that [Decrypt] under the same key turns back into the message;
    a key of any other length is refused by both before any randomness is drawn
    or any byte read, and a ciphertext too short for nonce and tag is refused. *)
Theorem Encrypt_Decrypt m key r :
  rnd_faults r = [] ->
  if bool_decide (length key = 32%nat) then
    (exists c r', Encrypt m key r = (Ok c, r') /\ length c = (length m + Overhead)%nat /\ Decrypt c key = Ok m) /\
    (forall c, (length c < Overhead)%nat -> Decrypt c key = Err ErrInvalidCiphertext)
  else
    Encrypt m key r = (Err (key_size_error (blen key)), r) /\
    forall c, Decrypt c key = Err (key_size_error (blen key)).
Proof.
  intros Hf. case_bool_decide as Hk.
  - split.
    + destruct (Encrypt_ok m key r Hk Hf) as (c & r' & ? & _ & ? & ?). eauto.
    + intros c Hc. unfold Decrypt, blen. rewrite Hk. simpl. unfold Overhead, NonceSize in Hc.
      destruct (Nat.ltb_spec (length c) 28); [done|lia].
  - assert (blen key =? KeySize = false) as E by (apply Z.eqb_neq; unfold blen, KeySize; lia).
    unfold Encrypt, Decrypt. by rewrite E.
Qed.

(** Two chunk indices share a nonce only when they agree modulo [2^32]. *)
Lemma be32_inj i j : 0 <= i < 2 ^ 32 -> 0 <= j < 2 ^ 32 -> be32 i = be32 j -> i = j.
Proof.
  intros Hi Hj E. unfold be32 in E. injection E as E3 E2 E1 E0.
  apply (f_equal bz) in E3, E2, E1, E0. rewrite !bz_zb in *.
  change (2 ^ 32) with 4294967296 in *. change (2 ^ 24) with 16777216 in *.
  change (2 ^ 16) with 65536 in *. change (2 ^ 8) with 256 in *. Z.to_euclidean_division_equations. lia.
Qed.

(** [C30] A stream encryptor and a decryptor made from its key and nonce agree
    on every chunk: what is encrypted under an index decrypts under it.  The
    nonces of two chunks differ unless the indices agree modulo [2^32], the
    width of the counter field; only eight bytes of the random nonce are used. *)
Theorem Stream_roundtrip key r :
  length key = 32%nat -> rnd_faults r = [] ->
  exists se nonce sd r', NewStreamEncryptor key r = (Ok (se, nonce), r') /\
    NewStreamDecryptor key nonce = Ok sd /\
    (forall m i, DecryptChunk sd (EncryptChunk se m i) i = Ok m) /\
    (forall i j, chunk_nonce nonce i = chunk_nonce nonce j <-> u32 i = u32 j) /\
    (forall nonce' i, take 8 nonce' = take 8 nonce -> length nonce' = NonceSize ->
       chunk_nonce nonce' i = chunk_nonce nonce i).
Proof.
  intros Hk Hf. destruct (RandomBytes_ok NonceSize r Hf) as (nonce & r' & E & Hn & Hf').
  assert (forall n : bytes, length n = NonceSize -> copy_into (replicate NonceSize x00) n = n) as Hcp.
  { intros n Hl. unfold copy_into. rewrite length_replicate, take_ge, drop_ge, app_nil_r; [done|..];
      rewrite ?length_replicate; lia. }
  unfold NewStreamEncryptor, NewStreamDecryptor, blen. rewrite Hk. simpl. unfold GenerateNonce.
  eexists _, nonce, _, r'. step_with E. split; [reflexivity|].
  rewrite Hn. split; [reflexivity|]. split_and!.
  - intros m i. unfold DecryptChunk, EncryptChunk. simpl. by rewrite gcm_open_seal.
  - intros i j. unfold chunk_nonce. split; [|by intros ->]. intros Hij%app_inv_head.
    apply be32_inj in Hij; [done|..]; unfold u32; apply Z.mod_pos_bound; lia.
  - intros n' i Ht Hl. unfold chunk_nonce. by rewrite !Hcp, Ht.
Qed.

(** [Fact] A wrapped key unwraps under the same master key, and a key shared by
    X25519 is received: the recipient, from the sender's public bytes, derives
    the secret the sender used and gets the file key. *)
Theorem Key_exchange_roundtrip `{HashFn} `{Ecdh} fileKey mk sender recipient r secret :
  rnd_faults r = [] -> length mk = 32%nat -> ecdh sender (public_of recipient) = Some secret ->
  (exists kw wrapped r', NewKeyWrapper mk = Ok kw /\ WrapKey kw fileKey r = (Ok wrapped, r') /\
     UnwrapKey kw wrapped = Ok fileKey) /\
  (exists pub wrapped r', ShareFileKey fileKey sender recipient r = (Ok (pub, wrapped), r') /\
     ReceiveFileKey wrapped pub recipient = Ok fileKey).
Proof.
  intros Hf Hk Hs. split.
  - destruct (Encrypt_ok fileKey mk r Hk Hf) as (c & r' & E & _ & _ & D).
    exists {| masterKey := mk |}, c, r'. split_and!; [|done|done].
    unfold NewKeyWrapper, blen. by rewrite Hk.
  - destruct (Encrypt_ok fileKey (sha256 secret) r (sha256_length _) Hf) as (c & r' & E & _ & _ & D).
    exists (pub_bytes (public_of sender)), c, r'. unfold ShareFileKey, ReceiveFileKey, ECDHSharedSecret.
    rewrite new_public_bytes, (ecdh_agree recipient sender), Hs. split.
    + rewrite bind_lift_ok. unfold wrap, mbind, GoM_bind. unfold CryptoHash. by rewrite E.
    + simpl. unfold CryptoHash. by rewrite D.
Qed.
End CipherProofs.

(** *** PBKDF2 against its definition in RFC 8018 *)

Section DeriveProofs.
Context `{Hmac} `{HashFn} `{Sha512}.

Fixpoint rfc_U (password m : bytes) (j : nat) : bytes :=
  match j with
  | O => hmac_sha256 password m
  | S j => hmac_sha256 password (rfc_U password m j)
  end.

(** [U_1 xor U_2 xor ... xor U_(j+1)] *)
Fixpoint rfc_xor (password m : bytes) (j : nat) : bytes :=
  match j with
  | O => rfc_U password m 0
  | S j' => zip_with xor_byte (rfc_xor password m j') (rfc_U password m j)
  end.

Definition rfc_F (password salt : bytes) (c i : nat) : bytes :=
  rfc_xor password (salt ++ be32 (u32 (Z.of_nat i))) (c - 1).

Definition rfc_pbkdf2 (password salt : bytes) (c dkLen : nat) : bytes :=
  take dkLen (concat (map (rfc_F password salt c) (seq 1 ((dkLen + 31) / 32)))).

Lemma rfc_U_length p m j : length (rfc_U p m j) = 32%nat.
Proof. destruct j; apply hmac_length. Qed.

Lemma rfc_xor_length p m j : length (rfc_xor p m j) = 32%nat.
Proof.
  induction j as [|j IH]; [apply rfc_U_length|]. cbn [rfc_xor].
  rewrite length_zip_with, IH, rfc_U_length. lia.
Qed.

Lemma inner_passes p m dk j :
  Nat.iter j (inner_pass p) (dk ++ rfc_U p m 0, rfc_U p m 0) = (dk ++ rfc_xor p m j, rfc_U p m j).
Proof.
  induction j as [|j IH]; [done|]. rewrite Nat.iter_succ, IH. unfold inner_pass. f_equal.
  change (hmac_sha256 p (rfc_U p m j)) with (rfc_U p m (S j)). unfold xor_tail.
  assert (length (dk ++ rfc_xor p m j) - length (rfc_U p m (S j)) = length dk)%nat as ->
    by (rewrite length_app, rfc_xor_length, rfc_U_length; lia).
  by rewrite take_app_length, drop_app_length.
Qed.

Lemma outer_pass_eq p salt c dk i : outer_pass p salt c dk i = dk ++ rfc_F p salt c i.
Proof.
  unfold outer_pass, rfc_F. set (m := salt ++ _).
  change (hmac_sha256 p m) with (rfc_U p m 0).
  assert (length (dk ++ rfc_U p m 0) - 32 = length dk)%nat as ->
    by (rewrite length_app, rfc_U_length; lia).
  by rewrite drop_app_length, inner_passes.
Qed.

Lemma pbkdf2_eq p salt c n : pbkdf2 p salt c n = rfc_pbkdf2 p salt c n.
Proof.
  unfold pbkdf2, rfc_pbkdf2. replace (n + 32 - 1)%nat with (n + 31)%nat by lia. f_equal.
  generalize (seq 1 ((n + 31) / 32)). intros l.
  assert (forall dk, foldl (outer_pass p salt c) dk l = dk ++ concat (map (rfc_F p salt c) l)) as Hg; [|apply (Hg [])].
  induction l as [|i l IH]; intros dk; simpl; [by rewrite app_nil_r|].
  by rewrite outer_pass_eq, IH, <-app_assoc.
Qed.

Lemma rfc_pbkdf2_length p salt c n : length (rfc_pbkdf2 p salt c n) = n.
Proof.
  unfold rfc_pbkdf2. rewrite length_take.
  assert (forall l, length (concat (map (rfc_F p salt c) l)) = (32 * length l)%nat) as ->.
  { induction l as [|i l IH]; [done|]. simpl. rewrite length_app, IH. unfold rfc_F.
    rewrite rfc_xor_length. lia. }
  rewrite length_seq. pose proof (Nat.div_mod_eq (n + 31) 32). pose proof (Nat.mod_upper_bound (n + 31) 32). lia.
Qed.

(** *** The memory-hard derivation *)

Definition blocks_ok (nb : nat) (blocks : list bytes) : Prop :=
  length blocks = nb /\ Forall (fun b : bytes => length b = blockSize) blocks.

Lemma block_at_ok nb blocks i : blocks_ok nb blocks -> 0 <= i < Z.of_nat nb ->
  exists b, block_at blocks i = Ok b /\ length b = blockSize.
Proof.
  intros [Hl Hf] Hi. unfold block_at. destruct (Z.ltb_spec i 0); [lia|].
  destruct (lookup_lt_is_Some_2 blocks (Z.to_nat i)) as [b Hb]; [lia|]. rewrite Hb.
  exists b. split; [done|]. by apply (Forall_lookup_1 _ _ _ _ Hf Hb).
Qed.

Lemma blocks_ok_insert nb blocks i b : blocks_ok nb blocks -> length b = blockSize ->
  blocks_ok nb (<[i := b]> blocks).
Proof. intros [Hl Hf] Hb. split; [by rewrite length_insert|by apply Forall_insert]. Qed.

Lemma copy_into_length dst src : length (copy_into dst src) = length dst.
Proof. unfold copy_into. rewrite length_app, length_take, length_drop. lia. Qed.

Lemma expand_ok nb blocks i : blocks_ok nb blocks -> (1 <= i < nb)%nat ->
  exists blocks', expand_step blocks i = Ok blocks' /\ blocks_ok nb blocks'.
Proof.
  intros Hb Hi. unfold expand_step.
  destruct (block_at_ok nb blocks (Z.of_nat i - 1) Hb ltac:(lia)) as (prev & -> & _).
  destruct (block_at_ok nb blocks (Z.of_nat i) Hb ltac:(lia)) as (cur & -> & Hc).
  simpl. eexists. split; [done|]. apply blocks_ok_insert; [done|]. by rewrite copy_into_length.
Qed.

Lemma mix_ok nb blocks i : (0 < nb)%nat -> blocks_ok nb blocks -> (i < nb)%nat ->
  exists blocks', mix_step (Z.of_nat nb) blocks i = Ok blocks' /\ blocks_ok nb blocks'.
Proof.
  intros Hnb Hb Hi. unfold mix_step.
  destruct (block_at_ok nb blocks (Z.of_nat i) Hb ltac:(lia)) as (cur & -> & Hc). simpl.
  assert (exists w, le32 cur = Some w /\ 0 <= w) as (w & Hw & Hwp).
  { destruct cur as [|b0 [|b1 [|b2 [|b3 cur]]]]; try done. simpl. eexists. split; [done|].
    pose proof (bz_range b0). pose proof (bz_range b1). pose proof (bz_range b2). pose proof (bz_range b3). lia. }
  rewrite Hw. simpl.
  destruct (block_at_ok nb blocks (Z.rem (Z.of_nat i - 1 + Z.of_nat nb) (Z.of_nat nb)) Hb) as (prev & -> & _);
    [apply Z.rem_bound_pos; lia|].
  destruct (block_at_ok nb blocks (Z.rem w (Z.of_nat nb)) Hb) as (other & -> & _);
    [apply Z.rem_bound_pos; lia|].
  simpl. eexists. split; [done|]. apply blocks_ok_insert; [done|]. unfold xor_head.
  rewrite length_app, length_zip_with, length_drop, sha512_length, Hc. unfold blockSize. lia.
Qed.

Lemma foldM_blocks nb (step : list bytes -> nat -> Res (list bytes)) l blocks :
  blocks_ok nb blocks ->
  (forall blocks i, i ∈ l -> blocks_ok nb blocks -> exists b', step blocks i = Ok b' /\ blocks_ok nb b') ->
  exists b', foldM step blocks l = Ok b' /\ blocks_ok nb b'.
Proof.
  revert blocks. induction l as [|i l IH]; intros blocks Hb Hs; [by exists blocks|].
  destruct (Hs blocks i ltac:(by left) Hb) as (b1 & E & H1'). simpl. rewrite E. simpl.
  apply IH; [done|]. intros. apply Hs; [by right|done].
Qed.

Lemma derive_ok passphrase salt memoryKB iterations :
  exists key, DeriveKeyArgon2idStyle passphrase salt memoryKB iterations = Ok key /\ length key = 32%nat.
Proof.
  unfold DeriveKeyArgon2idStyle.
  set (nbz := if Z.quot (i64 (memoryKB * 1024)) 1024 <? 4 then 4 else Z.quot (i64 (memoryKB * 1024)) 1024).
  assert (4 <= nbz) as H4 by (unfold nbz; destruct (Z.ltb_spec (Z.quot (i64 (memoryKB * 1024)) 1024) 4); lia).
  set (nb := Z.to_nat nbz). assert (nbz = Z.of_nat nb) as Hz by (unfold nb; lia). rewrite Hz.
  assert (length (replicate blockSize x00) = blockSize) as Hzero by apply length_replicate.
  set (zero := replicate blockSize x00) in *.
  destruct (foldM_blocks nb expand_step (seq 1 (nb - 1))
              (<[0%nat := copy_into zero (pbkdf2 (bytes_of passphrase) salt 1000 64)]> (replicate nb zero)))
    as (b1 & -> & Hb1).
  { apply blocks_ok_insert; [split; [apply length_replicate|by apply Forall_replicate]|].
    by rewrite copy_into_length. }
  { intros bl i Hi Hbl. apply elem_of_seq in Hi. apply expand_ok; [done|lia]. }
  cbn [mbind Res_bind].
  destruct (foldM_blocks nb (fun blocks _ => foldM (mix_step (Z.of_nat nb)) blocks (seq 0 nb)) (seq 0 iterations) b1 Hb1)
    as (b2 & -> & Hb2).
  { intros bl _ _ Hbl. apply foldM_blocks; [done|]. intros bl' i Hi Hbl'. apply elem_of_seq in Hi.
    apply mix_ok; [lia|done|lia]. }
  cbn [mbind Res_bind]. destruct (block_at_ok nb b2 (Z.of_nat nb - 1) Hb2) as (last & -> & _); [lia|].
  eexists. split; [done|apply sha256_length].
Qed.

(** [Fact] The in-place PBKDF2 of the code is that of RFC 8018 and yields exactly
    the length asked for, whatever the length and iteration count; the
    memory-hard derivation built on it never indexes out of range, whatever
    memory size (zero, negative or wrapping included) and iteration count it is
    given, and yields 32 bytes. *)
Theorem derivation_correct password salt c n passphrase memoryKB iterations :
  pbkdf2 password salt c n = rfc_pbkdf2 password salt c n /\ length (pbkdf2 password salt c n) = n /\
  exists key, DeriveKeyArgon2idStyle passphrase salt memoryKB iterations = Ok key /\ length key = 32%nat.
Proof.
  split; [apply pbkdf2_eq|]. split; [by rewrite pbkdf2_eq, rfc_pbkdf2_length|]. apply derive_ok.
Qed.
End DeriveProofs.

(** *** Master keys *)

Definition fresh_keys (l : list string) (mks : MasterKeyStore) : Prop := forall k, is_Some (mks !! k) -> k ∈ l.

Lemma Clear_empty mks : MasterKeyStore_Clear mks = ∅.
Proof.
  unfold MasterKeyStore_Clear. unfold MasterKeyStore in *.
  assert (forall l m, fresh_keys l m -> foldl (fun mks k => delete k
     (<[k := replicate (length (default [] (mks !! k))) x00]> mks)) m l = (∅ : gmap string bytes)) as Hl.
  { induction l as [|k l IH]; intros m Hm; simpl.
    - apply map_eq. intros k. setoid_rewrite lookup_empty. unfold fresh_keys, MasterKeyStore in Hm. destruct (m !! k) eqn:E; [|done].
      destruct (not_elem_of_nil k). apply Hm. eauto.
    - apply IH. intros k' Hk'. unfold MasterKeyStore in *. rewrite delete_insert_eq in Hk'. apply lookup_delete_is_Some in Hk' as [Hne Hk'].
      apply Hm in Hk'. set_solver. }
  apply Hl. intros k [v Hv]. apply list_elem_of_fmap. exists (k, v). by rewrite elem_of_map_to_list.
Qed.

(** ** Witnesses *)

Section Witnesses.
#[local] Existing Instance toy_hash.
#[local] Existing Instance toy_aead.
#[local] Existing Instance toy_ecdh.

Definition key32 : bytes := replicate 32 x41.

Lemma Encrypt_Decrypt_witness :
  (exists c r', Encrypt [x68; x69] key32 toy_rand = (Ok c, r') /\ length c = 30%nat /\ Decrypt c key32 = Ok [x68; x69]) /\
  (forall c, (length c < Overhead)%nat -> Decrypt c key32 = Err ErrInvalidCiphertext).
Proof. apply (Encrypt_Decrypt [x68; x69] key32 toy_rand). reflexivity. Defined.

Lemma Stream_roundtrip_witness : exists se nonce sd r',
  NewStreamEncryptor key32 toy_rand = (Ok (se, nonce), r') /\
  NewStreamDecryptor key32 nonce = Ok sd /\
  (forall m i, DecryptChunk sd (EncryptChunk se m i) i = Ok m) /\
  (forall i j, chunk_nonce nonce i = chunk_nonce nonce j <-> u32 i = u32 j) /\
  (forall nonce' i, take 8 nonce' = take 8 nonce -> length nonce' = NonceSize ->
     chunk_nonce nonce' i = chunk_nonce nonce i).
Proof. apply Stream_roundtrip; reflexivity. Defined.

Lemma Key_exchange_witness :
  (exists kw wrapped r', NewKeyWrapper key32 = Ok kw /\ WrapKey kw [x01; x02] toy_rand = (Ok wrapped, r') /\
     UnwrapKey kw wrapped = Ok [x01; x02]) /\
  (exists pub wrapped r', ShareFileKey [x01; x02] (x05 : @privkey toy_ecdh) (x07 : @privkey toy_ecdh) toy_rand = (Ok (pub, wrapped), r') /\
     ReceiveFileKey wrapped pub (x07 : @privkey toy_ecdh) = Ok [x01; x02]).
Proof. apply (Key_exchange_roundtrip [x01; x02] key32 (x05 : @privkey toy_ecdh) (x07 : @privkey toy_ecdh) toy_rand [x0c]); reflexivity. Defined.
End Witnesses.
