(* ===== verification/Chunker.v ===== *)
(** * Content-defined chunking (internal/chunk/chunker.go)

    A reader is the list of its [Read] results.  The three chunking loops of the
    file repeat the same rolling-hash code; that code is [roll], the test for a
    boundary is [must_cut], and each loop has its own state and step.  64-bit
    words are [Z] below [2^64] with wrap-around shifts. *)

From S2P Require Import Prelude GoStrings GoCrypto.

(** ** The Rabin tables *)

Record rabinTable := mkTable {
  polynomial_t : Z; degree : nat; outTable : list Z; modTable : list Z
}.

Definition shl (x : Z) (n : nat) : Z := u64 (Z.shiftl x (Z.of_nat n)).

(** [for degree > 0 && ((poly>>degree)&1) == 0 { degree-- }] *)
Fixpoint find_degree (poly : Z) (degree : nat) : nat :=
  match degree with
  | O => O
  | S d => if Z.land (Z.shiftr poly (Z.of_nat degree)) 1 =? 0 then find_degree poly d else degree
  end.

Definition out_step (poly pDegree outPoly : Z) : Z :=
  let outPoly := shl outPoly 1 in
  if negb (Z.land outPoly pDegree =? 0) then Z.lxor outPoly poly else outPoly.

(** [for i := range 8 { if (bb>>i)&1 != 0 { result ^= p << i } }] *)
Definition spread (p bb : Z) : Z :=
  foldl (fun result i => if negb (Z.land (Z.shiftr bb (Z.of_nat i)) 1 =? 0)
                         then Z.lxor result (shl p i) else result) 0 (seq 0 8).

(** [for i := uint(63); i >= degree; i-- { ... }] for a positive degree *)
Definition reduce_poly (poly : Z) (degree : nat) (result : Z) : Z :=
  foldl (fun result i => if negb (Z.land (Z.shiftr result (Z.of_nat i)) 1 =? 0)
                         then Z.lxor result (shl poly (i - degree)) else result)
        result (reverse (seq degree (64 - degree))).

(** With degree 0 the unsigned loop counter wraps below zero and the reduction
    loop never ends. *)
Definition createRabinTable (poly : Z) (windowSize : nat) : Res rabinTable :=
  let degree := find_degree poly 63 in
  if bool_decide (degree = 0%nat) then OutOfFuel
  else
    let pDegree := shl 1 degree in
    let outPoly := Nat.iter windowSize (out_step poly pDegree) 1 in
    Ok (mkTable poly degree
          ((fun b => reduce_poly poly degree (spread outPoly (Z.of_nat b))) <$> seq 0 256)
          ((fun b => reduce_poly poly degree (spread poly (Z.of_nat b))) <$> seq 0 256)).

(** The process-wide cache of tables: keyed by the polynomial alone. *)
Definition rabinTables : Type := gmap Z rabinTable.

Definition getRabinTable (poly : Z) (windowSize : nat) : GoM rabinTables rabinTable :=
  tables ← get_w;
  match tables !! poly with
  | Some table => mret table
  | None =>
      table ← lift (createRabinTable poly windowSize);
      put_w (<[poly := table]> tables);;
      mret table
  end.

(** ** Chunkers *)

Record Chunker := mkChunker {
  minSize : Z; avgSize : Z; maxSize : Z; windowSize : Z; mask : Z; polynomial : Z; table : rabinTable
}.

Record ChunkInfo := mkInfo { ci_Hash : string; ci_Offset : Z; ci_Size : Z }.

(** [for size > 1 { size >>= 1; bits++ }] *)
Fixpoint log_loop (fuel : nat) (size bits : Z) : Res Z :=
  match fuel with
  | O => OutOfFuel
  | S fuel => if 1 <? size then log_loop fuel (Z.shiftr size 1) (bits + 1) else Ok bits
  end.

Definition rabin_poly : Z := 0x3DA3358B4DC173.

(** [size] is a 64-bit int, so 64 halvings end the loop. *)
Definition NewChunker (min avg max : Z) : GoM rabinTables Chunker :=
  bits ← lift (log_loop 64 avg 0);
  let bits := bits - 2 in
  let bits := if bits <? 8 then 8 else bits in
  let mask := u64 (shl 1 (Z.to_nat bits) - 1) in
  let polynomial := rabin_poly in
  let windowSize := 48 in
  table ← getRabinTable polynomial (Z.to_nat windowSize);
  mret (mkChunker min avg max windowSize mask polynomial table).

Definition DefaultChunker : GoM rabinTables Chunker :=
  NewChunker (256 * 1024) (1024 * 1024) (4 * 1024 * 1024).

(** ** The rolling fingerprint *)

Definition pushByte (c : Chunker) (fp : Z) (b : byte) : Z :=
  let fp := shl fp 1 in
  let fp := if negb (Z.land fp (shl 1 (degree (table c))) =? 0) then Z.lxor fp (polynomial c) else fp in
  Z.lxor fp (bz b).

Definition slideFingerprint (c : Chunker) (fp : Z) (oldByte newByte : byte) : Z :=
  let fp := Z.lxor fp (nth (Z.to_nat (bz oldByte)) (outTable (table c)) 0) in
  let fp := shl fp 1 in
  let fp := if negb (Z.land fp (shl 1 (degree (table c))) =? 0) then Z.lxor fp (polynomial c) else fp in
  Z.lxor fp (bz newByte).

Record roll_state := mkRoll { window : bytes; fingerprint : Z; windowPos : Z; windowFilled : bool }.

Definition roll_init (c : Chunker) : roll_state :=
  mkRoll (replicate (Z.to_nat (windowSize c)) x00) 0 0 false.

Definition roll (c : Chunker) (s : roll_state) (b : byte) : Res roll_state :=
  if windowFilled s || (windowSize c <=? windowPos s) then
    match window s with
    | [] => Panic "index out of range"
    | oldByte :: rest =>
        Ok (mkRoll (rest ++ [b]) (slideFingerprint c (fingerprint s) oldByte b) (windowPos s) (windowFilled s))
    end
  else
    Ok (mkRoll (<[Z.to_nat (windowPos s) := b]> (window s)) (pushByte c (fingerprint s) b) (windowPos s + 1)
          (if windowPos s + 1 =? windowSize c then true else windowFilled s)).

Definition zlen {A} (l : list A) : Z := Z.of_nat (length l).

Definition must_cut (c : Chunker) (fp : Z) (chunkBuf : bytes) : bool :=
  (minSize c <=? zlen chunkBuf) && ((Z.land fp (mask c) =? 0) || (maxSize c <=? zlen chunkBuf)).

(** ** Readers *)

Inductive read_err := EOF | ReadErr (e : error).

(** What successive calls of [Read] return: [n] bytes and an error.  A reader
    whose list is exhausted is at EOF. *)
Definition reader : Type := list (bytes * option read_err).

(** [for { n, err := r.Read(buf); for each byte { step }; if err == io.EOF
    { break }; if err != nil { return err } }] *)
Fixpoint read_loop {S} (step : S -> byte -> Res S) (r : reader) (s : S) : Res S :=
  match r with
  | [] => Ok s
  | (buf, err) :: r =>
      s ← foldM step s buf;
      match err with
      | Some EOF => Ok s
      | Some (ReadErr e) => Err e
      | None => read_loop step r s
      end
  end.

Section Chunking.
Context `{HashFn}.

(** *** Chunk *)

Record chunk_state := mkCS {
  cs_roll : roll_state; cs_offset : Z; cs_buf : bytes; cs_chunkOffset : Z; cs_chunks : list ChunkInfo
}.

Definition chunk_byte (c : Chunker) (s : chunk_state) (b : byte) : Res chunk_state :=
  let chunkBuf := cs_buf s ++ [b] in
  let offset := i64 (cs_offset s + 1) in
  rs ← roll c (cs_roll s) b;
  Ok (if must_cut c (fingerprint rs) chunkBuf
      then mkCS rs offset [] offset
             (cs_chunks s ++ [mkInfo (sha256_hex chunkBuf) (cs_chunkOffset s) (zlen chunkBuf)])
      else mkCS rs offset chunkBuf (cs_chunkOffset s) (cs_chunks s)).

Definition Chunk (c : Chunker) (r : reader) : Res (list ChunkInfo) :=
  s ← read_loop (chunk_byte c) r (mkCS (roll_init c) 0 [] 0 []);
  Ok (if 0 <? zlen (cs_buf s)
      then cs_chunks s ++ [mkInfo (sha256_hex (cs_buf s)) (cs_chunkOffset s) (zlen (cs_buf s))]
      else cs_chunks s).

(** *** ChunkWithData *)

Record data_state := mkDS {
  ds_roll : roll_state; ds_offset : Z; ds_buf : bytes; ds_chunkOffset : Z;
  ds_chunks : list ChunkInfo; ds_data : list bytes
}.

Definition data_byte (c : Chunker) (s : data_state) (b : byte) : Res data_state :=
  let chunkBuf := ds_buf s ++ [b] in
  let offset := i64 (ds_offset s + 1) in
  rs ← roll c (ds_roll s) b;
  Ok (if must_cut c (fingerprint rs) chunkBuf
      then let chunkCopy := chunkBuf in
           mkDS rs offset [] offset
             (ds_chunks s ++ [mkInfo (sha256_hex chunkCopy) (ds_chunkOffset s) (zlen chunkCopy)])
             (ds_data s ++ [chunkCopy])
      else mkDS rs offset chunkBuf (ds_chunkOffset s) (ds_chunks s) (ds_data s)).

Definition ChunkWithData (c : Chunker) (r : reader) : Res (list ChunkInfo * list bytes) :=
  s ← read_loop (data_byte c) r (mkDS (roll_init c) 0 [] 0 [] []);
  Ok (if 0 <? zlen (ds_buf s)
      then (ds_chunks s ++ [mkInfo (sha256_hex (ds_buf s)) (ds_chunkOffset s) (zlen (ds_buf s))],
            ds_data s ++ [ds_buf s])
      else (ds_chunks s, ds_data s)).

(** *** ChunkStream

    [W] is the state of the callback; [ss_hasher] holds the bytes written to
    the running hash since its reset. *)

Context {W : Type}.

Record stream_state := mkSS { ss_roll : roll_state; ss_buf : bytes; ss_chunkOffset : Z; ss_hasher : bytes }.

Definition stream_byte (c : Chunker) (onChunk : Z -> Z -> string -> bytes -> GoM W unit)
    (s : stream_state) (b : byte) : GoM W stream_state :=
  let chunkBuf := ss_buf s ++ [b] in
  let hasher := ss_hasher s ++ [b] in
  rs ← lift (roll c (ss_roll s) b);
  if must_cut c (fingerprint rs) chunkBuf then
    let hash := sha256_hex hasher in
    let chunkCopy := chunkBuf in
    onChunk (ss_chunkOffset s) (zlen chunkBuf) hash chunkCopy;;
    let chunkBuf := [] : bytes in
    mret (mkSS rs chunkBuf (i64 (ss_chunkOffset s + zlen chunkBuf)) [])
  else mret (mkSS rs chunkBuf (ss_chunkOffset s) hasher).

Fixpoint stream_bytes (c : Chunker) onChunk (s : stream_state) (l : bytes) : GoM W stream_state :=
  match l with
  | [] => mret s
  | b :: l => s ← stream_byte c onChunk s b; stream_bytes c onChunk s l
  end.

Fixpoint stream_loop (c : Chunker) onChunk (r : reader) (s : stream_state) : GoM W stream_state :=
  match r with
  | [] => mret s
  | (buf, err) :: r =>
      s ← stream_bytes c onChunk s buf;
      match err with
      | Some EOF => mret s
      | Some (ReadErr e) => fail e
      | None => stream_loop c onChunk r s
      end
  end.

Definition ChunkStream (c : Chunker) (r : reader) (onChunk : Z -> Z -> string -> bytes -> GoM W unit)
    : GoM W unit :=
  s ← stream_loop c onChunk r (mkSS (roll_init c) [] 0 []);
  if 0 <? zlen (ss_buf s) then
    let hash := sha256_hex (ss_hasher s) in
    let chunkCopy := ss_buf s in
    onChunk (ss_chunkOffset s) (zlen (ss_buf s)) hash chunkCopy
  else mret tt.
End Chunking.

(** ** The deduplication index *)

Definition DedupIndex : Type := gset string.
Definition NewDedupIndex : DedupIndex := ∅.
Definition DedupIndex_Add (d : DedupIndex) (hash : string) : DedupIndex := {[hash]} ∪ d.
Definition DedupIndex_Exists (d : DedupIndex) (hash : string) : bool := bool_decide (hash ∈ d).
Definition DedupIndex_Remove (d : DedupIndex) (hash : string) : DedupIndex := d ∖ {[hash]}.

(** ** Lemmas: the default tables *)

Definition default_table : rabinTable :=
  Eval vm_compute in match createRabinTable rabin_poly 48 with Ok t => t | _ => mkTable 0 0 [] [] end.

Lemma default_table_eq : createRabinTable rabin_poly 48 = Ok default_table.
Proof. vm_compute. reflexivity. Qed.

Lemma default_degree : degree default_table = 53%nat.
Proof. reflexivity. Qed.

Lemma outTable_range n : 0 <= nth n (outTable default_table) 0 < 2 ^ 53.
Proof.
  assert (List.Forall (fun x => 0 <= x < 2 ^ 53) (outTable default_table)) as Hf.
  { change (Forall (fun x => 0 <= x < 2 ^ 53) (outTable default_table)).
    apply (bool_decide_unpack _). vm_compute. exact I. }
  destruct (nth_in_or_default n (outTable default_table) 0) as [Hin| ->]; [|lia].
  rewrite List.Forall_forall in Hf. by apply Hf.
Qed.

(** ** Lemmas: the fingerprint stays below the degree of the polynomial *)

Lemma bits_below n x : 0 <= n -> 0 <= x -> x < 2 ^ n <-> forall i, n <= i -> Z.testbit x i = false.
Proof.
  intros Hn Hx. split.
  - intros Hlt i Hi. rewrite <-(Z.mod_small x (2 ^ n)) by lia. by apply Z.mod_pow2_bits_high.
  - intros Hb. assert (x = x mod 2 ^ n) as ->; [|apply Z.mod_pos_bound; lia].
    apply Z.bits_inj'. intros i Hi. destruct (decide (n <= i)).
    + rewrite Hb, Z.mod_pow2_bits_high by lia. done.
    + by rewrite Z.mod_pow2_bits_low by lia.
Qed.

Lemma lxor_below n x y : 0 <= n -> 0 <= x < 2 ^ n -> 0 <= y < 2 ^ n -> 0 <= Z.lxor x y < 2 ^ n.
Proof.
  intros Hn [Hx Hx'] [Hy Hy']. assert (0 <= Z.lxor x y) as H0 by (apply Z.lxor_nonneg; tauto).
  split; [done|]. apply bits_below; [done..|]. intros i Hi.
  rewrite Z.lxor_spec, (proj1 (bits_below n x Hn Hx) Hx'), (proj1 (bits_below n y Hn Hy) Hy') by done. done.
Qed.

(** One multiplication by [x] modulo the polynomial. *)
Definition mulx (f : Z) : Z :=
  let g := shl f 1 in
  if negb (Z.land g (shl 1 53) =? 0) then Z.lxor g rabin_poly else g.

Lemma land_pow2 x n : 0 <= n -> (Z.land x (2 ^ n) =? 0) = negb (Z.testbit x n).
Proof.
  intros Hn. destruct (Z.testbit x n) eqn:E; simpl.
  - apply Z.eqb_neq. intros H0. apply (f_equal (fun z => Z.testbit z n)) in H0.
    by rewrite Z.land_spec, E, Z.pow2_bits_true, Z.bits_0 in H0.
  - apply Z.eqb_eq, Z.bits_inj'. intros i Hi. rewrite Z.land_spec, Z.bits_0, Z.pow2_bits_eqb by done.
    destruct (Z.eqb_spec n i); [subst; by rewrite E|by rewrite andb_false_r].
Qed.

Lemma mulx_eq f : 0 <= f < 2 ^ 53 ->
  mulx f = if Z.testbit (2 * f) 53 then Z.lxor (2 * f) rabin_poly else 2 * f.
Proof.
  intros Hf. unfold mulx. replace (shl f 1) with (2 * f).
  2:{ unfold shl. rewrite Z.shiftl_mul_pow2 by done. change (2 ^ Z.of_nat 1) with 2.
      rewrite u64_id by (unfold in_u64; lia). lia. }
  change (shl 1 53) with (2 ^ 53). rewrite land_pow2 by done. by destruct (Z.testbit (2 * f) 53).
Qed.

Lemma mulx_range f : 0 <= f < 2 ^ 53 -> 0 <= mulx f < 2 ^ 53.
Proof.
  intros Hf. rewrite mulx_eq by done.
  assert (forall i, 54 <= i -> Z.testbit (2 * f) i = false) as Hhi by (apply (bits_below 54); lia).
  destruct (Z.testbit (2 * f) 53) eqn:E.
  - assert (0 <= Z.lxor (2 * f) rabin_poly) as H0 by (apply Z.lxor_nonneg; unfold rabin_poly; lia).
    split; [done|]. apply bits_below; [lia|done|]. intros i Hi. rewrite Z.lxor_spec.
    destruct (decide (i = 53)) as [->|]; [by rewrite E|].
    rewrite Hhi by lia. apply (bits_below 54); [lia|done|done|lia].
  - split; [lia|]. apply bits_below; [lia|lia|]. intros i Hi.
    destruct (decide (i = 53)) as [->|]; [done|apply Hhi; lia].
Qed.

Lemma mulx_inj f f' : 0 <= f < 2 ^ 53 -> 0 <= f' < 2 ^ 53 -> mulx f = mulx f' -> f = f'.
Proof.
  intros Hf Hf'. rewrite !mulx_eq by done. intros E.
  assert (forall g, Z.testbit (if Z.testbit (2 * g) 53 then Z.lxor (2 * g) rabin_poly else 2 * g) 0
            = Z.testbit (2 * g) 53) as H0.
  { intros g. destruct (Z.testbit (2 * g) 53); [rewrite Z.lxor_spec|]; by rewrite Z.testbit_even_0. }
  pose proof (H0 f) as H1. rewrite E, H0 in H1. rewrite H1 in E.
  destruct (Z.testbit (2 * f) 53); [|lia].
  apply (f_equal (fun z => Z.lxor z rabin_poly)) in E.
  rewrite !Z.lxor_assoc, Z.lxor_nilpotent, !Z.lxor_0_r in E. lia.
Qed.

Lemma lxor_inj_r x x' y : Z.lxor x y = Z.lxor x' y -> x = x'.
Proof.
  intros E. apply (f_equal (fun z => Z.lxor z y)) in E.
  by rewrite !Z.lxor_assoc, Z.lxor_nilpotent, !Z.lxor_0_r in E.
Qed.

(** A chunker as [NewChunker] makes it, with sensible size limits. *)
Definition wf_chunker (c : Chunker) : Prop :=
  windowSize c = 48 /\ polynomial c = rabin_poly /\ table c = default_table /\
  1 <= minSize c /\ minSize c <= maxSize c.

Lemma bz_small b : 0 <= bz b < 2 ^ 53.
Proof. pose proof (bz_range b). lia. Qed.
#[export] Hint Resolve bz_small : vault.

Lemma pushByte_eq c fp b : wf_chunker c -> pushByte c fp b = Z.lxor (mulx fp) (bz b).
Proof. intros (_ & Hp & Ht & _). unfold pushByte. by rewrite Ht, Hp, default_degree. Qed.

Lemma slideFingerprint_eq c fp o n : wf_chunker c ->
  slideFingerprint c fp o n = Z.lxor (mulx (Z.lxor fp (nth (Z.to_nat (bz o)) (outTable default_table) 0))) (bz n).
Proof. intros (_ & Hp & Ht & _). unfold slideFingerprint. by rewrite Ht, Hp, default_degree. Qed.

Lemma slide_range c fp o n : wf_chunker c -> 0 <= fp < 2 ^ 53 -> 0 <= slideFingerprint c fp o n < 2 ^ 53.
Proof.
  intros Hc Hf. rewrite slideFingerprint_eq by done.
  apply lxor_below, bz_small; [lia|]. apply mulx_range, lxor_below, outTable_range; [lia|done].
Qed.

Lemma push_range c fp b : wf_chunker c -> 0 <= fp < 2 ^ 53 -> 0 <= pushByte c fp b < 2 ^ 53.
Proof. intros Hc Hf. rewrite pushByte_eq by done. apply lxor_below, bz_small; [lia|]. by apply mulx_range. Qed.

Lemma slide_inj c fp fp' o n : wf_chunker c -> 0 <= fp < 2 ^ 53 -> 0 <= fp' < 2 ^ 53 ->
  slideFingerprint c fp o n = slideFingerprint c fp' o n -> fp = fp'.
Proof.
  intros Hc Hf Hf'. rewrite !slideFingerprint_eq by done. intros E%lxor_inj_r.
  apply mulx_inj in E; [by apply lxor_inj_r in E|..]; apply lxor_below; auto using outTable_range; lia.
Qed.

(** ** Lemmas: the rolling window *)

Definition roll_ok (s : roll_state) : Prop :=
  length (window s) = 48%nat /\ 0 <= windowPos s <= 48 /\ 0 <= fingerprint s < 2 ^ 53 /\
  (windowFilled s = true <-> windowPos s = 48).

Lemma roll_init_ok c : wf_chunker c -> roll_ok (roll_init c).
Proof.
  intros (Hw & _). unfold roll_init, roll_ok. rewrite Hw. simpl. split_and!; try done; lia.
Qed.

Lemma roll_total c s b : wf_chunker c -> roll_ok s -> exists s', roll c s b = Ok s' /\ roll_ok s'.
Proof.
  intros Hc (Hl & Hp & Hf & Hfl). pose proof Hc as (Hw & _). unfold roll. rewrite Hw.
  destruct (windowFilled s || (48 <=? windowPos s)) eqn:E.
  - destruct (window s) as [|o rest] eqn:Ew; [done|]. eexists. split; [done|]. unfold roll_ok. simpl in *.
    split; [rewrite length_app; simpl; lia|]. split; [done|]. split; [by apply slide_range|done].
  - bool_to_prop. eexists. split; [done|]. unfold roll_ok. simpl. split; [by rewrite length_insert|].
    split; [lia|]. split; [by apply push_range|].
    destruct (Z.eqb_spec (windowPos s + 1) 48); [tauto|]. split; [congruence|lia].
Qed.

(** Once the window is full, every byte slides it. *)
Lemma roll_full c s b : wf_chunker c -> roll_ok s -> windowFilled s = true ->
  exists o rest, window s = o :: rest /\
    roll c s b = Ok (mkRoll (rest ++ [b]) (slideFingerprint c (fingerprint s) o b) (windowPos s) true).
Proof.
  intros Hc (Hl & _) Hf. unfold roll. rewrite Hf. simpl.
  destruct (window s) as [|o rest]; [done|]. eauto.
Qed.

Definition cache_ok (tables : rabinTables) : Prop := forall t, tables !! rabin_poly = Some t -> t = default_table.

Lemma cache_ok_empty : cache_ok ∅.
Proof. intros t. unfold rabinTables. by rewrite lookup_empty. Qed.

Lemma getRabinTable_spec tables : cache_ok tables ->
  exists tables', getRabinTable rabin_poly 48 tables = (Ok default_table, tables') /\ cache_ok tables'.
Proof.
  intros Hc. unfold getRabinTable. rewrite bind_get.
  destruct (tables !! rabin_poly) as [t|] eqn:E.
  - rewrite (Hc t E). eauto.
  - rewrite default_table_eq, bind_lift_ok, bind_put. eexists. split; [reflexivity|]. intros t. unfold rabinTables in *.  rewrite lookup_insert_eq. congruence.
Qed.

Lemma NewChunker_spec min avg max tables :
  in_i64 avg -> cache_ok tables ->
  exists c tables', NewChunker min avg max tables = (Ok c, tables') /\
    cache_ok tables' /\
    minSize c = min /\ maxSize c = max /\ windowSize c = 48 /\ polynomial c = rabin_poly /\
    table c = default_table.
Proof.
  intros Havg Hcache.
  assert (forall n size bits, size < 2 ^ Z.of_nat n -> exists b, log_loop (S n) size bits = Ok b) as Hlog.
  { induction n as [|n IH]; intros size bits Hs; cbn [log_loop].
    - destruct (Z.ltb_spec 1 size); [simpl in Hs; lia|]. eauto.
    - destruct (Z.ltb_spec 1 size); [|eauto]. apply IH. rewrite Nat2Z.inj_succ, Z.pow_succ_r in Hs by lia.
      rewrite Z.shiftr_div_pow2 by lia. apply Z.div_lt_upper_bound; lia. }
  destruct (Hlog 63%nat avg 0) as [bits Hb]; [unfold in_i64 in Havg; lia|].
  destruct (getRabinTable_spec tables Hcache) as (tables' & Ht & Hc').
  unfold NewChunker. rewrite Hb. rewrite bind_lift_ok.
  change (Z.to_nat 48) with 48%nat. rewrite (bind_ok _ _ _ _ _ Ht). by eexists _, _.
Qed.

(** The chunker that [DefaultChunker] builds. *)
Definition default_chunker : Chunker :=
  mkChunker (256 * 1024) (1024 * 1024) (4 * 1024 * 1024) 48 (2 ^ 18 - 1) rabin_poly default_table.

Lemma default_chunker_wf : wf_chunker default_chunker.
Proof. by repeat split. Qed.

Lemma DefaultChunker_spec tables : cache_ok tables ->
  exists tables', DefaultChunker tables = (Ok default_chunker, tables') /\ cache_ok tables'.
Proof.
  intros Hc. destruct (getRabinTable_spec tables Hc) as (tables' & Ht & Hc'). exists tables'.
  unfold DefaultChunker, NewChunker.
  assert (log_loop 64 (1024 * 1024) 0 = Ok 20) as -> by reflexivity. rewrite bind_lift_ok.
  change (Z.to_nat 48) with 48%nat. by rewrite (bind_ok _ _ _ _ _ Ht).
Qed.

(** ** Lemmas: readers *)

(** All the bytes a reader delivers, or its error. *)
Fixpoint drain (r : reader) : Res bytes :=
  match r with
  | [] => Ok []
  | (buf, None) :: r => rest ← drain r; Ok (buf ++ rest)
  | (buf, Some EOF) :: _ => Ok buf
  | (_, Some (ReadErr e)) :: _ => Err e
  end.

(** A loop whose steps succeed depends on the bytes read only, not on how the
    reads split them. *)
Lemma read_loop_drain {S} (I : S -> Prop) (step : S -> byte -> Res S) r s :
  I s -> (forall s b, I s -> exists s', step s b = Ok s' /\ I s') ->
  read_loop step r s = (bs ← drain r; foldM step s bs).
Proof.
  intros Hs Hstep. revert s Hs. induction r as [|[buf err] r IH]; intros s Hs; [done|]. simpl.
  destruct (foldM_inv I step buf s Hs Hstep) as (s' & E & Hs'). rewrite E. simpl.
  destruct err as [[|e]|]; simpl; [by rewrite E|done|]. rewrite (IH s' Hs').
  destruct (drain r); try done. simpl. by rewrite foldM_app, E.
Qed.

(** Loops over related states. *)
Lemma foldM_sim {A A' B} (f : A -> A') (step : A -> B -> Res A) (step' : A' -> B -> Res A') l s :
  (forall s b, step' (f s) b = f <$> step s b) -> foldM step' (f s) l = f <$> foldM step s l.
Proof.
  intros Hs. revert s. induction l as [|b l IH]; intros s; [done|]. simpl. rewrite Hs.
  destruct (step s b); try done. simpl. apply IH.
Qed.

Lemma read_loop_sim {S S'} (f : S -> S') step step' r s :
  (forall s b, step' (f s) b = f <$> step s b) -> read_loop step' r (f s) = f <$> read_loop step r s.
Proof.
  intros Hs. revert s. induction r as [|[buf err] r IH]; intros s; [done|]. simpl.
  rewrite (foldM_sim f step step') by done. destruct (foldM step s buf); try done. simpl.
  destruct err as [[|e]|]; [done..|]. apply IH.
Qed.

(** ** The chunks of a stream *)

Section ChunkProofs.
Context `{HashFn}.

(** The descriptions of consecutive chunks, the first one at [off]. *)
Fixpoint infos_of (off : Z) (data : list bytes) : list ChunkInfo :=
  match data with
  | [] => []
  | d :: data => mkInfo (sha256_hex d) (i64 off) (zlen d) :: infos_of (off + zlen d) data
  end.

Lemma infos_of_snoc off data d :
  infos_of off (data ++ [d]) =
    infos_of off data ++ [mkInfo (sha256_hex d) (i64 (off + zlen (concat data))) (zlen d)].
Proof.
  revert off. induction data as [|x data IH]; intros off; simpl.
  - unfold zlen at 2. simpl. by rewrite Z.add_0_r.
  - rewrite IH. unfold zlen. by rewrite length_app, Nat2Z.inj_add, Z.add_assoc.
Qed.

Definition size_ok (c : Chunker) (d : bytes) : Prop := minSize c <= zlen d <= maxSize c.

(** The state of [ChunkWithData] after reading [bs]. *)
Definition data_inv (c : Chunker) (bs : bytes) (s : data_state) : Prop :=
  roll_ok (ds_roll s) /\ concat (ds_data s) ++ ds_buf s = bs /\
  ds_offset s = i64 (zlen bs) /\ ds_chunkOffset s = i64 (zlen (concat (ds_data s))) /\
  ds_chunks s = infos_of 0 (ds_data s) /\ Forall (size_ok c) (ds_data s) /\
  (zlen (ds_buf s) < maxSize c)%Z.

Lemma data_step c bs s b : wf_chunker c -> data_inv c bs s ->
  exists s', data_byte c s b = Ok s' /\ data_inv c (bs ++ [b]) s'.
Proof.
  intros Hc (Hr & Hbs & Ho & Hco & Hch & Hsz & Hb).
  destruct (roll_total c (ds_roll s) b Hc Hr) as (rs & Ers & Hrs).
  pose proof Hc as (_ & _ & _ & Hmin & Hmax).
  assert (Ho' : i64 (ds_offset s + 1) = i64 (zlen (bs ++ [b]))).
  { rewrite Ho, i64_add_l. unfold zlen. rewrite length_app. simpl. f_equal. lia. }
  assert (Hlen : zlen (ds_buf s ++ [b]) = zlen (ds_buf s) + 1) by (unfold zlen; rewrite length_app; simpl; lia).
  unfold data_byte. rewrite Ers. simpl. eexists. split; [done|].
  unfold must_cut. rewrite Hlen. destruct (Z.leb_spec (minSize c) (zlen (ds_buf s) + 1)); simpl.
  - destruct (_ || _) eqn:E.
    + unfold data_inv. simpl. rewrite concat_app. simpl. rewrite !app_nil_r, app_assoc, Hbs.
      split_and!; try done; [by rewrite infos_of_snoc, Hco, Hch, Hlen| |unfold zlen; simpl; lia].
      apply Forall_app. split; [done|]. apply Forall_singleton. unfold size_ok. rewrite Hlen. lia.
    + bool_to_prop. unfold data_inv. simpl. rewrite app_assoc, Hbs. split_and!; try done. lia.
  - unfold data_inv. simpl. rewrite app_assoc, Hbs. split_and!; try done. lia.
Qed.

Lemma data_init_inv c : wf_chunker c -> data_inv c [] (mkDS (roll_init c) 0 [] 0 [] []).
Proof.
  intros Hc. pose proof Hc as (_ & _ & _ & ? & ?). unfold data_inv. simpl.
  split_and!; try done; [by apply roll_init_ok|unfold zlen; simpl; lia].
Qed.

Lemma data_fold c s bs bs0 : wf_chunker c -> data_inv c bs0 s ->
  exists s', foldM (data_byte c) s bs = Ok s' /\ data_inv c (bs0 ++ bs) s'.
Proof.
  intros Hc. revert s bs0. induction bs as [|b bs IH]; intros s bs0 Hs.
  - exists s. by rewrite app_nil_r.
  - destruct (data_step c bs0 s b Hc Hs) as (s1 & E & H1). simpl. rewrite E. simpl.
    destruct (IH s1 _ H1) as (s2 & E2 & H2). exists s2. by rewrite <-app_assoc in H2.
Qed.

(** The loop of [ChunkWithData] on a reader that delivers [bs]. *)
Lemma data_loop c r bs : wf_chunker c -> drain r = Ok bs ->
  exists s, read_loop (data_byte c) r (mkDS (roll_init c) 0 [] 0 [] []) = Ok s /\ data_inv c bs s.
Proof.
  intros Hc Hr. rewrite (read_loop_drain (fun s => exists bs, data_inv c bs s)), Hr.
  - by apply (data_fold c _ bs []), data_init_inv.
  - eauto using data_init_inv.
  - intros s b [bs0 Hs]. destruct (data_step c bs0 s b Hc Hs) as (s' & ? & ?). eauto.
Qed.

(** The chunks of a stream: consecutive pieces of it, each with its digest,
    offset and length; all of them within the size limits of the chunker, but
    for the last, which may be shorter. *)
Definition chunks_of (c : Chunker) (bs : bytes) (infos : list ChunkInfo) (data : list bytes) : Prop :=
  concat data = bs /\ infos = infos_of 0 data /\
  Forall (fun d => 0 < zlen d <= maxSize c) data /\
  forall init d, data = init ++ [d] -> Forall (fun d => minSize c <= zlen d) init.

Lemma data_finish c bs s : wf_chunker c -> data_inv c bs s ->
  if 0 <? zlen (ds_buf s)
  then chunks_of c bs
         (ds_chunks s ++ [mkInfo (sha256_hex (ds_buf s)) (ds_chunkOffset s) (zlen (ds_buf s))])
         (ds_data s ++ [ds_buf s])
  else chunks_of c bs (ds_chunks s) (ds_data s).
Proof.
  intros Hc (_ & Hbs & _ & Hco & Hch & Hsz & Hb). pose proof Hc as (_ & _ & _ & Hmin & Hmax).
  destruct (Z.ltb_spec 0 (zlen (ds_buf s))); unfold chunks_of.
  - rewrite concat_app. simpl. rewrite app_nil_r, infos_of_snoc, Hco, Hch. split_and!; try done.
    + apply Forall_app. split; [|apply Forall_singleton; lia].
      eapply Forall_impl; [done|]. unfold size_ok. simpl. lia.
    + intros init d [<- _]%app_inj_tail. eapply Forall_impl; [done|]. unfold size_ok. simpl. lia.
  - assert (ds_buf s = []) as Hn by (destruct (ds_buf s); [done|unfold zlen in *; simpl in *; lia]).
    rewrite Hn, app_nil_r in Hbs. split_and!; try done.
    + eapply Forall_impl; [done|]. unfold size_ok. simpl. lia.
    + intros init d E. rewrite E in Hsz. apply Forall_app in Hsz as [Hsz _].
      eapply Forall_impl; [done|]. unfold size_ok. simpl. lia.
Qed.

(** [Fact] On every reader that reaches end of file, [ChunkWithData] returns
    chunks whose concatenation is the data read, each described by its SHA-256
    digest, its true offset and its length; every chunk is non-empty and at most
    the maximum size, and all but the last have the minimum size. *)
Theorem ChunkWithData_reassembles c r bs :
  wf_chunker c -> drain r = Ok bs ->
  exists infos data, ChunkWithData c r = Ok (infos, data) /\ chunks_of c bs infos data.
Proof.
  intros Hc Hr. destruct (data_loop c r bs Hc Hr) as (s & E & Hs).
  pose proof (data_finish c bs s Hc Hs) as Hf. unfold ChunkWithData. rewrite E. simpl.
  destruct (0 <? zlen (ds_buf s)); eauto.
Qed.

Definition forget_data (s : data_state) : chunk_state :=
  mkCS (ds_roll s) (ds_offset s) (ds_buf s) (ds_chunkOffset s) (ds_chunks s).

(** [Fact] [Chunk] computes the descriptions of [ChunkWithData] on every reader,
    errors included, and both depend on the bytes read only: two readers that
    deliver the same bytes in different portions give the same chunks. *)
Theorem Chunk_refines c r :
  (Chunk c r = fst <$> ChunkWithData c r) /\
  (wf_chunker c -> forall r', drain r = drain r' -> ChunkWithData c r = ChunkWithData c r').
Proof.
  split.
  - unfold Chunk, ChunkWithData.
    rewrite (read_loop_sim forget_data (data_byte c) (chunk_byte c) r (mkDS (roll_init c) 0 [] 0 [] [])).
    + destruct (read_loop (data_byte c) r _) as [s| | |]; try done. simpl. by destruct (0 <? zlen (ds_buf s)).
    + intros s b. unfold chunk_byte, data_byte. simpl. destruct (roll c (ds_roll s) b) as [rs| | |]; try done.
      simpl. by destruct (must_cut c (fingerprint rs) (ds_buf s ++ [b])).
  - intros Hc r' Er. unfold ChunkWithData.
    rewrite !(read_loop_drain (fun s => exists bs, data_inv c bs s)), Er; eauto using data_init_inv;
      intros s b [bs0 Hs]; destruct (data_step c bs0 s b Hc Hs) as (s' & ? & ?); eauto.
Qed.
End ChunkProofs.

Section StreamProofs.
Context `{HashFn} {W : Type}.
Implicit Types (cb : Z -> Z -> string -> bytes -> GoM W unit) (w : W).

Definition stream_view (s : data_state) : stream_state := mkSS (ds_roll s) (ds_buf s) 0 (ds_buf s).

(** The call that [ChunkStream] makes for a chunk. *)
Definition call_back cb (d : bytes) : GoM W unit := cb 0 (zlen d) (sha256_hex d) d.

Lemma stream_byte_view c cb s b s' w :
  data_byte c s b = Ok s' ->
  exists new, ds_data s' = ds_data s ++ new /\
    stream_byte c cb (stream_view s) b w = (forM new (call_back cb);; mret (stream_view s')) w.
Proof.
  unfold data_byte, stream_byte. simpl. destruct (roll c (ds_roll s) b) as [rs| | |]; try done.
  intros E. rewrite bind_lift_ok. simpl in E. destruct (must_cut c (fingerprint rs) (ds_buf s ++ [b]));
    injection E as <-.
  - exists [ds_buf s ++ [b]]. split; [done|]. simpl. by rewrite !bind_assoc.
  - exists []. by rewrite app_nil_r.
Qed.

Lemma stream_bytes_view c cb l s s' w :
  foldM (data_byte c) s l = Ok s' ->
  exists new, ds_data s' = ds_data s ++ new /\
    stream_bytes c cb (stream_view s) l w = (forM new (call_back cb);; mret (stream_view s')) w.
Proof.
  revert s w. induction l as [|b l IH]; intros s w Hs; simpl in Hs.
  { injection Hs as <-. exists []. by rewrite app_nil_r. }
  destruct (data_byte c s b) as [s1| | |] eqn:E1; try done. simpl in Hs.
  destruct (stream_byte_view c cb s b s1 w E1) as (n1 & D1 & H1).
  destruct (IH s1 w Hs) as (n2 & D2 & _). exists (n1 ++ n2). rewrite D2, D1, app_assoc. split; [done|].
  simpl. unfold mbind, GoM_bind in *. rewrite H1. clear H1. simpl.
  pose proof (forM_app n1 n2 (call_back cb) w) as Ha. unfold mbind, GoM_bind in Ha. rewrite Ha. clear Ha.
  destruct (forM n1 (call_back cb) w) as [[[]| | |] w']; try done. simpl.
  destruct (IH s1 w' Hs) as (n2' & D2' & ->). rewrite D2 in D2'. apply app_inv_head in D2' as ->. done.
Qed.

Lemma stream_loop_view c cb r s s' w :
  read_loop (data_byte c) r s = Ok s' ->
  exists new, ds_data s' = ds_data s ++ new /\
    stream_loop c cb r (stream_view s) w = (forM new (call_back cb);; mret (stream_view s')) w.
Proof.
  revert s w. induction r as [|[buf err] r IH]; intros s w Hs; simpl in Hs.
  { injection Hs as <-. exists []. by rewrite app_nil_r. }
  destruct (foldM (data_byte c) s buf) as [s1| | |] eqn:E1; try done. simpl in Hs.
  destruct (stream_bytes_view c cb buf s s1 w E1) as (n1 & D1 & H1).
  destruct err as [[|e]|]; [| done |].
  - injection Hs as <-. exists n1. split; [done|]. simpl. unfold mbind, GoM_bind in *. rewrite H1.
    by destruct (forM n1 (call_back cb) w) as [[[]| | |] w'].
  - destruct (IH s1 w Hs) as (n2 & D2 & _). exists (n1 ++ n2). rewrite D2, D1, app_assoc. split; [done|].
    simpl. unfold mbind, GoM_bind in *. rewrite H1. clear H1.
    pose proof (forM_app n1 n2 (call_back cb) w) as Ha. unfold mbind, GoM_bind in Ha. rewrite Ha. clear Ha.
    destruct (forM n1 (call_back cb) w) as [[[]| | |] w']; try done. simpl.
    destruct (IH s1 w' Hs) as (n2' & D2' & ->). rewrite D2 in D2'. apply app_inv_head in D2' as ->. done.
Qed.

(** [C29] On a reader that reaches end of file, [ChunkStream] calls back once for
    every chunk of [ChunkWithData], in order and with the same digest, length
    and bytes, and stops at the first callback that fails.  The offset it passes
    is 0 for every chunk: the buffer is emptied before its length is added. *)
Theorem ChunkStream_refines c r bs cb w :
  wf_chunker c -> drain r = Ok bs ->
  exists infos data, ChunkWithData c r = Ok (infos, data) /\
    ChunkStream c r cb w = forM data (fun d => cb 0 (zlen d) (sha256_hex d) d) w.
Proof.
  intros Hc Hr. destruct (data_loop c r bs Hc Hr) as (s & E & _).
  destruct (stream_loop_view c cb r _ s w E) as (new & D & Hw). simpl in D.
  unfold ChunkWithData. rewrite E. simpl. change (fun d : bytes => cb 0 (zlen d) (sha256_hex d) d) with (call_back cb).
  unfold ChunkStream. change (mkSS (roll_init c) [] 0 []) with (stream_view (mkDS (roll_init c) 0 [] 0 [] [])).
  unfold mbind, GoM_bind. rewrite Hw, D. unfold mbind, GoM_bind.
  destruct (0 <? zlen (ds_buf s)) eqn:Eb; eexists _, _; (split; [reflexivity|]).
  - pose proof (forM_app new [ds_buf s] (call_back cb) w) as Ha. unfold mbind, GoM_bind in Ha. rewrite Ha.
    destruct (forM new (call_back cb) w) as [[[]| | |] w']; try done. simpl. rewrite Eb.
    unfold mbind, GoM_bind, call_back. by destruct (cb 0 _ _ _ w') as [[[]| | |] ?].
  - destruct (forM new (call_back cb) w) as [[[]| | |] w']; try done. simpl. by rewrite Eb.
Qed.
End StreamProofs.

(** ** The fingerprint remembers more than its window *)

Lemma roll_fold_total c s bs : wf_chunker c -> roll_ok s ->
  exists s', foldM (roll c) s bs = Ok s' /\ roll_ok s'.
Proof. intros Hc Hs. apply (foldM_inv roll_ok); [done|]. intros. by apply roll_total. Qed.

Lemma roll_apart c s s' bs : wf_chunker c -> roll_ok s -> roll_ok s' ->
  windowFilled s = true -> windowFilled s' = true -> window s = window s' -> fingerprint s <> fingerprint s' ->
  exists t t', foldM (roll c) s bs = Ok t /\ foldM (roll c) s' bs = Ok t' /\
    window t = window t' /\ fingerprint t <> fingerprint t'.
Proof.
  intros Hc. revert s s'. induction bs as [|b bs IH]; intros s s' Hs Hs' Hf Hf' Hw Hne; [by exists s, s'|].
  destruct (roll_full c s b Hc Hs Hf) as (o & rest & E & Er).
  destruct (roll_full c s' b Hc Hs' Hf') as (o' & rest' & E' & Er'). rewrite Hw, E' in E. simplify_eq.
  simpl. rewrite Er, Er'. simpl.
  destruct (roll_total c s b Hc Hs) as (x & Ex & Hx). rewrite Er in Ex. injection Ex as <-.
  destruct (roll_total c s' b Hc Hs') as (x & Ex & Hx'). rewrite Er' in Ex. injection Ex as <-.
  apply IH; try done. simpl. intros Heq. apply Hne. destruct Hs as (_ & _ & ? & _), Hs' as (_ & _ & ? & _).
  by apply slide_inj in Heq.
Qed.

(** [Fact] The rolling fingerprint always stays below [2^53], so the shifts never
    lose a bit and the table index never leaves its table, and the loop never
    panics.  But it is not a function of the window: there are two inputs that
    end in the same 48 bytes and have different fingerprints, and whatever equal
    bytes follow them the windows stay equal and the fingerprints different, so
    boundaries do not realign by content after an insertion. *)
Theorem roll_bounded_history_dependent c :
  wf_chunker c ->
  (forall bs, exists s, foldM (roll c) (roll_init c) bs = Ok s /\ 0 <= fingerprint s < 2 ^ 53) /\
  exists pre pre' last, length last = 48%nat /\ forall bs,
    exists t t', foldM (roll c) (roll_init c) (pre ++ last ++ bs) = Ok t /\
      foldM (roll c) (roll_init c) (pre' ++ last ++ bs) = Ok t' /\
      window t = window t' /\ fingerprint t <> fingerprint t'.
Proof.
  intros Hc. split.
  - intros bs. destruct (roll_fold_total c _ bs Hc (roll_init_ok c Hc)) as (s & E & _ & _ & Hf & _). eauto.
  - exists [x01], [x00], (replicate 48 x00). split; [done|]. intros bs.
    destruct (roll_fold_total c _ ([x01] ++ replicate 48 x00) Hc (roll_init_ok c Hc)) as (s & E & Hs).
    destruct (roll_fold_total c _ ([x00] ++ replicate 48 x00) Hc (roll_init_ok c Hc)) as (s' & E' & Hs').
    rewrite !app_assoc, (foldM_app _ _ ([x01] ++ _)), (foldM_app _ _ ([x00] ++ _)), E, E'. cbn [mbind Res_bind].
    destruct c as [mn av mx ws mk po tb]. destruct Hc as (Hws & Hpo & Htb & Hsz). simpl in *. subst ws po tb.
    vm_compute in E. vm_compute in E'. apply (roll_apart _ s s' bs); [done..| | | |];
      (injection E as <-; injection E' as <-; done).
Qed.

(** ** Witnesses *)

Definition small_chunker : Chunker := mkChunker 2 4 6 48 255 rabin_poly default_table.
Definition small_reader : reader :=
  [([x61; x62; x63], None); ([x64; x65], None); ([x66; x67; x68], Some EOF)].

Section Witnesses.
#[local] Existing Instance toy_hash.

Example NewChunker_example : NewChunker 2 4 6 ∅ = (Ok small_chunker, {[rabin_poly := default_table]}).
Proof. vm_compute. reflexivity. Qed.

Lemma ChunkWithData_witness : exists infos data,
  ChunkWithData small_chunker small_reader = Ok (infos, data) /\
  chunks_of small_chunker [x61; x62; x63; x64; x65; x66; x67; x68] infos data.
Proof. apply ChunkWithData_reassembles; [by repeat split|reflexivity]. Defined.

Lemma Chunk_refines_witness :
  ChunkWithData small_chunker small_reader =
  ChunkWithData small_chunker [([x61; x62; x63; x64; x65; x66; x67; x68], None)].
Proof. apply (proj2 (Chunk_refines small_chunker small_reader)); [by repeat split|reflexivity]. Defined.

Lemma ChunkStream_witness : exists infos data,
  ChunkWithData small_chunker small_reader = Ok (infos, data) /\
  ChunkStream small_chunker small_reader (fun off _ _ _ w => (Ok tt, w ++ [off])) [] =
    forM data (fun d w => (Ok tt, w ++ [0])) [].
Proof.
  apply (ChunkStream_refines small_chunker small_reader [x61; x62; x63; x64; x65; x66; x67; x68]
           (fun off _ _ _ w => (Ok tt, w ++ [off])) []); [by repeat split|reflexivity].
Defined.

Lemma roll_history_witness : exists pre pre' last, length last = 48%nat /\ forall bs,
  exists t t', foldM (roll small_chunker) (roll_init small_chunker) (pre ++ last ++ bs) = Ok t /\
    foldM (roll small_chunker) (roll_init small_chunker) (pre' ++ last ++ bs) = Ok t' /\
    window t = window t' /\ fingerprint t <> fingerprint t'.
Proof. apply (roll_bounded_history_dependent small_chunker). by repeat split. Defined.
End Witnesses.
