(* ===== verification/Util.v ===== *)
(** * Identifiers and digests (internal/util: id.go, hash.go, size.go)

    Time-ordered UUIDs, random identifiers, and SHA-256 digests in hexadecimal. *)

From S2P Require Import Prelude GoStrings GoCrypto Encoding Chunker.

(** ** hash.go *)

Section Hash.
Context `{HashFn}.

Definition HashBytes (data : bytes) : string := hex_encode (sha256 data).
Definition HashString (s : string) : string := HashBytes (bytes_of s).

(** [io.Copy] into the hash: everything up to the end of the reader. *)
Fixpoint copy_all (r : reader) : Res bytes :=
  match r with
  | [] => Ok []
  | (buf, None) :: r => rest ← copy_all r; Ok (buf ++ rest)
  | (buf, Some EOF) :: _ => Ok buf
  | (_, Some (ReadErr e)) :: _ => Err e
  end.

Definition HashReader (r : reader) : Res string :=
  match copy_all r with
  | Ok data => Ok (hex_encode (sha256 data))
  | Err e => Err (Wrapf "failed to hash reader" e)
  | Panic s => Panic s
  | OutOfFuel => OutOfFuel
  end.

(** A writer with its state, and what was hashed so far.  The inner writer
    reports how many bytes it took. *)
Record HashWriter (W : Type) := mkHashWriter { hw_w : W; hw_hash : bytes }.
Arguments mkHashWriter {W}.
Arguments hw_w {W}.
Arguments hw_hash {W}.

Definition NewHashWriter {W} (w : W) : HashWriter W := mkHashWriter w [].

Definition HashWriter_Write {W} (write : bytes -> W -> (Z * option error) * W) (p : bytes) (hw : HashWriter W) :
    (Z * option error) * HashWriter W :=
  let '((n, err), w) := write p (hw_w hw) in
  ((n, err), mkHashWriter w (if 0 <? n then hw_hash hw ++ take (Z.to_nat n) p else hw_hash hw)).

Definition HashWriter_Sum {W} (hw : HashWriter W) : string := hex_encode (sha256 (hw_hash hw)).
End Hash.

(** The accumulated XOR of two strings of one length. *)
Fixpoint xor_diff (a b : bytes) (v : Z) : Z :=
  match a, b with
  | x :: a, y :: b => xor_diff a b (Z.lor v (Z.lxor (bz x) (bz y)))
  | _, _ => v
  end.

Definition HashEqual (a b : string) : bool :=
  if negb (len a =? 64)%nat || negb (len b =? 64)%nat then false
  else xor_diff (bytes_of a) (bytes_of b) 0 =? 0.

Definition ValidateHash (hash : string) : bool :=
  if negb (len hash =? 64)%nat then false else bool_decide (is_Some (hex_decode hash)).

(** ** id.go *)

Record Ids := mkIds { lastTimestamp : Z; sequence : Z }.

(** The fields of a version 7 UUID; the random bytes replace the eighth byte,
    in which the variant was set. *)
Definition uuid_bytes (timestamp seq : Z) (randomBytes : bytes) : bytes :=
  map (fun k => zb (Z.shiftr timestamp k)) [40; 32; 24; 16; 8; 0] ++
  [zb (Z.lor 0x70 (Z.shiftr seq 8)); zb (Z.land seq 0xFF)] ++ randomBytes.

Definition sub_bytes (i j : nat) (b : bytes) : bytes := take (j - i) (drop i b).

Definition formatUUID (uuid : bytes) : string :=
  (hex_encode (sub_bytes 0 4 uuid) +:+ "-" +:+ hex_encode (sub_bytes 4 6 uuid) +:+ "-" +:+ hex_encode (sub_bytes 6 8 uuid) +:+ "-" +:+
   hex_encode (sub_bytes 8 10 uuid) +:+ "-" +:+ hex_encode (sub_bytes 10 16 uuid))%string.

(** The sequence number of a timestamp, alone: the loop runs once. *)
Definition next_sequence (now : Z) (s : Ids) : (Z * Z) * Ids :=
  if lastTimestamp s <? now then ((now, 0), mkIds now 0)
  else
    let n := u32 (sequence s + 1) in
    ((lastTimestamp s, Z.land n 0x0FFF), mkIds (lastTimestamp s) n).

(** The state is the generator and the random source; [now] is in milliseconds. *)
Definition GenerateUUIDv7 (now : Z) : GoM (Ids * Rand) string := fun w =>
  let '((timestamp, seq), s) := next_sequence now w.1 in
  match rand_read 8 w.2 with
  | (Ok randomBytes, r) => (Ok (formatUUID (uuid_bytes timestamp seq randomBytes)), (s, r))
  | (Err e, r) => (Err (Wrapf "failed to generate random bytes" e), (s, r))
  | (Panic m, r) => (Panic m, (s, r))
  | (OutOfFuel, r) => (OutOfFuel, (s, r))
  end.

Definition GenerateUUID (now : Z) : GoM (Ids * Rand) string := fun w =>
  match GenerateUUIDv7 now w with
  | (Err _, w') => (Panic "failed to generate random bytes", w')
  | r => r
  end.

Definition is_hex (c : ascii) : bool := bool_decide (is_Some (hex_value c)).

Definition uuid_dash (i : nat) : bool := bool_decide (i ∈ [8; 13; 18; 23]%nat).

Fixpoint check_uuid (i : nat) (s : string) : bool :=
  match s with
  | "" => true
  | String c s => (if uuid_dash i then bool_decide (c = "-"%char) else is_hex c) && check_uuid (S i) s
  end%string.

Definition ValidateUUID (s : string) : bool := if negb (len s =? 36)%nat then false else check_uuid 0 s.

(** [alphabet[int(randomBytes[i]) % alphabetLen]] for each random byte. *)
Definition pick (alphabet : string) (b : bytes) : string :=
  text (map (fun x => default "a"%char (str_get alphabet (Z.to_nat (bz x mod Z.of_nat (len alphabet))))) b).

Definition id_alphabet : string := "abcdefghijklmnopqrstuvwxyzABCDEFGHIJKLMNOPQRSTUVWXYZ0123456789".
Definition token_alphabet : string := "ABCDEFGHIJKLMNOPQRSTUVWXYZabcdefghijklmnopqrstuvwxyz0123456789-_".

(** [make] of a negative length panics. *)
Definition random_text (alphabet : string) (length : Z) : GoM Rand string :=
  if length <? 0 then panic "makeslice: len out of range"
  else b ← wrap "failed to generate random bytes" (rand_read (Z.to_nat length)); mret (pick alphabet b).

Definition or_panic {A} (m : GoM Rand A) : GoM Rand A := fun r =>
  match m r with (Err _, r') => (Panic "failed to generate random bytes", r') | o => o end.

Definition RandomID (length : Z) : GoM Rand string := random_text id_alphabet length.
Definition RandomIDOrPanic (length : Z) : GoM Rand string := or_panic (RandomID length).
Definition RandomToken (length : Z) : GoM Rand string := random_text token_alphabet length.
Definition RandomTokenOrPanic (length : Z) : GoM Rand string := or_panic (RandomToken length).

Definition util_RandomBytes (n : Z) : GoM Rand bytes :=
  if n <? 0 then panic "makeslice: len out of range"
  else wrap "failed to generate random bytes" (rand_read (Z.to_nat n)).
Definition MustRandomBytes (n : Z) : GoM Rand bytes := or_panic (util_RandomBytes n).

Definition be32_of (b : bytes) : Z := foldl (fun a x => 256 * a + bz x) 0 b.

Definition SecureRandomInt (max : Z) : GoM Rand Z :=
  if max <=? 0 then fail (Errorf "max must be positive")
  else if max <=? 256 then b ← util_RandomBytes 1; mret (be32_of (take 1 b) mod max)
  else b ← util_RandomBytes 4; mret (be32_of (take 4 b) mod max).

Definition id_separator (c : ascii) : bool :=
  bool_decide (c = "/"%char) || bool_decide (c = "\"%char) || bool_decide (c = "000"%char).

Definition SanitizeFileID (fileID : string) : Res string :=
  if bool_decide (fileID = "") || bool_decide (fileID = ".") || bool_decide (fileID = "..") then Err (Errorf "invalid file ID")
  else if existsb id_separator (chars fileID) then Err (Errorf "invalid file ID: contains path separator")
  else Ok fileID.

(** ** size.go: [normalizeUnit] (the rest computes with floats) *)

Definition normalize_char (c : ascii) : string :=
  let n := N_of_ascii c in
  if ((65 <=? n) && (n <=? 90))%N then String (ascii_of_N (n + 32)) ""
  else if bool_decide (c = " "%char) then "" else String c "".

Fixpoint normalizeUnit (unit : string) : string :=
  match unit with "" => "" | String c s => normalize_char c +:+ normalizeUnit s end%string.

(** ** Lemmas *)

(** *** Strict orders of strings and byte strings *)

Definition str_lt (s t : string) : Prop :=
  exists p c d u v, s = (p +:+ String c u)%string /\ t = (p +:+ String d v)%string /\ (N_of_ascii c < N_of_ascii d)%N.

Definition lex_lt (a b : bytes) : Prop :=
  exists p x y u v, a = p ++ x :: u /\ b = p ++ y :: v /\ bz x < bz y.

Lemma str_lt_app_r s t u v : str_lt s t -> str_lt (s +:+ u) (t +:+ v).
Proof.
  intros (p & c & d & s' & t' & -> & -> & Hlt). exists p, c, d, (s' +:+ u)%string, (t' +:+ v)%string.
  by rewrite !str_app_assoc, !str_app_cons.
Qed.

Lemma str_lt_app_l p s t : str_lt s t -> str_lt (p +:+ s) (p +:+ t).
Proof. intros (q & c & d & u & v & -> & -> & Hlt). exists (p +:+ q)%string, c, d, u, v. by rewrite !str_app_assoc. Qed.

Lemma lex_lt_app a a' b b' : length a = length a' -> lex_lt (a ++ b) (a' ++ b') -> lex_lt a a' \/ (a = a' /\ lex_lt b b').
Proof.
  revert a'. induction a as [|x a IH]; intros [|y a'] Hl Hlt; try done; [by right|]. simpl in Hl. injection Hl as Hl.
  destruct Hlt as ([|z p] & c & d & u & v & E1 & E2 & Hlt); simpl in E1, E2.
  - injection E1 as -> _. injection E2 as -> _. left. by exists [], c, d, a, a'.
  - injection E1 as -> E1. injection E2 as -> E2. destruct (IH a' Hl) as [(q & c' & d' & u' & v' & -> & -> & H')|[-> H']].
    + by exists p, c, d, u, v.
    + left. by exists (z :: q), c', d', u', v'.
    + by right.
Qed.

Lemma hex_digit_mono i j : 0 <= i -> i < j -> j < 16 -> (N_of_ascii (hex_digit i) < N_of_ascii (hex_digit j))%N.
Proof.
  intros H0 Hij Hj. assert (forallb (fun b => forallb (fun a => (N_of_ascii (hex_digit (Z.of_nat a)) <? N_of_ascii (hex_digit (Z.of_nat b)))%N)
    (seq 0 b)) (seq 0 16) = true) as H by (vm_compute; reflexivity).
  rewrite forallb_forall in H. specialize (H (Z.to_nat j) ltac:(apply in_seq; lia)). rewrite forallb_forall in H.
  specialize (H (Z.to_nat i) ltac:(apply in_seq; lia)). rewrite !Z2Nat.id in H by lia. by apply N.ltb_lt.
Qed.

Lemma hex_encode_app a b : hex_encode (a ++ b) = (hex_encode a +:+ hex_encode b)%string.
Proof. induction a as [|x a IH]; [done|]. simpl. rewrite IH. by str_simpl. Qed.

Lemma hex_encode_lt a b : lex_lt a b -> str_lt (hex_encode a) (hex_encode b).
Proof.
  intros (p & x & y & u & v & -> & -> & Hlt). rewrite !hex_encode_app. apply str_lt_app_l. simpl.
  pose proof (bz_range x). pose proof (bz_range y). pose proof (Z.div_mod (bz x) 16 ltac:(lia)). pose proof (Z.div_mod (bz y) 16 ltac:(lia)).
  pose proof (Z.mod_pos_bound (bz x) 16 ltac:(lia)). pose proof (Z.mod_pos_bound (bz y) 16 ltac:(lia)).
  destruct (decide (bz x / 16 = bz y / 16)) as [E|E].
  - rewrite E. exists (String (hex_digit (bz y / 16)) ""), (hex_digit (bz x mod 16)), (hex_digit (bz y mod 16)), (hex_encode u), (hex_encode v).
    split; [done|]. split; [done|]. apply hex_digit_mono; lia.
  - exists "", (hex_digit (bz x / 16)), (hex_digit (bz y / 16)). eexists _, _. split; [done|]. split; [done|].
    apply hex_digit_mono; lia.
Qed.

(** *** Big-endian numbers *)

Fixpoint be (n : nat) (z : Z) : bytes := match n with O => [] | S n => be n (z / 256) ++ [zb z] end.

Lemma be_length n z : length (be n z) = n.
Proof. revert z. induction n as [|n IH]; intros z; simpl; [done|]. rewrite length_app, IH. simpl. lia. Qed.

Lemma be_lt n z z' : 0 <= z -> z < z' -> z' < 256 ^ Z.of_nat n -> lex_lt (be n z) (be n z').
Proof.
  revert z z'. induction n as [|n IH]; intros z z' H0 Hlt Hn; [simpl in Hn; lia|].
  rewrite Nat2Z.inj_succ, Z.pow_succ_r in Hn by lia. simpl.
  pose proof (Z.div_mod z 256 ltac:(lia)) as Ez. pose proof (Z.div_mod z' 256 ltac:(lia)) as Ez'.
  pose proof (Z.mod_pos_bound z 256 ltac:(lia)). pose proof (Z.mod_pos_bound z' 256 ltac:(lia)).
  destruct (decide (z / 256 = z' / 256)) as [E|E].
  - rewrite E. exists (be n (z' / 256)), (zb z), (zb z'), [], []. split; [done|]. split; [done|]. rewrite !bz_zb. lia.
  - destruct (IH (z / 256) (z' / 256)) as (p & x & y & u & v & -> & -> & Hxy); [apply Z.div_pos; lia|lia| |].
    + apply Z.div_lt_upper_bound; lia.
    + exists p, x, y, (u ++ [zb z]), (v ++ [zb z']). by rewrite <-!app_assoc.
Qed.

Lemma div_256 z k : 0 <= k -> z / 256 / 2 ^ k = z / 2 ^ (k + 8).
Proof. intros Hk. rewrite Z.div_div by lia. f_equal. rewrite Z.pow_add_r by lia. change (2 ^ 8) with 256. lia. Qed.

(** The timestamp, the version and the sequence number are one big-endian number. *)
Lemma uuid_bytes_be ts seq r : 0 <= seq < 4096 -> uuid_bytes ts seq r = be 8 (ts * 65536 + 0x7000 + seq) ++ r.
Proof.
  intros Hs. set (v := ts * 65536 + 0x7000 + seq).
  assert (forall z, be 8 z = [zb (z / 2 ^ 56); zb (z / 2 ^ 48); zb (z / 2 ^ 40); zb (z / 2 ^ 32); zb (z / 2 ^ 24);
                              zb (z / 2 ^ 16); zb (z / 2 ^ 8); zb z]) as Hbe.
  { intros z. unfold be. cbn [app]. rewrite !Z.div_div by lia. reflexivity. }
  assert (v / 2 ^ 16 = ts) as H16.
  { change (2 ^ 16) with 65536. unfold v. rewrite <-Z.add_assoc, Z.add_comm, Z.div_add by lia. rewrite Z.div_small; lia. }
  assert (forall k, 0 <= k -> v / 2 ^ (16 + k) = Z.shiftr ts k) as Hk.
  { intros k Hk. rewrite Z.pow_add_r, <-Z.div_div, H16, Z.shiftr_div_pow2 by lia. done. }
  assert (Z.lor 0x70 (Z.shiftr seq 8) = 0x70 + Z.shiftr seq 8) as Hor.
  { rewrite <-Z.lxor_lor; [symmetry; apply Z.add_nocarry_lxor|]; rewrite Z.shiftr_div_pow2 by lia;
      assert (0 <= seq / 2 ^ 8 < 16) as Hq by (split; [apply Z.div_pos; lia|apply Z.div_lt_upper_bound; lia]);
      assert (forallb (fun n => Z.land 0x70 (Z.of_nat n) =? 0) (List.seq 0 16) = true) as HA by (vm_compute; reflexivity);
      rewrite forallb_forall in HA; specialize (HA (Z.to_nat (seq / 2 ^ 8)) ltac:(apply in_seq; lia));
      rewrite Z2Nat.id in HA by lia; by apply Z.eqb_eq. }
  rewrite Hbe. unfold uuid_bytes. cbn [map app]. rewrite Hor.
  change (2 ^ 56) with (2 ^ (16 + 40)). change (2 ^ 48) with (2 ^ (16 + 32)). change (2 ^ 40) with (2 ^ (16 + 24)).
  change (2 ^ 32) with (2 ^ (16 + 16)). change (2 ^ 24) with (2 ^ (16 + 8)). change (2 ^ 16) with (2 ^ (16 + 0)).
  rewrite !Hk by lia. do 6 f_equal.
  assert (zb (112 + Z.shiftr seq 8) = zb (v / 2 ^ 8)) as ->.
  { unfold zb. do 3 f_equal. unfold v. rewrite Z.shiftr_div_pow2 by lia.
    replace (ts * 65536 + 28672 + seq) with (seq + (ts * 256 + 112) * 2 ^ 8) by lia. rewrite Z.div_add by lia.
    replace (seq / 2 ^ 8 + (ts * 256 + 112)) with (112 + seq / 2 ^ 8 + ts * 256) by lia. by rewrite Z.mod_add. }
  assert (zb (Z.land seq 255) = zb v) as ->; [|done].
  unfold zb. do 3 f_equal. change 255 with (Z.ones 8). rewrite Z.land_ones by lia. change (2 ^ 8) with 256.
  rewrite Z.mod_mod by lia. unfold v. replace (ts * 65536 + 28672 + seq) with (seq + (ts * 256 + 112) * 256) by lia.
  by rewrite Z.mod_add.
Qed.

(** *** The text of a UUID *)

Lemma hex_digit_is_hex z : is_hex (hex_digit z) = true.
Proof. unfold hex_digit. generalize (Z.to_nat z). intros n. do 16 (destruct n as [|n]; [reflexivity|]). reflexivity. Qed.

Lemma formatUUID_segments a b c d e : length a = 4%nat -> length b = 2%nat -> length c = 2%nat -> length d = 2%nat ->
  length e = 6%nat ->
  formatUUID (a ++ b ++ c ++ d ++ e) =
  (hex_encode a +:+ "-" +:+ hex_encode b +:+ "-" +:+ hex_encode c +:+ "-" +:+ hex_encode d +:+ "-" +:+ hex_encode e)%string.
Proof.
  intros Ha Hb Hc Hd He. unfold formatUUID, sub_bytes.
  repeat (destruct a as [|? a]; [done|]); destruct a; [|done]. repeat (destruct b as [|? b]; [done|]); destruct b; [|done].
  repeat (destruct c as [|? c]; [done|]); destruct c; [|done]. repeat (destruct d as [|? d]; [done|]); destruct d; [|done].
  cbn [app drop Nat.sub take]. rewrite drop_0, (take_ge e 6) by lia. reflexivity.
Qed.

Lemma split_at (b : bytes) n m : length b = (n + m)%nat -> exists a c, b = a ++ c /\ length a = n /\ length c = m.
Proof.
  intros Hl. exists (take n b), (drop n b). rewrite take_drop, length_take, length_drop. split; [done|lia].
Qed.

(** The order of the first eight bytes is the order of the texts. *)
Lemma formatUUID_lt a b r r' : length a = 8%nat -> length b = 8%nat -> length r = 8%nat -> length r' = 8%nat -> lex_lt a b ->
  str_lt (formatUUID (a ++ r)) (formatUUID (b ++ r')).
Proof.
  intros Ha Hb Hr Hr' Hlt.
  destruct (split_at a 4 4 Ha) as (a1 & a' & -> & Ha1 & Ha'). destruct (split_at a' 2 2 Ha') as (a2 & a3 & -> & Ha2 & Ha3).
  destruct (split_at b 4 4 Hb) as (b1 & b' & -> & Hb1 & Hb'). destruct (split_at b' 2 2 Hb') as (b2 & b3 & -> & Hb2 & Hb3).
  destruct (split_at r 2 6 Hr) as (r1 & r2 & -> & Hr1 & Hr2). destruct (split_at r' 2 6 Hr') as (s1 & s2 & -> & Hs1 & Hs2).
  rewrite <-!app_assoc. rewrite !formatUUID_segments by done.
  apply lex_lt_app in Hlt as [Hlt|[-> Hlt]]; [| |congruence].
  - by apply str_lt_app_r, hex_encode_lt.
  - apply str_lt_app_l, str_lt_app_l. apply lex_lt_app in Hlt as [Hlt|[-> Hlt]]; [| |congruence].
    + by apply str_lt_app_r, hex_encode_lt.
    + by apply str_lt_app_l, str_lt_app_l, str_lt_app_r, hex_encode_lt.
Qed.

Lemma formatUUID_valid b : length b = 16%nat -> ValidateUUID (formatUUID b) = true.
Proof.
  intros Hl. do 16 (destruct b as [|? b]; [done|]). destruct b; [|done].
  unfold formatUUID, sub_bytes, ValidateUUID. cbn [drop take Nat.sub hex_encode]. str_simpl.
  cbn -[is_hex hex_digit uuid_dash]. unfold uuid_dash. rewrite !hex_digit_is_hex. reflexivity.
Qed.

Lemma next_sequence_range now s : 0 <= now < 2 ^ 48 -> 0 <= lastTimestamp s < 2 ^ 48 ->
  let '((ts, seq), s') := next_sequence now s in
  0 <= ts < 2 ^ 48 /\ 0 <= seq < 4096 /\ lastTimestamp s' = ts /\ seq = Z.land (sequence s') 0xFFF /\ 0 <= sequence s' < 2 ^ 32 /\
  now <= ts /\ lastTimestamp s <= ts.
Proof.
  intros Hn Hl. unfold next_sequence. destruct (Z.ltb_spec (lastTimestamp s) now); simpl; [split_and!; (reflexivity || lia)|].
  assert (0 <= u32 (sequence s + 1) < 2 ^ 32) as Hu by (unfold u32; apply Z.mod_pos_bound; lia).
  change 4095 with (Z.ones 12). rewrite Z.land_ones by lia.
  pose proof (Z.mod_pos_bound (u32 (sequence s + 1)) (2 ^ 12) ltac:(lia)). lia.
Qed.

Lemma GenerateUUIDv7_ok now w id w' : GenerateUUIDv7 now w = (Ok id, w') ->
  exists r, length r = 8%nat /\ w'.1 = (next_sequence now w.1).2 /\
    id = formatUUID (uuid_bytes (next_sequence now w.1).1.1 (next_sequence now w.1).1.2 r).
Proof.
  unfold GenerateUUIDv7. destruct (next_sequence now w.1) as [[ts seq] s'].
  destruct (rand_read 8 w.2) as [[b|e|m|] r'] eqn:E; intros Eq; try done. injection Eq as <- <-.
  apply rand_read_length in E. by exists b.
Qed.

(** [Fact] Every identifier that the process generates is a well-formed UUID of
    version 7, and identifiers generated one after the other are strictly
    increasing as strings -- when the clock stands still, runs backwards or jumps
    -- until 4096 of them fall into the same millisecond. *)
Theorem GenerateUUID_well_formed now s r id s' r' :
  0 <= now < 2 ^ 48 -> 0 <= lastTimestamp s < 2 ^ 48 -> GenerateUUIDv7 now (s, r) = (Ok id, (s', r')) ->
  ValidateUUID id = true /\ len id = 36%nat /\ str_get id 14 = Some "7"%char /\
  forall now2 id2 w2, 0 <= now2 < 2 ^ 48 -> GenerateUUIDv7 now2 (s', r') = (Ok id2, w2) ->
    lastTimestamp s' < now2 \/ Z.land (sequence s') 0xFFF < 0xFFF -> str_lt id id2.
Proof.
  intros Hn Hs E. apply GenerateUUIDv7_ok in E as (rnd & Hrnd & Es & ->). simpl in Es.
  pose proof (next_sequence_range now s Hn Hs) as Hr. cbn [fst]. destruct (next_sequence now s) as [[ts seq] s0]. simpl in Es. subst s0.
  cbn [fst snd]. destruct Hr as (Hts & Hseq & Els & Eseq & Hsq & _ & _).
  assert (length (uuid_bytes ts seq rnd) = 16%nat) as Hlen by (unfold uuid_bytes; simpl; by rewrite Hrnd).
  pose proof (formatUUID_valid _ Hlen) as Hv. split; [done|]. split.
  { unfold ValidateUUID in Hv. destruct (len _ =? 36)%nat eqn:E36; [by apply Nat.eqb_eq|done]. }
  split.
  { unfold uuid_bytes. do 8 (destruct rnd as [|? rnd]; [done|]). destruct rnd; [|done].
    unfold formatUUID, sub_bytes. cbn [map app drop take Nat.sub hex_encode]. str_simpl.
    assert (bz (zb (Z.lor 0x70 (Z.shiftr seq 8))) / 16 = 7) as ->; [|done].
    rewrite bz_zb, Z.shiftr_div_pow2 by lia.
    assert (0 <= seq / 2 ^ 8 < 16) as Hq by (split; [apply Z.div_pos; lia|apply Z.div_lt_upper_bound; lia]).
    assert (forallb (fun n => (Z.lor 0x70 (Z.of_nat n) mod 256) / 16 =? 7) (List.seq 0 16) = true) as HA by (vm_compute; reflexivity).
    rewrite forallb_forall in HA. specialize (HA (Z.to_nat (seq / 2 ^ 8)) ltac:(apply in_seq; lia)).
    rewrite Z2Nat.id in HA by lia. by apply Z.eqb_eq. }
  intros now2 id2 w2 Hn2 E2 Hlt. apply GenerateUUIDv7_ok in E2 as (rnd2 & Hrnd2 & _ & ->). cbn [fst] in *.
  pose proof (next_sequence_range now2 s' Hn2 ltac:(lia)) as Hr2.
  assert (let '((ts2, seq2), _) := next_sequence now2 s' in ts * 65536 + seq < ts2 * 65536 + seq2) as Hv2.
  { unfold next_sequence. destruct (Z.ltb_spec (lastTimestamp s') now2); [lia|]. destruct Hlt as [Hlt|Hlt]; [lia|].
    rewrite Els, Eseq. change 4095 with (Z.ones 12) in *. rewrite Z.land_ones in Hlt |- * by lia. rewrite Z.land_ones by lia.
    change (Z.ones 12) with 4095 in *. change (2 ^ 12) with 4096 in *.
    assert (sequence s' + 1 < 2 ^ 32) as Hb.
    { destruct (decide (sequence s' = 2 ^ 32 - 1)) as [Eq|]; [rewrite Eq in Hlt; vm_compute in Hlt; done|lia]. }
    rewrite u32_id by lia. rewrite <-(Zplus_mod_idemp_l (sequence s')).
    rewrite (Z.mod_small (sequence s' mod 4096 + 1)); [lia|]. pose proof (Z.mod_pos_bound (sequence s') 4096 ltac:(lia)). lia. }
  destruct (next_sequence now2 s') as [[ts2 seq2] s2]. cbn [fst snd]. destruct Hr2 as (Hts2 & Hseq2 & _).
  rewrite !uuid_bytes_be by lia. apply formatUUID_lt; try done. apply be_lt; [lia|lia|]. change (256 ^ Z.of_nat 8) with (2 ^ 48 * 65536). lia.
Qed.

(** The variant bits of a generated UUID are random: this one has variant 0. *)
Fact GenerateUUID_variant_unset :
  (GenerateUUIDv7 1 (mkIds 0 0, mkRand (fun _ => x00) 0 [])).1 = Ok "00000000-0001-7000-0000-000000000000"%string.
Proof. reflexivity. Qed.

Lemma GenerateUUID_witness :
  let w := (mkIds 0 0, mkRand (fun _ => x00) 0 []) in
  str_lt "00000000-0001-7000-0000-000000000000" "00000000-0001-7001-0000-000000000000" /\
  (GenerateUUIDv7 1 (GenerateUUIDv7 1 w).2).1 = Ok "00000000-0001-7001-0000-000000000000"%string.
Proof.
  split; [|reflexivity].
  destruct (GenerateUUID_well_formed 1 (mkIds 0 0) (mkRand (fun _ => x00) 0 []) _ _ _ ltac:(lia) ltac:(simpl; lia) eq_refl)
    as (_ & _ & _ & Hlt).
  eapply (Hlt 1); [lia|reflexivity|]. right. vm_compute. reflexivity.
Defined.
