(* ===== verification/Storage.v ===== *)
(** * Chunk storage (internal/storage/storage.go, local.go)

    [Backend] is the interface of storage.go: the operations, the contents that
    a client may observe, and the laws that the rest of the system relies on.
    [LocalBackend] implements it over a model of the file system calls it makes
    (os.MkdirAll, WriteFile, Rename, Remove, ReadFile, Stat). *)

From S2P Require Import Prelude GoStrings GoCrypto.

(** ** The interface *)

Class Backend (S : Type) : Type := {
  Put : string -> bytes -> GoM S unit;
  Get : string -> GoM S bytes;
  Delete : string -> GoM S unit;
  Exists : string -> GoM S bool;
  (** keys that the backend keeps apart *)
  valid_key : string -> Prop;
  (** the blob stored under a key *)
  blob_at : S -> string -> option bytes;
  (** what the backend maintains of its own state *)
  store_ok : S -> Prop;
  (** the device accepts calls, now and later *)
  healthy : S -> Prop;
  put_law k d s : valid_key k -> store_ok s ->
    match Put k d s with
    | (Ok _, s') => store_ok s' /\ forall k', valid_key k' ->
        blob_at s' k' = if decide (k' = k) then Some d else blob_at s k'
    | (Err _, s') => store_ok s' /\ forall k', valid_key k' -> blob_at s' k' = blob_at s k'
    | _ => False
    end;
  get_law k s : valid_key k -> store_ok s ->
    match Get k s with
    | (Ok d, s') => store_ok s' /\ blob_at s k = Some d /\ forall k', valid_key k' -> blob_at s' k' = blob_at s k'
    | (Err _, s') => store_ok s' /\ forall k', valid_key k' -> blob_at s' k' = blob_at s k'
    | _ => False
    end;
  delete_law k s : valid_key k -> store_ok s ->
    match Delete k s with
    | (Ok _, s') => store_ok s' /\ is_Some (blob_at s k) /\ forall k', valid_key k' ->
        blob_at s' k' = if decide (k' = k) then None else blob_at s k'
    | (Err _, s') => store_ok s' /\ forall k', valid_key k' -> blob_at s' k' = blob_at s k'
    | _ => False
    end;
  exists_law k s : valid_key k -> store_ok s ->
    match Exists k s with
    | (Ok b, s') => store_ok s' /\ b = bool_decide (is_Some (blob_at s k)) /\
        forall k', valid_key k' -> blob_at s' k' = blob_at s k'
    | (Err _, s') => store_ok s' /\ forall k', valid_key k' -> blob_at s' k' = blob_at s k'
    | _ => False
    end;
  put_healthy k d s : valid_key k -> healthy s -> exists s', Put k d s = (Ok tt, s') /\ healthy s';
  get_healthy k d s : valid_key k -> healthy s -> blob_at s k = Some d ->
    exists s', Get k s = (Ok d, s') /\ healthy s';
  exists_healthy k s : valid_key k -> healthy s -> exists b s', Exists k s = (Ok b, s') /\ healthy s'
}.

(** ** The file system *)

(** Regular files and directories by path; every call consumes one entry of the
    fault list, [true] making the device refuse it. *)
Record FS := mkFS { fs_files : gmap string bytes; fs_dirs : gset string; fs_faults : list bool }.

Definition pop_fault (s : FS) : bool * FS :=
  let '(f, l) := next_fault (fs_faults s) in (f, mkFS (fs_files s) (fs_dirs s) l).

Definition with_files (s : FS) (m : gmap string bytes) : FS := mkFS m (fs_dirs s) (fs_faults s).
Definition with_dirs (s : FS) (d : gset string) : FS := mkFS (fs_files s) d (fs_faults s).

Definition os_MkdirAll (dir : string) : GoM FS unit := fun s =>
  let '(f, s) := pop_fault s in
  if f then (Err ErrDriver, s) else (Ok tt, with_dirs s ({[dir]} ∪ fs_dirs s)).

(** A refused write may leave a truncated file behind. *)
Definition os_WriteFile (path : string) (data : bytes) : GoM FS unit := fun s =>
  let '(f, s) := pop_fault s in
  if f then (Err ErrDriver, with_files s (<[path := take (length data / 2) data]> (fs_files s)))
  else (Ok tt, with_files s (<[path := data]> (fs_files s))).

Definition os_Rename (old new : string) : GoM FS unit := fun s =>
  let '(f, s) := pop_fault s in
  if f then (Err ErrDriver, s)
  else match fs_files s !! old with
       | None => (Err ErrNotFound, s)
       | Some d => (Ok tt, with_files s (<[new := d]> (delete old (fs_files s))))
       end.

(** [os.Remove] of a file, or of a directory that holds no file. *)
Definition os_Remove (path : string) : GoM FS unit := fun s =>
  let '(f, s) := pop_fault s in
  if f then (Err ErrDriver, s)
  else match fs_files s !! path with
       | Some _ => (Ok tt, with_files s (delete path (fs_files s)))
       | None =>
           if bool_decide (path ∈ fs_dirs s) then
             if existsb (fun p => HasPrefix p (path +:+ "/")) (map_to_list (fs_files s)).*1
             then (Err ErrDriver, s)
             else (Ok tt, with_dirs s (fs_dirs s ∖ {[path]}))
           else (Err ErrNotFound, s)
       end.

Definition os_ReadFile (path : string) : GoM FS bytes := fun s =>
  let '(f, s) := pop_fault s in
  if f then (Err ErrDriver, s)
  else match fs_files s !! path with Some d => (Ok d, s) | None => (Err ErrNotFound, s) end.

Definition os_Stat (path : string) : GoM FS unit := fun s =>
  let '(f, s) := pop_fault s in
  if f then (Err ErrDriver, s)
  else if bool_decide (is_Some (fs_files s !! path) \/ path ∈ fs_dirs s) then (Ok tt, s) else (Err ErrNotFound, s).

Definition os_IsNotExist (e : error) : bool := match e with ErrNotFound => true | _ => false end.

(** ** LocalBackend *)

Section Local.
Context (dataDir : string).

(** [filepath.Join] of a clean directory and elements that are plain names. *)
Definition fp_join (dir : string) (l : list string) : string :=
  Clean (join_char slash (filter (fun e => e <> "") (dir :: l))).

Definition keyToPath (key : string) : string :=
  if (len key <? 2)%nat then fp_join dataDir ["chunks"; (key +:+ ".chunk")%string]
  else fp_join dataDir ["chunks"; str_take 2 key; (str_drop 2 key +:+ ".chunk")%string].

Definition LocalBackend_Put (key : string) (data : bytes) : GoM FS unit :=
  let path := keyToPath key in
  let dir := path_Dir path in
  wrap "failed to create directory" (os_MkdirAll dir);;
  let tempPath := (path +:+ ".tmp")%string in
  wrap "failed to write temp file" (os_WriteFile tempPath data);;
  r ← attempt (os_Rename tempPath path);
  match r with
  | inr e => ignore (os_Remove tempPath);; fail (Wrapf "failed to rename file" e)
  | inl _ => mret tt
  end.

Definition LocalBackend_Get (key : string) : GoM FS bytes :=
  let path := keyToPath key in
  r ← attempt (os_ReadFile path);
  match r with
  | inl data => mret data
  | inr e => if os_IsNotExist e then fail (Errorf "chunk not found") else fail (Wrapf "failed to read file" e)
  end.

Definition LocalBackend_Delete (key : string) : GoM FS unit :=
  let path := keyToPath key in
  r ← attempt (os_Remove path);
  match r with
  | inr e => if os_IsNotExist e then fail (Errorf "chunk not found") else fail (Wrapf "failed to delete file" e)
  | inl _ =>
      let dir := path_Dir path in
      ignore (os_Remove dir);;
      mret tt
  end.

Definition LocalBackend_Exists (key : string) : GoM FS bool :=
  let path := keyToPath key in
  r ← attempt (os_Stat path);
  match r with
  | inl _ => mret true
  | inr e => if os_IsNotExist e then mret false else fail (Wrapf "failed to check file" e)
  end.
End Local.

(** ** Lemmas: the layout of the data directory *)

Section LocalProofs.
Context (root : list string) (Hroot : Forall good_elem root).

Let dataDir := abs_path root.

(** A key without separator, long enough to be split, that does not name the
    parent directory. *)
Definition local_key (k : string) : Prop :=
  no_sep slash k /\ (2 <= len k)%nat /\ str_take 2 k <> ".."%string.

Definition key_elems (k : string) : list string :=
  ["chunks"; str_take 2 k; (str_drop 2 k +:+ ".chunk")%string].

Lemma good_suffixed s suf : no_sep slash s -> no_sep slash suf -> (2 < len suf)%nat ->
  good_elem (s +:+ suf)%string.
Proof.
  intros Hs Hsuf Hl.
  assert (2 < len (s +:+ suf))%nat as Hl' by (rewrite len_app; lia).
  unfold good_elem. split_and!; try (intros E; rewrite E in Hl'; simpl in Hl'; lia).
  unfold no_sep in *. by rewrite has_char_app, Hs, Hsuf.
Qed.

Lemma good_take k : local_key k -> good_elem (str_take 2 k).
Proof.
  intros (Hn & Hl & Hd). assert (len (str_take 2 k) = 2%nat) as H2 by (rewrite str_take_len; lia).
  unfold good_elem. split_and!; [intros E; by rewrite E in H2..|done|].
  by apply (no_sep_take_drop slash 2) in Hn as [? _].
Qed.

Lemma good_key_elems k suf : local_key k -> no_sep slash suf -> (2 < len suf)%nat ->
  Forall good_elem (root ++ ["chunks"; str_take 2 k; (str_drop 2 k +:+ suf)%string]).
Proof.
  intros Hk Hs Hl. apply Forall_app. split; [done|]. repeat apply Forall_cons_2; [|by apply good_take| |done].
  - by repeat split.
  - apply good_suffixed; [|done..]. by apply (no_sep_take_drop slash 2), Hk.
Qed.

Lemma keyToPath_eq k : local_key k -> keyToPath dataDir k = abs_path (root ++ key_elems k).
Proof.
  intros Hk. unfold keyToPath. pose proof Hk as (_ & Hl & _).
  destruct (Nat.ltb_spec (len k) 2); [lia|]. unfold fp_join.
  pose proof (good_key_elems k ".chunk" Hk eq_refl ltac:(simpl; lia)) as [_ Hg]%Forall_app.
  assert (filter (fun e => e <> "")%string (dataDir :: key_elems k) = dataDir :: key_elems k) as Hf.
  { apply filter_all. apply Forall_cons. split; [done|].
    eapply Forall_impl; [exact Hg|]. by intros x (? & _). }
  unfold key_elems in *. rewrite Hf, join_char_cons2. by apply Clean_join.
Qed.

Lemma keyToPath_good k : local_key k -> Forall good_elem (root ++ key_elems k).
Proof. intros Hk. by apply good_key_elems; [|done|simpl; lia]. Qed.

Lemma keyToPath_inj k k' : local_key k -> local_key k' -> keyToPath dataDir k = keyToPath dataDir k' -> k = k'.
Proof.
  intros Hk Hk'. rewrite !keyToPath_eq by done. intros E%abs_path_inj; [|by apply keyToPath_good..].
  apply app_inv_head in E. apply three_inj in E as (_ & E1 & E2%str_app_inj_r).
  by rewrite <-(str_take_drop 2 k), <-(str_take_drop 2 k'), E1, E2.
Qed.

Lemma key_dir k : local_key k ->
  path_Dir (keyToPath dataDir k) = abs_path (root ++ ["chunks"; str_take 2 k]).
Proof.
  intros Hk. rewrite keyToPath_eq by done. pose proof (keyToPath_good k Hk) as Hg. unfold key_elems in *.
  change ["chunks"; str_take 2 k; (str_drop 2 k +:+ ".chunk")%string]
    with (["chunks"; str_take 2 k] ++ [(str_drop 2 k +:+ ".chunk")%string]) in *.
  rewrite app_assoc in *. by apply path_Dir_abs.
Qed.

Lemma key_dir_ne k k' : local_key k -> local_key k' -> path_Dir (keyToPath dataDir k) <> keyToPath dataDir k'.
Proof.
  intros Hk Hk'. rewrite key_dir, keyToPath_eq by done. intros E%abs_path_inj.
  - apply app_inv_head in E. discriminate.
  - pose proof (keyToPath_good k Hk) as [Hr [H1 [H2 _]%Forall_cons]%Forall_cons]%Forall_app.
    apply Forall_app. split; [done|]. by repeat apply Forall_cons_2.
  - by apply keyToPath_good.
Qed.

Lemma key_temp_ne k k' : local_key k -> local_key k' ->
  (keyToPath dataDir k +:+ ".tmp")%string <> keyToPath dataDir k'.
Proof.
  intros Hk Hk'. rewrite !keyToPath_eq by done.
  assert (abs_path (root ++ key_elems k) +:+ ".tmp" =
          abs_path (root ++ ["chunks"; str_take 2 k; str_drop 2 k +:+ ".chunk.tmp"]))%string as ->.
  { unfold key_elems.
    change ["chunks"; str_take 2 k; (str_drop 2 k +:+ ".chunk")%string]
      with (["chunks"; str_take 2 k] ++ [(str_drop 2 k +:+ ".chunk")%string]).
    change ["chunks"; str_take 2 k; (str_drop 2 k +:+ ".chunk.tmp")%string]
      with (["chunks"; str_take 2 k] ++ [(str_drop 2 k +:+ ".chunk.tmp")%string]).
    rewrite !app_assoc, !abs_path_snoc, str_app_assoc. f_equal.
    change (String slash (str_drop 2 k +:+ ".chunk.tmp"))
      with (String slash (str_drop 2 k +:+ (".chunk" +:+ ".tmp")))%string.
    by rewrite str_app_cons, str_app_assoc. }
  intros E%abs_path_inj; [|by apply good_key_elems; [|done|simpl; lia]|by apply keyToPath_good].
  apply app_inv_head in E. apply three_inj in E as (_ & _ & E).
  change ".chunk.tmp"%string with (".chunk.tm" +:+ "p")%string in E.
  change ".chunk"%string with (".chun" +:+ "k")%string in E.
  rewrite <-!str_app_assoc in E. by apply str_snoc_inj in E as [_ ?].
Qed.

(** *** The operations on the store *)

Definition local_blob (s : FS) (k : string) : option bytes := fs_files s !! keyToPath dataDir k.

(** No directory is in the place of a chunk file. *)
Definition local_ok (s : FS) : Prop := forall k, local_key k -> keyToPath dataDir k ∉ fs_dirs s.

Definition same_blobs (s s' : FS) : Prop := forall k, local_key k -> local_blob s' k = local_blob s k.

(** The store of [s0] is intact in [s]. *)
Definition intact (s0 s : FS) : Prop := local_ok s /\ same_blobs s0 s.

Lemma intact_refl s : local_ok s -> intact s s.
Proof. by split. Qed.

Lemma MkdirAll_intact s0 dir : (forall k, local_key k -> dir <> keyToPath dataDir k) ->
  hoare (intact s0) (os_MkdirAll dir) (fun _ => intact s0) (intact s0).
Proof.
  intros Hd s [Hs Hb]. unfold os_MkdirAll, pop_fault. destruct (next_fault _) as [[] l]; [done|].
  split; [|done]. intros k Hk. simpl. specialize (Hs k Hk). specialize (Hd k Hk). set_solver.
Qed.

Lemma WriteFile_intact s0 path data : (forall k, local_key k -> path <> keyToPath dataDir k) ->
  hoare (intact s0) (os_WriteFile path data) (fun _ s => intact s0 s /\ fs_files s !! path = Some data) (intact s0).
Proof.
  intros Hd s [Hs Hb]. unfold os_WriteFile, pop_fault. destruct (next_fault _) as [[] l].
  - split; [done|]. intros k Hk. unfold local_blob in *. simpl.
    rewrite lookup_insert_ne by by apply Hd. by apply Hb.
  - split; [split; [done|]|simpl; by rewrite lookup_insert_eq]. intros k Hk. unfold local_blob in *. simpl.
    rewrite lookup_insert_ne by by apply Hd. by apply Hb.
Qed.

Lemma Remove_intact s0 path : (forall k, local_key k -> path <> keyToPath dataDir k) ->
  hoare (intact s0) (os_Remove path) (fun _ => intact s0) (intact s0).
Proof.
  intros Hd s [Hs Hb]. unfold os_Remove, pop_fault. destruct (next_fault _) as [[] l]; [done|]. simpl.
  destruct (fs_files s !! path); [|case_bool_decide; [case_bool|]; try done].
  - split; [done|]. intros k Hk. unfold local_blob in *. simpl. rewrite lookup_delete_ne by by apply Hd.
    by apply Hb.
  - split; [|done]. intros k Hk. simpl. specialize (Hs k Hk). set_solver.
Qed.

Definition stored (s0 : FS) (k : string) (v : option bytes) (s : FS) : Prop :=
  local_ok s /\ forall k', local_key k' -> local_blob s k' = if decide (k' = k) then v else local_blob s0 k'.

Lemma Rename_stored s0 k tmp d : local_key k -> (forall k, local_key k -> tmp <> keyToPath dataDir k) ->
  hoare (fun s => intact s0 s /\ fs_files s !! tmp = Some d) (os_Rename tmp (keyToPath dataDir k))
    (fun _ => stored s0 k (Some d)) (intact s0).
Proof.
  intros Hk Ht s [[Hs Hb] Hd]. unfold os_Rename, pop_fault. destruct (next_fault _) as [[] l]; [done|]. simpl.
  rewrite Hd. split; [done|]. intros k' Hk'. unfold local_blob. simpl. case_decide as Hkk.
  - subst. by rewrite lookup_insert_eq.
  - rewrite lookup_insert_ne by (intros E; by apply keyToPath_inj in E).
    rewrite lookup_delete_ne by by apply Ht. by apply Hb.
Qed.

Lemma LocalBackend_Put_hoare s0 k d : local_key k ->
  hoare (intact s0) (LocalBackend_Put dataDir k d) (fun _ => stored s0 k (Some d)) (intact s0).
Proof.
  intros Hk. pose proof (fun k' => key_temp_ne k k' Hk) as Htmp.
  pose proof (fun k' => key_dir_ne k k' Hk) as Hdir. unfold LocalBackend_Put.
  eapply hoare_bind; [by apply hoare_wrap, MkdirAll_intact|]. intros ?.
  eapply hoare_bind; [by apply hoare_wrap, WriteFile_intact|]. intros ?.
  eapply hoare_bind; [by apply hoare_attempt, Rename_stored|]. intros [[]|e]; [by apply hoare_ret|].
  eapply hoare_bind; [by apply hoare_ignore, Remove_intact|]. intros ?. by apply hoare_fail.
Qed.

Lemma LocalBackend_Get_hoare s0 k : local_key k ->
  hoare (intact s0) (LocalBackend_Get dataDir k) (fun d s => intact s0 s /\ local_blob s0 k = Some d) (intact s0).
Proof.
  intros Hk. unfold LocalBackend_Get. eapply hoare_bind.
  - apply (hoare_attempt _ _ (fun d s => intact s0 s /\ local_blob s0 k = Some d) (intact s0)).
    intros s [Hs Hb]. unfold os_ReadFile, pop_fault. destruct (next_fault _) as [[] l]; [done|]. simpl.
    specialize (Hb k Hk) as Hbk. unfold local_blob at 1 in Hbk.
    destruct (fs_files s !! _); [|done]. by rewrite <-Hbk.
  - intros [d|e]; [by apply hoare_ret|]. destruct (os_IsNotExist e); by apply hoare_fail.
Qed.

Lemma LocalBackend_Delete_hoare s0 k : local_key k ->
  hoare (intact s0) (LocalBackend_Delete dataDir k)
    (fun _ s => is_Some (local_blob s0 k) /\ stored s0 k None s) (intact s0).
Proof.
  intros Hk. unfold LocalBackend_Delete.
  apply (hoare_bind _ _ _ (fun r s => match r with
    | inl _ => is_Some (local_blob s0 k) /\ stored s0 k None s | inr _ => intact s0 s end)).
  - apply (hoare_attempt _ _ (fun _ s => is_Some (local_blob s0 k) /\ stored s0 k None s) (intact s0)).
    intros s [Hs Hb]. unfold os_Remove, pop_fault. destruct (next_fault _) as [[] l]; [done|]. simpl.
    specialize (Hb k Hk) as Hbk. unfold local_blob at 1 in Hbk.
    destruct (fs_files s !! keyToPath dataDir k) as [d|] eqn:E.
    + split; [by rewrite <-Hbk|]. split; [done|]. intros k' Hk'. unfold local_blob. simpl. case_decide as Hkk.
      * subst. by rewrite lookup_delete_eq.
      * rewrite lookup_delete_ne by (intros Eq; by apply keyToPath_inj in Eq). by apply Hb.
    + by rewrite bool_decide_false by by apply Hs.
  - intros [[]|e]; [|destruct (os_IsNotExist e); by apply hoare_fail].
    eapply hoare_bind; [|intros ?; apply hoare_ret; intros s Hs; exact Hs].
    apply hoare_ignore. intros s [Hsome [Hs Hb]].
    pose proof (Remove_intact s (path_Dir (keyToPath dataDir k)) (fun k' => key_dir_ne k k' Hk) s (intact_refl s Hs)) as Hr.
    assert (forall s', intact s s' -> is_Some (local_blob s0 k) /\ stored s0 k None s') as Hst.
    { intros s' [Hs' Hb']. split; [done|]. split; [done|]. intros k' Hk'. rewrite Hb' by done. by apply Hb. }
    destruct (os_Remove _ s) as [[[]| | |] s']; auto.
Qed.

Lemma LocalBackend_Exists_hoare s0 k : local_key k ->
  hoare (intact s0) (LocalBackend_Exists dataDir k)
    (fun b s => intact s0 s /\ b = bool_decide (is_Some (local_blob s0 k))) (intact s0).
Proof.
  intros Hk s [Hs Hb]. unfold LocalBackend_Exists, os_Stat, attempt, mbind, GoM_bind, pop_fault.
  specialize (Hb k Hk) as Hbk. unfold local_blob at 1 in Hbk. rewrite <-Hbk.
  destruct (next_fault _) as [[] l]; [done|]. simpl. specialize (Hs k Hk) as Hsk.
  rewrite (bool_decide_ext _ (is_Some (fs_files s !! keyToPath dataDir k))) by tauto.
  case_bool_decide; simpl; done.
Qed.

(** The local file system is a backend. *)
#[export] Program Instance Local_Backend : Backend FS := {|
  Put := LocalBackend_Put dataDir; Get := LocalBackend_Get dataDir;
  Delete := LocalBackend_Delete dataDir; Exists := LocalBackend_Exists dataDir;
  valid_key := local_key; blob_at := local_blob; store_ok := local_ok;
  healthy s := fs_faults s = []
|}.
Next Obligation.
  intros k d s Hk Hs. pose proof (LocalBackend_Put_hoare s k d Hk s (intact_refl s Hs)) as Hp.
  by destruct (LocalBackend_Put _ _ _ s) as [[]].
Qed.
Next Obligation.
  intros k s Hk Hs. pose proof (LocalBackend_Get_hoare s k Hk s (intact_refl s Hs)) as Hp.
  destruct (LocalBackend_Get _ _ s) as [[]]; try done. by destruct Hp as [[? ?] ?].
Qed.
Next Obligation.
  intros k s Hk Hs. pose proof (LocalBackend_Delete_hoare s k Hk s (intact_refl s Hs)) as Hp.
  destruct (LocalBackend_Delete _ _ s) as [[]]; try done. by destruct Hp as [? [? ?]].
Qed.
Next Obligation.
  intros k s Hk Hs. pose proof (LocalBackend_Exists_hoare s k Hk s (intact_refl s Hs)) as Hp.
  destruct (LocalBackend_Exists _ _ s) as [[]]; try done. by destruct Hp as [[? ?] ?].
Qed.
Next Obligation.
  intros k d s Hk Hs. simpl in Hs. unfold LocalBackend_Put, os_MkdirAll, os_WriteFile, os_Rename, wrap, attempt, mbind, GoM_bind,
    pop_fault. rewrite Hs. simpl. rewrite lookup_insert_eq. by eexists.
Qed.
Next Obligation.
  intros k d s Hk Hs Hb. simpl in *. unfold local_blob in Hb.
  unfold LocalBackend_Get, os_ReadFile, attempt, mbind, GoM_bind, pop_fault.
  rewrite Hs. simpl. rewrite Hb. by eexists.
Qed.
Next Obligation.
  intros k s Hk Hs. simpl in *. unfold LocalBackend_Exists, os_Stat, attempt, mbind, GoM_bind, pop_fault.
  rewrite Hs. simpl. case_bool_decide; simpl; eauto.
Qed.
End LocalProofs.

(** [C25] On the local file system, each operation on a chunk key either succeeds
    and acts as on a map from keys to blobs, or reports an error and leaves every
    stored blob as it was -- wherever in its sequence of file system calls the
    device fails, half-written temporary files included.  [Put] sets the key,
    [Get] returns what is stored, [Delete] removes it, [Exists] tells whether it
    is there; no operation touches another key. *)
Theorem LocalBackend_refines_map root k d s :
  Forall good_elem root -> local_key k -> local_ok root s ->
  let dataDir := abs_path root in
  match LocalBackend_Put dataDir k d s with
  | (Ok _, s') => local_ok root s' /\ forall k', local_key k' ->
      local_blob root s' k' = if decide (k' = k) then Some d else local_blob root s k'
  | (Err _, s') => local_ok root s' /\ forall k', local_key k' -> local_blob root s' k' = local_blob root s k'
  | _ => False
  end /\
  match LocalBackend_Get dataDir k s with
  | (Ok d, s') => local_blob root s k = Some d /\ forall k', local_key k' -> local_blob root s' k' = local_blob root s k'
  | (Err _, s') => forall k', local_key k' -> local_blob root s' k' = local_blob root s k'
  | _ => False
  end /\
  match LocalBackend_Delete dataDir k s with
  | (Ok _, s') => local_ok root s' /\ is_Some (local_blob root s k) /\ forall k', local_key k' ->
      local_blob root s' k' = if decide (k' = k) then None else local_blob root s k'
  | (Err _, s') => local_ok root s' /\ forall k', local_key k' -> local_blob root s' k' = local_blob root s k'
  | _ => False
  end /\
  match LocalBackend_Exists dataDir k s with
  | (Ok b, s') => b = bool_decide (is_Some (local_blob root s k))
  | (Err _, _) => True
  | _ => False
  end.
Proof.
  intros Hr Hk Hs. pose proof (intact_refl root s Hs) as Hi. split_and!.
  - pose proof (LocalBackend_Put_hoare root Hr s k d Hk s Hi) as Hp. by destruct (LocalBackend_Put _ _ _ s) as [[]].
  - pose proof (LocalBackend_Get_hoare root s k Hk s Hi) as Hp.
    destruct (LocalBackend_Get _ _ s) as [[]]; try done; [by destruct Hp as [[? ?] ?]|by destruct Hp].
  - pose proof (LocalBackend_Delete_hoare root Hr s k Hk s Hi) as Hp.
    destruct (LocalBackend_Delete _ _ s) as [[]]; try done. by destruct Hp as [? [? ?]].
  - pose proof (LocalBackend_Exists_hoare root s k Hk s Hi) as Hp.
    destruct (LocalBackend_Exists _ _ s) as [[]]; try done. by destruct Hp as [? ?].
Qed.

Definition fs0 : FS := mkFS ∅ ∅ [false; false; true; false].

(** The device refuses the rename: nothing is stored, the temporary file goes. *)
Lemma LocalBackend_witness :
  LocalBackend_Put "/data" "abcd" [x01] fs0 =
    (Err (Wrapf "failed to rename file" ErrDriver), mkFS ∅ {["/data/chunks/ab"%string]} []) /\
  forall k', local_key k' -> local_blob ["data"] (mkFS ∅ {["/data/chunks/ab"%string]} []) k' = local_blob ["data"] fs0 k'.
Proof.
  assert (LocalBackend_Put "/data" "abcd" [x01] fs0 =
    (Err (Wrapf "failed to rename file" ErrDriver), mkFS ∅ {["/data/chunks/ab"%string]} [])) as E by (vm_compute; reflexivity).
  split; [exact E|].
  assert (Forall good_elem ["data"%string]) as Hr by (apply (bool_decide_unpack _); vm_compute; exact I).
  assert (local_key "abcd") as Hk by (split; [reflexivity|]; split; [simpl; lia|discriminate]).
  assert (local_ok ["data"%string] fs0) as Hs by (intros k Hk'; apply not_elem_of_empty).
  pose proof (LocalBackend_refines_map ["data"%string] "abcd" [x01] fs0 Hr Hk Hs) as [Hp _].
  change (abs_path ["data"%string]) with "/data"%string in Hp. rewrite E in Hp. exact (proj2 Hp).
Defined.
