(* ===== verification/Encrypted.v ===== *)
(** * Encrypted chunks and manifests (internal/chunk/encrypted.go, manifest.go)

    A file is chunked, each chunk encrypted under the file key and stored under
    the digest of its plaintext; the manifest lists the chunks; reassembly fetches,
    decrypts and concatenates.  The storage backend is the interface of Storage.v,
    the JSON codec of manifests and the output writer are parameters. *)

From S2P Require Import Prelude GoStrings GoCrypto Crypto Chunker Storage.

(** ** Manifests *)

Record Manifest := mkManifest {
  ID : string; FileID : string; Version : Z; m_Size : Z; Chunks : list ChunkInfo;
  Checksum : string; DeviceID : string; CreatedAt : Z
}.

Definition sum_chunk_sizes (chunks : list ChunkInfo) : Z :=
  foldl (fun totalSize c => i64 (totalSize + i64 (ci_Size c))) 0 chunks.

Definition NewManifest (id fileID deviceID : string) (chunks : list ChunkInfo) (now : Z) : Manifest :=
  mkManifest id fileID 1 (sum_chunk_sizes chunks) chunks "" deviceID now.

Definition GetChunkHashes (m : Manifest) : list string := ci_Hash <$> Chunks m.
Definition ChunkCount (m : Manifest) : Z := zlen (Chunks m).
Definition CalculateChecksum `{HashFn} (m : Manifest) (data : bytes) : string := sha256_hex data.

Fixpoint validate_chunks (i : Z) (chunks : list ChunkInfo) : Res unit :=
  match chunks with
  | [] => Ok tt
  | c :: chunks =>
      if bool_decide (ci_Hash c = "") then Err (Errorf ("chunk " +:+ pretty i +:+ " has no hash"))
      else if ci_Size c <=? 0 then Err (Errorf ("chunk " +:+ pretty i +:+ " has invalid size"))
      else validate_chunks (i + 1) chunks
  end.

Definition Validate (m : Manifest) : Res unit :=
  if bool_decide (ID m = "") then Err (Errorf "manifest ID is required")
  else if bool_decide (FileID m = "") then Err (Errorf "file ID is required")
  else if bool_decide (Chunks m = []) then Err (Errorf "manifest must have at least one chunk")
  else if m_Size m <? 0 then Err (Errorf "size cannot be negative")
  else validate_chunks 0 (Chunks m).

(** encoding/json on the manifest type. *)
Class ManifestCodec : Type := {
  json_marshal : Manifest -> bytes;
  json_unmarshal : bytes -> option Manifest;
  json_roundtrip : forall m, json_unmarshal (json_marshal m) = Some m
}.

Definition Serialize `{ManifestCodec} (m : Manifest) : Res bytes := Ok (json_marshal m).

Definition DeserializeManifest `{ManifestCodec} (data : bytes) : Res Manifest :=
  match json_unmarshal data with
  | None => Err (Wrapf "failed to deserialize manifest" ErrDriver)
  | Some m => Ok m
  end.

(** ** Chunk encryption *)

Record ChunkEncryptor := { chunker : Chunker }.

Definition NewChunkEncryptor : GoM rabinTables ChunkEncryptor :=
  c ← DefaultChunker; mret {| chunker := c |}.

Definition NewChunkEncryptorWithParams (min avg max : Z) : GoM rabinTables ChunkEncryptor :=
  c ← NewChunker min avg max; mret {| chunker := c |}.

Definition res_wrap {A} (msg : string) (r : Res A) : Res A :=
  match r with Err e => Err (Wrapf msg e) | r => r end.

Section Encrypted.
Context `{HashFn} `{AEAD} `{ManifestCodec}.

Fixpoint encrypt_all (i : Z) (chunkData : list bytes) (fileKey : bytes) : GoM Rand (list bytes) :=
  match chunkData with
  | [] => mret []
  | data :: chunkData =>
      encrypted ← wrap ("failed to encrypt chunk " +:+ pretty i) (Encrypt data fileKey);
      rest ← encrypt_all (i + 1) chunkData fileKey;
      mret (encrypted :: rest)
  end.

Definition ChunkEncrypted (ce : ChunkEncryptor) (r : reader) (fileKey : bytes) : GoM Rand (list ChunkInfo * list bytes) :=
  p ← wrap "chunking failed" (lift (ChunkWithData (chunker ce) r));
  let '(chunkInfos, chunkData) := (p : list ChunkInfo * list bytes) in
  encryptedData ← encrypt_all 0 chunkData fileKey;
  mret (chunkInfos, encryptedData).

Definition EncryptManifest (manifest : Manifest) (fileKey : bytes) : GoM Rand bytes :=
  data ← wrap "failed to serialize manifest" (lift (Serialize manifest));
  wrap "failed to encrypt manifest" (Encrypt data fileKey).

Definition DecryptManifest (encrypted fileKey : bytes) : Res Manifest :=
  decrypted ← res_wrap "failed to decrypt manifest" (Decrypt encrypted fileKey);
  res_wrap "failed to deserialize manifest" (DeserializeManifest decrypted).

(** *** Storing and reassembling *)

Context {S : Type} `{Backend S}.

(** What [EncryptAndStore] works on: the table cache, the entropy, the store. *)
Record env := mkEnv { e_tables : rabinTables; e_rand : Rand; e_store : S }.

Definition on_tables {A} (m : GoM rabinTables A) : GoM env A := fun w =>
  let '(r, t) := m (e_tables w) in (r, mkEnv t (e_rand w) (e_store w)).
Definition on_rand {A} (m : GoM Rand A) : GoM env A := fun w =>
  let '(r, x) := m (e_rand w) in (r, mkEnv (e_tables w) x (e_store w)).
Definition on_store {A} (m : GoM S A) : GoM env A := fun w =>
  let '(r, s) := m (e_store w) in (r, mkEnv (e_tables w) (e_rand w) s).

Definition generateManifestID : GoM Rand string :=
  b ← RandomBytes 16; mret (hex_encode b).

(** [for i, info := range chunkInfos { store.Put(ctx, info.Hash, encryptedData[i]) }] *)
Fixpoint store_chunks (i : nat) (chunkInfos : list ChunkInfo) (encryptedData : list bytes) : GoM S unit :=
  match chunkInfos with
  | [] => mret tt
  | info :: chunkInfos =>
      data ← match encryptedData !! i with Some d => mret d | None => panic "index out of range" end;
      wrap ("failed to store chunk " +:+ pretty (Z.of_nat i)) (Put (ci_Hash info) data);;
      store_chunks (i + 1) chunkInfos encryptedData
  end.

Definition EncryptAndStore (r : reader) (fileID deviceID : string) (fileKey : bytes) (now : Z) : GoM env Manifest :=
  encryptor ← on_tables NewChunkEncryptor;
  p ← wrap "chunk encryption failed" (on_rand (ChunkEncrypted encryptor r fileKey));
  let '(chunkInfos, encryptedData) := (p : list ChunkInfo * list bytes) in
  on_store (store_chunks 0 chunkInfos encryptedData);;
  manifestID ← wrap "failed to generate manifest ID" (on_rand generateManifestID);
  mret (NewManifest manifestID fileID deviceID chunkInfos now).

(** [O] is the state of the output writer. *)
Context {O : Type} (w_Write : bytes -> GoM O unit).

Definition from_store {A} (m : GoM S A) : GoM (S * O) A := fun w =>
  let '(r, s) := m w.1 in (r, (s, w.2)).
Definition to_output {A} (m : GoM O A) : GoM (S * O) A := fun w =>
  let '(r, o) := m w.2 in (r, (w.1, o)).

Fixpoint reassemble_chunks (i : Z) (chunks : list ChunkInfo) (fileKey : bytes) : GoM (S * O) unit :=
  match chunks with
  | [] => mret tt
  | c :: chunks =>
      encryptedData ← wrap ("failed to get chunk " +:+ pretty i +:+ " (" +:+ ci_Hash c +:+ ")") (from_store (Get (ci_Hash c)));
      plaintext ← wrap ("failed to decrypt chunk " +:+ pretty i) (lift (Decrypt encryptedData fileKey));
      if negb (zlen plaintext =? ci_Size c) then
        fail (Errorf ("chunk " +:+ pretty i +:+ " size mismatch: expected " +:+ pretty (ci_Size c) +:+
                      ", got " +:+ pretty (zlen plaintext)))
      else
        wrap ("failed to write chunk " +:+ pretty i) (to_output (w_Write plaintext));;
        reassemble_chunks (i + 1) chunks fileKey
  end.

Definition ReassembleDecrypt (manifest : Manifest) (fileKey : bytes) : GoM (S * O) unit :=
  wrap "invalid manifest" (lift (Validate manifest));;
  reassemble_chunks 0 (Chunks manifest) fileKey.

(** *** Wrapped file keys *)

Definition WrapFileKey (fileKey masterKey : bytes) : GoM Rand bytes :=
  wrapper ← lift (NewKeyWrapper masterKey);
  WrapKey wrapper fileKey.

Definition UnwrapFileKey (wrappedKey masterKey : bytes) : Res bytes :=
  wrapper ← NewKeyWrapper masterKey;
  UnwrapKey wrapper wrappedKey.

Definition GenerateAndWrapFileKey (masterKey : bytes) : GoM Rand (bytes * bytes) :=
  fileKey ← wrap "failed to generate file key" GenerateFileKey;
  wrappedKey ← wrap "failed to wrap file key" (WrapFileKey fileKey masterKey);
  mret (fileKey, wrappedKey).

Definition DecryptKeyAndReassemble (manifest : Manifest) (wrappedKey masterKey : bytes) : GoM (S * O) unit :=
  fileKey ← wrap "failed to unwrap file key" (lift (UnwrapFileKey wrappedKey masterKey));
  ReassembleDecrypt manifest fileKey.
End Encrypted.

(** ** Lemmas *)

(** The output writer of the examples: a buffer. *)
Definition append_to (d : bytes) : GoM bytes unit := fun o => (Ok tt, o ++ d).

Section EncryptedProofs.
Context `{HashFn} `{AEAD} {S : Type} `{Backend S}.

Definition segment (bs d : bytes) : Prop := exists a b, bs = a ++ d ++ b.

(** No two different pieces of the file have the same digest. *)
Definition collision_free (bs : bytes) : Prop :=
  forall d d', segment bs d -> segment bs d' -> sha256_hex d = sha256_hex d' -> d = d'.

(** The blob under a chunk's digest is the chunk, sealed under [key]. *)
Definition sealed (key : bytes) (s : S) (d : bytes) : Prop :=
  exists n, length n = NonceSize /\ blob_at s (sha256_hex d) = Some (n ++ gcm_seal key n d).

Definition ready (s : S) : Prop := healthy s /\ store_ok s.

Lemma concat_segment data d : d ∈ data -> segment (concat data) d.
Proof.
  intros (l1 & l2 & ->)%list_elem_of_split. exists (concat l1), (concat l2). by rewrite concat_app.
Qed.

Lemma encrypt_all_ok key i data r : length key = 32%nat -> rnd_faults r = [] ->
  exists enc r', encrypt_all i data key r = (Ok enc, r') /\ rnd_faults r' = [] /\
    Forall2 (fun d e => exists n, length n = NonceSize /\ e = n ++ gcm_seal key n d) data enc.
Proof.
  intros Hk. revert i r. induction data as [|d data IH]; intros i r Hr; [by exists [], r|]. simpl.
  destruct (Encrypt_seal d key r Hk Hr) as (n & r1 & E & Hr1 & Hn).
  destruct (IH (i + 1) r1 Hr1) as (enc & r2 & E2 & Hr2 & Hf).
  exists ((n ++ gcm_seal key n d) :: enc), r2. unfold wrap, mbind, GoM_bind. rewrite E, E2.
  split; [done|]. split; [done|]. constructor; eauto.
Qed.

Context (Hkeys : forall d, valid_key (sha256_hex d)).

Lemma put_ready k d s : valid_key k -> ready s -> exists s', Put k d s = (Ok tt, s') /\ ready s' /\
  forall k', valid_key k' -> blob_at s' k' = if decide (k' = k) then Some d else blob_at s k'.
Proof.
  intros Hk [Hh Hok]. destruct (put_healthy k d s Hk Hh) as (s' & E & Hh').
  pose proof (put_law k d s Hk Hok) as Hl. rewrite E in Hl. destruct Hl as [Hok' Hb]. by exists s'.
Qed.

Lemma get_ready k d s : valid_key k -> ready s -> blob_at s k = Some d -> exists s', Get k s = (Ok d, s') /\ ready s' /\
  forall k', valid_key k' -> blob_at s' k' = blob_at s k'.
Proof.
  intros Hk [Hh Hok] Hb. destruct (get_healthy k d s Hk Hh Hb) as (s' & E & Hh').
  pose proof (get_law k s Hk Hok) as Hl. rewrite E in Hl. destruct Hl as (Hok' & _ & Hb'). by exists s'.
Qed.

Lemma store_chunks_ok key data enc pre off done_ s :
  Forall2 (fun d e => exists n, length n = NonceSize /\ e = n ++ gcm_seal key n d) data enc ->
  (forall d d', d ∈ done_ ++ data -> d' ∈ done_ ++ data -> sha256_hex d = sha256_hex d' -> d = d') ->
  ready s -> (forall d, d ∈ done_ -> sealed key s d) ->
  exists s', store_chunks (length pre) (infos_of off data) (pre ++ enc) s = (Ok tt, s') /\ ready s' /\
    forall d, d ∈ done_ ++ data -> sealed key s' d.
Proof.
  intros Hf. revert pre off done_ s. induction Hf as [|d e data enc (n & Hn & ->) Hf IH];
    intros pre off done_ s Hcf Hs Hdone.
  { exists s. split; [done|]. split; [done|]. by rewrite app_nil_r. }
  destruct (put_ready (sha256_hex d) (n ++ gcm_seal key n d) s (Hkeys d) Hs) as (s1 & E1 & Hs1 & Hb1).
  destruct (IH (pre ++ [n ++ gcm_seal key n d]) (off + zlen d) (done_ ++ [d]) s1) as (s2 & E2 & Hs2 & Hd2).
  - by rewrite <-app_assoc.
  - done.
  - intros d' [Hd'| ->%list_elem_of_singleton]%elem_of_app.
    + destruct (Hdone d' Hd') as (n' & Hn' & Hb'). unfold sealed. rewrite Hb1 by apply Hkeys.
      case_decide as Heq; [|rewrite Hb'; by eauto]. assert (d' = d) as -> by (apply Hcf; set_solver). eauto.
    + exists n. split; [done|]. rewrite Hb1 by apply Hkeys. by rewrite decide_True.
  - exists s2. split_and!; [|done|by rewrite <-app_assoc in Hd2].
    simpl. rewrite list_lookup_middle by done. rewrite bind_mret. unfold wrap. simpl.
    unfold mbind, GoM_bind. rewrite E1. rewrite length_app, <-app_assoc in E2. simpl in E2. done.
Qed.

Lemma sum_chunk_sizes_infos off data : sum_chunk_sizes (infos_of off data) = i64 (zlen (concat data)).
Proof.
  unfold sum_chunk_sizes.
  assert (forall z, foldl (fun t c => i64 (t + i64 (ci_Size c))) (i64 z) (infos_of off data) =
            i64 (z + zlen (concat data))) as Hz; [|apply (Hz 0)].
  revert off. induction data as [|d data IH]; intros off z; simpl.
  - unfold zlen. simpl. by rewrite Z.add_0_r.
  - rewrite i64_add, IH. f_equal. unfold zlen. rewrite length_app. lia.
Qed.

Lemma validate_infos i off data : Forall (fun d => 0 < zlen d) data ->
  validate_chunks i (infos_of off data) = Ok tt.
Proof.
  intros Hd. revert i off. induction Hd as [|d data Hd _ IH]; intros i off; simpl; [done|].
  rewrite bool_decide_false; [|intros E; pose proof (sha256_hex_len d) as Hl; rewrite E in Hl; done].
  destruct (Z.leb_spec (zlen d) 0); [lia|]. apply IH.
Qed.

Lemma Validate_infos m data : ID m <> "" -> FileID m <> "" -> 0 <= m_Size m -> Chunks m = infos_of 0 data ->
  0 < zlen (concat data) -> Forall (fun d => 0 < zlen d) data -> Validate m = Ok tt.
Proof.
  intros Hi Hf Hs Hc Hne Hd. unfold Validate. rewrite !bool_decide_false; [|intros E0|done|done].
  - destruct (Z.ltb_spec (m_Size m) 0); [lia|]. rewrite Hc. by apply validate_infos.
  - rewrite Hc in E0. by destruct data.
Qed.

Lemma fetch_ok {O} msg k (d : bytes) s s' (o : O) :
  Get k s = (Ok d, s') -> wrap msg (from_store (Get k)) (s, o) = (Ok d, (s', o)).
Proof. intros E. unfold wrap, from_store. simpl. by rewrite E. Qed.

Lemma reassemble_chunks_ok key i off data s o :
  length key = 32%nat -> ready s -> (forall d, d ∈ data -> sealed key s d) ->
  exists s', reassemble_chunks append_to i (infos_of off data) key (s, o) = (Ok tt, (s', o ++ concat data)).
Proof.
  intros Hk. revert i off s o. induction data as [|d data IH]; intros i off s o Hs Hd; simpl.
  { exists s. by rewrite app_nil_r. }
  destruct (Hd d ltac:(by left)) as (n & Hn & Hb).
  destruct (get_ready _ _ s (Hkeys d) Hs Hb) as (s1 & E1 & Hs1 & Hb1).
  destruct (IH (i + 1) (off + zlen d) s1 (o ++ d) Hs1) as (s2 & E2).
  { intros d' Hd'. unfold sealed. rewrite Hb1 by apply Hkeys. apply Hd. by right. }
  exists s2. rewrite (bind_ok _ _ _ _ _ (fetch_ok _ _ _ _ _ _ E1)), Decrypt_seal by done.
  unfold wrap at 1. rewrite (bind_ok _ _ (s1, o) d (s1, o)) by done. rewrite Z.eqb_refl. simpl.
  rewrite (bind_ok _ _ (s1, o) tt (s1, o ++ d)) by done. by rewrite E2, <-app_assoc.
Qed.

(** What [EncryptAndStore] leaves behind when nothing refuses. *)
Lemma EncryptAndStore_spec r bs fileID deviceID key now w :
  drain r = Ok bs -> collision_free bs -> length key = 32%nat ->
  cache_ok (e_tables w) -> rnd_faults (e_rand w) = [] -> ready (e_store w) ->
  exists m data w', EncryptAndStore r fileID deviceID key now w = (Ok m, w') /\
    cache_ok (e_tables w') /\ rnd_faults (e_rand w') = [] /\ ready (e_store w') /\
    ChunkWithData default_chunker r = Ok (infos_of 0 data, data) /\
    concat data = bs /\ Forall (fun d => 0 < zlen d) data /\ (forall d, d ∈ data -> sealed key (e_store w') d) /\
    Chunks m = infos_of 0 data /\ ID m <> "" /\ FileID m = fileID /\ m_Size m = i64 (zlen bs).
Proof.
  intros Hr Hcf Hk Ht Hrnd Hs.
  destruct (DefaultChunker_spec (e_tables w) Ht) as (t1 & Ec & Ht1).
  pose proof default_chunker_wf as Hc. set (c := default_chunker) in *.
  destruct (data_loop c r bs Hc Hr) as (st & El & Hst). pose proof (data_finish c bs st Hc Hst) as Hfin.
  assert (exists infos data, ChunkWithData c r = Ok (infos, data) /\ chunks_of c bs infos data) as (infos & data & Ecd & Hch).
  { unfold ChunkWithData. rewrite El. simpl. destruct (0 <? zlen (ds_buf st)); eauto. }
  destruct Hch as (Hcat & -> & Hsz & _).
  destruct (encrypt_all_ok key 0 data (e_rand w) Hk Hrnd) as (enc & r1 & Ee & Hr1 & Henc).
  destruct (store_chunks_ok key data enc [] 0 [] (e_store w) Henc) as (s1 & Es & Hs1 & Hsealed); [|done|set_solver|].
  { intros d d' Hd Hd'. simpl in *. rewrite <-Hcat in Hcf. apply Hcf; by apply concat_segment. }
  destruct (RandomBytes_ok 16 r1 Hr1) as (b & r2 & Eb & Hb & Hr2).
  exists (NewManifest (hex_encode b) fileID deviceID (infos_of 0 data) now), data, (mkEnv t1 r2 s1).
  split.
  - unfold EncryptAndStore, on_tables, on_rand, on_store, NewChunkEncryptor, ChunkEncrypted, wrap,
      generateManifestID, mbind, GoM_bind. rewrite Ec. simpl. unfold lift. rewrite Ecd. rewrite Ee. simpl.
    simpl in Es. rewrite Es. simpl. unfold mbind, GoM_bind. by rewrite Eb.
  - simpl in *. split_and!; try done.
    + eapply Forall_impl; [exact Hsz|]. simpl. lia.
    + intros E. apply (f_equal len) in E. rewrite hex_encode_len, Hb in E. done.
    + by rewrite sum_chunk_sizes_infos, Hcat.
Qed.

(** [C5] A file stored by [EncryptAndStore] is read back by
    [ReassembleDecrypt]: for every non-empty input and 32-byte key, on a backend
    that accepts the calls and with no digest collision inside the file, storing
    succeeds and reassembling from the manifest under the same key writes exactly
    the input to the output. *)
Theorem EncryptAndStore_Reassemble r bs fileID deviceID key now w o :
  drain r = Ok bs -> 0 < zlen bs < 2 ^ 63 -> collision_free bs -> length key = 32%nat -> fileID <> "" ->
  cache_ok (e_tables w) -> rnd_faults (e_rand w) = [] -> ready (e_store w) ->
  exists m w', EncryptAndStore r fileID deviceID key now w = (Ok m, w') /\ m_Size m = zlen bs /\
    exists s', ReassembleDecrypt append_to m key (e_store w', o) = (Ok tt, (s', o ++ bs)).
Proof.
  intros Hr Hbs Hcf Hk Hid Ht Hrnd Hs.
  destruct (EncryptAndStore_spec r bs fileID deviceID key now w) as
    (m & data & w' & E & _ & _ & Hs' & _ & Hcat & Hsz & Hsealed & Hch & Hmid & Hfid & Hmsz); try done.
  rewrite i64_id in Hmsz by (unfold in_i64; lia).
  exists m, w'. split; [done|]. split; [done|]. unfold ReassembleDecrypt.
  rewrite (Validate_infos m data) by (done || congruence || lia || (rewrite Hcat; lia)).
  rewrite (bind_ok _ _ _ tt (e_store w', o)) by done. rewrite Hch, <-Hcat. by apply reassemble_chunks_ok.
Qed.

(** [Fact] Chunks are stored under the digest of their plaintext, whatever key
    they are encrypted under.  When the same content is stored a second time
    under another key, the blobs of the first copy are overwritten and the first
    manifest can no longer be decrypted with its key (assuming that for these
    chunks a ciphertext under the one key does not authenticate under the other). *)
Theorem EncryptAndStore_second_key r bs f1 f2 d1 d2 key key' n1 n2 w o :
  drain r = Ok bs -> 0 < zlen bs < 2 ^ 63 -> collision_free bs -> length key = 32%nat -> length key' = 32%nat ->
  f1 <> "" -> cache_ok (e_tables w) -> rnd_faults (e_rand w) = [] -> ready (e_store w) ->
  (forall n d, segment bs d -> gcm_open key n (gcm_seal key' n d) = None) ->
  exists m w1 m' w2, EncryptAndStore r f1 d1 key n1 w = (Ok m, w1) /\
    EncryptAndStore r f2 d2 key' n2 w1 = (Ok m', w2) /\
    exists e s', ReassembleDecrypt append_to m key (e_store w2, o) = (Err e, (s', o)).
Proof.
  intros Hr Hbs Hcf Hk Hk' Hid Ht Hrnd Hs Hauth.
  destruct (EncryptAndStore_spec r bs f1 d1 key n1 w) as
    (m & data & w1 & E & Ht1 & Hr1 & Hs1 & Hcd & Hcat & Hsz & _ & Hch & Hmid & Hfid & Hmsz); try done.
  destruct (EncryptAndStore_spec r bs f2 d2 key' n2 w1) as
    (m' & data' & w2 & E' & _ & _ & Hs2 & Hcd' & _ & _ & Hsealed' & _); try done.
  rewrite Hcd in Hcd'. injection Hcd' as _ <-. exists m, w1, m', w2. split; [done|]. split; [done|].
  rewrite i64_id in Hmsz by (unfold in_i64; lia). unfold ReassembleDecrypt.
  rewrite (Validate_infos m data) by (done || congruence || lia || (rewrite Hcat; lia)).
  rewrite (bind_ok _ _ _ tt (e_store w2, o)) by done. rewrite Hch.
  destruct data as [|d data]; [subst bs; unfold zlen in Hbs; simpl in Hbs; lia|].
  destruct (Hsealed' d ltac:(by left)) as (n & Hn & Hb).
  destruct (get_ready _ _ (e_store w2) (Hkeys d) Hs2 Hb) as (s3 & E3 & _). cbn [infos_of reassemble_chunks ci_Hash].
  rewrite (bind_ok _ _ _ _ _ (fetch_ok _ _ _ _ _ _ E3)).
  unfold Decrypt, blen. rewrite Hk. simpl.
  destruct (Nat.ltb_spec (length (n ++ gcm_seal key' n d)) 28) as [Hlt|_]; [by eexists _, _|].
  unfold NonceSize in *. rewrite take_app_length', drop_app_length' by done.
  rewrite Hauth; [by eexists _, _|]. exists [], (concat data). by rewrite <-Hcat.
Qed.
End EncryptedProofs.

(** ** Digests are keys of the local backend *)

Lemma hex_digit_safe z : hex_digit z <> slash /\ hex_digit z <> "."%char.
Proof.
  unfold hex_digit. destruct (str_get _ (Z.to_nat z)) as [c|] eqn:E; [|done]. simpl. revert E.
  generalize (Z.to_nat z). intros n. do 16 (destruct n as [|n]; [by intros [= <-]|]). by destruct n.
Qed.

Lemma hex_encode_safe b : no_sep slash (hex_encode b) /\ (b <> [] -> str_take 2 (hex_encode b) <> ".."%string).
Proof.
  induction b as [|x b [IH _]]; [done|]. unfold no_sep in *. simpl. split.
  - rewrite IH, !bool_decide_false by apply hex_digit_safe. done.
  - intros _ [= E _]. by apply hex_digit_safe in E.
Qed.

Lemma sha256_local_key `{HashFn} d : local_key (sha256_hex d).
Proof.
  pose proof (hex_encode_safe (sha256 d)) as [Hs Hd]. unfold local_key. split_and!; [done| |].
  - rewrite sha256_hex_len. lia.
  - apply Hd. intros E. pose proof (sha256_length d) as Hl. by rewrite E in Hl.
Qed.

(** ** Witnesses *)

Section Witnesses.
#[local] Existing Instance toy_hash.
#[local] Existing Instance toy_aead.

Lemma root_good : Forall good_elem ["data"%string].
Proof. by apply (bool_decide_unpack _). Qed.

#[local] Instance data_backend : Backend FS := Local_Backend ["data"%string] root_good.

Definition env0 : @env FS := mkEnv ∅ toy_rand (mkFS ∅ ∅ []).
Definition key_a : bytes := replicate 32 x41.
Definition key_b : bytes := replicate 32 x42.
Definition one_byte : reader := [([x68], Some EOF)].

Lemma segments_one b d : segment [b] d -> d = [] \/ d = [b].
Proof.
  intros (l1 & l2 & E). destruct l1 as [|x l1]; simpl in E.
  - destruct d as [|y d]; [by left|]. injection E as -> E. destruct d; [by right|done].
  - injection E as _ E. destruct l1; [|done]. destruct d; [by left|done].
Qed.

Lemma collision_free_one : collision_free [x68].
Proof.
  intros d d' [-> | ->]%segments_one [-> | ->]%segments_one E; try reflexivity; by vm_compute in E.
Qed.

Lemma store_ready_witness : ready (mkFS ∅ ∅ []).
Proof. split; [done|]. intros k _. apply not_elem_of_empty. Qed.

Lemma EncryptAndStore_Reassemble_witness : exists m w',
  EncryptAndStore one_byte "f" "dev" key_a 0 env0 = (Ok m, w') /\ m_Size m = 1 /\
  exists s', ReassembleDecrypt append_to m key_a (e_store w', []) = (Ok tt, (s', [x68])).
Proof.
  apply (@EncryptAndStore_Reassemble _ _ FS data_backend sha256_local_key one_byte [x68] "f" "dev" key_a 0 env0 []);
    [reflexivity|unfold zlen; simpl; lia|apply collision_free_one|reflexivity|discriminate
    |apply cache_ok_empty|reflexivity|apply store_ready_witness].
Defined.

Lemma EncryptAndStore_second_key_witness : exists m w1 m' w2,
  EncryptAndStore one_byte "f" "dev" key_a 0 env0 = (Ok m, w1) /\
  EncryptAndStore one_byte "g" "dev" key_b 0 w1 = (Ok m', w2) /\
  exists e s', ReassembleDecrypt append_to m key_a (e_store w2, []) = (Err e, (s', [])).
Proof.
  apply (@EncryptAndStore_second_key _ _ FS data_backend sha256_local_key one_byte [x68] "f" "g" "dev" "dev" key_a key_b 0 0 env0 []);
    [reflexivity|unfold zlen; simpl; lia|apply collision_free_one|reflexivity|reflexivity|discriminate
    |apply cache_ok_empty|reflexivity|apply store_ready_witness|].
  intros n d [-> | ->]%segments_one; vm_compute; reflexivity.
Defined.
End Witnesses.
