(* ===== verification/Circuit.v ===== *)
(** * Circuit breaker (internal/circuit/breaker.go)

    Each method that takes the lock is one atomic operation on the [Breaker];
    [Execute] is their sequence.  Sequentially it is a function ([Execute]); for
    concurrent callers every call is a thread that runs the atomic operations one
    at a time ([step]), interleaved with the others.  Instants are integers. *)

From S2P Require Import Prelude.

(** ** Data *)

Inductive State := StateClosed | StateOpen | StateHalfOpen.

#[export] Instance State_eq_dec : EqDecision State.
Proof. solve_decision. Defined.

Definition State_String (s : State) : string :=
  match s with StateClosed => "closed" | StateOpen => "open" | StateHalfOpen => "half-open" end.

Record Config := mkConfig { MaxFailures : Z; Timeout : Z; MaxRetries : Z; RetryDelay : Z }.

Definition second : Z := 1000000000.
Definition DefaultConfig : Config := mkConfig 5 (30 * second) 3 second.

Record Breaker := mkBreaker {
  cb_name : string; config : Config; state : State; failures : Z; lastFailure : Z; halfOpenCalls : Z
}.

(** The zero [time.Time]. *)
Definition zero_time : Z := 0.

Definition New (name : string) (c : Config) : Breaker := mkBreaker name c StateClosed 0 zero_time 0.

(** ** The locked sections *)

Definition currentState (now : Z) (cb : Breaker) : State * Breaker :=
  if bool_decide (state cb = StateOpen) && (Timeout (config cb) <? now - lastFailure cb) then
    (StateHalfOpen, mkBreaker (cb_name cb) (config cb) StateHalfOpen (failures cb) (lastFailure cb) 0)
  else (state cb, cb).

Definition acquireHalfOpenSlot (cb : Breaker) : bool * Breaker :=
  if halfOpenCalls cb <? 1 then
    (true, mkBreaker (cb_name cb) (config cb) (state cb) (failures cb) (lastFailure cb) (u32 (halfOpenCalls cb + 1)))
  else (false, cb).

Definition releaseHalfOpenSlot (cb : Breaker) : Breaker :=
  mkBreaker (cb_name cb) (config cb) (state cb) (failures cb) (lastFailure cb) (u32 (halfOpenCalls cb - 1)).

Definition recordSuccess (cb : Breaker) : Breaker :=
  if bool_decide (state cb = StateHalfOpen)
  then mkBreaker (cb_name cb) (config cb) StateClosed 0 (lastFailure cb) 0
  else mkBreaker (cb_name cb) (config cb) (state cb) 0 (lastFailure cb) (halfOpenCalls cb).

Definition recordFailure (now : Z) (cb : Breaker) : Breaker :=
  let failures := u32 (failures cb + 1) in
  if bool_decide (state cb = StateHalfOpen)
  then mkBreaker (cb_name cb) (config cb) StateOpen failures now 0
  else if MaxFailures (config cb) <=? failures
  then mkBreaker (cb_name cb) (config cb) StateOpen failures now (halfOpenCalls cb)
  else mkBreaker (cb_name cb) (config cb) (state cb) failures now (halfOpenCalls cb).

(** ** Retries

    What the outside world does in an attempt: the context may end during the
    delay before it; then the call returns, the context ends, or the time is up. *)

Inductive outcome := Returned (err : option error) | CtxDone (err : error) | TimedOut.

Record attempt_env := mkAttempt { delay_done : option error; call : outcome }.

(** [fmt.Errorf("after %d retries: %w", n, err)], also for a nil [err]. *)
Definition retries_error (n : Z) (err : option error) : error :=
  match err with
  | Some e => Wrapf ("after " +:+ pretty n +:+ " retries") e
  | None => Errorf ("after " +:+ pretty n +:+ " retries: %!w(<nil>)")
  end.

Fixpoint retry_loop (maxRetries : Z) (attempt remaining : nat) (env : nat -> attempt_env)
    (lastErr : option error) : option error :=
  match remaining with
  | O => Some (retries_error maxRetries lastErr)
  | S remaining =>
      match (if bool_decide (0 < attempt)%nat then delay_done (env attempt) else None) with
      | Some ctxErr => Some ctxErr
      | None =>
          match call (env attempt) with
          | Returned None => None
          | Returned (Some err) => retry_loop maxRetries (S attempt) remaining env (Some err)
          | CtxDone ctxErr => Some ctxErr
          | TimedOut => retry_loop maxRetries (S attempt) remaining env (Some ErrTimeout)
          end
      end
  end.

(** [for attempt := 0; attempt <= MaxRetries; attempt++] *)
Definition executeWithRetries (cb : Breaker) (env : nat -> attempt_env) : option error :=
  retry_loop (MaxRetries (config cb)) 0 (Z.to_nat (MaxRetries (config cb) + 1)) env None.

(** ** Execute

    [t0] is the instant of the state check, [t1] that of the record. *)

Definition open_error (cb : Breaker) : error := Wrapf (cb_name cb) ErrOpenCircuit.

Definition record (t1 : Z) (err : option error) (cb : Breaker) : Breaker :=
  match err with Some _ => recordFailure t1 cb | None => recordSuccess cb end.

Definition Execute (cb : Breaker) (t0 t1 : Z) (env : nat -> attempt_env) : option error * Breaker :=
  let '(st, cb) := currentState t0 cb in
  match st with
  | StateOpen => (Some (open_error cb), cb)
  | StateHalfOpen =>
      let '(ok, cb) := acquireHalfOpenSlot cb in
      if negb ok then (Some (open_error cb), cb)
      else
        let err := executeWithRetries cb env in
        (err, releaseHalfOpenSlot (record t1 err cb))
  | StateClosed =>
      let err := executeWithRetries cb env in
      (err, record t1 err cb)
  end.

(** The generic variant returns the value of the last call beside the error;
    [result n] is what the calls up to attempt [n] leave in the variable. *)
Definition ExecuteWithResult {T} (zero : T) (cb : Breaker) (t0 t1 : Z) (env : nat -> attempt_env)
    (result : T) : (T * option error) * Breaker :=
  let '(st, cb') := currentState t0 cb in
  match Execute cb t0 t1 env with
  | (err, cb'') =>
      if bool_decide (st = StateOpen) || (bool_decide (st = StateHalfOpen) && negb (acquireHalfOpenSlot cb').1)
      then ((zero, err), cb'') else ((result, err), cb'')
  end.

(** ** The registry: names to shared breakers *)

Record Registry := mkRegistry { breakers : gmap string nat; heap : list Breaker }.

Definition NewRegistry : Registry := mkRegistry ∅ [].

Definition GetOrCreate (name : string) (c : Config) : GoM Registry nat :=
  r ← get_w;
  match breakers r !! name with
  | Some loc => mret loc
  | None =>
      let loc := length (heap r) in
      put_w (mkRegistry (<[name := loc]> (breakers r)) (heap r ++ [New name c]));;
      mret loc
  end.

Definition Registry_Get (r : Registry) (name : string) : option nat := breakers r !! name.

(** ** Concurrent callers *)

(** Where a call is: before the state check; half-open, before taking the slot;
    running the function, with or without a slot; recorded, with the slot still
    to be released by the deferred call; finished. *)
Inductive pc := Start | WantSlot | Running (slot : bool) | Releasing | Rejected | Finished.

#[export] Instance pc_eq_dec : EqDecision pc.
Proof. solve_decision. Defined.

Record system := mkSystem { breaker : Breaker; clock : Z; threads : list pc }.

Definition set_thread (i : nat) (p : pc) (cb : Breaker) (s : system) : system :=
  mkSystem cb (clock s) (<[i := p]> (threads s)).

Definition after_check (st : State) : pc :=
  match st with StateOpen => Rejected | StateHalfOpen => WantSlot | StateClosed => Running false end.

Inductive step : system -> system -> Prop :=
  | s_tick s d : 0 <= d -> step s (mkSystem (breaker s) (clock s + d) (threads s))
  | s_spawn s : step s (mkSystem (breaker s) (clock s) (threads s ++ [Start]))
  | s_check s i : threads s !! i = Some Start ->
      step s (set_thread i (after_check (currentState (clock s) (breaker s)).1)
                (currentState (clock s) (breaker s)).2 s)
  | s_acquire s i : threads s !! i = Some WantSlot ->
      step s (set_thread i (if (acquireHalfOpenSlot (breaker s)).1 then Running true else Rejected)
                (acquireHalfOpenSlot (breaker s)).2 s)
  | s_record s i slot err : threads s !! i = Some (Running slot) ->
      step s (set_thread i (if slot then Releasing else Finished) (record (clock s) err (breaker s)) s)
  | s_release s i : threads s !! i = Some Releasing ->
      step s (set_thread i Finished (releaseHalfOpenSlot (breaker s)) s).

Definition initial (name : string) (c : Config) (t : Z) : system := mkSystem (New name c) t [].

Definition reachable (name : string) (c : Config) (s : system) : Prop :=
  exists t, rtc step (initial name c t) s.

(** ** Lemmas *)

(** What every locked section maintains of the breaker. *)
Definition breaker_ok (cb : Breaker) : Prop :=
  0 <= failures cb < 2 ^ 32 /\ (state cb = StateClosed -> failures cb < MaxFailures (config cb)).

Lemma currentState_ok now cb : breaker_ok cb -> breaker_ok (currentState now cb).2.
Proof. intros [H1 H2]. unfold currentState. case_bool; [|done]. by split. Qed.

Lemma acquire_ok cb : breaker_ok cb -> breaker_ok (acquireHalfOpenSlot cb).2.
Proof. intros [H1 H2]. unfold acquireHalfOpenSlot. case_bool; [|done]. by split. Qed.

Lemma record_ok now err cb : 1 <= MaxFailures (config cb) -> breaker_ok cb -> breaker_ok (record now err cb).
Proof.
  intros Hm [H1 H2]. assert (0 <= u32 (failures cb + 1) < 2 ^ 32) as Hu by (apply Z.mod_pos_bound; lia).
  destruct err as [e|]; simpl; unfold recordFailure, recordSuccess; repeat case_bool; split; simpl; try done; try lia;
    bool_to_prop; lia.
Qed.

Lemma record_config now err cb : config (record now err cb) = config cb.
Proof. destruct err; simpl; unfold recordFailure, recordSuccess; by repeat case_bool. Qed.

Lemma currentState_config now cb : config (currentState now cb).2 = config cb.
Proof. unfold currentState. by case_bool. Qed.

Lemma acquire_config cb : config (acquireHalfOpenSlot cb).2 = config cb.
Proof. unfold acquireHalfOpenSlot. by case_bool. Qed.

Lemma reachable_ok name c s : 1 <= MaxFailures c -> reachable name c s ->
  config (breaker s) = c /\ breaker_ok (breaker s).
Proof.
  intros Hm [t Hr].
  assert (forall s s', rtc step s s' -> config (breaker s) = c -> breaker_ok (breaker s) ->
    config (breaker s') = c /\ breaker_ok (breaker s')) as Hinv.
  { clear s Hr. intros s s'. induction 1 as [s|s s1 s' Hs _ IH]; [done|]. intros Hc Hok.
    apply IH; inversion Hs; simpl; rewrite ?currentState_config, ?acquire_config, ?record_config; try done.
    - by apply currentState_ok.
    - by apply acquire_ok.
    - apply record_ok; [by rewrite Hc|done]. }
  apply (Hinv _ _ Hr); [done|]. split; simpl; [lia|lia].
Qed.

(** The failures of a run of failing calls on a closed breaker. *)
Lemma recordFailure_closed now cb : breaker_ok cb -> state cb = StateClosed -> MaxFailures (config cb) < 2 ^ 32 ->
  recordFailure now cb =
    mkBreaker (cb_name cb) (config cb)
      (if MaxFailures (config cb) <=? failures cb + 1 then StateOpen else StateClosed)
      (failures cb + 1) now (halfOpenCalls cb).
Proof.
  intros [H1 H2] Hs Hm. specialize (H2 Hs). unfold recordFailure. rewrite Hs, bool_decide_false by done.
  rewrite u32_id by lia. by destruct (MaxFailures (config cb) <=? failures cb + 1).
Qed.

(** An attempt that is followed by another one. *)
Definition attempt_fails (a : attempt_env) : Prop :=
  call a = TimedOut \/ exists e, call a = Returned (Some e).

Definition not_cancelled (n : nat) (a : attempt_env) : Prop := (0 < n)%nat -> delay_done a = None.

Lemma retry_loop_success mr a r env last :
  retry_loop mr a r env last = None <->
  exists k, (a <= k < a + r)%nat /\ call (env k) = Returned None /\
    (forall j, (a <= j < k)%nat -> attempt_fails (env j)) /\ (forall j, (a <= j <= k)%nat -> not_cancelled j (env j)).
Proof.
  revert a last. induction r as [|r IH]; intros a last; cbn [retry_loop].
  { split; [done|]. intros (k & Hk & _). lia. }
  destruct (if bool_decide (0 < a)%nat then delay_done (env a) else None) as [c|] eqn:Ed.
  { split; [done|]. intros (k & Hk & _ & _ & Hn). specialize (Hn a ltac:(lia)).
    case_bool_decide; [|done]. rewrite Hn in Ed by done. done. }
  assert (not_cancelled a (env a)) as Hna by (intros Ha; by rewrite bool_decide_true in Ed).
  assert (forall last', attempt_fails (env a) -> (retry_loop mr (S a) r env last' = None <->
    exists k, (a <= k < a + S r)%nat /\ call (env k) = Returned None /\
      (forall j, (a <= j < k)%nat -> attempt_fails (env j)) /\ (forall j, (a <= j <= k)%nat -> not_cancelled j (env j)))) as Hnext.
  { intros last' Hf. rewrite IH. split; intros (k & Hk & Hc & Hj & Hn).
    - exists k. split_and!; [lia|lia|done| |]; intros j Hr; (destruct (decide (j = a)) as [->|]; [done|]);
        [apply Hj|apply Hn]; lia.
    - assert (k <> a) by (intros ->; destruct Hf as [Hf|[e Hf]]; congruence).
      exists k. split_and!; [lia|lia|done| |]; intros j Hr; [apply Hj|apply Hn]; lia. }
  destruct (call (env a)) as [[e|]|c|] eqn:Ec.
  - apply Hnext. right. eauto.
  - split; [|done]. intros _. exists a. split_and!; [lia|lia|done| |]; intros j Hj; [lia|].
    by replace j with a by lia.
  - split; [done|]. intros (k & Hk & Hc & Hj & _). destruct (decide (k = a)) as [->|]; [congruence|].
    destruct (Hj a ltac:(lia)) as [?|[? ?]]; congruence.
  - apply Hnext. by left.
Qed.

(** *** The abstract breaker: closed with a failure count, or open since *)

Inductive abstract := AClosed (n : Z) | AOpen (since : Z).

Definition abs_of (cb : Breaker) : abstract :=
  match state cb with StateClosed => AClosed (failures cb) | _ => AOpen (lastFailure cb) end.

(** The error of the call and the state after it, for a call that starts at [t0]
    and whose function ends at [t1] with [err]. *)
Definition abs_execute (name : string) (c : Config) (a : abstract) (t0 t1 : Z) (err : option error) : option error * abstract :=
  let failed := AOpen t1 in
  match a with
  | AOpen since =>
      if Timeout c <? t0 - since
      then (err, match err with None => AClosed 0 | Some _ => failed end)
      else (Some (Wrapf name ErrOpenCircuit), a)
  | AClosed n =>
      (err, match err with
            | None => AClosed 0
            | Some _ => if MaxFailures c <=? n + 1 then failed else AClosed (n + 1)
            end)
  end.

Lemma Execute_abs cb t0 t1 env :
  1 <= MaxFailures (config cb) < 2 ^ 32 -> breaker_ok cb -> state cb <> StateHalfOpen ->
  let '(r, cb') := Execute cb t0 t1 env in
  (r, abs_of cb') = abs_execute (cb_name cb) (config cb) (abs_of cb) t0 t1 (executeWithRetries cb env) /\
  config cb' = config cb /\ cb_name cb' = cb_name cb /\ breaker_ok cb' /\ state cb' <> StateHalfOpen.
Proof.
  intros Hm Hok Hst. unfold Execute, currentState, abs_of. destruct (state cb) eqn:Es; [| |done].
  - rewrite bool_decide_false by done. cbn [andb]. destruct (executeWithRetries cb env) as [e|] eqn:Er.
    + pose proof (record_ok t1 (Some e) cb ltac:(lia) Hok) as Hr. cbn [record] in *.
      rewrite recordFailure_closed in * by (done || lia). simpl.
      by destruct (MaxFailures (config cb) <=? failures cb + 1).
    + pose proof (record_ok t1 None cb ltac:(lia) Hok) as Hr. cbn [record] in *. unfold recordSuccess in *.
      rewrite Es in *. rewrite bool_decide_false in * by done. simpl. rewrite ?Es. done.
  - rewrite bool_decide_true by done. cbn [andb]. unfold abs_execute.
    destruct (Timeout (config cb) <? t0 - lastFailure cb); [|rewrite ?Es; simpl; by rewrite ?Es].
    unfold acquireHalfOpenSlot, executeWithRetries. cbn [halfOpenCalls config Z.ltb Z.compare negb].
    destruct (retry_loop (MaxRetries (config cb)) 0 (Z.to_nat (MaxRetries (config cb) + 1)) env None) as [e|]; simpl.
    + unfold recordFailure. simpl. split_and!; try done. split; simpl; [apply Z.mod_pos_bound; lia|done].
    + split_and!; try done. split; simpl; lia.
Qed.

(** [C28] Sequential calls implement the abstract breaker: closed, it counts
    consecutive failures and opens when they reach the maximum; open, it rejects
    every call until the timeout has passed and then lets one through, whose
    outcome closes or reopens it.  A call succeeds exactly when some attempt up to
    the retry limit returns without error, all earlier ones having failed or timed
    out and the context not having ended. *)
Theorem Execute_refines cb t0 t1 env :
  1 <= MaxFailures (config cb) < 2 ^ 32 -> breaker_ok cb -> state cb <> StateHalfOpen ->
  (let '(r, cb') := Execute cb t0 t1 env in
   (r, abs_of cb') = abs_execute (cb_name cb) (config cb) (abs_of cb) t0 t1 (executeWithRetries cb env) /\
   config cb' = config cb /\ breaker_ok cb' /\ state cb' <> StateHalfOpen) /\
  (executeWithRetries cb env = None <->
   exists k, Z.of_nat k <= MaxRetries (config cb) /\ call (env k) = Returned None /\
     (forall j, (j < k)%nat -> attempt_fails (env j)) /\ (forall j, (j <= k)%nat -> not_cancelled j (env j))).
Proof.
  intros Hm Hok Hs. split.
  - pose proof (Execute_abs cb t0 t1 env Hm Hok Hs) as H. destruct (Execute cb t0 t1 env) as [r cb'].
    by destruct H as (? & ? & _ & ? & ?).
  - unfold executeWithRetries. rewrite retry_loop_success. split; intros (k & Hk & Hc & Hj & Hn).
    + exists k. split; [lia|]. split; [done|]. split; intros j Hr; [apply Hj|apply Hn]; lia.
    + exists k. split; [lia|]. split; [done|]. split; intros j Hr; [apply Hj|apply Hn]; lia.
Qed.

(** *** Interleavings *)

Definition probing (s : system) : nat := length (filter (fun p => p = Running true) (threads s)).

(** A new call passes the state check. *)
Lemma new_call s : rtc step s
  (mkSystem (currentState (clock s) (breaker s)).2 (clock s)
     (threads s ++ [after_check (currentState (clock s) (breaker s)).1])).
Proof.
  eapply rtc_l; [apply s_spawn|]. eapply rtc_l; [apply (s_check _ (length (threads s))), lookup_snoc|].
  unfold set_thread. simpl. rewrite insert_snoc. apply rtc_refl.
Qed.

(** A new call on a closed breaker whose function fails. *)
Lemma failing_call s : state (breaker s) = StateClosed ->
  rtc step s (mkSystem (recordFailure (clock s) (breaker s)) (clock s) (threads s ++ [Finished])).
Proof.
  intros Hs. etrans; [apply new_call|]. unfold currentState. rewrite Hs, bool_decide_false by done. simpl.
  eapply rtc_l; [apply (s_record _ (length (threads s)) false (Some ErrDriver)), lookup_snoc|].
  unfold set_thread. simpl. rewrite insert_snoc. rewrite ?Hs. apply rtc_refl.
Qed.

(** Enough failing calls open the breaker. *)
Lemma trip n s : state (breaker s) = StateClosed -> breaker_ok (breaker s) ->
  MaxFailures (config (breaker s)) < 2 ^ 32 ->
  failures (breaker s) + Z.of_nat (S n) = MaxFailures (config (breaker s)) ->
  exists cb, rtc step s (mkSystem cb (clock s) (threads s ++ replicate (S n) Finished)) /\
    state cb = StateOpen /\ lastFailure cb = clock s /\ config cb = config (breaker s).
Proof.
  revert s. induction n as [|n IH]; intros s Hs Hok Hm Hn; pose proof (failing_call s Hs) as Hf;
    rewrite recordFailure_closed in Hf by done.
  - destruct (Z.leb_spec (MaxFailures (config (breaker s))) (failures (breaker s) + 1)); [|lia].
    eexists. split; [exact Hf|done].
  - destruct (Z.leb_spec (MaxFailures (config (breaker s))) (failures (breaker s) + 1)); [lia|].
    match type of Hf with rtc _ _ ?s1 => destruct (IH s1) as (cb & Hr & ? & ? & ?) end.
    1,3: done.
    { destruct Hok. split; simpl; lia. }
    { simpl. lia. }
    exists cb. split; [|done]. etrans; [exact Hf|]. simpl in Hr. by rewrite <-app_assoc in Hr.
Qed.

(** A new call on an open breaker whose timeout has passed becomes a probe. *)
Lemma probe s : state (breaker s) = StateOpen -> 0 <= Timeout (config (breaker s)) ->
  lastFailure (breaker s) <= clock s ->
  exists cb t, rtc step s (mkSystem cb t (threads s ++ [Running true])) /\ clock s <= t /\
    state cb = StateHalfOpen /\ config cb = config (breaker s).
Proof.
  intros Hs Ht Hl. set (d := Timeout (config (breaker s)) + 1).
  set (cb1 := mkBreaker (cb_name (breaker s)) (config (breaker s)) StateHalfOpen (failures (breaker s)) (lastFailure (breaker s)) 0).
  assert (currentState (clock s + d) (breaker s) = (StateHalfOpen, cb1)) as Hc.
  { unfold currentState. rewrite Hs, bool_decide_true by done. simpl.
    destruct (Z.ltb_spec (Timeout (config (breaker s))) (clock s + d - lastFailure (breaker s))); [done|lia]. }
  eexists _, (clock s + d). split; [|split; [lia|]].
  - eapply rtc_l; [apply (s_tick _ d); lia|]. etrans; [apply new_call|]. simpl. rewrite Hc. simpl.
    eapply rtc_l; [apply (s_acquire _ (length (threads s))), lookup_snoc|].
    unfold set_thread. simpl. rewrite insert_snoc. apply rtc_refl.
  - done.
Qed.

(** [Fact] Whatever the interleaving of concurrent calls, a closed breaker has
    fewer recorded failures than its maximum, the configuration is never changed
    and no counter leaves its width.  The half-open slot however does not bound
    the probes: for every configuration a system is reachable in which two calls
    run as recovery probes at the same time, since recording an outcome clears the
    slot counter that the deferred release then decrements again. *)
Theorem interleavings name c :
  1 <= MaxFailures c < 2 ^ 32 -> 0 <= Timeout c ->
  (forall s, reachable name c s ->
     config (breaker s) = c /\ 0 <= failures (breaker s) < 2 ^ 32 /\
     (state (breaker s) = StateClosed -> failures (breaker s) < MaxFailures c)) /\
  exists s, reachable name c s /\ probing s = 2%nat.
Proof.
  intros Hm Ht. split.
  { intros s Hs. destruct (reachable_ok name c s ltac:(lia) Hs) as [? [? Hf]]. by subst c. }
  destruct (trip (Z.to_nat (MaxFailures c - 1)) (mkSystem (New name c) 0 [Running false])) as (cb1 & R1 & S1 & L1 & C1);
    simpl in *; [done|split; simpl; lia|lia|lia|].
  destruct (probe (mkSystem cb1 0 ([Running false] ++ replicate (S (Z.to_nat (MaxFailures c - 1))) Finished)))
    as (cb2 & t2 & R2 & T2 & S2 & C2); simpl in *; [done|by rewrite C1|lia|].
  set (fin := replicate (Z.to_nat (MaxFailures c - 1)) Finished) in *.
  destruct (probe (mkSystem (recordFailure t2 cb2) t2 (Finished :: Finished :: fin ++ [Running true])))
    as (cb3 & t3 & R3 & T3 & S3 & C3); simpl in *.
  { unfold recordFailure. by rewrite S2. }
  { pose proof (record_config t2 (Some ErrDriver) cb2) as Hc. simpl in Hc. by rewrite Hc, C2, C1. }
  { unfold recordFailure. by rewrite S2. }
  exists (mkSystem cb3 t3 (Finished :: Finished :: (fin ++ [Running true]) ++ [Running true])). split.
  - assert (rtc step (initial name c 0) (mkSystem (New name c) 0 [Running false])) as R0
      by exact (new_call (initial name c 0)).
    exists 0. etrans; [exact R0|]. etrans; [exact R1|]. etrans; [exact R2|].
    eapply rtc_l; [|exact R3].
    exact (s_record (mkSystem cb2 t2 (Running false :: Finished :: fin ++ [Running true])) 0 false (Some ErrDriver) eq_refl).
  - unfold probing. simpl. rewrite !filter_cons_False, !filter_app by done.
    rewrite (filter_none _ fin) by (apply Forall_replicate; done). done.
Qed.

(** ** Witnesses *)

Definition cfg2 : Config := mkConfig 2 10 0 1.

Lemma Execute_refines_witness :
  let cb := New "svc" cfg2 in
  (let '(r, cb') := Execute cb 0 1 (fun _ => mkAttempt None (Returned (Some ErrDriver))) in
   (r, abs_of cb') = (Some (Wrapf "after 0 retries" ErrDriver), AClosed 1) /\
   config cb' = cfg2 /\ breaker_ok cb' /\ state cb' <> StateHalfOpen).
Proof.
  apply (Execute_refines (New "svc" cfg2) 0 1 (fun _ => mkAttempt None (Returned (Some ErrDriver))));
    simpl; [lia|split; simpl; lia|discriminate].
Defined.

Lemma interleavings_witness : exists s, reachable "svc" cfg2 s /\ probing s = 2%nat.
Proof. apply (interleavings "svc" cfg2); simpl; lia. Defined.

