(* ===== verification/Rbac.v ===== *)
(** * Role-based access control (internal/auth/rbac.go)

    The engine keeps the roles and a cache of the permissions of users; the role
    of a user is in the database, which is an interface here ([UserDB]).  The
    mutex-protected sections are single steps of sequential computations. *)

From S2P Require Import Prelude.

(** ** Data *)

Record Permission := mkPerm { Resource : string; Action : string; Scope : string }.

#[export] Instance Permission_eq_dec : EqDecision Permission.
Proof. solve_decision. Defined.

Record Role := mkRole {
  role_ID : string; Name : string; Description : string; IsSystem : bool; Permissions : list Permission
}.

(** [scopeLevels[s]]: a missing key gives 0. *)
Definition scope_level (s : string) : Z :=
  if bool_decide (s = "own") then 1 else if bool_decide (s = "group") then 2
  else if bool_decide (s = "all") then 3 else 0.

Definition Matches (p : Permission) (resource action scope : string) : bool :=
  if negb (bool_decide (Resource p = resource)) then false
  else if negb (bool_decide (Action p = action)) && negb (bool_decide (Action p = "manage")) then false
  else scope_level scope <=? scope_level (Scope p).

(** What the engine uses of the database: the role column of a user's row. *)
Class UserDB (D : Type) : Type := {
  GetUserByID : string -> GoM D string;
  role_at : D -> string -> option string;
  get_user_law d id :
    match GetUserByID id d with
    | (Ok role, d') => role_at d id = Some role /\ forall id', role_at d' id' = role_at d id'
    | (Err _, d') => forall id', role_at d' id' = role_at d id'
    | _ => False
    end
}.

(** ** The engine *)

Definition adminRole : Role := mkRole "role_admin" "admin" "Full system access" true
  [mkPerm "file" "manage" "all"; mkPerm "folder" "manage" "all"; mkPerm "share" "manage" "all";
   mkPerm "user" "manage" "all"; mkPerm "system" "manage" "all"].

Definition userRole : Role := mkRole "role_user" "user" "Standard user access" true
  [mkPerm "file" "read" "group"; mkPerm "file" "write" "own"; mkPerm "file" "delete" "own";
   mkPerm "folder" "read" "group"; mkPerm "folder" "write" "own"; mkPerm "folder" "delete" "own";
   mkPerm "share" "read" "group"; mkPerm "share" "write" "own"; mkPerm "share" "delete" "own";
   mkPerm "user" "read" "own"; mkPerm "user" "write" "own"].

Definition guestRole : Role := mkRole "role_guest" "guest" "Limited read-only access" true
  [mkPerm "file" "read" "group"; mkPerm "folder" "read" "group"].

Definition seedDefaultRoles (roles : gmap string Role) : gmap string Role :=
  <["guest" := guestRole]> (<["user" := userRole]> (<["admin" := adminRole]> roles)).

(** *** Contexts *)

Inductive ctx_value := VString (s : string) | VStrings (l : list string).
Definition context : Type := gmap string ctx_value.

Definition WithUserID (ctx : context) (userID : string) : context := <["user_id" := VString userID]> ctx.
Definition WithRoles (ctx : context) (roles : list string) : context := <["roles" := VStrings roles]> ctx.
Definition WithScope (ctx : context) (scope : string) : context := <["scope" := VString scope]> ctx.
Definition WithDeviceID (ctx : context) (deviceID : string) : context := <["device_id" := VString deviceID]> ctx.

Definition ctx_string (ctx : context) (key : string) : string :=
  match ctx !! key with Some (VString v) => v | _ => "" end.

Definition GetUserIDFromContext (ctx : context) : string := ctx_string ctx "user_id".
Definition GetScopeFromContext (ctx : context) : string := ctx_string ctx "scope".
Definition GetDeviceIDFromContext (ctx : context) : string := ctx_string ctx "device_id".
Definition GetRolesFromContext (ctx : context) : list string :=
  match ctx !! "roles" with Some (VStrings l) => l | _ => [] end.

Section Engine.
Context {D : Type} `{UserDB D}.

Record RBAC := mkRBAC { rdb : D; roles : gmap string Role; perms : gmap string (list Permission) }.

Definition NewRBAC (d : D) : RBAC := mkRBAC d (seedDefaultRoles ∅) ∅.

Definition in_db {A} (m : GoM D A) : GoM RBAC A := fun r =>
  let '(res, d) := m (rdb r) in (res, mkRBAC d (roles r) (perms r)).

Definition set_perms (p : gmap string (list Permission)) : GoM RBAC unit :=
  r ← get_w; put_w (mkRBAC (rdb r) (roles r) p).

Definition GetRole (r : RBAC) (name : string) : option Role := roles r !! name.

Definition getUserPermissions (userID : string) : GoM RBAC (list Permission) :=
  r ← get_w;
  match perms r !! userID with
  | Some cached => mret cached
  | None =>
      userRole ← wrap "user not found" (in_db (GetUserByID userID));
      r ← get_w;
      match roles r !! userRole with
      | None => fail (Errorf ("role not found: " +:+ userRole))
      | Some role =>
          let ps := Permissions role in
          r ← get_w;
          set_perms (<[userID := ps]> (perms r));;
          mret ps
      end
  end.

Definition Authorize (userID resource action scope : string) : GoM RBAC unit :=
  if bool_decide (resource = "") || bool_decide (action = "") then fail ErrInvalidResource
  else
    let scope := if bool_decide (scope = "") then "own"%string else scope in
    permissions ← wrap "failed to get user permissions" (getUserPermissions userID);
    if existsb (fun perm => Matches perm resource action scope) permissions then mret tt
    else fail ErrPermissionDenied.

Definition AuthorizeOwn (userID resource action : string) := Authorize userID resource action "own".
Definition AuthorizeGroup (userID resource action : string) := Authorize userID resource action "group".
Definition AuthorizeAny (userID resource action : string) := Authorize userID resource action "all".

Definition InvalidateUserCache (userID : string) : GoM RBAC unit :=
  r ← get_w; set_perms (delete userID (perms r)).
Definition InvalidateAllCache : GoM RBAC unit := set_perms ∅.

Definition HasRole (userID roleName : string) : GoM RBAC bool :=
  userRole ← in_db (GetUserByID userID);
  mret (bool_decide (userRole = roleName)).

Definition IsAdmin (userID : string) : GoM RBAC bool := HasRole userID "admin".

Definition HandlerFunc : Type := context -> GoM RBAC unit.

Definition RequirePermission (resource action : string) (next : HandlerFunc) : HandlerFunc := fun ctx =>
  let userID := GetUserIDFromContext ctx in
  if bool_decide (userID = "") then fail ErrPermissionDenied
  else
    let scope := GetScopeFromContext ctx in
    let scope := if bool_decide (scope = "") then "own"%string else scope in
    Authorize userID resource action scope;;
    next ctx.

Definition RequireRole (roleName : string) (next : HandlerFunc) : HandlerFunc := fun ctx =>
  let userID := GetUserIDFromContext ctx in
  if bool_decide (userID = "") then fail ErrPermissionDenied
  else
    hasRole ← HasRole userID roleName;
    if negb hasRole then fail ErrPermissionDenied else next ctx.

Definition RequireAdmin : HandlerFunc -> HandlerFunc := RequireRole "admin".

Record PermissionChecker := { pc_userID : string }.
Definition ForUser (userID : string) : PermissionChecker := {| pc_userID := userID |}.

(** [err == nil] *)
Definition succeeds (m : GoM RBAC unit) : GoM RBAC bool :=
  r ← attempt m; mret (match r with inl _ => true | inr _ => false end).

Definition Can (pc : PermissionChecker) (action resource : string) : GoM RBAC bool :=
  succeeds (Authorize (pc_userID pc) resource action "own").
Definition CanInScope (pc : PermissionChecker) (action resource scope : string) : GoM RBAC bool :=
  succeeds (Authorize (pc_userID pc) resource action scope).
Definition Is (pc : PermissionChecker) (role : string) : GoM RBAC bool :=
  r ← attempt (HasRole (pc_userID pc) role);
  mret (match r with inl b => b | inr _ => false end).

Definition ListPermissions (userID : string) : GoM RBAC (list Permission) := getUserPermissions userID.

Definition AddRole (role : Role) : GoM RBAC unit :=
  r ← get_w;
  match roles r !! Name role with
  | Some _ => fail (Errorf ("role already exists: " +:+ Name role))
  | None => put_w (mkRBAC (rdb r) (<[Name role := role]> (roles r)) (perms r))
  end.

Definition UpdateRole (roleName : string) (permissions : list Permission) : GoM RBAC unit :=
  r ← get_w;
  match roles r !! roleName with
  | None => fail (Errorf ("role not found: " +:+ roleName))
  | Some role =>
      if IsSystem role then fail (Errorf ("cannot modify system role: " +:+ roleName))
      else
        let role := mkRole (role_ID role) (Name role) (Description role) (IsSystem role) permissions in
        put_w (mkRBAC (rdb r) (<[roleName := role]> (roles r)) ∅)
  end.

(** ** Specification *)

(** The policy that a list of permissions grants. *)
Definition grants (ps : list Permission) (resource action scope : string) : Prop :=
  exists p, p ∈ ps /\ Resource p = resource /\ (Action p = action \/ Action p = "manage"%string) /\
    scope_level scope <= scope_level (Scope p).

(** The permissions that a user's role in the database stands for. *)
Definition current_perms (r : RBAC) (userID : string) : option (list Permission) :=
  role ← role_at (rdb r) userID; Permissions <$> roles r !! role.

(** Every cached list is the current one. *)
Definition coherent (r : RBAC) : Prop :=
  forall userID ps, perms r !! userID = Some ps -> current_perms r userID = Some ps.

(** Database, roles and hence the policy are as they were. *)
Definition same_policy (r r' : RBAC) : Prop :=
  (forall id, role_at (rdb r') id = role_at (rdb r) id) /\ roles r' = roles r.

(** ** Lemmas *)

Lemma Matches_grants ps resource action scope :
  existsb (fun p => Matches p resource action scope) ps = true <-> grants ps resource action scope.
Proof.
  rewrite existsb_exists. unfold grants, Matches.
  split; intros (p & Hin & Hp); exists p; rewrite list_elem_of_In in *; (split; [done|]).
  - repeat case_bool_decide; simpl in *; try done; apply Z.leb_le in Hp; auto.
  - destruct Hp as (-> & Ha & Hl). rewrite (bool_decide_true (_ = _)) by done. simpl.
    assert (negb (bool_decide (Action p = action)) && negb (bool_decide (Action p = "manage"%string)) = false) as ->.
    { apply andb_false_iff. destruct Ha as [Ha|Ha]; [left|right]; by rewrite bool_decide_true. }
    by apply Z.leb_le.
Qed.

Lemma current_perms_same r r' userID : same_policy r r' -> current_perms r' userID = current_perms r userID.
Proof. intros [Hd Hr]. unfold current_perms. by rewrite Hd, Hr. Qed.

Lemma getUserPermissions_hoare r0 userID : coherent r0 ->
  hoare (fun r => r = r0) (getUserPermissions userID)
    (fun ps r => coherent r /\ same_policy r0 r /\ current_perms r0 userID = Some ps)
    (fun r => coherent r /\ same_policy r0 r).
Proof.
  intros Hc r ->. unfold getUserPermissions. rewrite bind_get.
  destruct (perms r0 !! userID) as [ps|] eqn:Ep; [split_and!; [done|by split|by apply Hc]|].
  pose proof (get_user_law (rdb r0) userID) as Hl. unfold wrap, in_db. unfold mbind at 1, GoM_bind at 1.
  destruct (GetUserByID userID (rdb r0)) as [[role|e| |] d']; try done.
  - destruct Hl as [Hrole Hsame]. rewrite bind_get. simpl.
    assert (same_policy r0 (mkRBAC d' (roles r0) (perms r0))) as Hsp by (split; simpl; auto).
    assert (coherent (mkRBAC d' (roles r0) (perms r0))) as Hc'.
    { intros u ps Hu. rewrite (current_perms_same _ _ _ Hsp). by apply Hc. }
    destruct (roles r0 !! role) as [ro|] eqn:Er; [|done].
    assert (current_perms r0 userID = Some (Permissions ro)) as Hcur.
    { unfold current_perms. rewrite Hrole. simpl. by rewrite Er. }
    split_and!; [|done|done]. simpl. intros u ps Hu. unfold same_policy in *.
    assert (current_perms (mkRBAC d' (roles r0) (<[userID := Permissions ro]> (perms r0))) u = current_perms r0 u) as ->.
    { apply current_perms_same. by split. }
    simpl in Hu. apply lookup_insert_Some in Hu as [[<- <-]|[_ Hu]]; [done|by apply Hc].
  - simpl. assert (same_policy r0 (mkRBAC d' (roles r0) (perms r0))) as Hsp by (split; simpl; auto).
    split; [|done]. intros u ps Hu. rewrite (current_perms_same _ _ _ Hsp). by apply Hc.
Qed.


(** [Fact] Adding a role, updating a custom role and invalidating keep the cache
    coherent; system roles and existing names are refused without change.  A
    change of a user's role in the database does not reach the cache: the old
    permissions keep being granted until the entry is invalidated. *)
Theorem cache_maintenance r role name ps userID :
  coherent r ->
  coherent (AddRole role r).2 /\ coherent (UpdateRole name ps r).2 /\
  coherent (InvalidateUserCache userID r).2 /\ coherent (InvalidateAllCache r).2 /\
  (forall ro, roles r !! name = Some ro -> IsSystem ro = true -> (UpdateRole name ps r).2 = r) /\
  (is_Some (roles r !! Name role) -> (AddRole role r).2 = r) /\
  (forall d' old resource action scope, perms r !! userID = Some old -> resource <> ""%string -> action <> ""%string ->
     scope <> ""%string -> grants old resource action scope ->
     Authorize userID resource action scope (mkRBAC d' (roles r) (perms r)) = (Ok tt, mkRBAC d' (roles r) (perms r))).
Proof.
  intros Hc. split_and!.
  - unfold AddRole. rewrite bind_get. destruct (roles r !! Name role) eqn:E; [done|].
    simpl. intros u p Hu. specialize (Hc u p Hu). unfold current_perms in *. simpl.
    destruct (role_at (rdb r) u) as [ro|]; [|done]. simpl in *.
    destruct (roles r !! ro) as [x|] eqn:Ex; [|done].
    rewrite lookup_insert_ne by congruence. by rewrite Ex.
  - unfold UpdateRole. rewrite bind_get. destruct (roles r !! name) as [ro|]; [|done].
    destruct (IsSystem ro); [done|]. simpl. intros u p Hu. simpl in Hu. by rewrite lookup_empty in Hu.
  - simpl. intros u p Hu. simpl in Hu. apply lookup_delete_Some in Hu as [_ Hu]. by apply Hc.
  - simpl. intros u p Hu. simpl in Hu. by rewrite lookup_empty in Hu.
  - intros ro Hro Hs. unfold UpdateRole. rewrite bind_get, Hro. by rewrite Hs.
  - intros [ro Hro]. unfold AddRole. by rewrite bind_get, Hro.
  - intros d' old resource action scope Hold Hr Ha Hs Hg. unfold Authorize, getUserPermissions.
    rewrite !bool_decide_false by done. simpl. unfold wrap. unfold mbind at 1, GoM_bind at 1.
    rewrite bind_get. simpl. rewrite Hold. simpl. apply Matches_grants in Hg. by rewrite Hg.
Qed.
End Engine.

(** ** The seeded policy *)

Definition known_scope (s : string) : Prop := s = "own"%string \/ s = "group"%string \/ s = "all"%string.

(** [Fact] In the policy that every engine starts from, the roles are ordered:
    what a guest may do a user may do, and what a user may do an admin may do, in
    every scope; the admin may do any action on any of the five resources; a guest
    may only read files and folders.  A scope that is none of own, group and all
    counts as level 0, so every permission satisfies it. *)
Theorem seeded_policy :
  seedDefaultRoles ∅ !! "admin" = Some adminRole /\ seedDefaultRoles ∅ !! "user" = Some userRole /\
  seedDefaultRoles ∅ !! "guest" = Some guestRole /\
  (forall r a s, grants (Permissions guestRole) r a s -> grants (Permissions userRole) r a s) /\
  (forall r a s, grants (Permissions userRole) r a s -> grants (Permissions adminRole) r a s) /\
  (forall r a s, r ∈ ["file"; "folder"; "share"; "user"; "system"]%string -> grants (Permissions adminRole) r a s) /\
  (forall r a s, grants (Permissions guestRole) r a s -> a = "read"%string /\ (r = "file" \/ r = "folder")%string) /\
  (forall s, ~ known_scope s -> grants (Permissions guestRole) "file" "read" s).
Proof.
  assert (forall s, 0 <= scope_level s <= 3) as Hlev.
  { intros s. unfold scope_level. repeat case_bool_decide; lia. }
  assert (forall r a s, r ∈ ["file"; "folder"; "share"; "user"; "system"]%string -> grants (Permissions adminRole) r a s) as Hadmin.
  { intros r a s Hr. exists (mkPerm r "manage" "all"). simpl.
    split; [set_solver|]. split; [done|]. split; [by right|]. change (scope_level "all") with 3. apply Hlev. }
  split_and!; [done..| | |exact Hadmin| |].
  - intros r a s (p & Hp & Hrest). exists p. split; [|done]. simpl in *. set_solver.
  - intros r a s (p & Hp & <- & _). apply Hadmin. simpl in Hp. set_solver.
  - intros r a s (p & Hp & <- & Ha & _). simpl in Hp.
    apply elem_of_cons in Hp as [->|Hp]; [|apply list_elem_of_singleton in Hp as ->]; simpl in *;
      destruct Ha as [Ha|Ha]; try discriminate Ha; auto.
  - intros s Hs. exists (mkPerm "file" "read" "group"). simpl. split_and!; [by left|done|by left|].
    unfold scope_level. rewrite (bool_decide_false (s = "own")), (bool_decide_false (s = "group")), (bool_decide_false (s = "all"));
      [done|..]; intros ->; apply Hs; unfold known_scope; auto.
Qed.

(** ** A database of users, and witnesses *)

Definition toy_users : Type := gmap string string.

#[export] Program Instance toy_UserDB : UserDB toy_users := {|
  GetUserByID id d := match (d : gmap string string) !! id with Some r => (Ok r, d) | None => (Err ErrNotFound, d) end;
  role_at d id := (d : gmap string string) !! id
|}.
Next Obligation. intros d id. simpl. by destruct ((d : gmap string string) !! id). Qed.

Definition engine0 : RBAC (D := toy_users) := NewRBAC (<["ann" := "user"]> (∅ : gmap string string))%string.

Lemma engine0_coherent : coherent engine0.
Proof. intros u ps Hu. simpl in Hu. by rewrite lookup_empty in Hu. Qed.


Lemma cache_maintenance_witness :
  coherent (UpdateRole "user" [] engine0).2 /\ (UpdateRole "user" [] engine0).2 = engine0.
Proof.
  pose proof (cache_maintenance engine0 guestRole "user" [] "ann" engine0_coherent) as (_ & H1 & _ & _ & H2 & _).
  split; [exact H1|exact (H2 userRole eq_refl eq_refl)].
Defined.
