(* ===== verification/Database.v ===== *)
(** * The database (internal/db: types.go, files.go, manifests.go, chunks.go)

    The tables that the file system and the transfer handlers use, as finite maps
    from primary keys to rows, with the constraints of schema.go.  A call of the
    SQL driver consumes one entry of the fault list; [true] makes it fail without
    effect.  Foreign keys are enforced when [db_fk] says so: the code turns the
    enforcement on for one connection of its pool only.  Stored instants are
    seconds; [db_now] is the clock. *)

From S2P Require Import Prelude GoStrings GoCrypto.

(** ** Rows (types.go) *)

Record File := mkFileRow {
  f_ID : string; f_UserID : string; f_ParentID : option string; f_Name : string; f_Type : string;
  f_SizeBytes : Z; f_MimeType : string; f_ManifestID : option string; f_Checksum : option string;
  f_IsEncrypted : bool; f_EncryptedKey : bytes; f_IsTrashed : bool; f_TrashedAt : option Z;
  f_Version : Z; f_CreatedAt : Z; f_UpdatedAt : Z
}.

Record Manifest := mkManifestRow {
  m_ID : string; m_FileID : string; m_Version : Z; m_SizeBytes : Z; m_ChunkCount : Z;
  m_Chunks : list string; m_Checksum : string; m_DeviceID : string; m_CreatedAt : Z
}.

Record Chunk := mkChunkRow {
  c_Hash : string; c_SizeBytes : Z; c_StorageBackend : string; c_StoragePath : string;
  c_RefCount : Z; c_IsEncrypted : bool; c_CreatedAt : Z
}.

Record ListOpts := mkOpts { Offset : Z; Limit : Z }.

Record DB := mkDB {
  db_users : gset string; db_files : gmap string File; db_manifests : gmap string Manifest;
  db_chunks : gmap string Chunk; db_now : Z; db_rand : Rand; db_faults : list bool; db_fk : bool
}.

Definition with_files (m : gmap string File) (d : DB) : DB :=
  mkDB (db_users d) m (db_manifests d) (db_chunks d) (db_now d) (db_rand d) (db_faults d) (db_fk d).
Definition with_manifests (m : gmap string Manifest) (d : DB) : DB :=
  mkDB (db_users d) (db_files d) m (db_chunks d) (db_now d) (db_rand d) (db_faults d) (db_fk d).
Definition with_chunks (m : gmap string Chunk) (d : DB) : DB :=
  mkDB (db_users d) (db_files d) (db_manifests d) m (db_now d) (db_rand d) (db_faults d) (db_fk d).
Definition with_faults (l : list bool) (d : DB) : DB :=
  mkDB (db_users d) (db_files d) (db_manifests d) (db_chunks d) (db_now d) (db_rand d) l (db_fk d).
Definition with_rand (r : Rand) (d : DB) : DB :=
  mkDB (db_users d) (db_files d) (db_manifests d) (db_chunks d) (db_now d) r (db_faults d) (db_fk d).

(** ** The driver *)

(** A query: its answer, or an error of the driver. *)
Definition sql_query {A} (q : DB -> A) : GoM DB A := fun d =>
  let '(f, l) := next_fault (db_faults d) in
  let d := with_faults l d in
  if f then (Err ErrDriver, d) else (Ok (q d), d).

(** A statement: the rows affected and the new tables, or a constraint error. *)
Definition sql_exec (x : DB -> error + (Z * DB)) : GoM DB Z := fun d =>
  let '(f, l) := next_fault (db_faults d) in
  let d := with_faults l d in
  if f then (Err ErrDriver, d)
  else match x d with inl e => (Err e, d) | inr (n, d') => (Ok n, d') end.

Definition is_unique_failed (e : error) : bool := match e with ErrUnique => true | _ => false end.

(** [if rows == 0 { return fmt.Errorf(msg) }] *)
Definition affected (msg : string) (rows : Z) : GoM DB unit :=
  if rows =? 0 then fail (Errorf msg) else mret tt.

(** ** Constraints of the files table *)

(** UNIQUE(user_id, parent_id, name); NULL parents are distinct from each other. *)
Definition clashes (f g : File) : bool :=
  match f_ParentID f, f_ParentID g with
  | Some p, Some q => bool_decide (p = q) && bool_decide (f_UserID f = f_UserID g) && bool_decide (f_Name f = f_Name g)
  | _, _ => false
  end.

Definition unique_ok (files : gmap string File) (f : File) : bool :=
  negb (existsb (fun g => clashes f g) (map_to_list (delete (f_ID f) files)).*2).

Definition parent_ok (d : DB) (p : option string) : bool :=
  match p with None => true | Some p => bool_decide (is_Some (db_files d !! p)) end.

Definition references_ok (d : DB) (f : File) : bool :=
  negb (db_fk d) || (bool_decide (f_UserID f ∈ db_users d) && parent_ok d (f_ParentID f)).

Definition insert_file (f : File) (d : DB) : error + (Z * DB) :=
  if bool_decide (is_Some (db_files d !! f_ID f)) then inl ErrUnique
  else if negb (unique_ok (db_files d) f) then inl ErrUnique
  else if negb (references_ok d f) then inl ErrForeignKey
  else inr (1, with_files (<[f_ID f := f]> (db_files d)) d).

(** [UPDATE files SET ... WHERE id = ?] *)
Definition update_file (id : string) (g : File -> File) (d : DB) : error + (Z * DB) :=
  match db_files d !! id with
  | None => inr (0, d)
  | Some f =>
      let f' := g f in
      if negb (unique_ok (db_files d) f') then inl ErrUnique
      else if negb (references_ok d f') then inl ErrForeignKey
      else inr (1, with_files (<[id := f']> (db_files d)) d)
  end.

Definition set_trashed (t : bool) (at_ : option Z) (f : File) : File :=
  mkFileRow (f_ID f) (f_UserID f) (f_ParentID f) (f_Name f) (f_Type f) (f_SizeBytes f) (f_MimeType f) (f_ManifestID f)
    (f_Checksum f) (f_IsEncrypted f) (f_EncryptedKey f) t at_ (f_Version f) (f_CreatedAt f) (f_UpdatedAt f).

(** ** files.go

    [CreateFile] writes a NULL time of trashing. *)

Definition CreateFile (file : File) : GoM DB unit :=
  r ← attempt (sql_exec (insert_file (set_trashed (f_IsTrashed file) None file)));
  match r with
  | inr e => if is_unique_failed e then fail (Errorf "file already exists") else fail (Wrapf "failed to create file" e)
  | inl _ => mret tt
  end.

(** [QueryRow(...).Scan(...)]: no row, the driver's error, or the row. *)
Definition scan_row {A} (none : string) (failed : string) (q : DB -> option A) : GoM DB A :=
  r ← attempt (sql_query q);
  match r with
  | inr e => fail (Wrapf failed e)
  | inl None => fail (Errorf none)
  | inl (Some a) => mret a
  end.

Definition GetFileByID (id : string) : GoM DB File :=
  scan_row "file not found" "failed to get file" (fun d => db_files d !! id).

(** The parent that a pointer to a possibly empty string denotes. *)
Definition parent_key (parentID : option string) : option string :=
  match parentID with Some p => if bool_decide (p = "") then None else Some p | None => None end.

Definition at_path (userID : string) (parent : option string) (name : string) (f : File) : Prop :=
  f_UserID f = userID /\ f_ParentID f = parent /\ f_Name f = name /\ f_IsTrashed f = false.

#[export] Instance at_path_dec u p n f : Decision (at_path u p n f).
Proof. unfold at_path. apply _. Defined.

Definition rows {A} (m : gmap string A) : list A := (map_to_list m).*2.

(** The first matching row, in the unspecified order of the table. *)
Definition GetFileByPath (userID : string) (parentID : option string) (name : string) : GoM DB File :=
  scan_row "file not found" "failed to get file"
    (fun d => head (filter (at_path userID (parent_key parentID) name) (rows (db_files d)))).

Definition in_directory (userID : string) (parent : option string) (f : File) : Prop :=
  f_UserID f = userID /\ f_ParentID f = parent /\ f_IsTrashed f = false.

#[export] Instance in_directory_dec u p f : Decision (in_directory u p f).
Proof. unfold in_directory. apply _. Defined.

(** ORDER BY type DESC, name ASC *)
Definition dir_order (a b : File) : Prop :=
  (f_Type a <> f_Type b /\ String.le (f_Type b) (f_Type a)) \/ (f_Type a = f_Type b /\ String.le (f_Name a) (f_Name b)).

#[export] Instance dir_order_dec : RelDecision dir_order.
Proof. intros a b. unfold dir_order. apply _. Defined.

(** LIMIT ? OFFSET ? *)
Definition page {A} (limit offset : Z) (l : list A) : list A := take (Z.to_nat limit) (drop (Z.to_nat offset) l).

Definition ListDirectory (userID : string) (parentID : option string) (opts : ListOpts) : GoM DB (list File) :=
  let limit := if Limit opts <=? 0 then 100 else Limit opts in
  wrap "failed to list directory"
    (sql_query (fun d => page limit (Offset opts)
       (merge_sort dir_order (filter (in_directory userID (parent_key parentID)) (rows (db_files d)))))).

(** The columns that [UpdateFile] accepts, and any other name. *)
Inductive field_update :=
  | U_name (v : string) | U_size_bytes (v : Z) | U_mime_type (v : string) | U_manifest_id (v : option string)
  | U_checksum (v : option string) | U_is_encrypted (v : bool) | U_encrypted_key (v : bytes) | U_version (v : Z)
  | U_other (field : string).

Definition set_name (n : string) (f : File) : File :=
  mkFileRow (f_ID f) (f_UserID f) (f_ParentID f) n (f_Type f) (f_SizeBytes f) (f_MimeType f) (f_ManifestID f)
    (f_Checksum f) (f_IsEncrypted f) (f_EncryptedKey f) (f_IsTrashed f) (f_TrashedAt f) (f_Version f) (f_CreatedAt f) (f_UpdatedAt f).
Definition set_parent (p : option string) (f : File) : File :=
  mkFileRow (f_ID f) (f_UserID f) p (f_Name f) (f_Type f) (f_SizeBytes f) (f_MimeType f) (f_ManifestID f)
    (f_Checksum f) (f_IsEncrypted f) (f_EncryptedKey f) (f_IsTrashed f) (f_TrashedAt f) (f_Version f) (f_CreatedAt f) (f_UpdatedAt f).
Definition set_content (size : Z) (mime : string) (mid cks : option string) (enc : bool) (key : bytes) (ver : Z) (f : File) : File :=
  mkFileRow (f_ID f) (f_UserID f) (f_ParentID f) (f_Name f) (f_Type f) size mime mid cks enc key
    (f_IsTrashed f) (f_TrashedAt f) ver (f_CreatedAt f) (f_UpdatedAt f).
Definition set_updated (t : Z) (f : File) : File :=
  mkFileRow (f_ID f) (f_UserID f) (f_ParentID f) (f_Name f) (f_Type f) (f_SizeBytes f) (f_MimeType f) (f_ManifestID f)
    (f_Checksum f) (f_IsEncrypted f) (f_EncryptedKey f) (f_IsTrashed f) (f_TrashedAt f) (f_Version f) (f_CreatedAt f) t.

Definition apply_update (u : field_update) (f : File) : File :=
  let c := set_content in
  match u with
  | U_name v => set_name v f
  | U_size_bytes v => c v (f_MimeType f) (f_ManifestID f) (f_Checksum f) (f_IsEncrypted f) (f_EncryptedKey f) (f_Version f) f
  | U_mime_type v => c (f_SizeBytes f) v (f_ManifestID f) (f_Checksum f) (f_IsEncrypted f) (f_EncryptedKey f) (f_Version f) f
  | U_manifest_id v => c (f_SizeBytes f) (f_MimeType f) v (f_Checksum f) (f_IsEncrypted f) (f_EncryptedKey f) (f_Version f) f
  | U_checksum v => c (f_SizeBytes f) (f_MimeType f) (f_ManifestID f) v (f_IsEncrypted f) (f_EncryptedKey f) (f_Version f) f
  | U_is_encrypted v => c (f_SizeBytes f) (f_MimeType f) (f_ManifestID f) (f_Checksum f) v (f_EncryptedKey f) (f_Version f) f
  | U_encrypted_key v => c (f_SizeBytes f) (f_MimeType f) (f_ManifestID f) (f_Checksum f) (f_IsEncrypted f) v (f_Version f) f
  | U_version v => c (f_SizeBytes f) (f_MimeType f) (f_ManifestID f) (f_Checksum f) (f_IsEncrypted f) (f_EncryptedKey f) v f
  | U_other _ => f
  end.

Fixpoint invalid_field (updates : list field_update) : option string :=
  match updates with
  | [] => None
  | U_other field :: _ => Some field
  | _ :: updates => invalid_field updates
  end.

Definition UpdateFile (id : string) (updates : list field_update) : GoM DB unit :=
  match updates with
  | [] => mret tt
  | _ =>
      match invalid_field updates with
      | Some field => fail (Errorf ("invalid update field: " +:+ field))
      | None =>
          d ← get_w;
          rows ← wrap "failed to update file"
            (sql_exec (update_file id (fun f => set_updated (db_now d) (foldl (fun f u => apply_update u f) f updates))));
          affected "file not found" rows
      end
  end.

Definition MoveFile (id newParentID newName : string) : GoM DB unit :=
  let parentIDVal := if bool_decide (newParentID = "") then None else Some newParentID in
  d ← get_w;
  r ← attempt (sql_exec (update_file id (fun f => set_updated (db_now d) (set_name newName (set_parent parentIDVal f)))));
  match r with
  | inr e =>
      if is_unique_failed e then fail (Errorf "file already exists at destination")
      else fail (Wrapf "failed to move file" e)
  | inl rows => affected "file not found" rows
  end.

Definition SoftDelete (id : string) : GoM DB unit :=
  d ← get_w;
  rows ← wrap "failed to soft delete file"
    (sql_exec (update_file id (fun f => set_updated (db_now d) (set_trashed true (Some (db_now d)) f))));
  affected "file not found" rows.

Definition trashed_of (userID : string) (f : File) : Prop := f_UserID f = userID /\ f_IsTrashed f = true.

#[export] Instance trashed_of_dec u f : Decision (trashed_of u f).
Proof. unfold trashed_of. apply _. Defined.

(** ORDER BY trashed_at DESC; NULL sorts as smallest. *)
Definition trash_order (a b : File) : Prop :=
  match f_TrashedAt a, f_TrashedAt b with
  | Some x, Some y => y <= x
  | Some _, None | None, None => True
  | None, Some _ => False
  end.

#[export] Instance trash_order_dec : RelDecision trash_order.
Proof. intros a b. unfold trash_order. destruct (f_TrashedAt a), (f_TrashedAt b); apply _. Defined.

Definition ListTrash (userID : string) (limit offset : Z) : GoM DB (list File) :=
  let limit := if limit <=? 0 then 100 else limit in
  let offset := if offset <? 0 then 0 else offset in
  wrap "failed to list trash"
    (sql_query (fun d => page limit offset (merge_sort trash_order (filter (trashed_of userID) (rows (db_files d)))))).

Definition CountTrash (userID : string) : GoM DB Z :=
  wrap "failed to count trash"
    (sql_query (fun d => Z.of_nat (length (filter (trashed_of userID) (rows (db_files d)))))).

Definition RestoreFromTrash (id : string) : GoM DB unit :=
  d ← get_w;
  rows ← wrap "failed to restore file"
    (sql_exec (update_file id (fun f => set_updated (db_now d) (set_trashed false None f))));
  affected "file not found" rows.

(** *** Cascading deletes *)

Definition parent_in (s : gset string) (kv : string * File) : Prop :=
  match f_ParentID kv.2 with Some p => p ∈ s | None => False end.

#[export] Instance parent_in_dec s kv : Decision (parent_in s kv).
Proof. unfold parent_in. destruct (f_ParentID kv.2); apply _. Defined.

(** ON DELETE CASCADE of parent_id: the row and all rows below it.  As many
    rounds as there are rows are enough. *)
Definition cascade_step (files : gmap string File) (s : gset string) : gset string :=
  s ∪ dom (filter (parent_in s) files).

Definition cascade (files : gmap string File) (id : string) : gset string :=
  Nat.iter (size files) (cascade_step files) {[id]}.

Definition delete_file (id : string) (d : DB) : error + (Z * DB) :=
  match db_files d !! id with
  | None => inr (0, d)
  | Some _ =>
      let gone := if db_fk d then cascade (db_files d) id else {[id]} in
      let d' := with_files (filter (fun kv => kv.1 ∉ gone) (db_files d)) d in
      inr (1, if db_fk d then with_manifests (filter (fun kv => m_FileID kv.2 ∉ gone) (db_manifests d)) d' else d')
  end.

Definition PermanentDelete (id : string) : GoM DB unit :=
  rows ← wrap "failed to delete file" (sql_exec (delete_file id));
  affected "file not found" rows.

Definition CountFiles : GoM DB Z :=
  sql_query (fun d => Z.of_nat (length (filter (fun f => f_IsTrashed f = false) (rows (db_files d))))).

Definition SumFileBytes : GoM DB Z :=
  sql_query (fun d => foldr Z.add 0 (f_SizeBytes <$>
    filter (fun f => f_IsTrashed f = false /\ f_Type f = "file"%string) (rows (db_files d)))).

(** ** manifests.go

    The chunk list is kept as a list; its JSON text round-trips. *)

Definition insert_manifest (m : Manifest) (d : DB) : error + (Z * DB) :=
  if bool_decide (is_Some (db_manifests d !! m_ID m)) then inl ErrUnique
  else if existsb (fun m' => bool_decide (m_FileID m' = m_FileID m) && (m_Version m' =? m_Version m)) (rows (db_manifests d))
  then inl ErrUnique
  else if db_fk d && negb (bool_decide (is_Some (db_files d !! m_FileID m))) then inl ErrForeignKey
  else inr (1, with_manifests (<[m_ID m := m]> (db_manifests d)) d).

Definition CreateManifest (manifest : Manifest) : GoM DB unit :=
  wrap "failed to create manifest" (sql_exec (insert_manifest manifest));;
  mret tt.

Definition GetManifest (id : string) : GoM DB Manifest :=
  scan_row "manifest not found" "failed to get manifest" (fun d => db_manifests d !! id).

(** ORDER BY version DESC *)
Definition version_order (a b : Manifest) : Prop := m_Version b <= m_Version a.

#[export] Instance version_order_dec : RelDecision version_order.
Proof. intros a b. unfold version_order. apply _. Defined.

Definition versions_of (fileID : string) (d : DB) : list Manifest :=
  merge_sort version_order (filter (fun m => m_FileID m = fileID) (rows (db_manifests d))).

Definition GetLatestManifest (fileID : string) : GoM DB Manifest :=
  scan_row "manifest not found" "failed to get manifest" (fun d => head (versions_of fileID d)).

Definition ListVersions (fileID : string) : GoM DB (list Manifest) :=
  wrap "failed to list versions" (sql_query (versions_of fileID)).

Definition delete_manifest (id : string) (d : DB) : error + (Z * DB) :=
  match db_manifests d !! id with
  | None => inr (0, d)
  | Some _ => inr (1, with_manifests (delete id (db_manifests d)) d)
  end.

Definition DeleteManifest (id : string) : GoM DB unit :=
  rows ← wrap "failed to delete manifest" (sql_exec (delete_manifest id));
  affected "manifest not found" rows.

(** ** chunks.go *)

Definition insert_chunk (c : Chunk) (d : DB) : error + (Z * DB) :=
  if bool_decide (is_Some (db_chunks d !! c_Hash c)) then inl ErrUnique
  else inr (1, with_chunks (<[c_Hash c := c]> (db_chunks d)) d).

Definition set_ref (n : Z) (c : Chunk) : Chunk :=
  mkChunkRow (c_Hash c) (c_SizeBytes c) (c_StorageBackend c) (c_StoragePath c) n (c_IsEncrypted c) (c_CreatedAt c).

Definition CreateChunk (chunk : Chunk) : GoM DB unit :=
  wrap "failed to create chunk" (sql_exec (insert_chunk chunk));;
  mret tt.

Definition GetChunk (hash : string) : GoM DB Chunk :=
  scan_row "chunk not found" "failed to get chunk" (fun d => db_chunks d !! hash).

Definition ChunkExists (hash : string) : GoM DB bool :=
  wrap "failed to check chunk existence" (sql_query (fun d => bool_decide (is_Some (db_chunks d !! hash)))).

Definition bump_chunk (hash : string) (delta : Z) (guard : Chunk -> bool) (d : DB) : error + (Z * DB) :=
  match db_chunks d !! hash with
  | Some c => if guard c then inr (1, with_chunks (<[hash := set_ref (c_RefCount c + delta) c]> (db_chunks d)) d) else inr (0, d)
  | None => inr (0, d)
  end.

Definition IncrementRefCount (hash : string) : GoM DB unit :=
  rows ← wrap "failed to increment ref count" (sql_exec (bump_chunk hash 1 (fun _ => true)));
  affected "chunk not found" rows.

Definition DecrementRefCount (hash : string) : GoM DB unit :=
  rows ← wrap "failed to decrement ref count" (sql_exec (bump_chunk hash (-1) (fun c => 0 <? c_RefCount c)));
  affected "chunk not found" rows.

(** ORDER BY created_at ASC *)
Definition created_order (a b : Chunk) : Prop := c_CreatedAt a <= c_CreatedAt b.

#[export] Instance created_order_dec : RelDecision created_order.
Proof. intros a b. unfold created_order. apply _. Defined.

Definition ListOrphanedChunks : GoM DB (list Chunk) :=
  wrap "failed to list orphaned chunks"
    (sql_query (fun d => merge_sort created_order (filter (fun c => c_RefCount c = 0) (rows (db_chunks d))))).

Definition delete_chunk (hash : string) (d : DB) : error + (Z * DB) :=
  match db_chunks d !! hash with
  | None => inr (0, d)
  | Some _ => inr (1, with_chunks (delete hash (db_chunks d)) d)
  end.

Definition DeleteChunk (hash : string) : GoM DB unit :=
  rows ← wrap "failed to delete chunk" (sql_exec (delete_chunk hash));
  affected "chunk not found" rows.

Definition GetTotalChunkCount : GoM DB Z := sql_query (fun d => Z.of_nat (size (db_chunks d))).
Definition GetTotalChunkSize : GoM DB Z :=
  sql_query (fun d => foldr Z.add 0 (c_SizeBytes <$> rows (db_chunks d))).

Definition UserOwnsChunk (userID chunkHash : string) : GoM DB bool :=
  wrap "failed to check chunk ownership"
    (sql_query (fun d => existsb (fun m =>
       match db_files d !! m_FileID m with
       | Some f => bool_decide (f_UserID f = userID) && bool_decide (chunkHash ∈ m_Chunks m)
       | None => false
       end) (rows (db_manifests d)))).

(** ** The invariant of the tables *)

Definition files_ok (d : DB) : Prop :=
  (forall id f, db_files d !! id = Some f -> f_ID f = id) /\
  (forall i j f g, db_files d !! i = Some f -> db_files d !! j = Some g -> clashes f g = true -> i = j).

Definition references_hold (d : DB) : Prop :=
  forall id f, db_files d !! id = Some f ->
    f_UserID f ∈ db_users d /\ forall p, f_ParentID f = Some p -> is_Some (db_files d !! p).

Definition tables_ok (d : DB) : Prop := files_ok d /\ (db_fk d = true -> references_hold d).

(** ** Lemmas *)

(** The state after the driver consumed its fault. *)
Definition after_call (d : DB) : DB := with_faults (next_fault (db_faults d)).2 d.

Lemma elem_of_rows {A} (m : gmap string A) a : a ∈ rows m <-> exists k, m !! k = Some a.
Proof.
  unfold rows. rewrite list_elem_of_fmap. split.
  - intros ([k v] & -> & Hkv%elem_of_map_to_list). eauto.
  - intros [k Hk]. exists (k, a). by rewrite elem_of_map_to_list.
Qed.

Lemma clashes_sym f g : clashes f g = clashes g f.
Proof.
  unfold clashes. destruct (f_ParentID f), (f_ParentID g); try done.
  repeat case_bool_decide; congruence.
Qed.

Lemma unique_ok_spec files f : unique_ok files f = true <->
  forall j g, files !! j = Some g -> clashes f g = true -> j = f_ID f.
Proof.
  unfold unique_ok. rewrite negb_true_iff, <-not_true_iff_false, existsb_exists. split.
  - intros Hn j g Hj Hc. destruct (decide (j = f_ID f)) as [|Hne]; [done|]. destruct Hn. exists g.
    split; [|done]. rewrite <-list_elem_of_In. apply elem_of_rows. exists j. by rewrite lookup_delete_ne.
  - intros Hall (g & Hin & Hc). rewrite <-list_elem_of_In in Hin. apply elem_of_rows in Hin as [j Hj].
    apply lookup_delete_Some in Hj as [Hne Hj]. apply Hne. symmetry. eauto.
Qed.

Lemma insert_file_ok f d n d' : tables_ok d -> insert_file f d = inr (n, d') ->
  tables_ok d' /\ db_files d' = <[f_ID f := f]> (db_files d) /\ db_files d !! f_ID f = None.
Proof.
  intros [[Hid Hu] Hr]. unfold insert_file. case_bool_decide as Hex; [done|].
  destruct (unique_ok (db_files d) f) eqn:Eu; [|done]. destruct (references_ok d f) eqn:Er; [|done].
  intros [= <- <-]. apply eq_None_not_Some in Hex. rewrite unique_ok_spec in Eu.
  split; [|by simpl]. split; [split|]; simpl.
  - intros id g. rewrite lookup_insert_Some. intros [[<- <-]|[_ Hg]]; [done|eauto].
  - intros i j a b. rewrite !lookup_insert_Some. intros [[<- <-]|[Hi Ha]] [[<- <-]|[Hj Hb]] Hc; [done| | |eauto].
    + by rewrite (Eu _ _ Hb Hc).
    + rewrite clashes_sym in Hc. by rewrite (Eu _ _ Ha Hc).
  - intros Hfk. specialize (Hr Hfk). unfold references_ok in Er. rewrite Hfk in Er. simpl in Er.
    apply andb_true_iff in Er as [Eu' Ep]. apply bool_decide_eq_true in Eu'.
    intros id g. simpl. rewrite lookup_insert_Some. intros [[<- <-]|[Hne Hg]].
    + split; [done|]. intros p Hp. unfold parent_ok in Ep. rewrite Hp in Ep. apply bool_decide_eq_true in Ep.
      destruct (decide (p = f_ID f)) as [->|]; [by rewrite lookup_insert_eq|by rewrite lookup_insert_ne].
    + destruct (Hr _ _ Hg) as [? Hp]. split; [done|]. intros p Hpp. specialize (Hp p Hpp).
      destruct (decide (p = f_ID f)) as [->|]; [by rewrite lookup_insert_eq|by rewrite lookup_insert_ne].
Qed.

Lemma update_file_ok id g d n d' : (forall f, f_ID (g f) = f_ID f) -> tables_ok d ->
  update_file id g d = inr (n, d') ->
  tables_ok d' /\
  match db_files d !! id with
  | None => n = 0 /\ d' = d
  | Some f => n = 1 /\ db_files d' = <[id := g f]> (db_files d)
  end.
Proof.
  intros Hg [[Hid Hu] Hr]. unfold update_file. destruct (db_files d !! id) as [f|] eqn:Ef.
  2:{ by intros [= <- <-]. }
  pose proof (Hid _ _ Ef) as Hfid.
  destruct (unique_ok (db_files d) (g f)) eqn:Eu; [|done]. destruct (references_ok d (g f)) eqn:Er; [|done].
  intros [= <- <-]. rewrite unique_ok_spec, Hg, Hfid in Eu. split; [|done]. split; [split|]; simpl.
  - intros k h. rewrite lookup_insert_Some. intros [[<- <-]|[_ Hh]]; [by rewrite Hg|eauto].
  - intros i j a b. rewrite !lookup_insert_Some. intros [[<- <-]|[Hi Ha]] [[<- <-]|[Hj Hb]] Hc; [done| | |eauto].
    + by rewrite (Eu _ _ Hb Hc).
    + rewrite clashes_sym in Hc. by rewrite (Eu _ _ Ha Hc).
  - intros Hfk. specialize (Hr Hfk). unfold references_ok in Er. rewrite Hfk in Er. simpl in Er.
    apply andb_true_iff in Er as [Eu' Ep]. apply bool_decide_eq_true in Eu'.
    assert (forall p, is_Some (db_files d !! p) -> is_Some (<[id := g f]> (db_files d) !! p)) as Hmono.
    { intros p Hp. destruct (decide (p = id)) as [->|]; [by rewrite lookup_insert_eq|by rewrite lookup_insert_ne]. }
    intros k h. simpl. rewrite lookup_insert_Some. intros [[<- <-]|[Hne Hh]].
    + split; [done|]. intros p Hp. unfold parent_ok in Ep. rewrite Hp in Ep. apply bool_decide_eq_true in Ep. auto.
    + destruct (Hr _ _ Hh) as [? Hp]. split; [done|]. auto.
Qed.

(** *** The cascade is closed *)

Lemma cascade_step_mono files s : s ⊆ cascade_step files s.
Proof. unfold cascade_step. set_solver. Qed.

Lemma cascade_step_dom files s : s ⊆ dom files -> cascade_step files s ⊆ dom files.
Proof. intros Hs. unfold cascade_step. pose proof (dom_filter_subseteq (parent_in s) files). set_solver. Qed.

Lemma cascade_iter files s n : s ⊆ dom files -> s <> ∅ ->
  let t := Nat.iter n (cascade_step files) s in
  s ⊆ t /\ t ⊆ dom files /\ (cascade_step files t ≡ t \/ (n < size t)%nat).
Proof.
  intros Hs Hne. induction n as [|n (IH1 & IH2 & IH3)].
  - simpl. split_and!; [done|done|]. right. assert (size s <> 0%nat); [|lia].
    intros E. apply size_empty_inv in E. by apply Hne, leibniz_equiv.
  - rewrite Nat.iter_succ. set (t := Nat.iter n (cascade_step files) s) in *. simpl.
    pose proof (cascade_step_mono files t) as Hm. split_and!; [set_solver|by apply cascade_step_dom|].
    destruct IH3 as [Hfix|Hlt].
    + left. assert (cascade_step files t = t) as -> by by apply leibniz_equiv. done.
    + destruct (decide (cascade_step files t ⊆ t)) as [Hsub|Hsub].
      * left. assert (cascade_step files t = t) as Heq by (apply leibniz_equiv; set_solver). by rewrite !Heq.
      * right. assert (t ⊂ cascade_step files t) as Hss by (split; done).
        apply subset_size in Hss. lia.
Qed.

Lemma cascade_closed files id : is_Some (files !! id) ->
  id ∈ cascade files id /\ cascade files id ⊆ dom files /\
  forall k f p, files !! k = Some f -> f_ParentID f = Some p -> p ∈ cascade files id -> k ∈ cascade files id.
Proof.
  intros Hid. apply elem_of_dom in Hid.
  destruct (cascade_iter files {[id]} (size files)) as (H1 & H2 & H3); [set_solver|set_solver|].
  fold (cascade files id) in *. split_and!; [set_solver|done|].
  destruct H3 as [Hfix|Hlt].
  - intros k f p Hk Hp Hin. apply Hfix. unfold cascade_step. apply elem_of_union. right.
    apply elem_of_dom. exists f. apply map_lookup_filter_Some. split; [done|]. unfold parent_in. simpl. by rewrite Hp.
  - apply subseteq_size in H2. rewrite size_dom in H2. lia.
Qed.

Lemma delete_file_ok id d n d' : tables_ok d -> delete_file id d = inr (n, d') ->
  tables_ok d' /\ db_files d' ⊆ db_files d /\
  match db_files d !! id with
  | None => n = 0 /\ d' = d
  | Some _ => n = 1 /\ db_files d' !! id = None
  end.
Proof.
  intros [[Hid Hu] Hr]. unfold delete_file. destruct (db_files d !! id) as [f|] eqn:Ef.
  2:{ by intros [= <- <-]. }
  intros E. injection E as <- Hd'. destruct (cascade_closed (db_files d) id) as (Hin & _ & Hcl); [by rewrite Ef|].
  set (gone := if db_fk d then cascade (db_files d) id else {[id]}) in *.
  assert (db_files d' = filter (fun kv => kv.1 ∉ gone) (db_files d)) as Hfiles by (rewrite <-Hd'; by destruct (db_fk d)).
  assert (db_fk d' = db_fk d /\ db_users d' = db_users d) as [Hfk' Husers]
    by (rewrite <-Hd'; destruct (db_fk d) eqn:Ek; simpl; split; done).
  clear Hd'.
  assert (forall k g, db_files d' !! k = Some g -> db_files d !! k = Some g /\ k ∉ gone) as Hlook.
  { intros k g. rewrite Hfiles. by rewrite map_lookup_filter_Some. }
  split_and!; [split; [split|]| |done|].
  - intros k g Hk. apply Hlook in Hk as [? _]. eauto.
  - intros i j a b Ha Hb. apply Hlook in Ha as [? _], Hb as [? _]. eauto.
  - rewrite Hfk'. intros Hfk. specialize (Hr Hfk). intros k g [Hk Hng]%Hlook. destruct (Hr _ _ Hk) as [Hus Hp].
    rewrite Husers. split; [done|]. intros p Hpp. destruct (Hp p Hpp) as [q Hq]. exists q.
    rewrite Hfiles. apply map_lookup_filter_Some. split; [done|]. simpl. unfold gone in *. rewrite Hfk in *.
    intros Hgp. apply Hng. by apply (Hcl k g p).
  - rewrite Hfiles. apply map_filter_subseteq.
  - rewrite Hfiles. apply map_lookup_filter_None. right. intros x _. simpl. intros Hn. apply Hn.
    unfold gone. destruct (db_fk d); [done|set_solver].
Qed.

(** *** Statements under the driver *)

Lemma tables_ok_faults l d : tables_ok (with_faults l d) <-> tables_ok d.
Proof. done. Qed.

(** A predicate of the tables that faults and the clock do not touch. *)
Lemma sql_query_hoare {A} (I : DB -> Prop) (q : DB -> A) :
  (forall l d, I d -> I (with_faults l d)) ->
  hoare I (sql_query q) (fun a d => I d /\ exists d0, I d0 /\ a = q d0) I.
Proof.
  intros HI d Hd. unfold sql_query. destruct (next_fault (db_faults d)) as [[] l]; [by apply HI|].
  split; [by apply HI|]. exists (with_faults l d). auto.
Qed.

Lemma sql_exec_hoare (I : DB -> Prop) x :
  (forall l d, I d -> I (with_faults l d)) -> (forall d n d', I d -> x d = inr (n, d') -> I d') ->
  hoare I (sql_exec x) (fun _ => I) I.
Proof.
  intros HI Hx d Hd. unfold sql_exec. destruct (next_fault (db_faults d)) as [[] l]; [by apply HI|].
  destruct (x (with_faults l d)) as [e|[n d']] eqn:E; [by apply HI|]. eauto.
Qed.

Lemma affected_hoare (I : DB -> Prop) msg rows : hoare I (affected msg rows) (fun _ => I) I.
Proof. unfold affected. destruct (rows =? 0); [by apply hoare_fail|by apply hoare_ret]. Qed.

Section Invariance.
Context (I : DB -> Prop) (HI : forall l d, I d -> I (with_faults l d)).

Lemma query_keeps {A} (q : DB -> A) : hoare I (sql_query q) (fun _ => I) I.
Proof. eapply hoare_conseq; [by apply sql_query_hoare|done|by intros ? ? [? _]|done]. Qed.

Lemma scan_row_keeps {A} a b (q : DB -> option A) : hoare I (scan_row a b q) (fun _ => I) I.
Proof.
  unfold scan_row. eapply hoare_bind; [apply hoare_attempt, query_keeps|].
  intros [[x|]|e]; [by apply hoare_ret|by apply hoare_fail..].
Qed.

Lemma exec_affected_keeps msg msg' x : (forall d n d', I d -> x d = inr (n, d') -> I d') ->
  hoare I (rows ← wrap msg (sql_exec x); affected msg' rows) (fun _ => I) I.
Proof.
  intros Hx. eapply hoare_bind; [by apply hoare_wrap, sql_exec_hoare|]. intros n. apply affected_hoare.
Qed.

Lemma get_w_keeps {A} (k : DB -> GoM DB A) Q :
  (forall d, hoare I (k d) Q I) -> hoare I (d ← get_w; k d) Q I.
Proof. intros Hk d Hd. rewrite bind_get. by apply Hk. Qed.
End Invariance.

Definition keeps (m : DB -> Prop) {A} (c : GoM DB A) : Prop := hoare m c (fun _ => m) m.

Lemma set_updated_foldl_ID t us f : f_ID (set_updated t (foldl (fun f u => apply_update u f) f us)) = f_ID f.
Proof. simpl. revert f. induction us as [|u us IH]; intros f; simpl; [done|]. rewrite IH. by destruct u. Qed.

(** Every operation on the files table keeps the constraints. *)
Lemma files_ops_keep_tables :
  (forall f, keeps tables_ok (CreateFile f)) /\
  (forall id us, keeps tables_ok (UpdateFile id us)) /\
  (forall id p n, keeps tables_ok (MoveFile id p n)) /\
  (forall id, keeps tables_ok (SoftDelete id)) /\
  (forall id, keeps tables_ok (RestoreFromTrash id)) /\
  (forall id, keeps tables_ok (PermanentDelete id)).
Proof.
  assert (forall l d, tables_ok d -> tables_ok (with_faults l d)) as HI by done.
  assert (forall id g, (forall f, f_ID (g f) = f_ID f) -> forall d n d', tables_ok d -> update_file id g d = inr (n, d') -> tables_ok d')
    as Hup by (intros id g Hg d n d' Hd E; by apply (update_file_ok id g d n d' Hg) in E as [? _]).
  unfold keeps. split_and!.
  - intros f. unfold CreateFile. eapply hoare_bind.
    + apply hoare_attempt, sql_exec_hoare; [done|]. intros d n d' Hd E. by apply insert_file_ok in E as [? _].
    + intros [n|e]; [by apply hoare_ret|]. destruct (is_unique_failed e); by apply hoare_fail.
  - intros id us. unfold UpdateFile. destruct us as [|u us]; [by apply hoare_ret|].
    destruct (invalid_field (u :: us)); [by apply hoare_fail|]. apply get_w_keeps. intros d0.
    apply exec_affected_keeps; [done|]. apply Hup. intros f. apply (set_updated_foldl_ID _ (u :: us)).
  - intros id p n. unfold MoveFile. apply get_w_keeps. intros d0.
    eapply hoare_bind; [apply hoare_attempt, sql_exec_hoare; [done|by apply Hup]|].
    intros [rows|e]; [apply affected_hoare|]. destruct (is_unique_failed e); by apply hoare_fail.
  - intros id. apply get_w_keeps. intros d0. by apply exec_affected_keeps; [|apply Hup].
  - intros id. apply get_w_keeps. intros d0. by apply exec_affected_keeps; [|apply Hup].
  - intros id. apply exec_affected_keeps; [done|]. intros d n d' Hd E. by apply delete_file_ok in E as [? _].
Qed.

Lemma CreateFile_preserves f : preserves tables_ok (CreateFile f).
Proof. apply preserves_hoare, files_ops_keep_tables. Qed.
Lemma UpdateFile_preserves id us : preserves tables_ok (UpdateFile id us).
Proof. apply preserves_hoare, files_ops_keep_tables. Qed.
Lemma MoveFile_preserves id p n : preserves tables_ok (MoveFile id p n).
Proof. apply preserves_hoare, files_ops_keep_tables. Qed.
Lemma SoftDelete_preserves id : preserves tables_ok (SoftDelete id).
Proof. apply preserves_hoare, files_ops_keep_tables. Qed.
Lemma RestoreFromTrash_preserves id : preserves tables_ok (RestoreFromTrash id).
Proof. apply preserves_hoare, files_ops_keep_tables. Qed.
Lemma PermanentDelete_preserves id : preserves tables_ok (PermanentDelete id).
Proof. apply preserves_hoare, files_ops_keep_tables. Qed.
Lemma sql_query_preserves {A} (q : DB -> A) : preserves tables_ok (sql_query q).
Proof. by apply preserves_hoare, query_keeps. Qed.
Lemma scan_row_preserves {A} a b (q : DB -> option A) : preserves tables_ok (scan_row a b q).
Proof. by apply preserves_hoare, scan_row_keeps. Qed.

#[export] Hint Resolve CreateFile_preserves UpdateFile_preserves MoveFile_preserves SoftDelete_preserves
  RestoreFromTrash_preserves PermanentDelete_preserves sql_query_preserves scan_row_preserves : preserves.

(** No statement panics. *)
Lemma sql_query_safe {A} (q : DB -> A) : safe (sql_query q).
Proof. intros d. unfold sql_query. by destruct (next_fault _) as [[] l]. Qed.
Lemma sql_exec_safe x : safe (sql_exec x).
Proof. intros d. unfold sql_exec. destruct (next_fault _) as [[] l]; [done|]. by destruct (x _) as [|[]]. Qed.
Lemma affected_safe msg n : safe (affected msg n).
Proof. intros d. unfold affected. by destruct (n =? 0). Qed.

#[export] Hint Resolve sql_query_safe sql_exec_safe affected_safe : safe.

Lemma scan_row_safe {A} a b (q : DB -> option A) : safe (scan_row a b q).
Proof. unfold scan_row. safety. Qed.
Lemma CreateFile_safe f : safe (CreateFile f).
Proof. unfold CreateFile. safety. Qed.
Lemma UpdateFile_safe id us : safe (UpdateFile id us).
Proof. unfold UpdateFile. safety. Qed.
Lemma SoftDelete_safe id : safe (SoftDelete id).
Proof. unfold SoftDelete. safety. Qed.
Lemma CreateManifest_safe m : safe (CreateManifest m).
Proof. unfold CreateManifest. safety. Qed.
Lemma CreateChunk_safe c : safe (CreateChunk c).
Proof. unfold CreateChunk. safety. Qed.
Lemma ChunkExists_safe h : safe (ChunkExists h).
Proof. unfold ChunkExists. safety. Qed.
Lemma IncrementRefCount_safe h : safe (IncrementRefCount h).
Proof. unfold IncrementRefCount. safety. Qed.

#[export] Hint Resolve scan_row_safe CreateFile_safe UpdateFile_safe SoftDelete_safe CreateManifest_safe CreateChunk_safe
  ChunkExists_safe IncrementRefCount_safe : safe.

Lemma insert_manifest_tables m d n d' : tables_ok d -> insert_manifest m d = inr (n, d') -> tables_ok d'.
Proof. unfold insert_manifest. intros Hd E. by repeat case_match; simplify_eq. Qed.
