(* ===== verification/Vfs.v ===== *)
(** * The virtual file system (internal/vfs: vfs.go, trash.go, versioning.go)

    Folders and files over the database; recursion over the folder tree takes a
    bound.  Identifiers are drawn from the random source of the database state. *)

From S2P Require Import Prelude GoStrings GoCrypto Database Merkle.

(** ** Helpers *)

(** [isValidName]: bytes of multi-byte characters are above 127, so the loop over
    runes rejects the same names as one over bytes. *)
Fixpoint valid_chars (name : string) : bool :=
  match name with
  | "" => true
  | String c name =>
      if bool_decide (c = slash) || (N_of_ascii c <? 32)%N then false else valid_chars name
  end%string.

Definition isValidName (name : string) : bool :=
  if bool_decide (name = "") then false
  else if bool_decide (name = ".") || bool_decide (name = "..") then false
  else valid_chars name.

Definition generateID (prefix : string) : GoM DB string := fun d =>
  match rand_read 8 (db_rand d) with
  | (Ok b, r) => (Ok (prefix +:+ "_" +:+ hex_encode b)%string, with_rand r d)
  | (_, r) => (Ok (prefix +:+ "_" +:+ pretty (db_now d * 1000000000))%string, with_rand r d)
  end.

Definition joinPath (parts : list string) : string := join_char slash parts.

(** [if err == nil { return e }] around a lookup. *)
Definition must_be_absent {A} (m : GoM DB A) (e : error) : GoM DB unit :=
  r ← attempt m;
  match r with inl _ => fail e | inr _ => mret tt end.

(** [""] is the root. *)
Definition parent_pointer (parentID : string) : option string :=
  if bool_decide (parentID = "") then None else Some parentID.

(** ** Operations *)

Definition CreateFolder (userID parentID name : string) : GoM DB File :=
  if negb (isValidName name) then fail ErrInvalidName
  else
    must_be_absent (GetFileByPath userID (Some parentID) name) ErrAlreadyExists;;
    d ← get_w;
    id ← generateID "folder";
    let folder := mkFileRow id userID (parent_pointer parentID) name "folder" 0 "" None None false [] false None 0
                    (db_now d) (db_now d) in
    wrap "failed to create folder" (CreateFile folder);;
    mret folder.

Definition VFS_CreateFile (userID parentID name mimeType : string) (size : Z) : GoM DB File :=
  if negb (isValidName name) then fail ErrInvalidName
  else
    must_be_absent (GetFileByPath userID (Some parentID) name) ErrAlreadyExists;;
    d ← get_w;
    id ← generateID "file";
    let file := mkFileRow id userID (parent_pointer parentID) name "file" size mimeType None None false [] false None 1
                  (db_now d) (db_now d) in
    wrap "failed to create file" (CreateFile file);;
    mret file.

Definition GetFile (fileID : string) : GoM DB File := instead ErrNotFound (GetFileByID fileID).

Definition VFS_GetFileByPath (userID parentID name : string) : GoM DB File :=
  instead ErrNotFound (GetFileByPath userID (Some parentID) name).

Definition VFS_ListDirectory (userID parentID : string) (opts : ListOpts) : GoM DB (list File) :=
  wrap "failed to list directory" (ListDirectory userID (Some parentID) opts).

Definition Rename (fileID newName : string) : GoM DB unit :=
  if negb (isValidName newName) then fail ErrInvalidName
  else wrap "failed to rename" (UpdateFile fileID [U_name newName]).

Definition Move (fileID newParentID newName : string) : GoM DB unit :=
  if negb (bool_decide (newName = "")) && negb (isValidName newName) then fail ErrInvalidName
  else
    newName ← (if bool_decide (newName = "") then
                 file ← instead ErrNotFound (GetFileByID fileID); mret (f_Name file)
               else mret newName);
    wrap "failed to move" (MoveFile fileID newParentID newName).

Definition VFS_Delete (fileID : string) : GoM DB unit := wrap "failed to delete" (SoftDelete fileID).
Definition DeletePermanent (fileID : string) : GoM DB unit :=
  wrap "failed to permanently delete" (PermanentDelete fileID).
Definition Restore (fileID : string) : GoM DB unit := wrap "failed to restore" (RestoreFromTrash fileID).
Definition VFS_ListTrash (userID : string) (limit offset : Z) : GoM DB (list File) :=
  wrap "failed to list trash" (ListTrash userID limit offset).
Definition VFS_CountTrash (userID : string) : GoM DB Z := wrap "failed to count trash" (CountTrash userID).

Definition hashOf `{HashFn} (s : string) : string := sha256_hex (bytes_of s).

(** [walkDir]: the entries below a folder, with their paths. *)
Fixpoint walkDir `{HashFn} (fuel : nat) (userID : string) (parentID : option string) (prefix : string)
    (result : list FileInfo) : GoM DB (list FileInfo) :=
  match fuel with
  | O => out_of_fuel
  | S fuel =>
      entries ← wrap "list directory" (ListDirectory userID parentID (mkOpts 0 10000));
      (fix loop (entries : list File) (result : list FileInfo) : GoM DB (list FileInfo) :=
         match entries with
         | [] => mret result
         | entry :: entries =>
             let path := (prefix +:+ f_Name entry)%string in
             if bool_decide (f_Type entry = "folder") then
               let result := result ++ [mkFile path false 0 (f_UpdatedAt entry) (hashOf path)] in
               result ← walkDir fuel userID (Some (f_ID entry)) (path +:+ "/")%string result;
               loop entries result
             else
               let checksum := default ""%string (f_Checksum entry) in
               loop entries (result ++ [mkFile path true (f_SizeBytes entry) (f_UpdatedAt entry) checksum])
         end) entries result
  end.

Definition ListAllFiles `{HashFn} (fuel : nat) (userID : string) : GoM DB (list FileInfo) :=
  wrap "failed to list all files" (walkDir fuel userID None "/" []).

(** The loop up the parents: names found are put in front of [parts]. *)
Fixpoint climb (fuel : nat) (currentID : option string) (parts : list string) : GoM DB (list string) :=
  match fuel with
  | O => out_of_fuel
  | S fuel =>
      match parent_key currentID with
      | None => mret parts
      | Some id =>
          r ← attempt (GetFileByID id);
          match r with
          | inr _ => mret parts
          | inl parent => climb fuel (f_ParentID parent) (f_Name parent :: parts)
          end
      end
  end.

Definition GetFolderPath (fuel : nat) (folderID : string) : GoM DB string :=
  if bool_decide (folderID = "") then mret "/"%string
  else
    folder ← instead ErrNotFound (GetFileByID folderID);
    if negb (bool_decide (f_Type folder = "folder")) then fail ErrIsFile
    else
      parts ← climb fuel (f_ParentID folder) [f_Name folder];
      mret ("/" +:+ joinPath parts)%string.

Record Breadcrumb := mkCrumb { b_ID : string; b_Name : string }.

Fixpoint crumb_loop (fuel : nat) (currentID : option string) (crumbs : list Breadcrumb) : GoM DB (list Breadcrumb) :=
  match fuel with
  | O => out_of_fuel
  | S fuel =>
      match parent_key currentID with
      | None => mret crumbs
      | Some id =>
          r ← attempt (GetFileByID id);
          match r with
          | inr _ => mret crumbs
          | inl folder => crumb_loop fuel (f_ParentID folder) (mkCrumb (f_ID folder) (f_Name folder) :: crumbs)
          end
      end
  end.

Definition GetBreadcrumbs (fuel : nat) (folderID : string) : GoM DB (list Breadcrumb) :=
  crumbs ← crumb_loop fuel (Some folderID) [];
  mret (mkCrumb "" "root" :: crumbs).

(** A copy of a row under a new identifier, parent and name. *)
Definition copy_row (id userID : string) (parent : option string) (name : string) (version now : Z) (src : File) : File :=
  mkFileRow id userID parent name (f_Type src) (f_SizeBytes src) (f_MimeType src) (f_ManifestID src) (f_Checksum src)
    (f_IsEncrypted src) (f_EncryptedKey src) false None version now now.

Fixpoint copyFolderContents (fuel : nat) (userID sourceFolderID destFolderID : string) : GoM DB unit :=
  match fuel with
  | O => out_of_fuel
  | S fuel =>
      items ← ListDirectory userID (Some sourceFolderID) (mkOpts 0 1000);
      forM items (fun item =>
        d ← get_w;
        id ← generateID (f_Type item);
        let copyItem := copy_row id userID (Some destFolderID) (f_Name item) (f_Version item) (db_now d) item in
        wrap ("failed to copy item " +:+ f_Name item) (CreateFile copyItem);;
        if bool_decide (f_Type item = "folder") then copyFolderContents fuel userID (f_ID item) id
        else mret tt)
  end.

Definition Copy (fuel : nat) (userID fileID newParentID newName : string) : GoM DB unit :=
  source ← instead ErrNotFound (GetFileByID fileID);
  if negb (bool_decide (f_UserID source = userID)) then fail ErrPermissionDenied
  else
    let newName := if bool_decide (newName = "") then f_Name source else newName in
    if negb (isValidName newName) then fail ErrInvalidName
    else
      must_be_absent (GetFileByPath userID (Some newParentID) newName) ErrAlreadyExists;;
      d ← get_w;
      id ← generateID (f_Type source);
      let copyFile := copy_row id userID (parent_pointer newParentID) newName 1 (db_now d) source in
      wrap "failed to create copy" (CreateFile copyFile);;
      if bool_decide (f_Type source = "folder")
      then wrap "failed to copy folder contents" (copyFolderContents fuel userID fileID id)
      else mret tt.

(** *** trash.go *)

Definition Trash_Empty (userID : string) : GoM DB unit :=
  items ← VFS_ListTrash userID 0 0;
  forM items (fun item => ignore (DeletePermanent (f_ID item))).

Definition expired (cutoff : Z) (f : File) : Prop :=
  match f_TrashedAt f with Some t => f_IsTrashed f = true /\ t < cutoff | None => False end.

#[export] Instance expired_dec c f : Decision (expired c f).
Proof. unfold expired. destruct (f_TrashedAt f); apply _. Defined.

(** Retention in days; instants are seconds. *)
Definition CleanupExpired (retentionDays : Z) : GoM DB unit :=
  d ← get_w;
  let cutoff := db_now d - retentionDays * 24 * 3600 in
  ids ← sql_query (fun d => f_ID <$> filter (expired cutoff) (rows (db_files d)));
  forM ids (fun id => ignore (DeletePermanent id)).

(** *** versioning.go *)

Record FileVersion := mkVersion {
  v_ID : string; v_FileID : string; v_Version : Z; v_SizeBytes : Z; v_CreatedAt : Z; v_CreatedBy : string; v_Comment : string
}.

Definition generateVersionID (fileID : string) (version : Z) : string := (fileID +:+ "_v" +:+ pretty version)%string.

Definition CreateVersion (fileID userID : string) (sizeBytes : Z) (comment : string) : GoM DB FileVersion :=
  file ← instead ErrNotFound (GetFileByID fileID);
  let newVersion := f_Version file + 1 in
  wrap "failed to update file version" (UpdateFile fileID [U_version newVersion; U_other "updated_at"]);;
  d ← get_w;
  mret (mkVersion (generateVersionID fileID newVersion) fileID newVersion sizeBytes (db_now d) userID comment).

Definition GetCurrentVersion (fileID : string) : GoM DB Z :=
  file ← instead ErrNotFound (GetFileByID fileID); mret (f_Version file).

Definition IncrementVersion (fileID : string) : GoM DB Z :=
  file ← instead ErrNotFound (GetFileByID fileID);
  let newVersion := f_Version file + 1 in
  UpdateFile fileID [U_version newVersion];;
  mret newVersion.

Definition ResetVersion (fileID : string) : GoM DB unit := UpdateFile fileID [U_version 1].

(** ** Lemmas *)

(** *** A driver that does not fail *)

Definition quiet (d : DB) : Prop := db_faults d = [].

Lemma quiet_faults d : quiet d -> with_faults [] d = d.
Proof. destruct d. by intros [= ->]. Qed.

Lemma query_quiet {A} (q : DB -> A) d : quiet d -> sql_query q d = (Ok (q d), d).
Proof. intros Hd. unfold sql_query. rewrite Hd. simpl. by rewrite quiet_faults. Qed.

Lemma exec_quiet x d : quiet d ->
  sql_exec x d = match x d with inl e => (Err e, d) | inr (n, d') => (Ok n, d') end.
Proof. intros Hd. unfold sql_exec. rewrite Hd. simpl. by rewrite quiet_faults. Qed.

Lemma scan_row_quiet {A} a b (q : DB -> option A) d : quiet d ->
  scan_row a b q d = match q d with Some x => (Ok x, d) | None => (Err (Errorf a), d) end.
Proof.
  intros Hd. unfold scan_row, attempt, mbind, GoM_bind. rewrite query_quiet by done. by destruct (q d).
Qed.

Lemma exec_affected_quiet msg msg' x d : quiet d ->
  (rows ← wrap msg (sql_exec x); affected msg' rows) d =
  match x d with
  | inl e => (Err (Wrapf msg e), d)
  | inr (n, d') => if n =? 0 then (Err (Errorf msg'), d') else (Ok tt, d')
  end.
Proof.
  intros Hd. unfold wrap, mbind, GoM_bind. rewrite exec_quiet by done. destruct (x d) as [e|[n d']]; [done|].
  unfold affected. by destruct (n =? 0).
Qed.

Lemma exec_affected_ok msg msg' x d d' : quiet d -> x d = inr (1, d') ->
  (rows ← wrap msg (sql_exec x); affected msg' rows) d = (Ok tt, d').
Proof. intros Hd E. by rewrite exec_affected_quiet, E. Qed.

Lemma GetFileByID_quiet id d : quiet d ->
  GetFileByID id d = match db_files d !! id with Some f => (Ok f, d) | None => (Err (Errorf "file not found"), d) end.
Proof. intros Hd. unfold GetFileByID. by rewrite scan_row_quiet. Qed.

(** *** The chain of parents *)

(** The names of the folders from the root down to [p]: the chain ends at the
    root or at a row that is gone. *)
Inductive ancestry (d : DB) : option string -> list string -> Prop :=
  | ancestry_root p : parent_key p = None -> ancestry d p []
  | ancestry_gone p id : parent_key p = Some id -> db_files d !! id = None -> ancestry d p []
  | ancestry_up p id f names : parent_key p = Some id -> db_files d !! id = Some f ->
      ancestry d (f_ParentID f) names -> ancestry d p (names ++ [f_Name f]).

(** The chain of parents from [p] upwards meets [id]. *)
Inductive below (d : DB) (id : string) : option string -> Prop :=
  | below_here p : parent_key p = Some id -> below d id p
  | below_up p k f : parent_key p = Some k -> db_files d !! k = Some f ->
      below d id (f_ParentID f) -> below d id p.

Lemma climb_S fuel p parts d : quiet d ->
  climb (S fuel) p parts d =
  match parent_key p with
  | None => (Ok parts, d)
  | Some id =>
      match db_files d !! id with
      | None => (Ok parts, d)
      | Some f => climb fuel (f_ParentID f) (f_Name f :: parts) d
      end
  end.
Proof.
  intros Hd. simpl. destruct (parent_key p) as [id|]; [|done]. unfold attempt, mbind, GoM_bind.
  rewrite GetFileByID_quiet by done. by destruct (db_files d !! id).
Qed.

Lemma climb_ancestry d p names : quiet d -> ancestry d p names ->
  forall fuel parts, (length names < fuel)%nat -> climb fuel p parts d = (Ok (names ++ parts), d).
Proof.
  intros Hd. induction 1 as [p Hp|p id Hp Hid|p id f names Hp Hid _ IH]; intros [|fuel] parts Hf; try (simpl in Hf; lia);
    rewrite climb_S, Hp by done; rewrite ?Hid; [done|done|].
  rewrite length_app in Hf. simpl in Hf. rewrite IH by lia. by rewrite <-app_assoc.
Qed.

Lemma climb_inv d : quiet d -> forall fuel p parts r d', climb fuel p parts d = (r, d') ->
  d' = d /\ (r = OutOfFuel \/ exists names, ancestry d p names /\ r = Ok (names ++ parts)).
Proof.
  intros Hd. induction fuel as [|fuel IH]; intros p parts r d'; [intros [= <- <-]; auto|].
  rewrite climb_S by done. destruct (parent_key p) as [id|] eqn:Hp.
  2:{ intros [= <- <-]. split; [done|]. right. exists []. by split; [constructor|]. }
  destruct (db_files d !! id) as [f|] eqn:Hf.
  2:{ intros [= <- <-]. split; [done|]. right. exists []. by split; [econstructor 2|]. }
  intros E. apply IH in E as [-> [->|(names & Ha & ->)]]; [auto|]. split; [done|]. right.
  exists (names ++ [f_Name f]). split; [by econstructor 3|]. by rewrite <-app_assoc.
Qed.

Lemma below_ancestry d id p names : below d id p -> ancestry d p names ->
  exists names', ancestry d (Some id) names' /\ (length names' <= length names)%nat.
Proof.
  intros Hb. revert names. induction Hb as [p Hp|p k f Hp Hk Hb IH]; intros names Ha.
  - exists names. split; [|done]. assert (parent_key (Some id) = parent_key p) as Hk.
    { destruct p as [q|]; [|done]. simpl in *. case_bool_decide; [done|]. injection Hp as ->. by rewrite bool_decide_eq_false_2. }
    inversion Ha as [? E|? ? E ?|? ? ? ? E ? ?]; subst; rewrite <-Hk in E;
      [by constructor|by econstructor 2|by econstructor 3].
  - inversion Ha as [? E|? ? E ?|? ? g ns E Hg Hns]; subst; try congruence.
    assert (g = f) as -> by congruence. apply IH in Hns as (n' & ? & ?). exists n'. split; [done|].
    rewrite length_app. simpl. lia.
Qed.

(** A row below itself has no path. *)
Lemma cycle_no_ancestry d id f : id <> ""%string -> db_files d !! id = Some f -> below d id (f_ParentID f) ->
  forall names, ~ ancestry d (f_ParentID f) names.
Proof.
  intros Hne Hid Hb names. remember (length names) as n eqn:Hn. revert names Hn.
  induction (lt_wf n) as [n _ IH]. intros names -> Ha.
  destruct (below_ancestry _ _ _ _ Hb Ha) as (ns & Hns & Hle).
  inversion Hns as [? E|? ? E ?|? ? g ns' E Hg Hns']; subst; simpl in E; rewrite bool_decide_eq_false_2 in E by done;
    try congruence. injection E as <-. assert (g = f) as -> by congruence.
  rewrite length_app in Hle. simpl in Hle. eapply (IH (length ns')); [lia|done|done].
Qed.

Lemma below_insert d id g p : below d id p -> forall d', db_files d' = <[id := g]> (db_files d) -> below d' id p.
Proof.
  induction 1 as [p Hp|p k f Hp Hk _ IH]; intros d' Hd'; [by constructor|].
  destruct (decide (k = id)) as [->|Hne]; [by constructor|].
  eapply below_up; [done| |by apply IH]. by rewrite Hd', lookup_insert_ne.
Qed.

Lemma crumb_loop_climb fuel p crumbs d :
  (cs ← crumb_loop fuel p crumbs; mret (b_Name <$> cs)) d = climb fuel p (b_Name <$> crumbs) d.
Proof.
  revert p crumbs d. induction fuel as [|fuel IH]; intros p crumbs d; [done|]. simpl.
  destruct (parent_key p) as [id|]; [|done]. rewrite bind_assoc. apply bind_ext. intros [f|e] w; [|done].
  by rewrite IH.
Qed.

Lemma Move_inv id p newName d d' : tables_ok d -> quiet d -> p <> ""%string -> Move id p newName d = (Ok tt, d') ->
  quiet d' /\ exists f g, db_files d !! id = Some f /\ f_ParentID g = Some p /\ f_Type g = f_Type f /\
    db_files d' = <[id := g]> (db_files d).
Proof.
  intros Hok Hd Hp. unfold Move. case_match; [done|]. intros E. apply bind_ok_inv in E as (nm & d1 & E1 & E).
  assert (d1 = d) as ->.
  { case_bool_decide; [|by injection E1]. apply bind_ok_inv in E1 as (f & d2 & E1 & [= _ <-]).
    unfold instead in E1. rewrite GetFileByID_quiet in E1 by done. destruct (db_files d !! id); [by injection E1|done]. }
  unfold wrap, MoveFile in E. rewrite bind_get, bool_decide_eq_false_2 in E by done.
  unfold attempt, mbind, GoM_bind in E. rewrite exec_quiet in E by done.
  destruct (update_file _ _ d) as [e|[n d2]] eqn:Eu; [by destruct (is_unique_failed e)|].
  edestruct (update_file_ok id) as [_ Hf]; [|exact Hok|exact Eu|]; [done|].
  unfold affected in E. destruct (n =? 0) eqn:En; [done|]. injection E as <-. bool_to_prop.
  destruct (db_files d !! id) as [f|] eqn:Hid; [|lia]. destruct Hf as [_ Hf].
  split; [|exists f; eexists; split_and!; [done| | |exact Hf]; done].
  unfold update_file in Eu. rewrite Hid in Eu. repeat case_match; simplify_eq; try done.
Qed.

Lemma GetFolderPath_eq fuel d id f : quiet d -> id <> ""%string -> db_files d !! id = Some f -> f_Type f = "folder"%string ->
  GetFolderPath fuel id d = (parts ← climb fuel (f_ParentID f) [f_Name f]; mret ("/" +:+ joinPath parts)%string) d.
Proof.
  intros Hd Hne Hid Hty. unfold GetFolderPath. rewrite bool_decide_eq_false_2 by done.
  rewrite (bind_ok _ _ _ f d); [|unfold instead; by rewrite GetFileByID_quiet, Hid]. by rewrite Hty.
Qed.

(** Both upward walks run for ever from a row below itself. *)
Lemma cycle_diverges d id g : quiet d -> id <> ""%string -> db_files d !! id = Some g -> f_Type g = "folder"%string ->
  below d id (f_ParentID g) ->
  forall fuel, GetFolderPath fuel id d = (OutOfFuel, d) /\ GetBreadcrumbs fuel id d = (OutOfFuel, d).
Proof.
  intros Hd Hne Hg Hty Hb fuel. pose proof (cycle_no_ancestry _ _ _ Hne Hg Hb) as Hno. split.
  - rewrite (GetFolderPath_eq _ _ _ _ Hd Hne Hg Hty). unfold mbind, GoM_bind.
    destruct (climb fuel (f_ParentID g) [f_Name g] d) as [r d1] eqn:E.
    apply (climb_inv _ Hd) in E as [-> [->|(names & Ha & _)]]; [done|by apply Hno in Ha].
  - pose proof (crumb_loop_climb fuel (Some id) [] d) as Ec. unfold GetBreadcrumbs, mbind, GoM_bind in *.
    destruct (climb fuel (Some id) (b_Name <$> []) d) as [r' d2] eqn:E2.
    apply (climb_inv _ Hd) in E2 as [-> [->|(names & Ha & _)]].
    + by destruct (crumb_loop fuel (Some id) [] d) as [[] ?]; simplify_eq.
    + inversion Ha as [? F|? ? F ?|? ? h ns F Hh Hns]; subst; simpl in F; rewrite bool_decide_eq_false_2 in F by done;
        try congruence. injection F as <-. assert (h = g) as -> by congruence. by apply Hno in Hns.
Qed.

(** *** The constraints under every operation *)

Inductive vfs_op :=
  | OpCreateFolder (userID parentID name : string)
  | OpCreateFile (userID parentID name mimeType : string) (size : Z)
  | OpRename (fileID newName : string)
  | OpMove (fileID newParentID newName : string)
  | OpDelete (fileID : string)
  | OpDeletePermanent (fileID : string)
  | OpRestore (fileID : string)
  | OpCopy (fuel : nat) (userID fileID newParentID newName : string)
  | OpEmptyTrash (userID : string)
  | OpCleanupExpired (retentionDays : Z)
  | OpIncrementVersion (fileID : string)
  | OpResetVersion (fileID : string).

Definition run_op (o : vfs_op) : GoM DB unit :=
  match o with
  | OpCreateFolder u p n => _ ← CreateFolder u p n; mret tt
  | OpCreateFile u p n m s => _ ← VFS_CreateFile u p n m s; mret tt
  | OpRename f n => Rename f n
  | OpMove f p n => Move f p n
  | OpDelete f => VFS_Delete f
  | OpDeletePermanent f => DeletePermanent f
  | OpRestore f => Restore f
  | OpCopy k u f p n => Copy k u f p n
  | OpEmptyTrash u => Trash_Empty u
  | OpCleanupExpired r => CleanupExpired r
  | OpIncrementVersion f => _ ← IncrementVersion f; mret tt
  | OpResetVersion f => ResetVersion f
  end.

Lemma generateID_preserves p : preserves tables_ok (generateID p).
Proof. intros d Hd. unfold generateID. by destruct (rand_read 8 (db_rand d)) as [[]]. Qed.

#[export] Hint Resolve generateID_preserves : preserves.

Lemma copyFolderContents_preserves fuel u s t : preserves tables_ok (copyFolderContents fuel u s t).
Proof.
  revert s t. induction fuel as [|fuel IH]; intros s t; simpl; [apply preserves_ret|].
  unfold ListDirectory. preserve.
Qed.

#[export] Hint Resolve copyFolderContents_preserves : preserves.

Lemma run_op_preserves o : preserves tables_ok (run_op o).
Proof.
  destruct o; simpl; unfold CreateFolder, VFS_CreateFile, Rename, Move, VFS_Delete,
    DeletePermanent, Restore, Copy, Trash_Empty, VFS_ListTrash, ListTrash, CleanupExpired, IncrementVersion, ResetVersion,
    DeletePermanent, GetFileByID, must_be_absent, GetFileByPath; preserve.
Qed.

(** *** What file system operations leave alone

    They touch no chunk, and manifests disappear only with their file. *)

Definition frame (C : gmap string Chunk) (M : gmap string Manifest) (d : DB) : Prop :=
  db_chunks d = C /\ db_manifests d ⊆ M /\ quiet d.

Lemma frame_exec C M x :
  (forall d n d', x d = inr (n, d') -> db_chunks d' = db_chunks d /\ db_manifests d' ⊆ db_manifests d /\ db_faults d' = db_faults d) ->
  preserves (frame C M) (sql_exec x).
Proof.
  intros Hx d (HC & HM & Hq). rewrite exec_quiet by done. destruct (x d) as [e|[n d']] eqn:E; [done|].
  destruct (Hx _ _ _ E) as (H1 & H2 & H3). unfold frame, quiet in *. simpl. rewrite H1, H3. split_and!; [done| |done].
  by etrans.
Qed.

Lemma frame_query {A} C M (q : DB -> A) : preserves (frame C M) (sql_query q).
Proof. intros d (HC & HM & Hq). by rewrite query_quiet. Qed.

Lemma frame_scan {A} C M a b (q : DB -> option A) : preserves (frame C M) (scan_row a b q).
Proof. intros d (HC & HM & Hq). rewrite scan_row_quiet by done. by destruct (q d). Qed.

Lemma frame_update C M id g : preserves (frame C M) (sql_exec (update_file id g)).
Proof. apply frame_exec. unfold update_file. intros d n d' E. repeat case_match; simplify_eq; done. Qed.

Lemma frame_insert C M f : preserves (frame C M) (sql_exec (insert_file f)).
Proof. apply frame_exec. unfold insert_file. intros d n d' E. repeat case_match; simplify_eq; done. Qed.

Lemma frame_delete C M id : preserves (frame C M) (sql_exec (delete_file id)).
Proof.
  apply frame_exec. unfold delete_file. intros d n d' E. destruct (db_files d !! id); simplify_eq; [|done].
  destruct (db_fk d); simpl; split_and!; try done. apply map_filter_subseteq.
Qed.

Lemma frame_generateID C M p : preserves (frame C M) (generateID p).
Proof. intros d Hd. unfold generateID. by destruct (rand_read 8 (db_rand d)) as [[]]. Qed.

Lemma frame_affected C M msg n : preserves (frame C M) (affected msg n).
Proof. intros d Hd. unfold affected. by destruct (n =? 0). Qed.

#[local] Hint Resolve frame_query frame_scan frame_update frame_insert frame_delete frame_generateID frame_affected : preserves.

Lemma frame_CreateFile C M f : preserves (frame C M) (CreateFile f).
Proof. unfold CreateFile. preserve. Qed.
Lemma frame_UpdateFile C M id us : preserves (frame C M) (UpdateFile id us).
Proof. unfold UpdateFile. preserve. Qed.
Lemma frame_VFS_CreateFile C M u p n m sz : preserves (frame C M) (VFS_CreateFile u p n m sz).
Proof. unfold VFS_CreateFile, must_be_absent, GetFileByPath, CreateFile. preserve. Qed.
Lemma frame_VFS_Delete C M id : preserves (frame C M) (VFS_Delete id).
Proof. unfold VFS_Delete, SoftDelete. preserve. Qed.
Lemma frame_DeletePermanent C M id : preserves (frame C M) (DeletePermanent id).
Proof. unfold DeletePermanent, PermanentDelete. preserve. Qed.

#[local] Hint Resolve frame_CreateFile frame_UpdateFile frame_VFS_CreateFile frame_VFS_Delete frame_DeletePermanent : preserves.

Lemma frame_copy C M fuel u s t : preserves (frame C M) (copyFolderContents fuel u s t).
Proof.
  revert s t. induction fuel as [|fuel IH]; intros s t; simpl; [apply preserves_ret|]. unfold ListDirectory. preserve.
Qed.

#[local] Hint Resolve frame_copy : preserves.

Lemma frame_run_op C M o : preserves (frame C M) (run_op o).
Proof.
  destruct o; simpl; unfold CreateFolder, Rename, Move, MoveFile, Restore, RestoreFromTrash, Copy, Trash_Empty, VFS_ListTrash,
    ListTrash, CleanupExpired, IncrementVersion, ResetVersion, must_be_absent, GetFileByPath, GetFileByID; preserve.
Qed.

(** *** Creating a row *)

(** A row of the directory with this name that is not in the trash. *)
Definition live (u : string) (p : option string) (n : string) (d : DB) : Prop :=
  exists id f, db_files d !! id = Some f /\ at_path u p n f.

Lemma parent_pointer_key p : parent_key (Some p) = parent_pointer p.
Proof. done. Qed.

Lemma GetFileByPath_quiet u p n d : quiet d ->
  exists r, GetFileByPath u (Some p) n d = (r, d) /\
    match r with
    | Ok f => live u (parent_pointer p) n d /\ at_path u (parent_pointer p) n f /\ exists id, db_files d !! id = Some f
    | Err _ => ~ live u (parent_pointer p) n d
    | _ => False
    end.
Proof.
  intros Hd. unfold GetFileByPath. rewrite scan_row_quiet by done. rewrite parent_pointer_key.
  destruct (filter _ _) as [|f l] eqn:E; simpl; eexists; (split; [done|]); simpl.
  - intros (id & f & Hid & Hf). assert (f ∈ ([] : list File)) as Hin; [|by apply not_elem_of_nil in Hin].
    rewrite <-E. apply list_elem_of_filter. split; [done|]. apply elem_of_rows. eauto.
  - assert (f ∈ f :: l) as Hin by by left. rewrite <-E in Hin. apply list_elem_of_filter in Hin as [Hp Hin].
    apply elem_of_rows in Hin as [id Hid]. split_and!; [by exists id, f|done|eauto].
Qed.

Lemma generateID_ok p d : exists id r, generateID p d = (Ok id, with_rand r d).
Proof. unfold generateID. destruct (rand_read 8 (db_rand d)) as [[] r]; eauto. Qed.

Lemma CreateFile_quiet f d : f_TrashedAt f = None -> quiet d -> CreateFile f d =
  match insert_file f d with
  | inl e => (Err (if is_unique_failed e then Errorf "file already exists" else Wrapf "failed to create file" e), d)
  | inr (_, d') => (Ok tt, d')
  end.
Proof.
  intros Ht Hd. assert (set_trashed (f_IsTrashed f) None f = f) as E by (destruct f; simpl in *; by subst).
  unfold CreateFile, attempt, mbind, GoM_bind. rewrite exec_quiet, E by done.
  destruct (insert_file f d) as [e|[n d']]; [by destruct (is_unique_failed e)|done].
Qed.

Lemma insert_file_cases f d :
  match insert_file f d with
  | inl ErrUnique => is_Some (db_files d !! f_ID f) \/ exists id g, db_files d !! id = Some g /\ clashes f g = true
  | inl ErrForeignKey => db_fk d = true /\ (f_UserID f ∉ db_users d \/ exists p, f_ParentID f = Some p /\ db_files d !! p = None)
  | inl _ => False
  | inr (_, d') => d' = with_files (<[f_ID f := f]> (db_files d)) d /\ db_files d !! f_ID f = None /\
      unique_ok (db_files d) f = true
  end.
Proof.
  unfold insert_file. case_bool_decide as Hex; [by left|]. destruct (unique_ok (db_files d) f) eqn:Eu; simpl.
  - destruct (references_ok d f) eqn:Er; simpl; [split_and!; [done| |done]; by apply eq_None_not_Some|].
    unfold references_ok in Er. apply orb_false_iff in Er as [Hfk Er]. apply negb_false_iff in Hfk. split; [done|].
    apply andb_false_iff in Er as [Er|Er]; [left; by apply bool_decide_eq_false in Er|right].
    unfold parent_ok in Er. destruct (f_ParentID f) as [p|]; [|done]. exists p. split; [done|].
    apply bool_decide_eq_false in Er. by apply eq_None_not_Some.
  - right. unfold unique_ok in Eu. apply negb_false_iff, existsb_exists in Eu as (g & Hin & Hc).
    rewrite <-list_elem_of_In in Hin. apply elem_of_rows in Hin as [id Hid]. apply lookup_delete_Some in Hid as [_ Hid]. eauto.
Qed.

(** What creating an entry does, on every branch. *)
Definition create_outcome (u p n : string) (msg : string) (d : DB) (r : Res File) (d' : DB) : Prop :=
  match r with
  | Ok f => isValidName n = true /\ ~ live u (parent_pointer p) n d /\ db_files d !! f_ID f = None /\
      db_files d' = <[f_ID f := f]> (db_files d) /\ VFS_GetFileByPath u p n d' = (Ok f, d')
  | Err e => db_files d' = db_files d /\
      (e = ErrInvalidName /\ isValidName n = false \/
       isValidName n = true /\ e = ErrAlreadyExists /\ live u (parent_pointer p) n d \/
       isValidName n = true /\ ~ live u (parent_pointer p) n d /\
         (e = Wrapf msg (Errorf "file already exists") /\
            (exists id g, db_files d !! id = Some g /\
               (f_UserID g = u /\ f_ParentID g = Some p /\ f_Name g = n /\ f_IsTrashed g = true \/
                (exists pre b, id = pre +:+ "_" +:+ b)%string)) \/
          e = Wrapf msg (Wrapf "failed to create file" ErrForeignKey) /\ db_fk d = true /\
            (u ∉ db_users d \/ p <> ""%string /\ db_files d !! p = None)))
  | _ => False
  end.

Lemma lookup_unique_path u p n f d : quiet d -> at_path u (parent_pointer p) n f ->
  (forall id g, db_files d !! id = Some g -> at_path u (parent_pointer p) n g -> g = f) ->
  is_Some (db_files d !! f_ID f) -> db_files d !! f_ID f = Some f -> VFS_GetFileByPath u p n d = (Ok f, d).
Proof.
  intros Hd Hf Hu _ Hid. unfold VFS_GetFileByPath, instead.
  destruct (GetFileByPath_quiet u p n d Hd) as ([g|e|s|] & -> & Hr); try done.
  - destruct Hr as (_ & Hg & id & Hgid). by rewrite (Hu id g).
  - destruct Hr. by exists (f_ID f), f.
Qed.

Lemma create_branches u p n pre msg (mk : string -> DB -> File) d r d' :
  quiet d -> tables_ok d ->
  (forall id d, let f := mk id d in f_ID f = id /\ f_UserID f = u /\ f_ParentID f = parent_pointer p /\ f_Name f = n /\ f_IsTrashed f = false /\ f_TrashedAt f = None) ->
  (if negb (isValidName n) then fail ErrInvalidName
   else must_be_absent (GetFileByPath u (Some p) n) ErrAlreadyExists;;
        d ← get_w; id ← generateID pre; wrap msg (CreateFile (mk id d));; mret (mk id d)) d = (r, d') ->
  create_outcome u p n msg d r d'.
Proof.
  intros Hd Hok Hmk E. unfold create_outcome. destruct (isValidName n); simpl in E.
  2:{ injection E as <- <-. auto. }
  unfold must_be_absent in E. destruct (GetFileByPath_quiet u p n d Hd) as (r0 & E0 & Hr0).
  unfold attempt, mbind, GoM_bind in E. rewrite E0 in E. destruct r0 as [g|e|s|]; try done.
  { injection E as <- <-. split; [done|]. right. left. by destruct Hr0. }
  simpl in E. destruct (generateID_ok pre d) as (id & rr & Eid). rewrite Eid in E.
  destruct (Hmk id d) as (H1 & H2 & H3 & H4 & H5 & H6). set (f := mk id d) in *.
  unfold wrap in E. rewrite CreateFile_quiet in E by done.
  pose proof (insert_file_cases f (with_rand rr d)) as Hc. simpl in Hc.
  destruct (insert_file f (with_rand rr d)) as [e1|[k d1]].
  - destruct e1; try done; simpl in E; injection E as <- <-; (split; [done|]); right; right; (split; [done|]); (split; [done|]).
    + left. split; [done|]. destruct Hc as [[g Hg]|(j & g & Hj & Hcl)].
      * exists (f_ID f), g. split; [done|]. right. rewrite H1.
        unfold generateID in Eid. destruct (rand_read 8 (db_rand d)) as [[] ?]; injection Eid as <- _; eauto.
      * exists j, g. split; [done|]. left. unfold clashes in Hcl. rewrite H3 in Hcl. unfold parent_pointer in *.
        case_bool_decide as Hp; [done|]. destruct (f_ParentID g) as [q|] eqn:Hq; [|done].
        bool_to_prop. repeat match goal with H : bool_decide _ = true |- _ => apply bool_decide_eq_true in H end.
        subst q. split_and!; [congruence|done|congruence|]. apply not_false_iff_true. intros Ht. destruct Hr0.
        exists j, g. split; [done|]. unfold at_path. split_and!; congruence.
    + right. split; [done|]. destruct Hc as [Hfk Hc]. split; [done|]. rewrite H2 in Hc.
      destruct Hc as [Hc|(q & Hq & Hn)]; [by left|right]. rewrite H3 in Hq. unfold parent_pointer in Hq.
      case_bool_decide; [done|]. by injection Hq as <-.
  - destruct Hc as (-> & Hn & _). simpl in E. injection E as <- <-. split_and!; try done.
    apply lookup_unique_path; [done|by split_and!| |simpl; by rewrite lookup_insert_eq..].
    intros j g. simpl. rewrite lookup_insert_Some. intros [[_ <-]|[_ Hj]] Hg; [done|]. destruct Hr0. by exists j, g.
Qed.

(** *** Updates that keep the key of a row *)

Lemma update_same_key id g d f : tables_ok d -> db_files d !! id = Some f ->
  f_ID (g f) = f_ID f -> f_UserID (g f) = f_UserID f -> f_ParentID (g f) = f_ParentID f -> f_Name (g f) = f_Name f ->
  update_file id g d = inr (1, with_files (<[id := g f]> (db_files d)) d).
Proof.
  intros [[Hid Hu] Hr] Hf E1 E2 E3 E4. pose proof (Hid _ _ Hf) as Hk. unfold update_file. rewrite Hf.
  assert (unique_ok (db_files d) (g f) = true) as ->.
  { apply unique_ok_spec. intros j h Hj Hc. rewrite E1, Hk. symmetry. apply (Hu id j f h Hf Hj).
    unfold clashes in *. by rewrite <-E2, <-E3, <-E4. }
  assert (references_ok d (g f) = true) as ->; [|done]. unfold references_ok. destruct (db_fk d); [|done]. simpl.
  specialize (Hr eq_refl _ _ Hf) as [Hus Hp]. rewrite E2, E3. rewrite bool_decide_eq_true_2 by done. simpl.
  unfold parent_ok. destruct (f_ParentID f) as [q|]; [|done]. apply bool_decide_eq_true. auto.
Qed.

(** A row in the trash holds its name against new rows of the same directory. *)
Lemma trashed_blocks_name u p n pre msg (mk : string -> DB -> File) d id g :
  quiet d -> p <> ""%string -> isValidName n = true ->
  (forall id d, let f := mk id d in f_ID f = id /\ f_UserID f = u /\ f_ParentID f = parent_pointer p /\ f_Name f = n /\ f_TrashedAt f = None) ->
  ~ live u (Some p) n d -> db_files d !! id = Some g -> f_UserID g = u -> f_ParentID g = Some p -> f_Name g = n ->
  exists d', (if negb (isValidName n) then fail ErrInvalidName
   else must_be_absent (GetFileByPath u (Some p) n) ErrAlreadyExists;;
        d ← get_w; id ← generateID pre; wrap msg (CreateFile (mk id d));; mret (mk id d)) d
   = (Err (Wrapf msg (Errorf "file already exists")), d') /\ db_files d' = db_files d.
Proof.
  intros Hd Hp Hn Hmk Hl Hid Hu Hpar Hname. rewrite Hn. simpl. unfold must_be_absent, attempt, mbind, GoM_bind.
  destruct (GetFileByPath_quiet u p n d Hd) as (r0 & -> & Hr0).
  assert (parent_pointer p = Some p) as Epp by (unfold parent_pointer; by rewrite bool_decide_eq_false_2).
  rewrite Epp in Hr0. destruct r0 as [h|e|s|]; [by destruct Hr0|..]; try done. simpl.
  destruct (generateID_ok pre d) as (i & rr & ->). destruct (Hmk i d) as (H1 & H2 & H3 & H4 & H6).
  unfold wrap. rewrite CreateFile_quiet by done. unfold insert_file. simpl.
  assert (clashes (mk i d) g = true) as Hc.
  { unfold clashes. rewrite H2, H3, H4, Epp, Hpar. by rewrite !bool_decide_eq_true_2. }
  case_bool_decide as Hex; [eexists; by split|].
  assert (unique_ok (db_files d) (mk i d) = false) as ->; [|eexists; by split].
  apply not_true_iff_false. rewrite unique_ok_spec. intros Hall. apply Hex. rewrite <-(Hall id g Hid Hc), Hid. eauto.
Qed.

(** *** A concrete tree *)

Definition example_row (id : string) (parent : option string) (name type : string) : File :=
  mkFileRow id "u" parent name type 3 "" None None false [] false None 1 10 10.

Definition example_db (fk : bool) (l : list File) : DB :=
  mkDB {["u"]} (list_to_map ((fun f => (f_ID f, f)) <$> l)) ∅ ∅ 100 (mkRand (fun _ => x00) 0 []) [] fk.

Definition example_tree (fk : bool) : DB :=
  example_db fk [example_row "a" None "docs" "folder"; example_row "b" (Some "a") "work" "folder";
                 example_row "c" (Some "b") "todo" "file"].

(** A decision procedure for the constraints of a concrete state. *)
Definition tables_okb (d : DB) : bool :=
  forallb (fun kv => bool_decide (f_ID kv.2 = kv.1) &&
     forallb (fun kw => negb (clashes kv.2 kw.2) || bool_decide (kv.1 = kw.1)) (map_to_list (db_files d)) &&
     (negb (db_fk d) || (bool_decide (f_UserID kv.2 ∈ db_users d) && parent_ok d (f_ParentID kv.2)))) (map_to_list (db_files d)).

Lemma tables_okb_ok d : tables_okb d = true -> tables_ok d.
Proof.
  intros H. unfold tables_okb in H. rewrite forallb_forall in H.
  assert (forall id f, db_files d !! id = Some f -> bool_decide (f_ID f = id) = true /\
    forallb (fun kw => negb (clashes f kw.2) || bool_decide (id = kw.1)) (map_to_list (db_files d)) = true /\
    (negb (db_fk d) || (bool_decide (f_UserID f ∈ db_users d) && parent_ok d (f_ParentID f))) = true) as H'.
  { intros id f Hf. specialize (H (id, f)). rewrite <-list_elem_of_In, elem_of_map_to_list in H. specialize (H Hf).
    simpl in H. apply andb_true_iff in H as [H ?]. by apply andb_true_iff in H as [? ?]. }
  split; [split|].
  - intros id f Hf. apply H' in Hf as [Hf _]. by apply bool_decide_eq_true in Hf.
  - intros i j f g Hf Hg Hc. apply H' in Hf as (_ & Hf & _). rewrite forallb_forall in Hf.
    specialize (Hf (j, g)). rewrite <-list_elem_of_In, elem_of_map_to_list in Hf. specialize (Hf Hg). simpl in Hf.
    rewrite Hc in Hf. by apply bool_decide_eq_true in Hf.
  - intros Hfk id f Hf. apply H' in Hf as (_ & _ & Hf). rewrite Hfk in Hf. simpl in Hf.
    apply andb_true_iff in Hf as [H1 H2]. apply bool_decide_eq_true in H1. split; [done|].
    intros p Hp. unfold parent_ok in H2. rewrite Hp in H2. by apply bool_decide_eq_true in H2.
Qed.

(** ** Properties *)

(** [C39] [GetFolderPath] returns exactly when the chain of parents ends; then it
    returns the names from the root down, for every bound above their number,
    and [GetBreadcrumbs] the same names after "root".  [Move] does not look for
    cycles: whenever it succeeds in moving a row to a place below itself, both
    functions run for ever on that row. *)
Theorem GetFolderPath_returns_unless_moved_below d id f :
  tables_ok d -> quiet d -> id <> ""%string -> db_files d !! id = Some f -> f_Type f = "folder"%string ->
  (forall names fuel, ancestry d (f_ParentID f) names -> (S (length names) < fuel)%nat ->
     GetFolderPath fuel id d = (Ok ("/" +:+ joinPath (names ++ [f_Name f]))%string, d) /\
     exists crumbs, GetBreadcrumbs fuel id d = (Ok crumbs, d) /\ b_Name <$> crumbs = "root"%string :: names ++ [f_Name f]) /\
  ((exists fuel, (GetFolderPath fuel id d).1 <> OutOfFuel) <-> exists names, ancestry d (f_ParentID f) names) /\
  (forall p newName d', p <> ""%string -> below d id (Some p) -> Move id p newName d = (Ok tt, d') ->
     forall fuel, GetFolderPath fuel id d' = (OutOfFuel, d') /\ GetBreadcrumbs fuel id d' = (OutOfFuel, d')).
Proof.
  intros Hok Hd Hne Hid Hty.
  split_and!.
  - intros names fuel Ha Hf. split.
    + rewrite (GetFolderPath_eq _ _ _ _ Hd Hne Hid Hty). unfold mbind, GoM_bind. rewrite (climb_ancestry _ _ _ Hd Ha) by lia. done.
    + assert (ancestry d (Some id) (names ++ [f_Name f])) as Ha'.
      { econstructor 3; [|done|done]. simpl. by rewrite bool_decide_eq_false_2. }
      pose proof (climb_ancestry _ _ _ Hd Ha' fuel (b_Name <$> ([] : list Breadcrumb))) as E. rewrite <-crumb_loop_climb in E.
      rewrite length_app in E. simpl in E. specialize (E ltac:(lia)).
      apply bind_ok_inv in E as (cs & d1 & E & [= En <-]). rewrite app_nil_r in En.
      eexists. unfold GetBreadcrumbs. rewrite (bind_ok _ _ _ _ _ E). split; [done|]. simpl. by f_equal.
  - split.
    + intros [fuel Hf]. rewrite (GetFolderPath_eq _ _ _ _ Hd Hne Hid Hty) in Hf. unfold mbind, GoM_bind in Hf.
      destruct (climb fuel (f_ParentID f) [f_Name f] d) as [r d1] eqn:E.
      apply (climb_inv _ Hd) in E as [-> [->|(names & Ha & _)]]; [done|eauto].
    + intros [names Ha]. exists (S (length names)). rewrite (GetFolderPath_eq _ _ _ _ Hd Hne Hid Hty). unfold mbind, GoM_bind.
      by rewrite (climb_ancestry _ _ _ Hd Ha) by lia.
  - intros p newName d' Hp Hb Hm fuel. apply Move_inv in Hm as (Hd' & f0 & g & Hf0 & Hg & Hgt & Hfs); [|done..].
    assert (f0 = f) as -> by congruence. rewrite Hty in Hgt.
    assert (db_files d' !! id = Some g) as Hg' by by rewrite Hfs, lookup_insert_eq.
    apply (below_insert d id g _ Hb) in Hfs as Hb'. rewrite <-Hg in Hb'. by apply cycle_diverges with g.
Qed.

Lemma GetFolderPath_witness :
  GetFolderPath 4 "b" (example_tree true) = (Ok "/docs/work"%string, example_tree true) /\
  (forall fuel, let d' := (Move "a" "b" "" (example_tree true)).2 in (GetFolderPath fuel "a" d').1 = OutOfFuel).
Proof.
  split.
  - apply (GetFolderPath_returns_unless_moved_below (example_tree true) "b" (example_row "b" (Some "a"%string) "work" "folder"))
      with (names := ["docs"%string]); try done.
    + apply tables_okb_ok. by vm_compute.
    + apply (ancestry_up _ _ "a" (example_row "a" None "docs" "folder") []); [done|done|by constructor].
    + simpl. lia.
  - intros fuel d'.
    destruct (GetFolderPath_returns_unless_moved_below (example_tree true) "a" (example_row "a" None "docs" "folder"))
      as (_ & _ & H); [apply tables_okb_ok; by vm_compute|done..|].
    destruct (H "b"%string ""%string d') with (fuel := fuel) as [E _]; [done| |vm_compute; reflexivity|by rewrite E].
    apply (below_up _ _ _ "b" (example_row "b" (Some "a"%string) "work" "folder")); [done|done|by constructor].
Defined.



(** [Fact] Creating a file or a folder, on every branch: an entry is created exactly
    when its name is valid, no live entry of the directory has it, and the row
    passes the constraints; it is then found under its path.  Every error leaves
    the table as it was and says which of these conditions failed, where a
    trashed entry of the same name counts as an existing file. *)
Theorem create_functional u p n mime size d :
  quiet d -> tables_ok d ->
  create_outcome u p n "failed to create file" d (VFS_CreateFile u p n mime size d).1 (VFS_CreateFile u p n mime size d).2 /\
  create_outcome u p n "failed to create folder" d (CreateFolder u p n d).1 (CreateFolder u p n d).2.
Proof.
  intros Hd Hok. split.
  - eapply (create_branches u p n "file" _ (fun id d => mkFileRow id u (parent_pointer p) n "file" size mime None None
      false [] false None 1 (db_now d) (db_now d))); [done|done|done|apply surjective_pairing].
  - eapply (create_branches u p n "folder" _ (fun id d => mkFileRow id u (parent_pointer p) n "folder" 0 "" None None
      false [] false None 0 (db_now d) (db_now d))); [done|done|done|apply surjective_pairing].
Qed.

Lemma create_functional_witness :
  let d := example_tree true in
  (VFS_CreateFile "u" "b" "todo" "" 5 d).1 = Err ErrAlreadyExists /\
  is_ok (VFS_CreateFile "u" "b" "new" "" 5 d).1 = true /\
  create_outcome "u" "b" "new" "failed to create file" d (VFS_CreateFile "u" "b" "new" "" 5 d).1 (VFS_CreateFile "u" "b" "new" "" 5 d).2.
Proof.
  intros d. split; [vm_compute; reflexivity|split; [vm_compute; reflexivity|]].
  apply (create_functional "u" "b" "new" "" 5 d); [reflexivity|]. apply tables_okb_ok. vm_compute. reflexivity.
Defined.

(** An error of the driver during the lookup counts as absence: at the root, where
    the table does not enforce distinct names, a second live entry appears. *)
Lemma lookup_failure_duplicates :
  let d := with_faults [true] (example_tree true) in
  let d' := (CreateFolder "u" "" "docs" d).2 in
  is_ok (CreateFolder "u" "" "docs" d).1 = true /\
  length (filter (at_path "u" None "docs") (rows (db_files d'))) = 2%nat.
Proof. split; by vm_compute. Qed.



(** [Fact] Versions: [CreateVersion] fails on every input and changes no row, for it
    asks [UpdateFile] to set a column that it refuses; [IncrementVersion] of a
    present row stores and returns the successor of its version. *)
Theorem versioning_behaviour :
  (forall fileID userID size comment d, exists e d',
     CreateVersion fileID userID size comment d = (Err e, d') /\ db_files d' = db_files d) /\
  (forall fileID d f, tables_ok d -> quiet d -> db_files d !! fileID = Some f -> exists d' f',
     IncrementVersion fileID d = (Ok (f_Version f + 1), d') /\
     db_files d' = <[fileID := f']> (db_files d) /\ f_Version f' = f_Version f + 1 /\ set_updated 0 f' = set_updated 0 (apply_update (U_version (f_Version f + 1)) f)).
Proof.
  split.
  - intros fileID userID size comment d. unfold CreateVersion, instead, GetFileByID, scan_row, attempt, sql_query, mbind, GoM_bind.
    destruct (next_fault (db_faults d)) as [[] l]; simpl; [by eauto|].
    destruct (db_files d !! fileID); simpl; by eauto.
  - intros fileID d f Hok Hd Hf. unfold IncrementVersion.
    rewrite (bind_ok _ _ _ f d) by (unfold instead; by rewrite GetFileByID_quiet, Hf).
    do 2 eexists. split.
    + unfold UpdateFile. cbn [invalid_field]. rewrite bind_assoc, bind_get.
      pose proof (update_same_key fileID (fun f0 => set_updated (db_now d) (apply_update (U_version (f_Version f + 1)) f0)) d f
        Hok Hf eq_refl eq_refl eq_refl eq_refl) as Eu.
      by rewrite (bind_ok _ _ _ _ _ (exec_affected_ok _ _ (update_file fileID _) d _ Hd Eu)).
    + done.
Qed.

Lemma versioning_witness :
  exists d' f', IncrementVersion "c" (example_tree true) = (Ok 2, d') /\ db_files d' = <["c" := f']> (db_files (example_tree true)).
Proof.
  destruct versioning_behaviour as [_ H].
  destruct (H "c"%string (example_tree true) (example_row "c" (Some "b"%string) "todo" "file")) as (d' & f' & E & F & _);
    [apply tables_okb_ok; by vm_compute|done..|]. by exists d', f'.
Defined.
