(* ===== verification/Server.v ===== *)
(** * The state of the transfer handlers (internal/server: context.go, handlers_*.go)

    The handlers that move content share the database, the chunk store and the
    table of upload sessions.  A handler runs alone, from its first statement to
    its last.  An error response ends a handler: it is the error [ErrHTTP]. *)

From S2P Require Import Prelude GoStrings GoCrypto Database Storage.

Record ChunkUp := mkChunkUp { cu_Index : Z; cu_Size : Z; cu_UploadedAt : Z }.

Record UploadSession := mkSession {
  s_ID : string; s_UserID : string; s_ParentID : string; s_FileName : string; s_Size : Z; s_MimeType : string;
  s_Checksum : string; s_Status : string; s_CreatedAt : Z; s_ExpiresAt : Z; s_Chunks : gmap Z ChunkUp;
  s_TotalChunks : Z; s_ChunkHashes : gmap Z (list string)
}.

Record Server (S : Type) := mkServer { sv_db : DB; sv_store : S; sv_sessions : gmap string UploadSession }.
Arguments mkServer {S}.
Arguments sv_db {S}.
Arguments sv_store {S}.
Arguments sv_sessions {S}.

(** [if !b { ErrorResponse(w, code, msg); return }] *)
Definition require {W} (b : bool) (code : Z) (msg : string) : GoM W unit :=
  if b then mret tt else fail (ErrHTTP code msg).

Lemma runs_require {W} (R : relation W) `{!PreOrder R} b code msg : runs R (require b code msg).
Proof. unfold require. destruct b; [by apply runs_ret|by apply runs_fail]. Qed.

Lemma at_require {W} (R : relation W) `{!PreOrder R} w b code msg {A} (m : GoM W A) :
  (b = true -> runs_at R w m) -> runs_at R w (require b code msg;; m).
Proof. intros Hm r w'. destruct b; [by apply Hm|]. by intros [= <- <-]. Qed.

#[export] Hint Resolve runs_require : quiet.

Section State.
Context {S : Type}.

Definition on_db {A} (m : GoM DB A) : GoM (Server S) A := fun w =>
  let '(r, d) := m (sv_db w) in (r, mkServer d (sv_store w) (sv_sessions w)).

Definition on_store {A} (m : GoM S A) : GoM (Server S) A := fun w =>
  let '(r, s) := m (sv_store w) in (r, mkServer (sv_db w) s (sv_sessions w)).

(** Random bytes come from the source that the database state carries. *)
Definition on_rand {A} (m : GoM Rand A) : GoM (Server S) A :=
  on_db (fun d => let '(r, x) := m (db_rand d) in (r, with_rand x d)).

Definition put_session (s : UploadSession) : GoM (Server S) unit := fun w =>
  (Ok tt, mkServer (sv_db w) (sv_store w) (<[s_ID s := s]> (sv_sessions w))).

Definition delete_session (id : string) : GoM (Server S) unit := fun w =>
  (Ok tt, mkServer (sv_db w) (sv_store w) (delete id (sv_sessions w))).

(** [time.Now()] *)
Definition now : GoM (Server S) Z := fun w => (Ok (db_now (sv_db w)), w).

Definition find_session (id : string) : GoM (Server S) UploadSession := fun w =>
  match sv_sessions w !! id with
  | Some s => (Ok s, w)
  | None => (Err (ErrHTTP 404 "Upload session not found"), w)
  end.
End State.

(** ** strconv.ParseInt(s, 10, 64), strconv.Atoi

    An optional sign and digits, within the range of a 64-bit integer. *)

Definition digit (c : ascii) : option Z :=
  let n := Z.of_N (N_of_ascii c) in if (48 <=? n) && (n <=? 57) then Some (n - 48) else None.

Fixpoint parse_digits (acc : Z) (s : string) : option Z :=
  match s with
  | ""%string => Some acc
  | String c s => match digit c with Some d => parse_digits (10 * acc + d) s | None => None end
  end.

Definition in_i64b (z : Z) : bool := (- 2 ^ 63 <=? z) && (z <? 2 ^ 63).

Definition ParseInt (s : string) : option Z :=
  let magnitude (t : string) := match t with ""%string => None | _ => parse_digits 0 t end in
  match s with
  | String c t =>
      let v := if bool_decide (c = "-"%char) then Z.opp <$> magnitude t
               else if bool_decide (c = "+"%char) then magnitude t
               else magnitude s in
      match v with Some z => if in_i64b z then Some z else None | None => None end
  | ""%string => None
  end.

Definition Atoi : string -> option Z := ParseInt.

Lemma ParseInt_range s z : ParseInt s = Some z -> in_i64 z.
Proof.
  unfold ParseInt, in_i64b, in_i64. intros H. repeat case_match; simplify_eq; bool_to_prop; lia.
Qed.
