(* ===== verification/Upload.v ===== *)
(** * Chunked uploads (internal/server/handlers_upload.go)

    The handlers of upload sessions, and the background removal of expired
    sessions.  A part of the upload is cut by the content-defined chunker; each
    chunk is stored once under its digest and counted. *)

From S2P Require Import Prelude GoStrings GoCrypto Chunker Storage Database Vfs Server.
From S2P Require Encrypted.

(** ** Requests and replies *)

Record createUploadRequest := mkCreate {
  q_ParentID : string; q_Name : string; q_Size : Z; q_MimeType : string; q_Checksum : string
}.

Inductive reply :=
  | R_created (sessionID : string) (chunkSize totalChunks expiresAt : Z)
  | R_already_uploaded
  | R_uploaded (index received cdcChunks : Z) (hashes : list string)
  | R_completed (file : Database.File)
  | R_status (sessionID status : string) (uploadedBytes totalBytes : Z) (missing uploaded : list Z)
  | R_cancelled.

Definition DefaultChunkSize : Z := 4 * 1024 * 1024.
Definition SessionTTL : Z := 24 * 3600.
Definition MaxUploadSize : Z := 10 * 1024 * 1024 * 1024.
Definition maxChunkSize : Z := DefaultChunkSize + 1024.

(** [io.ReadAll(io.LimitReader(r, n))] *)
Fixpoint read_limited (n : Z) (r : reader) : Res bytes :=
  if n <=? 0 then Ok [] else
  match r with
  | [] => Ok []
  | (buf, err) :: r =>
      if n <? zlen buf then Ok (take (Z.to_nat n) buf)
      else match err with
           | None => rest ← read_limited (n - zlen buf) r; Ok (buf ++ rest)
           | Some EOF => Ok buf
           | Some (ReadErr e) => Err e
           end
  end.

Section Upload.
Context `{HashFn} {S : Type} `{Backend S}.

(** Which of the collaborators the handler was built with, and its chunker. *)
Context (has_vfs has_storage : bool) (chunker : Chunker) (storageType : string).

Definition generateSessionID : GoM (Server S) string :=
  b ← on_rand (rand_read 16); mret ("upload_" +:+ hex_encode b)%string.

(** [req] is [None] when the body does not decode. *)
Definition createUpload (userID : string) (req : option createUploadRequest) : GoM (Server S) reply :=
  require (negb (bool_decide (userID = ""%string))) 401 "Unauthorized";;
  req ← match req with Some q => mret q | None => fail (ErrHTTP 400 "Invalid request body") end;
  require (negb (bool_decide (q_Name req = ""%string))) 400 "Name is required";;
  require (0 <? q_Size req) 400 "Invalid file size";;
  require (q_Size req <=? MaxUploadSize) 400 ("File too large. Maximum size is " +:+ pretty MaxUploadSize +:+ " bytes");;
  sessionID ← instead (ErrHTTP 500 "Failed to create upload session") generateSessionID;
  let totalChunks := (q_Size req + DefaultChunkSize - 1) / DefaultChunkSize in
  t ← now;
  let session := mkSession sessionID userID (q_ParentID req) (q_Name req) (q_Size req) (q_MimeType req)
                   (q_Checksum req) "pending" t (t + SessionTTL) ∅ totalChunks ∅ in
  put_session session;;
  mret (R_created sessionID DefaultChunkSize totalChunks (t + SessionTTL)).

(** One chunk of a part: count it if its digest is known, store it otherwise. *)
Definition store_one (i : nat) (cdcChunk : ChunkInfo) (cdcData : list bytes) : GoM (Server S) unit :=
  let hash := ci_Hash cdcChunk in
  exists_ ← instead (ErrHTTP 500 "Failed to check chunk existence") (on_db (ChunkExists hash));
  if exists_ : bool then
    instead (ErrHTTP 500 "Failed to update chunk ref count") (on_db (IncrementRefCount hash))
  else
    data ← match cdcData !! i with Some d => mret d | None => panic "index out of range" end;
    instead (ErrHTTP 500 "Failed to store chunk") (on_store (Put hash data));;
    t ← now;
    let dbChunk := mkChunkRow hash (ci_Size cdcChunk) storageType
                     (str_take 2 hash +:+ "/" +:+ hash +:+ ".chunk")%string 1 false t in
    instead (ErrHTTP 500 "Failed to create chunk record") (on_db (CreateChunk dbChunk)).

(** The loop over the chunks of a part. *)
Fixpoint process_chunks (i : nat) (cdcChunks : list ChunkInfo) (cdcData : list bytes) : GoM (Server S) (list string) :=
  match cdcChunks with
  | [] => mret []
  | cdcChunk :: cdcChunks =>
      store_one i cdcChunk cdcData;;
      hashes ← process_chunks (i + 1) cdcChunks cdcData;
      mret (ci_Hash cdcChunk :: hashes)
  end.

Definition record_chunk (index : Z) (size now : Z) (hashes : list string) (s : UploadSession) : UploadSession :=
  let chunks := <[index := mkChunkUp index size now]> (s_Chunks s) in
  mkSession (s_ID s) (s_UserID s) (s_ParentID s) (s_FileName s) (s_Size s) (s_MimeType s) (s_Checksum s)
    (if Z.of_nat (base.size chunks) =? s_TotalChunks s then "completed" else "in_progress")
    (s_CreatedAt s) (s_ExpiresAt s) chunks (s_TotalChunks s) (<[index := hashes]> (s_ChunkHashes s)).

Definition uploadChunk (userID sessionID chunkIndexStr : string) (contentLength : Z) (body : reader) : GoM (Server S) reply :=
  require (negb (bool_decide (userID = ""%string))) 401 "Unauthorized";;
  require (negb (bool_decide (sessionID = ""%string))) 400 "Session ID required";;
  require (negb (bool_decide (chunkIndexStr = ""%string))) 400 "Chunk index required";;
  chunkIndex ← match Atoi chunkIndexStr with
               | Some n => if n <? 0 then fail (ErrHTTP 400 "Invalid chunk index") else mret n
               | None => fail (ErrHTTP 400 "Invalid chunk index")
               end;
  session ← find_session sessionID;
  require (bool_decide (s_UserID session = userID)) 403 "Access denied";;
  t ← now;
  require (t <=? s_ExpiresAt session) 410 "Upload session expired";;
  require (chunkIndex <? s_TotalChunks session) 400 "Invalid chunk index";;
  if bool_decide (is_Some (s_Chunks session !! chunkIndex)) then mret R_already_uploaded
  else
    require has_storage 503 "Storage not available";;
    require (contentLength <=? maxChunkSize) 400 "Chunk too large";;
    require (0 <? contentLength) 400 "Missing or invalid Content-Length";;
    chunkData ← instead (ErrHTTP 400 "Failed to read chunk data") (lift (read_limited maxChunkSize body));
    require (negb (zlen chunkData =? 0)) 400 "Empty chunk data";;
    p ← instead (ErrHTTP 500 "Failed to process chunk with CDC") (lift (ChunkWithData chunker [(chunkData, None)]));
    let '(cdcChunks, cdcData) := (p : list ChunkInfo * list bytes) in
    chunkHashes ← process_chunks 0 cdcChunks cdcData;
    put_session (record_chunk chunkIndex (zlen chunkData) t chunkHashes session);;
    mret (R_uploaded chunkIndex (zlen chunkData) (zlen cdcChunks) chunkHashes).

Definition indices (s : UploadSession) : list Z := Z.of_nat <$> seq 0 (Z.to_nat (s_TotalChunks s)).

Definition getMissingChunks (s : UploadSession) : list Z :=
  filter (fun i => s_Chunks s !! i = None) (indices s).

(** [%v] of a slice of ints *)
Definition show_ints (l : list Z) : string := ("[" +:+ join_char " "%char (pretty <$> l) +:+ "]")%string.

(** The digests of all parts in order. *)
Definition collect_hashes (s : UploadSession) : list string :=
  concat ((fun i => default [] (s_ChunkHashes s !! i)) <$> indices s).

Definition generateRandomString (length : nat) : GoM (Server S) string :=
  b ← wrap "failed to generate random string" (on_rand (rand_read (length / 2))); mret (hex_encode b).

Definition is_already_exists (e : error) : bool := match e with ErrAlreadyExists => true | _ => false end.
Definition is_invalid_name (e : error) : bool := match e with ErrInvalidName => true | _ => false end.

Definition completeUpload (userID sessionID : string) : GoM (Server S) reply :=
  require has_vfs 503 "VFS not available";;
  require (negb (bool_decide (userID = ""%string))) 401 "Unauthorized";;
  require (negb (bool_decide (sessionID = ""%string))) 400 "Session ID required";;
  session ← find_session sessionID;
  require (bool_decide (s_UserID session = userID)) 403 "Access denied";;
  require (negb (Z.of_nat (base.size (s_Chunks session)) <? s_TotalChunks session)) 400
    ("Missing chunks: " +:+ show_ints (getMissingChunks session));;
  r ← attempt (on_db (VFS_CreateFile userID (s_ParentID session) (s_FileName session) (s_MimeType session) (s_Size session)));
  file ← match r with
         | inl f => mret f
         | inr e =>
             if is_already_exists e then fail (ErrHTTP 409 "File already exists")
             else if is_invalid_name e then fail (ErrHTTP 400 "Invalid file name")
             else fail (ErrHTTP 500 "Internal server error")
         end;
  let allChunkHashes := collect_hashes session in
  ms ← instead (ErrHTTP 500 "Internal server error") (generateRandomString 16);
  t ← now;
  let manifestID := ("manifest_" +:+ ms)%string in
  let manifest := mkManifestRow manifestID (f_ID file) 1 (s_Size session) (zlen allChunkHashes) allChunkHashes
                    (s_Checksum session) "server" t in
  r ← attempt (on_db (CreateManifest manifest));
  match r with
  | inr _ =>
      ignore (on_db (VFS_Delete (f_ID file)));;
      fail (ErrHTTP 500 "Failed to create manifest")
  | inl _ =>
      r ← attempt (on_db (UpdateFile (f_ID file) [U_manifest_id (Some manifestID)]));
      match r with
      | inr _ =>
          ignore (on_db (DeleteManifest manifestID));;
          ignore (on_db (VFS_Delete (f_ID file)));;
          fail (ErrHTTP 500 "Failed to update file with manifest")
      | inl _ => delete_session sessionID;; mret (R_completed file)
      end
  end.

Definition getUploadStatus (userID sessionID : string) : GoM (Server S) reply :=
  require (negb (bool_decide (userID = ""%string))) 401 "Unauthorized";;
  require (negb (bool_decide (sessionID = ""%string))) 400 "Session ID required";;
  session ← find_session sessionID;
  require (bool_decide (s_UserID session = userID)) 403 "Access denied";;
  t ← now;
  require (t <=? s_ExpiresAt session) 410 "Upload session expired";;
  let uploaded := map_to_list (s_Chunks session) in
  mret (R_status sessionID (s_Status session) (foldr (fun c n => cu_Size c.2 + n) 0 uploaded) (s_Size session)
          (getMissingChunks session) (fst <$> uploaded)).

(** All digests that a session holds, in the unspecified order of its map. *)
Definition session_hashes (s : UploadSession) : list string := concat (map_to_list (s_ChunkHashes s)).*2.

(** One turn of the loop of [cancelUpload]. *)
Definition release_cancelled (hash : string) : GoM (Server S) unit :=
  r ← attempt (on_db (GetChunk hash));
  match r with
  | inr _ => mret tt
  | inl chunk =>
      r ← attempt (on_db (DecrementRefCount hash));
      match r with
      | inr _ => mret tt
      | inl _ =>
          if c_RefCount chunk <=? 1 then
            ignore (on_store (Delete hash));;
            ignore (on_db (DeleteChunk hash))
          else mret tt
      end
  end.

Definition cancelUpload (userID sessionID : string) : GoM (Server S) reply :=
  require (negb (bool_decide (userID = ""%string))) 401 "Unauthorized";;
  require (negb (bool_decide (sessionID = ""%string))) 400 "Session ID required";;
  session ← find_session sessionID;
  require (bool_decide (s_UserID session = userID)) 403 "Access denied";;
  delete_session sessionID;;
  (if has_storage then forM (session_hashes session) release_cancelled else mret tt);;
  mret R_cancelled.

(** The same for an expired session: the count is read after the decrement. *)
Definition release_expired (hash : string) : GoM (Server S) unit :=
  r ← attempt (on_db (DecrementRefCount hash));
  match r with
  | inr _ => mret tt
  | inl _ =>
      r ← attempt (on_db (GetChunk hash));
      match r with
      | inr _ => mret tt
      | inl chunk =>
          if c_RefCount chunk <=? 0 then
            ignore (on_store (Delete hash));;
            ignore (on_db (DeleteChunk hash))
          else mret tt
      end
  end.

(** One tick of [cleanupExpiredSessions]. *)
Definition cleanup_tick : GoM (Server S) unit :=
  t ← now;
  w ← get_w;
  forM (map_to_list (sv_sessions w)) (fun p =>
    if s_ExpiresAt p.2 <? t then
      forM (session_hashes p.2) release_expired;;
      delete_session p.1
    else mret tt).
End Upload.

(** ** Lemmas *)

(** *** Counting references *)

Definition occ (h : string) (l : list string) : Z := zlen (filter (fun x => x = h) l).

Lemma occ_nil h : occ h [] = 0.
Proof. done. Qed.

Lemma occ_cons h x l : occ h (x :: l) = (if bool_decide (x = h) then 1 else 0) + occ h l.
Proof.
  unfold occ. rewrite filter_cons. repeat case_decide; case_bool_decide; try done. unfold zlen. simpl. lia.
Qed.

Lemma occ_app h l k : occ h (l ++ k) = occ h l + occ h k.
Proof. unfold occ, zlen. rewrite filter_app, length_app. lia. Qed.

Lemma occ_nonneg h l : 0 <= occ h l.
Proof. unfold occ, zlen. lia. Qed.

Lemma occ_perm h l k : l ≡ₚ k -> occ h l = occ h k.
Proof. intros E. unfold occ, zlen. by rewrite E. Qed.

Lemma occ_submseteq h l k : l ⊆+ k -> occ h l <= occ h k.
Proof. intros [x E]%submseteq_Permutation. rewrite (occ_perm h _ _ E), occ_app. pose proof (occ_nonneg h x). lia. Qed.

Lemma occ_elem h l : h ∈ l -> 1 <= occ h l.
Proof.
  induction 1 as [h l|h x l _ IH]; rewrite occ_cons.
  - rewrite bool_decide_eq_true_2 by done. pose proof (occ_nonneg h l). lia.
  - case_bool_decide; lia.
Qed.

Lemma concat_perm {A} (l k : list (list A)) : l ≡ₚ k -> concat l ≡ₚ concat k.
Proof.
  induction 1 as [|x l k _ IH|x y l|l k j _ IH1 _ IH2]; simpl; [done|by rewrite IH| |by rewrite IH1].
  rewrite !app_assoc. by rewrite (Permutation_app_comm x y).
Qed.

(** References by sessions and by manifests. *)
Definition session_refs (ss : gmap string UploadSession) : list string := concat (session_hashes <$> (map_to_list ss).*2).
Definition manifest_refs (ms : gmap string Manifest) : list string := concat (m_Chunks <$> rows ms).

Lemma session_refs_insert ss id s : ss !! id = None -> session_refs (<[id := s]> ss) ≡ₚ session_hashes s ++ session_refs ss.
Proof.
  intros Hn. unfold session_refs. change (session_hashes s ++ concat (session_hashes <$> (map_to_list ss).*2))
    with (concat (session_hashes <$> ((id, s) :: map_to_list ss).*2)). apply concat_perm. by rewrite map_to_list_insert.
Qed.

Lemma session_refs_delete ss id s : ss !! id = Some s -> session_refs ss ≡ₚ session_hashes s ++ session_refs (delete id ss).
Proof.
  intros Hs. rewrite <-session_refs_insert with (id := id) by apply lookup_delete_eq.
  by rewrite insert_delete_id.
Qed.

Lemma manifest_refs_insert ms id m : ms !! id = None -> manifest_refs (<[id := m]> ms) ≡ₚ m_Chunks m ++ manifest_refs ms.
Proof.
  intros Hn. unfold manifest_refs, rows. change (m_Chunks m ++ concat (m_Chunks <$> (map_to_list ms).*2))
    with (concat (m_Chunks <$> ((id, m) :: map_to_list ms).*2)). apply concat_perm. by rewrite map_to_list_insert.
Qed.

Lemma manifest_refs_mono ms ms' h : ms' ⊆ ms -> occ h (manifest_refs ms') <= occ h (manifest_refs ms).
Proof.
  intros Hs%map_to_list_submseteq. apply submseteq_Permutation in Hs as [k E]. unfold manifest_refs, rows.
  rewrite (occ_perm h (concat (m_Chunks <$> (map_to_list ms).*2)) (concat (m_Chunks <$> (map_to_list ms' ++ k).*2)))
    by (apply concat_perm; by rewrite E).
  rewrite !fmap_app, concat_app, occ_app.
  pose proof (occ_nonneg h (concat (m_Chunks <$> k.*2))). lia.
Qed.

(** *** The parts of a session *)

Lemma collect_perm (m : gmap Z (list string)) (l : list Z) : NoDup l -> (forall i, is_Some (m !! i) -> i ∈ l) ->
  concat ((fun i => default [] (m !! i)) <$> l) ≡ₚ concat (map_to_list m).*2.
Proof.
  intros Hnd. revert m. induction Hnd as [|i l Hi Hnd IH]; intros m Hm; rewrite ?fmap_cons; cbn [concat].
  - assert (m = ∅) as ->; [|by rewrite map_to_list_empty]. apply map_empty. intros i. apply eq_None_not_Some.
    intros Hs. by apply Hm, not_elem_of_nil in Hs.
  - assert ((fun i => default [] (m !! i)) <$> l = (fun j => default [] (delete i m !! j)) <$> l) as ->.
    { apply list_fmap_ext. intros k x Hk. rewrite lookup_delete_ne; [done|]. intros <-. by apply list_elem_of_lookup_2 in Hk. }
    rewrite IH.
    + destruct (m !! i) as [x|] eqn:E; simpl.
      * change (x ++ concat (map_to_list (delete i m)).*2) with (concat ((i, x) :: map_to_list (delete i m)).*2).
        apply concat_perm. by rewrite map_to_list_delete.
      * by rewrite delete_id.
    + intros j Hj. rewrite lookup_delete_is_Some in Hj. destruct Hj as [Hne Hj]. apply Hm in Hj. set_solver.
Qed.

Definition session_ok (id : string) (s : UploadSession) : Prop :=
  s_ID s = id /\ dom (s_Chunks s) = dom (s_ChunkHashes s) /\
  forall i, is_Some (s_ChunkHashes s !! i) -> 0 <= i < s_TotalChunks s.

Lemma elem_of_indices s i : i ∈ indices s <-> 0 <= i < s_TotalChunks s.
Proof.
  unfold indices. rewrite list_elem_of_fmap. setoid_rewrite elem_of_seq. split.
  - intros (k & -> & Hk). lia.
  - intros Hi. exists (Z.to_nat i). lia.
Qed.

Lemma collect_hashes_perm id s : session_ok id s -> collect_hashes s ≡ₚ session_hashes s.
Proof.
  intros (_ & _ & Hr). unfold collect_hashes, session_hashes. apply collect_perm.
  - unfold indices. apply NoDup_fmap_2; [apply _|]. apply NoDup_seq.
  - intros i Hi. by apply elem_of_indices, Hr.
Qed.

(** *** The chunk statements of a driver that does not fail *)

Lemma ChunkExists_quiet h d : quiet d -> ChunkExists h d = (Ok (bool_decide (is_Some (db_chunks d !! h))), d).
Proof. intros Hd. unfold ChunkExists, wrap. by rewrite query_quiet. Qed.

Lemma GetChunk_quiet h d : quiet d ->
  GetChunk h d = match db_chunks d !! h with Some c => (Ok c, d) | None => (Err (Errorf "chunk not found"), d) end.
Proof. intros Hd. unfold GetChunk. by rewrite scan_row_quiet. Qed.

Lemma IncrementRefCount_quiet h c d : quiet d -> db_chunks d !! h = Some c ->
  IncrementRefCount h d = (Ok tt, with_chunks (<[h := set_ref (c_RefCount c + 1) c]> (db_chunks d)) d).
Proof. intros Hd Hc. unfold IncrementRefCount. apply exec_affected_ok; [done|]. unfold bump_chunk. by rewrite Hc. Qed.

Lemma DecrementRefCount_quiet h c d : quiet d -> db_chunks d !! h = Some c -> 0 < c_RefCount c ->
  DecrementRefCount h d = (Ok tt, with_chunks (<[h := set_ref (c_RefCount c - 1) c]> (db_chunks d)) d).
Proof.
  intros Hd Hc Hp. unfold DecrementRefCount. apply exec_affected_ok; [done|]. unfold bump_chunk. rewrite Hc.
  by rewrite (proj2 (Z.ltb_lt _ _) Hp).
Qed.

Lemma DeleteChunk_quiet h c d : quiet d -> db_chunks d !! h = Some c ->
  DeleteChunk h d = (Ok tt, with_chunks (delete h (db_chunks d)) d).
Proof. intros Hd Hc. unfold DeleteChunk. apply exec_affected_ok; [done|]. unfold delete_chunk. by rewrite Hc. Qed.

Lemma CreateChunk_quiet c d : quiet d -> db_chunks d !! c_Hash c = None ->
  CreateChunk c d = (Ok tt, with_chunks (<[c_Hash c := c]> (db_chunks d)) d).
Proof.
  intros Hd Hc. unfold CreateChunk, wrap, mbind, GoM_bind. rewrite exec_quiet by done. unfold insert_chunk.
  rewrite bool_decide_eq_false_2; [done|]. rewrite Hc. by intros [? ?].
Qed.

(** *** No reference without its chunk *)

Section Covered.
Context `{HashFn} {S : Type} `{Backend S} (Hkeys : forall d, valid_key (sha256_hex d)).

Definition chunk_count (d : DB) (h : string) : Z :=
  match db_chunks d !! h with Some c => c_RefCount c | None => 0 end.

(** The count of every chunk is at least the number of references to it, by the
    sessions [ss], the manifests and a list [extra] of references in flight; the
    blob of every counted chunk is in the store and has the digest of its row. *)
Record covered (ss : gmap string UploadSession) (extra : list string) (w : Server S) : Prop := {
  cov_quiet : quiet (sv_db w);
  cov_store : store_ok (sv_store w);
  cov_rows h c : db_chunks (sv_db w) !! h = Some c ->
    0 <= c_RefCount c /\ exists data, h = sha256_hex data /\ blob_at (sv_store w) h = Some data;
  cov_refs h : occ h extra + occ h (session_refs ss) + occ h (manifest_refs (db_manifests (sv_db w)))
    <= chunk_count (sv_db w) h
}.

Lemma covered_weaken ss ss' extra extra' w :
  (forall h, occ h extra' + occ h (session_refs ss') <= occ h extra + occ h (session_refs ss)) ->
  covered ss extra w -> covered ss' extra' w.
Proof. intros Hle [Hq Hs Hr Hc]. split; try done. intros h. specialize (Hc h). specialize (Hle h). lia. Qed.

Definition with_db (d : DB) (w : Server S) : Server S := mkServer d (sv_store w) (sv_sessions w).
Definition with_store (s : S) (w : Server S) : Server S := mkServer (sv_db w) s (sv_sessions w).

Lemma covered_recount ss extra extra' w h c n :
  covered ss extra w -> db_chunks (sv_db w) !! h = Some c -> 0 <= n ->
  (forall h', occ h' extra' <= occ h' extra + if bool_decide (h' = h) then n - c_RefCount c else 0) ->
  covered ss extra' (with_db (with_chunks (<[h := set_ref n c]> (db_chunks (sv_db w))) (sv_db w)) w).
Proof.
  intros [Hq Hs Hr Hc] Hh Hn Hle. split; simpl; [done|done| |].
  - intros h' c'. rewrite lookup_insert_Some. intros [[<- <-]|[_ Hc']]; [|eauto]. split; [done|]. by apply Hr in Hh as [_ ?].
  - intros h'. specialize (Hc h'). specialize (Hle h'). unfold chunk_count in *. simpl.
    case_bool_decide as E; [subst; rewrite lookup_insert_eq; rewrite Hh in Hc|rewrite lookup_insert_ne by done]; simpl; lia.
Qed.

Lemma covered_drop ss extra w h c s' :
  covered ss extra w -> db_chunks (sv_db w) !! h = Some c -> c_RefCount c = 0 -> store_ok s' ->
  (forall k, valid_key k -> k <> h -> blob_at s' k = blob_at (sv_store w) k) ->
  covered ss extra (mkServer (with_chunks (delete h (db_chunks (sv_db w))) (sv_db w)) s' (sv_sessions w)).
Proof.
  intros [Hq Hs Hr Hc] Hh Hn Hs' Hb. split; simpl; [done|done| |].
  - intros h' c'. rewrite lookup_delete_Some. intros [Hne Hc']. apply Hr in Hc' as [? (data & -> & Hd)].
    split; [done|]. exists data. split; [done|]. by rewrite Hb.
  - intros h'. specialize (Hc h'). unfold chunk_count in *. simpl.
    destruct (decide (h' = h)) as [->|]; [rewrite lookup_delete_eq; rewrite Hh in Hc|rewrite lookup_delete_ne by done]; lia.
Qed.

Lemma covered_store_call ss extra w s' : covered ss extra w -> store_ok s' ->
  (forall k d, valid_key k -> blob_at (sv_store w) k = Some d -> is_Some (db_chunks (sv_db w) !! k) -> blob_at s' k = Some d) ->
  covered ss extra (with_store s' w).
Proof.
  intros [Hq Hs Hr Hc] Hs' Hb. split; simpl; [done|done| |done].
  intros h c Hh. pose proof (Hr h c Hh) as [? (data & -> & Hd)]. split; [done|]. exists data. split; [done|].
  apply Hb; [done|done|by rewrite Hh].
Qed.

Lemma covered_new ss extra w c data :
  covered ss extra w -> db_chunks (sv_db w) !! c_Hash c = None -> c_Hash c = sha256_hex data ->
  blob_at (sv_store w) (c_Hash c) = Some data -> c_RefCount c = 1 ->
  covered ss (c_Hash c :: extra) (with_db (with_chunks (<[c_Hash c := c]> (db_chunks (sv_db w))) (sv_db w)) w).
Proof.
  intros [Hq Hs Hr Hc] Hn Hh Hb Hone. split; simpl; [done|done| |].
  - intros h' c'. rewrite lookup_insert_Some. intros [[<- <-]|[_ Hc']]; [|eauto]. rewrite Hone. split; [lia|eauto].
  - intros h'. specialize (Hc h'). rewrite occ_cons. unfold chunk_count in *. simpl.
    case_bool_decide as E; [rewrite <-E in *; rewrite lookup_insert_eq; rewrite Hn in Hc|rewrite lookup_insert_ne by done]; lia.
Qed.

Lemma hoare_on_db {A} (P : Server S -> Prop) (m : GoM DB A) Q E :
  (forall w, P w -> match m (sv_db w) with
                    | (Ok a, d) => Q a (with_db d w)
                    | (Err _, d) => E (with_db d w)
                    | _ => False
                    end) -> hoare P (on_db m) Q E.
Proof. intros Hm w Hw. specialize (Hm w Hw). unfold on_db. by destruct (m (sv_db w)) as [[]]. Qed.

Lemma hoare_on_store {A} (P : Server S -> Prop) (m : GoM S A) Q E :
  (forall w, P w -> match m (sv_store w) with
                    | (Ok a, s) => Q a (with_store s w)
                    | (Err _, s) => E (with_store s w)
                    | _ => False
                    end) -> hoare P (on_store m) Q E.
Proof. intros Hm w Hw. specialize (Hm w Hw). unfold on_store. by destruct (m (sv_store w)) as [[]]. Qed.

Lemma hoare_get {A} (P : Server S -> Prop) (k : Server S -> GoM (Server S) A) Q E :
  (forall w0, hoare (fun w => w = w0 /\ P w) (k w0) Q E) -> hoare P (w ← get_w; k w) Q E.
Proof. intros Hk w Hw. rewrite bind_get. by apply Hk. Qed.

Lemma hoare_now {A} (P : Server S -> Prop) (k : Z -> GoM (Server S) A) Q E :
  (forall t, hoare P (k t) Q E) -> hoare P (t ← now; k t) Q E.
Proof. intros Hk w Hw. unfold now, mbind, GoM_bind. by apply Hk. Qed.

Lemma hoare_require {A} (P : Server S -> Prop) b code msg (k : GoM (Server S) A) Q (E : Server S -> Prop) :
  (forall w, P w -> E w) -> (b = true -> hoare P k Q E) -> hoare P (require b code msg;; k) Q E.
Proof.
  intros HE Hk. unfold require. destruct b; [|intros w Hw; by apply HE].
  intros w Hw. rewrite bind_mret. by apply Hk.
Qed.

Lemma read_limited_total r n : match read_limited n r with Ok _ | Err _ => True | _ => False end.
Proof.
  revert n. induction r as [|[b e] r IH]; intros n; simpl; (destruct (n <=? 0); [done|]); [done|].
  destruct (n <? zlen b); [done|]. destruct e as [[]|]; try done. specialize (IH (n - zlen b)).
  by destruct (read_limited (n - zlen b) r).
Qed.

(** Cutting a part that was read whole. *)
Lemma cut_part c data : wf_chunker c -> exists pieces, ChunkWithData c [(data, None)] = Ok (infos_of 0 pieces, pieces) /\
  concat pieces = data.
Proof.
  intros Hc. destruct (data_loop c [(data, None)] data Hc) as (ds & El & Hds); [simpl; by rewrite app_nil_r|].
  pose proof (data_finish c data ds Hc Hds) as Hfin. unfold ChunkWithData. rewrite El. simpl.
  destruct (0 <? zlen (ds_buf ds)); destruct Hfin as (Hcat & -> & _); eauto.
Qed.

(** References in flight while the sessions stay as they are. *)
Definition in_flight (ss real : gmap string UploadSession) (extra : list string) (w : Server S) : Prop :=
  covered ss extra w /\ sv_sessions w = real.

Lemma in_flight_weaken ss real extra x w : in_flight ss real (x ++ extra) w -> in_flight ss real extra w.
Proof.
  intros [Hc Hr]. split; [|done]. eapply covered_weaken; [|exact Hc]. intros h. rewrite occ_app.
  pose proof (occ_nonneg h x). lia.
Qed.

(** One chunk of a part: afterwards there is one more reference to it. *)
Lemma store_one_covered ss real extra st i (info : ChunkInfo) (cdcData : list bytes) data :
  ci_Hash info = sha256_hex data -> cdcData !! i = Some data ->
  hoare (in_flight ss real extra) (store_one st i info cdcData)
    (fun _ => in_flight ss real (ci_Hash info :: extra)) (in_flight ss real extra).
Proof.
  intros Eh Ed w [Hc Hr]. pose proof (cov_quiet _ _ _ Hc) as Hq. unfold store_one. rewrite Ed.
  unfold instead, on_db, on_store, now, mbind, GoM_bind. rewrite ChunkExists_quiet by done.
  case_bool_decide as Hex.
  - destruct Hex as [c Hh]. simpl. rewrite (IncrementRefCount_quiet _ c) by done.
    pose proof (cov_rows _ _ _ Hc _ _ Hh) as [Hp _].
    split; [|done]. eapply covered_recount; [exact Hc|exact Hh|lia|]. intros h'. rewrite occ_cons.
    repeat case_bool_decide; subst; try done; lia.
  - apply eq_None_not_Some in Hex. simpl. rewrite Eh.
    pose proof (put_law (sha256_hex data) data (sv_store w) (Hkeys data) (cov_store _ _ _ Hc)) as Hp.
    destruct (Put (sha256_hex data) data (sv_store w)) as [[u|e|m|] s']; try done; destruct Hp as [Hs' Hb].
    + assert (covered ss extra (with_store s' w)) as Hc1.
      { apply covered_store_call; [done|done|]. intros k d Hk Hd Hrow. rewrite Hb by done.
        case_decide as E; [|done]. rewrite E, <-Eh, Hex in Hrow. by destruct Hrow. }
      simpl. rewrite CreateChunk_quiet; [|done|simpl; by rewrite <-Eh]. split; [|done].
      eapply (covered_new ss extra (with_store s' w) (mkChunkRow (sha256_hex data) _ _ _ _ _ _) data);
        [done|simpl; by rewrite <-Eh|done| |done]. simpl. rewrite Hb by apply Hkeys. by rewrite decide_True.
    + split; [|done]. apply covered_store_call; [done|done|]. intros k d Hk Hd _. by rewrite Hb.
Qed.

Lemma process_chunks_covered ss real st data : forall extra off pre,
  hoare (in_flight ss real extra) (process_chunks st (length pre) (infos_of off data) (pre ++ data))
    (fun hs w => in_flight ss real (hs ++ extra) w) (in_flight ss real extra).
Proof.
  induction data as [|d data IH]; intros extra off pre; cbn [infos_of process_chunks]; [by apply hoare_ret|].
  eapply hoare_bind.
  - eapply (store_one_covered ss real extra st (length pre) _ _ d); [done|]. by rewrite list_lookup_middle.
  - intros ?. eapply hoare_bind.
    + specialize (IH (sha256_hex d :: extra) (off + zlen d) (pre ++ [d])).
      rewrite length_app, <-app_assoc in IH. simpl in IH. eapply hoare_conseq; [exact IH|done|done|].
      intros w Hw. by apply (in_flight_weaken ss real extra [sha256_hex d]) in Hw.
    + intros hs. apply hoare_ret. intros w [Hc Hr]. split; [|done]. eapply covered_weaken; [|exact Hc].
      intros h. simpl. rewrite occ_cons, !occ_app, occ_cons. lia.
Qed.

Lemma covered_head ss h extra w : covered ss (h :: extra) w ->
  exists c, db_chunks (sv_db w) !! h = Some c /\ 1 <= c_RefCount c.
Proof.
  intros Hc. pose proof (cov_refs _ _ _ Hc h) as Hle. rewrite occ_cons, bool_decide_eq_true_2 in Hle by done.
  pose proof (occ_nonneg h extra). pose proof (occ_nonneg h (session_refs ss)).
  pose proof (occ_nonneg h (manifest_refs (db_manifests (sv_db w)))). unfold chunk_count in Hle.
  destruct (db_chunks (sv_db w) !! h) as [c|]; [|lia]. exists c. split; [done|lia].
Qed.

(** Deleting the blob and then the row of a chunk that nothing refers to. *)
Lemma delete_both ss extra h c w :
  covered ss extra w -> db_chunks (sv_db w) !! h = Some c -> c_RefCount c = 0 ->
  exists w', (ignore (on_store (Delete h));; ignore (on_db (DeleteChunk h))) w = (Ok tt, w') /\
    covered ss extra w' /\ sv_sessions w' = sv_sessions w.
Proof.
  intros Hc Hh Hz. destruct (cov_rows _ _ _ Hc _ _ Hh) as [_ (data & Eh & Hd)].
  assert (valid_key h) as Hk by (rewrite Eh; apply Hkeys).
  unfold ignore, attempt, on_store, on_db, mbind, GoM_bind.
  pose proof (delete_law h (sv_store w) Hk (cov_store _ _ _ Hc)) as Hp.
  destruct (Delete h (sv_store w)) as [[u|e|m|] s']; try done; simpl;
    rewrite (DeleteChunk_quiet h c) by (done || apply (cov_quiet _ _ _ Hc)); eexists; (split; [done|]); (split; [|done]).
  - destruct Hp as (Hs' & _ & Hb). eapply covered_drop; [done|done|done|done|].
    intros k Hk' Hne. rewrite Hb by done. by rewrite decide_False.
  - destruct Hp as (Hs' & Hb). eapply covered_drop; [done|done|done|done|]. intros k Hk' Hne. by rewrite Hb.
Qed.

(** After the decrement of a chunk that a reference in flight kept alive. *)
Lemma decrement_covered ss extra h c w : covered ss (h :: extra) w -> db_chunks (sv_db w) !! h = Some c ->
  exists w1, on_db (DecrementRefCount h) w = (Ok tt, w1) /\ covered ss extra w1 /\
    db_chunks (sv_db w1) !! h = Some (set_ref (c_RefCount c - 1) c) /\ sv_sessions w1 = sv_sessions w.
Proof.
  intros Hc Hh. destruct (covered_head _ _ _ _ Hc) as (c' & Hc' & Hpos). assert (c' = c) as -> by congruence.
  exists (with_db (with_chunks (<[h := set_ref (c_RefCount c - 1) c]> (db_chunks (sv_db w))) (sv_db w)) w).
  split_and!; [| |simpl; by rewrite lookup_insert_eq|done].
  - unfold on_db. rewrite (DecrementRefCount_quiet h c); [done|apply (cov_quiet _ _ _ Hc)|done|lia].
  - eapply covered_recount; [exact Hc|done|lia|]. intros h'. rewrite occ_cons.
    repeat case_bool_decide; subst; try done; lia.
Qed.

Lemma release_cancelled_covered ss real extra h : hoare (in_flight ss real (h :: extra)) (release_cancelled h)
  (fun _ => in_flight ss real extra) (fun _ => False).
Proof.
  intros w [Hc Hr]. destruct (covered_head _ _ _ _ Hc) as (c & Hh & Hpos).
  destruct (decrement_covered _ _ _ _ _ Hc Hh) as (w1 & Ed & Hc1 & Hh1 & Hr1). unfold release_cancelled.
  rewrite (bind_ok _ _ w (inl c) w).
  2:{ unfold attempt, on_db. rewrite GetChunk_quiet, Hh by apply (cov_quiet _ _ _ Hc). by destruct w. }
  rewrite (bind_ok _ _ w (inl tt) w1) by (unfold attempt; by rewrite Ed).
  destruct (Z.leb_spec (c_RefCount c) 1); [|split; [done|by rewrite Hr1]].
  destruct (delete_both ss extra h (set_ref (c_RefCount c - 1) c) w1 Hc1 Hh1) as (w' & E & Hc' & Hr'); [simpl; lia|].
  rewrite E. split; [done|]. by rewrite Hr', Hr1.
Qed.

Lemma release_expired_covered ss real extra h : hoare (in_flight ss real (h :: extra)) (release_expired h)
  (fun _ => in_flight ss real extra) (fun _ => False).
Proof.
  intros w [Hc Hr]. destruct (covered_head _ _ _ _ Hc) as (c & Hh & Hpos).
  destruct (decrement_covered _ _ _ _ _ Hc Hh) as (w1 & Ed & Hc1 & Hh1 & Hr1). unfold release_expired.
  rewrite (bind_ok _ _ w (inl tt) w1) by (unfold attempt; by rewrite Ed).
  rewrite (bind_ok _ _ w1 (inl (set_ref (c_RefCount c - 1) c)) w1).
  2:{ unfold attempt, on_db. rewrite GetChunk_quiet, Hh1 by apply (cov_quiet _ _ _ Hc1). by destruct w1. }
  simpl. destruct (Z.leb_spec (c_RefCount c - 1) 0); [|split; [done|by rewrite Hr1]].
  destruct (delete_both ss extra h (set_ref (c_RefCount c - 1) c) w1 Hc1 Hh1) as (w' & E & Hc' & Hr'); [simpl; lia|].
  rewrite E. split; [done|]. by rewrite Hr', Hr1.
Qed.

Lemma release_all ss real (release : string -> GoM (Server S) unit) l :
  (forall extra h, hoare (in_flight ss real (h :: extra)) (release h) (fun _ => in_flight ss real extra) (fun _ => False)) ->
  forall extra, hoare (in_flight ss real (l ++ extra)) (forM l release) (fun _ => in_flight ss real extra) (fun _ => False).
Proof.
  intros Hrel. induction l as [|h l IH]; intros extra; simpl; [by apply hoare_ret|].
  eapply hoare_bind; [apply Hrel|]. intros ?. apply IH.
Qed.

(** *** The invariant of the handlers *)

Definition server_ok (w : Server S) : Prop :=
  covered (sv_sessions w) [] w /\ forall id s, sv_sessions w !! id = Some s -> session_ok id s.

Lemma covered_sessions ss extra w m : covered ss extra w -> covered ss extra (mkServer (sv_db w) (sv_store w) m).
Proof. by intros [? ? ? ?]. Qed.

(** Removing a session leaves its references in flight. *)
Lemma delete_session_covered w id s : covered (sv_sessions w) [] w -> sv_sessions w !! id = Some s ->
  covered (delete id (sv_sessions w)) (session_hashes s ++ []) w.
Proof.
  intros Hc Hs. eapply covered_weaken; [|exact Hc]. intros h.
  rewrite (occ_perm h (session_refs (sv_sessions w)) _ (session_refs_delete _ _ _ Hs)), !occ_app, occ_nil. lia.
Qed.

Definition sessions_ok (ss : gmap string UploadSession) : Prop := forall id s, ss !! id = Some s -> session_ok id s.

Lemma in_flight_ok real w : sessions_ok real -> in_flight real real [] w -> server_ok w.
Proof. intros Hr [Hc E]. split; rewrite E; done. Qed.

(** A handler that looks up its session runs from a fixed table of sessions. *)
Lemma hoare_session {A} id (k : UploadSession -> GoM (Server S) A) :
  (forall real s, sessions_ok real -> real !! id = Some s ->
     hoare (in_flight real real []) (k s) (fun _ => server_ok) server_ok) ->
  hoare server_ok (s ← find_session id; k s) (fun _ => server_ok) server_ok.
Proof.
  intros Hk w [Hc Hs]. unfold find_session, mbind, GoM_bind. destruct (sv_sessions w !! id) as [s|] eqn:Es; [|by split].
  by apply (Hk (sv_sessions w) s).
Qed.

Lemma session_refs_put ss id s h :
  occ h (session_refs (<[id := s]> ss)) = occ h (session_hashes s) + occ h (session_refs (delete id ss)).
Proof.
  rewrite <-insert_delete_eq. rewrite (occ_perm h _ _ (session_refs_insert _ _ s (lookup_delete_eq ss id))). by rewrite occ_app.
Qed.

Lemma session_refs_delete_occ ss id s h : ss !! id = Some s ->
  occ h (session_refs ss) = occ h (session_hashes s) + occ h (session_refs (delete id ss)).
Proof. intros Hs. by rewrite (occ_perm h _ _ (session_refs_delete _ _ _ Hs)), occ_app. Qed.

Lemma record_chunk_hashes i size t hs s h : s_ChunkHashes s !! i = None ->
  occ h (session_hashes (record_chunk i size t hs s)) = occ h hs + occ h (session_hashes s).
Proof.
  intros Hn. rewrite <-occ_app. apply occ_perm. unfold session_hashes. simpl.
  change (hs ++ concat (map_to_list (s_ChunkHashes s)).*2) with (concat ((i, hs) :: map_to_list (s_ChunkHashes s)).*2).
  apply concat_perm. by rewrite map_to_list_insert.
Qed.

Lemma record_chunk_ok id i size t hs s : session_ok id s -> 0 <= i < s_TotalChunks s ->
  session_ok id (record_chunk i size t hs s).
Proof.
  intros (Hid & Hd & Hr) Hi. split_and!; simpl; [done|by rewrite !dom_insert_L, Hd|].
  intros j. rewrite lookup_insert_is_Some. intros [<-|[_ Hj]]; auto.
Qed.

Lemma covered_rand ss extra w r : covered ss extra w -> covered ss extra (with_db (with_rand r (sv_db w)) w).
Proof. by intros [? ? ? ?]. Qed.

Context (has_vfs has_storage : bool) (chunker : Chunker) (storageType : string) (Hchunker : wf_chunker chunker).

Definition keeps_ok {A} (m : GoM (Server S) A) : Prop := hoare server_ok m (fun _ => server_ok) server_ok.

Lemma createUpload_keeps u req : keeps_ok (createUpload u req).
Proof.
  unfold keeps_ok, createUpload. apply hoare_require; [done|]. intros _.
  destruct req as [q|]; [|by apply hoare_fail]. cbn [mbind]. intros w Hw. rewrite bind_mret. revert w Hw.
  do 3 (apply hoare_require; [done|]; intros _). eapply hoare_bind.
  - apply hoare_instead with (Q := fun _ => server_ok). unfold generateSessionID. eapply hoare_bind.
    + apply (hoare_on_db server_ok _ (fun _ => server_ok)). intros w [Hc Hs].
      destruct (rand_read 16 (db_rand (sv_db w))) as [[b|e|m|] r] eqn:Er; try (split; [by apply covered_rand|done]);
        unfold rand_read in Er; by destruct (next_fault _) as [[] ?].
    + intros b. by apply hoare_ret.
  - intros sid. apply hoare_now. intros t w [Hc Hs]. split; simpl.
    + eapply covered_sessions, covered_weaken; [|exact Hc]. intros h. rewrite session_refs_put. unfold session_hashes at 1. simpl.
      rewrite map_to_list_empty. simpl. destruct (sv_sessions w !! sid) as [s|] eqn:E.
      * rewrite (session_refs_delete_occ _ _ _ h E). pose proof (occ_nonneg h (session_hashes s)). unfold occ, zlen. simpl. lia.
      * rewrite delete_id by done. unfold occ, zlen. simpl. lia.
    + intros id s. rewrite lookup_insert_Some. intros [[<- <-]|[_ ?]]; [|eauto]. split_and!; simpl; [done|by rewrite !dom_empty_L|].
      intros i. rewrite lookup_empty. by intros [? ?].
Qed.

Lemma uploadChunk_keeps u sid idx cl body : keeps_ok (uploadChunk has_storage chunker storageType u sid idx cl body).
Proof.
  unfold keeps_ok, uploadChunk. do 3 (apply hoare_require; [done|]; intros _).
  destruct (Atoi idx) as [i|]; [|by apply hoare_fail]. destruct (Z.ltb_spec i 0); [by apply hoare_fail|].
  intros w Hw. rewrite bind_mret. revert w Hw. apply hoare_session. intros real s Hreal Hs.
  pose proof (in_flight_ok real) as Hend. apply hoare_require; [auto|]. intros _. apply hoare_now. intros t.
  do 2 (apply hoare_require; [auto|]; intros ?).
  case_bool_decide as Hnew; [apply hoare_ret; auto|].
  do 3 (apply hoare_require; [auto|]; intros _).
  eapply hoare_bind; [apply hoare_instead with (Q := fun _ => in_flight real real []), hoare_lift|].
  { pose proof (read_limited_total body maxChunkSize). destruct (read_limited maxChunkSize body); auto. }
  intros data. apply hoare_require; [auto|]. intros _.
  destruct (cut_part chunker data Hchunker) as (pieces & -> & _).
  intros w Hw. unfold instead at 1, lift. cbn [mbind]. unfold mbind at 1, GoM_bind at 1. cbv beta iota. revert w Hw.
  eapply hoare_bind; [eapply hoare_conseq; [apply (process_chunks_covered real real storageType pieces [] 0 [])|done|done|auto]|].
  intros hs w [Hc Hr]. rewrite app_nil_r in Hc. pose proof (Hreal _ _ Hs) as (Hid & Hdom & _).
  assert (s_ChunkHashes s !! i = None) as Hn.
  { apply not_elem_of_dom. rewrite <-Hdom. rewrite not_elem_of_dom. by apply eq_None_not_Some. }
  split; simpl; rewrite Hid, Hr.
  - eapply covered_sessions, covered_weaken; [|exact Hc]. intros h.
    rewrite session_refs_put, record_chunk_hashes, (session_refs_delete_occ _ _ _ h Hs), occ_nil by done. lia.
  - intros id s'. rewrite lookup_insert_Some. intros [[<- <-]|[_ ?]]; [|eauto]. bool_to_prop. by apply record_chunk_ok; [eauto|].
Qed.

Lemma covered_frame ss extra w d : covered ss extra w ->
  frame (db_chunks (sv_db w)) (db_manifests (sv_db w)) d -> covered ss extra (with_db d w).
Proof.
  intros [Hq Hs Hr Hc] (H1 & H2 & H3). split; simpl; [done|done| |].
  - intros h c. rewrite H1. apply Hr.
  - intros h. specialize (Hc h). unfold chunk_count in *. rewrite H1. pose proof (manifest_refs_mono _ _ h H2). lia.
Qed.

(** Operations of the file system below a handler. *)
Lemma on_db_frame {A} ss extra (m : GoM DB A) : (forall C M, preserves (frame C M) m) ->
  preserves (covered ss extra) (on_db m).
Proof.
  intros Hm w Hw. specialize (Hm (db_chunks (sv_db w)) (db_manifests (sv_db w)) (sv_db w)). unfold on_db.
  destruct (m (sv_db w)) as [r d]. apply covered_frame; [done|]. apply Hm. split_and!; [done|done|apply (cov_quiet _ _ _ Hw)].
Qed.

Lemma on_db_sessions {A} (m : GoM DB A) (w : Server S) : sv_sessions (on_db m w).2 = sv_sessions w.
Proof. unfold on_db. by destruct (m (sv_db w)). Qed.

Lemma on_db_in_flight {A} ss real extra (m : GoM DB A) : (forall C M, preserves (frame C M) m) ->
  preserves (in_flight ss real extra) (on_db m).
Proof. intros Hm w [Hc Hr]. split; [by apply on_db_frame|]. by rewrite on_db_sessions. Qed.

Lemma file_operation_ok {A} (m : GoM DB A) : (forall C M, preserves (frame C M) m) -> preserves server_ok (on_db m).
Proof. intros Hm w [Hc Hs]. unfold server_ok. rewrite on_db_sessions. split; [by apply on_db_frame|done]. Qed.

Lemma CreateManifest_quiet m d : quiet d -> CreateManifest m d =
  match insert_manifest m d with
  | inl e => (Err (Wrapf "failed to create manifest" e), d)
  | inr (_, d') => (Ok tt, d')
  end.
Proof.
  intros Hd. unfold CreateManifest, wrap, mbind, GoM_bind. rewrite exec_quiet by done. by destruct (insert_manifest m d) as [|[]].
Qed.

Lemma DeleteManifest_quiet id m d : quiet d -> db_manifests d !! id = Some m ->
  DeleteManifest id d = (Ok tt, with_manifests (delete id (db_manifests d)) d).
Proof. intros Hd Hm. unfold DeleteManifest. apply exec_affected_ok; [done|]. unfold delete_manifest. by rewrite Hm. Qed.

Lemma insert_manifest_inv m d n d' : insert_manifest m d = inr (n, d') ->
  db_manifests d !! m_ID m = None /\ d' = with_manifests (<[m_ID m := m]> (db_manifests d)) d.
Proof.
  unfold insert_manifest. case_bool_decide as Hm; [done|]. apply eq_None_not_Some in Hm. intros E.
  repeat case_match; simplify_eq. by rewrite Hm.
Qed.

Lemma VFS_Delete_total id d : match VFS_Delete id d with (Ok _, _) | (Err _, _) => True | _ => False end.
Proof.
  assert (hoare (fun _ => True) (VFS_Delete id) (fun _ _ => True) (fun _ => True)) as Hh; [|by apply Hh].
  apply hoare_wrap. unfold SoftDelete. apply get_w_keeps. intros d0. by apply exec_affected_keeps.
Qed.

(** A manifest takes over references in flight. *)
Lemma covered_manifest ss extra w m : covered ss (m_Chunks m ++ extra) w -> db_manifests (sv_db w) !! m_ID m = None ->
  covered ss extra (with_db (with_manifests (<[m_ID m := m]> (db_manifests (sv_db w))) (sv_db w)) w).
Proof.
  intros [Hq Hs Hr Hc] Hm. split; simpl; [done..|]. intros h. specialize (Hc h).
  rewrite (occ_perm h _ _ (manifest_refs_insert _ _ m Hm)), occ_app. rewrite occ_app in Hc. unfold chunk_count in *. simpl. lia.
Qed.

Lemma covered_unmanifest ss extra w id m : covered ss extra w -> db_manifests (sv_db w) !! id = Some m ->
  covered ss (m_Chunks m ++ extra) (with_db (with_manifests (delete id (db_manifests (sv_db w))) (sv_db w)) w).
Proof.
  intros [Hq Hs Hr Hc] Hm. split; simpl; [done..|]. intros h. specialize (Hc h).
  rewrite <-(insert_delete_id (db_manifests (sv_db w)) id m Hm) in Hc at 1.
  rewrite (occ_perm h _ _ (manifest_refs_insert _ _ m (lookup_delete_eq _ _))), occ_app in Hc. rewrite occ_app.
  unfold chunk_count in *. simpl. lia.
Qed.

Lemma session_to_flight real w id s : covered real [] w -> real !! id = Some s -> session_ok id s ->
  covered (delete id real) (collect_hashes s ++ []) w.
Proof.
  intros Hc Hs Hok. eapply covered_weaken; [|exact Hc]. intros h.
  rewrite (session_refs_delete_occ _ _ _ h Hs), occ_app, occ_nil, (occ_perm h _ _ (collect_hashes_perm id s Hok)). lia.
Qed.

Lemma flight_to_session real w id s : covered (delete id real) (collect_hashes s ++ []) w -> real !! id = Some s ->
  session_ok id s -> covered real [] w.
Proof.
  intros Hc Hs Hok. eapply covered_weaken; [|exact Hc]. intros h.
  rewrite (session_refs_delete_occ _ _ _ h Hs), occ_app, occ_nil, (occ_perm h _ _ (collect_hashes_perm id s Hok)). lia.
Qed.

Lemma UpdateFile_quiet id us d r d' : quiet d -> UpdateFile id us d = (r, d') ->
  (r = Ok tt /\ frame (db_chunks d) (db_manifests d) d') \/ (exists e, r = Err e) /\ d' = d.
Proof.
  intros Hq. unfold UpdateFile. destruct us as [|u us]; [intros [= <- <-]; left; by split|].
  destruct (invalid_field (u :: us)); [intros [= <- <-]; right; eauto|]. rewrite bind_get. intros E.
  pose proof (exec_affected_quiet "failed to update file" "file not found"
    (update_file id (fun f => set_updated (db_now d) (foldl (fun f u => apply_update u f) f (u :: us)))) d Hq) as Ee.
  rewrite Ee in E. clear Ee. unfold update_file in E. destruct (db_files d !! id); [|injection E as <- <-; right; eauto].
  destruct (negb (unique_ok _ _)); [injection E as <- <-; right; eauto|].
  destruct (negb (references_ok _ _)); injection E as <- <-; [right; eauto|]. left. by split.
Qed.

Definition cover_ends (real : gmap string UploadSession) (r : Res reply * Server S) : Prop :=
  match r with
  | (Ok _, w) => server_ok w
  | (Err _, w) => server_ok w
  | _ => False
  end.

Lemma attempt_db_ok {A} (m : GoM DB A) w a d : m (sv_db w) = (Ok a, d) ->
  attempt (on_db m) w = (Ok (inl a), with_db d w).
Proof. intros E. unfold attempt, on_db. by rewrite E. Qed.

Lemma ignore_db_ok {A} (m : GoM DB A) w a d : m (sv_db w) = (Ok a, d) ->
  ignore (on_db m) w = (Ok tt, with_db d w).
Proof. intros E. unfold ignore. by rewrite (bind_ok _ _ _ _ _ (attempt_db_ok _ _ _ _ E)). Qed.

Lemma attempt_db_err {A} (m : GoM DB A) w e d : m (sv_db w) = (Err e, d) ->
  attempt (on_db m) w = (Ok (inr e), with_db d w).
Proof. intros E. unfold attempt, on_db. by rewrite E. Qed.

(** The last part of [completeUpload]: the references move from the session to
    the manifest, or stay with the session. *)
Lemma complete_tail real sid s file m w :
  in_flight real real [] w -> sessions_ok real -> real !! sid = Some s -> m_Chunks m = collect_hashes s ->
  cover_ends real ((r ← attempt (on_db (CreateManifest m));
  match r with
  | inr _ => ignore (on_db (VFS_Delete (f_ID file)));; fail (ErrHTTP 500 "Failed to create manifest")
  | inl _ =>
      r ← attempt (on_db (UpdateFile (f_ID file) [U_manifest_id (Some (m_ID m))]));
      match r with
      | inr _ =>
          ignore (on_db (DeleteManifest (m_ID m)));;
          ignore (on_db (VFS_Delete (f_ID file)));;
          fail (ErrHTTP 500 "Failed to update file with manifest")
      | inl _ => delete_session sid;; mret (R_completed file)
      end
  end) w).
Proof.
  intros [Hc Hr] Hreal Hs Hm. pose proof (Hreal _ _ Hs) as Hsok. pose proof (cov_quiet _ _ _ Hc) as Hq.
  assert (forall w' code msg, in_flight real real [] w' -> cover_ends real
    ((ignore (on_db (VFS_Delete (f_ID file)));; fail (ErrHTTP code msg) : GoM (Server S) reply) w')) as Hfail.
  { intros w' code msg Hw'. unfold cover_ends, ignore, attempt, fail, mbind, GoM_bind.
    pose proof (on_db_in_flight real real [] (VFS_Delete (f_ID file)) (fun C M => frame_VFS_Delete C M _) w' Hw') as Hw''.
    pose proof (VFS_Delete_total (f_ID file) (sv_db w')) as Ht. unfold on_db in *.
    destruct (VFS_Delete (f_ID file) (sv_db w')) as [[]]; simpl in *; done || by apply (in_flight_ok real). }
  pose proof (CreateManifest_quiet m (sv_db w) Hq) as Ecm.
  destruct (insert_manifest m (sv_db w)) as [e|[n d']] eqn:Ei.
  { rewrite (bind_ok _ _ _ _ _ (attempt_db_err _ _ _ _ Ecm)). apply Hfail. split; [by destruct w|done]. }
  apply insert_manifest_inv in Ei as [Hn ->]. rewrite (bind_ok _ _ _ _ _ (attempt_db_ok _ _ _ _ Ecm)).
  set (w1 := with_db _ w).
  assert (covered (delete sid real) [] w1) as Hc1.
  { apply covered_manifest; [|done]. rewrite Hm. by apply session_to_flight. }
  destruct (UpdateFile (f_ID file) [U_manifest_id (Some (m_ID m))] (sv_db w1)) as [r d2] eqn:Eu.
  pose proof (UpdateFile_quiet _ _ _ _ _ (cov_quiet _ _ _ Hc1) Eu) as [[-> Hfr]|[[e ->] ->]].
  - rewrite (bind_ok _ _ _ _ _ (attempt_db_ok _ _ _ _ Eu)).
    apply (covered_frame (delete sid real) [] w1) in Hfr; [|done]. unfold cover_ends. simpl. split; simpl; rewrite Hr.
    + exact (covered_sessions _ _ (with_db d2 w1) _ Hfr).
    + intros id s'. rewrite lookup_delete_Some. intros [_ ?]. eauto.
  - rewrite (bind_ok _ _ _ _ _ (attempt_db_err _ _ _ _ Eu)).
    assert (db_manifests (sv_db w1) !! m_ID m = Some m) as Hm1 by (simpl; by rewrite lookup_insert_eq).
    pose proof (DeleteManifest_quiet (m_ID m) m (sv_db w1) (cov_quiet _ _ _ Hc1) Hm1) as Ed.
    rewrite (bind_ok _ _ _ _ _ (ignore_db_ok _ _ _ _ Ed)).
    apply Hfail. split; [|done]. apply flight_to_session with sid s; [|done|done]. rewrite <-Hm.
    by apply covered_unmanifest.
Qed.

Lemma VFS_CreateFile_total u p n m sz d : match VFS_CreateFile u p n m sz d with (Ok _, _) | (Err _, _) => True | _ => False end.
Proof.
  assert (forall I : DB -> Prop, (forall l d, I d -> I (with_faults l d)) -> forall A a b (q : DB -> option A),
    hoare I (attempt (scan_row a b q)) (fun _ => I) I) as Hscan.
  { intros I HI A a b q. eapply hoare_conseq with (E := I); [apply hoare_attempt, (scan_row_keeps I HI)|done| |done]. by intros [x|e]. }
  assert (hoare (fun _ => True) (VFS_CreateFile u p n m sz) (fun _ _ => True) (fun _ => True)) as Hh; [|by apply Hh].
  unfold VFS_CreateFile, must_be_absent, GetFileByPath, CreateFile. destruct (negb _); [by apply hoare_fail|].
  eapply hoare_bind with (Q := fun _ _ => True); [eapply hoare_bind; [by apply (Hscan (fun _ => True))|]|].
  { intros [f|e]; [by apply hoare_fail|by apply hoare_ret]. }
  intros ?. apply get_w_keeps. intros d0. apply hoare_bind with (Q := fun _ _ => True).
  { intros d1 _. unfold generateID, rand_read. by destruct (next_fault _) as [[] ?]. }
  intros id. apply hoare_bind with (Q := fun _ _ => True); [|intros ?; by apply hoare_ret].
  apply hoare_wrap. apply hoare_bind with (Q := fun _ _ => True).
  { eapply hoare_conseq with (E := fun _ => True); [by apply hoare_attempt, (sql_exec_hoare (fun _ => True))|done| |done]. by intros [x|e]. }
  intros [k|e]; [by apply hoare_ret|]. destruct (is_unique_failed e); by apply hoare_fail.
Qed.

Lemma completeUpload_keeps u sid : keeps_ok (completeUpload has_vfs u sid).
Proof.
  unfold keeps_ok, completeUpload. do 3 (apply hoare_require; [done|]; intros _).
  apply hoare_session. intros real s Hreal Hs. pose proof (in_flight_ok real) as Hend.
  do 2 (apply hoare_require; [auto|]; intros _).
  eapply hoare_bind with (Q := fun _ => in_flight real real []).
  { intros w Hw. pose proof (on_db_in_flight real real [] (VFS_CreateFile u (s_ParentID s) (s_FileName s) (s_MimeType s) (s_Size s))
      (fun C M => frame_VFS_CreateFile C M _ _ _ _ _) w Hw) as Hw'.
    pose proof (VFS_CreateFile_total u (s_ParentID s) (s_FileName s) (s_MimeType s) (s_Size s) (sv_db w)) as Ht.
    unfold attempt, on_db in *. by destruct (VFS_CreateFile _ _ _ _ _ (sv_db w)) as [[]]. }
  intros r. eapply hoare_bind with (Q := fun _ => in_flight real real []).
  { destruct r as [f|e]; [by apply hoare_ret|]. destruct (is_already_exists e); [apply hoare_fail; auto|].
    destruct (is_invalid_name e); apply hoare_fail; auto. }
  intros file. eapply hoare_bind with (Q := fun _ => in_flight real real []).
  { apply hoare_conseq with (P := in_flight real real []) (Q := fun _ => in_flight real real []) (E := in_flight real real []);
      [|done|done|auto].
    apply hoare_instead. eapply hoare_bind with (Q := fun _ => in_flight real real []).
    - apply hoare_wrap. apply (hoare_on_db (in_flight real real []) _ (fun _ => in_flight real real [])). intros w [Hc Hr].
      destruct (rand_read _ (db_rand (sv_db w))) as [[b|e|m|] rr] eqn:Er; try (split; [by apply covered_rand|done]);
        unfold rand_read in Er; by destruct (next_fault _) as [[] ?].
    - intros b. by apply hoare_ret. }
  intros ms. apply hoare_now. intros t w Hw.
  exact (complete_tail real sid s file (mkManifestRow ("manifest_" +:+ ms)%string (f_ID file) 1 (s_Size s)
    (zlen (collect_hashes s)) (collect_hashes s) (s_Checksum s) "server" t) w Hw Hreal Hs eq_refl).
Qed.

Lemma cancelUpload_keeps u sid : keeps_ok (cancelUpload has_storage u sid).
Proof.
  unfold keeps_ok, cancelUpload. do 2 (apply hoare_require; [done|]; intros _).
  apply hoare_session. intros real s Hreal Hs. apply hoare_require; [eauto using in_flight_ok|]. intros _.
  assert (sessions_ok (delete sid real)) as Hd by (intros id s'; rewrite lookup_delete_Some; intros [_ ?]; eauto).
  eapply hoare_bind with (Q := fun _ => in_flight (delete sid real) (delete sid real) (session_hashes s ++ [])).
  { intros w [Hc Hr]. unfold delete_session. simpl. split; [|simpl; by rewrite Hr]. apply covered_sessions.
    rewrite <-Hr. apply delete_session_covered; rewrite Hr; done. }
  intros ?. eapply hoare_bind with (Q := fun _ => in_flight (delete sid real) (delete sid real) []).
  - destruct has_storage.
    + eapply hoare_conseq with (E := fun _ => False); [|intros w Hw; exact Hw|intros ? w Hw; exact Hw|by intros ? []].
      apply (release_all (delete sid real) (delete sid real) release_cancelled).
      intros extra h. apply release_cancelled_covered.
    + apply hoare_ret. intros w Hw. by apply in_flight_weaken in Hw.
  - intros ?. apply hoare_ret. intros w Hw. by apply (in_flight_ok (delete sid real)).
Qed.

Lemma getUploadStatus_keeps u sid : keeps_ok (getUploadStatus u sid).
Proof.
  unfold keeps_ok, getUploadStatus. do 2 (apply hoare_require; [done|]; intros _).
  apply hoare_session. intros real s Hreal Hs. pose proof (in_flight_ok real) as Hend.
  apply hoare_require; [auto|]. intros _. apply hoare_now. intros t. apply hoare_require; [auto|]. intros _.
  apply hoare_ret. auto.
Qed.

(** The loop of the cleanup: what is still to visit is still there. *)
Lemma cleanup_loop t l : forall w, server_ok w -> NoDup l.*1 -> (forall p, p ∈ l -> sv_sessions w !! p.1 = Some p.2) ->
  exists w', forM l (fun p => if s_ExpiresAt p.2 <? t then forM (session_hashes p.2) release_expired;; delete_session p.1
                     else mret tt) w = (Ok tt, w') /\ server_ok w'.
Proof.
  induction l as [|[id s] l IH]; intros w Hw Hnd Hl; simpl; [by exists w|]. inversion Hnd as [|? ? Hni Hnd']; subst.
  destruct (s_ExpiresAt s <? t).
  2:{ rewrite bind_mret. apply IH; [done|done|]. intros p Hp. apply Hl. by right. }
  destruct Hw as [Hc Hs]. specialize (Hl (id, s) ltac:(by left)) as Hid. simpl in Hid.
  pose proof (release_all (delete id (sv_sessions w)) (sv_sessions w) release_expired (session_hashes s)
    (fun extra h => release_expired_covered _ _ extra h) [] w) as Hrel.
  specialize (Hrel (conj (delete_session_covered _ _ _ Hc Hid) eq_refl)).
  destruct (forM (session_hashes s) release_expired w) as [[[]|e|m|] w1] eqn:E; try done. destruct Hrel as [Hc1 Hr1].
  rewrite bind_assoc, (bind_ok _ _ _ _ _ E). unfold delete_session at 1.
  set (w2 := mkServer (sv_db w1) (sv_store w1) (delete id (sv_sessions w1))).
  rewrite (bind_ok _ _ w1 tt w2) by done. apply IH; [|done|].
  - split; simpl; rewrite Hr1; [by apply covered_sessions|]. intros k s'. rewrite lookup_delete_Some. intros [_ ?]. eauto.
  - intros p Hp. simpl. rewrite Hr1, lookup_delete_ne; [apply Hl; by right|]. intros ->. apply Hni. by apply list_elem_of_fmap_2.
Qed.

Lemma cleanup_keeps : keeps_ok cleanup_tick.
Proof.
  unfold keeps_ok, cleanup_tick. apply hoare_now. intros t w Hw. rewrite bind_get.
  destruct (cleanup_loop t (map_to_list (sv_sessions w)) w Hw) as (w' & -> & Hw'); [apply NoDup_fst_map_to_list| |done].
  intros [id s]. by rewrite elem_of_map_to_list.
Qed.
End Covered.

(** ** Properties *)

Section Requests.
Context `{HashFn} {S : Type} `{Backend S} (has_vfs has_storage : bool) (chunker : Chunker) (storageType : string).

(** What can happen to the server: the requests of this file, a tick of the
    cleanup, an operation of the file system, the passing of time. *)
Inductive server_op :=
  | SCreate (userID : string) (req : option createUploadRequest)
  | SUpload (userID sessionID index : string) (contentLength : Z) (body : reader)
  | SComplete (userID sessionID : string)
  | SStatus (userID sessionID : string)
  | SCancel (userID sessionID : string)
  | SCleanup
  | SFiles (o : vfs_op)
  | STime (t : Z).

Definition set_now (t : Z) (d : DB) : DB :=
  mkDB (db_users d) (db_files d) (db_manifests d) (db_chunks d) t (db_rand d) (db_faults d) (db_fk d).

Definition run_server (o : server_op) (w : Server S) : Server S :=
  match o with
  | SCreate u req => (createUpload u req w).2
  | SUpload u sid i cl body => (uploadChunk has_storage chunker storageType u sid i cl body w).2
  | SComplete u sid => (completeUpload has_vfs u sid w).2
  | SStatus u sid => (getUploadStatus u sid w).2
  | SCancel u sid => (cancelUpload has_storage u sid w).2
  | SCleanup => (cleanup_tick w).2
  | SFiles o => (on_db (run_op o) w).2
  | STime t => (on_db (fun d => (Ok tt, set_now t d)) w).2
  end.

Lemma run_server_ok o w : (forall d, valid_key (sha256_hex d)) -> wf_chunker chunker -> server_ok w -> server_ok (run_server o w).
Proof.
  intros Hkeys Hch Hw. destruct o as [u q|u sid i cl body|u sid|u sid|u sid| |o|t]; simpl.
  - by apply (preserves_hoare server_ok), Hw; apply createUpload_keeps.
  - by apply (preserves_hoare server_ok), Hw; apply uploadChunk_keeps.
  - by apply (preserves_hoare server_ok), Hw; apply completeUpload_keeps.
  - by apply (preserves_hoare server_ok), Hw; apply getUploadStatus_keeps.
  - by apply (preserves_hoare server_ok), Hw; apply cancelUpload_keeps.
  - by apply (preserves_hoare server_ok), Hw; apply cleanup_keeps.
  - apply (file_operation_ok (run_op o)); [|done]. intros C M. apply frame_run_op.
  - apply (file_operation_ok (fun d => (Ok tt, set_now t d))); [|done]. by intros C M d.
Qed.

(** [C1] Over every sequence of uploads by any users, completions, cancellations,
    expiries and file system operations, with a store that may refuse any call:
    the count of a chunk never falls below the number of its references, and
    every digest that a manifest or an open session mentions has its content,
    with that digest, in the store -- deduplication and cleanup never delete the
    content of a file; and no request makes a handler panic. *)
Theorem references_never_dangle ops (w : Server S) :
  (forall d, valid_key (sha256_hex d)) -> wf_chunker chunker -> server_ok w ->
  let w' := foldl (fun w o => run_server o w) w ops in
  server_ok w' /\
  (forall h, h ∈ session_refs (sv_sessions w') ++ manifest_refs (db_manifests (sv_db w')) ->
    exists data, blob_at (sv_store w') h = Some data /\ sha256_hex data = h) /\
  forall u sid idx cl body, settles (uploadChunk has_storage chunker storageType u sid idx cl body w').1 /\
    settles (completeUpload has_vfs u sid w').1 /\ settles (cancelUpload has_storage u sid w').1 /\ settles (cleanup_tick w').1.
Proof.
  intros Hkeys Hch. assert (forall w, server_ok w -> forall h, h ∈ session_refs (sv_sessions w) ++ manifest_refs (db_manifests (sv_db w)) ->
    exists data, blob_at (sv_store w) h = Some data /\ sha256_hex data = h) as Hsafe.
  { clear w. intros w [Hc _] h Hh. apply occ_elem in Hh. rewrite occ_app in Hh. pose proof (cov_refs _ _ _ Hc h) as Hle.
    rewrite occ_nil in Hle. unfold chunk_count in Hle. destruct (db_chunks (sv_db w) !! h) as [c|] eqn:E; [|lia].
    destruct (cov_rows _ _ _ Hc _ _ E) as [_ (data & -> & Hd)]. eauto. }
  revert w. induction ops as [|o ops IH]; intros w Hw; simpl.
  { split; [done|]. split; [by apply Hsafe|]. intros u sid idx cl body.
    split_and!; eapply (hoare_settles server_ok); (apply uploadChunk_keeps || apply completeUpload_keeps ||
      apply cancelUpload_keeps || apply cleanup_keeps || exact Hw); done. }
  apply IH. by apply run_server_ok.
Qed.
End Requests.

(** ** Witnesses *)

Section Witnesses.
#[local] Existing Instance toy_hash.

Lemma upload_root_good : Forall good_elem ["data"%string].
Proof. by apply (bool_decide_unpack _). Qed.

#[local] Instance upload_backend : Backend FS := Local_Backend ["data"%string] upload_root_good.

Definition db0 : DB := mkDB {["u"%string; "v"%string]} ∅ ∅ ∅ 100 (mkRand (fun n => zb (Z.of_nat n)) 0 []) [] true.
Definition server0 : Server FS := mkServer db0 (mkFS ∅ ∅ []) ∅.

Lemma server0_ok : server_ok server0.
Proof.
  split; [|intros id s; simpl; by rewrite lookup_empty]. split; simpl; [done|intros k _; apply not_elem_of_empty| |].
  - intros h c. by rewrite lookup_empty.
  - intros h. vm_compute. discriminate.
Qed.

Definition session_of (w : Server FS) : string := default ""%string (head (map_to_list (sv_sessions w)).*1).
Definition abc : reader := [([x61; x62; x63], None)].
Definition create (u name : string) : server_op := SCreate u (Some (mkCreate "" name 3 "" "")).

(** One user has created a session. *)
Definition server1 : Server FS := run_server true true small_chunker "local" (create "u" "a") server0.

Lemma references_witness :
  let ops := [create "u" "a"; SUpload "u" (session_of server1) "0" 3 abc; SComplete "u" (session_of server1);
              SFiles (OpEmptyTrash "u"); SCleanup] in
  let w := foldl (fun w o => run_server true true small_chunker "local" o w) server0 ops in
  length (manifest_refs (db_manifests (sv_db w))) = 1%nat /\ server_ok w.
Proof.
  intros ops w. split; [vm_compute; reflexivity|].
  pose proof (references_never_dangle true true small_chunker "local" ops server0
    Encrypted.sha256_local_key ltac:(by repeat split) server0_ok) as [Hok _]. exact Hok.
Defined.

(** The theorem needs the database to accept its statements: when the row of a
    cancelled chunk survives the deletion of its blob, the next upload of the same
    content is deduplicated against it, succeeds, and has no content. *)
Lemma surviving_row_loses_content :
  let run := run_server true true small_chunker "local" in
  let w2 := run (SUpload "u" (session_of server1) "0" 3 abc) server1 in
  let w3 := run (SCancel "u" (session_of server1))
              (mkServer (with_faults [false; false; true] (sv_db w2)) (sv_store w2) (sv_sessions w2)) in
  let w4 := run (create "v" "b") w3 in
  let r := uploadChunk true small_chunker "local" "v" (session_of w4) "0" 3 abc w4 in
  exists h, r.1 = Ok (R_uploaded 0 3 1 [h]) /\ blob_at (sv_store r.2) h = None.
Proof. eexists. split; vm_compute; reflexivity. Qed.
End Witnesses.
