(* ===== verification/Download.v ===== *)
(** * Downloads (internal/server/handlers_download.go, helpers.go; ranges of handlers_public.go)

    Handlers over the server state and a response writer.  The writer records the
    headers, the status that was written first and the pieces of the body; a
    write fails when its fault list says so.  A handler that has replied early
    ends with [ErrHTTP]. *)

From S2P Require Import Prelude GoStrings GoCrypto Crypto Chunker Storage Encrypted Database Vfs Server.

(** ** The response *)

Inductive json :=
  | J_error (msg : string)
  | J_decrypt_yourself (chunks : list string) (size chunk_count : Z)
  | J_chunks (file : Database.File) (chunks : list string)
  | J_share_info (file_name file_type : string) (size_bytes : Z) (mime_type : string) (preview_only allow_upload : bool)
      (expires_at : option Z) (has_password : bool).

Inductive piece := Raw (b : bytes) | Json (j : json).

Record Writer := mkWriter {
  w_headers : gmap string string; w_status : option Z; w_body : list piece; w_faults : list bool
}.

(** The bytes of a body that consists of raw pieces. *)
Fixpoint raw_body (l : list piece) : option bytes :=
  match l with
  | [] => Some []
  | Raw b :: l => r ← raw_body l; Some (b ++ r)
  | Json _ :: _ => None
  end.

(** ** sanitizeFilename

    On names in UTF-8: control characters are the bytes below 32, 127, and the
    two-byte forms 0xC2 0x80 to 0xC2 0x9F. *)
Fixpoint sanitizeFilename (name : string) : string :=
  match name with
  | "" => ""
  | String c rest =>
      let n := N_of_ascii c in
      if (n <? 32)%N then String "_" (sanitizeFilename rest)
      else if (n =? 34)%N then String "'" (sanitizeFilename rest)
      else if (n =? 92)%N || (n =? 47)%N then String "_" (sanitizeFilename rest)
      else if (n =? 127)%N then String "_" (sanitizeFilename rest)
      else if (n =? 194)%N then
        match rest with
        | String d rest' =>
            if (128 <=? N_of_ascii d)%N && (N_of_ascii d <? 160)%N then String "_" (sanitizeFilename rest')
            else String c (sanitizeFilename rest)
        | "" => String c ""
        end
      else String c (sanitizeFilename rest)
  end%string.

(** [data[a:b]] *)
Definition slice_bytes (a b : Z) (data : bytes) : Res bytes :=
  if (0 <=? a) && (a <=? b) && (b <=? zlen data) then Ok (take (Z.to_nat (b - a)) (drop (Z.to_nat a) data))
  else Panic "slice bounds out of range".

Section Download.
Context `{HashFn} `{AEAD} {S : Type} `{Backend S}.

(** The layout of HTTP dates, and the key that the server was started with. *)
Context (http_time : Z -> string) (masterKey : option bytes).

Definition D : Type := (Server S * Writer).

Definition on_server {A} (m : GoM (Server S) A) : GoM D A := fun w =>
  let '(r, s) := m w.1 in (r, (s, w.2)).
Definition on_writer {A} (m : GoM Writer A) : GoM D A := fun w =>
  let '(r, x) := m w.2 in (r, (w.1, x)).

(** The store and the writer together, as the reassembler uses them. *)
Definition on_both {A} (m : GoM (S * Writer) A) : GoM D A := fun w =>
  let '(r, (s, x)) := m (sv_store w.1, w.2) in (r, (mkServer (sv_db w.1) s (sv_sessions w.1), x)).

Definition Set_ (k v : string) : GoM D unit :=
  on_writer (fun w => (Ok tt, mkWriter (<[k := v]> (w_headers w)) (w_status w) (w_body w) (w_faults w))).

(** Only the first status counts. *)
Definition WriteHeader (code : Z) : GoM D unit :=
  on_writer (fun w => (Ok tt, mkWriter (w_headers w) (match w_status w with None => Some code | s => s end) (w_body w) (w_faults w))).

Definition write_piece (p : piece) (w : Writer) : Res unit * Writer :=
  let '(f, l) := next_fault (w_faults w) in
  let status := match w_status w with None => Some 200 | s => s end in
  if f then (Err ErrDriver, mkWriter (w_headers w) status (w_body w) l)
  else (Ok tt, mkWriter (w_headers w) status (w_body w ++ [p]) l).

Definition Write (b : bytes) : GoM Writer unit := write_piece (Raw b).

Definition JSONResponse (code : Z) (j : json) : GoM D unit :=
  Set_ "Content-Type" "application/json";; WriteHeader code;; ignore (on_writer (write_piece (Json j))).

(** [ErrorResponse(w, code, msg); return] *)
Definition reject {A} (code : Z) (msg : string) : GoM D A :=
  JSONResponse code (J_error msg);; fail (ErrHTTP code msg).

(** [if err != nil { ErrorResponse(w, code, msg); return }] *)
Definition or_reject {A} (m : GoM D A) (code : Z) (msg : string) : GoM D A :=
  r ← attempt m;
  match r with inl a => mret a | inr _ => reject code msg end.

Definition ensure (b : bool) (code : Z) (msg : string) : GoM D unit :=
  if b then mret tt else reject code msg.

(** ** Keys and manifests *)

Definition canDecrypt (file : Database.File) : bool :=
  if negb (f_IsEncrypted file) then true
  else bool_decide (is_Some masterKey) && (0 <? zlen (f_EncryptedKey file)).

Definition unwrapFileKey (file : Database.File) : Res bytes :=
  if negb (f_IsEncrypted file) then Ok []
  else match masterKey with
       | None => Err (Errorf "no master key available for decryption")
       | Some k =>
           if zlen (f_EncryptedKey file) =? 0 then Err (Errorf "file has no encrypted key")
           else UnwrapFileKey (f_EncryptedKey file) k
       end.

Fixpoint convert_chunks (offset : Z) (hashes : list string) : GoM D (list ChunkInfo) :=
  match hashes with
  | [] => mret []
  | hash :: hashes =>
      r ← attempt (on_server (on_db (GetChunk hash)));
      let size := match r with inl ch => c_SizeBytes ch | inr _ => 0 end in
      rest ← convert_chunks (i64 (offset + size)) hashes;
      mret (mkInfo hash offset size :: rest)
  end.

Definition convertManifest (m : Database.Manifest) : GoM D Encrypted.Manifest :=
  chunks ← convert_chunks 0 (m_Chunks m);
  mret (mkManifest (m_ID m) (m_FileID m) (m_Version m) (m_SizeBytes m) chunks (m_Checksum m) (m_DeviceID m) (m_CreatedAt m)).

(** ** Streaming *)

Definition fetch (hash : string) : GoM D bytes :=
  wrap ("failed to get chunk " +:+ hash) (on_server (on_store (Get hash))).

Definition fetch_decrypted (fileKey : bytes) (hash : string) : GoM D bytes :=
  encryptedData ← fetch hash;
  wrap ("failed to decrypt chunk " +:+ hash) (lift (Decrypt encryptedData fileKey)).

Definition streamContent (m : Database.Manifest) : GoM D unit :=
  forM (m_Chunks m) (fun hash =>
    data ← fetch hash;
    wrap "failed to write chunk" (on_writer (Write data))).

Definition streamDecryptedContent (m : Database.Manifest) (file : Database.File) : GoM D unit :=
  fileKey ← lift (unwrapFileKey file);
  chunkManifest ← convertManifest m;
  on_both (ReassembleDecrypt Write chunkManifest fileKey).

(** The loop of [streamRange] and [streamDecryptedRange], which differ in how a
    chunk is read. *)
Fixpoint range_loop (read : string -> GoM D bytes) (chunks : list string) (start end_ targetBytes currentOffset bytesWritten : Z)
    : GoM D unit :=
  match chunks with
  | [] => mret tt
  | hash :: chunks =>
      data ← read hash;
      let chunkSize := zlen data in
      let chunkStart := currentOffset in
      let chunkEnd := i64 (chunkStart + chunkSize) in
      if (chunkEnd <=? start) || (i64 (end_ + 1) <=? chunkStart) then
        range_loop read chunks start end_ targetBytes chunkEnd bytesWritten
      else
        let sliceStart := if chunkStart <? start then i64 (start - chunkStart) else 0 in
        let sliceEnd := if i64 (end_ + 1) <? chunkEnd then i64 (end_ - chunkStart + 1) else chunkSize in
        slice ← lift (slice_bytes sliceStart sliceEnd data);
        wrap "failed to write chunk data" (on_writer (Write slice));;
        let bytesWritten := i64 (bytesWritten + zlen slice) in
        if targetBytes <=? bytesWritten then mret tt
        else range_loop read chunks start end_ targetBytes chunkEnd bytesWritten
  end.

Definition streamRange (m : Database.Manifest) (start end_ : Z) : GoM D unit :=
  range_loop fetch (m_Chunks m) start end_ (i64 (end_ - start + 1)) 0 0.

Definition streamDecryptedRange (m : Database.Manifest) (file : Database.File) (start end_ : Z) : GoM D unit :=
  fileKey ← lift (unwrapFileKey file);
  range_loop (fetch_decrypted fileKey) (m_Chunks m) start end_ (i64 (end_ - start + 1)) 0 0.

(** ** Handlers *)

Record Request := mkRequest { r_userID : string; r_id : string; r_hash : string; r_Range : string; r_IfNoneMatch : string }.

Definition attachment (kind : string) (file : Database.File) : string :=
  (kind +:+ "; filename=" +:+ quoted (sanitizeFilename (f_Name file)))%string.

Definition handleFullDownload (r : Request) (file : Database.File) (m : Database.Manifest) : GoM D unit :=
  Set_ "Content-Type" (f_MimeType file);;
  Set_ "Content-Length" (pretty (f_SizeBytes file));;
  Set_ "Content-Disposition" (attachment "attachment" file);;
  Set_ "Accept-Ranges" "bytes";;
  Set_ "Last-Modified" (http_time (f_UpdatedAt file));;
  match f_Checksum file with Some c => Set_ "ETag" (quoted c) | None => mret tt end;;
  if match f_Checksum file with
     | Some c => negb (bool_decide (r_IfNoneMatch r = "")) && bool_decide (r_IfNoneMatch r = quoted c)
     | None => false
     end
  then WriteHeader 304
  else if f_IsEncrypted file && negb (canDecrypt file) then
    Set_ "Content-Type" "application/json";;
    JSONResponse 200 (J_decrypt_yourself (m_Chunks m) (f_SizeBytes file) (zlen (m_Chunks m)))
  else
    WriteHeader 200;;
    if f_IsEncrypted file then ignore (streamDecryptedContent m file) else ignore (streamContent m).

(** The first and last byte that a Range header asks for, or the message of the
    416 reply. *)
Definition parse_range (rangeHeader : string) (size : Z) : string + (Z * Z) :=
  if negb (HasPrefix rangeHeader "bytes=") then inl "Invalid Range header"%string
  else
    match split_char ","%char (TrimPrefix rangeHeader "bytes=") with
    | [spec] =>
        match split_char "-"%char spec with
        | [a; b] =>
            if bool_decide (a = "") then
              match ParseInt b with
              | None => inl "Invalid Range suffix"%string
              | Some suffix =>
                  let start := i64 (size - suffix) in
                  inr (if start <? 0 then 0 else start, i64 (size - 1))
              end
            else
              match ParseInt a with
              | None => inl "Invalid Range start"%string
              | Some start =>
                  if bool_decide (b = "") then inr (start, i64 (size - 1))
                  else match ParseInt b with
                       | None => inl "Invalid Range end"%string
                       | Some end_ => inr (start, end_)
                       end
              end
        | _ => inl "Invalid Range format"%string
        end
    | _ => inl "Multiple ranges not supported"%string
    end.

Definition handleRangeRequest (file : Database.File) (m : Database.Manifest) (rangeHeader : string) : GoM D unit :=
  match parse_range rangeHeader (f_SizeBytes file) with
  | inl msg => reject 416 msg
  | inr (start, end_) =>
      ensure (negb ((start <? 0) || (f_SizeBytes file <=? start) || (end_ <? start))) 416 "Range not satisfiable";;
      let end_ := if f_SizeBytes file <=? end_ then f_SizeBytes file - 1 else end_ in
      let contentLength := i64 (end_ - start + 1) in
      ensure (negb (f_IsEncrypted file && negb (canDecrypt file))) 501
        "Range requests not supported for zero-knowledge encrypted files";;
      Set_ "Content-Type" (f_MimeType file);;
      Set_ "Content-Length" (pretty contentLength);;
      Set_ "Content-Range" ("bytes " +:+ pretty start +:+ "-" +:+ pretty end_ +:+ "/" +:+ pretty (f_SizeBytes file))%string;;
      Set_ "Accept-Ranges" "bytes";;
      Set_ "Content-Disposition" (attachment "attachment" file);;
      WriteHeader 206;;
      if f_IsEncrypted file then ignore (streamDecryptedRange m file start end_) else ignore (streamRange m start end_)
  end.

(** The checks that the handlers share: the caller, the file, its owner. *)
Definition owned_file (r : Request) : GoM D Database.File :=
  file ← or_reject (on_server (on_db (GetFile (r_id r)))) 404 "File not found";
  ensure (bool_decide (f_UserID file = r_userID r)) 403 "Access denied";;
  mret file.

Definition content_manifest (file : Database.File) : GoM D Database.Manifest :=
  match f_ManifestID file with
  | None => reject 400 "File has no content"
  | Some id =>
      ensure (negb (bool_decide (id = ""%string))) 400 "File has no content";;
      or_reject (on_server (on_db (GetManifest id))) 500 "Failed to get file manifest"
  end.

Definition file_and_manifest (r : Request) : GoM D (Database.File * Database.Manifest) :=
  ensure (negb (bool_decide (r_userID r = ""%string))) 401 "Unauthorized";;
  ensure (negb (bool_decide (r_id r = ""%string))) 400 "File ID required";;
  file ← owned_file r;
  ensure (bool_decide (f_Type file = "file"%string)) 400 "Not a file";;
  manifest ← content_manifest file;
  mret (file, manifest).

Definition downloadFile (r : Request) : GoM D unit :=
  p ← file_and_manifest r;
  let '(file, manifest) := (p : Database.File * Database.Manifest) in
  if negb (bool_decide (r_Range r = ""%string)) then handleRangeRequest file manifest (r_Range r)
  else handleFullDownload r file manifest.

Definition streamFile (r : Request) : GoM D unit :=
  p ← file_and_manifest r;
  let '(file, manifest) := (p : Database.File * Database.Manifest) in
  Set_ "Content-Type" (f_MimeType file);;
  Set_ "Content-Length" (pretty (f_SizeBytes file));;
  Set_ "Content-Disposition" (attachment "inline" file);;
  Set_ "Accept-Ranges" "bytes";;
  if negb (bool_decide (r_Range r = ""%string)) then handleRangeRequest file manifest (r_Range r)
  else
    WriteHeader 200;;
    if f_IsEncrypted file then ignore (streamDecryptedContent manifest file) else ignore (streamContent manifest).

Definition getChunksInfo (r : Request) : GoM D unit :=
  p ← file_and_manifest r;
  let '(file, manifest) := (p : Database.File * Database.Manifest) in
  JSONResponse 200 (J_chunks file (m_Chunks manifest)).

Definition downloadChunk (r : Request) : GoM D unit :=
  ensure (negb (bool_decide (r_userID r = ""%string))) 401 "Unauthorized";;
  ensure (negb (bool_decide (r_id r = ""%string) || bool_decide (r_hash r = ""%string))) 400 "File ID and chunk hash required";;
  file ← owned_file r;
  manifest ← content_manifest file;
  ensure (bool_decide (r_hash r ∈ m_Chunks manifest)) 403 "Chunk does not belong to this file";;
  data ← or_reject (on_server (on_store (Get (r_hash r)))) 500 "Failed to get chunk";
  Set_ "Content-Type" "application/octet-stream";;
  Set_ "Content-Length" (pretty (zlen data));;
  Set_ "X-Chunk-Hash" (r_hash r);;
  Set_ "Cache-Control" "public, max-age=31536000, immutable";;
  WriteHeader 200;;
  ignore (on_writer (Write data)).

(** ** The public share handler *)

Fixpoint skip_spaces (s : string) : string :=
  match s with String c t => if bool_decide (c = " "%char) then skip_spaces t else s | ""%string => s end.

Fixpoint scan_digits (n : nat) (acc : Z) (s : string) : option (Z * string) :=
  match s with
  | String c t =>
      match digit c with
      | Some d => scan_digits (Datatypes.S n) (10 * acc + d) t
      | None => if bool_decide (n = 0%nat) then None else Some (acc, s)
      end
  | ""%string => if bool_decide (n = 0%nat) then None else Some (acc, s)
  end.

(** The verb [%d]: the value, which must fit, and the rest of the input. *)
Definition scan_d (s : string) : option (Z * string) :=
  let s := skip_spaces s in
  let v := match s with
           | String c t => if bool_decide (c = "-"%char) then (fun p => (- p.1, p.2)) <$> scan_digits 0 0 t
                           else if bool_decide (c = "+"%char) then scan_digits 0 0 t else scan_digits 0 0 s
           | ""%string => None
           end in
  match v with Some (z, t) => if in_i64b z then Some (z, t) else None | None => None end.

(** [fmt.Sscanf(s, "bytes=%d-%d", &start, &end)]: what cannot be read stays 0. *)
Definition Sscanf_range (s : string) : Z * Z :=
  if negb (HasPrefix s "bytes=") then (0, 0)
  else match scan_d (TrimPrefix s "bytes=") with
       | None => (0, 0)
       | Some (a, String c t) =>
           if bool_decide (c = "-"%char) then match scan_d t with Some (b, _) => (a, b) | None => (a, 0) end else (a, 0)
       | Some (a, ""%string) => (a, 0)
       end.

Definition public_handleFullDownload (file : Database.File) (m : Database.Manifest) : GoM D unit :=
  Set_ "Content-Type" (f_MimeType file);;
  Set_ "Content-Length" (pretty (f_SizeBytes file));;
  Set_ "Content-Disposition" (attachment "attachment" file);;
  Set_ "Accept-Ranges" "bytes";;
  WriteHeader 200;;
  ignore (streamContent m).

Definition public_handleRangeRequest (file : Database.File) (m : Database.Manifest) (rangeHeader : string) : GoM D unit :=
  let '(start, end_) := Sscanf_range rangeHeader in
  let end_ := if (end_ =? 0) || (f_SizeBytes file <=? end_) then i64 (f_SizeBytes file - 1) else end_ in
  let contentLength := i64 (end_ - start + 1) in
  Set_ "Content-Type" (f_MimeType file);;
  Set_ "Content-Length" (pretty contentLength);;
  Set_ "Content-Range" ("bytes " +:+ pretty start +:+ "-" +:+ pretty end_ +:+ "/" +:+ pretty (f_SizeBytes file))%string;;
  Set_ "Accept-Ranges" "bytes";;
  WriteHeader 206;;
  ignore (streamRange m start end_).
End Download.

(** ** Lemmas: windows of a sequence of chunks *)

(** The bytes of [bs], which starts at offset [off], from [start] up to but not
    including [e]. *)
Definition window_of (start e off : Z) (bs : bytes) : bytes :=
  take (Z.to_nat (e - Z.max start off)) (drop (Z.to_nat (start - off)) bs).

Lemma window_app start e off a b : start <= e ->
  window_of start e off (a ++ b) = window_of start e off a ++ window_of start e (off + zlen a) b.
Proof.
  intros He. unfold window_of, zlen. rewrite drop_app, take_app. f_equal. rewrite length_drop.
  f_equal; [|f_equal]; lia.
Qed.

Lemma window_before start e off a : off + zlen a <= start -> window_of start e off a = [].
Proof. intros Ho. unfold window_of, zlen in *. rewrite drop_ge by lia. by rewrite take_nil. Qed.

Lemma window_after start e off a : e <= off -> window_of start e off a = [].
Proof. intros Ho. unfold window_of. replace (Z.to_nat (e - Z.max start off)) with 0%nat by lia. by rewrite take_0. Qed.

Lemma window_slice start e off a : 0 <= off -> start < off + zlen a -> off < e -> start < e ->
  slice_bytes (if off <? start then start - off else 0) (if e <? off + zlen a then e - off else zlen a) a
  = Ok (window_of start e off a).
Proof.
  intros H0 H1 H2 H3. unfold slice_bytes, window_of, zlen in *.
  destruct (Z.ltb_spec off start), (Z.ltb_spec e (off + Z.of_nat (length a)));
    (replace (_ && _ && _) with true by (symmetry; rewrite !andb_true_iff; repeat split; lia)); f_equal.
  - apply (f_equal2 take); [lia|done].
  - rewrite !take_ge by (rewrite length_drop; lia). done.
  - apply (f_equal2 take); [lia|]. apply (f_equal2 drop); [lia|done].
  - rewrite !take_ge by (rewrite length_drop; lia). apply (f_equal2 drop); [lia|done].
Qed.

Lemma window_whole bs start end_ : 0 <= start -> window_of start (end_ + 1) 0 bs =
  take (Z.to_nat (end_ - start + 1)) (drop (Z.to_nat start) bs).
Proof. intros Hs. unfold window_of. apply (f_equal2 take); [lia|]. apply (f_equal2 drop); [lia|done]. Qed.

Section DownloadProofs.
Context `{HashFn} `{AEAD} {S : Type} `{Backend S}.
Context (http_time : Z -> string) (masterKey : option bytes).

Notation D := (@D S).

(** A writer to which the pieces [ps] were written. *)
Definition wrote (x : Writer) (ps : list bytes) : Writer :=
  mkWriter (w_headers x) (match w_status x, ps with None, _ :: _ => Some 200 | s, _ => s end) (w_body x ++ (Raw <$> ps)) [].

Lemma write_ok (x : Writer) b : w_faults x = [] -> Write b x = (Ok tt, wrote x [b]).
Proof. intros Hx. unfold Write, write_piece, wrote. rewrite Hx. simpl. by destruct (w_status x). Qed.

Lemma wrote_nil x : w_faults x = [] -> wrote x [] = x.
Proof. destruct x as [h s b f]. unfold wrote. simpl. intros ->. rewrite app_nil_r. by destruct s. Qed.

Lemma wrote_app x ps qs : wrote (wrote x ps) qs = wrote x (ps ++ qs).
Proof. unfold wrote. simpl. rewrite fmap_app, app_assoc. f_equal. destruct (w_status x), ps, qs; done. Qed.

(** [read] returns the bytes [ds] of the chunks, from states that satisfy [J]. *)
Definition reads (J : Server S -> Prop) (read : string -> GoM D bytes) (h : string) (d : bytes) : Prop :=
  forall w, J w.1 -> exists s', read h w = (Ok d, (s', w.2)) /\ J s'.

Lemma range_loop_spec J read start e chunks ds : Forall2 (reads J read) chunks ds ->
  - 2 ^ 62 < start < e -> forall off w, 0 <= off -> off + zlen (concat ds) < 2 ^ 62 -> e < 2 ^ 62 ->
  J w.1 -> w_faults w.2 = [] ->
  exists s' ps, range_loop read chunks start (e - 1) (e - start) off (Z.max 0 (Z.min off e - Z.max start 0)) w = (Ok tt, (s', wrote w.2 ps)) /\
    concat ps = window_of start e off (concat ds) /\ J s'.
Proof.
  intros Hr Hse. induction Hr as [|h d chunks ds Hh Hr IH]; intros off w Ho Hb He HJ Hf; cbn [range_loop].
  { exists w.1, []. rewrite wrote_nil by done. destruct w. split; [done|]. split; [|done].
    unfold window_of. simpl. by rewrite drop_nil, take_nil. }
  destruct (Hh w HJ) as (s1 & E1 & HJ1). rewrite (bind_ok _ _ _ _ _ E1).
  simpl concat in *. unfold zlen in Hb. rewrite length_app in Hb. fold (zlen d) in Hb.
  assert (zlen d = Z.of_nat (length d)) as Hzd by done.
  rewrite (i64_id (off + zlen d)) by (unfold in_i64; lia). replace (e - 1 + 1) with e by lia.
  rewrite (i64_id e) by (unfold in_i64; lia). rewrite window_app by lia.
  destruct ((off + zlen d <=? start) || (e <=? off)) eqn:Hout.
  - destruct (IH (off + zlen d) (s1, w.2)) as (s' & ps & E & Hps & HJ'); [lia|unfold zlen in *; lia|done|done|done|].
    exists s', ps. split; [|split; [|done]].
    + assert (Z.max 0 (Z.min off e - Z.max start 0) = Z.max 0 (Z.min (off + zlen d) e - Z.max start 0)) as ->; [|exact E].
      apply orb_true_iff in Hout as [Hc|Hc]; bool_to_prop; lia.
    + rewrite Hps. apply orb_true_iff in Hout as [Hc|Hc]; bool_to_prop.
      * by rewrite (window_before start e off d) by lia.
      * rewrite !window_after by lia. done.
  - apply orb_false_iff in Hout as [Hc1 Hc2]. bool_to_prop.
    rewrite (i64_id (start - off)), (i64_id (e - 1 - off + 1)) by (unfold in_i64; lia).
    replace (e - 1 - off + 1) with (e - off) by lia.
    rewrite window_slice by lia. rewrite bind_lift_ok.
    set (sl := window_of start e off d).
    rewrite (bind_ok _ _ _ tt (s1, wrote w.2 [sl])) by (unfold wrap, on_writer; simpl; by rewrite write_ok).
    assert (zlen sl = Z.min e (off + zlen d) - Z.max start off) as Hsl.
    { unfold sl, window_of, zlen. rewrite length_take, length_drop. lia. }
    rewrite (i64_id (_ + zlen sl)) by (unfold in_i64; lia).
    replace (Z.max 0 (Z.min off e - Z.max start 0) + zlen sl) with (Z.max 0 (Z.min (off + zlen d) e - Z.max start 0)) by lia.
    destruct (Z.leb_spec (e - start) (Z.max 0 (Z.min (off + zlen d) e - Z.max start 0))).
    + exists s1, [sl]. split; [done|]. split; [|done]. simpl. rewrite (window_after _ _ (off + zlen d)) by lia. done.
    + destruct (IH (off + zlen d) (s1, wrote w.2 [sl])) as (s' & ps & E & Hps & HJ'); [lia|unfold zlen in *; lia|done|done|done|].
      exists s', (sl :: ps). rewrite E. simpl. rewrite wrote_app. split; [done|]. split; [|done]. simpl. by rewrite Hps.
Qed.

(** The blobs of the chunks, in plain or sealed under [key]. *)
Definition plain_blob (s : S) (h : string) (d : bytes) : Prop := valid_key h /\ blob_at s h = Some d.
Definition sealed_blob (key : bytes) (s : S) (h : string) (d : bytes) : Prop :=
  valid_key h /\ exists n, length n = NonceSize /\ blob_at s h = Some (n ++ gcm_seal key n d).

(** Chunks are listed with their content. *)
Definition holds (blob : S -> string -> bytes -> Prop) (ps : list (string * bytes)) (w : Server S) : Prop :=
  ready (sv_store w) /\ forall p, p ∈ ps -> blob (sv_store w) p.1 p.2.

Lemma fetch_ready (w : D) h d : valid_key h -> ready (sv_store w.1) -> blob_at (sv_store w.1) h = Some d ->
  exists s', fetch h w = (Ok d, (mkServer (sv_db w.1) s' (sv_sessions w.1), w.2)) /\ ready s' /\
    forall k, valid_key k -> blob_at s' k = blob_at (sv_store w.1) k.
Proof.
  intros Hk Hs Hb. destruct (get_ready h d (sv_store w.1) Hk Hs Hb) as (s' & E & Hs' & Hf).
  exists s'. split; [|by split]. unfold fetch, wrap, on_server, on_store. by rewrite E.
Qed.

Lemma Forall2_pairs (R : string -> bytes -> Prop) (ps : list (string * bytes)) :
  (forall p, p ∈ ps -> R p.1 p.2) -> Forall2 R ps.*1 ps.*2.
Proof.
  induction ps as [|p ps IH]; intros Hp; constructor; [apply Hp; by left|]. apply IH. intros q Hq. apply Hp. by right.
Qed.

Lemma plain_reads ps : Forall2 (reads (holds plain_blob ps) fetch) ps.*1 ps.*2.
Proof.
  apply Forall2_pairs. intros [h d] Hin w [Hs Hf]. pose proof (Hf _ Hin) as [Hk Hb].
  destruct (fetch_ready w h d Hk Hs Hb) as (s' & E & Hs' & Hfr). eexists. split; [exact E|]. split; [done|].
  intros q Hq. destruct (Hf q Hq) as [Hk' Hb']. split; [done|]. simpl. by rewrite Hfr.
Qed.

Lemma sealed_reads key ps : length key = 32%nat ->
  Forall2 (reads (holds (sealed_blob key) ps) (fetch_decrypted key)) ps.*1 ps.*2.
Proof.
  intros Hkey. apply Forall2_pairs. intros [h d] Hin w [Hs Hf]. pose proof (Hf _ Hin) as (Hk & n & Hn & Hb).
  destruct (fetch_ready w h _ Hk Hs Hb) as (s' & E & Hs' & Hfr). eexists. split.
  - unfold fetch_decrypted. rewrite (bind_ok _ _ _ _ _ E). unfold wrap, lift. by rewrite Decrypt_seal.
  - split; [done|]. intros q Hq. destruct (Hf q Hq) as (Hk' & n' & Hn' & Hb'). split; [done|]. exists n'. simpl. by rewrite Hfr.
Qed.

(** What the server can send for a file: its chunks in plain, or sealed under the
    key that the server unwraps. *)
Definition servable (file : Database.File) (m : Database.Manifest) (ps : list (string * bytes)) (w : Server S) : Prop :=
  m_Chunks m = ps.*1 /\
  if f_IsEncrypted file
  then canDecrypt masterKey file = true /\ exists key, unwrapFileKey masterKey file = Ok key /\ length key = 32%nat /\
         holds (sealed_blob key) ps w
  else holds plain_blob ps w.

Lemma stream_range_spec file m ps w start end_ :
  servable file m ps w.1 -> 0 <= start <= end_ -> end_ + 1 < 2 ^ 62 -> zlen (concat ps.*2) < 2 ^ 62 -> w_faults w.2 = [] ->
  exists s' qs, (if f_IsEncrypted file then ignore (streamDecryptedRange masterKey m file start end_) else ignore (streamRange m start end_)) w
    = (Ok tt, (s', wrote w.2 qs)) /\
    concat qs = take (Z.to_nat (end_ - start + 1)) (drop (Z.to_nat start) (concat ps.*2)).
Proof.
  intros [Hm Hsv] Hr He Hlen Hf.
  assert (forall J read, Forall2 (reads J read) ps.*1 ps.*2 -> J w.1 -> exists s' qs,
    range_loop read (m_Chunks m) start end_ (i64 (end_ - start + 1)) 0 0 w = (Ok tt, (s', wrote w.2 qs)) /\
    concat qs = take (Z.to_nat (end_ - start + 1)) (drop (Z.to_nat start) (concat ps.*2))) as Hloop.
  { intros J read Hrd HJ. destruct (range_loop_spec J read start (end_ + 1) _ _ Hrd ltac:(lia) 0 w) as (s' & qs & E & Hq & _);
      [lia|lia|lia|done|done|]. exists s', qs. rewrite <-window_whole by lia. split; [|done].
    replace (Z.max 0 (Z.min 0 (end_ + 1) - Z.max start 0)) with 0 in E by lia. rewrite Hm, i64_id by (unfold in_i64; lia). rewrite <-E. f_equal; lia. }
  destruct (f_IsEncrypted file).
  - destruct Hsv as (_ & key & Hu & Hk & Hh). destruct (Hloop _ _ (sealed_reads key ps Hk) Hh) as (s' & qs & E & Hq).
    exists s', qs. split; [|done]. unfold ignore, attempt, streamDecryptedRange, mbind, GoM_bind. rewrite Hu. unfold lift. by rewrite E.
  - destruct (Hloop _ _ (plain_reads ps) Hsv) as (s' & qs & E & Hq). exists s', qs. split; [|done].
    unfold ignore, attempt, streamRange, mbind, GoM_bind. by rewrite E.
Qed.

(** Nothing was sent yet. *)
Definition fresh (x : Writer) : Prop := w_status x = None /\ w_body x = [] /\ w_faults x = [].

(** The handler replied with an error and nothing else. *)
Definition refused {A} (code : Z) (msg : string) (w : D) (r : Res A * D) : Prop :=
  exists x, r = (Err (ErrHTTP code msg), (w.1, x)) /\ w_status x = Some code /\ w_body x = [Json (J_error msg)].

Lemma reject_refused {A} code msg (w : D) : fresh w.2 -> refused code msg w (reject code msg w : Res A * D).
Proof.
  intros (Hst & Hb & Hf). destruct w as [w [h st b f]]. simpl in *. subst. by eexists.
Qed.

Lemma ensure_true {A} code msg (k : GoM D A) (w : D) : (ensure true code msg;; k) w = k w.
Proof. done. Qed.

Lemma ensure_refused {A} code msg (k : GoM D A) (w : D) : fresh w.2 -> refused code msg w ((ensure false code msg;; k) w).
Proof.
  intros Hw. destruct (reject_refused (A := unit) code msg w Hw) as (x & E & Hx). exists x. split; [|done].
  by rewrite (bind_err _ _ _ _ _ E).
Qed.

(** The reply to a range request for the bytes [start] to [last] of [content]. *)
Definition partial_content (file : Database.File) (content : bytes) (start last : Z) (r : Res unit * D) : Prop :=
  exists s' x qs, r = (Ok tt, (s', x)) /\ w_status x = Some 206 /\ w_body x = Raw <$> qs /\
    concat qs = take (Z.to_nat (last - start + 1)) (drop (Z.to_nat start) content) /\
    w_headers x !! "Content-Length"%string = Some (pretty (zlen (concat qs))) /\
    w_headers x !! "Content-Range"%string =
      Some ("bytes " +:+ pretty start +:+ "-" +:+ pretty last +:+ "/" +:+ pretty (f_SizeBytes file))%string.

Lemma bind_ok_step {A B} (m : GoM D A) (k : A -> GoM D B) w a w' r : m w = (Ok a, w') -> k a w' = r -> (m ≫= k) w = r.
Proof. intros E <-. by rewrite (bind_ok _ _ _ _ _ E). Qed.
End DownloadProofs.

Section Access.
Context `{HashFn} `{AEAD} {S : Type} `{Backend S}.
Notation D := (@D S).

(** A writer to which nothing was sent, whatever writes may fail later. *)
Definition silent (x : Writer) : Prop := w_status x = None /\ w_body x = [].

(** An error reply: its status, and at most its message. *)
Definition denied {A} (r : Res A * D) : Prop :=
  exists c msg s' x, r = (Err (ErrHTTP c msg), (s', x)) /\ 400 <= c /\ w_status x = Some c /\
    (w_body x = [] \/ w_body x = [Json (J_error msg)]).

Context (F : gmap string Database.File) (M : gmap string Database.Manifest).
Definition tables_are (s : Server S) : Prop := db_files (sv_db s) = F /\ db_manifests (sv_db s) = M.

(** Either an error reply, or a value that satisfies [Q] with the writer untouched
    and the tables as before. *)
Definition checked {A} (Q : A -> Prop) (m : GoM D A) : Prop :=
  forall w, tables_are w.1 -> silent w.2 ->
    denied (m w) \/ exists a s', m w = (Ok a, (s', w.2)) /\ Q a /\ tables_are s'.

Lemma reject_denied {A} c msg (w : D) : 400 <= c -> silent w.2 -> denied (reject c msg w : Res A * D).
Proof.
  intros Hc [Hs Hb]. destruct w as [w [h st b f]]. simpl in *. subst. exists c, msg.
  unfold reject, JSONResponse, Set_, WriteHeader, ignore, attempt, on_writer, write_piece, mbind, GoM_bind. simpl.
  destruct (next_fault f) as [[] l]; simpl; do 2 eexists; (split; [done|]); (split; [done|]); (split; [done|]); auto.
Qed.

Lemma checked_bind {A B} (Q : A -> Prop) (R : B -> Prop) (m : GoM D A) (k : A -> GoM D B) :
  checked Q m -> (forall a, Q a -> checked R (k a)) -> checked R (m ≫= k).
Proof.
  intros Hm Hk w HI Hw. destruct (Hm w HI Hw) as [(c & msg & s' & x & E & Hd)|(a & s' & E & Ha & HI')].
  - left. exists c, msg, s', x. by rewrite (bind_err _ _ _ _ _ E).
  - rewrite (bind_ok _ _ _ _ _ E). destruct (Hk a Ha (s', w.2) HI' Hw) as [Hd|(b & s'' & E' & Hb)]; [by left|right; eauto].
Qed.

Lemma checked_ret {A} (Q : A -> Prop) a : Q a -> checked Q (mret a).
Proof. intros Ha w HI _. right. destruct w. eexists _, _. by split. Qed.

Lemma checked_ensure b c msg : 400 <= c -> checked (fun _ => b = true) (ensure b c msg).
Proof.
  intros Hc w HI Hw. unfold ensure. destruct b; [|left; by apply reject_denied]. right. destruct w. eexists _, _. by split.
Qed.

Lemma checked_reject {A} (Q : A -> Prop) c msg : 400 <= c -> checked Q (reject c msg).
Proof. intros Hc w _ Hw. left. by apply reject_denied. Qed.

(** A query on the database whose failure is answered with an error. *)
Lemma checked_query {A} (Q : A -> Prop) (m : GoM DB A) c msg : 400 <= c ->
  (forall d, db_files d = F -> db_manifests d = M ->
     match m d with
     | (Ok a, d') => Q a /\ db_files d' = F /\ db_manifests d' = M
     | (Err _, _) => True
     | _ => False
     end) ->
  checked Q (or_reject (on_server (on_db m)) c msg).
Proof.
  intros Hc Hm w [HF HM] Hw. specialize (Hm _ HF HM). unfold or_reject, attempt, on_server, on_db, mbind, GoM_bind.
  destruct (m (sv_db w.1)) as [[a|e| |] d']; try done.
  - right. destruct Hm as (Ha & HF' & HM'). eexists _, _. by split_and!.
  - left. by apply reject_denied.
Qed.

Lemma checked_GetFile id : checked (fun f => F !! id = Some f) (or_reject (on_server (on_db (GetFile id))) 404 "File not found").
Proof.
  apply checked_query; [lia|]. intros d HF HM.
  unfold GetFile, instead, GetFileByID, scan_row, attempt, sql_query, mbind, GoM_bind.
  destruct (next_fault (db_faults d)) as [[] l]; simpl; [done|]. destruct (db_files d !! id) as [f|] eqn:E; [|done].
  split; [by rewrite <-HF|done].
Qed.

Lemma checked_GetManifest id :
  checked (fun m => M !! id = Some m) (or_reject (on_server (on_db (GetManifest id))) 500 "Failed to get file manifest").
Proof.
  apply checked_query; [lia|]. intros d HF HM. unfold GetManifest, scan_row, attempt, sql_query, mbind, GoM_bind.
  destruct (next_fault (db_faults d)) as [[] l]; simpl; [done|]. destruct (db_manifests d !! id) as [f|] eqn:E; [|done].
  split; [by rewrite <-HM|done].
Qed.

Lemma checked_owned r : checked (fun f => F !! r_id r = Some f /\ f_UserID f = r_userID r) (owned_file r).
Proof.
  eapply checked_bind; [apply checked_GetFile|]. intros f Hf. eapply checked_bind; [by apply checked_ensure|].
  intros ? Hu. apply checked_ret. split; [done|]. by apply bool_decide_eq_true in Hu.
Qed.

Lemma checked_manifest f : checked (fun m => exists id, f_ManifestID f = Some id /\ M !! id = Some m) (content_manifest f).
Proof.
  unfold content_manifest. destruct (f_ManifestID f) as [id|]; [|by apply checked_reject].
  eapply checked_bind; [by apply checked_ensure|]. intros _ _ w HI Hw.
  destruct (checked_GetManifest id w HI Hw) as [Hd|(m & s' & E & Hm & HI')]; [by left|]. right. exists m, s'. eauto.
Qed.

(** The checks passed: the caller is known and owns the file. *)
Definition may_read (r : Request) (f : Database.File) : Prop :=
  r_userID r <> ""%string /\ F !! r_id r = Some f /\ f_UserID f = r_userID r.

Lemma checked_file_and_manifest r :
  checked (fun p => may_read r p.1 /\ f_Type p.1 = "file"%string) (file_and_manifest r).
Proof.
  unfold file_and_manifest. eapply checked_bind; [by apply checked_ensure|]. intros ? Hu.
  eapply checked_bind; [by apply checked_ensure|]. intros ? _.
  eapply checked_bind; [apply checked_owned|]. intros f [Hf Ho].
  eapply checked_bind; [by apply checked_ensure|]. intros ? Ht.
  eapply checked_bind; [apply checked_manifest|]. intros m _. apply checked_ret.
  apply negb_true_iff, bool_decide_eq_false in Hu. apply bool_decide_eq_true in Ht. by split.
Qed.

Lemma checked_stops {A B} (Q : A -> Prop) (m : GoM D A) (k : A -> GoM D B) w :
  checked Q m -> (forall a, ~ Q a) -> tables_are w.1 -> silent w.2 -> denied ((m ≫= k) w).
Proof.
  intros Hm HQ HI Hw. destruct (Hm w HI Hw) as [(c & msg & s' & x & E & Hd)|(a & s' & E & Ha & _)]; [|by apply HQ in Ha].
  exists c, msg, s', x. by rewrite (bind_err _ _ _ _ _ E).
Qed.
End Access.

(** ** Properties *)

(** [C4] A range request on a file that the server can read, in plain or by
    decrypting, is answered with exactly the bytes asked for, cut at the end of
    the file, and headers that give their number and position, whatever the
    division into chunks; every other header value is refused with status 416 and
    no content. *)
Theorem range_requests_exact `{HashFn} `{AEAD} {S : Type} `{Backend S} masterKey file m ps hdr (w : @D S) :
  servable masterKey file m ps w.1 -> zlen (concat ps.*2) = f_SizeBytes file -> f_SizeBytes file < 2 ^ 62 -> fresh w.2 ->
  let r := handleRangeRequest masterKey file m hdr w in
  match parse_range hdr (f_SizeBytes file) with
  | inl msg => refused 416 msg w r
  | inr (start, end_) =>
      if (0 <=? start) && (start <? f_SizeBytes file) && (start <=? end_)
      then partial_content file (concat ps.*2) start (Z.min end_ (f_SizeBytes file - 1)) r
      else refused 416 "Range not satisfiable" w r
  end.
Proof.
  intros Hsv Hlen Hsz Hfr r. unfold r, handleRangeRequest. clear r.
  destruct (parse_range hdr (f_SizeBytes file)) as [msg|[start end_]]; [by apply reject_refused|].
  destruct (Z.ltb_spec start 0), (Z.leb_spec (f_SizeBytes file) start), (Z.ltb_spec end_ start);
    destruct (Z.leb_spec 0 start), (Z.ltb_spec start (f_SizeBytes file)), (Z.leb_spec start end_); try lia; cbn [orb negb andb];
    try by apply ensure_refused.
  rewrite ensure_true. set (last := if f_SizeBytes file <=? end_ then f_SizeBytes file - 1 else end_).
  assert (last = Z.min end_ (f_SizeBytes file - 1)) as Hlast by (unfold last; destruct (Z.leb_spec (f_SizeBytes file) end_); lia).
  assert (f_IsEncrypted file && negb (canDecrypt masterKey file) = false) as Hdec.
  { destruct Hsv as [_ Hsv]. destruct (f_IsEncrypted file); [|done]. destruct Hsv as [-> _]. done. }
  cbv zeta. rewrite Hdec. cbn [negb]. rewrite ensure_true.
  destruct Hfr as (H1' & H2' & H3'). destruct w as [w [h st b f]]. simpl in H1', H2', H3'. subst st b f.
  set (x := mkWriter (<["Content-Disposition" := attachment "attachment" file]> (<["Accept-Ranges" := "bytes"]>
    (<["Content-Range" := "bytes " +:+ pretty start +:+ "-" +:+ pretty last +:+ "/" +:+ pretty (f_SizeBytes file)]>
    (<["Content-Length" := pretty (i64 (last - start + 1))]> (<["Content-Type" := f_MimeType file]> h)))))%string (Some 206) [] []).
  destruct (stream_range_spec masterKey file m ps (w, x) start last) as (s' & qs & E & Hq); [done|lia|lia|lia|done|].
  exists s', (wrote x qs), qs. split; [do 6 (eapply bind_ok_step; [reflexivity|]); exact E|].
  split; [done|]. split; [done|]. rewrite Hlast in Hq. split; [exact Hq|].
  assert (zlen (concat qs) = last - start + 1) as Hn.
  { rewrite Hq. unfold zlen in *. rewrite length_take, length_drop. lia. }
  rewrite Hn, <-Hlast. simpl. rewrite i64_id by (unfold in_i64; lia).
  split; rewrite !lookup_insert_ne by done; by rewrite lookup_insert_eq.
Qed.

(** [Fact] Nothing of a file reaches a caller who does not own it.  Unless the caller
    is logged in and the requested identifier is a file of the caller, each of the
    four handlers replies with an error status and at most an error message,
    whatever the driver, the store and the connection do; and the chunk handler
    does so too for a digest that is not listed in the manifest of that file. *)
Theorem only_owner_downloads `{HashFn} `{AEAD} {S : Type} `{Backend S} http_time masterKey r (w : @D S) :
  silent w.2 ->
  ((forall f, ~ may_read (db_files (sv_db w.1)) r f) ->
     denied (downloadFile http_time masterKey r w) /\ denied (streamFile masterKey r w) /\ denied (getChunksInfo r w)) /\
  ((forall f id m, may_read (db_files (sv_db w.1)) r f -> f_ManifestID f = Some id ->
      db_manifests (sv_db w.1) !! id = Some m -> r_hash r ∉ m_Chunks m) ->
     denied (downloadChunk r w)).
Proof.
  intros Hw. set (F := db_files (sv_db w.1)). set (M := db_manifests (sv_db w.1)).
  assert (tables_are F M w.1) as HI by done. split.
  - intros Hno. assert (forall p : Database.File * Database.Manifest, ~ (may_read F r p.1 /\ f_Type p.1 = "file"%string)) as Hn
      by (intros p [? _]; by apply (Hno p.1)).
    pose proof (checked_file_and_manifest (S := S) F M r) as Hc.
    split_and!; by apply (checked_stops F M _ _ _ w Hc).
  - intros Hno.
    assert (checked (S := S) F M (fun _ : unit => False) (downloadChunk r)) as Hc.
    { unfold downloadChunk. eapply checked_bind; [by apply checked_ensure|]. intros ? Hu.
      eapply checked_bind; [by apply checked_ensure|]. intros ? _.
      eapply checked_bind; [apply checked_owned|]. intros f [Hf Ho].
      eapply checked_bind; [apply checked_manifest|]. intros m (id & Hid & Hm).
      eapply checked_bind; [by apply checked_ensure|]. intros ? Hin. exfalso.
      apply negb_true_iff, bool_decide_eq_false in Hu. apply bool_decide_eq_true in Hin. by apply (Hno f id m). }
    destruct (Hc w HI Hw) as [Hd|(a & s' & _ & [] & _)]; done.
Qed.

(** [Fact] The range replies of public shares take the numbers from the header as they
    come.  From the first byte to the last one they send exactly the bytes of the
    file in that range.  But they announce one byte for every position, negative
    ones included, so a request for the last bytes of a file announces more than
    it sends; and when the range ends before it starts, a file of one chunk makes
    the handler panic after status 206 was sent. *)
Theorem public_range_behaviour `{HashFn} `{AEAD} {S : Type} `{Backend S} file m ps hdr start end_ (w : @D S) :
  m_Chunks m = ps.*1 -> holds plain_blob ps w.1 -> zlen (concat ps.*2) = f_SizeBytes file -> f_SizeBytes file < 2 ^ 62 ->
  fresh w.2 -> Sscanf_range hdr = (start, end_) -> - 2 ^ 62 < start -> 0 <= end_ ->
  let last := if (end_ =? 0) || (f_SizeBytes file <=? end_) then f_SizeBytes file - 1 else end_ in
  let r := public_handleRangeRequest file m hdr w in
  (start <= last -> exists s' x qs, r = (Ok tt, (s', x)) /\ w_status x = Some 206 /\ w_body x = Raw <$> qs /\
     concat qs = take (Z.to_nat (last + 1 - Z.max start 0)) (drop (Z.to_nat start) (concat ps.*2)) /\
     w_headers x !! "Content-Length"%string = Some (pretty (last - start + 1))) /\
  (length ps = 1%nat -> last + 1 < start < f_SizeBytes file -> 0 <= last ->
     exists w', r = (Panic "slice bounds out of range", w') /\ w_status w'.2 = Some 206).
Proof.
  intros Hm Hh Hlen Hsz Hfr Hsc Hst Hen last r. unfold r, public_handleRangeRequest. rewrite Hsc. clear r Hsc.
  assert (0 <= f_SizeBytes file) as Hpos by (unfold zlen in Hlen; lia).
  rewrite (i64_id (f_SizeBytes file - 1)) by (unfold in_i64; lia). fold last. cbv zeta.
  assert (-1 <= last < 2 ^ 62 - 1 \/ last < 2 ^ 62 - 1 /\ -1 <= last) as Hlast.
  { left. unfold last. destruct (Z.eqb_spec end_ 0), (Z.leb_spec (f_SizeBytes file) end_); simpl; lia. }
  destruct Hfr as (H1' & H2' & H3'). destruct w as [w [h st b f]]. simpl in H1', H2', H3'. subst st b f.
  set (x := mkWriter (<["Accept-Ranges" := "bytes"]>
    (<["Content-Range" := "bytes " +:+ pretty start +:+ "-" +:+ pretty last +:+ "/" +:+ pretty (f_SizeBytes file)]>
    (<["Content-Length" := pretty (i64 (last - start + 1))]> (<["Content-Type" := f_MimeType file]> h))))%string (Some 206) [] []).
  assert (forall r', ignore (streamRange m start last) (w, x) = r' ->
    (Set_ "Content-Type" (f_MimeType file);; Set_ "Content-Length" (pretty (i64 (last - start + 1)));;
     Set_ "Content-Range" ("bytes " +:+ pretty start +:+ "-" +:+ pretty last +:+ "/" +:+ pretty (f_SizeBytes file))%string;;
     Set_ "Accept-Ranges" "bytes";; WriteHeader 206;; ignore (streamRange m start last)) (w, mkWriter h None [] []) = r') as Hgo.
  { intros r' E. do 5 (eapply bind_ok_step; [reflexivity|]). exact E. }
  split.
  - intros Hle. destruct (range_loop_spec (holds plain_blob ps) fetch start (last + 1) _ _ (plain_reads ps) ltac:(lia) 0 (w, x))
      as (s' & qs & E & Hq & _); [lia|lia|lia|done|done|].
    replace (Z.max 0 (Z.min 0 (last + 1) - Z.max start 0)) with 0 in E by lia.
    replace (last + 1 - 1) with last in E by lia. replace (last + 1 - start) with (last - start + 1) in E by lia.
    exists s', (wrote x qs), qs. split.
    { apply Hgo. unfold ignore, attempt, streamRange, mbind, GoM_bind. rewrite Hm, i64_id by (unfold in_i64; lia). by rewrite E. }
    split; [done|]. split; [done|]. split; [rewrite Hq; unfold window_of; by rewrite Z.sub_0_r|].
    simpl. rewrite i64_id by (unfold in_i64; lia). rewrite !lookup_insert_ne by done. by rewrite lookup_insert_eq.
  - intros Hone Hlt Hl. destruct ps as [|[hash d] [|]]; try done.
    pose proof (plain_reads [(hash, d)]) as Hrd. apply Forall2_cons_1 in Hrd as [Hrd _].
    destruct (Hrd (w, x) Hh) as (s1 & E1 & _). cbn [fst snd] in E1. simpl in Hlen, Hm. rewrite app_nil_r in Hlen.
    exists (s1, x). split; [|done]. apply Hgo.
    assert (streamRange m start last (w, x) = (Panic "slice bounds out of range", (s1, x))) as E;
      [|unfold ignore, attempt, mbind, GoM_bind; by rewrite E].
    unfold streamRange. rewrite Hm. cbn [range_loop].
    rewrite (bind_ok _ _ _ _ _ E1). cbv zeta. rewrite Hlen, !(i64_id (0 + _)), (i64_id (last + 1)) by (unfold in_i64; lia).
    destruct (Z.leb_spec (0 + f_SizeBytes file) start); [lia|]. destruct (Z.leb_spec (last + 1) 0); [lia|]. cbn [orb].
    destruct (Z.ltb_spec 0 start); [|lia]. destruct (Z.ltb_spec (last + 1) (0 + f_SizeBytes file)); [|lia].
    rewrite !i64_id by (unfold in_i64; lia). unfold slice_bytes at 1.
    destruct (Z.leb_spec (start - 0) (last - 0 + 1)); [lia|]. by rewrite andb_false_r.
Qed.

(** ** Witnesses *)

Section Witnesses.
#[local] Existing Instance toy_hash.
#[local] Existing Instance toy_aead.

Lemma download_root_good : Forall good_elem ["data"%string].
Proof. by apply (bool_decide_unpack _). Qed.

#[local] Instance download_backend : Backend FS := Local_Backend ["data"%string] download_root_good.

Definition two_chunks : list (string * bytes) := [("aa0"%string, [x61; x62; x63]); ("bb0"%string, [x64; x65])].
Definition plain_file : Database.File :=
  mkFileRow "f" "u" None "a.txt" "file" 5 "text/plain" (Some "m"%string) None false [] false None 1 10 10.
Definition plain_manifest : Database.Manifest := mkManifestRow "m" "f" 1 5 2 two_chunks.*1 "" "server" 10.
Definition stored : FS :=
  mkFS {["/data/chunks/aa/0.chunk"%string := [x61; x62; x63]; "/data/chunks/bb/0.chunk"%string := [x64; x65]]} ∅ [].
Definition conn0 : @D FS :=
  (mkServer (mkDB {["u"%string]} {["f"%string := plain_file]} {["m"%string := plain_manifest]} ∅ 100
     (mkRand (fun _ => x00) 0 []) [] true) stored ∅, mkWriter ∅ None [] []).

Lemma stored_ready : ready (sv_store conn0.1).
Proof.
  split; [reflexivity|]. intros k Hk. apply not_elem_of_empty.
Qed.

Lemma local_keys_ok h : h ∈ two_chunks.*1 -> local_key h.
Proof.
  intros Hh. simpl in Hh. apply elem_of_cons in Hh as [->|Hh]; [|apply list_elem_of_singleton in Hh as ->];
    (split; [reflexivity|split; [simpl; lia|discriminate]]).
Qed.

Lemma servable_witness : servable None plain_file plain_manifest two_chunks conn0.1.
Proof.
  split; [reflexivity|]. simpl. split; [apply stored_ready|]. intros p Hp. split; [apply local_keys_ok, list_elem_of_fmap; by exists p|].
  apply elem_of_cons in Hp as [->|Hp]; [|apply list_elem_of_singleton in Hp as ->]; vm_compute; reflexivity.
Qed.

Lemma range_witness :
  partial_content plain_file [x61; x62; x63; x64; x65] 2 3 (handleRangeRequest None plain_file plain_manifest "bytes=2-3" conn0) /\
  refused 416 "Range not satisfiable" conn0 (handleRangeRequest None plain_file plain_manifest "bytes=5-2" conn0).
Proof.
  assert (f_SizeBytes plain_file < 2 ^ 62) as Hs by (simpl; lia).
  assert (fresh conn0.2) as Hf by (split; [reflexivity|split; reflexivity]).
  split.
  - exact (range_requests_exact None plain_file plain_manifest two_chunks "bytes=2-3" conn0 servable_witness eq_refl Hs Hf).
  - exact (range_requests_exact None plain_file plain_manifest two_chunks "bytes=5-2" conn0 servable_witness eq_refl Hs Hf).
Defined.

Lemma only_owner_witness : denied (downloadFile (fun _ => ""%string) None (mkRequest "v" "f" "" "" "") conn0).
Proof.
  assert (silent conn0.2) as Hs by (split; reflexivity).
  destruct (only_owner_downloads (fun _ => ""%string) None (mkRequest "v" "f" "" "" "") conn0 Hs) as [H _].
  apply H. intros f (_ & Hf & Hu). assert (Some f = Some plain_file) as E by (rewrite <-Hf; reflexivity).
  injection E as ->. discriminate.
Defined.

Definition one_chunk : list (string * bytes) := [("aa0"%string, [x61; x62; x63; x64; x65])].
Definition one_manifest : Database.Manifest := mkManifestRow "m" "f" 1 5 1 one_chunk.*1 "" "server" 10.
Definition conn1 : @D FS :=
  (mkServer (sv_db conn0.1) (mkFS {["/data/chunks/aa/0.chunk"%string := [x61; x62; x63; x64; x65]]} ∅ []) ∅, mkWriter ∅ None [] []).

Lemma one_chunk_holds : holds plain_blob one_chunk conn1.1.
Proof.
  split; [split; [reflexivity|]; intros k Hk; apply not_elem_of_empty|].
  intros p ->%list_elem_of_singleton. split; [apply local_keys_ok; vm_compute; by left|vm_compute; reflexivity].
Qed.

Lemma public_range_witness :
  (exists w', public_handleRangeRequest plain_file one_manifest "bytes=3-1" conn1 = (Panic "slice bounds out of range", w')) /\
  (exists s' x qs, public_handleRangeRequest plain_file one_manifest "bytes=-2" conn1 = (Ok tt, (s', x)) /\
     w_body x = Raw <$> qs /\ concat qs = [x61; x62; x63; x64; x65] /\ w_headers x !! "Content-Length"%string = Some "7"%string).
Proof.
  assert (f_SizeBytes plain_file < 2 ^ 62) as Hs by (simpl; lia).
  assert (fresh conn1.2) as Hf by (split; [reflexivity|split; reflexivity]).
  split.
  - destruct (public_range_behaviour plain_file one_manifest one_chunk "bytes=3-1" 3 1 conn1 eq_refl one_chunk_holds
      eq_refl Hs Hf eq_refl) as [_ H]; [lia|lia|]. destruct H as (w' & E & _); [reflexivity|simpl; lia|simpl; lia|]. by exists w'.
  - destruct (public_range_behaviour plain_file one_manifest one_chunk "bytes=-2" (-2) 0 conn1 eq_refl one_chunk_holds
      eq_refl Hs Hf eq_refl) as [H _]; [lia|lia|]. destruct H as (s' & x & qs & E & _ & Hb & Hq & Hl); [simpl; lia|].
    by exists s', x, qs.
Defined.
End Witnesses.
