(* ===== verification/Transfer.v ===== *)
(** * From upload to download: the two handlers together

    A file uploaded in parts, in any order, and completed, is downloaded with
    exactly the content of its parts. *)

From S2P Require Import Prelude GoStrings GoCrypto Crypto Chunker Storage Encrypted Database Vfs Server Upload Download.

Section Transfer.
Context `{HashFn} `{AEAD} {S : Type} `{Backend S} (Hkeys : forall d, valid_key (sha256_hex d)).

(** What the server stores under its digest. *)
Definition stored_as (w : Server S) (d : bytes) : Prop := blob_at (sv_store w) (sha256_hex d) = Some d.

(** [P] marks the pieces of the content; no piece has the digest of another piece
    or of a blob that is already stored. *)
Definition no_collision (P : bytes -> Prop) (w : Server S) : Prop :=
  forall d d', P d -> P d' \/ (exists h, valid_key h /\ blob_at (sv_store w) h = Some d') -> sha256_hex d = sha256_hex d' -> d = d'.

(** The driver and the store accept every call, and the blob of every row has the
    digest of the row. *)
Definition sound (w : Server S) : Prop :=
  quiet (sv_db w) /\ healthy (sv_store w) /\ store_ok (sv_store w) /\
  forall h c, db_chunks (sv_db w) !! h = Some c -> exists data, h = sha256_hex data /\ blob_at (sv_store w) h = Some data.

(** [w] differs from [w0] in chunks of the content only. *)
Definition grown (P : bytes -> Prop) (w0 w : Server S) : Prop :=
  (exists cs, sv_db w = with_chunks cs (sv_db w0)) /\
  forall h d, valid_key h -> blob_at (sv_store w) h = Some d -> P d \/ blob_at (sv_store w0) h = Some d.

Lemma store_one_stores P w0 w st i info cdcData d :
  no_collision P w0 -> P d -> sound w -> grown P w0 w -> ci_Hash info = sha256_hex d -> cdcData !! i = Some d ->
  exists w', store_one st i info cdcData w = (Ok tt, w') /\ sound w' /\ grown P w0 w' /\ sv_sessions w' = sv_sessions w /\
    stored_as w' d /\ forall d', P d' -> stored_as w d' -> stored_as w' d'.
Proof.
  intros Hnc Hd (Hq & Hh & Hs & Hrows) [[cs Hcs] Hg] Ei Ed. unfold store_one. rewrite Ei, Ed.
  unfold instead, on_db, on_store, now, mbind, GoM_bind. rewrite ChunkExists_quiet by done. case_bool_decide as Hex.
  - destruct Hex as [c Hc]. simpl. rewrite (IncrementRefCount_quiet _ c) by done. eexists. split; [done|]. split_and!; try done.
    + split_and!; try done. intros h c'. simpl. rewrite lookup_insert_Some. intros [[<- <-]|[_ ?]]; eauto.
    + split; [|done]. simpl. rewrite Hcs. by eexists.
    + destruct (Hrows _ _ Hc) as (d' & E & Hb). unfold stored_as. simpl. rewrite Hb. f_equal.
      symmetry. apply Hnc; [done| |done]. destruct (Hg _ _ (Hkeys d) Hb) as [?|?]; [by left|right]. eauto.
  - simpl. apply eq_None_not_Some in Hex. destruct (put_ready (sha256_hex d) d (sv_store w) (Hkeys d) (conj Hh Hs)) as (s' & E & [Hh' Hs'] & Hb).
    rewrite E. simpl. rewrite CreateChunk_quiet by done. eexists. split; [done|]. split_and!; try done.
    + split_and!; try done; simpl. intros h c'. rewrite lookup_insert_Some. intros [[<- <-]|[_ Hc']].
      * exists d. split; [done|]. rewrite Hb by apply Hkeys. by rewrite decide_True.
      * destruct (Hrows _ _ Hc') as (d' & -> & Hb'). exists d'. split; [done|]. rewrite Hb by apply Hkeys.
        case_decide as Ee; [|done]. rewrite Ee in Hc'. congruence.
    + split; simpl; [rewrite Hcs; by eexists|]. intros h d' Hk. rewrite Hb by done.
      case_decide; [|by apply Hg]. intros [= <-]. by left.
    + unfold stored_as. simpl. rewrite Hb by apply Hkeys. by rewrite decide_True.
    + intros d' Hd' Hst. unfold stored_as in *. simpl. rewrite Hb by apply Hkeys. case_decide as Ee; [|done].
      f_equal. symmetry. apply Hnc; [done|by left|done].
Qed.

Lemma process_chunks_stores P w0 st pieces : no_collision P w0 -> (forall d, d ∈ pieces -> P d) ->
  forall off pre w, sound w -> grown P w0 w ->
  exists w', process_chunks st (length pre) (infos_of off pieces) (pre ++ pieces) w = (Ok (sha256_hex <$> pieces), w') /\
    sound w' /\ grown P w0 w' /\ sv_sessions w' = sv_sessions w /\
    (forall d, d ∈ pieces -> stored_as w' d) /\ forall d', P d' -> stored_as w d' -> stored_as w' d'.
Proof.
  intros Hnc. induction pieces as [|d pieces IH]; intros HP off pre w Hs Hg; cbn [infos_of process_chunks].
  { exists w. split; [done|]. split_and!; try done. by intros d Hd%not_elem_of_nil. }
  destruct (store_one_stores P w0 w st (length pre) (mkInfo (sha256_hex d) (i64 off) (zlen d)) (pre ++ d :: pieces) d)
    as (w1 & E1 & Hs1 & Hg1 & Hss1 & Hd1 & Hk1); [done|apply HP; by left|done|done|done|by rewrite list_lookup_middle|].
  destruct (IH (fun x Hx => HP x ltac:(by right)) (off + zlen d) (pre ++ [d]) w1 Hs1 Hg1) as (w2 & E2 & Hs2 & Hg2 & Hss2 & Hd2 & Hk2).
  exists w2. rewrite (bind_ok _ _ _ _ _ E1). rewrite length_app, <-app_assoc in E2. simpl in E2.
  rewrite (bind_ok _ _ _ _ _ E2). split; [done|]. split_and!; [done|done|congruence| |].
  - intros x [->|Hx]%elem_of_cons; [|auto]. apply Hk2; [|done]. apply HP. by left.
  - intros x Hx Hst. auto.
Qed.

(** *** A session fills up *)

Record PartReq := mkPart { p_index : Z; p_str : string; p_len : Z; p_body : reader; p_data : bytes }.

(** A well-formed request for a part: its number is in the path, its body is read
    whole, and it is not empty. *)
Definition good_part (q : PartReq) : Prop :=
  Atoi (p_str q) = Some (p_index q) /\ p_str q <> ""%string /\ 0 <= p_index q /\ 0 < p_len q <= maxChunkSize /\
  read_limited maxChunkSize (p_body q) = Ok (p_data q) /\ p_data q <> [].

(** A piece of one of the parts. *)
Definition piece_of (qs : list PartReq) (d : bytes) : Prop := exists q, q ∈ qs /\ segment (p_data q) d.

Definition part_done (P : bytes -> Prop) (w : Server S) (s : UploadSession) (q : PartReq) : Prop :=
  exists pieces, s_ChunkHashes s !! p_index q = Some (sha256_hex <$> pieces) /\ concat pieces = p_data q /\
    forall d, d ∈ pieces -> P d /\ stored_as w d.

Definition same_upload (s0 s : UploadSession) : Prop :=
  s_ID s = s_ID s0 /\ s_UserID s = s_UserID s0 /\ s_ParentID s = s_ParentID s0 /\ s_FileName s = s_FileName s0 /\
  s_Size s = s_Size s0 /\ s_MimeType s = s_MimeType s0 /\ s_Checksum s = s_Checksum s0 /\
  s_ExpiresAt s = s_ExpiresAt s0 /\ s_TotalChunks s = s_TotalChunks s0.

(** The session [s] after the parts [done] of the session [s0] were uploaded. *)
Definition filled (P : bytes -> Prop) (w0 w : Server S) (s0 : UploadSession) (done_ : list PartReq) : Prop :=
  sound w /\ grown P w0 w /\ exists s, sv_sessions w = <[s_ID s0 := s]> (sv_sessions w0) /\ same_upload s0 s /\
    (forall i, is_Some (s_Chunks s !! i) <-> i ∈ p_index <$> done_) /\ size (s_Chunks s) = length done_ /\
    forall q, q ∈ done_ -> part_done P w s q.

Context (chunker : Chunker) (st : string) (Hchunker : wf_chunker chunker).

Lemma uploadChunk_fills P w0 w s0 done_ q :
  no_collision P w0 -> (forall d, segment (p_data q) d -> P d) -> s_ID s0 <> ""%string -> s_UserID s0 <> ""%string ->
  db_now (sv_db w0) <= s_ExpiresAt s0 ->
  good_part q -> p_index q < s_TotalChunks s0 -> p_index q ∉ p_index <$> done_ -> filled P w0 w s0 done_ ->
  exists n hs w', uploadChunk true chunker st (s_UserID s0) (s_ID s0) (p_str q) (p_len q) (p_body q) w
      = (Ok (R_uploaded (p_index q) (zlen (p_data q)) n hs), w') /\
    filled P w0 w' s0 (done_ ++ [q]).
Proof.
  intros Hnc HP Hsid Hu Hexp (Hidx & Hstr & Hi & Hlen & Hrd & Hne) Htot Hnew (Hs & Hg & s & Hss & Hsame & Hdom & Hsize & Hparts).
  destruct (cut_part chunker (p_data q) Hchunker) as (pieces & Ecut & Hcat).
  destruct (process_chunks_stores P w0 st pieces Hnc) with (off := 0) (pre := @nil bytes) (w := w)
    as (w1 & Ep & Hs1 & Hg1 & Hss1 & Hd1 & Hk1); [|done|done|].
  { intros d Hd. apply HP. rewrite <-Hcat. by apply concat_segment. }
  destruct Hsame as (E1 & E2 & E3 & E4 & E5 & E6 & E7 & E8 & E9).
  assert (s_Chunks s !! p_index q = None) as Hnone.
  { apply eq_None_not_Some. rewrite Hdom. done. }
  assert (db_now (sv_db w) = db_now (sv_db w0)) as Hnow by (destruct Hg as [[cs ->] _]; done).
  exists (zlen (infos_of 0 pieces)), (sha256_hex <$> pieces).
  exists (mkServer (sv_db w1) (sv_store w1)
    (<[s_ID s0 := record_chunk (p_index q) (zlen (p_data q)) (db_now (sv_db w0)) (sha256_hex <$> pieces) s]> (sv_sessions w1))).
  split.
  - unfold uploadChunk, require. rewrite !bool_decide_eq_false_2 by done. cbn [negb]. rewrite !bind_mret, Hidx.
    destruct (Z.ltb_spec (p_index q) 0); [lia|]. rewrite bind_mret.
    rewrite (bind_ok _ _ w s w) by (unfold find_session; by rewrite Hss, lookup_insert_eq).
    rewrite (bool_decide_eq_true_2 (s_UserID s = _)), bind_mret by done.
    rewrite (bind_ok _ _ w (db_now (sv_db w0)) w) by (unfold now; by rewrite Hnow).
    rewrite E8, E9. destruct (Z.leb_spec (db_now (sv_db w0)) (s_ExpiresAt s0)); [|lia]. rewrite bind_mret.
    destruct (Z.ltb_spec (p_index q) (s_TotalChunks s0)); [|lia]. rewrite bind_mret, Hnone.
    rewrite bool_decide_eq_false_2 by (by intros [? ?]). rewrite bind_mret.
    destruct (Z.leb_spec (p_len q) maxChunkSize); [|lia]. rewrite bind_mret.
    destruct (Z.ltb_spec 0 (p_len q)); [|lia]. rewrite bind_mret, Hrd.
    rewrite (bind_ok _ _ w (p_data q) w) by done.
    destruct (Z.eqb_spec (zlen (p_data q)) 0) as [Hz|]; [by destruct (p_data q)|]. cbn [negb]. rewrite bind_mret, Ecut.
    rewrite (bind_ok _ _ w (infos_of 0 pieces, pieces) w) by done. simpl in Ep. rewrite (bind_ok _ _ _ _ _ Ep).
    rewrite (bind_ok _ _ w1 tt (mkServer (sv_db w1) (sv_store w1)
      (<[s_ID s0 := record_chunk (p_index q) (zlen (p_data q)) (db_now (sv_db w0)) (sha256_hex <$> pieces) s]> (sv_sessions w1)))); [done|].
    unfold put_session. simpl. by rewrite E1.
  - split; [done|]. split; [done|]. eexists. split; [simpl; by rewrite Hss1, Hss, insert_insert_eq|].
    split; [by split_and!|]. split_and!.
    + intros i. simpl. rewrite lookup_insert_is_Some, Hdom, fmap_app, elem_of_app, list_fmap_singleton, list_elem_of_singleton.
      destruct (decide (p_index q = i)); naive_solver.
    + simpl. rewrite map_size_insert_None by done. rewrite length_app, Hsize. simpl. lia.
    + intros q' [Hq'| ->%list_elem_of_singleton]%elem_of_app.
      * destruct (Hparts q' Hq') as (ps & Hps & Hc & Hst). exists ps. simpl. rewrite lookup_insert_ne.
        { split; [done|]. split; [done|]. intros d Hd. destruct (Hst d Hd). split; [done|]. by apply Hk1. }
        intros E. apply Hnew. rewrite E. by apply list_elem_of_fmap_2.
      * exists pieces. simpl. rewrite lookup_insert_eq. split; [done|]. split; [done|]. intros d Hd. split; [|by apply Hd1].
        apply HP. rewrite <-Hcat. by apply concat_segment.
Qed.

(** *** Completion *)

Lemma VFS_CreateFile_inv u p n m sz d f d' : quiet d -> VFS_CreateFile u p n m sz d = (Ok f, d') ->
  (exists id, f = mkFileRow id u (parent_pointer p) n "file" sz m None None false [] false None 1 (db_now d) (db_now d)) /\
  (exists r, d' = Database.with_files (<[f_ID f := f]> (db_files d)) (with_rand r d)).
Proof.
  intros Hq. unfold VFS_CreateFile. destruct (negb (isValidName n)); [done|]. intros E.
  apply bind_ok_inv in E as ([] & d1 & E1 & E). assert (d1 = d) as ->.
  { unfold must_be_absent, attempt, mbind, GoM_bind in E1.
    destruct (GetFileByPath_quiet u p n d Hq) as (r0 & Er & Hr). rewrite Er in E1.
    destruct r0; try done; by injection E1. }
  rewrite bind_get in E. destruct (generateID_ok "file" d) as (id & r & Eid). rewrite (bind_ok _ _ _ _ _ Eid) in E.
  apply bind_ok_inv in E as ([] & d2 & E2 & E). injection E as <- <-. split; [by eexists|]. exists r.
  unfold wrap in E2. rewrite CreateFile_quiet in E2 by done.
  match type of E2 with context [insert_file ?f ?d] => pose proof (insert_file_cases f d) as Hc; destruct (insert_file f d) as [e|[k d3]] end;
    [by destruct e|]. destruct Hc as (-> & _). by injection E2 as <-.
Qed.

Lemma UpdateFile_ok id u d d' : quiet d -> invalid_field [u] = None -> UpdateFile id [u] d = (Ok tt, d') ->
  exists f, db_files d !! id = Some f /\
    d' = Database.with_files (<[id := set_updated (db_now d) (apply_update u f)]> (db_files d)) d.
Proof.
  intros Hq Hu. unfold UpdateFile. rewrite Hu, bind_get. intros E.
  pose proof (exec_affected_quiet "failed to update file" "file not found"
    (update_file id (fun f => set_updated (db_now d) (foldl (fun f u => apply_update u f) f [u]))) d Hq) as Ee.
  rewrite Ee in E. clear Ee. unfold update_file in E. destruct (db_files d !! id) as [f|] eqn:Ef; [|done]. exists f. split; [done|].
  destruct (negb (unique_ok _ _)); [done|]. destruct (negb (references_ok _ _)); [done|]. by injection E as <-.
Qed.

Lemma completeUpload_inv u sid (w : Server S) f w' : quiet (sv_db w) -> completeUpload true u sid w = (Ok (R_completed f), w') ->
  exists s f' mid m, sv_sessions w !! sid = Some s /\ sv_store w' = sv_store w /\ quiet (sv_db w') /\
    db_files (sv_db w') !! f_ID f = Some f' /\ f_UserID f' = u /\ f_Type f' = "file"%string /\ f_ManifestID f' = Some mid /\
    mid <> ""%string /\ f_IsEncrypted f' = false /\ f_Checksum f' = None /\ f_SizeBytes f' = s_Size s /\
    db_manifests (sv_db w') !! mid = Some m /\ m_Chunks m = collect_hashes s.
Proof.
  intros Hq. unfold completeUpload, require. rewrite bind_mret.
  destruct (negb (bool_decide (u = ""%string))); [rewrite bind_mret|done]. destruct (negb (bool_decide (sid = ""%string))); [rewrite bind_mret|done].
  intros E. apply bind_ok_inv in E as (s & w1 & E1 & E). unfold find_session in E1.
  destruct (sv_sessions w !! sid) as [s'|] eqn:Es; [|done]. injection E1 as -> <-.
  destruct (bool_decide (s_UserID s = u)); [rewrite bind_mret in E|done].
  destruct (negb (_ <? _)); [rewrite bind_mret in E|done].
  apply bind_ok_inv in E as (r & w1 & E1 & E). apply bind_ok_inv in E as (file & w2 & E2 & E).
  destruct r as [f0|e]; [|destruct (is_already_exists e); [done|by destruct (is_invalid_name e)]]. injection E2 as <- <-.
  unfold attempt, on_db in E1. destruct (VFS_CreateFile _ _ _ _ _ (sv_db w)) as [[f1| | |] d1] eqn:Ec; try done. injection E1 as -> <-.
  apply VFS_CreateFile_inv in Ec as [[id Hf0] [r Hd1]]; [|done].
  apply bind_ok_inv in E as (ms & w2 & E2 & E).
  assert (exists r, w2 = mkServer (with_rand r d1) (sv_store w) (sv_sessions w)) as [r2 ->].
  { unfold instead, generateRandomString, wrap, on_rand, on_db, rand_read, mbind, GoM_bind in E2. simpl in E2.
    destruct (next_fault _) as [[] l]; [done|]. injection E2 as _ <-. by eexists. }
  assert (quiet d1) as Hq1 by by subst d1. rewrite (bind_ok _ _ _ (db_now d1) (mkServer (with_rand r2 d1) (sv_store w) (sv_sessions w))) in E by done.
  cbv zeta in E. set (m := mkManifestRow _ _ _ _ _ _ _ _ _) in E.
  pose proof (CreateManifest_quiet m (with_rand r2 d1) Hq1) as Em. apply bind_ok_inv in E as (rm & w3 & E3 & E).
  unfold attempt, on_db in E3. cbn [sv_db] in E3. rewrite Em in E3. clear Em.
  destruct (insert_manifest m (with_rand r2 d1)) as [e|[k d3]] eqn:Ei.
  { injection E3 as <- <-. apply bind_ok_inv in E as (? & ? & _ & E). done. }
  injection E3 as <- <-. apply insert_manifest_inv in Ei as [Hm ->]. cbn [sv_store sv_sessions] in E.
  apply bind_ok_inv in E as (ru & w4 & E4 & E). unfold attempt, on_db in E4. cbn [sv_db sv_store sv_sessions] in E4.
  destruct (UpdateFile _ _ _) as [[[]|e| |] d4] eqn:Eu in E4; try done.
  2:{ injection E4 as <- <-. apply bind_ok_inv in E as (? & ? & _ & E). apply bind_ok_inv in E as (? & ? & _ & E). done. }
  injection E4 as <- <-. apply UpdateFile_ok in Eu as (g & Hg & ->); [|done|done]. cbn in E. injection E as <- <-.
  assert (g = f0) as ->. { simpl in Hg. rewrite Hd1 in Hg. simpl in Hg. rewrite lookup_insert_eq in Hg. congruence. }
  exists s. eexists. exists (m_ID m), m. cbn [sv_db sv_store]. split; [done|]. split; [done|]. split; [done|].
  split; [simpl; by rewrite lookup_insert_eq|]. subst f0. split_and!; try done.
  - simpl. by rewrite lookup_insert_eq.
Qed.

(** *** Sending it back *)

Lemma streamContent_spec m ps (w : @D S) : m_Chunks m = ps.*1 -> holds plain_blob ps w.1 -> w_faults w.2 = [] ->
  exists s', streamContent m w = (Ok tt, (s', wrote w.2 ps.*2)).
Proof.
  intros Hm Hh Hf. unfold streamContent. rewrite Hm. clear Hm.
  assert (forall J hs ds, Forall2 (reads J fetch) hs ds -> forall w : @D S, J w.1 -> w_faults w.2 = [] ->
    exists s', forM hs (fun hash => data ← fetch hash; wrap "failed to write chunk" (on_writer (Write data))) w
      = (Ok tt, (s', wrote w.2 ds))) as Hloop.
  { clear. intros J hs ds. induction 1 as [|h d hs ds Hr _ IH]; intros w HJ Hf; simpl.
    - exists w.1. rewrite wrote_nil by done. by destruct w.
    - destruct (Hr w HJ) as (s1 & E1 & HJ1). rewrite bind_assoc, (bind_ok _ _ _ _ _ E1).
      rewrite (bind_ok _ _ _ tt (s1, wrote w.2 [d])) by (unfold wrap, on_writer; simpl; by rewrite write_ok).
      destruct (IH (s1, wrote w.2 [d]) HJ1 eq_refl) as (s' & ->). exists s'. cbn [snd]. by rewrite wrote_app. }
  destruct (Hloop _ _ _ (plain_reads ps) w Hh Hf) as (s' & E). by exists s'.
Qed.

(** The reply with the whole content. *)
Definition sends_whole (content : bytes) (r : Res unit * @D S) : Prop :=
  exists s' x qs, r = (Ok tt, (s', x)) /\ w_status x = Some 200 /\ w_body x = Raw <$> qs /\ concat qs = content.

Lemma owned_file_ok r (w : @D S) f : quiet (sv_db w.1) -> db_files (sv_db w.1) !! r_id r = Some f -> f_UserID f = r_userID r ->
  owned_file r w = (Ok f, w).
Proof.
  intros Hq Hf Ho. unfold owned_file, or_reject. rewrite bind_assoc. rewrite (bind_ok _ _ w (inl f) w).
  2:{ unfold attempt, on_server, on_db, GetFile, instead. rewrite GetFileByID_quiet, Hf by done. by destruct w as [[]]. }
  rewrite bind_mret. unfold ensure. by rewrite bool_decide_eq_true_2.
Qed.

Lemma content_manifest_ok (w : @D S) f mid m : quiet (sv_db w.1) -> f_ManifestID f = Some mid -> mid <> ""%string ->
  db_manifests (sv_db w.1) !! mid = Some m -> content_manifest f w = (Ok m, w).
Proof.
  intros Hq Hf Hne Hm. unfold content_manifest, or_reject, ensure. rewrite Hf, bool_decide_eq_false_2 by done. cbn [negb].
  rewrite bind_mret, (bind_ok _ _ w (inl m) w); [done|].
  unfold attempt, on_server, on_db, GetManifest. rewrite scan_row_quiet, Hm by done. by destruct w as [[]].
Qed.

Lemma file_and_manifest_ok r (w : @D S) f mid m :
  quiet (sv_db w.1) -> r_userID r <> ""%string -> r_id r <> ""%string ->
  db_files (sv_db w.1) !! r_id r = Some f -> f_UserID f = r_userID r -> f_Type f = "file"%string -> f_ManifestID f = Some mid ->
  mid <> ""%string -> db_manifests (sv_db w.1) !! mid = Some m -> file_and_manifest r w = (Ok (f, m), w).
Proof.
  intros Hq Hu Hid Hf Ho Ht Hmid Hne Hm. unfold file_and_manifest.
  rewrite !bool_decide_eq_false_2 by done. cbn [negb]. rewrite !ensure_true.
  rewrite (bind_ok _ _ _ _ _ (owned_file_ok r w f Hq Hf Ho)).
  rewrite bool_decide_eq_true_2 by done. rewrite ensure_true.
  by rewrite (bind_ok _ _ _ _ _ (content_manifest_ok w f mid m Hq Hmid Hne Hm)).
Qed.

Lemma downloadFile_spec http_time masterKey r (w : @D S) f mid m ps :
  quiet (sv_db w.1) -> fresh w.2 -> r_userID r <> ""%string -> r_id r <> ""%string -> r_Range r = ""%string ->
  db_files (sv_db w.1) !! r_id r = Some f -> f_UserID f = r_userID r -> f_Type f = "file"%string -> f_ManifestID f = Some mid ->
  mid <> ""%string -> f_IsEncrypted f = false -> f_Checksum f = None -> db_manifests (sv_db w.1) !! mid = Some m ->
  m_Chunks m = ps.*1 -> holds plain_blob ps w.1 ->
  sends_whole (concat ps.*2) (downloadFile http_time masterKey r w).
Proof.
  intros Hq (Hst & Hb & Hf) Hu Hid Hrange Hfile Howner Htype Hmid Hmne Henc Hck Hm Hchunks Hh.
  unfold downloadFile. rewrite (bind_ok _ _ _ _ _ (file_and_manifest_ok r w f mid m Hq Hu Hid Hfile Howner Htype Hmid Hmne Hm)).
  rewrite Hrange. destruct w as [w [h b0 bd fl]]. cbn [fst snd w_status w_body w_faults] in *. subst b0 bd fl.
  unfold handleFullDownload. rewrite Hck, Henc. cbn [andb].
  set (x := mkWriter (<["Last-Modified" := http_time (f_UpdatedAt f)]> (<["Accept-Ranges" := "bytes"]>
    (<["Content-Disposition" := attachment "attachment" f]> (<["Content-Length" := pretty (f_SizeBytes f)]>
    (<["Content-Type" := f_MimeType f]> h)))))%string (Some 200) [] []).
  destruct (streamContent_spec m ps (w, x) Hchunks Hh eq_refl) as (s' & E).
  exists s', (wrote x ps.*2), ps.*2. split; [|by split_and!].
  assert (ignore (streamContent m) (w, x) = (Ok tt, (s', wrote x ps.*2))) as Eg
    by (unfold ignore, attempt, mbind, GoM_bind; by rewrite E).
  do 7 (eapply bind_ok_step; [reflexivity|]). exact Eg.
Qed.

(** *** All together *)

(** The requests for the parts, in the order in which they arrive. *)
Definition upload_all (u sid : string) (qs : list PartReq) : GoM (Server S) unit :=
  forM qs (fun q => _ ← uploadChunk true chunker st u sid (p_str q) (p_len q) (p_body q); mret tt).

Lemma upload_all_fills P w0 s0 qs : no_collision P w0 -> s_ID s0 <> ""%string -> s_UserID s0 <> ""%string ->
  db_now (sv_db w0) <= s_ExpiresAt s0 ->
  forall done_ w, (forall q d, q ∈ qs -> segment (p_data q) d -> P d) ->
  (forall q, q ∈ qs -> good_part q /\ p_index q < s_TotalChunks s0) -> NoDup (p_index <$> (done_ ++ qs)) ->
  filled P w0 w s0 done_ ->
  exists w', upload_all (s_UserID s0) (s_ID s0) qs w = (Ok tt, w') /\ filled P w0 w' s0 (done_ ++ qs).
Proof.
  intros Hnc Hsid Hu Hexp. induction qs as [|q qs IH]; intros done_ w HP Hgood Hnd Hf; simpl.
  { exists w. by rewrite app_nil_r. }
  destruct (Hgood q ltac:(by left)) as [Hq Hi].
  destruct (uploadChunk_fills P w0 w s0 done_ q) as (n & hs & w1 & E & Hf1); try done.
  - intros d. apply HP. by left.
  - rewrite fmap_app, fmap_cons in Hnd. apply NoDup_app in Hnd as (_ & Hd & _). intros Hin. apply (Hd _ Hin). by left.
  - unfold upload_all. cbn [forM]. rewrite bind_assoc, (bind_ok _ _ _ _ _ E), bind_mret.
    replace (done_ ++ q :: qs) with ((done_ ++ [q]) ++ qs) in * by by rewrite <-app_assoc.
    apply IH; [|intros; apply Hgood; by right|done|done]. intros q' d Hq'. apply HP. by right.
Qed.

(** The pieces of all parts, in the order of their numbers. *)
Lemma collect_pieces P w s (l : list Z) (parts : Z -> bytes) :
  (forall i, i ∈ l -> exists pieces, s_ChunkHashes s !! i = Some (sha256_hex <$> pieces) /\ concat pieces = parts i /\
     forall d, d ∈ pieces -> P d /\ stored_as w d) ->
  exists ps, concat ((fun i => default [] (s_ChunkHashes s !! i)) <$> l) = ps.*1 /\ concat ps.*2 = concat (parts <$> l) /\
    forall p, p ∈ ps -> p.1 = sha256_hex p.2 /\ stored_as w p.2.
Proof.
  induction l as [|i l IH]; intros Hl; [exists []; split; [done|split; [done|]]; by intros p Hp%not_elem_of_nil|].
  destruct IH as (ps & E1 & E2 & Hps); [intros; apply Hl; by right|].
  destruct (Hl i ltac:(by left)) as (pieces & Eh & Ec & Hst).
  exists (((fun d => (sha256_hex d, d)) <$> pieces) ++ ps). rewrite !fmap_app, !concat_app, !fmap_cons. cbn [concat].
  rewrite Eh, E1, E2. simpl. rewrite <-!list_fmap_compose. split; [done|]. split.
  - f_equal. rewrite <-Ec. f_equal. by rewrite list_fmap_id.
  - intros p [(d & -> & Hd)%list_elem_of_fmap|Hp]%elem_of_app; [|by apply Hps]. split; [done|]. by apply Hst.
Qed.
End Transfer.


(** ** Witness *)

Section Witness.
#[local] Existing Instance toy_hash.
#[local] Existing Instance toy_aead.

Lemma transfer_root_good : Forall good_elem ["data"%string].
Proof. by apply (bool_decide_unpack _). Qed.

#[local] Instance transfer_backend : Backend FS := Local_Backend ["data"%string] transfer_root_good.

(** One user has opened a session for a file of one byte. *)
Definition opened : Server FS :=
  (createUpload "u" (Some (mkCreate "" "a.txt" 1 "text/plain" "")) (mkServer Upload.db0 (mkFS ∅ ∅ []) ∅)).2.
Definition opened_session : UploadSession :=
  default (mkSession "" "" "" "" 0 "" "" "" 0 0 ∅ 0 ∅) (head (map_to_list (sv_sessions opened)).*2).
Definition the_part : PartReq := mkPart 0 "0" 1 [([x68], None)] [x68].

Lemma opened_sound : sound opened.
Proof.
  split; [reflexivity|]. split; [reflexivity|]. split; [intros k _; apply not_elem_of_empty|].
  intros h c Hc. assert (db_chunks (sv_db opened) = ∅) as E by (vm_compute; reflexivity). by rewrite E, lookup_empty in Hc.
Qed.

Lemma opened_no_collision : no_collision (piece_of [the_part]) opened.
Proof.
  assert (forall d, piece_of [the_part] d -> d = [] \/ d = [x68]) as Hp.
  { intros d (q & ->%list_elem_of_singleton & Hd). by apply Encrypted.segments_one. }
  intros d d' Hd [Hd'|(h & _ & Hb)].
  - destruct (Hp d Hd) as [-> | ->], (Hp d' Hd') as [-> | ->]; try done; intros E; by vm_compute in E.
  - assert (sv_store opened = mkFS ∅ ∅ []) as E by (vm_compute; reflexivity). rewrite E in Hb. simpl in Hb.
    unfold local_blob in Hb. simpl in Hb. by rewrite lookup_empty in Hb.
Qed.

Definition uploaded : Server FS := (upload_all small_chunker "local" "u" (s_ID opened_session) [the_part] opened).2.
Definition completion : Res reply * Server FS := completeUpload true "u" (s_ID opened_session) uploaded.
Definition new_file : Database.File :=
  match completion.1 with Ok (R_completed f) => f | _ => Download.plain_file end.

Lemma completion_ok : completion.1 = Ok (R_completed new_file).
Proof. vm_compute. reflexivity. Qed.

Lemma new_file_id : f_ID new_file <> ""%string.
Proof. vm_compute. discriminate. Qed.

Lemma one_index : indices opened_session = [0].
Proof. vm_compute. reflexivity. Qed.

Lemma opened_user : s_UserID opened_session = "u"%string.
Proof. vm_compute. reflexivity. Qed.

End Witness.
