(* ===== verification/Devices.v ===== *)
(** * Devices and their synchronisation states (internal/db/syncstate.go)

    Tables beside files, manifests and chunks are kept next to the database
    state: [Ext T] is that state with the rows [T] of further tables.  Their
    statements go through the same driver and consume the same faults. *)

From S2P Require Import Prelude GoStrings GoCrypto Database VectorClock.

(** ** Further tables *)

Record Ext (T : Type) := mkExt { base : DB; tab : T }.
Arguments mkExt {T}.
Arguments base {T}.
Arguments tab {T}.

Section Ext.
Context {T : Type}.

Definition on_base {A} (m : GoM DB A) : GoM (Ext T) A := fun w =>
  let '(r, d) := m (base w) in (r, mkExt d (tab w)).

(** The rows of the further tables, or an error of the driver. *)
Definition tab_query {A} (q : Ext T -> A) : GoM (Ext T) A := fun w =>
  let '(f, l) := next_fault (db_faults (base w)) in
  let w := mkExt (with_faults l (base w)) (tab w) in
  if f then (Err ErrDriver, w) else (Ok (q w), w).

(** A statement: the rows affected and the new tables, or a constraint error. *)
Definition tab_exec (x : Ext T -> error + (Z * Ext T)) : GoM (Ext T) Z := fun w =>
  let '(f, l) := next_fault (db_faults (base w)) in
  let w := mkExt (with_faults l (base w)) (tab w) in
  if f then (Err ErrDriver, w)
  else match x w with inl e => (Err e, w) | inr (n, w') => (Ok n, w') end.

Definition tab_scan {A} (none failed : string) (q : Ext T -> option A) : GoM (Ext T) A :=
  r ← attempt (tab_query q);
  match r with
  | inr e => fail (Wrapf failed e)
  | inl None => fail (Errorf none)
  | inl (Some a) => mret a
  end.

Definition tab_affected (msg : string) (rows : Z) : GoM (Ext T) unit :=
  if rows =? 0 then fail (Errorf msg) else mret tt.

Definition tab_now : GoM (Ext T) Z := fun w => (Ok (db_now (base w)), w).

(** The statement with the given rows changed. *)
Definition with_tab (t : T) (w : Ext T) : Ext T := mkExt (base w) t.
End Ext.

(** *** Lemmas: a driver that accepts every call *)

Section Quiet.
Context {T : Type}.
Implicit Type w : Ext T.

Lemma ext_eta w : mkExt (base w) (tab w) = w.
Proof. by destruct w. Qed.

Definition still (w : Ext T) : Prop := db_faults (base w) = [].

Lemma still_faults w : still w -> mkExt (with_faults [] (base w)) (tab w) = w.
Proof. destruct w as [[] ?]. unfold still. simpl. by intros ->. Qed.

Lemma tab_query_still {A} (q : Ext T -> A) w : still w -> tab_query q w = (Ok (q w), w).
Proof. intros Hw. unfold tab_query. rewrite Hw. simpl. by rewrite still_faults. Qed.

Lemma tab_exec_still x w : still w ->
  tab_exec x w = match x w with inl e => (Err e, w) | inr (n, w') => (Ok n, w') end.
Proof. intros Hw. unfold tab_exec. rewrite Hw. simpl. by rewrite still_faults. Qed.

Lemma tab_scan_still {A} a b (q : Ext T -> option A) w : still w ->
  tab_scan a b q w = match q w with Some x => (Ok x, w) | None => (Err (Errorf a), w) end.
Proof.
  intros Hw. unfold tab_scan, attempt, mbind, GoM_bind. rewrite tab_query_still by done. by destruct (q w).
Qed.

(** A statement of the base tables keeps an invariant of them, the others none. *)
Lemma preserves_on_base {A} (I : DB -> Prop) (m : GoM DB A) :
  preserves I m -> preserves (fun w : Ext T => I (base w)) (on_base m).
Proof. intros Hm w Hw. specialize (Hm _ Hw). unfold on_base. by destruct (m (base w)). Qed.

Lemma preserves_tab_query {A} (I : DB -> Prop) (q : Ext T -> A) :
  (forall l d, I d -> I (with_faults l d)) -> preserves (fun w : Ext T => I (base w)) (tab_query q).
Proof. intros Hf w Hw. unfold tab_query. destruct (next_fault _) as [[] l]; simpl; auto. Qed.
End Quiet.

(** *** Lemmas: whatever the driver does *)

Lemma tab_exec_ok_inv {T} x (w : Ext T) n w' : tab_exec x w = (Ok n, w') ->
  exists l, x (mkExt (with_faults l (base w)) (tab w)) = inr (n, w').
Proof.
  unfold tab_exec. destruct (next_fault _) as [[] l]; [done|]. destruct (x _) as [e|[m w1]] eqn:E; [done|].
  intros [= <- <-]. by exists l.
Qed.

Lemma tab_scan_ok_inv {T A} a b (q : Ext T -> option A) w r w' : tab_scan a b q w = (r, w') ->
  tab w' = tab w /\ db_now (base w') = db_now (base w) /\
  (forall x, r = Ok x -> exists l, q (mkExt (with_faults l (base w)) (tab w)) = Some x).
Proof.
  unfold tab_scan, attempt, tab_query, mbind, GoM_bind. destruct (next_fault _) as [[] l]; simpl.
  - intros [= <- <-]. by split_and!.
  - destruct (q _) as [x|] eqn:E; intros [= <- <-]; simpl; split_and!; try done. intros y [= ->]. by exists l.
Qed.

(** ** Rows (types.go)

    The text of a vector clock is kept as the clock it encodes, [None] the empty
    text.  Instants are seconds; the zero time is the year 1. *)

Record Device := mkDevice {
  d_ID : string; d_UserID : string; d_Name : string; d_DeviceType : string; d_OS : string; d_SyncFolder : string;
  d_LastSyncAt : option Z; d_VectorClock : option VectorClock; d_MerkleRoot : option string; d_IsActive : bool;
  d_CreatedAt : Z; d_UpdatedAt : Z
}.

Record SyncState := mkState {
  st_ID : string; st_DeviceID : string; st_FileID : string; st_ManifestID : string;
  st_VectorClock : option VectorClock; st_SyncedAt : Z
}.

Definition zero_time : Z := -62135596800.

Record DevTables := mkDevTables { t_devices : gmap string Device; t_states : gmap string SyncState }.

Definition DevDB : Type := Ext DevTables.

Definition with_devices (m : gmap string Device) (w : DevDB) : DevDB := with_tab (mkDevTables m (t_states (tab w))) w.
Definition with_states (m : gmap string SyncState) (w : DevDB) : DevDB := with_tab (mkDevTables (t_devices (tab w)) m) w.

(** ** Devices *)

Definition insert_device (device : Device) (w : DevDB) : error + (Z * DevDB) :=
  if bool_decide (is_Some (t_devices (tab w) !! d_ID device)) then inl ErrUnique
  else if db_fk (base w) && negb (bool_decide (d_UserID device ∈ db_users (base w))) then inl ErrForeignKey
  else inr (1, with_devices (<[d_ID device := device]> (t_devices (tab w))) w).

Definition CreateDevice (device : Device) : GoM DevDB unit :=
  wrap "failed to create device" (tab_exec (insert_device device));; mret tt.

Definition GetDeviceByID (id : string) : GoM DevDB Device :=
  tab_scan "device not found" "failed to get device" (fun w => t_devices (tab w) !! id).

(** ORDER BY created_at DESC *)
Definition newest_device (a b : Device) : Prop := d_CreatedAt b <= d_CreatedAt a.

#[export] Instance newest_device_dec : RelDecision newest_device.
Proof. intros a b. unfold newest_device. apply _. Defined.

Definition GetDevicesByUser (userID : string) : GoM DevDB (list Device) :=
  wrap "failed to list devices" (tab_query (fun w =>
    merge_sort newest_device (filter (fun d => d_UserID d = userID) (rows (t_devices (tab w)))))).

(** The columns that [UpdateDevice] accepts, and any other name. *)
Inductive device_update :=
  | D_name (v : string) | D_device_type (v : string) | D_os (v : string) | D_sync_folder (v : string)
  | D_last_sync_at (v : Z) | D_vector_clock (v : VectorClock) | D_merkle_root (v : string) | D_is_active (v : bool)
  | D_other (field : string).

Definition apply_device (u : device_update) (d : Device) : Device :=
  let '(mkDevice id us nm ty os fo sy vc me ac cr up) := d in
  match u with
  | D_name v => mkDevice id us v ty os fo sy vc me ac cr up
  | D_device_type v => mkDevice id us nm v os fo sy vc me ac cr up
  | D_os v => mkDevice id us nm ty v fo sy vc me ac cr up
  | D_sync_folder v => mkDevice id us nm ty os v sy vc me ac cr up
  | D_last_sync_at v => mkDevice id us nm ty os fo (Some v) vc me ac cr up
  | D_vector_clock v => mkDevice id us nm ty os fo sy (Some v) me ac cr up
  | D_merkle_root v => mkDevice id us nm ty os fo sy vc (Some v) ac cr up
  | D_is_active v => mkDevice id us nm ty os fo sy vc me v cr up
  | D_other _ => d
  end.

Definition touch_device (t : Z) (d : Device) : Device :=
  let '(mkDevice id us nm ty os fo sy vc me ac cr _) := d in mkDevice id us nm ty os fo sy vc me ac cr t.

Fixpoint invalid_device_field (updates : list device_update) : option string :=
  match updates with
  | [] => None
  | D_other field :: _ => Some field
  | _ :: updates => invalid_device_field updates
  end.

Definition update_device (id : string) (g : Device -> Device) (w : DevDB) : error + (Z * DevDB) :=
  match t_devices (tab w) !! id with
  | None => inr (0, w)
  | Some d => inr (1, with_devices (<[id := g d]> (t_devices (tab w))) w)
  end.

Definition UpdateDevice (id : string) (updates : list device_update) : GoM DevDB unit :=
  match updates with
  | [] => mret tt
  | _ =>
      match invalid_device_field updates with
      | Some field => fail (Errorf ("invalid update field: " +:+ field))
      | None =>
          t ← tab_now;
          rows ← wrap "failed to update device"
            (tab_exec (update_device id (fun d => touch_device t (foldl (fun d u => apply_device u d) d updates))));
          tab_affected "device not found" rows
      end
  end.

(** ON DELETE CASCADE of sync_state.device_id *)
Definition delete_device (id : string) (w : DevDB) : error + (Z * DevDB) :=
  match t_devices (tab w) !! id with
  | None => inr (0, w)
  | Some _ =>
      let w' := with_devices (delete id (t_devices (tab w))) w in
      inr (1, if db_fk (base w) then with_states (filter (fun kv => st_DeviceID kv.2 <> id) (t_states (tab w))) w' else w')
  end.

Definition DeleteDevice (id : string) : GoM DevDB unit :=
  rows ← wrap "failed to delete device" (tab_exec (delete_device id));
  tab_affected "device not found" rows.

(** ** Synchronisation states *)

Definition same_pair (deviceID fileID : string) (s : SyncState) : Prop := st_DeviceID s = deviceID /\ st_FileID s = fileID.

#[export] Instance same_pair_dec d f s : Decision (same_pair d f s).
Proof. unfold same_pair. apply _. Defined.

(** INSERT ... ON CONFLICT (device_id, file_id) DO UPDATE: the row of the pair
    keeps its key. *)
Definition upsert_state (state : SyncState) (w : DevDB) : error + (Z * DevDB) :=
  let m := t_states (tab w) in
  match head (filter (same_pair (st_DeviceID state) (st_FileID state)) (rows m)) with
  | Some old =>
      inr (1, with_states (<[st_ID old := mkState (st_ID old) (st_DeviceID old) (st_FileID old) (st_ManifestID state)
                                           (st_VectorClock state) (st_SyncedAt state)]> m) w)
  | None =>
      if bool_decide (is_Some (m !! st_ID state)) then inl ErrUnique
      else if db_fk (base w) && negb (bool_decide (is_Some (t_devices (tab w) !! st_DeviceID state)) &&
                                      bool_decide (is_Some (db_files (base w) !! st_FileID state)))
      then inl ErrForeignKey
      else inr (1, with_states (<[st_ID state := state]> m) w)
  end.

Definition CreateOrUpdateSyncState (state : SyncState) : GoM DevDB unit :=
  wrap "failed to create/update sync state" (tab_exec (upsert_state state));; mret tt.

Definition GetSyncState (deviceID fileID : string) : GoM DevDB SyncState :=
  tab_scan "sync state not found" "failed to get sync state"
    (fun w => head (filter (same_pair deviceID fileID) (rows (t_states (tab w))))).

(** ORDER BY synced_at DESC *)
Definition newest_state (a b : SyncState) : Prop := st_SyncedAt b <= st_SyncedAt a.

#[export] Instance newest_state_dec : RelDecision newest_state.
Proof. intros a b. unfold newest_state. apply _. Defined.

Definition GetSyncStatesByDevice (deviceID : string) : GoM DevDB (list SyncState) :=
  wrap "failed to list sync states" (tab_query (fun w =>
    merge_sort newest_state (filter (fun s => st_DeviceID s = deviceID) (rows (t_states (tab w)))))).

(** ** Lemmas *)

(** At most one row for each device and file, each under its key. *)
Definition states_ok (m : gmap string SyncState) : Prop :=
  map_Forall (fun k s => st_ID s = k) m /\
  forall k k' s s', m !! k = Some s -> m !! k' = Some s' ->
    st_DeviceID s = st_DeviceID s' -> st_FileID s = st_FileID s' -> k = k'.

Lemma elem_of_table {A} (m : gmap string A) a : a ∈ rows m <-> exists k, m !! k = Some a.
Proof.
  unfold rows. rewrite list_elem_of_fmap. split.
  - intros ([k x] & -> & Hin). apply elem_of_map_to_list in Hin. eauto.
  - intros [k Hk]. exists (k, a). split; [done|]. by apply elem_of_map_to_list.
Qed.

(** The row of a pair that a lookup by [head] finds. *)
Lemma head_pair m d f : states_ok m ->
  match head (filter (same_pair d f) (rows m)) with
  | Some s => m !! st_ID s = Some s /\ same_pair d f s /\ forall k s', m !! k = Some s' -> same_pair d f s' -> k = st_ID s
  | None => forall k s', m !! k = Some s' -> ~ same_pair d f s'
  end.
Proof.
  intros [Hk Hu]. destruct (filter _ _) as [|s l] eqn:E; simpl.
  - intros k s' Hs Hp. assert (s' ∈ filter (same_pair d f) (rows m)) as Hin; [|rewrite E in Hin; by apply not_elem_of_nil in Hin].
    apply list_elem_of_filter. split; [done|]. apply elem_of_table. eauto.
  - assert (s ∈ filter (same_pair d f) (rows m)) as Hin by (rewrite E; by left).
    apply list_elem_of_filter in Hin as [Hp Hin]. apply elem_of_table in Hin as [k Hs].
    pose proof (Hk _ _ Hs) as Eid. simpl in Eid. subst k. split_and!; [done|done|].
    intros k s' Hs' [H1 H2]. destruct Hp as [H3 H4]. eapply Hu; eauto; congruence.
Qed.

(** The upsert keeps one row for each pair, and a lookup finds what was written last. *)
Lemma upsert_lookup state w n w' : states_ok (t_states (tab w)) -> upsert_state state w = inr (n, w') ->
  states_ok (t_states (tab w')) /\
  exists s, head (filter (same_pair (st_DeviceID state) (st_FileID state)) (rows (t_states (tab w')))) = Some s /\
    st_ManifestID s = st_ManifestID state /\ st_VectorClock s = st_VectorClock state /\ st_SyncedAt s = st_SyncedAt state.
Proof.
  intros Hok E. pose proof (head_pair _ (st_DeviceID state) (st_FileID state) Hok) as Hh. unfold upsert_state in E.
  assert (forall k s, t_states (tab w') = <[k := s]> (t_states (tab w)) -> st_ID s = k ->
            same_pair (st_DeviceID state) (st_FileID state) s ->
            (forall k' s', t_states (tab w) !! k' = Some s' -> same_pair (st_DeviceID state) (st_FileID state) s' -> k' = k) ->
            states_ok (t_states (tab w')) /\
            head (filter (same_pair (st_DeviceID state) (st_FileID state)) (rows (t_states (tab w')))) = Some s) as Hput.
  { intros k s Em Es Hs Huniq. destruct Hok as [Hk Hu].
    assert (states_ok (t_states (tab w'))) as Hok'.
    { rewrite Em. split; [by apply map_Forall_insert_2|]. intros k1 k2 s1 s2 H1 H2 Ed Ef.
      rewrite lookup_insert_Some in H1, H2. destruct Hs as [Hs1 Hs2].
      destruct H1 as [[<- <-]|[Hn1 H1]], H2 as [[<- <-]|[Hn2 H2]]; try done.
      - symmetry. eapply Huniq; [exact H2|]. split; congruence.
      - eapply Huniq; [exact H1|]. split; congruence.
      - by eapply Hu. }
    split; [done|]. pose proof (head_pair _ (st_DeviceID state) (st_FileID state) Hok') as Hh'.
    assert (t_states (tab w') !! k = Some s) as Hl by (rewrite Em; apply lookup_insert_eq).
    destruct (head (filter _ (rows (t_states (tab w'))))) as [s'|]; [|by destruct (Hh' _ _ Hl)].
    destruct Hh' as (H1 & _ & H2). specialize (H2 _ _ Hl Hs). congruence. }
  destruct (head (filter _ (rows (t_states (tab w))))) as [old|].
  - simplify_eq. destruct Hh as (Hl & Hp & Huniq). edestruct Hput as [H1 H2]; [done|done|exact Hp|exact Huniq|].
    split; [done|]. eexists. split; [exact H2|]. done.
  - repeat case_match; simplify_eq. edestruct Hput as [H1 H2]; [done|done|done| |].
    + intros k' s' Hs' Hp'. by destruct (Hh _ _ Hs').
    + split; [done|]. eexists. split; [exact H2|]. done.
Qed.
