(* ===== verification/SyncEngine.v ===== *)
(** * The synchronisation engine (internal/sync/engine.go)

    Negotiation compares the tree of the client with the tree of the server,
    commit applies the changes of a client to the tables.  The path resolver is
    an optional collaborator: calling it when it is absent panics.  What the code
    logs is dropped. *)

From S2P Require Import Prelude GoStrings GoCrypto Chunker VectorClock Merkle Storage Database Vfs Devices.

(** ** Data *)

Record FileChange := mkChange {
  fc_Path : string; fc_Action : string; fc_SizeBytes : Z; fc_MimeType : string; fc_ChunkHashes : list string;
  fc_ManifestID : string; fc_VectorClock : VectorClock
}.

Record CommitRequest := mkCommitReq { cr_DeviceID : string; cr_VectorClock : VectorClock; cr_Changes : list FileChange }.

Record ConflictInfo := mkConflict {
  ci_Path : string; ci_LocalVersion : Z; ci_RemoteVersion : Z; ci_Resolution : string
}.

Record CommitResponse := mkCommitResp {
  cs_Status : string; cs_NewRoot : string; cs_VectorClock : VectorClock; cs_Conflicts : list ConflictInfo; cs_AppliedCount : Z
}.

Record SyncStatus := mkStatus {
  ss_DeviceID : string; ss_LastSyncAt : option Z; ss_MerkleRoot : string; ss_VectorClock : VectorClock;
  ss_FileCount : Z; ss_PendingOps : Z
}.

Record NegotiateRequest := mkNegReq {
  nr_DeviceID : string; nr_MerkleRoot : string; nr_VectorClock : VectorClock; nr_ClientFiles : list FileInfo
}.

Record NegotiateResponse := mkNegResp {
  ns_Status : string; ns_ServerRoot : string; ns_VectorClock : VectorClock; ns_Diff : option DiffResult;
  ns_NeededChunks : list string; ns_HaveChunks : list string
}.

(** The tables and the chunk store that the engine works on. *)
Record World (S : Type) := mkWorld { w_db : DevDB; w_store : S }.
Arguments mkWorld {S}.
Arguments w_db {S}.
Arguments w_store {S}.

(** [for _, x := range l] that threads a value through its turns. *)
Fixpoint foldG {W A B} (f : A -> B -> GoM W A) (a : A) (l : list B) : GoM W A :=
  match l with
  | [] => mret a
  | b :: l => a ← f a b; foldG f a l
  end.

(** ** Paths *)

(** [%q] of a name without quotes, backslashes or control characters. *)
Definition quote_go (s : string) : string := (String "034"%char s +:+ String "034"%char "")%string.

Fixpoint resolve_segments (userID : string) (parentID : option string) (segments : list string) : GoM DB (option string) :=
  match segments with
  | [] => mret parentID
  | seg :: segments =>
      if bool_decide (seg = "") then resolve_segments userID parentID segments
      else
        folder ← wrap ("folder " +:+ quote_go seg +:+ " not found") (GetFileByPath userID parentID seg);
        resolve_segments userID (Some (f_ID folder)) segments
  end.

Definition resolveParentID (userID dirPath : string) : GoM DB (option string) :=
  let dirPath := TrimPrefix dirPath "/" in
  if bool_decide (dirPath = "") || bool_decide (dirPath = ".") then mret None
  else resolve_segments userID None (split_char slash dirPath).

Definition resolveFileByPath (userID filePath : string) : GoM DB File :=
  let dir := path_Dir filePath in
  let name := path_Base filePath in
  parentID ← resolveParentID userID dir;
  wrap ("file not found at " +:+ filePath) (GetFileByPath userID parentID name).

Definition collectChunkHashesForPath (userID filePath : string) : GoM DB (list string) :=
  let dir := path_Dir filePath in
  let name := path_Base filePath in
  parentID ← wrap ("resolve parent for " +:+ filePath) (resolveParentID userID dir);
  fileRec ← instead (Errorf ("file not found: " +:+ filePath)) (GetFileByPath userID parentID name);
  manifest ← wrap ("manifest not found for file " +:+ filePath) (GetLatestManifest (f_ID fileRec));
  mret (m_Chunks manifest).

(** ** Applying changes *)

Definition generateSyncID (prefix : string) : GoM DB string := fun d =>
  match rand_read 8 (db_rand d) with
  | (Ok b, r) => (Ok (prefix +:+ "_" +:+ hex_encode b)%string, with_rand r d)
  | (_, r) => (Ok (prefix +:+ "_" +:+ pretty (db_now d * 1000000000))%string, with_rand r d)
  end.

(** The first key in the unspecified order of the map. *)
Definition firstDeviceID (v : VectorClock) : string := default ""%string (head (map_to_list (entries v)).*1).

Section Apply.
Context (storageType : string).

Definition ensure_ref (hash : string) : GoM DB unit :=
  exists_ ← wrap ("check chunk " +:+ hash) (ChunkExists hash);
  if exists_ : bool then wrap ("increment ref for chunk " +:+ hash) (IncrementRefCount hash)
  else
    d ← get_w;
    wrap ("create chunk " +:+ hash) (CreateChunk (mkChunkRow hash 0 storageType hash 1 false (db_now d))).

Definition ensureChunkRefs (hashes : list string) : GoM DB unit := forM hashes ensure_ref.

Definition applyAdd (userID : string) (change : FileChange) : GoM DB unit :=
  let dir := path_Dir (fc_Path change) in
  let name := path_Base (fc_Path change) in
  parentID ← wrap ("resolve parent for " +:+ fc_Path change) (resolveParentID userID dir);
  d ← get_w;
  let now := db_now d in
  id ← generateSyncID "file";
  let fileRec := mkFileRow id userID parentID name "file" (fc_SizeBytes change) (fc_MimeType change) None None false []
                   false None 1 now now in
  wrap ("create file " +:+ fc_Path change) (CreateFile fileRec);;
  if 0 <? zlen (fc_ChunkHashes change) then
    mid ← generateSyncID "manifest";
    let manifest := mkManifestRow mid id 1 (fc_SizeBytes change) (zlen (fc_ChunkHashes change)) (fc_ChunkHashes change)
                      (fc_ManifestID change) (firstDeviceID (fc_VectorClock change)) now in
    wrap ("create manifest for " +:+ fc_Path change) (CreateManifest manifest);;
    wrap ("link manifest to file " +:+ fc_Path change) (UpdateFile id [U_manifest_id (Some mid); U_version 1]);;
    wrap ("ensure chunk refs for " +:+ fc_Path change) (ensureChunkRefs (fc_ChunkHashes change))
  else mret tt.

Definition applyModify (userID : string) (change : FileChange) : GoM DB unit :=
  existing ← wrap ("resolve file " +:+ fc_Path change) (resolveFileByPath userID (fc_Path change));
  let newVersion := f_Version existing + 1 in
  mid ← generateSyncID "manifest";
  d ← get_w;
  let manifest := mkManifestRow mid (f_ID existing) newVersion (fc_SizeBytes change) (zlen (fc_ChunkHashes change))
                    (fc_ChunkHashes change) (fc_ManifestID change) (firstDeviceID (fc_VectorClock change)) (db_now d) in
  wrap ("create manifest for " +:+ fc_Path change) (CreateManifest manifest);;
  wrap ("update file " +:+ fc_Path change)
    (UpdateFile (f_ID existing) [U_manifest_id (Some mid); U_size_bytes (fc_SizeBytes change);
                                 U_mime_type (fc_MimeType change); U_version newVersion]);;
  wrap ("ensure chunk refs for " +:+ fc_Path change) (ensureChunkRefs (fc_ChunkHashes change)).

Definition applyDelete (userID : string) (change : FileChange) : GoM DB unit :=
  existing ← wrap ("resolve file " +:+ fc_Path change) (resolveFileByPath userID (fc_Path change));
  wrap ("soft delete " +:+ fc_Path change) (SoftDelete (f_ID existing)).

Definition applyChange (userID : string) (change : FileChange) : GoM DB unit :=
  if bool_decide (fc_Action change = "add") then applyAdd userID change
  else if bool_decide (fc_Action change = "modify") then applyModify userID change
  else if bool_decide (fc_Action change = "delete") then applyDelete userID change
  else fail (Errorf ("unknown action: " +:+ fc_Action change)).

(** No branch of the code builds a conflict. *)
Definition detectConflict (change : FileChange) : option ConflictInfo :=
  if bool_decide (fc_Action change = "add") then None else None.

(** One turn of the loop of [Commit]: the conflicts and the number of changes applied. *)
Definition commit_step (userID : string) (acc : list ConflictInfo * Z) (change : FileChange) :
    GoM DB (list ConflictInfo * Z) :=
  let '(conflicts, appliedCount) := acc in
  let conflict := detectConflict change in
  let conflicts := match conflict with Some c => conflicts ++ [c] | None => conflicts end in
  if bool_decide (is_Some conflict) && bool_decide (fc_Action change = "modify") then mret (conflicts, appliedCount)
  else
    r ← attempt (applyChange userID change);
    match r with
    | inr _ => mret (conflicts, appliedCount)
    | inl _ => mret (conflicts, appliedCount + 1)
    end.
End Apply.

(** ** The engine *)

Section Engine.
Context `{HashFn} {S : Type} `{Backend S}.

(** Whether [SetVFS] was called, the type of the backend, and a bound for the recursions. *)
Context (has_vfs : bool) (storageType : string) (fuel : nat).

Definition on_dev {A} (m : GoM DevDB A) : GoM (World S) A := fun w =>
  let '(r, d) := m (w_db w) in (r, mkWorld d (w_store w)).
Definition on_files {A} (m : GoM DB A) : GoM (World S) A := on_dev (on_base m).
Definition on_blobs {A} (m : GoM S A) : GoM (World S) A := fun w =>
  let '(r, s) := m (w_store w) in (r, mkWorld (w_db w) s).

Definition vfs_ListAllFiles (userID : string) : GoM (World S) (list FileInfo) :=
  if has_vfs then on_files (ListAllFiles fuel userID)
  else panic "invalid memory address or nil pointer dereference".

(** One hash of the loops over chunks: [(seen, found)]. *)
Definition check_hash (want : bool) (acc : gset string * list string) (hash : string) : GoM (World S) (gset string * list string) :=
  let '(seen, found) := acc in
  if bool_decide (hash ∈ seen) then mret (seen, found)
  else
    let seen := {[hash]} ∪ seen in
    r ← attempt (on_blobs (Exists hash));
    match r with
    | inr _ => mret (seen, found)
    | inl exists_ => mret (seen, if Bool.eqb exists_ want then found ++ [hash] else found)
    end.

Definition check_path (want : bool) (userID : string) (acc : gset string * list string) (filePath : string) :
    GoM (World S) (gset string * list string) :=
  r ← attempt (on_files (collectChunkHashesForPath userID filePath));
  match r with
  | inr _ => mret acc
  | inl chunks => foldG (check_hash want) acc chunks
  end.

Definition findNeededChunks (userID : string) (paths : list string) : GoM (World S) (list string) :=
  acc ← foldG (check_path false userID) (∅, []) paths; mret acc.2.

Definition findAvailableChunks (userID : string) (added modified : list string) : GoM (World S) (list string) :=
  acc ← foldG (check_path true userID) (∅, []) (added ++ modified); mret acc.2.

Fixpoint collectPathsRecursive (node : MerkleNode) (paths : list string) : list string :=
  let 'mkNode _ p f _ _ ch := node in
  foldl (fun paths child => collectPathsRecursive child paths) (if f then paths ++ [p] else paths) ch.

Definition collectAllPaths (node : option MerkleNode) : list string :=
  match node with None => [] | Some n => collectPathsRecursive n [] end.

Definition root_hash (root : option MerkleNode) : string := match root with Some n => Hash n | None => ""%string end.

Definition Negotiate (userID : string) (req : NegotiateRequest) : GoM (World S) NegotiateResponse :=
  serverFiles ← wrap "failed to list server files" (vfs_ListAllFiles userID);
  serverRoot ← lift (Build fuel serverFiles);
  let serverRootHash := root_hash serverRoot in
  if bool_decide (serverRootHash = nr_MerkleRoot req) && negb (bool_decide (nr_MerkleRoot req = "")) then
    mret (mkNegResp "synced" serverRootHash (nr_VectorClock req) None [] [])
  else
    clientRoot ← lift (Build fuel (nr_ClientFiles req));
    diff ← match clientRoot, serverRoot with
           | Some _, Some _ => lift (Diff fuel clientRoot serverRoot)
           | None, Some _ => mret (mkDiff (collectAllPaths serverRoot) [] [])
           | _, None => mret (mkDiff [] [] [])
           end;
    neededChunks ← findNeededChunks userID (Modified diff);
    haveChunks ← findAvailableChunks userID (Added diff) (Modified diff);
    let mergedClock := VectorClock.Copy (nr_VectorClock req) in
    r ← attempt (on_dev (GetDeviceByID (nr_DeviceID req)));
    mergedClock ← match r with
                  | inl device => match d_VectorClock device with
                                  | Some serverClock => lift (Merge mergedClock serverClock)
                                  | None => mret mergedClock
                                  end
                  | inr _ => mret mergedClock
                  end;
    mret (mkNegResp "diff" serverRootHash mergedClock (Some diff) neededChunks haveChunks).

Definition updateDeviceState (deviceID : string) (vc : VectorClock) : GoM DevDB unit :=
  now ← tab_now;
  ignore (UpdateDevice deviceID [D_vector_clock vc; D_last_sync_at now]).

Definition Commit (userID : string) (req : CommitRequest) : GoM (World S) CommitResponse :=
  acc ← on_files (foldG (commit_step storageType userID) ([], 0) (cr_Changes req));
  let '(conflicts, appliedCount) := (acc : list ConflictInfo * Z) in
  on_dev (updateDeviceState (cr_DeviceID req) (cr_VectorClock req));;
  serverFiles ← wrap "failed to rebuild tree" (vfs_ListAllFiles userID);
  newRoot ← lift (Build fuel serverFiles);
  let newRootHash := root_hash newRoot in
  clock ← lift (Increment (cr_VectorClock req) (cr_DeviceID req));
  let status := if 0 <? zlen conflicts then "partial"%string else "committed"%string in
  mret (mkCommitResp status newRootHash clock conflicts appliedCount).

Definition GetStatus (deviceID : string) : GoM DevDB SyncStatus :=
  device ← wrap "device not found" (GetDeviceByID deviceID);
  let vc := match d_VectorClock device with Some c => c | None => None end in
  mret (mkStatus deviceID (d_LastSyncAt device) (default ""%string (d_MerkleRoot device)) vc 0 0).

Definition RegisterDevice (device : Device) : GoM DevDB unit :=
  r ← attempt (GetDeviceByID (d_ID device));
  match r with
  | inl _ =>
      UpdateDevice (d_ID device) [D_name (d_Name device); D_device_type (d_DeviceType device); D_os (d_OS device);
                                  D_sync_folder (d_SyncFolder device); D_is_active true]
  | inr _ =>
      let '(mkDevice id us nm ty os fo sy _ me _ cr up) := device in
      CreateDevice (mkDevice id us nm ty os fo sy (Some NewVectorClock) me true cr up)
  end.
End Engine.

(** ** Lemmas *)

(** *** Computations that only read the tables *)

(** With a driver that accepts every call: the tables stay as they are, and the
    computation neither panics nor runs out of its bound. *)
Definition reads {A} (m : GoM DB A) : Prop := forall d, quiet d -> exists r, m d = (r, d) /\ settles r.

Lemma reads_ret {A} (a : A) : reads (mret a).
Proof. intros d _. by exists (Ok a). Qed.

Lemma reads_fail {A} e : reads (@fail DB A e).
Proof. intros d _. by exists (Err e). Qed.

Lemma reads_scan {A} a b (q : DB -> option A) : reads (scan_row a b q).
Proof. intros d Hd. rewrite scan_row_quiet by done. destruct (q d); eexists; by split. Qed.

Lemma reads_query {A} (q : DB -> A) : reads (sql_query q).
Proof. intros d Hd. rewrite query_quiet by done. eexists; by split. Qed.

Lemma reads_wrap {A} msg (m : GoM DB A) : reads m -> reads (wrap msg m).
Proof. intros Hm d Hd. destruct (Hm d Hd) as (r & E & Hr). unfold wrap. rewrite E. destruct r; eexists; by split. Qed.

Lemma reads_instead {A} e (m : GoM DB A) : reads m -> reads (instead e m).
Proof. intros Hm d Hd. destruct (Hm d Hd) as (r & E & Hr). unfold instead. rewrite E. destruct r; eexists; by split. Qed.

Lemma reads_bind {A B} (m : GoM DB A) (k : A -> GoM DB B) : reads m -> (forall a, reads (k a)) -> reads (m ≫= k).
Proof.
  intros Hm Hk d Hd. destruct (Hm d Hd) as (r & E & Hr). unfold mbind, GoM_bind. rewrite E.
  destruct r; try done; [by apply Hk|eexists; by split].
Qed.

#[export] Hint Resolve reads_ret reads_fail reads_scan reads_query reads_wrap reads_instead reads_bind : reads.

Lemma reads_GetFileByPath u p n : reads (GetFileByPath u p n).
Proof. apply reads_scan. Qed.

Lemma reads_resolve_segments u l p : reads (resolve_segments u p l).
Proof.
  revert p. induction l as [|s l IH]; intros p; simpl; [apply reads_ret|]. destruct (bool_decide _); [done|].
  apply reads_bind; [apply reads_wrap, reads_GetFileByPath|done].
Qed.

Lemma reads_resolveParentID u dir : reads (resolveParentID u dir).
Proof. unfold resolveParentID. destruct (_ || _); [apply reads_ret|apply reads_resolve_segments]. Qed.

#[export] Hint Resolve reads_GetFileByPath reads_resolveParentID : reads.

Lemma reads_resolveFileByPath u p : reads (resolveFileByPath u p).
Proof. unfold resolveFileByPath. eauto with reads. Qed.

Lemma reads_collect u p : reads (collectChunkHashesForPath u p).
Proof. unfold collectChunkHashesForPath, GetLatestManifest. eauto 8 with reads. Qed.

(** The chunks of the latest version of the file at a path. *)
Definition path_chunks (d : DB) (u p : string) : option (list string) :=
  match (collectChunkHashesForPath u p d).1 with Ok l => Some l | _ => None end.

(** *** The loops over chunks *)

Section Find.
Context `{HashFn} {S : Type} `{Backend S}.
Context (u : string) (want : bool) (w0 : World S).
#[local] Notation d0 := (base (w_db w0)).

(** [seen] holds the hashes met so far, [found] those whose presence is as wanted. *)
Definition found_ok (acc : gset string * list string) (w : World S) : Prop :=
  let '(seen, found) := acc in
  w_db w = w_db w0 /\ store_ok (w_store w) /\ healthy (w_store w) /\
  (forall k, valid_key k -> blob_at (w_store w) k = blob_at (w_store w0) k) /\ NoDup found /\
  forall h, h ∈ found <-> h ∈ seen /\ bool_decide (is_Some (blob_at (w_store w0) h)) = want.

Lemma check_hash_step seen found h w : valid_key h -> found_ok (seen, found) w ->
  exists found' w', check_hash want (seen, found) h w = (Ok ({[h]} ∪ seen, found'), w') /\
    found_ok ({[h]} ∪ seen, found') w'.
Proof.
  intros Hv (Hd & Hok & Hh & Hb & Hn & Hf). unfold check_hash. case_bool_decide as Hs.
  { exists found, w. replace ({[h]} ∪ seen) with seen by set_solver. split; [done|]. by split_and!. }
  destruct (exists_healthy h (w_store w) Hv Hh) as (b & s' & E & Hh').
  pose proof (exists_law h (w_store w) Hv Hok) as Hl. rewrite E in Hl. destruct Hl as (Hok' & -> & Hb').
  rewrite (Hb h Hv) in E. set (b := bool_decide _) in *.
  unfold mbind, GoM_bind, attempt, on_blobs. rewrite E. eexists _, _. split; [done|]. simpl. split_and!; [done..| | |].
  - intros k Hk. by rewrite Hb', Hb.
  - destruct (Bool.eqb b want) eqn:Eb; [|done]. apply NoDup_app. split_and!; [done| |apply NoDup_singleton].
    intros x Hx. rewrite list_elem_of_singleton. intros ->. apply Hf in Hx. tauto.
  - intros x. destruct (Bool.eqb b want) eqn:Eb.
    + apply Bool.eqb_prop in Eb. rewrite elem_of_app, list_elem_of_singleton, Hf, elem_of_union, elem_of_singleton.
      split; [intros [[]| ->]; eauto|]. intros [[->|] ?]; eauto.
    + apply Bool.eqb_false_iff in Eb. rewrite Hf, elem_of_union, elem_of_singleton. split; [tauto|].
      intros [[->|] E']; [by destruct Eb|done].
Qed.

Lemma check_hashes l acc w : Forall valid_key l -> found_ok acc w ->
  exists found' w', foldG (check_hash want) acc l w = (Ok (list_to_set l ∪ acc.1, found'), w') /\
    found_ok (list_to_set l ∪ acc.1, found') w'.
Proof.
  revert acc w. induction l as [|h l IH]; intros [seen found] w Hl Hw; simpl.
  { exists found, w. replace (∅ ∪ seen) with seen by set_solver. done. }
  apply Forall_cons in Hl as [Hh Hl]. destruct (check_hash_step seen found h w Hh Hw) as (f1 & w1 & E1 & H1).
  rewrite (bind_ok _ _ _ _ _ E1). destruct (IH (_, f1) w1 Hl H1) as (f2 & w2 & E2 & H2). simpl in *.
  exists f2, w2. replace ({[h]} ∪ list_to_set l ∪ seen) with (list_to_set l ∪ ({[h]} ∪ seen)) by set_solver. done.
Qed.

(** The hashes of the files at the paths that can be resolved. *)
Definition paths_chunks (paths : list string) : gset string :=
  ⋃ ((fun p => list_to_set (default [] (path_chunks d0 u p))) <$> paths).

Lemma check_paths paths acc w : quiet d0 -> (forall p l, path_chunks d0 u p = Some l -> Forall valid_key l) -> found_ok acc w ->
  exists found' w', foldG (check_path want u) acc paths w = (Ok (paths_chunks paths ∪ acc.1, found'), w') /\
    found_ok (paths_chunks paths ∪ acc.1, found') w'.
Proof.
  intros Hq Hv. revert acc w. induction paths as [|p paths IH]; intros [seen found] w Hw.
  { exists found, w. unfold paths_chunks. simpl. replace (∅ ∪ seen) with seen by set_solver. done. }
  assert (exists found1 w1, check_path want u (seen, found) p w =
            (Ok (list_to_set (default [] (path_chunks d0 u p)) ∪ seen, found1), w1) /\
            found_ok (list_to_set (default [] (path_chunks d0 u p)) ∪ seen, found1) w1) as (f1 & w1 & E1 & H1).
  { destruct Hw as (Hd & Hw). unfold check_path. destruct (reads_collect u p d0 Hq) as (r & E & Hr).
    specialize (Hv p). unfold path_chunks in *. rewrite E in *. simpl in *.
    assert (on_files (collectChunkHashesForPath u p) w = (r, w)) as E1.
    { unfold on_files, on_dev, on_base. rewrite Hd, E, ext_eta, <-Hd. by destruct w. }
    unfold mbind, GoM_bind, attempt. rewrite E1. destruct r as [l|e| |]; try done; simpl.
    - apply (check_hashes l (seen, found) w); [by apply Hv|done].
    - exists found, w. replace (∅ ∪ seen) with seen by set_solver. done. }
  simpl. rewrite (bind_ok _ _ _ _ _ E1). destruct (IH (_, f1) w1 H1) as (f2 & w2 & E2 & H2). simpl in *.
  exists f2, w2. unfold paths_chunks in *. simpl.
  set (X := list_to_set (default [] (path_chunks d0 u p)) : gset string) in *.
  set (Y := ⋃ _ : gset string) in *. by replace (X ∪ Y ∪ seen) with (Y ∪ (X ∪ seen)) by set_solver.
Qed.
End Find.

(** The chunks of a path are those of a manifest. *)
Lemma path_chunks_manifest d u p l : quiet d -> path_chunks d u p = Some l ->
  exists k m, db_manifests d !! k = Some m /\ m_Chunks m = l.
Proof.
  intros Hq. unfold path_chunks. destruct (collectChunkHashesForPath u p d) as [[l'|e|s|] d'] eqn:E; try done.
  intros [= ->]. unfold collectChunkHashesForPath in E.
  apply bind_ok_inv in E as (parent & d1 & E1 & E). apply bind_ok_inv in E as (f & d2 & E2 & E).
  apply bind_ok_inv in E as (m & d3 & E3 & E). injection E as <- <-.
  assert (d1 = d) as ->.
  { destruct (reads_wrap ("resolve parent for " +:+ p) _ (reads_resolveParentID u (path_Dir p)) d Hq) as (? & E' & _). rewrite E1 in E'. by simplify_eq. }
  assert (d2 = d) as ->.
  { destruct (reads_instead (Errorf ("file not found: " +:+ p)) _ (reads_GetFileByPath u parent (path_Base p)) d Hq) as (? & E' & _).
    rewrite E2 in E'. by simplify_eq. }
  unfold GetLatestManifest, wrap in E3. rewrite scan_row_quiet in E3 by done.
  destruct (head (versions_of (f_ID f) d)) as [m'|] eqn:Em; [|done]. injection E3 as -> <-. unfold versions_of in Em.
  destruct (merge_sort _ _) as [|m' l] eqn:Es; [done|]. injection Em as ->.
  assert (m ∈ merge_sort version_order (filter (fun m => m_FileID m = f_ID f) (rows (db_manifests d)))) as Hin
    by (rewrite Es; by left).
  rewrite (merge_sort_Permutation version_order) in Hin. apply list_elem_of_filter in Hin as [_ Hin].
  apply elem_of_table in Hin as [k Hk]. eauto.
Qed.

(** *** Changes neither panic nor break the tables *)

Lemma generateSyncID_safe p : safe (generateSyncID p).
Proof. intros d. unfold generateSyncID. by destruct (rand_read 8 (db_rand d)) as [[]]. Qed.
Lemma generateSyncID_preserves p : preserves tables_ok (generateSyncID p).
Proof. intros d Hd. unfold generateSyncID. by destruct (rand_read 8 (db_rand d)) as [[]]. Qed.
Lemma resolve_segments_safe u l p : safe (resolve_segments u p l).
Proof. revert p. induction l as [|s l IH]; intros p; simpl; unfold GetFileByPath; safety. Qed.
Lemma resolve_segments_preserves u l p : preserves tables_ok (resolve_segments u p l).
Proof. revert p. induction l as [|s l IH]; intros p; simpl; unfold GetFileByPath; preserve. Qed.

#[export] Hint Resolve generateSyncID_safe resolve_segments_safe : safe.
#[export] Hint Resolve generateSyncID_preserves resolve_segments_preserves : preserves.

Lemma sql_exec_preserves x : (forall d n d', tables_ok d -> x d = inr (n, d') -> tables_ok d') ->
  preserves tables_ok (sql_exec x).
Proof.
  intros Hx. apply preserves_hoare, sql_exec_hoare; [done|]. exact Hx.
Qed.

Lemma ensure_ref_preserves ty h : preserves tables_ok (ensure_ref ty h).
Proof.
  unfold ensure_ref, ChunkExists, IncrementRefCount, CreateChunk, affected. preserve; apply sql_exec_preserves.
  - intros d n d' Hd E. unfold bump_chunk in E. by repeat case_match; simplify_eq.
  - intros d n d' Hd E. unfold insert_chunk in E. by repeat case_match; simplify_eq.
Qed.
Lemma CreateManifest_preserves m : preserves tables_ok (CreateManifest m).
Proof. unfold CreateManifest. preserve. apply sql_exec_preserves. apply insert_manifest_tables. Qed.

#[export] Hint Resolve ensure_ref_preserves CreateManifest_preserves : preserves.

Lemma applyChange_safe ty u c : safe (applyChange ty u c).
Proof.
  unfold applyChange, applyAdd, applyModify, applyDelete, resolveFileByPath, resolveParentID, ensureChunkRefs, ensure_ref,
    GetFileByPath. safety.
Qed.
Lemma applyChange_preserves ty u c : preserves tables_ok (applyChange ty u c).
Proof.
  unfold applyChange, applyAdd, applyModify, applyDelete, resolveFileByPath, resolveParentID, ensureChunkRefs,
    GetFileByPath. preserve.
Qed.

Lemma changes_applied ty u changes acc d :
  exists acc' d', foldG (commit_step ty u) acc changes d = (Ok acc', d') /\ acc'.1 = acc.1 /\ (tables_ok d -> tables_ok d').
Proof.
  revert acc d. induction changes as [|c changes IH]; intros [cs n] d; simpl; [eauto|].
  assert (exists acc1 d1, commit_step ty u (cs, n) c d = (Ok acc1, d1) /\ acc1.1 = cs /\ (tables_ok d -> tables_ok d1))
    as (acc1 & d1 & E1 & <- & H1).
  { unfold commit_step, detectConflict. replace (if bool_decide (fc_Action c = "add"%string) then None else None)
      with (@None ConflictInfo) by by case_bool_decide. simpl.
    pose proof (applyChange_safe ty u c d) as Hs. pose proof (applyChange_preserves ty u c d) as Hp.
    unfold attempt, mbind, GoM_bind. destruct (applyChange ty u c d) as [[] d']; try done; eauto. }
  rewrite (bind_ok _ _ _ _ _ E1). destruct (IH acc1 d1) as (acc2 & d2 & E2 & <- & H2). eauto 8.
Qed.

(** *** The listing of the server's files *)

Section Listing.
Context `{HashFn}.

(** What a walk returns when the driver accepts every call: it only appends, and
    the first entry of the directory comes first, below the prefix. *)
Definition walked (prefix : string) (entries : list File) (result : list FileInfo) (d : DB)
    (o : Res (list FileInfo) * DB) : Prop :=
  o = (OutOfFuel, d) \/
  exists t, o = (Ok (result ++ t), d) /\
    (entries <> [] -> exists fi, fi ∈ t /\ exists name, fi_Path fi = (prefix +:+ name)%string).

Definition listing (u : string) (p : option string) (d : DB) : list File :=
  page 10000 0 (merge_sort dir_order (filter (in_directory u (parent_key p)) (rows (db_files d)))).

Lemma walkDir_walked fuel u p prefix result d : quiet d ->
  walked prefix (listing u p d) result d (walkDir fuel u p prefix result d).
Proof.
  intros Hq. revert p prefix result. induction fuel as [|fuel IH]; intros p prefix result; [by left|].
  cbn [walkDir]. rewrite (bind_ok _ _ d (listing u p d) d).
  2:{ unfold ListDirectory, wrap. by rewrite query_quiet. }
  generalize (listing u p d) as entries. intros entries. revert result.
  induction entries as [|e entries IHe]; intros result; cbn -[mbind].
  { right. exists []. rewrite app_nil_r. by split. }
  destruct (bool_decide _).
  - set (fi := mkFile _ false _ _ _). destruct (IH (Some (f_ID e)) ((prefix +:+ f_Name e) +:+ "/")%string (result ++ [fi])) as [E|(t & E & _)].
    { left. unfold mbind, GoM_bind. by rewrite E. }
    rewrite (bind_ok _ _ _ _ _ E). destruct (IHe ((result ++ [fi]) ++ t)) as [E'|(t' & E' & _)]; [by left|right].
    exists (fi :: t ++ t'). rewrite E'. split; [by rewrite <-!app_assoc|]. intros _. exists fi. split; [by left|by eexists].
  - set (fi := mkFile _ true _ _ _). destruct (IHe (result ++ [fi])) as [E'|(t' & E' & _)]; [by left|right].
    exists (fi :: t'). rewrite E'. split; [by rewrite <-!app_assoc|]. intros _. exists fi. split; [by left|by eexists].
Qed.

Lemma listing_nonempty u d f : f ∈ rows (db_files d) -> in_directory u None f -> listing u None d <> [].
Proof.
  intros Hin Hf. unfold listing, page. simpl.
  destruct (merge_sort _ _) as [|g l] eqn:E; [|by rewrite drop_0].
  assert (f ∈ merge_sort dir_order (filter (in_directory u None) (rows (db_files d)))) as Hm.
  { rewrite (merge_sort_Permutation dir_order). by apply list_elem_of_filter. }
  simpl in Hm. rewrite E in Hm. by apply not_elem_of_nil in Hm.
Qed.

(** A user with an entry at the root: no tree is built of the listing. *)
Lemma no_tree fuel fuel' u d f : quiet d -> f ∈ rows (db_files d) -> in_directory u None f ->
  ListAllFiles fuel u d = (OutOfFuel, d) \/
  exists l, ListAllFiles fuel u d = (Ok l, d) /\ Build fuel' l = OutOfFuel.
Proof.
  intros Hq Hin Hf. unfold ListAllFiles, wrap.
  destruct (walkDir_walked fuel u None "/" [] d Hq) as [E|(t & E & Ht)]; rewrite E; [by left|right].
  exists t. split; [done|]. destruct (Ht (listing_nonempty _ _ _ Hin Hf)) as (fi & Hfi & name & Hp).
  apply Build_diverges with fi; [done|]. rewrite Hp. rewrite str_app_cons, HasPrefix_slash. reflexivity.
Qed.

(** Without entries at the root the listing is empty. *)
Lemma listing_empty fuel u d : quiet d -> (forall f, f ∈ rows (db_files d) -> ~ in_directory u None f) ->
  ListAllFiles (S fuel) u d = (Ok [], d).
Proof.
  intros Hq Hn. assert (listing u None d = []) as El.
  { unfold listing. simpl. rewrite filter_none; [done|]. apply Forall_forall. exact Hn. }
  unfold ListAllFiles, wrap. cbn [walkDir]. rewrite (bind_ok _ _ d [] d); [done|].
  unfold ListDirectory, wrap. rewrite query_quiet by done. by rewrite <-El.
Qed.
End Listing.

(** *** Devices are untouched by statements on other tables *)

Lemma UpdateDevice_clock id vc w : still w ->
  updateDeviceState id vc w =
  (Ok tt, match t_devices (tab w) !! id with
          | None => w
          | Some d => with_devices (<[id := touch_device (db_now (base w))
              (apply_device (D_last_sync_at (db_now (base w))) (apply_device (D_vector_clock vc) d))]> (t_devices (tab w))) w
          end).
Proof.
  intros Hw. unfold updateDeviceState, ignore, attempt, UpdateDevice, mbind, GoM_bind. simpl.
  unfold wrap. rewrite tab_exec_still by done. unfold update_device. by destruct (t_devices (tab w) !! id).
Qed.

(** ** Theorems *)

Section Theorems.
Context `{HashFn} {S : Type} `{Backend S}.

(** [C6] The chunk lists of a negotiation are exact: without duplicates, the
    needed chunks are those of the given paths that the store lacks and the
    available ones those that it holds, where the chunks of a path are those of
    the latest version that the server itself has of the file.  So while every
    digest of a manifest has its content in the store, a negotiation never asks a
    client for a chunk, whatever the client has modified. *)
Theorem find_chunks_exact u paths modified (w : World S) :
  quiet (base (w_db w)) -> store_ok (w_store w) -> healthy (w_store w) ->
  (forall p l, path_chunks (base (w_db w)) u p = Some l -> Forall valid_key l) ->
  let held h := is_Some (blob_at (w_store w) h) in
  let listed paths h := exists p l, p ∈ paths /\ path_chunks (base (w_db w)) u p = Some l /\ h ∈ l in
  (exists needed w', findNeededChunks u paths w = (Ok needed, w') /\ w_db w' = w_db w /\ NoDup needed /\
     (forall h, h ∈ needed <-> listed paths h /\ ~ held h) /\
     ((forall k m h, db_manifests (base (w_db w)) !! k = Some m -> h ∈ m_Chunks m -> held h) -> needed = [])) /\
  (exists available w', findAvailableChunks u paths modified w = (Ok available, w') /\ w_db w' = w_db w /\ NoDup available /\
     (forall h, h ∈ available <-> listed (paths ++ modified) h /\ held h)).
Proof.
  intros Hq Hok Hh Hv held listed.
  assert (forall want, found_ok want w (∅, []) w) as Hinit.
  { intros want. split_and!; try done; [apply NoDup_nil_2|]. intros h. rewrite elem_of_nil. set_solver. }
  assert (forall ps h, h ∈ paths_chunks u w ps <-> listed ps h) as Hl.
  { intros ps h. unfold paths_chunks, listed. rewrite elem_of_union_list. split.
    - intros (X & HX & Hx). apply list_elem_of_fmap in HX as (p & -> & Hp). apply elem_of_list_to_set in Hx.
      destruct (path_chunks _ u p) as [l|] eqn:E; [|by apply not_elem_of_nil in Hx]. by exists p, l.
    - intros (p & l & Hp & E & Hx). exists (list_to_set l). split; [|by apply elem_of_list_to_set].
      apply list_elem_of_fmap. exists p. by rewrite E. }
  split.
  - destruct (check_paths u false w paths (∅, []) w Hq Hv (Hinit false)) as (f & w' & E & Hd & _ & _ & _ & Hn & Hf).
    assert (forall h, h ∈ f <-> listed paths h /\ ~ held h) as Hf'.
    { intros h. rewrite Hf. simpl. rewrite union_empty_r_L, Hl, bool_decide_eq_false. done. }
    exists f, w'. unfold findNeededChunks. rewrite (bind_ok _ _ _ _ _ E). split_and!; try done. intros Hall.
    destruct f as [|h f]; [done|]. destruct (proj1 (Hf' h)) as [(p & l & _ & Hp & Hx) Hno]; [by left|].
    destruct Hno. apply path_chunks_manifest in Hp as (k & m & Hk & <-); [|done]. by eapply Hall.
  - destruct (check_paths u true w (paths ++ modified) (∅, []) w Hq Hv (Hinit true)) as (f & w' & E & Hd & _ & _ & _ & Hn & Hf).
    exists f, w'. unfold findAvailableChunks. rewrite (bind_ok _ _ _ _ _ E). split_and!; try done.
    intros h. rewrite Hf. simpl. rewrite union_empty_r_L, Hl, bool_decide_eq_true. done.
Qed.

(** [Fact] A commit keeps the constraints of the tables under every failure of the
    driver and never reports a conflict; but it replies only to users without
    files.  Without a path resolver (the server never sets one) the call panics
    once every change has been applied and the device has been updated; with one,
    if the driver accepts every call and the user has an entry at the root after
    the changes, the tree is never built; a nil clock of the request panics after
    everything.  Otherwise the commit is confirmed, with an empty root. *)
Theorem Commit_outcome ty fuel u req (w : World S) :
  exists applied (w1 : World S),
    (acc ← on_files (foldG (commit_step ty u) ([], 0) (cr_Changes req));
     on_dev (updateDeviceState (cr_DeviceID req) (cr_VectorClock req));; mret acc.2) w = (Ok applied, w1) /\
    (tables_ok (base (w_db w)) -> tables_ok (base (w_db w1))) /\
    Commit false ty fuel u req w = (Panic "invalid memory address or nil pointer dereference", w1) /\
    (quiet (base (w_db w1)) ->
     ((exists f, f ∈ rows (db_files (base (w_db w1))) /\ in_directory u None f) ->
        Commit true ty fuel u req w = (OutOfFuel, w1)) /\
     ((forall f, f ∈ rows (db_files (base (w_db w1))) -> ~ in_directory u None f) -> fuel <> 0%nat ->
          Commit true ty fuel u req w =
          (match cr_VectorClock req with
           | None => Panic "assignment to entry in nil map"
           | Some m => Ok (mkCommitResp "committed" "" (Some (<[cr_DeviceID req := u64 (VectorClock.Get (Some m) (cr_DeviceID req) + 1)]> m)) [] applied)
           end, w1))).
Proof.
  destruct (changes_applied ty u (cr_Changes req) ([], 0) (base (w_db w))) as ([cs n] & d1 & E & Hcs & Ht). simpl in Hcs. subst cs.
  assert (on_files (foldG (commit_step ty u) ([], 0) (cr_Changes req)) w = (Ok ([], n), mkWorld (mkExt d1 (tab (w_db w))) (w_store w))) as E1.
  { unfold on_files, on_dev, on_base. by rewrite E. }
  destruct (updateDeviceState (cr_DeviceID req) (cr_VectorClock req) (mkExt d1 (tab (w_db w)))) as [r e2] eqn:E2.
  assert (r = Ok tt /\ (tables_ok d1 -> tables_ok (base e2))) as [-> Ht2].
  { unfold updateDeviceState, ignore, attempt, UpdateDevice, tab_affected, wrap, tab_exec, tab_now, mbind, GoM_bind in E2.
    simpl in E2. destruct (next_fault _) as [[] l]; [injection E2 as <- <-; split; [done|intros Hd; exact Hd]|].
    unfold update_device in E2. simpl in E2.
    destruct (t_devices _ !! _); injection E2 as <- <-; (split; [done|intros Hd; exact Hd]). }
  set (w1 := mkWorld e2 (w_store w)).
  assert (on_dev (updateDeviceState (cr_DeviceID req) (cr_VectorClock req)) (mkWorld (mkExt d1 (tab (w_db w))) (w_store w)) = (Ok tt, w1)) as E3.
  { unfold on_dev. simpl. by rewrite E2. }
  exists n, w1. split; [by rewrite (bind_ok _ _ _ _ _ E1), (bind_ok _ _ _ _ _ E3)|]. split; [by eauto|].
  assert (forall v, Commit v ty fuel u req w = (serverFiles ← wrap "failed to rebuild tree" (vfs_ListAllFiles v fuel u);
     newRoot ← lift (Build fuel serverFiles);
     clock ← lift (Increment (cr_VectorClock req) (cr_DeviceID req));
     mret (mkCommitResp "committed" (root_hash newRoot) clock [] n)) w1) as EC.
  { intros v. unfold Commit. by rewrite (bind_ok _ _ _ _ _ E1), (bind_ok _ _ _ _ _ E3). }
  split; [by rewrite EC|]. intros Hq.
  assert (forall r, ListAllFiles fuel u (base e2) = (r, base e2) -> vfs_ListAllFiles true fuel u w1 = (r, w1)) as Hv.
  { intros r Er. unfold vfs_ListAllFiles, on_files, on_dev, on_base. simpl. rewrite Er. by rewrite ext_eta. }
  split.
  - intros (f & Hin & Hf). destruct (no_tree fuel fuel u (base e2) f Hq Hin Hf) as [El|(l & El & Hb)];
      rewrite EC; unfold wrap, mbind, GoM_bind; rewrite (Hv _ El); [done|]. unfold lift. by rewrite Hb.
  - intros Hd Hfuel. destruct fuel as [|fuel]; [done|].
    assert (ListAllFiles (Datatypes.S fuel) u (base e2) = (Ok [], base e2)) as El.
    { by apply listing_empty. }
    rewrite EC. unfold wrap, mbind, GoM_bind. rewrite (Hv _ El). simpl.
    unfold Increment, set_entry. by destruct (cr_VectorClock req).
Qed.
End Theorems.

(** ** Witnesses *)

Section Witnesses.
#[local] Existing Instance toy_hash.

Lemma sync_root_good : Forall good_elem ["data"%string].
Proof. apply (bool_decide_unpack _). vm_compute. exact I. Qed.

#[local] Instance sync_backend : Backend FS := Local_Backend ["data"%string] sync_root_good.

(** A user with one file of two chunks, of which the store holds one. *)
Definition sync_file : File := mkFileRow "f" "u" None "a.txt" "file" 5 "text/plain" (Some "m"%string) None false [] false None 1 10 10.
Definition sync_manifest : Manifest := mkManifestRow "m" "f" 1 5 2 ["aa0"%string; "bb0"%string] "" "server" 10.
Definition sync_world : World FS :=
  mkWorld (mkExt (mkDB {["u"%string]} {["f"%string := sync_file]} {["m"%string := sync_manifest]} ∅ 100
                    (mkRand (fun _ => x00) 0 []) [] true) (mkDevTables ∅ ∅))
    (mkFS {["/data/chunks/aa/0.chunk"%string := [x61]]} ∅ []).

Lemma find_chunks_witness :
  (findNeededChunks "u" ["/a.txt"%string] sync_world).1 = Ok ["bb0"%string] /\
  (findAvailableChunks "u" ["/a.txt"%string] [] sync_world).1 = Ok ["aa0"%string] /\
  exists needed w', findNeededChunks "u" ["/a.txt"%string] sync_world = (Ok needed, w') /\ NoDup needed.
Proof.
  split; [vm_compute; reflexivity|]. split; [vm_compute; reflexivity|].
  edestruct (find_chunks_exact "u" ["/a.txt"%string] [] sync_world) as [(needed & w' & E & _ & Hn & _) _].
  - reflexivity.
  - intros k Hk. apply not_elem_of_empty.
  - reflexivity.
  - intros p l Hl. apply path_chunks_manifest in Hl as (k & m & Hm & <-); [|reflexivity].
    simpl in Hm. apply lookup_singleton_Some in Hm as [_ <-].
    repeat apply Forall_cons_2; [split_and!; [reflexivity|simpl; lia|discriminate]..|apply Forall_nil_2].
  - eauto.
Defined.

Definition sync_change : FileChange := mkChange "/b.txt" "add" 1 "text/plain" ["cc0"%string] "" (Some ∅).

Lemma Commit_witness :
  exists w1, Commit false "local" 5 "u" (mkCommitReq "dev" (Some ∅) [sync_change]) sync_world =
    (Panic "invalid memory address or nil pointer dereference", w1) /\ tables_ok (base (w_db w1)).
Proof.
  destruct (Commit_outcome "local" 5 "u" (mkCommitReq "dev" (Some ∅) [sync_change]) sync_world) as (n & w1 & _ & Ht & E & _).
  exists w1. split; [exact E|]. apply Ht, tables_okb_ok. vm_compute. reflexivity.
Defined.
End Witnesses.
