(* ===== verification/SyncHandlers.v ===== *)
(** * The synchronisation endpoints (internal/server/handlers_sync.go)

    A handler takes the authenticated user and the decoded request; [None] is a
    body that does not decode. *)

From S2P Require Import Prelude GoStrings GoCrypto Chunker VectorClock Merkle Storage Database Vfs Server Upload Devices SyncEngine.

Record DeviceRequest := mkDevReq {
  dr_DeviceID : string; dr_Name : string; dr_DeviceType : string; dr_OS : string; dr_SyncFolder : string
}.

(** One device of the session listing. *)
Record deviceSyncInfo := mkInfo { di_DeviceID : string; di_DeviceName : string; di_States : list SyncState }.

Inductive sync_reply :=
  | Y_registered (device_id : string)
  | Y_devices (devices : list Device)
  | Y_removed
  | Y_negotiated (resp : NegotiateResponse)
  | Y_stored (hash : string)
  | Y_chunk (hash : string) (data : bytes)
  | Y_committed (status : Z) (resp : CommitResponse)
  | Y_ready (user_id : string)
  | Y_status (status : SyncStatus)
  | Y_sessions (sessions : list deviceSyncInfo).

(** The multipart form of a push: whether it parses, the field [hash], and the
    content of the part [chunk], which may be missing or unreadable. *)
Record PushForm := mkPush { pf_hash : string; pf_chunk : option (Res bytes) }.

Definition nonempty (s : string) : bool := negb (bool_decide (s = ""%string)).

Definition decoded {W A} (req : option A) : GoM W A :=
  match req with Some q => mret q | None => fail (ErrHTTP 400 "Invalid request body") end.

Section Handlers.
Context `{HashFn} {S : Type} `{Backend S}.
Context (has_vfs : bool) (storageType : string) (fuel : nat).

Definition registerDevice (userID : string) (req : option DeviceRequest) : GoM (World S) sync_reply :=
  require (nonempty userID) 401 "Unauthorized";;
  req ← decoded req;
  require (nonempty (dr_DeviceID req) && nonempty (dr_Name req)) 400 "device_id and name are required";;
  let device := mkDevice (dr_DeviceID req) userID (dr_Name req) (dr_DeviceType req) (dr_OS req) (dr_SyncFolder req)
                  None None None false zero_time zero_time in
  instead (ErrHTTP 500 "Failed to register device") (on_dev (RegisterDevice device));;
  mret (Y_registered (d_ID device)).

Definition listDevices (userID : string) : GoM (World S) sync_reply :=
  require (nonempty userID) 401 "Unauthorized";;
  devices ← instead (ErrHTTP 500 "Failed to list devices") (on_dev (GetDevicesByUser userID));
  mret (Y_devices devices).

Definition removeDevice (userID deviceID : string) : GoM (World S) sync_reply :=
  require (nonempty userID) 401 "Unauthorized";;
  require (nonempty deviceID) 400 "Device ID required";;
  device ← instead (ErrHTTP 404 "Device not found") (on_dev (GetDeviceByID deviceID));
  require (bool_decide (d_UserID device = userID)) 404 "Device not found";;
  instead (ErrHTTP 500 "Failed to remove device") (on_dev (DeleteDevice deviceID));;
  mret Y_removed.

Definition verifyDeviceOwnership (userID deviceID : string) : GoM DevDB unit :=
  device ← instead (Errorf "device not owned by user") (GetDeviceByID deviceID);
  if bool_decide (d_UserID device = userID) then mret tt else fail (Errorf "device not owned by user").

Definition negotiate (userID : string) (req : option NegotiateRequest) : GoM (World S) sync_reply :=
  require (nonempty userID) 401 "Unauthorized";;
  req ← decoded req;
  require (nonempty (nr_DeviceID req)) 400 "device_id is required";;
  instead (ErrHTTP 403 "Access denied") (on_dev (verifyDeviceOwnership userID (nr_DeviceID req)));;
  resp ← instead (ErrHTTP 500 "Negotiation failed") (Negotiate has_vfs fuel userID req);
  mret (Y_negotiated resp).

Definition push (userID : string) (form : option PushForm) : GoM (World S) sync_reply :=
  require (nonempty userID) 401 "Unauthorized";;
  form ← match form with Some f => mret f | None => fail (ErrHTTP 400 "Failed to parse upload") end;
  let hash := pf_hash form in
  require (nonempty hash) 400 "Chunk hash required";;
  file ← match pf_chunk form with Some f => mret f | None => fail (ErrHTTP 400 "Chunk data required") end;
  data ← instead (ErrHTTP 500 "Failed to read chunk data") (lift file);
  let computedHash := sha256_hex data in
  require (bool_decide (computedHash = hash)) 400 "Chunk hash mismatch";;
  instead (ErrHTTP 500 "Failed to store chunk") (on_blobs (Put hash data));;
  mret (Y_stored hash).

Definition pullChunk (userID hash : string) : GoM (World S) sync_reply :=
  require (nonempty userID) 401 "Unauthorized";;
  require (nonempty hash) 400 "Chunk hash required";;
  owns ← instead (ErrHTTP 500 "Internal server error") (on_files (UserOwnsChunk userID hash));
  require owns 403 "Access denied";;
  data ← instead (ErrHTTP 404 "Chunk not found") (on_blobs (Get hash));
  mret (Y_chunk hash data).

Definition commit (userID : string) (req : option CommitRequest) : GoM (World S) sync_reply :=
  require (nonempty userID) 401 "Unauthorized";;
  req ← decoded req;
  require (nonempty (cr_DeviceID req)) 400 "device_id is required";;
  instead (ErrHTTP 403 "Access denied") (on_dev (verifyDeviceOwnership userID (cr_DeviceID req)));;
  resp ← instead (ErrHTTP 500 "Commit failed") (Commit has_vfs storageType fuel userID req);
  let status := if bool_decide (cs_Status resp = "partial"%string) then 409 else 200 in
  mret (Y_committed status resp).

Definition getStatus (userID deviceID : string) : GoM (World S) sync_reply :=
  require (nonempty userID) 401 "Unauthorized";;
  if bool_decide (deviceID = ""%string) then mret (Y_ready userID)
  else
    instead (ErrHTTP 404 "Device not found") (on_dev (verifyDeviceOwnership userID deviceID));;
    status ← instead (ErrHTTP 404 "Device not found") (on_dev (GetStatus deviceID));
    mret (Y_status status).

Definition listSessions (userID : string) : GoM (World S) sync_reply :=
  require (nonempty userID) 401 "Unauthorized";;
  devices ← instead (ErrHTTP 500 "Failed to list sessions") (on_dev (GetDevicesByUser userID));
  sessions ← foldG (fun sessions d =>
    r ← attempt (on_dev (GetSyncStatesByDevice (d_ID d)));
    let states := match r with inl states => states | inr _ => [] end in
    mret (sessions ++ [mkInfo (d_ID d) (d_Name d) states])) [] devices;
  mret (Y_sessions sessions).
End Handlers.

(** ** Lemmas *)

Lemma require_true {W A} b code msg (k : unit -> GoM W A) w : b = true -> (require b code msg ≫= k) w = k tt w.
Proof. by intros ->. Qed.

Lemma require_false {W A} b code msg (k : unit -> GoM W A) w : b = false -> (require b code msg ≫= k) w = (Err (ErrHTTP code msg), w).
Proof. by intros ->. Qed.

Lemma nonempty_true s : s <> ""%string -> nonempty s = true.
Proof. intros Hs. unfold nonempty. by rewrite bool_decide_false. Qed.

(** A version of a file of the user lists the chunk. *)
Definition owns_chunk (d : DB) (u h : string) : Prop :=
  exists k m f, db_manifests d !! k = Some m /\ db_files d !! m_FileID m = Some f /\ f_UserID f = u /\ h ∈ m_Chunks m.

Lemma UserOwnsChunk_quiet d u h : quiet d ->
  exists b, UserOwnsChunk u h d = (Ok b, d) /\ (b = true <-> owns_chunk d u h).
Proof.
  intros Hq. unfold UserOwnsChunk, wrap. rewrite query_quiet by done. eexists. split; [done|].
  rewrite existsb_exists. unfold owns_chunk. split.
  - intros (m & Hin & Hm). apply list_elem_of_In, elem_of_table in Hin as [k Hk].
    destruct (db_files d !! m_FileID m) as [f|] eqn:E; [|done].
    apply andb_true_iff in Hm as [H1 H2]. apply bool_decide_eq_true in H1, H2. by exists k, m, f.
  - intros (k & m & f & Hk & Hf & Hu & Hh). exists m. split; [apply list_elem_of_In, elem_of_table; eauto|].
    by rewrite Hf, bool_decide_true, bool_decide_true.
Qed.

(** *** What an added file leaves in the tables *)

Lemma wrap_ok_inv {W A} msg (m : GoM W A) w a w' : wrap msg m w = (Ok a, w') -> m w = (Ok a, w').
Proof. unfold wrap. destruct (m w) as [[]]; intros E; by simplify_eq. Qed.

Lemma CreateFile_ok_inv f d d' : CreateFile f d = (Ok tt, d') ->
  db_manifests d' = db_manifests d /\ exists f', f_UserID f' = f_UserID f /\ f_ID f' = f_ID f /\ db_files d' !! f_ID f = Some f'.
Proof.
  unfold CreateFile, attempt, sql_exec, mbind, GoM_bind. destruct (next_fault _) as [[] l]; [by simpl|].
  destruct (insert_file _ _) as [e|[n d1]] eqn:E; [by destruct (is_unique_failed e)|]. intros [= <-].
  unfold insert_file in E. repeat case_match; simplify_eq. simpl. split; [done|]. exists (set_trashed (f_IsTrashed f) None f). split_and!; try done. apply lookup_insert_eq.
Qed.

Lemma CreateManifest_ok_inv m d d' : CreateManifest m d = (Ok tt, d') ->
  db_files d' = db_files d /\ db_manifests d' !! m_ID m = Some m.
Proof.
  unfold CreateManifest, wrap, sql_exec, mbind, GoM_bind. destruct (next_fault _) as [[] l]; [by simpl|].
  destruct (insert_manifest _ _) as [e|[n d1]] eqn:E; [done|]. intros [= <-].
  unfold insert_manifest in E. repeat case_match; simplify_eq. simpl. by rewrite lookup_insert_eq.
Qed.

(** Counting chunks touches neither files nor manifests. *)
Lemma ensureChunkRefs_frame ty l d d' : ensureChunkRefs ty l d = (Ok tt, d') ->
  db_files d' = db_files d /\ db_manifests d' = db_manifests d.
Proof.
  assert (forall h, preserves (fun d' => db_files d' = db_files d /\ db_manifests d' = db_manifests d) (ensure_ref ty h)) as Hs.
  { assert (forall x, (forall d1 n d2, x d1 = inr (n, d2) -> db_files d2 = db_files d1 /\ db_manifests d2 = db_manifests d1) ->
              preserves (fun d' => db_files d' = db_files d /\ db_manifests d' = db_manifests d) (sql_exec x)) as Hx.
    { intros x Hx d1 Hd1. unfold sql_exec. destruct (next_fault _) as [[] l']; [done|].
      destruct (x _) as [|[n d2]] eqn:E; [done|]. apply Hx in E as [E1 E2]. simpl in *. by rewrite E1, E2. }
    intros h. unfold ensure_ref, ChunkExists, IncrementRefCount, CreateChunk, affected. preserve.
    - intros d1 Hd1. unfold sql_query. by destruct (next_fault _) as [[] l'].
    - apply Hx. intros d1 n d2 E. unfold bump_chunk in E. by repeat case_match; simplify_eq.
    - apply Hx. intros d1 n d2 E. unfold insert_chunk in E. by repeat case_match; simplify_eq. }
  intros E. pose proof (preserves_forM _ l _ Hs d (conj eq_refl eq_refl)) as Hp. unfold ensureChunkRefs in E. by rewrite E in Hp.
Qed.

Lemma foldl_apply_UserID us f : f_UserID (foldl (fun f u => apply_update u f) f us) = f_UserID f.
Proof. revert f. induction us as [|u us IH]; intros f; simpl; [done|]. rewrite IH. by destruct u. Qed.

(** [UpdateFile] keeps the owner of every row. *)
Lemma UpdateFile_ok_inv id us d d' f : UpdateFile id us d = (Ok tt, d') -> db_files d !! id = Some f -> 
  db_manifests d' = db_manifests d /\ exists f', db_files d' !! id = Some f' /\ f_UserID f' = f_UserID f.
Proof.
  intros E Hf. unfold UpdateFile in E. destruct us as [|u us]; [injection E as <-; eauto|].
  destruct (invalid_field _); [done|]. rewrite bind_get in E. apply bind_ok_inv in E as (n & d1 & E1 & E2).
  apply wrap_ok_inv in E1. unfold affected in E2. destruct (n =? 0); [done|]. injection E2 as <-.
  unfold sql_exec in E1. destruct (next_fault _) as [[] l]; [done|]. unfold update_file in E1. simpl in E1. rewrite Hf in E1.
  destruct (negb _); [done|]. destruct (negb _); [done|]. injection E1 as _ <-. simpl. split; [done|].
  rewrite lookup_insert_eq. eexists. split; [done|]. apply (foldl_apply_UserID (u :: us)).
Qed.

Lemma applyAdd_owned ty u c d d' : applyAdd ty u c d = (Ok tt, d') -> Forall (owns_chunk d' u) (fc_ChunkHashes c).
Proof.
  intros E. unfold applyAdd in E. apply bind_ok_inv in E as (p & d1 & _ & E). rewrite bind_get in E.
  apply bind_ok_inv in E as (id & d2 & _ & E). apply bind_ok_inv in E as ([] & d3 & E3 & E).
  apply wrap_ok_inv, CreateFile_ok_inv in E3 as (_ & f & Hu & _ & Hf). simpl in Hu, Hf.
  destruct (0 <? zlen (fc_ChunkHashes c)) eqn:El.
  2:{ destruct (fc_ChunkHashes c); [constructor|]. unfold zlen in El. simpl in El. apply Z.ltb_ge in El. lia. }
  apply bind_ok_inv in E as (mid & d4 & E4 & E).
  assert (db_files d4 = db_files d3) as F4.
  { unfold generateSyncID in E4. destruct (rand_read 8 (db_rand d3)) as [[] r]; by injection E4 as _ <-. }
  apply bind_ok_inv in E as ([] & d5 & E5 & E). apply wrap_ok_inv, CreateManifest_ok_inv in E5 as [F5 Hm]. simpl in Hm.
  apply bind_ok_inv in E as ([] & d6 & E6 & E). apply wrap_ok_inv in E6.
  eapply UpdateFile_ok_inv in E6 as (F6 & f' & Hf' & Hu'); [|by rewrite F5, F4].
  apply wrap_ok_inv, ensureChunkRefs_frame in E as [F7 F8].
  apply Forall_forall. intros h Hh. eexists mid, _, f'. rewrite F7, F8, F6. split_and!; [exact Hm|exact Hf'|congruence|exact Hh].
Qed.

(** ** Theorems *)

Section Theorems.
Context `{HashFn} {S : Type} `{Backend S}.

(** [Fact] What a client pushes and commits it can pull: a chunk that the store
    holds is delivered to a user exactly when a version of one of his files lists
    its digest, and to nobody else; a push stores content under its own digest
    only; and after a file was added with a list of digests, whether the user
    ever pushed their content or not, each of them that the store holds is
    delivered to him. *)
Theorem pull_serves_listed_chunks u h b (w : World S) :
  u <> ""%string -> h <> ""%string -> valid_key h -> quiet (base (w_db w)) -> healthy (w_store w) -> store_ok (w_store w) ->
  blob_at (w_store w) h = Some b ->
  (owns_chunk (base (w_db w)) u h -> exists w', pullChunk u h w = (Ok (Y_chunk h b), w')) /\
  (~ owns_chunk (base (w_db w)) u h -> pullChunk u h w = (Err (ErrHTTP 403 "Access denied"), w)) /\
  (forall form r w', push u form w = (Ok r, w') -> exists data, r = Y_stored (sha256_hex data) /\
     (valid_key (sha256_hex data) -> blob_at (w_store w') (sha256_hex data) = Some data)) /\
  (forall ty c w1, on_files (applyAdd ty u c) w = (Ok tt, w1) -> quiet (base (w_db w1)) -> h ∈ fc_ChunkHashes c ->
     exists w', pullChunk u h w1 = (Ok (Y_chunk h b), w')).
Proof.
  intros Hu Hh Hv Hq Hhe Hok Hb.
  assert (forall w : World S, quiet (base (w_db w)) -> healthy (w_store w) -> blob_at (w_store w) h = Some b ->
    owns_chunk (base (w_db w)) u h -> exists w', pullChunk u h w = (Ok (Y_chunk h b), w')) as Hpull.
  { intros w0 Hq0 Hh0 Hb0 Ho. destruct (UserOwnsChunk_quiet _ u h Hq0) as (o & Eo & Ho'). apply Ho' in Ho as ->.
    destruct (get_healthy h b (w_store w0) Hv Hh0 Hb0) as (s' & Eg & _). unfold pullChunk.
    rewrite !require_true by by apply nonempty_true. unfold instead, on_files, on_dev, on_base, on_blobs, mbind, GoM_bind.
    rewrite Eo. simpl. rewrite Eg. by eexists. }
  split_and!; [by apply Hpull| | |].
  - intros Hn. destruct (UserOwnsChunk_quiet _ u h Hq) as (o & Eo & Ho'). destruct o; [by destruct Hn; apply Ho'|].
    unfold pullChunk. rewrite !require_true by by apply nonempty_true.
    unfold instead, on_files, on_dev, on_base, mbind, GoM_bind. rewrite Eo. simpl. rewrite ext_eta. by destruct w.
  - intros form r w' E. unfold push in E. rewrite require_true in E by by apply nonempty_true.
    destruct form as [form|]; [|done]. rewrite bind_mret in E. apply bind_ok_inv in E as ([] & w1 & E1 & E).
    unfold require in E1. destruct (nonempty (pf_hash form)); [|done]. injection E1 as <-.
    destruct (pf_chunk form) as [file|]; [|done]. rewrite bind_mret in E.
    apply bind_ok_inv in E as (data & w1 & E1 & E). unfold instead, lift in E1. destruct file; try done. injection E1 as -> <-.
    apply bind_ok_inv in E as ([] & w1 & E1 & E). unfold require in E1. case_bool_decide as Ed; [|done]. injection E1 as <-.
    apply bind_ok_inv in E as ([] & w1 & E1 & E). injection E as <- <-. exists data. rewrite <-Ed in E1 |- *. split; [done|]. intros Hk.
    unfold instead, on_blobs in E1. pose proof (put_law (sha256_hex data) data (w_store w) Hk Hok) as Hp.
    destruct (Put _ data (w_store w)) as [[[]| | |] s']; try done. injection E1 as <-. simpl.
    destruct Hp as [_ Hp]. rewrite Hp by done. by rewrite decide_True.
  - intros ty c w1 E Hq1 Hin. unfold on_files, on_dev, on_base in E.
    destruct (applyAdd ty u c (base (w_db w))) as [r d'] eqn:Ea. injection E as -> <-. simpl in *. apply Hpull; try done.
    simpl. apply applyAdd_owned in Ea. by eapply Forall_forall in Ea.
Qed.
End Theorems.

(** ** Facts *)

(** Registering under the identifier of another user's device succeeds and
    overwrites that device's name, type, system and folder. *)
Fact register_overwrites_any_device {S : Type} `{Backend S} u req d (w : World S) :
  u <> ""%string -> dr_DeviceID req <> ""%string -> dr_Name req <> ""%string -> still (w_db w) ->
  t_devices (tab (w_db w)) !! dr_DeviceID req = Some d ->
  exists w' d', registerDevice u (Some req) w = (Ok (Y_registered (dr_DeviceID req)), w') /\
    t_devices (tab (w_db w')) !! dr_DeviceID req = Some d' /\
    d_UserID d' = d_UserID d /\ d_Name d' = dr_Name req /\ d_SyncFolder d' = dr_SyncFolder req /\ d_IsActive d' = true.
Proof.
  intros Hu Hi Hn Hs Hd. unfold registerDevice. rewrite require_true by by apply nonempty_true.
  unfold decoded. rewrite bind_mret. rewrite require_true by (by rewrite !nonempty_true).
  unfold instead, on_dev, RegisterDevice, attempt, GetDeviceByID, mbind, GoM_bind. simpl.
  rewrite tab_scan_still, Hd by done. unfold UpdateDevice, wrap, mbind, GoM_bind. simpl. rewrite tab_exec_still by done.
  unfold update_device. rewrite Hd. simpl.
  eexists _, _. split; [done|]. simpl. rewrite lookup_insert_eq. split; [done|]. by destruct d.
Qed.

(** A chunk that a commit announced without its content having been pushed is never
    stored by a later upload: the upload finds the row and only counts it. *)
Fact announced_chunk_blocks_upload `{HashFn} {S : Type} `{Backend S} ty ty' i c data h (d d' : DB) (w : Server S) :
  quiet d' -> ensure_ref ty h d = (Ok tt, d') -> sv_db w = d' -> ci_Hash c = h ->
  exists w', store_one ty' i c data w = (Ok tt, w') /\ sv_store w' = sv_store w.
Proof.
  intros Hq E Hd Hc. assert (exists row, db_chunks d' !! h = Some row) as [row Hrow].
  { unfold ensure_ref in E. apply bind_ok_inv in E as (b & d1 & E1 & E). destruct b.
    - apply wrap_ok_inv in E. unfold IncrementRefCount, wrap, affected, sql_exec, mbind, GoM_bind in E.
      destruct (next_fault _) as [[] l]; [done|]. unfold bump_chunk in E. simpl in E.
      destruct (db_chunks d1 !! h) as [row|] eqn:El; simpl in E; [|done]. injection E as <-. simpl. rewrite lookup_insert_eq. eauto.
    - rewrite bind_get in E. apply wrap_ok_inv in E. unfold CreateChunk, wrap, sql_exec, mbind, GoM_bind in E.
      destruct (next_fault _) as [[] l]; [done|]. unfold insert_chunk in E. case_bool_decide; [done|].
      injection E as <-. simpl. rewrite lookup_insert_eq. eauto. }
  subst d'. unfold store_one, instead, on_db, mbind, GoM_bind, ChunkExists, wrap. rewrite query_quiet by done. rewrite Hc, Hrow.
  rewrite bool_decide_true by done. unfold IncrementRefCount, wrap, affected, mbind, GoM_bind. simpl. rewrite exec_quiet by done.
  unfold bump_chunk. rewrite Hrow. simpl. by eexists.
Qed.

(** ** Witnesses *)

Section Witnesses.
#[local] Existing Instance toy_hash.
#[local] Existing Instance sync_backend.

(** Adding the same path at the root twice leaves two live files with one name. *)
Fact add_at_root_twice :
  let twice := (_ ← applyAdd "local" "u" sync_change; applyAdd "local" "u" sync_change) in
  let d := mkDB {["u"%string]} ∅ ∅ ∅ 100 (mkRand (fun n => zb (Z.of_nat n)) 0 []) [] true in
  (twice d).1 = Ok tt /\ length (filter (at_path "u" None "b.txt") (rows (db_files (twice d).2))) = 2%nat.
Proof. split; vm_compute; reflexivity. Qed.

Lemma pull_witness :
  exists w', pullChunk "u" "aa0" sync_world = (Ok (Y_chunk "aa0" [x61]), w') /\
             pullChunk "v" "aa0" sync_world = (Err (ErrHTTP 403 "Access denied"), sync_world).
Proof.
  assert (local_key "aa0") as Hk by (split; [reflexivity|split; [simpl; lia|discriminate]]).
  assert (local_ok ["data"%string] (w_store sync_world)) as Hs by (intros k _; apply not_elem_of_empty).
  destruct (pull_serves_listed_chunks "u" "aa0" [x61] sync_world ltac:(discriminate) ltac:(discriminate) Hk eq_refl eq_refl Hs
              ltac:(vm_compute; reflexivity)) as [Hp _].
  destruct (pull_serves_listed_chunks "v" "aa0" [x61] sync_world ltac:(discriminate) ltac:(discriminate) Hk eq_refl eq_refl Hs
              ltac:(vm_compute; reflexivity)) as (_ & Hn & _).
  destruct Hp as [w' Hp].
  { exists "m"%string, sync_manifest, sync_file. split_and!; [reflexivity|reflexivity|reflexivity|by left]. }
  exists w'. split; [exact Hp|]. apply Hn. intros (k & m & f & Hm & Hf & Huser & _).
  simpl in Hm. apply lookup_singleton_Some in Hm as [_ <-]. simpl in Hf. apply lookup_singleton_Some in Hf as [_ <-]. discriminate Huser.
Defined.
End Witnesses.
