(* ===== verification/Password.v ===== *)
(** * Password hashing (internal/auth/password.go) *)

From S2P Require Import Prelude GoStrings GoCrypto Crypto Encoding Server.

Definition DefaultMemoryKB : Z := 65536.
Definition DefaultIterations : Z := 3.

(** The one error of this file. *)
Definition ErrInvalidHash : error := Errorf "invalid password hash format".

Definition dollar : ascii := "$"%char.

Section Password.
Context `{Hmac} `{HashFn} `{Sha512}.

(** A negative iteration count runs no iteration. *)
Definition derive (password : string) (salt : bytes) (memoryKB iterations : Z) : Res bytes :=
  DeriveKeyArgon2idStyle password salt memoryKB (Z.to_nat iterations).

Definition HashPassword (password : string) : GoM Rand string :=
  salt ← wrap "failed to generate salt" GenerateSalt;
  hash ← lift (derive password salt DefaultMemoryKB DefaultIterations);
  let encodedSalt := encode_raw base64std salt in
  let encodedHash := encode_raw base64std hash in
  mret ("$argon2id$v=19$m=" +:+ pretty DefaultMemoryKB +:+ ",t=" +:+ pretty DefaultIterations +:+ ",p=1$" +:+
        encodedSalt +:+ "$" +:+ encodedHash)%string.

(** A parameter [name=number]. *)
Definition parse_param (name p : string) : option Z :=
  match split_char "="%char p with
  | [n; v] => if bool_decide (n = name) then Atoi v else None
  | _ => None
  end.

(** Salt, hash, memory size and iterations. *)
Definition parsePHC (phc : string) : Res (bytes * bytes * Z * Z) :=
  let invalid := Err ErrInvalidHash in
  match split_char dollar phc with
  | [_; alg; _; params; encodedSalt; encodedHash] =>
      if negb (bool_decide (alg = "argon2id"%string)) then invalid
      else match split_char ","%char params with
           | [m; t; _] =>
               match parse_param "m" m with
               | None => invalid
               | Some memoryKB =>
                   match parse_param "t" t with
                   | None => invalid
                   | Some iterations =>
                       match decode_raw base64std encodedSalt with
                       | None => invalid
                       | Some salt =>
                           match decode_raw base64std encodedHash with
                           | None => invalid
                           | Some hash => Ok (salt, hash, memoryKB, iterations)
                           end
                       end
                   end
               end
           | _ => invalid
           end
  | _ => invalid
  end.

Definition VerifyPassword (password hash : string) : Res bool :=
  p ← parsePHC hash;
  let '(salt, storedHash, memoryKB, iterations) := (p : bytes * bytes * Z * Z) in
  derivedHash ← derive password salt memoryKB iterations;
  Ok (SecureCompare derivedHash storedHash).

(** ** Lemmas *)

(** The characters of an encoded digest are none of those that separate fields. *)
Lemma encoded_no_dollar b : no_sep dollar (encode_raw base64std b).
Proof. apply encoded_no_sep; [apply base64std_ok|]. vm_compute. reflexivity. Qed.

Lemma parse_phc salt hash : 
  parsePHC ("$argon2id$v=19$m=65536,t=3,p=1$" +:+ encode_raw base64std salt +:+ "$" +:+ encode_raw base64std hash) =
  Ok (salt, hash, DefaultMemoryKB, DefaultIterations).
Proof.
  unfold parsePHC. 
  assert (split_char dollar ("$argon2id$v=19$m=65536,t=3,p=1$" +:+ encode_raw base64std salt +:+ "$" +:+ encode_raw base64std hash) =
          [""; "argon2id"; "v=19"; "m=65536,t=3,p=1"; encode_raw base64std salt; encode_raw base64std hash]%string) as ->.
  { pose proof (split_app dollar (encode_raw base64std salt) (encode_raw base64std hash) (encoded_no_dollar salt)) as E.
    change (encode_raw base64std salt +:+ "$" +:+ encode_raw base64std hash)%string
      with (encode_raw base64std salt +:+ String dollar (encode_raw base64std hash))%string.
    rewrite (split_no_sep dollar (encode_raw base64std hash)) in E by apply encoded_no_dollar.
    generalize dependent (encode_raw base64std salt +:+ String dollar (encode_raw base64std hash))%string. intros s E.
    str_simpl. rewrite E. reflexivity. }
  pose proof (decode_raw_encode base64std base64std_ok salt) as Es. pose proof (decode_raw_encode base64std base64std_ok hash) as Eh.
  generalize dependent (encode_raw base64std salt). generalize dependent (encode_raw base64std hash). intros eh Eh es Es.
  cbn -[decode_raw Atoi]. rewrite Es, Eh. reflexivity.
Qed.

Lemma derive_total password salt m t : exists key, derive password salt m t = Ok key.
Proof. destruct (derive_ok password salt m (Z.to_nat t)) as (key & E & _). by exists key. Qed.

#[local] Opaque derive.

(** The two operations over any derivation: what they do does not depend on it. *)
Lemma verify_derived other phc salt hash m t k : parsePHC phc = Ok (salt, hash, m, t) -> derive other salt m t = Ok k ->
  VerifyPassword other phc = Ok (SecureCompare k hash).
Proof. intros Ep. unfold VerifyPassword. rewrite Ep. generalize derive. intros dv E. simpl. by rewrite E. Qed.

Lemma hash_derived password r salt r' key : GenerateSalt r = (Ok salt, r') -> derive password salt DefaultMemoryKB DefaultIterations = Ok key ->
  HashPassword password r = (Ok ("$argon2id$v=19$m=65536,t=3,p=1$" +:+ encode_raw base64std salt +:+ "$" +:+ encode_raw base64std key)%string, r').
Proof.
  intros Es. unfold HashPassword. generalize derive. intros dv E. unfold wrap, lift, mbind, GoM_bind. rewrite Es. by rewrite E.
Qed.

(** Verification is total, whatever the text. *)
Lemma VerifyPassword_total password phc : match VerifyPassword password phc with
  | Ok _ => exists p, parsePHC phc = Ok p
  | Err e => e = ErrInvalidHash
  | _ => False
  end.
Proof.
  destruct (parsePHC phc) as [[[[salt hash] m] t]|e|s|] eqn:E.
  { destruct (derive_total password salt m t) as (k & Ek). rewrite (verify_derived _ _ _ _ _ _ _ E Ek). eauto. }
  all: unfold VerifyPassword; rewrite E; simpl; unfold parsePHC in E; by repeat case_match; simplify_eq.
Qed.

(** Whatever the random source does. *)
Lemma HashPassword_cases password r :
  match HashPassword password r with
  | (Ok phc, _) => exists salt key, derive password salt DefaultMemoryKB DefaultIterations = Ok key /\
      forall other, exists k, derive other salt DefaultMemoryKB DefaultIterations = Ok k /\ VerifyPassword other phc = Ok (bool_decide (k = key))
  | (Err _, _) => True
  | _ => False
  end.
Proof.
  destruct (GenerateSalt r) as [res r'] eqn:Es.
  assert (match res with Ok _ | Err _ => True | _ => False end) as Hres.
  { unfold GenerateSalt, RandomBytes, wrap, rand_read in Es. destruct (next_fault _) as [[] l]; by injection Es as <- _. }
  destruct res as [salt|e|m|]; [|by unfold HashPassword, wrap, mbind, GoM_bind; rewrite Es|done..].
  destruct (derive_total password salt DefaultMemoryKB DefaultIterations) as (key & Ek).
  rewrite (hash_derived password r salt r' key Es Ek). exists salt, key. split; [done|]. intros other.
  destruct (derive_total other salt DefaultMemoryKB DefaultIterations) as (k & Eo). exists k. split; [done|].
  exact (verify_derived _ _ _ _ _ _ _ (parse_phc salt key) Eo).
Qed.

(** [Fact] Hashing a password succeeds whenever random bytes can be read, the text
    it yields verifies exactly the passwords that derive the same key -- so the
    password itself always -- and verification never fails with an index error,
    whatever text it is given: a text that is not six fields with the parameters
    of the format is refused with the format error. *)
Theorem HashPassword_verifies password r :
  rnd_faults r = [] ->
  (exists phc r' salt key, HashPassword password r = (Ok phc, r') /\ length salt = 16%nat /\
    derive password salt DefaultMemoryKB DefaultIterations = Ok key /\
    VerifyPassword password phc = Ok true /\
    forall other, exists k, derive other salt DefaultMemoryKB DefaultIterations = Ok k /\
                            VerifyPassword other phc = Ok (bool_decide (k = key))) /\
  (forall phc, match VerifyPassword password phc with
               | Ok _ => exists p, parsePHC phc = Ok p
               | Err e => e = ErrInvalidHash
               | _ => False
               end).
Proof.
  intros Hr. split.
  - destruct (RandomBytes_ok SaltSize r Hr) as (salt & r' & Es & Hl & _).
    destruct (derive_total password salt DefaultMemoryKB DefaultIterations) as (key & Ek).
    exists ("$argon2id$v=19$m=65536,t=3,p=1$" +:+ encode_raw base64std salt +:+ "$" +:+ encode_raw base64std key)%string, r', salt, key.
    assert (forall other, exists k, derive other salt DefaultMemoryKB DefaultIterations = Ok k /\
      VerifyPassword other ("$argon2id$v=19$m=65536,t=3,p=1$" +:+ encode_raw base64std salt +:+ "$" +:+ encode_raw base64std key) =
      Ok (bool_decide (k = key))) as Hv.
    { intros other. destruct (derive_total other salt DefaultMemoryKB DefaultIterations) as (k & Eo). exists k. split; [done|].
      exact (verify_derived _ _ _ _ _ _ _ (parse_phc salt key) Eo). }
    split_and!; [|exact Hl|exact Ek| |exact Hv].
    + by apply hash_derived.
    + destruct (Hv password) as (k & Eo & ->). rewrite Ek in Eo. injection Eo as <-. by rewrite bool_decide_true.
  - apply VerifyPassword_total.
Qed.
End Password.

Section Witness.
#[local] Existing Instance toy_hash.
#[local] Existing Instance toy_hmac.
#[local] Existing Instance toy_sha512.

Lemma HashPassword_witness :
  exists phc r', HashPassword "secret" toy_rand = (Ok phc, r') /\ VerifyPassword "secret" phc = Ok true.
Proof.
  destruct (HashPassword_verifies "secret" toy_rand eq_refl) as [(phc & r' & salt & key & E & _ & _ & Hv & _) _]. exists phc, r'. by split.
Defined.
End Witness.
