(* ===== verification/Users.v ===== *)
(** * Users, sessions and API tokens (internal/db: users.go, sessions.go, apitokens.go)

    Three tables next to the files: [db_users] of the base state holds the
    identifiers of the rows of the users table, to which other tables refer. *)

From S2P Require Import Prelude GoStrings GoCrypto Encoding Util Database Devices.

(** ** Rows (types.go) *)

Record User := mkUser {
  u_ID : string; u_Username : string; u_Email : string; u_DisplayName : string; u_PasswordHash : string; u_Role : string;
  u_QuotaBytes : Z; u_UsedBytes : Z; u_TOTPSecret : option string; u_TOTPEnabled : bool; u_PublicKey : bytes;
  u_EncryptedPrivateKey : bytes; u_RecoveryKeyHash : option string; u_AvatarChunkHash : option string; u_Status : string;
  u_PasswordChangeRequired : bool; u_LastLoginAt : option Z; u_CreatedAt : Z; u_UpdatedAt : Z
}.

Record Session := mkSessionRow {
  se_ID : string; se_UserID : string; se_RefreshToken : string; se_DeviceName : string; se_DeviceType : string;
  se_IPAddress : string; se_UserAgent : string; se_LastActiveAt : Z; se_ExpiresAt : Z; se_CreatedAt : Z
}.

Record APIToken := mkToken {
  tk_ID : string; tk_UserID : string; tk_Name : string; tk_TokenHash : string; tk_Permissions : list string;
  tk_LastUsedAt : option Z; tk_ExpiresAt : option Z; tk_CreatedAt : Z
}.

Record UserFilter := mkFilter { uf_Role : string; uf_Status : string; uf_Query : string }.

Record AuthTables := mkAuthTables {
  t_users : gmap string User; t_sessions : gmap string Session; t_tokens : gmap string APIToken
}.

Definition AuthDB : Type := Ext AuthTables.

Definition with_users (m : gmap string User) (w : AuthDB) : AuthDB :=
  with_tab (mkAuthTables m (t_sessions (tab w)) (t_tokens (tab w))) w.
Definition with_sessions (m : gmap string Session) (w : AuthDB) : AuthDB :=
  with_tab (mkAuthTables (t_users (tab w)) m (t_tokens (tab w))) w.
Definition with_tokens (m : gmap string APIToken) (w : AuthDB) : AuthDB :=
  with_tab (mkAuthTables (t_users (tab w)) (t_sessions (tab w)) m) w.

(** ** Users *)

Definition has_username (n : string) (u : User) : Prop := u_Username u = n.
Definition has_email (e : string) (u : User) : Prop := u_Email u = e.

#[export] Instance has_username_dec n u : Decision (has_username n u).
Proof. unfold has_username. apply _. Defined.
#[export] Instance has_email_dec e u : Decision (has_email e u).
Proof. unfold has_email. apply _. Defined.

(** The uniqueness constraints of the users table, for a row that replaces [id]. *)
Definition user_unique (id : string) (u : User) (m : gmap string User) : bool :=
  negb (existsb (fun v => bool_decide (has_username (u_Username u) v) || bool_decide (has_email (u_Email u) v))
          (rows (delete id m))).

(** The errors of CreateUser that name the column. *)
Definition user_clash (u : User) (m : gmap string User) : error :=
  if existsb (fun v => bool_decide (has_username (u_Username u) v)) (rows m) then Errorf "username already exists"
  else if existsb (fun v => bool_decide (has_email (u_Email u) v)) (rows m) then Errorf "email already exists"
  else Wrapf "failed to create user" ErrUnique.

Definition insert_user (u : User) (w : AuthDB) : error + (Z * AuthDB) :=
  let m := t_users (tab w) in
  if bool_decide (is_Some (m !! u_ID u)) then inl (Wrapf "failed to create user" ErrUnique)
  else if negb (user_unique (u_ID u) u m) then inl (user_clash u m)
  else
    let d := base w in
    inr (1, mkExt (mkDB ({[u_ID u]} ∪ db_users d) (db_files d) (db_manifests d) (db_chunks d) (db_now d) (db_rand d) (db_faults d) (db_fk d))
              (mkAuthTables (<[u_ID u := u]> m) (t_sessions (tab w)) (t_tokens (tab w)))).

(** The statement does not list password_change_required: the column takes its
    default.  [newID] is the identifier generated for a user without one. *)
Definition stored_user (newID : string) (u : User) : User :=
  let '(mkUser id n e dn ph ro qu us ts te pk ek rk av st _ ll cr up) := u in
  mkUser (if bool_decide (id = ""%string) then newID else id) n e dn ph ro qu us ts te pk ek rk av st false ll cr up.

Definition CreateUser (newID : string) (user : User) : GoM AuthDB unit :=
  r ← attempt (tab_exec (insert_user (stored_user newID user)));
  match r with
  | inl _ => mret tt
  | inr ErrDriver => fail (Wrapf "failed to create user" ErrDriver)
  | inr e => fail e
  end.

Definition GetUserByID (id : string) : GoM AuthDB User :=
  tab_scan "user not found" "failed to get user" (fun w => t_users (tab w) !! id).
Definition GetUserByUsername (username : string) : GoM AuthDB User :=
  tab_scan "user not found" "failed to get user" (fun w => head (filter (has_username username) (rows (t_users (tab w))))).
Definition GetUserByEmail (email : string) : GoM AuthDB User :=
  tab_scan "user not found" "failed to get user" (fun w => head (filter (has_email email) (rows (t_users (tab w))))).

(** The columns that [UpdateUser] accepts, and any other name. *)
Inductive user_update :=
  | W_username (v : string) | W_email (v : string) | W_display_name (v : string) | W_password_hash (v : string)
  | W_role (v : string) | W_quota_bytes (v : Z) | W_used_bytes (v : Z) | W_totp_secret (v : option string)
  | W_totp_enabled (v : bool) | W_public_key (v : bytes) | W_encrypted_private_key (v : bytes)
  | W_recovery_key_hash (v : option string) | W_avatar_chunk_hash (v : option string) | W_status (v : string)
  | W_last_login_at (v : Z) | W_other (field : string).

Definition apply_user (c : user_update) (u : User) : User :=
  let '(mkUser id n e dn ph ro qu us ts te pk ek rk av st pc ll cr up) := u in
  match c with
  | W_username v => mkUser id v e dn ph ro qu us ts te pk ek rk av st pc ll cr up
  | W_email v => mkUser id n v dn ph ro qu us ts te pk ek rk av st pc ll cr up
  | W_display_name v => mkUser id n e v ph ro qu us ts te pk ek rk av st pc ll cr up
  | W_password_hash v => mkUser id n e dn v ro qu us ts te pk ek rk av st pc ll cr up
  | W_role v => mkUser id n e dn ph v qu us ts te pk ek rk av st pc ll cr up
  | W_quota_bytes v => mkUser id n e dn ph ro v us ts te pk ek rk av st pc ll cr up
  | W_used_bytes v => mkUser id n e dn ph ro qu v ts te pk ek rk av st pc ll cr up
  | W_totp_secret v => mkUser id n e dn ph ro qu us v te pk ek rk av st pc ll cr up
  | W_totp_enabled v => mkUser id n e dn ph ro qu us ts v pk ek rk av st pc ll cr up
  | W_public_key v => mkUser id n e dn ph ro qu us ts te v ek rk av st pc ll cr up
  | W_encrypted_private_key v => mkUser id n e dn ph ro qu us ts te pk v rk av st pc ll cr up
  | W_recovery_key_hash v => mkUser id n e dn ph ro qu us ts te pk ek v av st pc ll cr up
  | W_avatar_chunk_hash v => mkUser id n e dn ph ro qu us ts te pk ek rk v st pc ll cr up
  | W_status v => mkUser id n e dn ph ro qu us ts te pk ek rk av v pc ll cr up
  | W_last_login_at v => mkUser id n e dn ph ro qu us ts te pk ek rk av st pc (Some v) cr up
  | W_other _ => u
  end.

Definition set_password (hash : string) (u : User) : User :=
  let '(mkUser id n e dn _ ro qu us ts te pk ek rk av st _ ll cr up) := u in
  mkUser id n e dn hash ro qu us ts te pk ek rk av st false ll cr up.
Definition touch_user (t : Z) (u : User) : User :=
  let '(mkUser id n e dn ph ro qu us ts te pk ek rk av st pc ll cr _) := u in
  mkUser id n e dn ph ro qu us ts te pk ek rk av st pc ll cr t.

Fixpoint invalid_user_field (updates : list user_update) : option string :=
  match updates with
  | [] => None
  | W_other field :: _ => Some field
  | _ :: updates => invalid_user_field updates
  end.

Definition update_user (id : string) (g : User -> User) (w : AuthDB) : error + (Z * AuthDB) :=
  match t_users (tab w) !! id with
  | None => inr (0, w)
  | Some u =>
      if negb (user_unique id (g u) (t_users (tab w))) then inl ErrUnique
      else inr (1, with_users (<[id := g u]> (t_users (tab w))) w)
  end.

Definition UpdateUser (id : string) (updates : list user_update) : GoM AuthDB unit :=
  match updates with
  | [] => mret tt
  | _ =>
      match invalid_user_field updates with
      | Some field => fail (Errorf ("invalid update field: " +:+ field))
      | None =>
          t ← tab_now;
          rows ← wrap "failed to update user"
            (tab_exec (update_user id (fun u => touch_user t (foldl (fun u c => apply_user c u) u updates))));
          tab_affected "user not found" rows
      end
  end.

(** ON DELETE CASCADE of the tables that refer to the user: his sessions, tokens
    and files, what lies below them, and their manifests. *)
Definition delete_user (id : string) (w : AuthDB) : error + (Z * AuthDB) :=
  match t_users (tab w) !! id with
  | None => inr (0, w)
  | Some _ =>
      let d := base w in
      let users := db_users d ∖ {[id]} in
      let m := delete id (t_users (tab w)) in
      if db_fk d then
        let own := dom (filter (fun kv => f_UserID kv.2 = id) (db_files d)) in
        let gone := Nat.iter (size (db_files d)) (cascade_step (db_files d)) own in
        inr (1, mkExt (mkDB users (filter (fun kv => kv.1 ∉ gone) (db_files d))
                         (filter (fun kv => m_FileID kv.2 ∉ gone) (db_manifests d)) (db_chunks d) (db_now d) (db_rand d)
                         (db_faults d) (db_fk d))
                  (mkAuthTables m (filter (fun kv => se_UserID kv.2 <> id) (t_sessions (tab w)))
                     (filter (fun kv => tk_UserID kv.2 <> id) (t_tokens (tab w)))))
      else inr (1, mkExt (mkDB users (db_files d) (db_manifests d) (db_chunks d) (db_now d) (db_rand d) (db_faults d) (db_fk d))
                     (mkAuthTables m (t_sessions (tab w)) (t_tokens (tab w))))
  end.

Definition DeleteUser (id : string) : GoM AuthDB unit :=
  rows ← wrap "failed to delete user" (tab_exec (delete_user id));
  tab_affected "user not found" rows.

(** *** LIKE: [%] stands for any text, [_] for one character; ASCII letters
    match in either case *)

Definition fold_ascii (c : ascii) : ascii :=
  let n := N_of_ascii c in if ((65 <=? n) && (n <=? 90))%N then ascii_of_N (n + 32) else c.

Fixpoint like_match (pat : string) (s : string) : bool :=
  match pat with
  | "" => bool_decide (s = "")
  | String p pat' =>
      if bool_decide (p = "%"%char) then
        (fix any (s : string) : bool :=
           like_match pat' s || match s with "" => false | String _ s => any s end) s
      else match s with
           | "" => false
           | String c s => (bool_decide (p = "_"%char) || bool_decide (fold_ascii p = fold_ascii c)) && like_match pat' s
           end
  end%string.

Definition user_matches (filter : UserFilter) (u : User) : bool :=
  (bool_decide (uf_Role filter = ""%string) || bool_decide (u_Role u = uf_Role filter)) &&
  (bool_decide (uf_Status filter = ""%string) || bool_decide (u_Status u = uf_Status filter)) &&
  (bool_decide (uf_Query filter = ""%string) ||
   (let like := ("%" +:+ uf_Query filter +:+ "%")%string in
    like_match like (u_Username u) || like_match like (u_Email u) || like_match like (u_DisplayName u))).

Definition newest_user (a b : User) : Prop := u_CreatedAt b <= u_CreatedAt a.

#[export] Instance newest_user_dec : RelDecision newest_user.
Proof. intros a b. unfold newest_user. apply _. Defined.

(** LIMIT of a negative number is no limit. *)
Definition sql_page {A} (limit offset : Z) (l : list A) : list A :=
  let l := drop (Z.to_nat offset) l in if limit <? 0 then l else take (Z.to_nat limit) l.

Definition ListUsers (offset limit : Z) (flt : UserFilter) : GoM AuthDB (list User * Z) :=
  let chosen (w : AuthDB) := List.filter (user_matches flt) (rows (t_users (tab w))) in
  total ← wrap "failed to count users" (tab_query (fun w => Z.of_nat (length (chosen w))));
  users ← wrap "failed to list users" (tab_query (fun w => sql_page limit offset (merge_sort newest_user (chosen w))));
  mret (users, total).

Definition add_used (delta : Z) (u : User) : User := apply_user (W_used_bytes (i64 (u_UsedBytes u + delta))) u.

Definition UpdateUsedBytes (id : string) (delta : Z) : GoM AuthDB unit :=
  t ← tab_now;
  rows ← wrap "failed to update used bytes" (tab_exec (update_user id (fun u => touch_user t (add_used delta u))));
  tab_affected "user not found" rows.

Definition UpdatePassword (id passwordHash : string) : GoM AuthDB unit :=
  t ← tab_now;
  rows ← wrap "failed to update password" (tab_exec (update_user id (fun u => touch_user t (set_password passwordHash u))));
  tab_affected "user not found" rows.

Definition UpdateUserPassword (id passwordHash : string) : GoM AuthDB unit := UpdatePassword id passwordHash.

Definition count_users (status : option string) (w : AuthDB) : Z :=
  Z.of_nat (length (List.filter (fun u => match status with Some s => bool_decide (u_Status u = s) | None => true end)
                      (rows (t_users (tab w))))).

Definition GetUserCount : GoM AuthDB Z := wrap "failed to get user count" (tab_query (count_users None)).
Definition GetUserCountByStatus (status : string) : GoM AuthDB Z :=
  wrap "failed to get user count" (tab_query (count_users (Some status))).
Definition CountUsersByStatus (status : string) : GoM AuthDB Z :=
  if bool_decide (status = ""%string) then wrap "failed to count users" (tab_query (count_users None))
  else wrap "failed to count users by status" (tab_query (count_users (Some status))).

(** ** Sessions *)

Definition insert_session (s : Session) (w : AuthDB) : error + (Z * AuthDB) :=
  let m := t_sessions (tab w) in
  if bool_decide (is_Some (m !! se_ID s)) then inl ErrUnique
  else if existsb (fun x => bool_decide (se_RefreshToken x = se_RefreshToken s)) (rows m) then inl ErrUnique
  else if db_fk (base w) && negb (bool_decide (se_UserID s ∈ db_users (base w))) then inl ErrForeignKey
  else inr (1, with_sessions (<[se_ID s := s]> m) w).

Definition CreateSession (session : Session) : GoM AuthDB unit :=
  wrap "failed to create session" (tab_exec (insert_session session));; mret tt.

Definition GetSessionByRefreshToken (refreshToken : string) : GoM AuthDB Session :=
  tab_scan "session not found" "failed to get session"
    (fun w => head (filter (fun s => se_RefreshToken s = refreshToken) (rows (t_sessions (tab w))))).

Definition newest_session (a b : Session) : Prop := se_CreatedAt b <= se_CreatedAt a.

#[export] Instance newest_session_dec : RelDecision newest_session.
Proof. intros a b. unfold newest_session. apply _. Defined.

Definition GetSessionsByUser (userID : string) : GoM AuthDB (list Session) :=
  wrap "failed to list sessions" (tab_query (fun w =>
    merge_sort newest_session (filter (fun s => se_UserID s = userID) (rows (t_sessions (tab w)))))).

Definition touch_session (t : Z) (s : Session) : Session :=
  let '(mkSessionRow id us rt dn dt ip ua _ ex cr) := s in mkSessionRow id us rt dn dt ip ua t ex cr.

Definition UpdateSessionActivity (id : string) : GoM AuthDB unit :=
  t ← tab_now;
  wrap "failed to update session" (tab_exec (fun w =>
    match t_sessions (tab w) !! id with
    | Some s => inr (1, with_sessions (<[id := touch_session t s]> (t_sessions (tab w))) w)
    | None => inr (0, w)
    end));; mret tt.

(** DELETE FROM sessions WHERE ...: the rows that go, and how many. *)
Definition delete_sessions (P : Session -> bool) (w : AuthDB) : error + (Z * AuthDB) :=
  let m := t_sessions (tab w) in
  inr (Z.of_nat (size (filter (fun kv => P kv.2 = true) m)), with_sessions (filter (fun kv => P kv.2 = false) m) w).

Definition DeleteSession (id : string) : GoM AuthDB unit :=
  rows ← wrap "failed to delete session" (tab_exec (delete_sessions (fun s => bool_decide (se_ID s = id))));
  tab_affected "session not found" rows.

Definition DeleteSessionsByUser (userID : string) : GoM AuthDB unit :=
  wrap "failed to delete sessions" (tab_exec (delete_sessions (fun s => bool_decide (se_UserID s = userID))));; mret tt.

Definition CleanupExpiredSessions : GoM AuthDB Z :=
  t ← tab_now; wrap "failed to cleanup sessions" (tab_exec (delete_sessions (fun s => se_ExpiresAt s <? t))).

(** ** API tokens

    The JSON text of the permissions is kept as the list it encodes. *)

Definition insert_token (t : APIToken) (w : AuthDB) : error + (Z * AuthDB) :=
  let m := t_tokens (tab w) in
  if bool_decide (is_Some (m !! tk_ID t)) then inl ErrUnique
  else if existsb (fun x => bool_decide (tk_TokenHash x = tk_TokenHash t)) (rows m) then inl ErrUnique
  else if db_fk (base w) && negb (bool_decide (tk_UserID t ∈ db_users (base w))) then inl ErrForeignKey
  else inr (1, with_tokens (<[tk_ID t := t]> m) w).

Definition CreateAPIToken (token : APIToken) : GoM AuthDB unit :=
  wrap "failed to create API token" (tab_exec (insert_token token));; mret tt.

Definition GetAPITokenByHash (tokenHash : string) : GoM AuthDB APIToken :=
  tab_scan "token not found" "failed to get API token"
    (fun w => head (filter (fun t => tk_TokenHash t = tokenHash) (rows (t_tokens (tab w))))).
Definition GetAPITokenByID (id : string) : GoM AuthDB APIToken :=
  tab_scan "token not found" "failed to get API token" (fun w => t_tokens (tab w) !! id).

Definition newest_token (a b : APIToken) : Prop := tk_CreatedAt b <= tk_CreatedAt a.

#[export] Instance newest_token_dec : RelDecision newest_token.
Proof. intros a b. unfold newest_token. apply _. Defined.

Definition ListAPITokensByUser (userID : string) : GoM AuthDB (list APIToken) :=
  wrap "failed to list API tokens" (tab_query (fun w =>
    merge_sort newest_token (filter (fun t => tk_UserID t = userID) (rows (t_tokens (tab w)))))).

Definition touch_token (at_ : Z) (t : APIToken) : APIToken :=
  let '(mkToken id us n h p _ e c) := t in mkToken id us n h p (Some at_) e c.

Definition UpdateAPITokenLastUsed (id : string) (usedAt : Z) : GoM AuthDB unit :=
  wrap "failed to update API token" (tab_exec (fun w =>
    match t_tokens (tab w) !! id with
    | Some t => inr (1, with_tokens (<[id := touch_token usedAt t]> (t_tokens (tab w))) w)
    | None => inr (0, w)
    end));; mret tt.

Definition delete_tokens (P : APIToken -> bool) (w : AuthDB) : error + (Z * AuthDB) :=
  let m := t_tokens (tab w) in
  inr (Z.of_nat (size (filter (fun kv => P kv.2 = true) m)), with_tokens (filter (fun kv => P kv.2 = false) m) w).

Definition DeleteAPIToken (id : string) : GoM AuthDB unit :=
  rows ← wrap "failed to delete API token" (tab_exec (delete_tokens (fun t => bool_decide (tk_ID t = id))));
  tab_affected "token not found" rows.

Definition DeleteAPITokensByUser (userID : string) : GoM AuthDB unit :=
  wrap "failed to delete API tokens" (tab_exec (delete_tokens (fun t => bool_decide (tk_UserID t = userID))));; mret tt.

Definition CleanupExpiredAPITokens : GoM AuthDB Z :=
  now ← tab_now;
  wrap "failed to cleanup API tokens"
    (tab_exec (delete_tokens (fun t => match tk_ExpiresAt t with Some e => e <? now | None => false end))).
