(* ===== verification/Jwt.v ===== *)
(** * Access and refresh tokens (internal/auth/jwt.go)

    A token is [header.claims.signature], each part in base64url.  The JSON
    encoding of the claims is an interface with the laws of encoding/json that the
    code relies on: decoding inverts encoding, and decoding into the other claim
    type ignores fields it does not have and leaves missing ones zero. *)

From S2P Require Import Prelude GoStrings GoCrypto Crypto Encoding.

Definition AccessTokenTTL : Z := 15 * 60.
Definition RefreshTokenTTL : Z := 7 * 24 * 3600.

Definition ErrInvalidToken : error := Errorf "invalid token".
Definition ErrTokenExpired : error := Errorf "token expired".
Definition ErrInvalidSignature : error := Errorf "invalid signature".

Record AccessClaims := mkAccess {
  ac_UserID : string; ac_Username : string; ac_Roles : list string; ac_DeviceID : string; ac_SessionID : string;
  ac_Exp : Z; ac_Iat : Z; ac_JTI : string
}.

Record RefreshClaims := mkRefresh {
  rc_UserID : string; rc_DeviceID : string; rc_SessionID : string; rc_Exp : Z; rc_Iat : Z; rc_JTI : string
}.

Record TokenPair := mkPair { AccessToken : string; RefreshToken : string; ExpiresAt : Z }.

(** encoding/json on the two claim types; [plain] claims hold valid UTF-8. *)
Class ClaimsJSON : Type := {
  plain_access : AccessClaims -> Prop;
  plain_refresh : RefreshClaims -> Prop;
  marshal_access : AccessClaims -> bytes;
  marshal_refresh : RefreshClaims -> bytes;
  unmarshal_access : bytes -> option AccessClaims;
  unmarshal_refresh : bytes -> option RefreshClaims;
  access_access c : plain_access c -> unmarshal_access (marshal_access c) = Some c;
  refresh_refresh c : plain_refresh c -> unmarshal_refresh (marshal_refresh c) = Some c;
  access_of_refresh c : plain_refresh c -> unmarshal_access (marshal_refresh c) =
    Some (mkAccess (rc_UserID c) "" [] (rc_DeviceID c) (rc_SessionID c) (rc_Exp c) (rc_Iat c) (rc_JTI c));
  refresh_of_access c : plain_access c -> unmarshal_refresh (marshal_access c) =
    Some (mkRefresh (ac_UserID c) (ac_DeviceID c) (ac_SessionID c) (ac_Exp c) (ac_Iat c) (ac_JTI c))
}.

Section Jwt.
Context `{Hmac} `{ClaimsJSON}.

(** The signer is its secret. *)
Definition JWTSigner : Type := bytes.
Implicit Types j : JWTSigner.

Definition dq : string := String "034"%char "".

(** [json.Marshal(JWTHeader{Alg: "HS256", Typ: "JWT"})] *)
Definition headerJSON : bytes :=
  bytes_of ("{" +:+ dq +:+ "alg" +:+ dq +:+ ":" +:+ dq +:+ "HS256" +:+ dq +:+ "," +:+
            dq +:+ "typ" +:+ dq +:+ ":" +:+ dq +:+ "JWT" +:+ dq +:+ "}")%string.

Definition base64URLEncode (data : bytes) : string := encode_raw base64url data.
Definition base64URLDecode (s : string) : option bytes := decode_raw base64url s.

Definition sign j (payload : string) : string := base64URLEncode (hmac_sha256 j (bytes_of payload)).

Definition verify j (payload signature : string) : bool :=
  SecureCompare (bytes_of signature) (bytes_of (sign j payload)).

Definition dot : ascii := "."%char.

Definition payload_of (claimsJSON : bytes) : string :=
  (base64URLEncode headerJSON +:+ String dot (base64URLEncode claimsJSON))%string.

Definition seal j (claimsJSON : bytes) : string :=
  (payload_of claimsJSON +:+ String dot (sign j (payload_of claimsJSON)))%string.

Definition stamp_access (now : Z) (c : AccessClaims) : AccessClaims :=
  mkAccess (ac_UserID c) (ac_Username c) (ac_Roles c) (ac_DeviceID c) (ac_SessionID c) (now + AccessTokenTTL) now (ac_JTI c).
Definition stamp_refresh (now : Z) (c : RefreshClaims) : RefreshClaims :=
  mkRefresh (rc_UserID c) (rc_DeviceID c) (rc_SessionID c) (now + RefreshTokenTTL) now (rc_JTI c).

Definition GenerateAccessToken j (now : Z) (claims : AccessClaims) : string := seal j (marshal_access (stamp_access now claims)).
Definition GenerateRefreshToken j (now : Z) (claims : RefreshClaims) : string := seal j (marshal_refresh (stamp_refresh now claims)).

(** The checks before decoding: the bytes of the claims. *)
Definition open_token j (token : string) : Res bytes :=
  match split_char dot token with
  | [p0; p1; p2] =>
      if negb (verify j (p0 +:+ String dot p1)%string p2) then Err ErrInvalidSignature
      else match base64URLDecode p1 with Some claimsJSON => Ok claimsJSON | None => Err ErrInvalidToken end
  | _ => Err ErrInvalidToken
  end.

Definition ValidateAccessToken j (now : Z) (token : string) : Res AccessClaims :=
  claimsJSON ← open_token j token;
  match unmarshal_access claimsJSON with
  | None => Err ErrInvalidToken
  | Some claims => if ac_Exp claims <? now then Err ErrTokenExpired else Ok claims
  end.

Definition ValidateRefreshToken j (now : Z) (token : string) : Res RefreshClaims :=
  claimsJSON ← open_token j token;
  match unmarshal_refresh claimsJSON with
  | None => Err ErrInvalidToken
  | Some claims => if rc_Exp claims <? now then Err ErrTokenExpired else Ok claims
  end.

(** Random bytes, or the clock when they cannot be read. *)
Definition generateJTI (now : Z) : GoM Rand string := fun r =>
  match rand_read 16 r with
  | (Ok b, r') => (Ok (hex_encode b), r')
  | (_, r') => (Ok (pretty (now * 1000000000) +:+ "-" +:+ pretty now)%string, r')
  end.

Definition GenerateTokenPair j (now : Z) (userID username : string) (roles : list string) (deviceID sessionID : string) :
    GoM Rand TokenPair :=
  jti ← generateJTI now;
  let accessClaims := mkAccess userID username roles deviceID sessionID 0 0 jti in
  let refreshClaims := mkRefresh userID deviceID sessionID 0 0 (jti +:+ ":refresh")%string in
  mret (mkPair (GenerateAccessToken j now accessClaims) (GenerateRefreshToken j now refreshClaims) (now + AccessTokenTTL)).

(** ** Lemmas *)

Lemma encoded_no_dot b : no_sep dot (base64URLEncode b).
Proof. apply encoded_no_sep; [apply base64url_ok|]. vm_compute. reflexivity. Qed.

Lemma split_sealed j claims :
  split_char dot (seal j claims) = [base64URLEncode headerJSON; base64URLEncode claims; sign j (payload_of claims)].
Proof.
  unfold seal. set (s := sign j (payload_of claims)).
  assert (split_char dot s = [s]) as Es by (apply split_no_sep, encoded_no_dot).
  unfold payload_of. rewrite str_app_assoc, str_app_cons, split_app by apply encoded_no_dot.
  rewrite split_app by apply encoded_no_dot. by rewrite Es.
Qed.

Lemma open_sealed j claims : open_token j (seal j claims) = Ok claims.
Proof.
  unfold open_token. rewrite split_sealed. unfold verify. fold (payload_of claims). unfold SecureCompare.
  rewrite bool_decide_true by done. simpl. unfold base64URLDecode, base64URLEncode.
  by rewrite decode_raw_encode by apply base64url_ok.
Qed.

(** What [open_token] lets pass carries the signature of the secret. *)
Lemma open_signed j token claims : open_token j token = Ok claims ->
  exists header body, token = (header +:+ String dot body +:+ String dot (sign j (header +:+ String dot body)))%string /\
    base64URLDecode body = Some claims.
Proof.
  unfold open_token. intros E. pose proof (join_split dot token) as Ej.
  destruct (split_char dot token) as [|p0 [|p1 [|p2 [|]]]]; try done.
  destruct (verify j _ p2) eqn:Ev; [|done]. simpl in E. destruct (base64URLDecode p1) as [c|] eqn:Ed; [|done].
  injection E as ->. exists p0, p1. split; [|done]. unfold verify, SecureCompare in Ev. apply bool_decide_eq_true in Ev.
  apply bytes_of_inj in Ev. rewrite <-Ej. simpl. rewrite <-Ev. reflexivity.
Qed.

(** [Fact] A generated token is accepted with exactly the claims it was made of, the
    time of issue and the expiry filled in, until the expiry has passed, and is
    refused as expired from then on; a token is accepted only when it has three
    parts of which the last is the signature of the other two under the secret,
    and only before the expiry it carries.  The two kinds of token are not told
    apart: a refresh token passes as an access token of its user, without user
    name and roles, for seven days. *)
Theorem tokens_roundtrip j now now' ac rc :
  plain_access (stamp_access now ac) -> plain_refresh (stamp_refresh now rc) ->
  ValidateAccessToken j now' (GenerateAccessToken j now ac) =
    (if now + AccessTokenTTL <? now' then Err ErrTokenExpired else Ok (stamp_access now ac)) /\
  ValidateRefreshToken j now' (GenerateRefreshToken j now rc) =
    (if now + RefreshTokenTTL <? now' then Err ErrTokenExpired else Ok (stamp_refresh now rc)) /\
  ValidateAccessToken j now' (GenerateRefreshToken j now rc) =
    (if now + RefreshTokenTTL <? now' then Err ErrTokenExpired
     else Ok (mkAccess (rc_UserID rc) "" [] (rc_DeviceID rc) (rc_SessionID rc) (now + RefreshTokenTTL) now (rc_JTI rc))) /\
  (forall token claims, ValidateAccessToken j now' token = Ok claims ->
     now' <= ac_Exp claims /\
     exists header body data,
       token = (header +:+ String dot body +:+ String dot (sign j (header +:+ String dot body)))%string /\
       base64URLDecode body = Some data /\ unmarshal_access data = Some claims).
Proof.
  intros Ha Hr. unfold ValidateAccessToken, ValidateRefreshToken, GenerateAccessToken, GenerateRefreshToken.
  rewrite !open_sealed. cbn [mbind Res_bind]. rewrite access_access, refresh_refresh, access_of_refresh by done.
  split; [done|]. split; [done|]. split; [done|]. intros token claims E.
  destruct (open_token j token) as [data| | |] eqn:Eo; try done. cbn [mbind Res_bind] in E.
  destruct (unmarshal_access data) as [c|] eqn:Eu; [|done]. destruct (Z.ltb_spec (ac_Exp c) now'); [done|]. injection E as ->.
  split; [done|]. apply open_signed in Eo as (header & body & Et & Ed). by exists header, body, data.
Qed.
End Jwt.

(** ** Witness: a codec that writes the number of a claim in binary *)

Fixpoint positive_bytes (p : positive) : bytes :=
  match p with xH => [] | xO p => x00 :: positive_bytes p | xI p => x01 :: positive_bytes p end.

Fixpoint bytes_positive (b : bytes) : positive :=
  match b with [] => xH | x :: b => if decide (x = x00) then xO (bytes_positive b) else xI (bytes_positive b) end.

Lemma bytes_positive_bytes p : bytes_positive (positive_bytes p) = p.
Proof. induction p as [p IH|p IH|]; simpl; by rewrite ?IH. Qed.

Definition claim_fields : Type :=
  (string * string * list string * string) * (string * Z * Z * string) + (string * string * string) * (Z * Z * string).

Definition access_fields (c : AccessClaims) : claim_fields :=
  inl ((ac_UserID c, ac_Username c, ac_Roles c, ac_DeviceID c), (ac_SessionID c, ac_Exp c, ac_Iat c, ac_JTI c)).
Definition refresh_fields (c : RefreshClaims) : claim_fields :=
  inr ((rc_UserID c, rc_DeviceID c, rc_SessionID c), (rc_Exp c, rc_Iat c, rc_JTI c)).

Definition read_claims (b : bytes) : option claim_fields := decode (bytes_positive b).

Program Definition toy_claims : ClaimsJSON := {|
  plain_access _ := True; plain_refresh _ := True;
  marshal_access c := positive_bytes (encode (access_fields c));
  marshal_refresh c := positive_bytes (encode (refresh_fields c));
  unmarshal_access b := match read_claims b with
    | Some (inl ((u, n, ro, dv), (s, e, i, t))) => Some (mkAccess u n ro dv s e i t)
    | Some (inr ((u, dv, s), (e, i, t))) => Some (mkAccess u "" [] dv s e i t)
    | None => None
    end;
  unmarshal_refresh b := match read_claims b with
    | Some (inl ((u, n, ro, dv), (s, e, i, t))) => Some (mkRefresh u dv s e i t)
    | Some (inr ((u, dv, s), (e, i, t))) => Some (mkRefresh u dv s e i t)
    | None => None
    end
|}.
Next Obligation. intros c _. unfold read_claims. rewrite bytes_positive_bytes, decode_encode. by destruct c. Qed.
Next Obligation. intros c _. unfold read_claims. rewrite bytes_positive_bytes, decode_encode. by destruct c. Qed.
Next Obligation. intros c _. unfold read_claims. rewrite bytes_positive_bytes, decode_encode. by destruct c. Qed.
Next Obligation. intros c _. unfold read_claims. rewrite bytes_positive_bytes, decode_encode. by destruct c. Qed.

Section Witness.
#[local] Existing Instance toy_hmac.
#[local] Existing Instance toy_claims.

Definition some_access : AccessClaims := mkAccess "u" "ann" ["user"%string] "web" "s1" 0 0 "j".
Definition some_refresh : RefreshClaims := mkRefresh "u" "web" "s1" 0 0 "j:refresh".

Lemma tokens_witness :
  ValidateAccessToken [x41] 1000 (GenerateAccessToken [x41] 200 some_access) = Ok (stamp_access 200 some_access) /\
  ValidateAccessToken [x41] 1101 (GenerateAccessToken [x41] 200 some_access) = Err ErrTokenExpired.
Proof.
  destruct (@tokens_roundtrip toy_hmac toy_claims [x41] 200 1000 some_access some_refresh I I) as (E1 & _).
  destruct (@tokens_roundtrip toy_hmac toy_claims [x41] 200 1101 some_access some_refresh I I) as (E2 & _).
  split; [exact E1|exact E2].
Defined.
End Witness.
