(* ===== verification/Totp.v ===== *)
(** * One-time passwords and backup codes (internal/auth/totp.go)

    HMAC-SHA1 is an interface.  Letters are raised to upper case as ASCII. *)

From S2P Require Import Prelude GoStrings GoCrypto Crypto Encoding Util.

Definition TOTPDigits : Z := 6.
Definition TOTPTimeStep : Z := 30.
Definition TOTPSecretLen : nat := 20.

(** [hmac.New(sha1.New, key)], written to and summed. *)
Class HmacSha1 : Type := {
  hmac_sha1 : bytes -> bytes -> bytes;
  hmac_sha1_length : forall k m, length (hmac_sha1 k m) = 20%nat
}.

(** The skew, in time steps. *)
Definition TOTP : Type := Z.
Definition NewTOTP : TOTP := 1.
Definition SetSkew (skew : Z) : TOTP := skew.

Definition upper_char (c : ascii) : ascii :=
  let n := N_of_ascii c in if ((97 <=? n) && (n <=? 122))%N then ascii_of_N (n - 32) else c.

Fixpoint ToUpper (s : string) : string :=
  match s with "" => "" | String c s => String (upper_char c) (ToUpper s) end%string.

(** [url.QueryEscape] *)
Definition unreserved (c : ascii) : bool :=
  let n := N_of_ascii c in
  ((48 <=? n) && (n <=? 57) || (65 <=? n) && (n <=? 90) || (97 <=? n) && (n <=? 122) ||
   (n =? 45) || (n =? 95) || (n =? 46) || (n =? 126))%N.

Fixpoint QueryEscape (s : string) : string :=
  match s with
  | "" => ""
  | String c s =>
      (if unreserved c then String c ""
       else if bool_decide (c = " "%char) then "+"
       else String "%" (ToUpper (hex_encode [zb (Z.of_N (N_of_ascii c))]))) +:+ QueryEscape s
  end%string.

Definition GenerateSecret (username : string) : GoM Rand (string * string) :=
  secretBytes ← wrap "failed to generate secret" (RandomBytes TOTPSecretLen);
  let secret := encode_padded base32std secretBytes in
  let otpauthURL := ("otpauth://totp/VaultDrift:" +:+ QueryEscape username +:+ "?secret=" +:+ secret +:+ "&issuer=VaultDrift")%string in
  mret (secret, otpauthURL).

Fixpoint pow10 (n : nat) : Z := match n with O => 1 | S n => pow10 n * 10 end.

(** The XOR of all bytes, after a comparison of the lengths. *)
Definition subtleConstantTimeCompare (a b : string) : bool :=
  if negb (len a =? len b)%nat then false else xor_diff (bytes_of a) (bytes_of b) 0 =? 0.

(** [binary.BigEndian.PutUint64] *)
Definition counter_bytes (timeStep : Z) : bytes := be 8 timeStep.

(** [%0*d] of a number below 10^width. *)
Definition dec_digit (z : Z) : ascii := default "0"%char (str_get "0123456789" (Z.to_nat z)).

Fixpoint zero_padded (width : nat) (z : Z) : string :=
  match width with O => "" | S w => zero_padded w (z / 10) +:+ String (dec_digit (z mod 10)) "" end%string.

Section Totp.
Context `{HmacSha1}.

(** [hash[i]] and [hash[i:i+4]] with their bounds checks. *)
Definition truncate (hash : bytes) : Res Z :=
  last ← match hash !! (length hash - 1)%nat with Some x => Ok (bz x) | None => Panic "index out of range" end;
  let offset := Z.to_nat (Z.land last 0x0f) in
  if (offset + 4 <=? length hash)%nat
  then Ok (Z.land (be32_of (take 4 (drop offset hash))) 0x7fffffff mod pow10 (Z.to_nat TOTPDigits))
  else Panic "slice bounds out of range".

Definition generateTOTP (secret : bytes) (timeStep : Z) : Res string :=
  let timeStep := if timeStep <? 0 then 0 else timeStep in
  let hash := hmac_sha1 secret (counter_bytes timeStep) in
  code ← truncate hash;
  Ok (zero_padded (Z.to_nat TOTPDigits) code).

(** The loop over the time steps from [i] on, [n] of them. *)
Fixpoint try_steps (secret : bytes) (code : string) (step i : Z) (n : nat) : Res bool :=
  match n with
  | O => Ok false
  | S n =>
      expectedCode ← generateTOTP secret (step + i);
      if subtleConstantTimeCompare code expectedCode then Ok true else try_steps secret code step (i + 1) n
  end.

Definition ValidateCode (skew : TOTP) (now : Z) (secret code : string) : Res bool :=
  let code := ReplaceAll code " " "" in
  if negb (Z.of_nat (len code) =? TOTPDigits) then Ok false
  else match decode_padded base32std (ToUpper secret) with
       | None => Ok false
       | Some secretBytes => try_steps secretBytes code (Z.quot now TOTPTimeStep) (- skew) (Z.to_nat (2 * skew + 1))
       end.

Definition GenerateCode (now : Z) (secret : string) : Res string :=
  match decode_padded base32std (ToUpper secret) with
  | None => Err (Errorf "illegal base32 data")
  | Some secretBytes => generateTOTP secretBytes (Z.quot now TOTPTimeStep)
  end.
End Totp.

(** ** Backup codes *)

Record BackupCode := mkBackup { bc_Code : string; bc_Used : bool; bc_UsedAt : option Z }.

Definition backup_text (b : bytes) : string :=
  let hex := hex_encode b in
  (str_take 4 hex +:+ "-" +:+ str_take 4 (str_drop 4 hex) +:+ "-" +:+ str_take 4 (str_drop 8 hex) +:+ "-" +:+ str_take 4 (str_drop 12 hex))%string.

Fixpoint backup_loop (n : nat) : GoM Rand (list string) :=
  match n with
  | O => mret []
  | S n => b ← RandomBytes 8; codes ← backup_loop n; mret (backup_text b :: codes)
  end.

Definition GenerateBackupCodes : GoM Rand (list string) := backup_loop 10.

Fixpoint find_backup (i : Z) (code : string) (codes : list BackupCode) : Z :=
  match codes with
  | [] => -1
  | bc :: codes =>
      if bc_Used bc then find_backup (i + 1) code codes
      else if subtleConstantTimeCompare code (ReplaceAll (ToUpper (bc_Code bc)) "-" "") then i
      else find_backup (i + 1) code codes
  end.

Definition ValidateBackupCode (code : string) (codes : list BackupCode) : Z :=
  let code := ReplaceAll (ToUpper code) " " "" in
  let code := ReplaceAll code "-" "" in
  find_backup 0 code codes.

(** ** Lemmas *)

Lemma xor_diff_zero a b v : length a = length b -> 0 <= v -> xor_diff a b v = 0 <-> v = 0 /\ a = b.
Proof.
  revert b v. induction a as [|x a IH]; intros [|y b] v Hl Hv; try done; simpl; [tauto|].
  simpl in Hl. injection Hl as Hl. pose proof (bz_range x). pose proof (bz_range y).
  rewrite IH; [|done|apply Z.lor_nonneg; split; [done|]; apply Z.lxor_nonneg; lia].
  rewrite Z.lor_eq_0_iff, Z.lxor_eq_0_iff. split.
  - intros [[-> E] ->]. split; [done|]. rewrite <-(zb_bz x), <-(zb_bz y). by rewrite E.
  - intros [-> [= -> ->]]. done.
Qed.

Lemma bytes_of_length s : length (bytes_of s) = len s.
Proof. unfold bytes_of, String.list_byte_of_string. rewrite length_map. induction s as [|c s IH]; simpl; [done|]. by rewrite IH. Qed.

Lemma constant_time_compare a b : subtleConstantTimeCompare a b = bool_decide (a = b).
Proof.
  unfold subtleConstantTimeCompare. destruct (Nat.eqb_spec (len a) (len b)) as [E|E]; simpl.
  - pose proof (xor_diff_zero (bytes_of a) (bytes_of b) 0) as Hx. rewrite !bytes_of_length in Hx.
    specialize (Hx E ltac:(lia)). case_bool_decide as Hab.
    + subst. apply Z.eqb_eq. by apply Hx.
    + apply Z.eqb_neq. intros E0. apply Hx in E0 as [_ E0]. by apply bytes_of_inj in E0.
  - symmetry. apply bool_decide_eq_false. congruence.
Qed.

Lemma zero_padded_len w z : len (zero_padded w z) = w.
Proof. revert z. induction w as [|w IH]; intros z; simpl; [done|]. rewrite len_app, IH. simpl. lia. Qed.

Lemma ReplaceAll_app s t c new : ReplaceAll (s +:+ t) c new = (ReplaceAll s c new +:+ ReplaceAll t c new)%string.
Proof. induction s as [|d s IH]; [done|]. str_simpl. by rewrite IH, str_app_assoc. Qed.

Lemma zero_padded_no_space w z : ReplaceAll (zero_padded w z) " " "" = zero_padded w z.
Proof.
  revert z. induction w as [|w IH]; intros z; simpl; [done|]. rewrite ReplaceAll_app, IH. f_equal.
  unfold dec_digit. generalize (Z.to_nat (z mod 10)). intros n. do 10 (destruct n as [|n]; [reflexivity|]). reflexivity.
Qed.

Lemma base32_upper b : ToUpper (encode_padded base32std b) = encode_padded base32std b.
Proof.
  assert (forall s, Forall (fun c => upper_char c = c) (chars s) -> ToUpper s = s) as Hup.
  { intros s. induction s as [|c s IH]; simpl; [done|]. intros [-> Hs]%Forall_cons. by rewrite IH. }
  apply Hup. unfold encode_padded.
  assert (chars (encode_raw base32std b +:+ repeat_char "=" (pad_len base32std (len (encode_raw base32std b)))) =
          chars (encode_raw base32std b) ++ replicate (pad_len base32std (len (encode_raw base32std b))) "="%char) as ->.
  { generalize (pad_len base32std (len (encode_raw base32std b))). intros n. generalize (encode_raw base32std b). intros s.
    induction s as [|c s IH]; str_simpl; [|by rewrite IH]. induction n as [|n IH]; simpl; [done|]. by rewrite IH. }
  apply Forall_app. split; [|by apply Forall_replicate]. unfold encode_raw. rewrite chars_text.
  pose proof (digits_range 5 (bits_of_bytes b) ltac:(lia)) as Hr. simpl width.
  induction Hr as [|d ds Hd Hds IH]; [constructor|]. simpl. constructor; [|done].
  assert (forallb (fun n => bool_decide (upper_char (digit_char base32std (Z.of_nat n)) = digit_char base32std (Z.of_nat n))) (seq 0 32) = true)
    as HA by (vm_compute; reflexivity).
  rewrite forallb_forall in HA. specialize (HA (Z.to_nat d) ltac:(apply in_seq; lia)). rewrite Z2Nat.id in HA by lia.
  by apply bool_decide_eq_true in HA.
Qed.

Section TotpProofs.
Context `{HmacSha1}.

(** Every code is computed: the offset stays inside the digest. *)
Lemma generateTOTP_ok secret step : exists z, 0 <= z < 10 ^ 6 /\ generateTOTP secret step = Ok (zero_padded 6 z).
Proof.
  unfold generateTOTP. set (hash := hmac_sha1 secret _). pose proof (hmac_sha1_length secret (counter_bytes (if step <? 0 then 0 else step))) as Hl.
  fold hash in Hl. unfold truncate. rewrite Hl. simpl.
  destruct (lookup_lt_is_Some_2 hash 19 ltac:(lia)) as [x ->]. simpl.
  change 15 with (Z.ones 4). rewrite Z.land_ones by lia. pose proof (Z.mod_pos_bound (bz x) (2 ^ 4) ltac:(lia)) as Hm.
  destruct (Nat.leb_spec (Z.to_nat (bz x mod 2 ^ 4) + 4) 20) as [_|Hgt]; [|lia]. simpl.
  eexists. split; [|done]. change (pow10 (Z.to_nat TOTPDigits)) with 1000000. apply Z.mod_pos_bound. lia.
Qed.

Lemma try_steps_spec secret code step i n : exists b, try_steps secret code step i n = Ok b /\
  (b = true <-> exists k, i <= k < i + Z.of_nat n /\ generateTOTP secret (step + k) = Ok code).
Proof.
  revert i. induction n as [|n IH]; intros i; cbn [try_steps].
  { exists false. split; [done|]. split; [done|]. intros (k & Hk & _). lia. }
  destruct (generateTOTP_ok secret (step + i)) as (z & _ & E). rewrite E. cbn [mbind Res_bind].
  rewrite constant_time_compare. case_bool_decide as Hc.
  - exists true. split; [done|]. split; [|done]. intros _. exists i. split; [lia|]. by rewrite E, <-Hc.
  - destruct (IH (i + 1)) as (b & Eb & Hb). exists b. split; [done|]. rewrite Hb. split.
    + intros (k & Hk & Ek). exists k. split; [lia|done].
    + intros (k & Hk & Ek). exists k. destruct (decide (k = i)) as [->|]; [congruence|]. split; [lia|done].
Qed.

(** [Fact] For a secret that was generated, a code is accepted exactly when, spaces
    removed, it is the six-digit code of a time step within the allowed skew of
    the current one; the code that is generated for the current time is accepted;
    and no secret, code or time makes validation panic. *)
Theorem ValidateCode_window username r secret url r' skew now code :
  GenerateSecret username r = (Ok (secret, url), r') -> 0 <= skew ->
  (exists key, decode_padded base32std (ToUpper secret) = Some key /\ length key = TOTPSecretLen /\
    (exists b, ValidateCode skew now secret code = Ok b /\
      (b = true <-> len (ReplaceAll code " " "") = 6%nat /\
         exists k, - skew <= k <= skew /\ generateTOTP key (Z.quot now TOTPTimeStep + k) = Ok (ReplaceAll code " " "")))) /\
  (exists c, GenerateCode now secret = Ok c /\ len c = 6%nat /\ ValidateCode skew now secret c = Ok true) /\
  (forall any, exists b, ValidateCode skew now any code = Ok b).
Proof.
  intros E Hskew. unfold GenerateSecret, RandomBytes in E. apply bind_ok_inv in E as (key & r1 & E1 & E).
  injection E as <- <- _. assert (length key = TOTPSecretLen) as Hl.
  { unfold wrap in E1. destruct (rand_read TOTPSecretLen r) as [[b| | |] r2] eqn:Er; try done. injection E1 as <- <-.
    by apply rand_read_length in Er. }
  assert (decode_padded base32std (ToUpper (encode_padded base32std key)) = Some key) as Hd.
  { rewrite base32_upper. apply decode_padded_encode, base32std_ok. }
  assert (forall code, exists b, ValidateCode skew now (encode_padded base32std key) code = Ok b /\
    (b = true <-> len (ReplaceAll code " " "") = 6%nat /\
       exists k, - skew <= k <= skew /\ generateTOTP key (Z.quot now TOTPTimeStep + k) = Ok (ReplaceAll code " " ""))) as Hv.
  { intros c. unfold ValidateCode. rewrite Hd. destruct (Z.eqb_spec (Z.of_nat (len (ReplaceAll c " " ""))) TOTPDigits) as [E6|E6]; cbn [negb].
    - destruct (try_steps_spec key (ReplaceAll c " " "") (Z.quot now TOTPTimeStep) (- skew) (Z.to_nat (2 * skew + 1))) as (b & Eb & Hb).
      exists b. split; [done|]. rewrite Hb. unfold TOTPDigits in E6. split.
      + intros (k & Hk & Ek). split; [lia|]. exists k. split; [lia|done].
      + intros (_ & k & Hk & Ek). exists k. split; [lia|done].
    - exists false. split; [done|]. split; [done|]. unfold TOTPDigits in E6. intros [E' _]. lia. }
  split; [exists key; split_and!; [done|done|apply Hv]|]. split.
  - destruct (generateTOTP_ok key (Z.quot now TOTPTimeStep)) as (z & _ & Eg).
    exists (zero_padded 6 z). unfold GenerateCode. rewrite Hd. split; [done|]. split; [apply zero_padded_len|].
    destruct (Hv (zero_padded 6 z)) as (b & Eb & Hb). rewrite Eb. f_equal. apply Hb. rewrite zero_padded_no_space.
    split; [apply zero_padded_len|].
    exists 0. split; [lia|]. by rewrite Z.add_0_r.
  - intros any. unfold ValidateCode. destruct (negb _); [eauto|].
    destruct (decode_padded base32std (ToUpper any)) as [k|]; [|eauto].
    destruct (try_steps_spec k (ReplaceAll code " " "") (Z.quot now TOTPTimeStep) (- skew) (Z.to_nat (2 * skew + 1))) as (b & Eb & _). eauto.
Qed.
End TotpProofs.

(** ** Witness *)

Program Definition toy_sha1 : HmacSha1 := {|
  hmac_sha1 k m := map (fun i => zb (toy_sum (k ++ m) / 2 ^ (8 * Z.of_nat (i mod 8)) + Z.of_nat i)) (seq 0 20)
|}.
Next Obligation. reflexivity. Qed.

Section Witness.
#[local] Existing Instance toy_sha1.

Lemma ValidateCode_witness :
  exists secret c, GenerateCode 1000 secret = Ok c /\ ValidateCode 1 1000 secret c = Ok true.
Proof.
  destruct (GenerateSecret "ann" toy_rand) as [[[secret url]| | |] r'] eqn:E; [|discriminate E|discriminate E|discriminate E].
  destruct (@ValidateCode_window toy_sha1 "ann" toy_rand secret url r' 1 1000 "000000" E ltac:(lia)) as (_ & (c & Ec & _ & Ev) & _).
  exists secret, c. split; [exact Ec|exact Ev].
Defined.
End Witness.
