(* ===== verification/ApiTokens.v ===== *)
(** * API tokens (internal/auth/token.go) *)

From S2P Require Import Prelude GoStrings GoCrypto Crypto Encoding Util Database Devices Users.

Definition APITokenPrefix : string := "vd_".
Definition APITokenLength : nat := 48.

Record GenerateTokenResult := mkTokenResult {
  gt_Token : string; gt_TokenID : string; gt_Name : string; gt_UserID : string; gt_Permissions : list string; gt_ExpiresAt : option Z
}.

(** The state of the authentication services: the tables and the generator of
    identifiers. *)
Record TokenWorld := mkTokenWorld { tw_db : AuthDB; tw_ids : Ids }.

Definition on_tables {A} (m : GoM AuthDB A) : GoM TokenWorld A := fun w =>
  let '(r, d) := m (tw_db w) in (r, mkTokenWorld d (tw_ids w)).

(** Random bytes come from the source that the database state carries. *)
Definition on_random {A} (m : GoM (Ids * Rand) A) : GoM TokenWorld A := fun w =>
  let d := base (tw_db w) in
  let '(r, (ids, rnd)) := m (tw_ids w, db_rand d) in
  (r, mkTokenWorld (mkExt (with_rand rnd d) (tab (tw_db w))) ids).

Definition token_now : GoM TokenWorld Z := on_tables tab_now.

(** [util.GenerateUUID()]; the clock in milliseconds. *)
Definition new_uuid : GoM TokenWorld string := t ← token_now; on_random (GenerateUUID (1000 * t)).

Definition only_rand {A} (m : GoM Rand A) : GoM (Ids * Rand) A := fun w => let '(r, x) := m w.2 in (r, (w.1, x)).

(** ** Permissions *)

Definition admin_permissions : list string :=
  ["file:read:all"; "file:write:all"; "file:delete:all"; "folder:read:all"; "folder:write:all"; "folder:delete:all";
   "share:read:all"; "share:write:all"; "share:delete:all"; "user:read:all"; "user:write:all"; "user:delete:all";
   "system:manage:all"]%string.
Definition user_permissions : list string :=
  ["file:read:own"; "file:write:own"; "file:delete:own"; "file:read:group"; "folder:read:own"; "folder:write:own";
   "folder:delete:own"; "folder:read:group"; "share:read:own"; "share:write:own"; "share:delete:own"; "share:read:group";
   "user:read:own"; "user:write:own"]%string.
Definition guest_permissions : list string := ["file:read:group"; "folder:read:group"]%string.

Definition getUserAvailablePermissions (user : User) : list string :=
  if bool_decide (u_Role user = "admin"%string) then admin_permissions
  else if bool_decide (u_Role user = "user"%string) then user_permissions
  else if bool_decide (u_Role user = "guest"%string) then guest_permissions
  else [].

Definition filterValidPermissions (requested available : list string) : list string :=
  match requested with [] => available | _ => filter (fun p => p ∈ available) requested end.

Definition ParsePermission (perm : string) : Res (string * string * string) :=
  match split_char ":"%char perm with
  | [resource; action; scope] => Ok (resource, action, scope)
  | _ => Err (Errorf ("invalid permission format: " +:+ perm))
  end.

Definition FormatPermission (resource action scope : string) : string := (resource +:+ ":" +:+ action +:+ ":" +:+ scope)%string.

Definition grants (requested p : string) : bool :=
  bool_decide (p = requested) ||
  ((HasSuffix p ":*" || HasSuffix p ":manage:*") && HasPrefix requested (TrimSuffix p "*")).

Definition HasPermission (permissions : list string) (resource action scope : string) : bool :=
  let requested := FormatPermission resource action scope in existsb (grants requested) permissions.

(** ** Tokens *)

Section Tokens.
Context `{HashFn}.

Definition hashToken (token : string) : string := hex_encode (sha256 (bytes_of token)).

Definition generateRawToken : GoM Rand string :=
  randomBytes ← RandomBytes 32;
  let tokenPart := Base64URLEncode randomBytes in
  let wanted := (APITokenLength - len APITokenPrefix)%nat in
  if (len tokenPart <? wanted)%nat then fail (Errorf "token generation failed")
  else
    let tokenPart := if (wanted <? len tokenPart)%nat then str_take wanted tokenPart else tokenPart in
    mret (APITokenPrefix +:+ tokenPart)%string.

Definition GenerateToken (userID name : string) (permissions : list string) : GoM TokenWorld GenerateTokenResult :=
  if bool_decide (name = ""%string) then fail (Errorf "token name is required")
  else
    user ← wrap "user not found" (on_tables (GetUserByID userID));
    let userPerms := getUserAvailablePermissions user in
    let validPerms := filterValidPermissions permissions userPerms in
    if bool_decide (length validPerms = 0%nat) && bool_decide (0 < length permissions)%nat
    then fail (Errorf "no valid permissions requested")
    else
      tokenID ← new_uuid;
      rawToken ← wrap "failed to generate token" (on_random (only_rand generateRawToken));
      let tokenHash := hashToken rawToken in
      now ← token_now;
      wrap "failed to store token"
        (on_tables (CreateAPIToken (mkToken tokenID userID name tokenHash validPerms None None now)));;
      mret (mkTokenResult rawToken tokenID name userID validPerms None).

Definition ValidateToken (token : string) : GoM TokenWorld (User * list string) :=
  if negb (HasPrefix token APITokenPrefix) then fail ErrInvalidAPIToken
  else
    tokenRecord ← instead ErrInvalidAPIToken (on_tables (GetAPITokenByHash (hashToken token)));
    now ← token_now;
    if match tk_ExpiresAt tokenRecord with Some e => e <? now | None => false end then fail ErrAPITokenExpired
    else
      user ← wrap "token user not found" (on_tables (GetUserByID (tk_UserID tokenRecord)));
      ignore (on_tables (UpdateAPITokenLastUsed (tk_ID tokenRecord) now));;
      mret (user, tk_Permissions tokenRecord).

Definition RevokeToken (tokenID : string) : GoM TokenWorld unit := on_tables (DeleteAPIToken tokenID).
Definition RevokeAllUserTokens (userID : string) : GoM TokenWorld unit := on_tables (DeleteAPITokensByUser userID).
Definition ListUserTokens (userID : string) : GoM TokenWorld (list APIToken) := on_tables (ListAPITokensByUser userID).

(** ** Lemmas *)

(** 32 bytes are 43 characters, two fewer than a token needs. *)
Lemma token_part_length b : length b = 32%nat -> len (Base64URLEncode b) = 43%nat.
Proof. intros Hb. pose proof (encode_raw_length base64url base64url_ok b) as Hl. unfold Base64URLEncode. simpl width in Hl. lia. Qed.

Lemma generateRawToken_fails r a : (generateRawToken r).1 <> Ok a.
Proof.
  unfold generateRawToken, RandomBytes, wrap, mbind, GoM_bind.
  destruct (rand_read 32 r) as [[b|e|m|] r'] eqn:E; simpl; try done. apply rand_read_length in E.
  by rewrite token_part_length.
Qed.

(** Computations on which the rows of the further tables do not depend. *)
Definition rows_kept {A} (m : GoM TokenWorld A) : Prop := forall t, preserves (fun w => tab (tw_db w) = t) m.

Lemma kept_scan {A} a b (q : AuthDB -> option A) : rows_kept (on_tables (tab_scan a b q)).
Proof.
  intros t w <-. unfold on_tables, tab_scan, attempt, tab_query, mbind, GoM_bind. destruct (next_fault _) as [[] l]; simpl; [done|].
  by destruct (q _).
Qed.

Lemma kept_random {A} (m : GoM (Ids * Rand) A) : rows_kept (on_random m).
Proof. intros t w <-. unfold on_random. by destruct (m _) as [r [ids rnd]]. Qed.

Lemma kept_now : rows_kept token_now.
Proof. by intros t w <-. Qed.

Lemma kept_uuid : rows_kept new_uuid.
Proof. intros t. apply preserves_bind; [apply kept_now|]. intros ?. apply kept_random. Qed.

Lemma ok_bind_inv {W A B} (m : GoM W A) (k : A -> GoM W B) w b : ((m ≫= k) w).1 = Ok b -> exists a w1, m w = (Ok a, w1) /\ (k a w1).1 = Ok b.
Proof.
  destruct ((m ≫= k) w) as [r w'] eqn:E. simpl. intros ->. apply bind_ok_inv in E as (a & w1 & E1 & E2). exists a, w1. by rewrite E2.
Qed.

(** [Fact] Requests for API tokens never succeed: whatever the user, name,
    permissions, clock, random source and driver, GenerateToken yields no token
    and stores nothing -- 32 random bytes are 43 characters in base64, two short
    of the length the code insists on.  So long as the table of tokens is empty,
    every token is refused, and no API token ever admits anybody. *)
Theorem GenerateToken_always_fails userID name permissions token w :
  (forall result, (GenerateToken userID name permissions w).1 <> Ok result) /\
  tab (tw_db (GenerateToken userID name permissions w).2) = tab (tw_db w) /\
  (t_tokens (tab (tw_db w)) = ∅ -> (ValidateToken token w).1 = Err ErrInvalidAPIToken).
Proof.
  assert (forall result w, (wrap "failed to generate token" (on_random (only_rand generateRawToken)) w).1 <> Ok result) as Hraw.
  { intros result w1. unfold wrap, on_random, only_rand. simpl. pose proof (generateRawToken_fails (db_rand (base (tw_db w1)))) as Hf.
    destruct (generateRawToken _) as [[a0| | |] r1]; simpl in *; [intros _; by apply (Hf a0)|done..]. }
  split; [|split].
  - intros result E. unfold GenerateToken in E. destruct (bool_decide _); [done|].
    apply ok_bind_inv in E as (user & w1 & _ & E). destruct (_ && _); [done|].
    apply ok_bind_inv in E as (id & w2 & _ & E). apply ok_bind_inv in E as (raw & w3 & E & _).
    apply (Hraw raw w2). by rewrite E.
  - assert (preserves (fun w' => tab (tw_db w') = tab (tw_db w)) (GenerateToken userID name permissions)) as Hp; [|by apply Hp].
    unfold GenerateToken. destruct (bool_decide _); [apply preserves_ret|].
    apply preserves_bind; [apply preserves_wrap, kept_scan|]. intros user. destruct (_ && _); [apply preserves_ret|].
    apply preserves_bind; [apply kept_uuid|]. intros id w1 Hw1.
    pose proof (kept_random (only_rand generateRawToken) _ w1 Hw1) as Hk.
    pose proof (Hraw) as Hr. unfold mbind, GoM_bind, wrap in Hr |- *.
    destruct (on_random (only_rand generateRawToken) w1) as [[raw|e|m|] w2] eqn:E; simpl in *; try done.
    destruct (Hr raw w1). by rewrite E.
  - intros He. unfold ValidateToken. destruct (negb _); [done|].
    assert (exists w', instead ErrInvalidAPIToken (on_tables (GetAPITokenByHash (hashToken token))) w = (Err ErrInvalidAPIToken, w')) as [w' Ei].
    { unfold instead, on_tables, GetAPITokenByHash, tab_scan, attempt, tab_query, mbind, GoM_bind.
      destruct (next_fault (db_faults (base (tw_db w)))) as [[] l]; simpl; [eauto|]. rewrite He. simpl. eauto. }
    by rewrite (bind_err _ _ _ _ _ Ei).
Qed.
End Tokens.

Section Witness.
#[local] Existing Instance toy_hash.

Definition no_tokens : TokenWorld :=
  mkTokenWorld (mkExt (mkDB ∅ ∅ ∅ ∅ 100 toy_rand [] true) (mkAuthTables ∅ ∅ ∅)) (mkIds 0 0).

Lemma GenerateToken_witness : (ValidateToken "vd_abc" no_tokens).1 = Err ErrInvalidAPIToken.
Proof. exact (proj2 (proj2 (GenerateToken_always_fails "u" "ci" [] "vd_abc" no_tokens)) eq_refl). Defined.
End Witness.
