(* ===== verification/AuthService.v ===== *)
(** * Login, refresh and logout (internal/auth/auth.go)

    The service keeps failed attempts and pending second factors in memory and
    sessions in the database.  Durations are nanoseconds of a 64-bit integer;
    sleeping moves the clock.  Password hashing and the JSON of the claims are
    those of the other files. *)

From S2P Require Import Prelude GoStrings GoCrypto Crypto Encoding Util Database Devices Users ApiTokens Password Jwt Totp.

Record BruteForceConfig := mkBrute { MaxAttempts : Z; LockoutDuration : Z; ProgressiveDelay : bool }.

Definition Second : Z := 1000000000.
Definition Minute : Z := 60 * Second.

Definition DefaultBruteForceConfig : BruteForceConfig := mkBrute 5 (15 * Minute) true.

Record FailedAttempt := mkAttempt { fa_Count : Z; fa_LastFailed : Z; fa_LockedUntil : option Z }.

Record totpSession := mkTotpSession { ts_UserID : string; ts_CreatedAt : Z }.

Record LoginResult := mkLogin {
  lr_Tokens : option TokenPair; lr_SessionID : string; lr_RequiresTOTP : bool; lr_TOTPSession : string
}.

(** The service: its tables and generator, and its two maps in memory. *)
Record Service := mkService {
  sv_world : TokenWorld; sv_failedAttempts : gmap string FailedAttempt; sv_totpSessions : gmap string totpSession
}.

Definition on_world {A} (m : GoM TokenWorld A) : GoM Service A := fun s =>
  let '(r, w) := m (sv_world s) in (r, mkService w (sv_failedAttempts s) (sv_totpSessions s)).
Definition on_auth {A} (m : GoM AuthDB A) : GoM Service A := on_world (on_tables m).

Definition service_now : GoM Service Z := on_world token_now.
Definition service_uuid : GoM Service string := on_world new_uuid.

Definition set_attempts (m : gmap string FailedAttempt) : GoM Service unit := fun s =>
  (Ok tt, mkService (sv_world s) m (sv_totpSessions s)).
Definition set_totp (m : gmap string totpSession) : GoM Service unit := fun s =>
  (Ok tt, mkService (sv_world s) (sv_failedAttempts s) m).

(** [time.Sleep]: the clock of the tables counts seconds. *)
Definition sleep (delay : Z) : GoM Service unit := fun s =>
  let w := sv_world s in
  let d := base (tw_db w) in
  let d' := mkDB (db_users d) (db_files d) (db_manifests d) (db_chunks d) (db_now d + delay / Second) (db_rand d)
              (db_faults d) (db_fk d) in
  (Ok tt, mkService (mkTokenWorld (mkExt d' (tab (tw_db w))) (tw_ids w)) (sv_failedAttempts s) (sv_totpSessions s)).

Section Auth.
Context `{Hmac} `{HashFn} `{Sha512} `{ClaimsJSON} `{HmacSha1}.
Context (bruteConfig : BruteForceConfig) (jwtSecret : bytes) (totp : TOTP) (sessionTTL : Z).

(** ** Brute-force protection *)

(** [time.Duration(1<<count) * time.Second] in 64 bits. *)
Definition progressive (count : Z) : Z := i64 (i64 (Z.shiftl 1 count) * Second).

Definition checkBruteForce (username : string) : GoM Service Z := fun s =>
  let now := db_now (base (tw_db (sv_world s))) in
  (Ok (match sv_failedAttempts s !! username with
       | None => 0
       | Some attempt =>
           if fa_Count attempt =? 0 then 0
           else if match fa_LockedUntil attempt with Some u => now * Second <? u | None => false end
           then LockoutDuration bruteConfig
           else if ProgressiveDelay bruteConfig then
             let delay := progressive (fa_Count attempt) in
             if 30 * Second <? delay then 30 * Second else delay
           else 0
       end), s).

Definition failed_again (now : Z) (attempt : option FailedAttempt) : FailedAttempt :=
  let count := i64 (match attempt with Some a => fa_Count a | None => 0 end + 1) in
  let locked := match attempt with Some a => fa_LockedUntil a | None => None end in
  mkAttempt count now
    (if MaxAttempts bruteConfig <=? count then Some (now * Second + LockoutDuration bruteConfig) else locked).

Definition recordFailedAttempt (username : string) : GoM Service unit :=
  now ← service_now;
  s ← get_w;
  set_attempts (<[username := failed_again now (sv_failedAttempts s !! username)]> (sv_failedAttempts s)).

Definition clearFailedAttempts (username : string) : GoM Service unit :=
  s ← get_w; set_attempts (delete username (sv_failedAttempts s)).

(** One tick of [cleanupFailedAttempts]. *)
Definition cleanupFailedAttempts_tick : GoM Service unit :=
  now ← service_now;
  s ← get_w;
  let cutoff := now - 24 * 3600 in
  set_attempts (filter (fun kv => cutoff <= fa_LastFailed kv.2) (sv_failedAttempts s)).

(** ** Pending second factors *)

Definition createTOTPSession (userID : string) : GoM Service string :=
  sessionID ← service_uuid;
  now ← service_now;
  s ← get_w;
  set_totp (<[sessionID := mkTotpSession userID now]> (sv_totpSessions s));;
  mret sessionID.

Definition verifyTOTPSession (sessionID : string) : GoM Service (string * bool) :=
  s ← get_w;
  match sv_totpSessions s !! sessionID with
  | None => mret (""%string, false)
  | Some session =>
      now ← service_now;
      if 5 * 60 <? now - ts_CreatedAt session then
        set_totp (delete sessionID (sv_totpSessions s));; mret (""%string, false)
      else mret (ts_UserID session, true)
  end.

Definition clearTOTPSession (sessionID : string) : GoM Service unit :=
  s ← get_w; set_totp (delete sessionID (sv_totpSessions s)).

(** One tick of [cleanupTOTPSessions]. *)
Definition cleanupTOTPSessions_tick : GoM Service unit :=
  now ← service_now;
  s ← get_w;
  let cutoff := now - 10 * 60 in
  set_totp (filter (fun kv => cutoff <= ts_CreatedAt kv.2) (sv_totpSessions s)).

(** ** Login *)

(** The session row and the tokens at the end of both logins. *)
Definition open_session (user : User) (deviceName deviceType ipAddress userAgent : string) : GoM Service LoginResult :=
  sessionID ← service_uuid;
  refresh ← service_uuid;
  now ← service_now;
  let session := mkSessionRow sessionID (u_ID user) refresh deviceName deviceType ipAddress userAgent now
                   (now + sessionTTL) now in
  wrap "failed to create session" (on_auth (CreateSession session));;
  now ← service_now;
  ignore (on_auth (UpdateUser (u_ID user) [W_last_login_at now]));;
  tokens ← on_world (on_random (only_rand
    (GenerateTokenPair jwtSecret now (u_ID user) (u_Username user) [u_Role user] deviceName sessionID)));
  mret (mkLogin (Some tokens) sessionID false "").

Definition Login (username password deviceName deviceType ipAddress userAgent : string) : GoM Service LoginResult :=
  delay ← checkBruteForce username;
  (if 0 <? delay then sleep delay else mret tt);;
  r ← attempt (on_auth (GetUserByUsername username));
  match r with
  | inr _ => recordFailedAttempt username;; fail ErrInvalidCredentials
  | inl user =>
      if bool_decide (u_Status user = "disabled"%string) then fail ErrUserDisabled
      else if bool_decide (u_Status user = "locked"%string) then fail ErrUserLocked
      else
        v ← attempt (lift (VerifyPassword password (u_PasswordHash user)));
        match v with
        | inr _ | inl false => recordFailedAttempt username;; fail ErrInvalidCredentials
        | inl true =>
            clearFailedAttempts username;;
            if u_PasswordChangeRequired user then fail ErrPasswordChangeRequired
            else if u_TOTPEnabled user && bool_decide (is_Some (u_TOTPSecret user)) then
              t ← createTOTPSession (u_ID user);
              mret (mkLogin None "" true t)
            else open_session user deviceName deviceType ipAddress userAgent
        end
  end.

Definition LoginWithTOTP (tempSessionID totpCode deviceName deviceType ipAddress userAgent : string) : GoM Service LoginResult :=
  p ← verifyTOTPSession tempSessionID;
  let '(userID, valid) := (p : string * bool) in
  if negb valid then fail ErrInvalidSession
  else
    user ← instead ErrInvalidSession (on_auth (GetUserByID userID));
    secret ← match u_TOTPSecret user with
             | Some s => mret s
             | None => panic "invalid memory address or nil pointer dereference"
             end;
    now ← service_now;
    ok ← lift (ValidateCode totp now secret totpCode);
    if negb ok then fail ErrInvalidTOTP
    else
      clearTOTPSession tempSessionID;;
      open_session user deviceName deviceType ipAddress userAgent.

(** ** Refresh and logout *)

Definition Refresh (refreshToken : string) : GoM Service TokenPair :=
  now ← service_now;
  claims ← wrap "invalid refresh token" (lift (ValidateRefreshToken jwtSecret now refreshToken));
  session ← instead ErrInvalidSession (on_auth (GetSessionByRefreshToken (rc_SessionID claims)));
  if se_ExpiresAt session <? now then fail ErrSessionExpired
  else
    user ← instead ErrInvalidSession (on_auth (GetUserByID (rc_UserID claims)));
    wrap "failed to invalidate old session" (on_auth (DeleteSession (se_ID session)));;
    newSessionID ← service_uuid;
    refresh ← service_uuid;
    let newSession := mkSessionRow newSessionID (u_ID user) refresh (se_DeviceName session) (se_DeviceType session)
                        (se_IPAddress session) (se_UserAgent session) now (now + sessionTTL) now in
    wrap "failed to create new session" (on_auth (CreateSession newSession));;
    on_world (on_random (only_rand
      (GenerateTokenPair jwtSecret now (u_ID user) (u_Username user) [u_Role user] (se_DeviceName session) newSessionID))).

Definition Logout (sessionID : string) : GoM Service unit := on_auth (DeleteSession sessionID).
Definition LogoutAll (userID : string) : GoM Service unit := on_auth (DeleteSessionsByUser userID).

Definition Service_ValidateAccessToken (token : string) : GoM Service AccessClaims :=
  now ← service_now; lift (ValidateAccessToken jwtSecret now token).
End Auth.

(** ** Lemmas *)

(** The rows and the clock of the service. *)
Definition rows_of (s : Service) : AuthTables := tab (tw_db (sv_world s)).
Definition clock (s : Service) : Z := db_now (base (tw_db (sv_world s))).

Lemma CreateSession_ok_inv row w w' : CreateSession row w = (Ok tt, w') ->
  t_sessions (tab w') = <[se_ID row := row]> (t_sessions (tab w)) /\ db_now (base w') = db_now (base w).
Proof.
  unfold CreateSession. intros E. apply bind_ok_inv in E as (n & w1 & E & E'). injection E' as <-.
  unfold wrap in E. destruct (tab_exec _ w) as [[m| | |] w2] eqn:Ex; try done. injection E as -> ->.
  apply tab_exec_ok_inv in Ex as [l Ex]. unfold insert_session in Ex. repeat case_match; simplify_eq. done.
Qed.

Lemma UpdateUser_sessions id us w : t_sessions (tab (UpdateUser id us w).2) = t_sessions (tab w) /\
  db_now (base (UpdateUser id us w).2) = db_now (base w).
Proof.
  unfold UpdateUser. destruct us as [|u us]; [done|]. destruct (invalid_user_field _); [done|].
  unfold tab_now, wrap, tab_affected, mbind, GoM_bind, tab_exec. destruct (next_fault _) as [[] l]; [done|].
  unfold update_user. simpl. destruct (t_users (tab w) !! id); simpl; [|done]. by destruct (user_unique _ _ _).
Qed.

Lemma service_uuid_frame s : rows_of (service_uuid s).2 = rows_of s /\ clock (service_uuid s).2 = clock s /\
  sv_failedAttempts (service_uuid s).2 = sv_failedAttempts s /\ sv_totpSessions (service_uuid s).2 = sv_totpSessions s.
Proof.
  unfold service_uuid, on_world, new_uuid, token_now, on_tables, tab_now, on_random, mbind, GoM_bind, rows_of, clock. simpl.
  destruct (GenerateUUID _ _) as [r [ids rnd]]. by destruct r.
Qed.

Lemma bind_state_inv {W A B} (m : GoM W A) (k : A -> GoM W B) w b w' : (m ≫= k) w = (Ok b, w') ->
  exists a, m w = (Ok a, (m w).2) /\ k a (m w).2 = (Ok b, w').
Proof. intros E. apply bind_ok_inv in E as (a & w1 & E1 & E2). exists a. rewrite E1. done. Qed.

Section Proofs.
Context `{Hmac} `{HashFn} `{Sha512} `{ClaimsJSON} `{HmacSha1}.
Context (bruteConfig : BruteForceConfig) (jwtSecret : bytes) (totp : TOTP) (sessionTTL : Z).

(** What a completed login leaves: a session of the user, and a pair of tokens
    made of his row and the identifier of that session. *)
Definition logged_in (user : User) (device : string) (result : LoginResult) (s' : Service) : Prop :=
  lr_RequiresTOTP result = false /\
  exists t jti row,
    lr_Tokens result = Some t /\
    t_sessions (rows_of s') !! lr_SessionID result = Some row /\ se_UserID row = u_ID user /\
    se_ExpiresAt row = clock s' + sessionTTL /\
    AccessToken t = GenerateAccessToken jwtSecret (clock s')
      (mkAccess (u_ID user) (u_Username user) [u_Role user] device (lr_SessionID result) 0 0 jti) /\
    RefreshToken t = GenerateRefreshToken jwtSecret (clock s')
      (mkRefresh (u_ID user) device (lr_SessionID result) 0 0 (jti +:+ ":refresh")%string).

Lemma service_now_eq s : service_now s = (Ok (clock s), s).
Proof. by destruct s as [[[] ?] ? ?]. Qed.

Lemma ignore_ok_inv {W A} (m : GoM W A) w w' : ignore m w = (Ok tt, w') -> w' = (m w).2.
Proof. unfold ignore, attempt, mbind, GoM_bind. destruct (m w) as [[] w1]; by intros [= <-]. Qed.

Lemma on_auth_snd {A} (m : GoM AuthDB A) s :
  rows_of (on_auth m s).2 = tab (m (tw_db (sv_world s))).2 /\ clock (on_auth m s).2 = db_now (base (m (tw_db (sv_world s))).2) /\
  sv_failedAttempts (on_auth m s).2 = sv_failedAttempts s /\ sv_totpSessions (on_auth m s).2 = sv_totpSessions s.
Proof. unfold on_auth, on_world, on_tables, rows_of, clock. by destruct (m _). Qed.

Lemma on_auth_ok_inv {A} (m : GoM AuthDB A) s a s' : on_auth m s = (Ok a, s') ->
  m (tw_db (sv_world s)) = (Ok a, tw_db (sv_world s')) /\ sv_failedAttempts s' = sv_failedAttempts s.
Proof. unfold on_auth, on_world, on_tables. destruct (m _) as [[] d]; by intros [= -> <-]. Qed.

Lemma token_pair_ok now u n ro dv sid s t s' :
  on_world (on_random (only_rand (GenerateTokenPair jwtSecret now u n ro dv sid))) s = (Ok t, s') ->
  rows_of s' = rows_of s /\ clock s' = clock s /\ exists jti,
    AccessToken t = GenerateAccessToken jwtSecret now (mkAccess u n ro dv sid 0 0 jti) /\
    RefreshToken t = GenerateRefreshToken jwtSecret now (mkRefresh u dv sid 0 0 (jti +:+ ":refresh")%string).
Proof.
  unfold on_world, on_random, only_rand, GenerateTokenPair, mbind, GoM_bind, rows_of, clock. simpl.
  unfold generateJTI. destruct (rand_read 16 _) as [[] r]; intros [= <- <-]; simpl; eauto 6.
Qed.

Lemma open_session_ok user dn dt ip ua s r s' :
  open_session jwtSecret sessionTTL user dn dt ip ua s = (Ok r, s') -> logged_in user dn r s'.
Proof.
  intros E. unfold open_session in E. apply bind_ok_inv in E as (sid & s1 & _ & E). apply bind_ok_inv in E as (rt & s2 & _ & E).
  rewrite (bind_ok _ _ _ _ _ (service_now_eq s2)) in E. apply bind_ok_inv in E as ([] & s3 & E3 & E).
  unfold wrap in E3. destruct (on_auth (CreateSession _) s2) as [[[]| | |] s3'] eqn:Ec; try done. injection E3 as ->.
  apply on_auth_ok_inv in Ec as [Ec _]. apply CreateSession_ok_inv in Ec as [Hses Ht3].
  rewrite (bind_ok _ _ _ _ _ (service_now_eq s3)) in E. apply bind_ok_inv in E as ([] & s4 & E4 & E). apply ignore_ok_inv in E4.
  destruct (on_auth_snd (UpdateUser (u_ID user) [W_last_login_at (clock s3)]) s3) as (Hr4 & Hc4 & _). rewrite <-E4 in Hr4, Hc4.
  destruct (UpdateUser_sessions (u_ID user) [W_last_login_at (clock s3)] (tw_db (sv_world s3))) as [Hs4 Ht4].
  apply bind_ok_inv in E as (t & s5 & E5 & E). injection E as <- <-. apply token_pair_ok in E5 as (Hr5 & Hc5 & jti & Ha & Hrf).
  assert (clock s5 = clock s3) as Hc by (rewrite Hc5, Hc4; exact Ht4).
  split; [done|]. eexists t, jti, _. split; [done|]. rewrite Hr5, Hr4, Hs4, Hses, Hc. simpl. rewrite lookup_insert_eq.
  split_and!; try done. unfold clock. by rewrite Ht3.
Qed.

(** What an accepted login implies. *)
Lemma Login_ok username password dn dt ip ua s result s' :
  Login bruteConfig jwtSecret sessionTTL username password dn dt ip ua s = (Ok result, s') ->
  exists id user,
    t_users (rows_of s) !! id = Some user /\ u_Username user = username /\
    u_Status user <> "disabled"%string /\ u_Status user <> "locked"%string /\
    VerifyPassword password (u_PasswordHash user) = Ok true /\ u_PasswordChangeRequired user = false /\
    if u_TOTPEnabled user && bool_decide (is_Some (u_TOTPSecret user))
    then lr_Tokens result = None /\ lr_RequiresTOTP result = true /\
         exists t, sv_totpSessions s' !! lr_TOTPSession result = Some t /\ ts_UserID t = u_ID user
    else logged_in user dn result s'.
Proof.
  intros E. unfold Login in E. apply bind_ok_inv in E as (delay & s0 & E0 & E). injection E0 as _ <-.
  apply bind_ok_inv in E as ([] & s1 & E1 & E).
  assert (rows_of s1 = rows_of s) as Hr1 by (destruct (0 <? delay); by injection E1 as <-).
  apply bind_ok_inv in E as (o & s2 & E2 & E).
  unfold attempt in E2. destruct (on_auth (GetUserByUsername username) s1) as [[user|e|m|] s2'] eqn:Eu; try done; injection E2 as <- <-.
  2:{ apply bind_ok_inv in E as ([] & s3 & _ & E). done. }
  apply on_auth_ok_inv in Eu as [Eu _]. apply tab_scan_ok_inv in Eu as (Hr2 & _ & Hu). specialize (Hu user eq_refl) as [l Hu].
  assert (user ∈ filter (has_username username) (rows (t_users (rows_of s)))) as Hin.
  { rewrite <-Hr1. simpl in Hu. unfold rows_of in *. destruct (filter _ _) as [|x xs]; [done|]. injection Hu as ->. by left. }
  apply list_elem_of_filter in Hin as [Hname Hin]. apply elem_of_table in Hin as [id Hid].
  destruct (bool_decide (u_Status user = "disabled"%string)) eqn:Hdis; [done|].
  destruct (bool_decide (u_Status user = "locked"%string)) eqn:Hloc; [done|]. apply bool_decide_eq_false in Hdis, Hloc.
  apply bind_ok_inv in E as (v & s3 & E3 & E). unfold attempt, lift in E3.
  destruct (VerifyPassword password (u_PasswordHash user)) as [b|e|m|] eqn:Ev; try done; injection E3 as <- <-.
  2:{ apply bind_ok_inv in E as ([] & s3 & _ & E). done. }
  destruct b; [|apply bind_ok_inv in E as ([] & s3 & _ & E); done].
  apply bind_ok_inv in E as ([] & s3 & _ & E).
  destruct (u_PasswordChangeRequired user) eqn:Hch; [done|]. exists id, user. split_and!; try done.
  destruct (_ && _); [|by eapply open_session_ok].
  apply bind_ok_inv in E as (t & s4 & E4 & E). injection E as <- <-. split; [done|]. split; [done|]. simpl.
  unfold createTOTPSession in E4. apply bind_ok_inv in E4 as (sid & s5 & _ & E4).
  rewrite (bind_ok _ _ _ _ _ (service_now_eq s5)) in E4. rewrite bind_get in E4.
  apply bind_ok_inv in E4 as ([] & s6 & E6 & E4). injection E6 as <-. injection E4 as <- <-. simpl. rewrite lookup_insert_eq. eauto.
Qed.

(** [C14] Whoever logs in has shown the password: when Login succeeds, whatever the
    driver and the random source did, there is a user of that name, neither
    disabled nor locked and not obliged to change the password, whose stored hash
    the password verifies.  With a second factor the result holds no tokens, only a pending factor of
    that user; otherwise it holds a session of that user, stored and valid for
    the session lifetime, and tokens made of his identifier, name and role. *)
Theorem Login_admits_only username password dn dt ip ua s result s' :
  Login bruteConfig jwtSecret sessionTTL username password dn dt ip ua s = (Ok result, s') ->
  exists id user,
    t_users (rows_of s) !! id = Some user /\ u_Username user = username /\
    u_Status user <> "disabled"%string /\ u_Status user <> "locked"%string /\
    VerifyPassword password (u_PasswordHash user) = Ok true /\ u_PasswordChangeRequired user = false /\
    if u_TOTPEnabled user && bool_decide (is_Some (u_TOTPSecret user))
    then lr_Tokens result = None /\ lr_RequiresTOTP result = true /\
         exists t, sv_totpSessions s' !! lr_TOTPSession result = Some t /\ ts_UserID t = u_ID user
    else logged_in user dn result s'.
Proof. apply Login_ok. Qed.

(** [Fact] Tokens cannot be refreshed: the refresh token that a login hands out names
    its session, but the session is looked up by a random refresh string that is
    never put into a token.  Unless that string of some stored session happens to
    be the identifier of the new session, refreshing fails as an invalid session,
    at any later time and without changing a row. *)
Theorem Refresh_always_refused user dn dt ip ua s result s' later refresh :
  open_session jwtSecret sessionTTL user dn dt ip ua s = (Ok result, s') ->
  (forall exp iat jti, plain_refresh (mkRefresh (u_ID user) dn (lr_SessionID result) exp iat jti)) ->
  RefreshToken <$> lr_Tokens result = Some refresh ->
  clock s' <= clock later <= clock s' + RefreshTokenTTL -> t_sessions (rows_of later) = t_sessions (rows_of s') ->
  (forall k row, t_sessions (rows_of s') !! k = Some row -> se_RefreshToken row <> lr_SessionID result) ->
  (Refresh jwtSecret sessionTTL refresh later).1 = Err ErrInvalidSession /\
  rows_of (Refresh jwtSecret sessionTTL refresh later).2 = rows_of later.
Proof.
  intros E Hplain Hrt Hclock Hses Hfresh. apply open_session_ok in E as (_ & t & jti & row & Ht & _ & _ & _ & _ & Hr).
  rewrite Ht in Hrt. simpl in Hrt. injection Hrt as <-. rewrite Hr.
  unfold Refresh. rewrite (bind_ok _ _ _ _ _ (service_now_eq later)).
  set (c := mkRefresh _ _ _ _ _ _).
  assert (ValidateRefreshToken jwtSecret (clock later) (GenerateRefreshToken jwtSecret (clock s') c) = Ok (stamp_refresh (clock s') c)) as Ev.
  { unfold ValidateRefreshToken, GenerateRefreshToken. rewrite open_sealed. cbn [mbind Res_bind].
    rewrite refresh_refresh by apply Hplain. destruct (Z.ltb_spec (rc_Exp (stamp_refresh (clock s') c)) (clock later)); [|done].
    simpl in *. lia. }
  rewrite Ev. rewrite (bind_ok _ _ later (stamp_refresh (clock s') c) later) by done. simpl rc_SessionID.
  set (sid := lr_SessionID result) in *.
  assert (exists s1, on_auth (GetSessionByRefreshToken sid) later = (Err (Errorf "session not found"), s1) /\ rows_of s1 = rows_of later \/
                     on_auth (GetSessionByRefreshToken sid) later = (Err (Wrapf "failed to get session" ErrDriver), s1) /\ rows_of s1 = rows_of later)
    as (s1 & [[Eg Hr1]|[Eg Hr1]]).
  { unfold on_auth, on_world, on_tables, GetSessionByRefreshToken, tab_scan, attempt, tab_query, mbind, GoM_bind.
    destruct (next_fault _) as [[] l]; simpl; [eexists; right; by split|].
    rewrite filter_none; [eexists; left; by split|]. apply Forall_forall. intros x Hx. apply elem_of_table in Hx as [k Hk].
    apply (Hfresh k). rewrite <-Hses. exact Hk. }
  all: rewrite (bind_err _ _ later ErrInvalidSession s1); [by split|]; unfold instead; by rewrite Eg.
Qed.
End Proofs.

(** *** Delays *)

Lemma progressive_wrap n : 0 <= n -> progressive n = i64 (2 ^ n * Second).
Proof.
  intros Hn. unfold progressive. rewrite Z.shiftl_mul_pow2 by done. rewrite Z.mul_1_l. apply i64_congr.
  by rewrite Zmult_mod, i64_mod, <-Zmult_mod.
Qed.

Lemma progressive_small n : 0 <= n <= 33 -> progressive n = 2 ^ n * Second.
Proof.
  intros Hn. rewrite progressive_wrap by lia. apply i64_id. unfold in_i64, Second.
  pose proof (Z.pow_le_mono_r 2 n 33 ltac:(lia) ltac:(lia)). pose proof (Z.pow_pos_nonneg 2 n ltac:(lia) ltac:(lia)).
  change (2 ^ 33) with 8589934592 in *. lia.
Qed.

Lemma progressive_gone n : 55 <= n -> progressive n = 0.
Proof.
  intros Hn. rewrite progressive_wrap by lia. replace (2 ^ n * Second) with (0 + (2 ^ (n - 55) * 1953125) * 2 ^ 64).
  - unfold i64. rewrite (Z.add_comm 0), <-Z.add_assoc, Z.add_comm, Z.mod_add by lia. reflexivity.
  - unfold Second. replace n with ((n - 55) + 55) at 2 by lia. rewrite Z.pow_add_r by lia. lia.
Qed.

(** [n] failures of one name in a row. *)
Definition fail_times (cfg : BruteForceConfig) (username : string) (n : nat) (s : Service) : Service :=
  Nat.iter n (fun s => (recordFailedAttempt cfg username s).2) s.

Lemma fail_times_spec cfg username n s : sv_failedAttempts s !! username = None -> Z.of_nat n < 2 ^ 63 ->
  sv_world (fail_times cfg username n s) = sv_world s /\
  sv_failedAttempts (fail_times cfg username n s) !! username =
    match n with
    | O => None
    | _ => Some (mkAttempt (Z.of_nat n) (clock s)
             (if MaxAttempts cfg <=? Z.of_nat n then Some (clock s * Second + LockoutDuration cfg)
              else None))
    end.
Proof.
  intros Hs Hn. induction n as [|n IH]; [by split|].
  destruct IH as [Hw Ha]; [lia|]. unfold fail_times in *. rewrite Nat.iter_succ. set (s1 := Nat.iter n _ s) in *.
  unfold recordFailedAttempt. rewrite (bind_ok _ _ _ _ _ (service_now_eq s1)), bind_get. unfold set_attempts. simpl.
  split; [done|]. rewrite lookup_insert_eq. f_equal. rewrite Ha. unfold failed_again.
  assert (clock s1 = clock s) as -> by (unfold clock; by rewrite Hw).
  destruct n as [|n]; cbn [fa_Count fa_LockedUntil].
  - rewrite i64_id by (unfold in_i64; lia). done.
  - rewrite i64_id by (unfold in_i64; lia). replace (Z.of_nat (S n) + 1) with (Z.of_nat (S (S n))) by lia. f_equal.
    destruct (Z.leb_spec (MaxAttempts cfg) (Z.of_nat (S (S n)))) as [|Hlt]; [done|].
    destruct (Z.leb_spec (MaxAttempts cfg) (Z.of_nat (S n))); [lia|done].
Qed.

(** [Fact] With the default protection, after [n] failed logins in a row the next
    login of that name is delayed by nothing, 2, 4, 8 and 16 seconds for [n] up
    to 4, and by fifteen minutes from the fifth failure on while the lock lasts;
    once it has run out, by thirty seconds for up to 33 failures.  A lock only
    delays, it never refuses.  Beyond that the shifted delay leaves 64 bits: it
    is negative after 34 failures and zero from 55 on, and the login is not
    delayed at all. *)
Theorem failed_logins_delay username n elapsed s :
  sv_failedAttempts s !! username = None -> Z.of_nat n < 2 ^ 63 -> 0 <= elapsed ->
  let cfg := DefaultBruteForceConfig in
  let s1 := (sleep (elapsed * Second) (fail_times cfg username n s)).2 in
  exists delay, checkBruteForce cfg username s1 = (Ok delay, s1) /\ delay <= 15 * Minute /\
    (Z.of_nat n = 0 -> delay = 0) /\
    (1 <= Z.of_nat n <= 4 -> delay = 2 ^ Z.of_nat n * Second) /\
    (5 <= Z.of_nat n -> elapsed < 15 * 60 -> delay = 15 * Minute) /\
    (5 <= Z.of_nat n <= 33 -> 15 * 60 <= elapsed -> delay = 30 * Second) /\
    (Z.of_nat n = 34 -> 15 * 60 <= elapsed -> delay < 0) /\
    (55 <= Z.of_nat n -> 15 * 60 <= elapsed -> delay = 0).
Proof.
  intros Hs Hn He cfg s1. destruct (fail_times_spec cfg username n s Hs Hn) as [Hw Ha].
  assert (clock s1 = clock s + elapsed) as Hc.
  { unfold s1, clock, sleep. simpl. rewrite Hw. unfold Second. by rewrite Z.div_mul. }
  assert (sv_failedAttempts s1 = sv_failedAttempts (fail_times cfg username n s)) as Hf by done.
  unfold checkBruteForce. fold (clock s1). rewrite Hf, Ha, Hc. eexists. split; [done|].
  destruct n as [|n]; [repeat split; unfold Minute, Second; lia|]. set (m := S n) in *. cbn [fa_Count fa_LockedUntil].
  destruct (Z.eqb_spec (Z.of_nat m) 0); [lia|]. change (MaxAttempts cfg) with 5. change (LockoutDuration cfg) with (15 * Minute).
  change (ProgressiveDelay cfg) with true. cbv iota.
  destruct (Z.leb_spec 5 (Z.of_nat m)) as [H5|H5].
  - destruct (Z.ltb_spec ((clock s + elapsed) * Second) (clock s * Second + 15 * Minute)) as [Hl|Hl].
    + unfold Minute, Second in *. repeat split; intros; lia.
    + assert (15 * 60 <= elapsed) as Hel by (unfold Minute, Second in *; lia).
      destruct (Z.ltb_spec (30 * Second) (progressive (Z.of_nat m))) as [Hp|Hp].
      * repeat split; intros; unfold Minute, Second in *; try lia.
        -- subst. replace (Z.of_nat m) with 34 in Hp by done. vm_compute in Hp. done.
        -- rewrite progressive_gone in Hp by lia. lia.
      * repeat split; intros; unfold Minute, Second in *; try lia.
        -- exfalso. rewrite progressive_small in Hp by lia. unfold Second in Hp.
           pose proof (Z.pow_le_mono_r 2 5 (Z.of_nat m) ltac:(lia) ltac:(lia)). change (2 ^ 5) with 32 in *. lia.
        -- replace (Z.of_nat m) with 34 by done. vm_compute. done.
        -- by apply progressive_gone.
  - assert (1 <= Z.of_nat m <= 4) as Hm by lia. rewrite progressive_small by lia.
    assert (2 ^ Z.of_nat m * Second <= 30 * Second) as Hle.
    { pose proof (Z.pow_le_mono_r 2 (Z.of_nat m) 4 ltac:(lia) ltac:(lia)). change (2 ^ 4) with 16 in *. unfold Second. lia. }
    destruct (Z.ltb_spec (30 * Second) (2 ^ Z.of_nat m * Second)); [lia|].
    repeat split; intros; unfold Minute, Second in *; lia.
Qed.

(** An unknown name and a wrong password are answered alike: the same error, and
    one more failed attempt on record. *)
Fact unknown_and_wrong_alike `{Hmac} `{HashFn} `{Sha512} `{ClaimsJSON} cfg secret ttl username password dn dt ip ua s user :
  still (tw_db (sv_world s)) -> sv_failedAttempts s !! username = None ->
  head (filter (has_username username) (rows (t_users (rows_of s)))) = user ->
  match user with
  | None => True
  | Some u => u_Status u = "active"%string /\ VerifyPassword password (u_PasswordHash u) = Ok false
  end ->
  Login cfg secret ttl username password dn dt ip ua s = (Err ErrInvalidCredentials, (recordFailedAttempt cfg username s).2).
Proof.
  intros Hq Hf Hu Hc. unfold Login.
  assert (checkBruteForce cfg username s = (Ok 0, s)) as E0 by (unfold checkBruteForce; by rewrite Hf).
  rewrite (bind_ok _ _ _ _ _ E0). change (0 <? 0) with false. cbv iota. rewrite bind_mret.
  assert (attempt (on_auth (GetUserByUsername username)) s =
          (Ok (match user with Some u => inl u | None => inr (Errorf "user not found") end), s)) as E.
  { unfold attempt, on_auth, on_world, on_tables, GetUserByUsername. rewrite tab_scan_still by done. unfold rows_of in Hu. rewrite Hu.
    destruct s as [[] ? ?]. by destruct user. }
  rewrite (bind_ok _ _ _ _ _ E). destruct user as [u|].
  - destruct Hc as [Hst Hv]. rewrite Hst.
    rewrite !bool_decide_false by done. rewrite Hv. done.
  - done.
Qed.

(** ** Witnesses *)

(** Digests that cut their message, so that a derivation evaluates quickly. *)
Program Definition cut_hash : HashFn := {| sha256 m := take 32 (m ++ replicate 32 x00) |}.
Next Obligation. intros. cbv beta. rewrite length_take, length_app, length_replicate. lia. Qed.
Program Definition cut_sha512 : Sha512 := {| sha512 m := take 64 (m ++ replicate 64 x00) |}.
Next Obligation. intros. cbv beta. rewrite length_take, length_app, length_replicate. lia. Qed.
Program Definition cut_hmac : Hmac := {| hmac_sha256 k m := take 32 (k ++ m ++ replicate 32 x00) |}.
Next Obligation. intros. cbv beta. rewrite length_take, !length_app, length_replicate. lia. Qed.

Section Witnesses.
#[local] Existing Instance cut_hash.
#[local] Existing Instance cut_hmac.
#[local] Existing Instance cut_sha512.
#[local] Existing Instance toy_claims.
#[local] Existing Instance toy_sha1.

(** A hash with small parameters, and a user who has it. *)
Definition weak_salt : bytes := replicate 16 x07.
Definition weak_phc : string :=
  match derive "pw" weak_salt 1 1 with
  | Ok key => ("$argon2id$v=19$m=1,t=1,p=1$" +:+ encode_raw base64std weak_salt +:+ "$" +:+ encode_raw base64std key)%string
  | _ => ""%string
  end.

Definition ann : User := mkUser "u1" "ann" "a@x" "Ann" weak_phc "user" 10 0 None false [] [] None None "active" false None 10 10.
Definition service0 : Service :=
  mkService (mkTokenWorld (mkExt (mkDB {["u1"%string]} ∅ ∅ ∅ 100 toy_rand [] true)
                             (mkAuthTables {["u1"%string := ann]} ∅ ∅)) (mkIds 0 0)) ∅ ∅.

Lemma Login_witness : exists result s',
  Login DefaultBruteForceConfig [x41] 1000 "ann" "pw" "web" "web" "ip" "ua" service0 = (Ok result, s') /\
  exists id user, t_users (rows_of service0) !! id = Some user /\ VerifyPassword "pw" (u_PasswordHash user) = Ok true.
Proof.
  assert (is_ok (Login DefaultBruteForceConfig [x41] 1000 "ann" "pw" "web" "web" "ip" "ua" service0).1 = true) as Hok
    by (vm_compute; reflexivity).
  destruct (Login DefaultBruteForceConfig [x41] 1000 "ann" "pw" "web" "web" "ip" "ua" service0) as [[result|e|m|] s'] eqn:E;
    [|discriminate Hok|discriminate Hok|discriminate Hok].
  exists result, s'. split; [reflexivity|].
  destruct (@Login_admits_only cut_hmac cut_hash cut_sha512 toy_claims _ _ _ _ _ _ _ _ _ _ _ _ E) as (id & user & Hu & _ & _ & _ & Hv & _).
  exists id, user. split; [exact Hu|exact Hv].
Defined.

Definition opened0 : Res LoginResult * Service := open_session [x41] 1000 ann "web" "web" "ip" "ua" service0.

Lemma Refresh_witness : exists result refresh,
  opened0.1 = Ok result /\ RefreshToken <$> lr_Tokens result = Some refresh /\
  (Refresh [x41] 1000 refresh opened0.2).1 = Err ErrInvalidSession.
Proof.
  assert (match opened0.1 with
          | Ok r => match lr_Tokens r with
                    | Some _ => forallb (fun row => negb (bool_decide (se_RefreshToken row = lr_SessionID r)))
                                  (rows (t_sessions (rows_of opened0.2)))
                    | None => false end
          | _ => false end = true) as Hok by (vm_compute; reflexivity).
  destruct opened0 as [[result|e|m|] s'] eqn:E; [|discriminate Hok|discriminate Hok|discriminate Hok].
  simpl in Hok. destruct (lr_Tokens result) as [t|] eqn:Et; [|discriminate Hok].
  exists result, (RefreshToken t). split; [reflexivity|]. split; [rewrite Et; reflexivity|].
  refine (proj1 (@Refresh_always_refused cut_hmac toy_claims [x41] 1000 ann "web" "web" "ip" "ua" service0 result s' s' (RefreshToken t) E _ _ _ _ _)).
  - intros. exact I.
  - rewrite Et. reflexivity.
  - split; [lia|]. unfold RefreshTokenTTL. lia.
  - reflexivity.
  - intros k row Hk Eq. rewrite forallb_forall in Hok.
    assert (List.In row (rows (t_sessions (rows_of s')))) as Hin by (apply list_elem_of_In, elem_of_table; by exists k).
    specialize (Hok row Hin). rewrite bool_decide_true in Hok by exact Eq. discriminate Hok.
Defined.

Lemma failed_logins_witness : exists s delay,
  checkBruteForce DefaultBruteForceConfig "ann" s = (Ok delay, s) /\ delay = 8 * Second.
Proof.
  destruct (failed_logins_delay "ann" 3 0 service0 eq_refl ltac:(simpl; lia) ltac:(lia)) as (delay & E & _ & _ & Hd & _).
  eexists _, delay. split; [exact E|]. rewrite Hd by lia. reflexivity.
Defined.
End Witnesses.
