(* ===== verification/Worker.v ===== *)
(** * Background jobs (internal/worker/pool.go)

    The queue, the pool of workers and the scheduler.  Every worker is in one
    state of its loop and the steps of different workers interleave freely; the
    run of a handler is one step.  The condition variable is explicit: a worker
    that found the queue empty sleeps until a push signals it. *)

From stdpp Require Import list_numbers.
From S2P Require Import Prelude GoStrings.

(** ** Jobs and the queue *)

Record Job (P : Type) := mkJob {
  j_ID : string; j_Type : string; j_Payload : P; j_Priority : Z; j_Retries : Z; j_MaxRetries : Z
}.
Arguments mkJob {P}.
Arguments j_ID {P}.
Arguments j_Type {P}.
Arguments j_Payload {P}.
Arguments j_Priority {P}.
Arguments j_Retries {P}.
Arguments j_MaxRetries {P}.

Record Result (O : Type) := mkResult { r_JobID : string; r_Success : bool; r_Error : option error; r_Output : option O }.
Arguments mkResult {O}.
Arguments r_JobID {O}.
Arguments r_Success {O}.
Arguments r_Error {O}.
Arguments r_Output {O}.

(** Before the first job of a strictly lower priority. *)
Fixpoint Push {P} (job : Job P) (jobs : list (Job P)) : list (Job P) :=
  match jobs with
  | [] => [job]
  | j :: jobs' => if j_Priority j <? j_Priority job then job :: j :: jobs' else j :: Push job jobs'
  end.

Definition Pop {P} (jobs : list (Job P)) : option (Job P * list (Job P)) :=
  match jobs with [] => None | job :: jobs => Some (job, jobs) end.

Definition Len {P} (jobs : list (Job P)) : Z := Z.of_nat (length jobs).

(** ** The pool *)

(** A worker: before the look at the context, before [Pop], asleep in [Pop],
    with a job, waiting to push a failed job again, sending a result, gone. *)
Inductive activity (P O : Type) : Type :=
  | Ready
  | Popping
  | Waiting
  | Running (j : Job P)
  | Retrying (j : Job P)
  | Sending (r : Result O)
  | Exited.
Arguments Ready {P O}.
Arguments Popping {P O}.
Arguments Waiting {P O}.
Arguments Running {P O}.
Arguments Retrying {P O}.
Arguments Sending {P O}.
Arguments Exited {P O}.

Section Pool.
Context {P O W : Type}.

(** A handler works on what it was made with; the job is a copy. *)
Definition Handler : Type := Job P -> GoM W O.

(** [p_received] lists the results that were taken from the channel. *)
Record WorkerPool := mkPool {
  p_queue : list (Job P); p_handlers : gmap string Handler; p_size : nat; p_workers : list (activity P O);
  p_results : list (Result O); p_received : list (Result O); p_cancelled : bool; p_running : bool; p_world : W
}.

(** The capacity of the channel of results. *)
Definition results_cap : nat := 100.

Definition NewWorkerPool (NumCPU : nat) (workers : Z) (w : W) : WorkerPool :=
  mkPool [] ∅ (if workers <=? 0 then NumCPU else Z.to_nat workers) [] [] [] false false w.

Definition RegisterHandler (jobType : string) (h : Handler) (s : WorkerPool) : WorkerPool :=
  mkPool (p_queue s) (<[jobType := h]> (p_handlers s)) (p_size s) (p_workers s) (p_results s) (p_received s)
    (p_cancelled s) (p_running s) (p_world s).

Definition is_waiting (a : activity P O) : bool := match a with Waiting => true | _ => false end.
Definition is_popping (a : activity P O) : bool := match a with Popping => true | _ => false end.

(** [cond.Signal()] wakes one sleeping worker, if there is any; which one is left open. *)
Definition signal (k : nat) (ws : list (activity P O)) : list (activity P O) :=
  match ws !! k with Some Waiting => <[k := Popping]> ws | _ => ws end.

Definition may_signal (k : nat) (ws : list (activity P O)) : Prop := Waiting ∈ ws -> ws !! k = Some Waiting.

Definition with_queue (q : list (Job P)) (ws : list (activity P O)) (s : WorkerPool) : WorkerPool :=
  mkPool q (p_handlers s) (p_size s) ws (p_results s) (p_received s) (p_cancelled s) (p_running s) (p_world s).

Definition queue_push (k : nat) (job : Job P) (s : WorkerPool) : WorkerPool :=
  with_queue (Push job (p_queue s)) (signal k (p_workers s)) s.

Definition with_default_retries (job : Job P) : Job P :=
  if j_MaxRetries job =? 0
  then mkJob (j_ID job) (j_Type job) (j_Payload job) (j_Priority job) (j_Retries job) 3 else job.

Definition Submit (k : nat) (job : Job P) (s : WorkerPool) : WorkerPool := queue_push k (with_default_retries job) s.

Definition Start (s : WorkerPool) : WorkerPool :=
  if p_running s then s
  else mkPool (p_queue s) (p_handlers s) (p_size s) (p_workers s ++ replicate (p_size s) Ready) (p_results s)
         (p_received s) (p_cancelled s) true (p_world s).

(** The first half of [Stop]; the second waits for [all_exited] and closes the channel. *)
Definition Stop (s : WorkerPool) : WorkerPool :=
  if p_running s
  then mkPool (p_queue s) (p_handlers s) (p_size s) (p_workers s) (p_results s) (p_received s) true false (p_world s)
  else s.

Definition all_exited (s : WorkerPool) : Prop := Forall (fun a => a = Exited) (p_workers s).

(** The count cannot overflow, being below [MaxRetries]. *)
Definition retried (job : Job P) : Job P :=
  mkJob (j_ID job) (j_Type job) (j_Payload job) (j_Priority job) (j_Retries job + 1) (j_MaxRetries job).

(** [processJob] up to its push or its send.  A handler that panics takes the
    process down: there is no next state. *)
Definition processJob (job : Job P) (s : WorkerPool) : option (activity P O * W) :=
  match p_handlers s !! j_Type job with
  | None => Some (Sending (mkResult (j_ID job) false (Some (Errorf ("no handler for job type: " +:+ j_Type job))) None), p_world s)
  | Some handler =>
      match handler job (p_world s) with
      | (Ok output, w) => Some (Sending (mkResult (j_ID job) true None (Some output)), w)
      | (Err err, w) =>
          if j_Retries job <? j_MaxRetries job then Some (Retrying (retried job), w)
          else Some (Sending (mkResult (j_ID job) false (Some err) None), w)
      | _ => None
      end
  end.

Definition set_worker (i : nat) (a : activity P O) (s : WorkerPool) : WorkerPool :=
  with_queue (p_queue s) (<[i := a]> (p_workers s)) s.

(** One step of worker [i]; [k] is the worker that a push wakes. *)
Definition worker_step (k i : nat) (s : WorkerPool) : option WorkerPool :=
  match p_workers s !! i with
  | Some Ready => Some (set_worker i (if p_cancelled s then Exited else Popping) s)
  | Some Popping =>
      match Pop (p_queue s) with
      | None => Some (set_worker i Waiting s)
      | Some (job, q) => Some (with_queue q (<[i := Running job]> (p_workers s)) s)
      end
  | Some (Running job) =>
      '(a, w) ← processJob job s;
      Some (mkPool (p_queue s) (p_handlers s) (p_size s) (<[i := a]> (p_workers s)) (p_results s) (p_received s)
              (p_cancelled s) (p_running s) w)
  | Some (Retrying job) => Some (set_worker i Ready (queue_push k job s))
  | Some (Sending r) =>
      if (length (p_results s) <? results_cap)%nat
      then Some (mkPool (p_queue s) (p_handlers s) (p_size s) (<[i := Ready]> (p_workers s)) (p_results s ++ [r])
                   (p_received s) (p_cancelled s) (p_running s) (p_world s))
      else None
  | Some Waiting | Some Exited | None => None
  end.

(** One turn of [processResults] of manager.go. *)
Definition receive (s : WorkerPool) : option WorkerPool :=
  match p_results s with
  | [] => None
  | r :: rs => Some (mkPool (p_queue s) (p_handlers s) (p_size s) (p_workers s) rs (p_received s ++ [r])
                       (p_cancelled s) (p_running s) (p_world s))
  end.

(** The steps that the pool takes by itself. *)
Inductive step : WorkerPool -> WorkerPool -> Prop :=
  | step_worker k i s s' : may_signal k (p_workers s) -> worker_step k i s = Some s' -> step s s'
  | step_receive s s' : receive s = Some s' -> step s s'.

(** The states of a pool to which the jobs of the given identifiers were submitted. *)
Inductive reach (NumCPU : nat) : list string -> WorkerPool -> Prop :=
  | reach_new workers w : reach NumCPU [] (NewWorkerPool NumCPU workers w)
  | reach_register l s t h : reach NumCPU l s -> reach NumCPU l (RegisterHandler t h s)
  | reach_submit l s k job : may_signal k (p_workers s) -> reach NumCPU l s -> reach NumCPU (j_ID job :: l) (Submit k job s)
  | reach_start l s : reach NumCPU l s -> reach NumCPU l (Start s)
  | reach_stop l s : reach NumCPU l s -> reach NumCPU l (Stop s)
  | reach_step l s s' : reach NumCPU l s -> step s s' -> reach NumCPU l s'.
End Pool.
Arguments WorkerPool : clear implicits.
Arguments Handler : clear implicits.

(** ** The scheduler

    Times are in nanoseconds since 1970; a difference of times saturates. *)

Definition zero_time : Z := -62135596800 * 1000000000.
Definition time_sub (t u : Z) : Z := Z.max (- 2 ^ 63) (Z.min (2 ^ 63 - 1) (t - u)).

Record scheduledTask (P : Type) := mkTask { t_jobType : string; t_payload : P; t_interval : Z; t_lastRun : Z }.
Arguments mkTask {P}.
Arguments t_jobType {P}.
Arguments t_payload {P}.
Arguments t_interval {P}.
Arguments t_lastRun {P}.

Record Scheduler (P O W : Type) := mkScheduler { sc_pool : WorkerPool P O W; sc_tasks : gmap string (scheduledTask P) }.
Arguments mkScheduler {P O W}.
Arguments sc_pool {P O W}.
Arguments sc_tasks {P O W}.

Section Scheduler.
Context {P O W : Type} (wake : list (activity P O) -> nat).

Definition NewScheduler (pool : WorkerPool P O W) : Scheduler P O W := mkScheduler pool ∅.

Definition AddTask (name jobType : string) (payload : P) (interval : Z) (s : Scheduler P O W) : Scheduler P O W :=
  mkScheduler (sc_pool s) (<[name := mkTask jobType payload interval zero_time]> (sc_tasks s)).

Definition RemoveTask (name : string) (s : Scheduler P O W) : Scheduler P O W :=
  mkScheduler (sc_pool s) (delete name (sc_tasks s)).

Definition scheduled_job (now : Z) (name : string) (task : scheduledTask P) : Job P :=
  mkJob ("scheduled-" +:+ name +:+ "-" +:+ pretty (now / 1000000000)) (t_jobType task) (t_payload task) 0 0 0.

Definition is_due (now : Z) (task : scheduledTask P) : bool := t_interval task <=? time_sub now (t_lastRun task).

Definition check_task (now : Z) (s : Scheduler P O W) (name : string) : Scheduler P O W :=
  match sc_tasks s !! name with
  | None => s
  | Some task =>
      if is_due now task then
        mkScheduler (Submit (wake (p_workers (sc_pool s))) (scheduled_job now name task) (sc_pool s))
          (<[name := mkTask (t_jobType task) (t_payload task) (t_interval task) now]> (sc_tasks s))
      else s
  end.

(** [order] is the unspecified order in which the map of tasks is walked. *)
Definition checkAndRunTasks (order : list string) (now : Z) (s : Scheduler P O W) : Scheduler P O W :=
  foldl (check_task now) s order.
End Scheduler.

(** ** Lemmas *)

(** *** The queue is a stable sort *)

Definition higher {P} (a b : Job P) : Prop := j_Priority b <= j_Priority a.

Lemma Push_perm {P} (job : Job P) q : Push job q ≡ₚ job :: q.
Proof.
  induction q as [|j q IH]; simpl; [done|]. destruct (_ <? _); [done|]. rewrite IH. apply Permutation_swap.
Qed.

Lemma Push_sorted {P} (job : Job P) q : StronglySorted higher q -> StronglySorted higher (Push job q).
Proof.
  induction 1 as [|j q Hs IH Hj]; simpl; [repeat constructor|].
  destruct (Z.ltb_spec (j_Priority j) (j_Priority job)).
  - repeat constructor; [done|done|unfold higher; lia|]. eapply Forall_impl; [exact Hj|]. unfold higher. simpl. intros. lia.
  - constructor; [done|]. rewrite Push_perm. constructor; [unfold higher; lia|done].
Qed.

(** The jobs of one priority stay in the order of their arrival. *)
Lemma Push_level {P} (job : Job P) q p : StronglySorted higher q ->
  filter (fun j => j_Priority j = p) (Push job q) = filter (fun j => j_Priority j = p) (q ++ [job]).
Proof.
  induction 1 as [|j q Hs IH Hj]; cbn [Push]; [done|]. destruct (Z.ltb_spec (j_Priority j) (j_Priority job)) as [Hlt|].
  - rewrite filter_app, !(filter_cons _ job), filter_nil. case_decide as Hp; [|by rewrite app_nil_r].
    rewrite filter_none; [done|]. constructor; [lia|]. eapply Forall_impl; [exact Hj|]. unfold higher. simpl. intros. lia.
  - rewrite <-app_comm_cons, !(filter_cons _ j), IH. done.
Qed.

Definition push_all {P} (jobs : list (Job P)) : list (Job P) := foldl (fun q job => Push job q) [] jobs.

Lemma push_all_snoc {P} (jobs : list (Job P)) job : push_all (jobs ++ [job]) = Push job (push_all jobs).
Proof. unfold push_all. by rewrite foldl_app. Qed.

(** [Fact] The queue hands out what was pushed, nothing lost and nothing twice, a
    higher priority first and jobs of one priority in the order of their arrival. *)
Lemma queue_is_stable_sort {P} (jobs : list (Job P)) (p : Z) :
  push_all jobs ≡ₚ jobs /\ StronglySorted higher (push_all jobs) /\
  filter (fun j => j_Priority j = p) (push_all jobs) = filter (fun j => j_Priority j = p) jobs.
Proof.
  induction jobs as [|job jobs (IHp & IHs & IHf)] using rev_ind; [split_and!; done || constructor|].
  rewrite push_all_snoc. split_and!.
  - by rewrite Push_perm, IHp, Permutation_cons_append.
  - by apply Push_sorted.
  - rewrite Push_level, !filter_app by done. by rewrite IHf.
Qed.

(** *** One worker among the others *)

Section PoolProofs.
Context {P O W : Type}.
Implicit Types (s : WorkerPool P O W) (ws : list (activity P O)) (a b : activity P O) (j : Job P).

Lemma worker_split ws i a b : ws !! i = Some a -> exists rest, ws ≡ₚ a :: rest /\ <[i := b]> ws ≡ₚ b :: rest.
Proof.
  intros Hi. exists (take i ws ++ drop (S i) ws). split.
  - rewrite <-(take_drop_middle ws i a Hi) at 1. by rewrite Permutation_middle.
  - rewrite insert_take_drop by (by eapply lookup_lt_Some). by rewrite Permutation_middle.
Qed.

(** A push wakes a sleeping worker when there is one. *)
Lemma signal_split k ws : may_signal k ws ->
  (Waiting ∉ ws /\ signal k ws = ws) \/ exists rest, ws ≡ₚ Waiting :: rest /\ signal k ws ≡ₚ Popping :: rest.
Proof.
  intros Hk. unfold signal. destruct (ws !! k) as [a|] eqn:E.
  - destruct (is_waiting a) eqn:Ha.
    + destruct a; try done. right. by apply (worker_split ws k Waiting Popping).
    + left. split; [|by destruct a]. intros Hin. specialize (Hk Hin). rewrite E in Hk. by injection Hk as ->.
  - left. split; [|done]. intros Hin. specialize (Hk Hin). congruence.
Qed.

Lemma signal_other k ws i a : ws !! i = Some a -> a <> Waiting -> signal k ws !! i = Some a.
Proof.
  intros Hi Ha. unfold signal. destruct (ws !! k) as [[]|] eqn:E; try done.
  rewrite list_lookup_insert_ne; [done|]. intros ->. congruence.
Qed.

Definition held a : list string :=
  match a with Running j | Retrying j => [j_ID j] | Sending r => [r_JobID r] | _ => [] end.

(** The jobs that are not yet reported, and those that are. *)
Definition pending s : list string := map j_ID (p_queue s) ++ concat (map held (p_workers s)).
Definition delivered s : list string := map r_JobID (p_results s ++ p_received s).

Lemma held_perm ws ws' : ws ≡ₚ ws' -> concat (map held ws) ≡ₚ concat (map held ws').
Proof. intros E. by rewrite E. Qed.

(** Identifiers are conserved when those of the queue and of one worker are. *)
Lemma set_worker_pending ws i a b (q q' : list (Job P)) : ws !! i = Some a ->
  map j_ID q' ++ held b ≡ₚ map j_ID q ++ held a ->
  map j_ID q' ++ concat (map held (<[i := b]> ws)) ≡ₚ map j_ID q ++ concat (map held ws).
Proof.
  intros Hi E. destruct (worker_split ws i a b Hi) as (rest & E1 & E2).
  rewrite (held_perm _ _ E1), (held_perm _ _ E2). cbn [map concat]. by rewrite !app_assoc, E.
Qed.

Lemma signal_held k ws : concat (map held (signal k ws)) ≡ₚ concat (map held ws).
Proof.
  unfold signal. destruct (ws !! k) as [[]|] eqn:E; try done.
  destruct (worker_split ws k Waiting Popping E) as (rest & E1 & E2). by rewrite (held_perm _ _ E2), (held_perm _ _ E1).
Qed.

Lemma Push_ids j (q : list (Job P)) : map j_ID (Push j q) ≡ₚ j_ID j :: map j_ID q.
Proof. by rewrite Push_perm. Qed.

(** *** The work that is left *)

Definition job_weight j : nat := 5 * Z.to_nat (j_MaxRetries j - j_Retries j) + 5.

Definition weight a : nat :=
  match a with
  | Ready => 2 | Popping => 1 | Waiting => 0 | Exited => 0
  | Running j => job_weight j | Retrying j => job_weight j + 4 | Sending _ => 4
  end.

Definition work s : nat :=
  sum_list_with job_weight (p_queue s) + sum_list_with weight (p_workers s) + length (p_results s).

Definition poppers ws : nat := sum_list_with (fun a => if is_popping a then 1%nat else 0%nat) ws.

Lemma sum_split (f : activity P O -> nat) ws i a b : ws !! i = Some a ->
  (sum_list_with f (<[i := b]> ws) + f a = sum_list_with f ws + f b)%nat.
Proof.
  intros Hi. destruct (worker_split ws i a b Hi) as (rest & E1 & E2). rewrite E2, E1. simpl. lia.
Qed.

Lemma signal_work k ws : (sum_list_with weight (signal k ws) <= sum_list_with weight ws + 1)%nat.
Proof.
  unfold signal. destruct (ws !! k) as [[]|] eqn:E; try lia.
  pose proof (sum_split weight ws k Waiting Popping E). simpl in *. lia.
Qed.

Lemma Push_work j (q : list (Job P)) : sum_list_with job_weight (Push j q) = (job_weight j + sum_list_with job_weight q)%nat.
Proof. by rewrite Push_perm. Qed.

Lemma retried_weight j : j_Retries j < j_MaxRetries j -> (job_weight (retried j) + 5 = job_weight j)%nat.
Proof. intros Hlt. unfold job_weight, retried. simpl. lia. Qed.

(** Every step does some of the work. *)
Lemma step_work s s' : step s s' -> (work s' < work s)%nat.
Proof.
  intros [k i s0 s1 Hk E|s0 s1 E].
  - unfold worker_step in E. destruct (p_workers s0 !! i) as [a|] eqn:Hi; [|done]. 
    pose proof (fun b => sum_split weight _ i a b Hi) as Hs. destruct a as [| | |j|j|r|]; try done.
    + injection E as <-. unfold work. simpl. destruct (p_cancelled s0); [specialize (Hs Exited)|specialize (Hs Popping)]; simpl in Hs; lia.
    + destruct (p_queue s0) as [|j q] eqn:Eq; injection E as <-; unfold work; simpl; rewrite Eq; simpl;
        [specialize (Hs Waiting)|specialize (Hs (Running j))]; simpl in Hs; lia.
    + destruct (processJob j s0) as [[a w]|] eqn:Ep; [|done]. injection E as <-. unfold work. simpl. specialize (Hs a).
      assert (weight a < job_weight j)%nat; [|simpl in Hs; lia].
      unfold processJob in Ep. destruct (p_handlers s0 !! j_Type j) as [h|]; [|injection Ep as <- _; unfold job_weight; simpl; lia].
      destruct (h j (p_world s0)) as [[o|e|m|] w']; try done; [injection Ep as <- _; unfold job_weight; simpl; lia|].
      destruct (Z.ltb_spec (j_Retries j) (j_MaxRetries j)) as [Hlt|]; injection Ep as <- _; [|unfold job_weight; simpl; lia].
      pose proof (retried_weight j Hlt). simpl. lia.
    + injection E as <-. unfold work. simpl. rewrite Push_work. pose proof (signal_work k (p_workers s0)).
      pose proof (sum_split weight _ i _ Ready (signal_other k _ _ _ Hi ltac:(done))) as Hr. simpl in Hr. lia.
    + destruct (length (p_results s0) <? results_cap)%nat; [|done]. injection E as <-. unfold work. simpl.
      specialize (Hs Ready). simpl in Hs. rewrite length_app. simpl. lia.
  - unfold receive in E. destruct (p_results s0) as [|r rs] eqn:Er; [done|]. injection E as <-. unfold work. simpl. rewrite Er. simpl. lia.
Qed.

(** *** The invariant *)

Record pool_ok (submitted : list string) s : Prop := {
  ok_accounted : pending s ++ delivered s ≡ₚ submitted;
  ok_wakeup : Waiting ∈ p_workers s -> (length (p_queue s) <= poppers (p_workers s))%nat;
  ok_exited : Exited ∈ p_workers s -> p_cancelled s = true
}.

Lemma elem_of_insert_worker ws i a b : a ∈ <[i := b]> ws -> a = b \/ a ∈ ws.
Proof.
  intros [k Hk]%list_elem_of_lookup. apply list_lookup_insert_Some in Hk as [(_ & -> & _)|[_ Hk]]; [by left|].
  right. by eapply list_elem_of_lookup_2.
Qed.

Lemma elem_of_signal k ws a : a ∈ signal k ws -> a = Popping \/ a ∈ ws.
Proof. unfold signal. destruct (ws !! k) as [[]|]; auto. apply elem_of_insert_worker. Qed.

Lemma Push_length j (q : list (Job P)) : length (Push j q) = S (length q).
Proof. by rewrite Push_perm. Qed.

(** A push accounts for one job more, and wakes one of those that sleep. *)
Lemma queue_push_ok k j l s : may_signal k (p_workers s) -> pool_ok l s -> pool_ok (j_ID j :: l) (queue_push k j s).
Proof.
  intros Hk [Ha Hw He]. split; simpl.
  - unfold pending, delivered in *. simpl. rewrite (signal_held k), (Push_ids j). cbn [app]. by rewrite Ha.
  - rewrite Push_length. destruct (signal_split k (p_workers s) Hk) as [[Hn ->]|(rest & E1 & E2)]; [by intros ?%Hn|].
    intros _. assert (Waiting ∈ p_workers s) as Hin by (rewrite E1; by left). specialize (Hw Hin).
    unfold poppers in *. rewrite E2. rewrite E1 in Hw. simpl in *. lia.
  - intros [?|Hin]%elem_of_signal; [done|]. auto.
Qed.

(** One worker goes from [a] to [b], with whatever happens to the queue and the results. *)
Lemma move_ok l l' s s' i a b : p_workers s !! i = Some a ->
  p_workers s' = <[i := b]> (p_workers s) -> p_cancelled s' = p_cancelled s ->
  (forall R, map j_ID (p_queue s) ++ held a ++ R ++ delivered s ≡ₚ l -> map j_ID (p_queue s') ++ held b ++ R ++ delivered s' ≡ₚ l') ->
  (b = Waiting -> p_queue s' = []) ->
  (length (p_queue s') + (if is_popping a then 1 else 0) <= length (p_queue s) + (if is_popping b then 1 else 0))%nat \/ b = Waiting ->
  (b = Exited -> p_cancelled s = true) ->
  pool_ok l s -> pool_ok l' s'.
Proof.
  intros Hi Ew Ec Hids Hb Hlen Hx [Ha Hw He]. destruct (worker_split _ i _ b Hi) as (rest & E1 & E2).
  split; rewrite ?Ew, ?Ec.
  - unfold pending in *. rewrite Ew. rewrite (held_perm _ _ E1) in Ha. rewrite (held_perm _ _ E2). cbn [map concat] in *.
    rewrite <-!app_assoc in *. auto.
  - unfold poppers in *. rewrite E2. rewrite E1 in Hw. intros [<-|Hin]%elem_of_cons; [by rewrite Hb by done; simpl; lia|].
    specialize (Hw (list_elem_of_further _ _ _ Hin)). destruct Hlen as [Hlen| ->]; [|rewrite Hb by done]; simpl in *; lia.
  - intros [Hin|Hin]%elem_of_insert_worker; auto.
Qed.

Lemma processJob_held j s a w : processJob j s = Some (a, w) -> held a = [j_ID j] /\ is_popping a = false /\ a <> Waiting /\ a <> Exited.
Proof. unfold processJob. intros E. by repeat case_match; simplify_eq. Qed.

Lemma step_ok l s s' : pool_ok l s -> step s s' -> pool_ok l s'.
Proof.
  intros Hok Hst. revert Hok. destruct Hst as [k i s0 s1 Hk E|s0 s1 E]; intros Hok.
  - unfold worker_step in E. destruct (p_workers s0 !! i) as [a|] eqn:Hi; [|done]. destruct a as [| | |j|j|r|]; try done.
    + injection E as <-. eapply (move_ok l l s0); [exact Hi|done|done|by destruct (p_cancelled s0)|by destruct (p_cancelled s0)| | |done].
      * left. destruct (p_cancelled s0); simpl; lia.
      * by destruct (p_cancelled s0).
    + destruct (p_queue s0) as [|j q] eqn:Eq; injection E as <-.
      * eapply (move_ok l l s0); [exact Hi|done|done|intros R <-; simpl; by rewrite Eq|done|by right|done|done].
      * eapply (move_ok l l s0); [exact Hi|done|done| |done| |done|done]; simpl; rewrite Eq; simpl; [|left; lia].
        intros R <-. symmetry. apply Permutation_middle.
    + destruct (processJob j s0) as [[a w]|] eqn:Ep; [|done]. injection E as <-.
      apply processJob_held in Ep as (Ea & Ep & Hn & Hx). eapply (move_ok l l s0); [exact Hi|done|done| | | | |done]; simpl; try done.
      * intros R. by rewrite Ea.
      * left. rewrite Ep. lia.
    + injection E as <-. eapply (move_ok (j_ID j :: l) l (queue_push k j s0)); [by apply signal_other|done|done| |done| |done|by apply queue_push_ok].
      * intros R E. apply (Permutation_cons_inv (a := j_ID j)). simpl in *. rewrite <-E. by rewrite <-Permutation_middle.
      * left. simpl. lia.
    + destruct (length (p_results s0) <? results_cap)%nat; [|done]. injection E as <-.
      eapply (move_ok l l s0); [exact Hi|done|done| |done| |done|done]; [|left; simpl; lia].
      intros R <-. unfold delivered. simpl. apply Permutation_app_head. rewrite !map_app, <-app_assoc. simpl.
      by rewrite app_assoc, <-Permutation_middle, <-app_assoc.
  - destruct Hok as [Ha Hw He]. unfold receive in E. destruct (p_results s0) as [|r rs] eqn:Er; [done|]. injection E as <-. split; [|done..].
    rewrite <-Ha. unfold pending, delivered. simpl. apply Permutation_app_head. rewrite Er. simpl. by rewrite app_assoc, map_app, Permutation_app_comm.
Qed.

Lemma reach_ok n l s : reach n l s -> pool_ok l s.
Proof.
  induction 1 as [workers w|l s t h Hr IH|l s k j Hk Hr IH|l s Hr IH|l s Hr IH|l s s' Hr IH Hs].
  - split; [done|by intros ?%elem_of_nil..].
  - destruct IH as [Ha Hw He]. by split.
  - assert (j_ID (with_default_retries j) = j_ID j) as <- by (unfold with_default_retries; by destruct (_ =? 0)).
    by apply queue_push_ok.
  - unfold Start. destruct (p_running s); [done|]. destruct IH as [Ha Hw He]. split; simpl.
    + rewrite <-Ha. unfold pending, delivered. simpl. rewrite map_app, concat_app.
      replace (concat (map held (replicate (p_size s) Ready))) with (@nil string); [by rewrite app_nil_r|].
      by induction (p_size s).
    + intros [Hin|Hin]%elem_of_app; [|by apply elem_of_replicate in Hin as [? _]]. specialize (Hw Hin). unfold poppers in *.
      rewrite sum_list_with_app. lia.
    + intros [Hin|Hin]%elem_of_app; [auto|by apply elem_of_replicate in Hin as [? _]].
  - unfold Stop. destruct (p_running s); [|done]. destruct IH as [Ha Hw He]. by split.
  - by eapply step_ok.
Qed.

(** *** Progress *)

Definition handlers_settle s : Prop := forall t h, p_handlers s !! t = Some h -> forall j w, settles (h j w).1.

Lemma signal_length k ws : length (signal k ws) = length ws.
Proof. unfold signal. destruct (ws !! k) as [[]|]; try done. apply length_insert. Qed.

Lemma step_frame s s' : step s s' ->
  p_handlers s' = p_handlers s /\ p_cancelled s' = p_cancelled s /\ length (p_workers s') = length (p_workers s).
Proof.
  intros [k i s0 s1 _ E|s0 s1 E].
  - unfold worker_step in E. destruct (p_workers s0 !! i) as [[]|]; try done;
      repeat case_match; simplify_eq; simpl; rewrite ?length_insert, ?signal_length; try done.
    destruct (processJob _ _) as [[a w]|]; [|done]. injection E as <-. simpl. by rewrite length_insert.
  - unfold receive in E. by repeat case_match; simplify_eq.
Qed.

Lemma waker ws : exists k, may_signal k ws.
Proof.
  destruct (decide (Exists (fun a => is_waiting a = true) ws)) as [Hex|Hn].
  - apply Exists_exists in Hex as (a & [k Hk]%list_elem_of_lookup & Ha). exists k. intros _. by destruct a.
  - exists 0%nat. intros Hin. destruct Hn. apply Exists_exists. eauto.
Qed.

(** A pool with work left, workers and no cancellation can take a step. *)
Lemma pool_progress l s : pool_ok l s -> handlers_settle s -> p_cancelled s = false -> p_workers s <> [] ->
  pending s <> [] \/ p_results s <> [] -> exists s', step s s'.
Proof.
  intros [_ Hw He] Hh Hc Hne Hleft. destruct (waker (p_workers s)) as [k Hk].
  destruct (p_results s) as [|r rs] eqn:Er; [|eexists; apply step_receive; unfold receive; by rewrite Er].
  destruct (decide (Exists (fun a => is_waiting a = false) (p_workers s))) as [Hex|Hall].
  - apply Exists_exists in Hex as (a & [i Hi]%list_elem_of_lookup & Ha).
    assert (is_Some (worker_step k i s)) as [s' E]; [|exists s'; by eapply step_worker].
    unfold worker_step. rewrite Hi. destruct a as [| | |j|j|x|]; try done; [destruct (Pop _) as [[]|]; done| | |].
    + assert (is_Some (processJob j s)) as [[a w] ->]; [|done]. unfold processJob.
      destruct (p_handlers s !! j_Type j) as [h|] eqn:Eh; [|done]. specialize (Hh _ _ Eh j (p_world s)).
      destruct (h j (p_world s)) as [[o|e|m|] w]; try done. by destruct (_ <? _).
    + by rewrite Er.
    + rewrite He in Hc; [done|]. by eapply list_elem_of_lookup_2.
  - exfalso. assert (Forall (fun a => a = Waiting) (p_workers s)) as Hf.
    { apply Forall_forall. intros a Hin. destruct (is_waiting a) eqn:Ea; [by destruct a|]. destruct Hall. apply Exists_exists. eauto. }
    assert (poppers (p_workers s) = 0%nat /\ concat (map held (p_workers s)) = []) as [Hp Hd].
    { clear -Hf. induction Hf as [|a ws -> _ [IH1 IH2]]; [done|]. split; simpl; [exact IH1|exact IH2]. }
    assert (Waiting ∈ p_workers s) as Hin.
    { destruct Hf as [|a ws -> _]; [done|by left]. }
    specialize (Hw Hin). rewrite Hp in Hw.
    destruct (p_queue s) eqn:Eq; [|simpl in Hw; lia]. destruct Hleft as [Hl|Hl]; [|congruence].
    apply Hl. unfold pending. rewrite Eq. exact Hd.
Qed.

Lemma nsteps_work n s s' : nsteps step n s s' -> (n + work s' <= work s)%nat.
Proof.
  induction 1 as [|m x y z Hxy Hyz IH]; [done|]. apply step_work in Hxy. lia.
Qed.

(** [C24] Every submitted job is reported.  In every state that a pool of workers
    can reach, whatever the interleaving of workers, submissions and handler
    failures, each submitted job is accounted for exactly once: queued, held by a
    worker, or reported.  Until the pool is stopped, and with handlers that return,
    no run without further submissions is infinite, and it cannot end -- no
    wake-up is lost and no worker blocks for good -- before the consumer has taken
    exactly one result for each submitted job. *)
Lemma jobs_are_reported n submitted s : reach n submitted s ->
  p_cancelled s = false -> p_workers s <> [] -> handlers_settle s ->
  pending s ++ delivered s ≡ₚ submitted /\
  (forall m s', nsteps step m s s' -> (m <= work s)%nat) /\
  (forall s', rtc step s s' -> (exists s'', step s' s'') \/ map r_JobID (p_received s') ≡ₚ submitted).
Proof.
  intros Hr%reach_ok Hc Hw Hh. split; [apply Hr|]. split; [intros m s' Hm%nsteps_work; lia|].
  intros s' Hs. assert (pool_ok submitted s' /\ p_cancelled s' = false /\ p_workers s' <> [] /\ handlers_settle s') as (Hok & Hc' & Hw' & Hh').
  { induction Hs as [|x y z Hxy _ IH]; [done|]. destruct (step_frame _ _ Hxy) as (E1 & E2 & E3). apply IH; clear IH.
    - by eapply step_ok.
    - congruence.
    - intros E. rewrite E in E3. by destruct (p_workers x).
    - intros t h. rewrite E1. apply Hh. }
  pose proof (pool_progress _ _ Hok Hh' Hc' Hw') as Hp. pose proof (ok_accounted _ _ Hok) as Ha.
  destruct (pending s') as [|x xs] eqn:Ep; [|left; apply Hp; by left]. destruct (p_results s') as [|r rs] eqn:Er; [|left; apply Hp; by right].
  right. unfold delivered in Ha. by rewrite Er in Ha.
Qed.

(** [Fact] Stopping an idle pool hangs: a worker asleep on an empty queue is woken by
    a push only, and when no other worker still holds a job none will come, so
    [Stop] waits forever for it to exit. *)
Lemma Stop_never_returns s i s' : p_workers s !! i = Some Waiting -> p_queue s = [] ->
  (forall a, a ∈ p_workers s -> forall j, a <> Running j /\ a <> Retrying j) ->
  rtc step (Stop s) s' -> ~ all_exited s'.
Proof.
  intros Hi Hq Hn Hs. assert (p_workers (Stop s) !! i = Some Waiting /\ p_queue (Stop s) = [] /\
    forall a, a ∈ p_workers (Stop s) -> forall j, a <> Running j /\ a <> Retrying j) as H0 by (unfold Stop; by destruct (p_running s)).
  clear Hi Hq Hn. assert (p_workers s' !! i = Some Waiting) as Hi; [|intros Hall; by apply (Forall_lookup_1 _ _ _ _ Hall) in Hi].
  induction Hs as [|x y z Hxy _ IH]; [apply H0|]. apply IH. destruct H0 as (Hi & Hq & Hn). clear IH.
  destruct Hxy as [k i0 s0 s1 Hk E|s0 s1 E]; [|unfold receive in E; by case_match; simplify_eq].
  unfold worker_step in E. destruct (p_workers s0 !! i0) as [a|] eqn:Hi0; [|done].
  assert (forall b, a <> Waiting -> (forall j, b <> Running j /\ b <> Retrying j) ->
    <[i0 := b]> (p_workers s0) !! i = Some Waiting /\ forall c, c ∈ <[i0 := b]> (p_workers s0) -> forall j, c <> Running j /\ c <> Retrying j) as Hset.
  { intros b Ha Hb. split; [rewrite list_lookup_insert_ne; [done|]; intros ->; congruence|].
    intros c [->|Hc]%elem_of_insert_worker; auto. }
  destruct a as [| | |j|j|r|]; try done.
  - injection E as <-. destruct (Hset (if p_cancelled s0 then Exited else Popping)) as [? ?]; [done|by destruct (p_cancelled s0)|]. done.
  - rewrite Hq in E. injection E as <-. by destruct (Hset Waiting).
  - by destruct (Hn (Running j) ltac:(by eapply list_elem_of_lookup_2) j).
  - by destruct (Hn (Retrying j) ltac:(by eapply list_elem_of_lookup_2) j).
  - destruct (length (p_results s0) <? results_cap)%nat; [|done]. injection E as <-. by destruct (Hset Ready).
Qed.
End PoolProofs.

(** ** Witnesses *)

(** A handler that counts its runs and fails the first time. *)
Definition flaky : Handler unit Z Z := fun _ w => if w =? 0 then (Err (Errorf "not yet"), 1) else (Ok w, w + 1).

Definition job_named (id : string) : Job unit := mkJob id "count" tt 0 0 0.

Definition pool0 : WorkerPool unit Z Z :=
  Submit 0 (job_named "b") (Submit 0 (job_named "a") (Start (RegisterHandler "count" flaky (NewWorkerPool 1 2 0)))).

Lemma jobs_are_reported_witness : reach 1 ["b"; "a"]%string pool0 /\
  forall s', rtc step pool0 s' -> (exists s'', step s' s'') \/ map r_JobID (p_received s') ≡ₚ ["b"; "a"]%string.
Proof.
  assert (reach 1 ["b"; "a"]%string pool0) as Hr.
  { apply (reach_submit 1 ["a"%string] _ 0 (job_named "b")); [intros Hin; vm_compute in Hin; set_solver|].
    apply (reach_submit 1 [] _ 0 (job_named "a")); [intros Hin; vm_compute in Hin; set_solver|].
    apply reach_start, reach_register, reach_new. }
  split; [exact Hr|].
  refine (proj2 (proj2 (jobs_are_reported 1 ["b"; "a"]%string pool0 Hr eq_refl _ _))); [discriminate|].
  intros t h Ht j w. unfold pool0 in Ht. simpl in Ht. destruct (decide (t = "count"%string)) as [->|Hne].
  - rewrite lookup_insert_eq in Ht. injection Ht as <-. unfold flaky. destruct (w =? 0); exact I.
  - rewrite lookup_insert_ne in Ht by congruence. discriminate Ht.
Defined.
