(* ===== verification/Gc.v ===== *)
(** * Garbage collection (internal/worker: gc.go, manager.go)

    The collector works on the database and the store of the server; the manager
    puts its handler on the pool of [Worker] and schedules it.  Times of the
    database are in seconds; a retention limit counts with its seconds, which is
    exact against times of that kind. *)

From S2P Require Import Prelude GoStrings GoCrypto Database Vfs Storage Server Chunker Devices Users Upload Worker.

Definition GCJobType : string := "garbage-collect".

Record GCSpec := mkSpec { gs_Type : string; gs_OlderThan : Z }.

Record GCResult := mkGCResult { gr_Type : string; gr_Collected : Z; gr_Freed : Z; gr_Errors : list error }.

(** [time.Time{}] in seconds. *)
Definition zero_time_s : Z := -62135596800.

Definition new_result (type : string) : GCResult := mkGCResult type 0 0 [].
Definition collected (size : Z) (r : GCResult) : GCResult :=
  mkGCResult (gr_Type r) (i64 (gr_Collected r + 1)) (i64 (gr_Freed r + size)) (gr_Errors r).
Definition add_error (e : error) (r : GCResult) : GCResult :=
  mkGCResult (gr_Type r) (gr_Collected r) (gr_Freed r) (gr_Errors r ++ [e]).

(** A loop that threads a value. *)
Fixpoint foldG {W A B} (f : A -> B -> GoM W A) (a : A) (l : list B) : GoM W A :=
  match l with [] => mret a | b :: l => a' ← f a b; foldG f a' l end.

Section Gc.
Context `{HashFn} {S : Type} `{Backend S}.

(** What SQL answers when a stored time is compared with a bound one. *)
Context (sql_before : Z -> Z -> bool).

(** ** Chunks without references *)

Definition collect_chunk (olderThan : Z) (result : GCResult) (chunk : Database.Chunk) : GoM (Server S) GCResult :=
  if (olderThan =? zero_time_s) || (olderThan <? c_CreatedAt chunk) then mret result
  else
    r ← attempt (on_store (Delete (c_Hash chunk)));
    match r with
    | inr e => mret (add_error (Wrapf ("failed to delete chunk " +:+ c_Hash chunk +:+ " from storage") e) result)
    | inl _ =>
        r ← attempt (on_db (DeleteChunk (c_Hash chunk)));
        match r with
        | inr e => mret (add_error (Wrapf ("failed to delete chunk " +:+ c_Hash chunk +:+ " from database") e) result)
        | inl _ => mret (collected (c_SizeBytes chunk) result)
        end
    end.

Definition collectOrphanedChunks (spec : GCSpec) : GoM (Server S) GCResult :=
  chunks ← wrap "failed to list orphaned chunks" (on_db ListOrphanedChunks);
  foldG (collect_chunk (gs_OlderThan spec)) (new_result "orphaned-chunks") chunks.

(** ** Old versions *)

(** ORDER BY file_id, version DESC *)
Definition by_file (a b : Manifest) : Prop :=
  match String.compare (m_FileID a) (m_FileID b) with
  | Lt => True
  | Eq => m_Version b <= m_Version a
  | Gt => False
  end.

#[export] Instance by_file_dec : RelDecision by_file.
Proof. intros a b. unfold by_file. destruct (String.compare _ _); apply _. Defined.

Definition old_manifests (olderThan : Z) (d : DB) : list Manifest :=
  merge_sort by_file (List.filter (fun m => sql_before (m_CreatedAt m) olderThan) (rows (db_manifests d))).

(** The result and the number of versions met of each file. *)
Definition collect_version (acc : GCResult * gmap string Z) (m : Manifest) : GoM (Server S) (GCResult * gmap string Z) :=
  let n := default 0 (acc.2 !! m_FileID m) + 1 in
  let fileVersions := <[m_FileID m := n]> acc.2 in
  if 5 <? n then
    r ← attempt (on_db (DeleteManifest (m_ID m)));
    match r with
    | inr e => mret (add_error e acc.1, fileVersions)
    | inl _ => mret (collected (m_SizeBytes m) acc.1, fileVersions)
    end
  else mret (acc.1, fileVersions).

Definition collectOldVersions (spec : GCSpec) : GoM (Server S) GCResult :=
  manifests ← wrap "failed to query versions" (on_db (sql_query (old_manifests (gs_OlderThan spec))));
  acc ← foldG collect_version (new_result "old-versions", ∅) manifests;
  mret acc.1.

(** ** Trash *)

Definition trash_before (olderThan : Z) (f : File) : bool :=
  f_IsTrashed f && match f_TrashedAt f with Some t => sql_before t olderThan | None => false end.

Definition old_trash (olderThan : Z) (d : DB) : list File := List.filter (trash_before olderThan) (rows (db_files d)).

(** One turn of the loop of [deleteFile]. *)
Definition gc_release (chunkHash : string) : GoM (Server S) unit :=
  r ← attempt (on_db (DecrementRefCount chunkHash));
  match r with
  | inr _ => mret tt
  | inl _ =>
      r ← attempt (on_db (GetChunk chunkHash));
      match r with
      | inr _ => mret tt
      | inl chunk =>
          if c_RefCount chunk <=? 0 then
            ignore (on_store (Delete chunkHash));;
            ignore (on_db (DeleteChunk chunkHash))
          else mret tt
      end
  end.

(** The error that is returned is that of the lookup of the manifest. *)
Definition deleteFile (fileID : string) : GoM (Server S) unit :=
  manifest ← attempt (on_db (GetLatestManifest fileID));
  (match manifest with inl m => forM (m_Chunks m) gc_release | inr _ => mret tt end);;
  ignore (on_db (sql_exec (delete_file fileID)));;
  match manifest with inl _ => mret tt | inr e => fail e end.

Definition collect_trashed (result : GCResult) (f : File) : GoM (Server S) GCResult :=
  r ← attempt (deleteFile (f_ID f));
  match r with
  | inr e => mret (add_error e result)
  | inl _ => mret (collected (f_SizeBytes f) result)
  end.

Definition collectTrash (spec : GCSpec) : GoM (Server S) GCResult :=
  files ← wrap "failed to query trash" (on_db (sql_query (old_trash (gs_OlderThan spec))));
  foldG collect_trashed (new_result "trash") files.

(** ** The handler and its jobs *)

Inductive payload := PSpec (spec : GCSpec) | POther.

Definition collect (spec : GCSpec) : GoM (Server S) GCResult :=
  if bool_decide (gs_Type spec = "orphaned-chunks"%string) then collectOrphanedChunks spec
  else if bool_decide (gs_Type spec = "old-versions"%string) then collectOldVersions spec
  else if bool_decide (gs_Type spec = "trash"%string) then collectTrash spec
  else fail (Errorf ("unknown gc type: " +:+ gs_Type spec)).

Definition GC_Handler : Handler payload GCResult (Server S) := fun job =>
  match j_Payload job with PSpec spec => collect spec | POther => fail (Errorf "invalid payload type") end.

Abbreviation Pool := (WorkerPool payload GCResult (Server S)).

Definition Register (pool : Pool) : Pool := RegisterHandler GCJobType GC_Handler pool.

(** [now] in nanoseconds. *)
Definition QueueGCJob (k : nat) (now : Z) (spec : GCSpec) (pool : Pool) : Pool :=
  Submit k (mkJob ("gc-" +:+ gs_Type spec +:+ "-" +:+ pretty (now / 1000000000)) GCJobType (PSpec spec) 1 0 0) pool.

(** ** manager.go: the manager is its scheduler, which holds the pool *)

Definition NewManager (NumCPU : nat) (w : Server S) : Scheduler payload GCResult (Server S) :=
  NewScheduler (Register (NewWorkerPool NumCPU 4 w)).

Definition Day : Z := 24 * 3600 * 1000000000.

Definition Manager_Start (now : Z) (m : Scheduler payload GCResult (Server S)) : Scheduler payload GCResult (Server S) :=
  AddTask "trash-cleanup" GCJobType (PSpec (mkSpec "trash" ((now - 30 * Day) / 1000000000))) Day
    (mkScheduler (Start (sc_pool m)) (sc_tasks m)).

Definition QueueGC (k : nat) (now : Z) (spec : GCSpec) (m : Scheduler payload GCResult (Server S)) :=
  mkScheduler (QueueGCJob k now spec (sc_pool m)) (sc_tasks m).
End Gc.

(** One pass of the cleanup of sessions; its outcome is only logged. *)
Definition runSessionCleanup : GoM AuthDB unit := ignore CleanupExpiredSessions.

(** ** Lemmas *)

Section Proofs.
Context `{HashFn} {S : Type} `{Backend S} (sql_before : Z -> Z -> bool) (Hkeys : forall d, valid_key (sha256_hex d)).
Implicit Types w : Server S.

(** *** Statements that look at no manifest and touch neither files nor manifests *)

Definition mask (M : gmap string Manifest) w : Server S := mkServer (with_manifests M (sv_db w)) (sv_store w) (sv_sessions w).

Definition blind {A} (m : GoM (Server S) A) : Prop := forall w,
  (forall M, m (mask M w) = ((m w).1, mask M (m w).2)) /\
  db_files (sv_db (m w).2) = db_files (sv_db w) /\ db_fk (sv_db (m w).2) = db_fk (sv_db w).

Lemma blind_ret {A} (a : A) : blind (mret a).
Proof. by intros w. Qed.

Lemma blind_bind {A B} (m : GoM (Server S) A) (k : A -> GoM (Server S) B) : blind m -> (forall a, blind (k a)) -> blind (m ≫= k).
Proof.
  intros Hm Hk w. destruct (Hm w) as (E & F & G). unfold mbind, GoM_bind.
  destruct (m w) as [[a|e|s|] w1] eqn:Em; simpl in *; [|split_and!; [intros M; by rewrite E|done..]..].
  destruct (Hk a w1) as (E' & F' & G'). split_and!; [intros M; by rewrite E, E'|congruence..].
Qed.

Lemma blind_attempt {A} (m : GoM (Server S) A) : blind m -> blind (attempt m).
Proof.
  intros Hm w. destruct (Hm w) as (E & F & G). unfold attempt. destruct (m w) as [[a|e|s|] w1] eqn:Em; simpl in *;
    (split_and!; [intros M; by rewrite E|done..]).
Qed.

Lemma blind_ignore {A} (m : GoM (Server S) A) : blind m -> blind (ignore m).
Proof. intros Hm. apply blind_bind; [by apply blind_attempt|]. intros ?. apply blind_ret. Qed.

Lemma blind_forM {B} (l : list B) (body : B -> GoM (Server S) unit) : (forall b, blind (body b)) -> blind (forM l body).
Proof. intros Hb. induction l as [|b l IH]; simpl; [apply blind_ret|]. by apply blind_bind. Qed.

Lemma blind_on_store {A} (m : GoM S A) : blind (on_store m).
Proof. intros w. unfold on_store, mask. simpl. by destruct (m (sv_store w)). Qed.

Lemma blind_DecrementRefCount h : blind (on_db (DecrementRefCount h)).
Proof.
  intros w. unfold on_db, DecrementRefCount, wrap, affected, sql_exec, bump_chunk, mask, mbind, GoM_bind. simpl.
  destruct (next_fault _) as [[] l]; [done|]. simpl. destruct (db_chunks (sv_db w) !! h) as [c|]; [|done].
  by destruct (0 <? c_RefCount c).
Qed.

Lemma blind_GetChunk h : blind (on_db (GetChunk h)).
Proof.
  intros w. unfold on_db, GetChunk, scan_row, attempt, sql_query, mask, mbind, GoM_bind. simpl.
  destruct (next_fault _) as [[] l]; [done|]. simpl. by destruct (db_chunks (sv_db w) !! h).
Qed.

Lemma blind_DeleteChunk h : blind (on_db (DeleteChunk h)).
Proof.
  intros w. unfold on_db, DeleteChunk, wrap, affected, sql_exec, delete_chunk, mask, mbind, GoM_bind. simpl.
  destruct (next_fault _) as [[] l]; [done|]. simpl. by destruct (db_chunks (sv_db w) !! h).
Qed.

Lemma blind_release h : blind (gc_release h).
Proof.
  apply blind_bind; [apply blind_attempt, blind_DecrementRefCount|]. intros [u|e]; [|apply blind_ret].
  apply blind_bind; [apply blind_attempt, blind_GetChunk|]. intros [c|e]; [|apply blind_ret].
  destruct (_ <=? _); [|apply blind_ret].
  apply blind_bind; [|intros ?]; apply blind_ignore; [apply blind_on_store|apply blind_DeleteChunk].
Qed.

(** It is the release of an expired session. *)
Lemma gc_release_expired h : gc_release h = release_expired h.
Proof. done. Qed.

(** *** Deleting one file *)

Definition drop_file (id : string) (d : DB) : DB := match delete_file id d with inr (_, d') => d' | inl _ => d end.

Definition no_manifests (id : string) (d : DB) : Prop := forall k m, db_manifests d !! k = Some m -> m_FileID m <> id.

(** The file is there, or its manifests are gone with it. *)
Definition deletable (d : DB) (id : string) : Prop := is_Some (db_files d !! id) \/ no_manifests id d.

Lemma exec_delete_quiet id d : quiet d -> (sql_exec (delete_file id) d).2 = drop_file id d /\ settles (sql_exec (delete_file id) d).1.
Proof. intros Hq. rewrite exec_quiet by done. unfold drop_file. by destruct (delete_file id d) as [|[]]. Qed.

Lemma drop_file_rest id d : let d' := drop_file id d in
  db_chunks d' = db_chunks d /\ db_faults d' = db_faults d /\ db_fk d' = db_fk d /\ db_now d' = db_now d /\
  db_files d' ⊆ db_files d /\ db_manifests d' ⊆ db_manifests d.
Proof.
  unfold drop_file, delete_file. destruct (db_files d !! id); [|done]. destruct (db_fk d) eqn:E; simpl;
    split_and!; try done; apply map_filter_subseteq.
Qed.

Lemma drop_file_gone id d : db_fk d = true -> deletable d id ->
  db_files (drop_file id d) !! id = None /\ no_manifests id (drop_file id d).
Proof.
  intros Hfk Hd. unfold drop_file, delete_file. destruct (db_files d !! id) as [f|] eqn:Ef.
  - rewrite Hfk. destruct (cascade_closed (db_files d) id) as (Hin & _); [by rewrite Ef|]. simpl. split.
    + apply map_lookup_filter_None. right. intros g _ Hg. by apply Hg.
    + intros k m [_ Hm]%map_lookup_filter_Some E. apply Hm. simpl. by rewrite E.
  - split; [done|]. destruct Hd as [[? Hd]|Hd]; [congruence|exact Hd].
Qed.

Lemma drop_file_deletable id d id' : db_fk d = true -> deletable d id' -> deletable (drop_file id d) id'.
Proof.
  intros Hfk Hd. unfold deletable, drop_file, delete_file. destruct (db_files d !! id) as [f|] eqn:Ef; [|done].
  rewrite Hfk. simpl. destruct Hd as [[g Hg]|Hd].
  - destruct (decide (id' ∈ cascade (db_files d) id)) as [Hin|Hn].
    + right. intros k m [_ Hm]%map_lookup_filter_Some E. apply Hm. simpl. by rewrite E.
    + left. exists g. by apply map_lookup_filter_Some.
  - right. intros k m [Hm _]%map_lookup_filter_Some. by apply (Hd k).
Qed.

Lemma GetLatestManifest_quiet id d : quiet d -> GetLatestManifest id d =
  match head (versions_of id d) with Some m => (Ok m, d) | None => (Err (Errorf "manifest not found"), d) end.
Proof. intros Hd. unfold GetLatestManifest. by rewrite scan_row_quiet. Qed.

Lemma latest_manifest id d m : head (versions_of id d) = Some m -> m_FileID m = id /\ exists k, db_manifests d !! k = Some m.
Proof.
  intros Hm. assert (m ∈ versions_of id d) as Hin by (destruct (versions_of id d); [done|injection Hm as ->; by left]).
  unfold versions_of in Hin. rewrite merge_sort_Permutation in Hin. apply list_elem_of_filter in Hin as [Hf Hin].
  split; [done|]. by apply elem_of_rows.
Qed.

Lemma mask_self w : mask (db_manifests (sv_db w)) w = w.
Proof. by destruct w as [[] ? ?]. Qed.

(** The chunks of the latest manifest are released while the manifest is still
    there: this is the release without it, seen through [blind]. *)
Lemma release_latest w k m : server_ok w -> db_manifests (sv_db w) !! k = Some m ->
  exists w1, forM (m_Chunks m) gc_release w = (Ok tt, mask (db_manifests (sv_db w)) w1) /\
    covered (sv_sessions w) [] w1 /\ sv_sessions w1 = sv_sessions w /\
    db_manifests (sv_db w1) = delete k (db_manifests (sv_db w)) /\
    db_files (sv_db w1) = db_files (sv_db w) /\ db_fk (sv_db w1) = db_fk (sv_db w).
Proof.
  intros [Hc Hs] Hm. set (w0 := mask (delete k (db_manifests (sv_db w))) w).
  pose proof (covered_unmanifest _ _ _ _ _ Hc Hm) as Hc0.
  pose proof (release_all (sv_sessions w) (sv_sessions w) gc_release (m_Chunks m)
    (fun extra h => release_expired_covered Hkeys _ _ extra h) [] w0 (conj Hc0 eq_refl)) as Hr.
  destruct (blind_forM (m_Chunks m) gc_release blind_release w0) as (Hb & Hf & Hk).
  destruct (forM (m_Chunks m) gc_release w0) as [[[]|e|s|] w1] eqn:E; try done. destruct Hr as [Hc1 Hs1]. simpl in *.
  exists w1. split_and!; try done.
  - specialize (Hb (db_manifests (sv_db w))). rewrite <-Hb. f_equal. by destruct w as [[] ? ?].
  - specialize (Hb (db_manifests (sv_db w0))). rewrite mask_self, E in Hb. injection Hb as ->. done.
Qed.

Lemma drop_file_congr id d d' : db_files d = db_files d' -> db_manifests d = db_manifests d' -> db_fk d = db_fk d' ->
  db_files (drop_file id d) = db_files (drop_file id d') /\ db_manifests (drop_file id d) = db_manifests (drop_file id d').
Proof.
  intros E1 E2 E3. unfold drop_file, delete_file. rewrite E1, E3. destruct (db_files d' !! id); [|done].
  destruct (db_fk d'); simpl; by rewrite ?E1, ?E2.
Qed.

Lemma ignore_delete id w (k : unit -> GoM (Server S) unit) : quiet (sv_db w) ->
  (ignore (on_db (sql_exec (delete_file id))) ≫= k) w = k tt (with_db (drop_file id (sv_db w)) w).
Proof.
  intros Hq. destruct (exec_delete_quiet id (sv_db w) Hq) as [E Hset]. unfold ignore, attempt, on_db, mbind, GoM_bind.
  destruct (sql_exec (delete_file id) (sv_db w)) as [[] d1]; simpl in *; by subst.
Qed.

Lemma drop_file_ok id w : server_ok w -> server_ok (with_db (drop_file id (sv_db w)) w).
Proof.
  intros [Hc Hs]. split; [|done]. apply covered_frame; [done|]. destruct (drop_file_rest id (sv_db w)) as (E1 & E2 & _ & _ & _ & Hm).
  split_and!; [done|done|]. unfold quiet. rewrite E2. apply (cov_quiet _ _ _ Hc).
Qed.

Lemma deleteFile_ok id w : server_ok w -> db_fk (sv_db w) = true -> deletable (sv_db w) id ->
  exists r w', deleteFile id w = (r, w') /\ settles r /\ server_ok w' /\
    db_files (sv_db w') = db_files (drop_file id (sv_db w)) /\
    db_manifests (sv_db w') = db_manifests (drop_file id (sv_db w)) /\ db_fk (sv_db w') = true.
Proof.
  intros Hok Hfk Hd. pose proof Hok as [Hc Hs]. pose proof (cov_quiet _ _ _ Hc) as Hq.
  assert (with_db (sv_db w) w = w) as Eta by by destruct w.
  unfold deleteFile. destruct (head (versions_of id (sv_db w))) as [m|] eqn:Em.
  - rewrite (bind_ok _ _ w (inl m) w).
    2:{ rewrite <-Eta at 2. apply attempt_db_ok. rewrite GetLatestManifest_quiet by done. by rewrite Em. }
    destruct (latest_manifest _ _ _ Em) as [Hfid [k Hk]].
    destruct (release_latest w k m Hok Hk) as (w1 & E & Hc1 & Hs1 & Hm1 & Hf1 & Hk1).
    rewrite (bind_ok _ _ _ _ _ E), ignore_delete by apply (cov_quiet _ _ _ Hc1). set (w2 := mask _ w1) in *.
    destruct (drop_file_congr id (sv_db w2) (sv_db w)) as [Ef Em']; [done..|].
    destruct (drop_file_rest id (sv_db w2)) as (Er1 & Er2 & Er3 & _ & _ & Er4).
    eexists _, _. split; [done|]. split; [done|]. split_and!; [|exact Ef|exact Em'|transitivity (db_fk (sv_db w1)); [exact Er3|congruence]].
    split; [|simpl; by rewrite Hs1]. simpl. rewrite Hs1.
    apply (covered_frame _ _ w1 (drop_file id (sv_db w2)) Hc1). split_and!; [exact Er1| |unfold quiet; rewrite Er2; apply (cov_quiet _ _ _ Hc1)].
    rewrite Hm1. apply map_subseteq_spec. intros k' m' Hk'. apply lookup_delete_Some. split.
    + intros <-. destruct (drop_file_gone id (sv_db w)) as [_ Hg]; [done|done|]. rewrite Em' in Hk'. 
      apply (Hg k m'); [done|]. eapply lookup_weaken in Hk'; [|apply (drop_file_rest id (sv_db w))]. congruence.
    + by eapply lookup_weaken in Hk'; [|exact Er4].
  - rewrite (bind_ok _ _ w (inr (Errorf "manifest not found")) w).
    2:{ rewrite <-Eta at 2. apply attempt_db_err. rewrite GetLatestManifest_quiet by done. by rewrite Em. }
    rewrite bind_mret, ignore_delete by done. eexists _, _. split; [done|]. split; [done|].
    split_and!; [by apply drop_file_ok|done..|]. destruct (drop_file_rest id (sv_db w)) as (_ & _ & E & _). by rewrite <-Hfk, <-E.
Qed.

(** *** The loops *)

Lemma collect_trashed_ok result f w : server_ok w -> db_fk (sv_db w) = true -> deletable (sv_db w) (f_ID f) ->
  exists r w', collect_trashed result f w = (Ok r, w') /\ server_ok w' /\
    db_files (sv_db w') = db_files (drop_file (f_ID f) (sv_db w)) /\
    db_manifests (sv_db w') = db_manifests (drop_file (f_ID f) (sv_db w)) /\ db_fk (sv_db w') = true.
Proof.
  intros Hok Hfk Hd. destruct (deleteFile_ok _ _ Hok Hfk Hd) as (r & w' & E & Hr & Hrest).
  unfold collect_trashed, attempt, mbind, GoM_bind. rewrite E. destruct r as [u|e|m|]; try done; eexists _, w'; by split.
Qed.

Lemma trash_loop l : forall result w, server_ok w -> db_fk (sv_db w) = true ->
  (forall f, f ∈ l -> deletable (sv_db w) (f_ID f)) ->
  exists r w', foldG collect_trashed result l w = (Ok r, w') /\ server_ok w' /\
    db_files (sv_db w') ⊆ db_files (sv_db w) /\ forall f, f ∈ l -> db_files (sv_db w') !! f_ID f = None.
Proof.
  induction l as [|f l IH]; intros result w Hok Hfk Hd; cbn [foldG].
  { exists result, w. split_and!; [done..|by intros f ?%elem_of_nil]. }
  destruct (collect_trashed_ok result f w Hok Hfk) as (r & w1 & E & Hok1 & Hf1 & Hm1 & Hfk1); [apply Hd; by left|].
  rewrite (bind_ok _ _ _ _ _ E). destruct (IH r w1) as (r' & w2 & E2 & Hok2 & Hsub & Hgone); [done|done| |].
  - intros g Hg. assert (deletable (drop_file (f_ID f) (sv_db w)) (f_ID g)) as Hdg
      by (apply drop_file_deletable; [done|]; apply Hd; by right).
    unfold deletable, no_manifests in *. by rewrite Hf1, Hm1.
  - exists r', w2. rewrite Hf1 in Hsub. split_and!; [done|done| |].
    + etrans; [exact Hsub|]. apply drop_file_rest.
    + intros g [->|Hg]%elem_of_cons; [|by apply Hgone]. eapply lookup_weaken_None; [|exact Hsub].
      apply drop_file_gone; [done|]. apply Hd. by left.
Qed.

(** The row of the digest has no references, when there is one. *)
Definition unreferenced w (h : string) : Prop := valid_key h /\ forall c, db_chunks (sv_db w) !! h = Some c -> c_RefCount c = 0.

Lemma collect_chunk_ok older result chunk w : server_ok w -> unreferenced w (c_Hash chunk) ->
  exists r w', collect_chunk older result chunk w = (Ok r, w') /\ server_ok w' /\
    db_chunks (sv_db w') ⊆ db_chunks (sv_db w).
Proof.
  intros [Hc Hs] [Hk Hz]. unfold collect_chunk. destruct (_ || _); [by exists result, w|].
  pose proof (delete_law (c_Hash chunk) (sv_store w) Hk (cov_store _ _ _ Hc)) as Hp.
  unfold attempt, on_store, on_db, mbind, GoM_bind.
  destruct (Delete (c_Hash chunk) (sv_store w)) as [[u|e|m|] s']; try done; simpl.
  - destruct Hp as (Hs' & _ & Hb). pose proof (cov_quiet _ _ _ Hc) as Hq.
    destruct (db_chunks (sv_db w) !! c_Hash chunk) as [c|] eqn:Ec.
    + rewrite (DeleteChunk_quiet _ c) by done. eexists _, _. split; [done|]. split; [|simpl; apply delete_subseteq].
      split; [|done]. eapply covered_drop; [exact Hkeys|exact Hc|exact Ec|by apply Hz|done|].
      intros k Hk' Hne. rewrite Hb by done. by rewrite decide_False.
    + unfold DeleteChunk. rewrite exec_affected_quiet by done. unfold delete_chunk. rewrite Ec. simpl.
      eexists _, _. split; [done|]. split; [|done]. split; [|done]. eapply covered_store_call; [exact Hkeys|exact Hc|done|].
      intros k d Hk' Hd [c' Hc']. rewrite Hb by done. rewrite decide_False; [done|]. intros ->. congruence.
  - destruct Hp as [Hs' Hb]. eexists _, _. split; [done|]. split; [|done]. split; [|done].
    eapply covered_store_call; [exact Hkeys|exact Hc|done|]. intros k d Hk' Hd _. by rewrite Hb.
Qed.

Lemma orphan_loop older l : forall result w, server_ok w -> (forall c, c ∈ l -> unreferenced w (c_Hash c)) ->
  exists r w', foldG (collect_chunk older) result l w = (Ok r, w') /\ server_ok w'.
Proof.
  induction l as [|c l IH]; intros result w Hok Hl; cbn [foldG]; [by exists result, w|].
  destruct (collect_chunk_ok older result c w Hok) as (r & w1 & E & Hok1 & Hsub); [apply Hl; by left|].
  rewrite (bind_ok _ _ _ _ _ E). apply IH; [done|]. intros c' Hc'. destruct (Hl c') as [Hk Hz]; [by right|].
  split; [done|]. intros x Hx. apply Hz. by eapply lookup_weaken.
Qed.

Lemma DeleteManifest_ok id w : server_ok w -> settles (on_db (DeleteManifest id) w).1 /\ server_ok (on_db (DeleteManifest id) w).2.
Proof.
  intros Hok. pose proof (cov_quiet _ _ _ (proj1 Hok)) as Hq. split.
  - unfold on_db, DeleteManifest. rewrite exec_affected_quiet by done. unfold delete_manifest.
    by destruct (db_manifests (sv_db w) !! id).
  - apply (file_operation_ok (DeleteManifest id)); [|done]. intros C M. unfold DeleteManifest. apply preserves_bind.
    + apply preserves_wrap, frame_exec. unfold delete_manifest. intros d n d' E.
      destruct (db_manifests d !! id); simplify_eq; [|done]. split_and!; [done|apply delete_subseteq|done].
    + intros n. apply frame_affected.
Qed.

Lemma version_loop l : forall acc w, server_ok w -> exists r w', foldG collect_version acc l w = (Ok r, w') /\ server_ok w'.
Proof.
  induction l as [|m l IH]; intros acc w Hok; cbn [foldG]; [by exists acc, w|].
  assert (exists r w1, collect_version acc m w = (Ok r, w1) /\ server_ok w1) as (r & w1 & E & Hok1);
    [|rewrite (bind_ok _ _ _ _ _ E); by apply IH].
  unfold collect_version. destruct (5 <? _); [|by eexists _, w].
  destruct (DeleteManifest_ok (m_ID m) w Hok) as [Hset Hok1]. unfold attempt, mbind, GoM_bind.
  destruct (on_db _ w) as [[u|e|s|] w1]; try done; by eexists _, w1.
Qed.

Lemma query_ok {A} msg (q : DB -> A) w : server_ok w -> wrap msg (on_db (sql_query q)) w = (Ok (q (sv_db w)), w).
Proof.
  intros [Hc _]. unfold wrap, on_db. rewrite query_quiet by apply (cov_quiet _ _ _ Hc). by destruct w.
Qed.

(** The keys of the tables are the fields that they index. *)
Definition keyed w : Prop :=
  (forall id f, db_files (sv_db w) !! id = Some f -> f_ID f = id) /\
  (forall h c, db_chunks (sv_db w) !! h = Some c -> c_Hash c = h).

Lemma server_ok_content w h : server_ok w -> h ∈ session_refs (sv_sessions w) ++ manifest_refs (db_manifests (sv_db w)) ->
  exists data, blob_at (sv_store w) h = Some data /\ sha256_hex data = h.
Proof.
  intros [Hc _] Hh. apply occ_elem in Hh. rewrite occ_app in Hh. pose proof (cov_refs _ _ _ Hc h) as Hle.
  rewrite occ_nil in Hle. unfold chunk_count in Hle. destruct (db_chunks (sv_db w) !! h) as [c|] eqn:E; [|lia].
  destruct (cov_rows _ _ _ Hc _ _ E) as [_ (data & -> & Hd)]. eauto.
Qed.

Lemma elem_of_old_trash older d f : f ∈ old_trash sql_before older d <->
  trash_before sql_before older f = true /\ exists k, db_files d !! k = Some f.
Proof. unfold old_trash. rewrite list_elem_of_In, filter_In, <-list_elem_of_In, elem_of_rows. tauto. Qed.

Lemma collectTrash_ok spec w : server_ok w -> keyed w -> db_fk (sv_db w) = true ->
  exists r w', collectTrash sql_before spec w = (Ok r, w') /\ server_ok w' /\
    forall id f, db_files (sv_db w') !! id = Some f ->
      db_files (sv_db w) !! id = Some f /\ trash_before sql_before (gs_OlderThan spec) f = false.
Proof.
  intros Hok [Hid _] Hfk. unfold collectTrash. rewrite (bind_ok _ _ _ _ _ (query_ok _ _ _ Hok)).
  destruct (trash_loop (old_trash sql_before (gs_OlderThan spec) (sv_db w)) (new_result "trash") w Hok Hfk)
    as (r & w' & E & Hok' & Hsub & Hgone).
  - intros f [_ [k Hk]]%elem_of_old_trash. left. rewrite (Hid _ _ Hk). by exists f.
  - exists r, w'. split_and!; [exact E|done|]. intros id f Hf. pose proof (lookup_weaken _ _ _ _ Hf Hsub) as Hf0. split; [done|].
    destruct (trash_before _ _ f) eqn:Et; [|done]. assert (db_files (sv_db w') !! f_ID f = None) as Hn.
    { apply Hgone, elem_of_old_trash. eauto. }
    rewrite (Hid _ _ Hf0) in Hn. congruence.
Qed.

Lemma collectOrphanedChunks_ok spec w : server_ok w -> keyed w ->
  exists r w', collectOrphanedChunks spec w = (Ok r, w') /\ server_ok w'.
Proof.
  intros Hok [_ Hid]. unfold collectOrphanedChunks, ListOrphanedChunks.
  assert (forall msg' msg (q : DB -> list Database.Chunk), wrap msg' (on_db (wrap msg (sql_query q))) w = (Ok (q (sv_db w)), w)) as Hq.
  { intros msg' msg q. unfold wrap, on_db. rewrite query_quiet by apply (cov_quiet _ _ _ (proj1 Hok)). by destruct w. }
  rewrite (bind_ok _ _ _ _ _ (Hq _ _ _)). apply orphan_loop; [done|]. intros c Hc. rewrite merge_sort_Permutation in Hc.
  apply list_elem_of_filter in Hc as [Hz [h Hh]%elem_of_rows]. rewrite (Hid _ _ Hh). split.
  - destruct (cov_rows _ _ _ (proj1 Hok) _ _ Hh) as [_ (data & -> & _)]. apply Hkeys.
  - intros c'. rewrite Hh. by intros [= <-].
Qed.
End Proofs.

(** [C32] The collector never deletes what is referenced.  On consistent tables with
    foreign keys, a database that accepts its statements and a store that may
    refuse any call, every kind of collection ends with a result or an error and
    keeps the reference counts covered: every digest that a remaining manifest or
    an open upload mentions still has its content in the store.  A collection of
    the trash removes exactly rows that were there and leaves none of those that
    it selects. *)
Theorem collection_keeps_references `{HashFn} {S : Type} `{Backend S} sql_before spec (w : Server S) :
  (forall d, valid_key (sha256_hex d)) -> server_ok w -> keyed w -> db_fk (sv_db w) = true ->
  exists r w', collect sql_before spec w = (r, w') /\ settles r /\ server_ok w' /\
    (forall h, h ∈ session_refs (sv_sessions w') ++ manifest_refs (db_manifests (sv_db w')) ->
       exists data, blob_at (sv_store w') h = Some data /\ sha256_hex data = h) /\
    (gs_Type spec = "trash"%string -> forall id f, db_files (sv_db w') !! id = Some f ->
       db_files (sv_db w) !! id = Some f /\ trash_before sql_before (gs_OlderThan spec) f = false).
Proof.
  intros Hkeys Hok Hid Hfk.
  assert (forall r w', collect sql_before spec w = (r, w') -> settles r -> server_ok w' ->
    (gs_Type spec = "trash"%string -> forall id f, db_files (sv_db w') !! id = Some f ->
       db_files (sv_db w) !! id = Some f /\ trash_before sql_before (gs_OlderThan spec) f = false) -> 
    exists r w', collect sql_before spec w = (r, w') /\ settles r /\ server_ok w' /\
      (forall h, h ∈ session_refs (sv_sessions w') ++ manifest_refs (db_manifests (sv_db w')) ->
         exists data, blob_at (sv_store w') h = Some data /\ sha256_hex data = h) /\
      (gs_Type spec = "trash"%string -> forall id f, db_files (sv_db w') !! id = Some f ->
         db_files (sv_db w) !! id = Some f /\ trash_before sql_before (gs_OlderThan spec) f = false)) as Hend.
  { intros r w' E Hr Hok' Ht. exists r, w'. split_and!; try done. intros h. by apply server_ok_content. }
  unfold collect in *. case_bool_decide as E1; [|case_bool_decide as E2; [|case_bool_decide as E3]].
  - destruct (collectOrphanedChunks_ok Hkeys spec w Hok Hid) as (r & w' & E & Hok'). apply (Hend _ _ E); [done|done|]. congruence.
  - destruct (version_loop (old_manifests sql_before (gs_OlderThan spec) (sv_db w)) (new_result "old-versions", ∅) w Hok) as (r & w' & E & Hok').
    apply (Hend (Ok r.1) w'); [|done|done|congruence]. unfold collectOldVersions.
    by rewrite (bind_ok _ _ _ _ _ (query_ok _ _ _ Hok)), (bind_ok _ _ _ _ _ E).
  - destruct (collectTrash_ok sql_before Hkeys spec w Hok Hid Hfk) as (r & w' & E & Hok' & Ht). by apply (Hend _ _ E).
  - by apply (Hend _ _ eq_refl).
Qed.

(** [Fact] The daily collection keeps the retention limit of the day the server was
    started: whatever the ticks of the scheduler, the task that they submit
    carries that limit, so a file trashed later is never old enough for it. *)
Lemma trash_limit_never_moves `{HashFn} {S : Type} `{Backend S} sql_before n (w : Server S) wake start ticks :
  let m := Manager_Start start (NewManager sql_before n w) in
  let m' := foldl (fun m t => checkAndRunTasks wake t.1 t.2 m) m ticks in
  exists last, sc_tasks m' !! "trash-cleanup"%string =
    Some (mkTask GCJobType (PSpec (mkSpec "trash" ((start - 30 * Day) / 1000000000))) Day last).
Proof.
  intros m m'. assert (exists last, sc_tasks m !! "trash-cleanup"%string =
    Some (mkTask GCJobType (PSpec (mkSpec "trash" ((start - 30 * Day) / 1000000000))) Day last)) as Hm
    by (eexists; unfold m; simpl; by rewrite lookup_insert_eq).
  unfold m'. generalize dependent m. induction ticks as [|[order now] ticks IH]; intros m m' Hm; [done|]. simpl. apply IH. clear IH m'.
  unfold checkAndRunTasks. revert m Hm. induction order as [|name order IH]; intros m Hm; [done|]. simpl. apply IH.
  unfold check_task. destruct (sc_tasks m !! name) as [task|] eqn:E; [|done]. destruct (is_due now task); [|done]. simpl.
  destruct Hm as [last Hm]. destruct (decide (name = "trash-cleanup"%string)) as [->|Hne].
  - rewrite lookup_insert_eq. rewrite Hm in E. injection E as <-. eexists. done.
  - rewrite lookup_insert_ne by done. eauto.
Qed.

(** ** Witnesses *)

Section Witnesses.
#[local] Existing Instance toy_hash.
#[local] Existing Instance upload_backend.

(** A file was uploaded and moved to the trash. *)
Definition server_up : Server FS :=
  foldl (fun w o => run_server true true small_chunker "local" o w) server0
    [create "u" "a"; SUpload "u" (session_of server1) "0" 3 abc; SComplete "u" (session_of server1)].
Definition uploaded_id : string := default ""%string (head (map_to_list (db_files (sv_db server_up))).*1).
Definition server_trashed : Server FS := run_server true true small_chunker "local" (SFiles (OpDelete uploaded_id)) server_up.

Lemma server_trashed_ok : server_ok server_trashed.
Proof.
  unfold server_trashed, server_up. cbn [foldl].
  repeat (apply run_server_ok; [exact Encrypted.sha256_local_key|by repeat split|]). exact server0_ok.
Qed.

Lemma collection_witness : exists r w',
  collect Z.ltb (mkSpec "trash" 1000) server_trashed = (r, w') /\ server_ok w' /\
  size (db_files (sv_db server_trashed)) = 1%nat /\ db_files (sv_db w') = ∅.
Proof.
  destruct (@collection_keeps_references toy_hash FS upload_backend Z.ltb (mkSpec "trash" 1000) server_trashed Encrypted.sha256_local_key server_trashed_ok)
    as (r & w' & E & _ & Hok & _ & Ht).
  - split.
    + apply (bool_decide_unpack (map_Forall (fun id f => f_ID f = id) (db_files (sv_db server_trashed)))). vm_compute. exact I.
    + apply (bool_decide_unpack (map_Forall (fun h c => c_Hash c = h) (db_chunks (sv_db server_trashed)))). vm_compute. exact I.
  - vm_compute. reflexivity.
  - exists r, w'. split; [exact E|]. split; [exact Hok|]. split; [vm_compute; reflexivity|].
    assert (map_Forall (fun _ f => trash_before Z.ltb 1000 f = true) (db_files (sv_db server_trashed))) as Hall
      by (apply (bool_decide_unpack _); vm_compute; exact I).
    apply map_empty. intros id. destruct (db_files (sv_db w') !! id) as [f|] eqn:Ef; [|reflexivity].
    destruct (Ht eq_refl id f Ef) as [Hf Hb]. simpl in Hb. rewrite (Hall id f Hf) in Hb. discriminate Hb.
Defined.
End Witnesses.
