(* ===== verification/Shares.v ===== *)
(** * Shares (internal/db/shares.go, internal/server/handlers_shares.go)

    The table of shares lies next to the tables of users and files.  [reread] is
    the driver's: the time that is read back after a time value was stored in a
    text column.  Notifications to connected clients are left out. *)

From S2P Require Import Prelude GoStrings GoCrypto Crypto Encoding Database Vfs Server Devices Users Password SyncHandlers.

Record Share := mkShare {
  sh_ID : string; sh_FileID : string; sh_CreatedBy : string; sh_ShareType : string; sh_Token : option string;
  sh_PasswordHash : option string; sh_ExpiresAt : option Z; sh_MaxDownloads : option Z; sh_DownloadCount : Z;
  sh_AllowUpload : bool; sh_PreviewOnly : bool; sh_SharedWith : option string; sh_Permission : string;
  sh_EncryptedKey : bytes; sh_IsActive : bool; sh_ViewCount : Z; sh_CreatedAt : Z; sh_UpdatedAt : Z
}.

Record ShareTables := mkShareTables { st_auth : AuthTables; st_shares : gmap string Share }.

Definition ShareDB : Type := Ext ShareTables.

Definition with_shares (m : gmap string Share) (w : ShareDB) : ShareDB := with_tab (mkShareTables (st_auth (tab w)) m) w.

Definition on_users {A} (m : GoM AuthDB A) : GoM ShareDB A := fun w =>
  let '(r, a) := m (mkExt (base w) (st_auth (tab w))) in (r, mkExt (base a) (mkShareTables (tab a) (st_shares (tab w)))).

(** ** shares.go *)

Definition token_taken (s : Share) (m : gmap string Share) : bool :=
  match sh_Token s with
  | None => false
  | Some _ => existsb (fun v => bool_decide (sh_Token v = sh_Token s)) (rows m)
  end.

Definition share_refs_ok (s : Share) (d : DB) : bool :=
  bool_decide (is_Some (db_files d !! sh_FileID s)) && bool_decide (sh_CreatedBy s ∈ db_users d) &&
  match sh_SharedWith s with Some u => bool_decide (u ∈ db_users d) | None => true end.

Definition insert_share (s : Share) (w : ShareDB) : error + (Z * ShareDB) :=
  let m := st_shares (tab w) in
  if bool_decide (is_Some (m !! sh_ID s)) || token_taken s m then inl ErrUnique
  else if db_fk (base w) && negb (share_refs_ok s (base w)) then inl ErrForeignKey
  else inr (1, with_shares (<[sh_ID s := s]> m) w).

(** The columns that [UpdateShare] accepts, and any other name. *)
Inductive share_update :=
  | S_share_type (v : string) | S_password_hash (v : option string) | S_expires_at (v : option Z)
  | S_max_downloads (v : Z) | S_download_count (v : Z) | S_allow_upload (v : bool) | S_preview_only (v : bool)
  | S_shared_with (v : option string) | S_permission (v : string) | S_encrypted_key (v : bytes) | S_is_active (v : bool) | S_view_count (v : Z)
  | S_other (field : string).

Definition apply_share (c : share_update) (s : Share) : Share :=
  let '(mkShare id f cb ty tk ph ex md dc au po sw pe ek ac vc cr up) := s in
  match c with
  | S_share_type v => mkShare id f cb v tk ph ex md dc au po sw pe ek ac vc cr up
  | S_password_hash v => mkShare id f cb ty tk v ex md dc au po sw pe ek ac vc cr up
  | S_expires_at v => mkShare id f cb ty tk ph v md dc au po sw pe ek ac vc cr up
  | S_max_downloads v => mkShare id f cb ty tk ph ex (Some v) dc au po sw pe ek ac vc cr up
  | S_download_count v => mkShare id f cb ty tk ph ex md v au po sw pe ek ac vc cr up
  | S_allow_upload v => mkShare id f cb ty tk ph ex md dc v po sw pe ek ac vc cr up
  | S_preview_only v => mkShare id f cb ty tk ph ex md dc au v sw pe ek ac vc cr up
  | S_shared_with v => mkShare id f cb ty tk ph ex md dc au po v pe ek ac vc cr up
  | S_permission v => mkShare id f cb ty tk ph ex md dc au po sw v ek ac vc cr up
  | S_encrypted_key v => mkShare id f cb ty tk ph ex md dc au po sw pe v ac vc cr up
  | S_is_active v => mkShare id f cb ty tk ph ex md dc au po sw pe ek v vc cr up
  | S_view_count v => mkShare id f cb ty tk ph ex md dc au po sw pe ek ac v cr up
  | S_other _ => s
  end.

Definition touch_share (t : Z) (s : Share) : Share :=
  let '(mkShare id f cb ty tk ph ex md dc au po sw pe ek ac vc cr _) := s in
  mkShare id f cb ty tk ph ex md dc au po sw pe ek ac vc cr t.

Fixpoint invalid_share_field (updates : list share_update) : option string :=
  match updates with
  | [] => None
  | S_other field :: _ => Some field
  | _ :: updates => invalid_share_field updates
  end.

(** A recipient that the statement sets must be a user. *)
Definition recipient_ok (old new : Share) (d : DB) : bool :=
  bool_decide (sh_SharedWith new = sh_SharedWith old) ||
  match sh_SharedWith new with Some u => bool_decide (u ∈ db_users d) | None => true end.

Definition change_share (id : string) (guard : Share -> bool) (g : Share -> Share) (w : ShareDB) : error + (Z * ShareDB) :=
  match st_shares (tab w) !! id with
  | Some s =>
      if negb (guard s) then inr (0, w)
      else if db_fk (base w) && negb (recipient_ok s (g s) (base w)) then inl ErrForeignKey
      else inr (1, with_shares (<[id := g s]> (st_shares (tab w))) w)
  | None => inr (0, w)
  end.

Definition UpdateShare (id : string) (updates : list share_update) : GoM ShareDB unit :=
  match updates with
  | [] => mret tt
  | _ =>
      match invalid_share_field updates with
      | Some field => fail (Errorf ("invalid update field: " +:+ field))
      | None =>
          t ← tab_now;
          rows ← wrap "failed to update share" (tab_exec (change_share id (fun _ => true)
                   (fun s => touch_share t (foldl (fun s c => apply_share c s) s updates))));
          tab_affected "share not found" rows
      end
  end.

Definition RevokeShare (id : string) : GoM ShareDB unit := UpdateShare id [S_is_active false].

Definition count_download (s : Share) : Share := apply_share (S_download_count (sh_DownloadCount s + 1)) s.

Definition IncrementShareDownloadCount (id : string) (maxDownloads : option Z) : GoM ShareDB bool :=
  match maxDownloads with
  | None => tab_exec (change_share id (fun _ => true) count_download);; mret true
  | Some m => n ← tab_exec (change_share id (fun s => sh_DownloadCount s <? m) count_download); mret (0 <? n)
  end.

Definition IncrementShareViewCount (id : string) : GoM ShareDB unit :=
  tab_exec (change_share id (fun _ => true) (fun s => apply_share (S_view_count (sh_ViewCount s + 1)) s));; mret tt.

Definition delete_share (id : string) (w : ShareDB) : error + (Z * ShareDB) :=
  match st_shares (tab w) !! id with
  | Some _ => inr (1, with_shares (delete id (st_shares (tab w))) w)
  | None => inr (0, w)
  end.

Definition DeleteShare (id : string) : GoM ShareDB unit :=
  rows ← wrap "failed to delete share" (tab_exec (delete_share id)); tab_affected "share not found" rows.

Definition GetShareByID (id : string) : GoM ShareDB Share :=
  tab_scan "share not found" "failed to get share" (fun w => st_shares (tab w) !! id).

Definition shares_where (P : Share -> bool) (w : ShareDB) : list Share :=
  List.filter (fun s => P s && sh_IsActive s) (rows (st_shares (tab w))).

Definition GetShareByToken (token : string) : GoM ShareDB Share :=
  tab_scan "share not found" "failed to get share"
    (fun w => head (shares_where (fun s => bool_decide (sh_Token s = Some token)) w)).

(** ORDER BY created_at DESC *)
Definition newest_share (a b : Share) : Prop := sh_CreatedAt b <= sh_CreatedAt a.

#[export] Instance newest_share_dec : RelDecision newest_share.
Proof. intros a b. unfold newest_share. apply _. Defined.

Definition list_shares (P : Share -> bool) : GoM ShareDB (list Share) :=
  wrap "failed to list shares" (tab_query (fun w => merge_sort newest_share (shares_where P w))).

Definition GetSharesByFile (fileID : string) : GoM ShareDB (list Share) := list_shares (fun s => bool_decide (sh_FileID s = fileID)).
Definition GetSharesByUser (userID : string) : GoM ShareDB (list Share) := list_shares (fun s => bool_decide (sh_CreatedBy s = userID)).
Definition GetReceivedShares (userID : string) : GoM ShareDB (list Share) :=
  list_shares (fun s => bool_decide (sh_SharedWith s = Some userID)).

(** ** handlers_shares.go *)

Record SharingConfig := mkSharing {
  PublicLinksEnabled : bool; MaxExpiryDays : Z; PasswordRequired : bool; MaxDownloadLimit : Z
}.

Record createShareRequest := mkCreateShare {
  cs_ShareType : string; cs_SharedWith : option string; cs_Password : option string; cs_ExpiresDays : option Z;
  cs_MaxDownloads : option Z; cs_AllowUpload : bool; cs_PreviewOnly : bool; cs_Permission : string
}.

Record updateShareRequest := mkUpdateShare {
  us_MaxDownloads : option Z; us_AllowUpload : option bool; us_PreviewOnly : option bool; us_IsActive : option bool
}.

(** A received share with the name of its file and of the user who shared it. *)
Record ReceivedShareDTO := mkReceived { rs_Share : Share; rs_FileName : string; rs_SharedBy : string }.

(** The public link of a new share is given by its path; the scheme and the host
    before it are those of the request. *)
Inductive share_reply :=
  | H_created (share : Share) (path : option string)
  | H_shares (shares : list Share)
  | H_received (shares : list ReceivedShareDTO)
  | H_share (share : Share)
  | H_updated
  | H_revoked.

Definition share_rand {A} (m : GoM Rand A) : GoM ShareDB A :=
  on_base (fun d => let '(r, x) := m (db_rand d) in (r, with_rand x d)).

Definition generateRandomString (length : nat) : GoM Rand string :=
  b ← wrap "failed to generate random string" (rand_read (length / 2)); mret (hex_encode b).

(** If the source fails twice the identifier is that of eight zero bytes. *)
Definition generateShareID : GoM Rand string :=
  r ← attempt (generateRandomString 16);
  match r with
  | inl s => mret ("share_" +:+ s)
  | inr _ =>
      b ← attempt (rand_read 8);
      mret ("share_" +:+ hex_encode (match b with inl b => b | inr _ => replicate 8 x00 end))
  end.

Definition generateShareToken : GoM Rand string := b ← rand_read 16; mret (hex_encode b).

(** [time.Duration(days) * 24 * time.Hour], in seconds. *)
Definition days_from (now days : Z) : Z := now + i64 (i64 (days * 24) * 3600000000000) / 1000000000.

Section Handlers.
Context `{Hmac} `{HashFn} `{Sha512}.
Context (reread : Z -> Z) (config : SharingConfig).

(** The row of a new share: its expiry goes through the driver. *)
Definition stored_share (s : Share) : Share := apply_share (S_expires_at (reread <$> sh_ExpiresAt s)) s.

Definition CreateShare (share : Share) : GoM ShareDB unit :=
  wrap "failed to create share" (tab_exec (insert_share (stored_share share)));; mret tt.

(** The checks on the caller and the file that two handlers share. *)
Definition own_file (userID fileID : string) : GoM ShareDB File :=
  require (nonempty userID) 401 "Unauthorized";;
  require (nonempty fileID) 400 "File ID required";;
  r ← attempt (on_base (GetFile fileID));
  file ← match r with
         | inl f => mret f
         | inr ErrNotFound => fail (ErrHTTP 404 "File not found")
         | inr _ => fail (ErrHTTP 500 "Internal server error")
         end;
  require (bool_decide (f_UserID file = userID)) 403 "Access denied";;
  mret file.

Definition above (limit : Z) (v : option Z) : bool :=
  (0 <? limit) && match v with Some x => limit <? x | None => false end.

Definition createShare (userID fileID : string) (req : option createShareRequest) : GoM ShareDB share_reply :=
  own_file userID fileID;;
  req ← decoded req;
  let link := bool_decide (cs_ShareType req = "link"%string) in
  let user := bool_decide (cs_ShareType req = "user"%string) in
  let password := default ""%string (cs_Password req) in
  require (link || user) 400 "Share type must be 'link' or 'user'";;
  require (negb (link && negb (PublicLinksEnabled config))) 403 "Public links are disabled";;
  require (negb (PasswordRequired config && negb (nonempty password))) 400 "Password is required for shares";;
  require (negb (above (MaxExpiryDays config) (cs_ExpiresDays req))) 400 "Expiry exceeds maximum allowed days";;
  require (negb (above (MaxDownloadLimit config) (cs_MaxDownloads req))) 400 "Download limit exceeds maximum allowed";;
  require (negb (user && bool_decide (cs_SharedWith req = None))) 400 "shared_with is required for user shares";;
  let permission := if nonempty (cs_Permission req) then cs_Permission req else "read"%string in
  token ← (if link then t ← instead (ErrHTTP 500 "Failed to generate share token") (share_rand generateShareToken); mret (Some t)
           else mret None);
  now ← tab_now;
  let expiresAt := match cs_ExpiresDays req with Some d => if 0 <? d then Some (days_from now d) else None | None => None end in
  passwordHash ← (if nonempty password
                  then h ← instead (ErrHTTP 500 "Failed to hash password") (share_rand (HashPassword password)); mret (Some h)
                  else mret None);
  id ← share_rand generateShareID;
  now ← tab_now;
  let share := mkShare id fileID userID (cs_ShareType req) token passwordHash expiresAt (cs_MaxDownloads req) 0
                 (cs_AllowUpload req) (cs_PreviewOnly req) (cs_SharedWith req) permission [] true 0 now now in
  instead (ErrHTTP 500 "Failed to create share") (CreateShare share);;
  mret (H_created share ((fun t => "/s/" +:+ t)%string <$> token)).

Definition listShares (userID fileID : string) : GoM ShareDB share_reply :=
  own_file userID fileID;;
  shares ← instead (ErrHTTP 500 "Failed to list shares") (GetSharesByFile fileID);
  mret (H_shares shares).

Definition listMyShares (userID : string) : GoM ShareDB share_reply :=
  require (nonempty userID) 401 "Unauthorized";;
  shares ← instead (ErrHTTP 500 "Failed to list shares") (GetSharesByUser userID);
  mret (H_shares shares).

Fixpoint enrich (shares : list Share) : GoM ShareDB (list ReceivedShareDTO) :=
  match shares with
  | [] => mret []
  | s :: shares =>
      file ← attempt (on_base (GetFileByID (sh_FileID s)));
      user ← attempt (on_users (GetUserByID (sh_CreatedBy s)));
      rest ← enrich shares;
      mret (mkReceived s (match file with inl f => f_Name f | inr _ => ""%string end)
                         (match user with inl u => u_Username u | inr _ => ""%string end) :: rest)
  end.

Definition listReceivedShares (userID : string) : GoM ShareDB share_reply :=
  require (nonempty userID) 401 "Unauthorized";;
  shares ← instead (ErrHTTP 500 "Failed to list shares") (GetReceivedShares userID);
  results ← enrich shares;
  mret (H_received results).

Definition named_share (userID shareID : string) : GoM ShareDB Share :=
  require (nonempty userID) 401 "Unauthorized";;
  require (nonempty shareID) 400 "Share ID required";;
  instead (ErrHTTP 404 "Share not found") (GetShareByID shareID).

Definition getShare (userID shareID : string) : GoM ShareDB share_reply :=
  share ← named_share userID shareID;
  require (bool_decide (sh_CreatedBy share = userID) || bool_decide (sh_SharedWith share = Some userID)) 403 "Access denied";;
  mret (H_share share).

Definition requested_updates (req : updateShareRequest) : list share_update :=
  match us_MaxDownloads req with Some v => [S_max_downloads v] | None => [] end ++
  match us_AllowUpload req with Some v => [S_allow_upload v] | None => [] end ++
  match us_PreviewOnly req with Some v => [S_preview_only v] | None => [] end ++
  match us_IsActive req with Some v => [S_is_active v] | None => [] end.

Definition updateShare (userID shareID : string) (req : option updateShareRequest) : GoM ShareDB share_reply :=
  share ← named_share userID shareID;
  require (bool_decide (sh_CreatedBy share = userID)) 403 "Access denied";;
  req ← decoded req;
  instead (ErrHTTP 500 "Failed to update share") (UpdateShare shareID (requested_updates req));;
  mret H_updated.

Definition revokeShare (userID shareID : string) : GoM ShareDB share_reply :=
  share ← named_share userID shareID;
  require (bool_decide (sh_CreatedBy share = userID)) 403 "Access denied";;
  instead (ErrHTTP 500 "Failed to revoke share") (RevokeShare shareID);;
  mret H_revoked.
End Handlers.

(** ** Lemmas *)

Section Proofs.
Context `{Hmac} `{HashFn} `{Sha512}.
Context (reread : Z -> Z) (config : SharingConfig).
Implicit Types w : ShareDB.

(** The rows and the time that a step before the insertion leaves alone. *)
Definition as_before (t : ShareTables) (F : gmap string File) (n : Z) w : Prop :=
  tab w = t /\ db_files (base w) = F /\ db_now (base w) = n.

Lemma as_before_rand {A} t F n (m : GoM Rand A) : preserves (as_before t F n) (share_rand m).
Proof. intros w Hw. unfold share_rand, on_base. by destruct (m _). Qed.

Lemma preserves_ok {A} (I : ShareDB -> Prop) (m : GoM ShareDB A) w a w' : preserves I m -> I w -> m w = (Ok a, w') -> I w'.
Proof. intros Hm Hw E. specialize (Hm w Hw). by rewrite E in Hm. Qed.

Lemma require_ok_inv {W A} (b : bool) c msg (k : unit -> GoM W A) (v : W) a v' :
  (require b c msg ≫= k) v = (Ok a, v') -> b = true /\ k tt v = (Ok a, v').
Proof. unfold require. destruct b; [by rewrite bind_mret|done]. Qed.

Lemma instead_ok_inv {W A} e (m : GoM W A) (v : W) a v' : instead e m v = (Ok a, v') -> m v = (Ok a, v').
Proof. unfold instead. destruct (m v) as [[]]; intros E; by simplify_eq. Qed.

Lemma GetFile_frame id w : as_before (tab w) (db_files (base w)) (db_now (base w)) (on_base (GetFile id) w).2 /\
  match (on_base (GetFile id) w).1 with Ok f => db_files (base w) !! id = Some f | Err e => e = ErrNotFound | _ => False end.
Proof.
  unfold on_base, GetFile, instead, GetFileByID, scan_row, attempt, sql_query, mbind, GoM_bind.
  destruct (next_fault _) as [[] l]; simpl; [done|]. by destruct (db_files _ !! id).
Qed.

Lemma own_file_inv userID fileID w file w' : own_file userID fileID w = (Ok file, w') ->
  db_files (base w) !! fileID = Some file /\ f_UserID file = userID /\ as_before (tab w) (db_files (base w)) (db_now (base w)) w'.
Proof.
  unfold own_file. intros [_ [_ E]%require_ok_inv]%require_ok_inv. destruct (GetFile_frame fileID w) as [Hw Hr].
  destruct (on_base (GetFile fileID) w) as [[f|e|m|] w1] eqn:Eg; try done; simpl in *.
  - rewrite (bind_ok _ _ w (inl f) w1) in E by (unfold attempt; by rewrite Eg). rewrite bind_mret in E.
    apply require_ok_inv in E as [Hu E]. injection E as <- <-. apply bool_decide_eq_true in Hu. by split_and!.
  - rewrite (bind_ok _ _ w (inr e) w1) in E by (unfold attempt; by rewrite Eg). by subst e.
Qed.

Lemma insert_share_inv s w n w' : insert_share s w = inr (n, w') ->
  st_shares (tab w) !! sh_ID s = None /\ token_taken s (st_shares (tab w)) = false /\
  w' = with_shares (<[sh_ID s := s]> (st_shares (tab w))) w.
Proof.
  unfold insert_share. destruct (bool_decide _) eqn:Eb; [done|]. apply bool_decide_eq_false, eq_None_not_Some in Eb. simpl.
  destruct (token_taken s _); [done|]. destruct (_ && _); [done|]. by intros [= _ <-].
Qed.

(** What a successful creation did: whose file it is, which rules of the
    configuration the share obeys, and the row that is stored. *)
Record created (userID fileID : string) w (share : Share) (path : option string) w' : Prop := {
  cr_file : exists f, db_files (base w) !! fileID = Some f /\ f_UserID f = userID;
  cr_ids : sh_FileID share = fileID /\ sh_CreatedBy share = userID /\ sh_IsActive share = true /\ sh_DownloadCount share = 0;
  cr_kind : sh_ShareType share = "link"%string /\ PublicLinksEnabled config = true /\ is_Some (sh_Token share) \/
            sh_ShareType share = "user"%string /\ is_Some (sh_SharedWith share) /\ sh_Token share = None;
  cr_path : path = (fun t => "/s/" +:+ t)%string <$> sh_Token share;
  cr_password : PasswordRequired config = true -> is_Some (sh_PasswordHash share);
  cr_downloads : 0 < MaxDownloadLimit config -> forall m, sh_MaxDownloads share = Some m -> m <= MaxDownloadLimit config;
  cr_expiry : forall t, sh_ExpiresAt share = Some t -> exists d, 0 < d /\ t = days_from (db_now (base w)) d /\
                (0 < MaxExpiryDays config -> d <= MaxExpiryDays config);
  cr_fresh : st_shares (tab w) !! sh_ID share = None /\ token_taken share (st_shares (tab w)) = false;
  cr_tables : st_shares (tab w') = <[sh_ID share := stored_share reread share]> (st_shares (tab w)) /\
              db_files (base w') = db_files (base w) /\ db_now (base w') = db_now (base w)
}.

Lemma above_false limit v : above limit v = false -> 0 < limit -> forall x, v = Some x -> x <= limit.
Proof. unfold above. intros E Hl x ->. rewrite (proj2 (Z.ltb_lt _ _) Hl) in E. simpl in E. by apply Z.ltb_ge in E. Qed.

Lemma CreateShare_inv s w w' : CreateShare reread s w = (Ok tt, w') ->
  st_shares (tab w) !! sh_ID s = None /\ token_taken s (st_shares (tab w)) = false /\
  st_shares (tab w') = <[sh_ID s := stored_share reread s]> (st_shares (tab w)) /\
  db_files (base w') = db_files (base w) /\ db_now (base w') = db_now (base w).
Proof.
  unfold CreateShare. intros (n & w1 & E & [= ->])%bind_ok_inv. apply wrap_ok_inv, tab_exec_ok_inv in E as [l E].
  apply insert_share_inv in E as (Hn & Ht & ->). by destruct s.
Qed.

Lemma createShare_inv userID fileID req w share path w' :
  createShare reread config userID fileID req w = (Ok (H_created share path), w') -> created userID fileID w share path w'.
Proof.
  unfold createShare. intros (file & w1 & Hf & E)%bind_ok_inv. apply own_file_inv in Hf as (Hfile & Hu & Hw1).
  destruct req as [q|]; [|done]. cbn [decoded] in E. rewrite bind_mret in E.
  apply require_ok_inv in E as [Hkind E]. apply require_ok_inv in E as [Hlink E]. apply require_ok_inv in E as [Hpass E].
  apply require_ok_inv in E as [Hexp E]. apply require_ok_inv in E as [Hmax E]. apply require_ok_inv in E as [Huser E].
  apply bind_ok_inv in E as (token & w2 & Et & E).
  assert (as_before (tab w) (db_files (base w)) (db_now (base w)) w2 /\
    (bool_decide (cs_ShareType q = "link"%string) = true -> is_Some token) /\
    (bool_decide (cs_ShareType q = "link"%string) = false -> token = None)) as (Hw2 & Ht1 & Ht2).
  { destruct (bool_decide _); [|by injection Et as <- <-]. apply bind_ok_inv in Et as (t & w2' & Et%instead_ok_inv & [= <- <-]).
    split; [|by split]. by eapply preserves_ok; [apply as_before_rand|exact Hw1|exact Et]. }
  unfold tab_now in E. rewrite (bind_ok _ _ w2 (db_now (base w2)) w2) in E by done.
  apply bind_ok_inv in E as (hash & w3 & Eh & E).
  assert (as_before (tab w) (db_files (base w)) (db_now (base w)) w3 /\
    (nonempty (default ""%string (cs_Password q)) = true -> is_Some hash)) as [Hw3 Hh].
  { destruct (nonempty _); [|by injection Eh as <- <-]. apply bind_ok_inv in Eh as (t & w3' & Eh%instead_ok_inv & [= <- <-]).
    split; [|done]. by eapply preserves_ok; [apply as_before_rand|exact Hw2|exact Eh]. }
  apply bind_ok_inv in E as (id & w4 & Ei & E).
  assert (as_before (tab w) (db_files (base w)) (db_now (base w)) w4) as Hw4 by (by eapply preserves_ok; [apply as_before_rand|exact Hw3|exact Ei]).
  rewrite (bind_ok _ _ w4 (db_now (base w4)) w4) in E by done.
  apply bind_ok_inv in E as ([] & w5 & Ec%instead_ok_inv%CreateShare_inv & E). injection E as <- <- <-.
  destruct Hw2 as (T2 & F2 & N2). destruct Hw4 as (T4 & F4 & N4). destruct Ec as (Hid & Htk & Hsh & Hfs & Hnow). rewrite T4 in *.
  apply negb_true_iff in Hlink, Hpass, Hexp, Hmax, Huser.
  split; simpl.
  - by exists file.
  - done.
  - destruct (bool_decide (cs_ShareType q = "link"%string)) eqn:El.
    + left. apply bool_decide_eq_true in El. simpl in Hlink. apply negb_false_iff in Hlink. auto.
    + right. simpl in Hkind. rewrite Hkind in Huser. simpl in Huser. apply bool_decide_eq_true in Hkind. apply bool_decide_eq_false in Huser.
      split_and!; [done| |by apply Ht2]. destruct (cs_SharedWith q); [done|by destruct Huser].
  - done.
  - intros Hreq. rewrite Hreq in Hpass. simpl in Hpass. apply negb_false_iff in Hpass. auto.
  - intros Hl m Hm. by apply (above_false _ _ Hmax).
  - intros t Et'. destruct (cs_ExpiresDays q) as [d|] eqn:Ed; [|done]. destruct (Z.ltb_spec 0 d); [|done]. injection Et' as <-.
    exists d. rewrite N2. split_and!; [done|done|]. intros Hl. by apply (above_false _ _ Hexp).
  - done.
  - split_and!; [exact Hsh|by rewrite Hfs|by rewrite Hnow].
Qed.

Lemma revokeShare_inv userID shareID w w' : revokeShare userID shareID w = (Ok H_revoked, w') ->
  exists share t, st_shares (tab w) !! shareID = Some share /\ sh_CreatedBy share = userID /\
    st_shares (tab w') = <[shareID := touch_share t (apply_share (S_is_active false) share)]> (st_shares (tab w)).
Proof.
  unfold revokeShare. intros (share & w1 & Es & E)%bind_ok_inv. apply require_ok_inv in E as [Hu E]. apply bool_decide_eq_true in Hu.
  unfold named_share in Es. apply require_ok_inv in Es as [_ Es]. apply require_ok_inv in Es as [_ Es]. apply instead_ok_inv in Es.
  apply tab_scan_ok_inv in Es as (Ht & Hn & Hs). destruct (Hs share eq_refl) as [l Hrow]. simpl in Hrow.
  apply bind_ok_inv in E as ([] & w2 & E%instead_ok_inv & [= <-]). unfold RevokeShare, UpdateShare in E. simpl in E.
  unfold tab_now in E. rewrite (bind_ok _ _ w1 (db_now (base w1)) w1) in E by done.
  apply bind_ok_inv in E as (n & w3 & E%wrap_ok_inv%tab_exec_ok_inv & Ea). destruct E as [l' E].
  unfold tab_affected in Ea. destruct (n =? 0) eqn:En; [done|]. injection Ea as <-.
  unfold change_share in E. simpl in E. rewrite Ht, Hrow in E. destruct (_ && _); [done|]. injection E as _ <-.
  exists share, (db_now (base w1)). split_and!; try done.
Qed.
End Proofs.
