(* ===== verification/PublicShares.v ===== *)
(** * Public access to shares (internal/server/handlers_public.go)

    The handlers behind a share link, without a user: they see the tables of
    shares, users and files, the store, and a response writer.  The replies with
    content are those of [Download]. *)

From S2P Require Import Prelude GoStrings GoCrypto Crypto Database Vfs Storage Server Devices Users Password SyncHandlers Download Shares.

Record Public (S : Type) := mkPublic {
  pw_db : ShareDB; pw_store : S; pw_sessions : gmap string UploadSession; pw_out : Writer
}.
Arguments mkPublic {S}.
Arguments pw_db {S}.
Arguments pw_store {S}.
Arguments pw_sessions {S}.
Arguments pw_out {S}.

(** What a request carries; the password field of its body, when the body is
    there and decodes. *)
Record ShareRequest := mkShareRequest {
  q_token : string; q_Range : string; q_ContentLength : Z; q_ContentType : string; q_body : option string;
  q_Authorization : string; q_password : string
}.

Definition extractSharePassword (r : ShareRequest) : string :=
  let body := if (0 <? q_ContentLength r) &&
                 (bool_decide (q_ContentType r = ""%string) || HasPrefix (q_ContentType r) "application/json")
              then default ""%string (q_body r) else ""%string in
  if nonempty body then body
  else
    let token := if HasPrefix (q_Authorization r) "Bearer " then TrimPrefix (q_Authorization r) "Bearer " else ""%string in
    if nonempty token then token else q_password r.

Section Public.
Context `{Hmac} `{HashFn} `{Sha512} `{AEAD} {S : Type} `{Backend S}.

Notation P := (Public S).

Definition on_shares {A} (m : GoM ShareDB A) : GoM P A := fun w =>
  let '(r, d) := m (pw_db w) in (r, mkPublic d (pw_store w) (pw_sessions w) (pw_out w)).

(** The reply with content runs on the database below the shares. *)
Definition on_download {A} (m : GoM (@D S) A) : GoM P A := fun w =>
  let '(r, (s, x)) := m (mkServer (base (pw_db w)) (pw_store w) (pw_sessions w), pw_out w) in
  (r, mkPublic (mkExt (sv_db s) (tab (pw_db w))) (sv_store s) (sv_sessions s) x).

(** [http.Error(w, msg, code); return] *)
Definition http_error {A} (code : Z) (msg : string) : GoM P A :=
  on_download (Set_ "Content-Type" "text/plain; charset=utf-8";; Set_ "X-Content-Type-Options" "nosniff";;
               WriteHeader code;; ignore (on_writer (Write (bytes_of msg ++ [x0a]))));;
  fail (ErrHTTP code msg).

Definition or_error {A} (m : GoM P A) (code : Z) (msg : string) : GoM P A :=
  r ← attempt m; match r with inl a => mret a | inr _ => http_error code msg end.

Definition check (b : bool) (code : Z) (msg : string) : GoM P unit := if b then mret tt else http_error code msg.

Definition authenticateSharePassword (r : ShareRequest) (share : Share) : GoM P unit :=
  match sh_PasswordHash share with
  | None => mret tt
  | Some hash =>
      let password := extractSharePassword r in
      if nonempty password then
        v ← attempt (lift (VerifyPassword password hash));
        match v with inl true => mret tt | _ => http_error 401 "Invalid password" end
      else
        on_download (Set_ "WWW-Authenticate" ("Bearer realm=" +:+ quoted "share"));;
        http_error 401 "Password required"
  end.

Definition expired (now : Z) (share : Share) : bool := match sh_ExpiresAt share with Some t => t <? now | None => false end.

Definition validateShare (token : string) : GoM ShareDB (Share * Database.File) :=
  share ← instead (Errorf "share not found") (GetShareByToken token);
  now ← tab_now;
  if expired now share then fail (Errorf "share expired")
  else if negb (sh_IsActive share) then fail (Errorf "share revoked")
  else
    file ← instead (Errorf "file not found") (on_base (GetFileByID (sh_FileID share)));
    mret (share, file).

Definition find_share (r : ShareRequest) : GoM P (Share * Database.File) :=
  check (nonempty (q_token r)) 400 "Token required";;
  or_error (on_shares (validateShare (q_token r))) 404 "Share not found or unavailable".

Definition getShareInfo (r : ShareRequest) : GoM P unit :=
  p ← find_share r;
  let '(share, file) := (p : Share * Database.File) in
  ignore (on_shares (IncrementShareViewCount (sh_ID share)));;
  on_download (Set_ "Content-Type" "application/json");;
  ignore (on_download (on_writer (write_piece (Json (J_share_info (f_Name file) (f_Type file) (f_SizeBytes file) (f_MimeType file)
    (sh_PreviewOnly share) (sh_AllowUpload share) (sh_ExpiresAt share) (bool_decide (is_Some (sh_PasswordHash share)))))))).

Definition share_manifest (file : Database.File) : GoM P Database.Manifest :=
  match f_ManifestID file with
  | None => http_error 400 "File has no content"
  | Some id =>
      check (nonempty id) 400 "File has no content";;
      or_error (on_shares (on_base (GetManifest id))) 500 "Failed to get file manifest"
  end.

(** Every check of a download, up to the content. *)
Definition admitted_download (r : ShareRequest) : GoM P (Database.File * Database.Manifest) :=
  p ← find_share r;
  let '(share, file) := (p : Share * Database.File) in
  authenticateSharePassword r share;;
  check (negb (sh_PreviewOnly share)) 403 ("{" +:+ quoted "error" +:+ ":" +:+ quoted "Preview only - download not allowed" +:+ "}");;
  allowed ← or_error (on_shares (IncrementShareDownloadCount (sh_ID share) (sh_MaxDownloads share)))
              500 ("{" +:+ quoted "error" +:+ ":" +:+ quoted "Internal server error" +:+ "}");
  check allowed 403 "Download limit reached";;
  manifest ← share_manifest file;
  mret (file, manifest).

Definition downloadSharedFile (r : ShareRequest) : GoM P unit :=
  p ← admitted_download r;
  let '(file, manifest) := (p : Database.File * Database.Manifest) in
  on_download (if nonempty (q_Range r) then public_handleRangeRequest file manifest (q_Range r)
               else public_handleFullDownload file manifest).

Definition streamSharedFile (r : ShareRequest) : GoM P unit :=
  p ← find_share r;
  let '(share, file) := (p : Share * Database.File) in
  authenticateSharePassword r share;;
  manifest ← share_manifest file;
  on_download (
    Set_ "Content-Type" (f_MimeType file);;
    Set_ "Content-Length" (pretty (f_SizeBytes file));;
    Set_ "Content-Disposition" (attachment "inline" file);;
    Set_ "Accept-Ranges" "bytes";;
    if nonempty (q_Range r) then public_handleRangeRequest file manifest (q_Range r)
    else WriteHeader 200;; ignore (streamContent manifest)).
End Public.

(** ** Lemmas *)

Section PublicProofs.
Context `{Hmac} `{HashFn} `{Sha512} `{AEAD} {S : Type} `{Backend S}.
Notation P := (Public S).
Implicit Types w : P.

Definition shares_of w : gmap string Share := st_shares (tab (pw_db w)).
Definition files_of w : gmap string Database.File := db_files (base (pw_db w)).
Definition time_of w : Z := db_now (base (pw_db w)).

(** An error reply: its status and no more than its message. *)
Definition refused_with {A} (r : Res A * P) : Prop :=
  exists c msg w', r = (Err (ErrHTTP c msg), w') /\ 400 <= c /\ w_status (pw_out w') = Some c /\
    (w_body (pw_out w') = [] \/ w_body (pw_out w') = [Raw (bytes_of msg ++ [x0a])]).

Lemma on_download_shares {A} (m : GoM (@D S) A) w : shares_of (on_download m w).2 = shares_of w.
Proof. unfold on_download. by destruct (m _) as [r [s x]]. Qed.

Lemma http_error_refused {A} c msg w : 400 <= c -> silent (pw_out w) ->
  refused_with (http_error c msg w : Res A * P) /\ shares_of (http_error (A := A) c msg w).2 = shares_of w.
Proof.
  intros Hc [Hs Hb]. destruct w as [d st ss [h stt b f]]. simpl in *. subst.
  unfold refused_with, http_error, on_download, Set_, WriteHeader, ignore, attempt, Write, on_writer, write_piece, mbind, GoM_bind, fail. simpl.
  destruct (next_fault f) as [[] l]; simpl; (split; [|done]); eexists _, _, _; (split; [done|]); (split; [done|]); (split; [done|]); auto.
Qed.

(** Runs up to an error reply, or to a value that satisfies [Q]; the writer is then
    as it was, and so are the shares. *)
Definition step_of {A} (m : GoM P A) (Q : P -> A -> Prop) : Prop := forall w, silent (pw_out w) ->
  (refused_with (m w) /\ shares_of (m w).2 = shares_of w) \/
  exists a w', m w = (Ok a, w') /\ pw_out w' = pw_out w /\ shares_of w' = shares_of w /\ Q w a.

Lemma step_check (b : bool) c msg : 400 <= c -> step_of (check b c msg) (fun _ _ => b = true).
Proof.
  intros Hc w Hw. unfold check. destruct b; [right; by exists tt, w|left]. by apply http_error_refused.
Qed.

Lemma step_http_error {A} c msg (Q : P -> A -> Prop) : 400 <= c -> step_of (http_error c msg) Q.
Proof. intros Hc w Hw. left. by apply http_error_refused. Qed.

Lemma refused_bind {A B} (m : GoM P A) (k : A -> GoM P B) w : refused_with (m w) ->
  refused_with ((m ≫= k) w) /\ ((m ≫= k) w).2 = (m w).2.
Proof.
  intros (c & msg & w' & E & Hr). rewrite (bind_err _ _ _ _ _ E), E. split; [|done]. by exists c, msg, w'.
Qed.

(** One more step, for a continuation that needs not leave the shares alone. *)
Lemma step_then {A B} (m : GoM P A) (k : A -> GoM P B) Q w (R : Res B * P -> Prop) : step_of m Q -> silent (pw_out w) ->
  (forall r, refused_with r -> shares_of r.2 = shares_of w -> R r) ->
  (forall a w', m w = (Ok a, w') -> pw_out w' = pw_out w -> shares_of w' = shares_of w -> Q w a -> R (k a w')) ->
  R ((m ≫= k) w).
Proof.
  intros Hm Hw Hr Hk. destruct (Hm w Hw) as [[Hd Hs]|(a & w' & E & Ho & Hs & Ha)].
  - destruct (refused_bind m k w Hd) as [Hd' E]. apply Hr; [done|]. by rewrite E.
  - rewrite (bind_ok _ _ _ _ _ E). by apply (Hk a w').
Qed.

Lemma step_bind {A B} (m : GoM P A) (k : A -> GoM P B) Q R : step_of m Q ->
  (forall w a, Q w a -> step_of (k a) (fun _ b => R w b)) -> step_of (m ≫= k) R.
Proof.
  intros Hm Hk w Hw. apply (step_then m k Q w (fun r => (refused_with r /\ shares_of r.2 = shares_of w) \/
    exists a w', r = (Ok a, w') /\ pw_out w' = pw_out w /\ shares_of w' = shares_of w /\ R w a)); [done|done|by left|].
  intros a w' _ Ho Hs Ha. assert (silent (pw_out w')) as Hw' by by rewrite Ho.
  destruct (Hk w a Ha w' Hw') as [[Hd Hs']|(b & w2 & E & Ho' & Hs' & Hb)].
  - left. split; [done|]. by rewrite Hs'.
  - right. exists b, w2. split_and!; [done|congruence|congruence|done].
Qed.

(** A computation on the tables that leaves the shares alone. *)
Lemma step_or_error {A} (m : GoM ShareDB A) c msg (Q : P -> A -> Prop) : 400 <= c ->
  (forall w, st_shares (tab (m (pw_db w)).2) = shares_of w) ->
  (forall w, match m (pw_db w) with (Ok a, _) => Q w a | (Err _, _) => True | _ => False end) ->
  step_of (or_error (on_shares m) c msg) Q.
Proof.
  intros Hc Ht Hm w Hw. specialize (Ht w). specialize (Hm w). unfold or_error, attempt, on_shares, mbind, GoM_bind.
  destruct (m (pw_db w)) as [[a|e|s|] d]; try done; simpl in *.
  - right. by eexists _, _.
  - left. destruct (http_error_refused (A := A) c msg (mkPublic d (pw_store w) (pw_sessions w) (pw_out w)) Hc Hw) as [Hr Hs].
    split; [done|]. by rewrite Hs.
Qed.

(** The share that a token opens, at the time of the request. *)
Record opens (token : string) w (share : Share) (file : Database.File) : Prop := {
  op_row : exists id, shares_of w !! id = Some share;
  op_token : sh_Token share = Some token;
  op_active : sh_IsActive share = true;
  op_expiry : expired (time_of w) share = false;
  op_file : files_of w !! sh_FileID share = Some file
}.

Lemma shares_where_head P' (d : ShareDB) s : head (shares_where P' d) = Some s ->
  P' s = true /\ sh_IsActive s = true /\ exists id, st_shares (tab d) !! id = Some s.
Proof.
  intros Hs. assert (In s (shares_where P' d)) as Hin by (destruct (shares_where P' d); [done|injection Hs as ->; by left]).
  unfold shares_where in Hin. apply filter_In in Hin as [Hin Hb]. apply andb_true_iff in Hb as [H1' H2'].
  split_and!; [done|done|]. by apply elem_of_rows, list_elem_of_In.
Qed.

Lemma validateShare_tables token d : st_shares (tab (validateShare token d).2) = st_shares (tab d).
Proof.
  unfold validateShare, instead, GetShareByToken, tab_scan, tab_now, on_base, GetFileByID, scan_row, attempt, tab_query, sql_query, mbind, GoM_bind.
  destruct (next_fault _) as [[] l]; simpl; [done|]. destruct (head _) as [s|]; simpl; [|done].
  destruct (expired _ s); [done|]. destruct (negb _); [done|]. simpl. destruct (next_fault l) as [[] l']; simpl; [done|].
  by destruct (db_files _ !! _).
Qed.

Lemma validateShare_opens token w : match validateShare token (pw_db w) with
  | (Ok p, _) => opens token w p.1 p.2
  | (Err _, _) => True
  | _ => False
  end.
Proof.
  unfold validateShare, instead, GetShareByToken, tab_scan, tab_now, on_base, GetFileByID, scan_row, attempt, tab_query, sql_query, mbind, GoM_bind.
  destruct (next_fault _) as [[] l]; simpl; [done|]. destruct (head _) as [s|] eqn:Eh; simpl; [|done].
  apply shares_where_head in Eh as (Ht & Ha & Hrow). apply bool_decide_eq_true in Ht. simpl in Hrow.
  destruct (expired _ s) eqn:Ee; [done|]. rewrite Ha. simpl. destruct (next_fault l) as [[] l']; simpl; [done|].
  destruct (db_files _ !! _) as [f|] eqn:Ef; [|done]. by split.
Qed.

Lemma step_find_share r : step_of (find_share r) (fun w p => opens (q_token r) w p.1 p.2).
Proof.
  unfold find_share. intros w Hw.
  apply (step_then (check (nonempty (q_token r)) 400 "Token required") _ (fun _ _ => nonempty (q_token r) = true) w
    (fun x => (refused_with x /\ shares_of x.2 = shares_of w) \/ exists a w', x = (Ok a, w') /\ pw_out w' = pw_out w /\
       shares_of w' = shares_of w /\ opens (q_token r) w a.1 a.2)); [by apply step_check|done|by left|].
  intros u w1 E _ _ _. assert (w1 = w) as -> by (unfold check in E; destruct (nonempty _); [by injection E|]; 
    unfold http_error, mbind, GoM_bind in E; by destruct (on_download _ w) as [[] ?]).
  apply (step_or_error (validateShare (q_token r)) 404 "Share not found or unavailable" (fun w p => opens (q_token r) w p.1 p.2)); [lia| | |done].
  - intros w'. apply validateShare_tables.
  - intros w'. apply validateShare_opens.
Qed.

(** The password of the request is that of the share. *)
Definition password_ok (r : ShareRequest) (share : Share) : Prop :=
  forall hash, sh_PasswordHash share = Some hash -> VerifyPassword (extractSharePassword r) hash = Ok true.

Lemma on_download_headers (k v : string) w : silent (pw_out w) ->
  exists w', on_download (Set_ k v) w = (Ok tt, w') /\ silent (pw_out w') /\ shares_of w' = shares_of w.
Proof. intros [Hs Hb]. unfold on_download, Set_, on_writer. simpl. eexists. by split. Qed.

Lemma step_authenticate r share : step_of (authenticateSharePassword r share) (fun _ _ => password_ok r share).
Proof.
  unfold authenticateSharePassword, password_ok. destruct (sh_PasswordHash share) as [hash|]; [|intros w Hw; right; by exists tt, w].
  destruct (nonempty _).
  - intros w Hw. destruct (VerifyPassword (extractSharePassword r) hash) as [b|e|m|] eqn:Ev.
    + rewrite (bind_ok _ _ w (inl b) w) by done. destruct b; [|left; by apply http_error_refused].
      right. exists tt, w. split_and!; try done. intros ? [= <-]. done.
    + rewrite (bind_ok _ _ w (inr e) w) by done. left. by apply http_error_refused.
    + pose proof (VerifyPassword_total (extractSharePassword r) hash) as Ht. by rewrite Ev in Ht.
    + pose proof (VerifyPassword_total (extractSharePassword r) hash) as Ht. by rewrite Ev in Ht.
  - intros w Hw. left. destruct (on_download_headers "WWW-Authenticate" ("Bearer realm=" +:+ quoted "share") w Hw) as (w' & E & Hw' & Hs').
    rewrite (bind_ok _ _ _ _ _ E). destruct (http_error_refused (A := unit) 401 "Password required" w') as [Hr Hs]; [lia|done|].
    split; [done|]. by rewrite Hs.
Qed.

Lemma step_manifest file : step_of (share_manifest file) (fun _ _ => True).
Proof.
  unfold share_manifest. destruct (f_ManifestID file) as [id|]; [|by apply step_http_error].
  apply step_bind with (Q := fun _ _ => nonempty id = true); [by apply step_check|]. intros _ u _.
  apply (step_or_error (on_base (GetManifest id)) 500 _ (fun _ _ => True)); [lia| |].
  all: intros w'; unfold on_base, GetManifest, scan_row, attempt, sql_query, shares_of, mbind, GoM_bind;
    destruct (next_fault _) as [[] l]; simpl; [done|]; by destruct (db_manifests _ !! _).
Qed.

Definition under_limit (share : Share) : Prop :=
  match sh_MaxDownloads share with Some m => sh_DownloadCount share < m | None => True end.

Lemma recipient_count share d : recipient_ok share (count_download share) d = true.
Proof. unfold recipient_ok. rewrite bool_decide_eq_true_2; [done|]. by destruct share. Qed.

Lemma increment_spec id share (d : ShareDB) : st_shares (tab d) !! id = Some share -> sh_ID share = id ->
  match IncrementShareDownloadCount (sh_ID share) (sh_MaxDownloads share) d with
  | (Ok true, d') => under_limit share /\ st_shares (tab d') = <[id := count_download share]> (st_shares (tab d))
  | (Ok false, d') | (Err _, d') => st_shares (tab d') = st_shares (tab d)
  | _ => False
  end.
Proof.
  intros Hs Hid. rewrite Hid. unfold IncrementShareDownloadCount, under_limit, tab_exec, change_share, mbind, GoM_bind.
  destruct (sh_MaxDownloads share) as [m|]; destruct (next_fault _) as [[] l]; simpl; try done; rewrite Hs.
  - destruct (Z.ltb_spec (sh_DownloadCount share) m); simpl; [|done]. rewrite recipient_count, andb_false_r. by split.
  - simpl. rewrite recipient_count, andb_false_r. by split.
Qed.

Lemma count_spec id share msg w : silent (pw_out w) -> shares_of w !! id = Some share -> sh_ID share = id ->
  let r := or_error (on_shares (IncrementShareDownloadCount (sh_ID share) (sh_MaxDownloads share))) 500 msg w in
  (refused_with r /\ shares_of r.2 = shares_of w) \/
  exists b w', r = (Ok b, w') /\ pw_out w' = pw_out w /\
    if b : bool then under_limit share /\ shares_of w' = <[id := count_download share]> (shares_of w)
    else shares_of w' = shares_of w.
Proof.
  intros Hw Hid Eid. pose proof (increment_spec id share (pw_db w) Hid Eid) as Hinc.
  unfold or_error, attempt, on_shares, mbind, GoM_bind.
  destruct (IncrementShareDownloadCount _ _ (pw_db w)) as [[b|e|m|] d]; try done; simpl.
  - right. eexists b, _. split; [done|]. split; [done|]. by destruct b.
  - left. destruct (http_error_refused (A := bool) 500 msg (mkPublic d (pw_store w) (pw_sessions w) (pw_out w))) as [Hr Hs]; [lia|done|].
    split; [done|]. rewrite Hs. exact Hinc.
Qed.

(** The keys of the table are the identifiers of its rows. *)
Definition shares_keyed w : Prop := forall id s, shares_of w !! id = Some s -> sh_ID s = id.

(** What a download needs of the share and of the request. *)
Record admitted (r : ShareRequest) w (id : string) (share : Share) : Prop := {
  ad_row : shares_of w !! id = Some share;
  ad_opens : exists file, opens (q_token r) w share file;
  ad_password : password_ok r share;
  ad_preview : sh_PreviewOnly share = false;
  ad_limit : under_limit share
}.

(** A download leaves the shares alone and is refused, or counts. *)
Lemma admitted_spec r w : silent (pw_out w) -> shares_keyed w ->
  (refused_with (admitted_download r w) /\ shares_of (admitted_download r w).2 = shares_of w) \/
  exists id share, admitted r w id share /\
    shares_of (admitted_download r w).2 = <[id := count_download share]> (shares_of w) /\
    (refused_with (admitted_download r w) \/ exists p, (admitted_download r w).1 = Ok p).
Proof.
  intros Hw Hk.
  set (R := fun x : Res (Database.File * Database.Manifest) * P =>
    (refused_with x /\ shares_of x.2 = shares_of w) \/
    exists id share, admitted r w id share /\ shares_of x.2 = <[id := count_download share]> (shares_of w) /\
      (refused_with x \/ exists p, x.1 = Ok p)).
  assert (forall w1 x, shares_of w1 = shares_of w -> refused_with x -> shares_of x.2 = shares_of w1 -> R x) as Hstop.
  { intros w1 x Hs1 Hr Hs. left. split; [done|congruence]. }
  apply (step_then _ _ _ w R (step_find_share r) Hw); [intros x; by apply (Hstop w)|].
  intros [share file] w1 E1 Ho1 Hs1 Hop. simpl in Hop.
  apply (step_then _ _ _ w1 R (step_authenticate r share)); [by rewrite Ho1|intros x; by apply Hstop|].
  intros u w2 _ Ho2 Hs2 Hpw.
  apply (step_then _ _ _ w2 R (step_check (negb (sh_PreviewOnly share)) 403 _ ltac:(lia))); [by rewrite Ho2, Ho1|intros x; apply Hstop; congruence|].
  intros u' w3 _ Ho3 Hs3 Hpre. apply negb_true_iff in Hpre.
  assert (silent (pw_out w3)) as Hw3 by by rewrite Ho3, Ho2, Ho1.
  assert (shares_of w3 = shares_of w) as Hs by congruence.
  destruct (op_row _ _ _ _ Hop) as [id Hid]. assert (sh_ID share = id) as Eid by by apply Hk.
  assert (shares_of w3 !! id = Some share) as Hid3 by by rewrite Hs.
  match goal with |- R ((or_error _ 500 ?m ≫= _) _) => destruct (count_spec id share m w3 Hw3 Hid3 Eid) as [[Hr Hx]|(b & w4 & E4 & Ho4 & Hb)] end.
  { match goal with |- R ((?m ≫= ?k) _) => destruct (refused_bind m k w3 Hr) as [Hr' E'] end.
    apply (Hstop w3); [done|exact Hr'|]. by rewrite E'. }
  rewrite (bind_ok _ _ _ _ _ E4). assert (silent (pw_out w4)) as Hw4 by by rewrite Ho4.
  destruct b; unfold check at 1.
  - destruct Hb as [Hlim Hrow]. rewrite Hs in Hrow. rewrite bind_mret.
    assert (admitted r w id share) as Had by (split; [done|by exists file|done|done|done]).
    apply (step_then _ _ _ w4 R (step_manifest file)); [done| |].
    + intros x Hr Hx. right. exists id, share. rewrite Hx. split_and!; [done|exact Hrow|by left].
    + intros m w5 _ _ Hs5 _. right. exists id, share. split; [done|]. simpl. rewrite Hs5. split; [exact Hrow|right; by eexists].
  - apply (step_then _ _ _ w4 R (step_http_error 403 _ (fun _ _ => False) ltac:(lia))); [done| |done].
    intros x Hr Hx. apply (Hstop w4); [congruence|done|done].
Qed.

Lemma download_spec r w : silent (pw_out w) -> shares_keyed w ->
  (refused_with (downloadSharedFile r w) /\ shares_of (downloadSharedFile r w).2 = shares_of w) \/
  exists id share, admitted r w id share /\ shares_of (downloadSharedFile r w).2 = <[id := count_download share]> (shares_of w).
Proof.
  intros Hw Hk. unfold downloadSharedFile.
  destruct (admitted_spec r w Hw Hk) as [[Hr Hs]|(id & share & Had & Hs & Hr)].
  - left. match goal with |- refused_with ((?m ≫= ?k) w) /\ _ => destruct (refused_bind m k w Hr) as [Hr' E] end. split; [exact Hr'|]. by rewrite E.
  - right. exists id, share. split; [done|]. destruct Hr as [Hr|[[file m] Hp]].
    + match goal with |- shares_of ((?m ≫= ?k) w).2 = _ => destruct (refused_bind m k w Hr) as [_ E] end. by rewrite E.
    + assert (admitted_download r w = (Ok (file, m), (admitted_download r w).2)) as E by (rewrite <-Hp; by destruct (admitted_download r w)).
      rewrite (bind_ok _ _ _ _ _ E). cbv beta iota. rewrite on_download_shares. exact Hs.
Qed.

Lemma stream_spec r w : silent (pw_out w) ->
  shares_of (streamSharedFile r w).2 = shares_of w /\
  (refused_with (streamSharedFile r w) \/ exists share file, opens (q_token r) w share file /\ password_ok r share).
Proof.
  intros Hw. unfold streamSharedFile.
  set (R := fun x : Res unit * P => shares_of x.2 = shares_of w /\
    (refused_with x \/ exists share file, opens (q_token r) w share file /\ password_ok r share)).
  apply (step_then _ _ _ w R (step_find_share r) Hw); [intros x Hr Hs; split; [done|by left]|].
  intros [share file] w1 E1 Ho1 Hs1 Hop. simpl in Hop.
  apply (step_then _ _ _ w1 R (step_authenticate r share)); [by rewrite Ho1|intros x Hr Hs; split; [congruence|by left]|].
  intros u w2 _ Ho2 Hs2 Hpw.
  apply (step_then _ _ _ w2 R (step_manifest file)); [by rewrite Ho2, Ho1|intros x Hr Hs; split; [congruence|by left]|].
  intros m w3 _ _ Hs3 _. split; [rewrite on_download_shares; congruence|right; by exists share, file].
Qed.

Lemma info_spec r w : silent (pw_out w) -> shares_keyed w ->
  shares_of (getShareInfo r w).2 = shares_of w \/
  exists id share n, shares_of w !! id = Some share /\ shares_of (getShareInfo r w).2 = <[id := apply_share (S_view_count n) share]> (shares_of w).
Proof.
  intros Hw Hk. unfold getShareInfo.
  set (R := fun x : Res unit * P => shares_of x.2 = shares_of w \/
    exists id share n, shares_of w !! id = Some share /\ shares_of x.2 = <[id := apply_share (S_view_count n) share]> (shares_of w)).
  apply (step_then _ _ _ w R (step_find_share r) Hw); [intros x Hr Hs; by left|].
  intros [share file] w1 E1 Ho1 Hs1 Hop. simpl in Hop. destruct (op_row _ _ _ _ Hop) as [id Hid].
  assert (sh_ID share = id) as Eid by by apply Hk.
  assert (forall d, st_shares (tab d) = shares_of w -> st_shares (tab (IncrementShareViewCount (sh_ID share) d).2) = shares_of w \/
    st_shares (tab (IncrementShareViewCount (sh_ID share) d).2) = <[id := apply_share (S_view_count (sh_ViewCount share + 1)) share]> (shares_of w)) as Hv.
  { intros d Hd. unfold IncrementShareViewCount, tab_exec, change_share, mbind, GoM_bind. destruct (next_fault _) as [[] l]; simpl; [by left|].
    rewrite Hd, Eid, Hid. simpl. destruct (recipient_ok _ _ _); [|rewrite andb_true_r; destruct (db_fk _)]; rewrite ?andb_false_r; simpl; rewrite ?Hd; auto. }
  assert (forall w2, R (Ok tt, w2) -> R ((on_download (Set_ "Content-Type" "application/json");;
    ignore (on_download (on_writer (write_piece (Json (J_share_info (f_Name file) (f_Type file) (f_SizeBytes file) (f_MimeType file)
    (sh_PreviewOnly share) (sh_AllowUpload share) (sh_ExpiresAt share) (bool_decide (is_Some (sh_PasswordHash share))))))))) w2)) as Hrest.
  { intros w2 Hw2. unfold R, shares_of in *. simpl in *. unfold ignore, attempt, on_download, Set_, on_writer, write_piece, mbind, GoM_bind. simpl.
    destruct (next_fault _) as [[] l]; exact Hw2. }
  specialize (Hv (pw_db w1) Hs1).
  assert (ignore (on_shares (IncrementShareViewCount (sh_ID share))) w1 =
    (Ok tt, mkPublic (IncrementShareViewCount (sh_ID share) (pw_db w1)).2 (pw_store w1) (pw_sessions w1) (pw_out w1))) as Ei.
  { unfold ignore, attempt, on_shares, IncrementShareViewCount, tab_exec, mbind, GoM_bind. destruct (next_fault _) as [[] l]; [done|].
    by destruct (change_share _ _ _ _) as [e|[n d]]. }
  rewrite (bind_ok _ _ _ _ _ Ei). apply Hrest. destruct Hv as [Hv|Hv]; [by left|right; by exists id, share, (sh_ViewCount share + 1)].
Qed.

(** *** Sequences of requests *)

Definition same_keys (m m' : gmap string Share) : Prop :=
  (fun s => (sh_ID s, sh_Token s)) <$> m' = (fun s => (sh_ID s, sh_Token s)) <$> m.

Lemma same_keys_change m id s g : m !! id = Some s -> sh_ID (g s) = sh_ID s -> sh_Token (g s) = sh_Token s ->
  same_keys m (<[id := g s]> m).
Proof.
  intros Hs E1 E2. unfold same_keys. rewrite fmap_insert. apply insert_id. rewrite lookup_fmap, Hs. simpl. by rewrite E1, E2.
Qed.

Lemma same_keys_lookup m m' id s' : same_keys m m' -> m' !! id = Some s' ->
  exists s, m !! id = Some s /\ sh_ID s' = sh_ID s /\ sh_Token s' = sh_Token s.
Proof.
  intros Hk Hs. assert ((fun s => (sh_ID s, sh_Token s)) <$> (m' !! id) = (fun s => (sh_ID s, sh_Token s)) <$> (m !! id)) as E
    by (rewrite <-!lookup_fmap; by rewrite Hk).
  rewrite Hs in E. destruct (m !! id) as [s|]; [|done]. injection E as -> ->. by exists s.
Qed.

(** No two shares have the same token. *)
Definition tokens_unique w : Prop := forall i j s t,
  shares_of w !! i = Some s -> shares_of w !! j = Some t -> sh_Token s = sh_Token t -> is_Some (sh_Token s) -> i = j.

Definition well_keyed w : Prop := shares_keyed w /\ tokens_unique w.

Lemma well_keyed_same w w' : same_keys (shares_of w) (shares_of w') -> well_keyed w -> well_keyed w'.
Proof.
  intros Hk [H1' H2']. split.
  - intros id s' (s & Hs & -> & _)%(same_keys_lookup _ _ _ _ Hk). by apply H1'.
  - intros i j s' t' (s & Hs & _ & Es)%(same_keys_lookup _ _ _ _ Hk) (t & Ht & _ & Et)%(same_keys_lookup _ _ _ _ Hk) E Hx.
    rewrite Es, Et in E. rewrite Es in Hx. by apply (H2' i j s t).
Qed.

Inductive public_request := PInfo (r : ShareRequest) | PDownload (r : ShareRequest) | PStream (r : ShareRequest).

(** Every request has its own connection, on which the given writes fail. *)
Definition connect (faults : list bool) w : P := mkPublic (pw_db w) (pw_store w) (pw_sessions w) (mkWriter ∅ None [] faults).

Definition serve (q : public_request) w : Res unit * P :=
  match q with PInfo r => getShareInfo r w | PDownload r => downloadSharedFile r w | PStream r => streamSharedFile r w end.

Definition answered {A} (x : Res A * P) : bool := match x.1 with Err _ => false | _ => true end.

(** The downloads that were answered through the token, and the state after all requests. *)
Fixpoint served (token : string) (reqs : list (public_request * list bool)) w : Z * P :=
  match reqs with
  | [] => (0, w)
  | (q, faults) :: reqs =>
      let x := serve q (connect faults w) in
      let '(n, w') := served token reqs x.2 in
      ((match q with PDownload r => if bool_decide (q_token r = token) && answered x then 1 else 0 | _ => 0 end) + n, w')
  end.

Lemma refused_answered {A} (x : Res A * P) : refused_with x -> answered x = false.
Proof. by intros (c & msg & w' & -> & _). Qed.

Lemma serve_one q faults w id share token m : well_keyed w ->
  shares_of w !! id = Some share -> sh_Token share = Some token -> sh_MaxDownloads share = Some m ->
  let x := serve q (connect faults w) in
  same_keys (shares_of w) (shares_of x.2) /\
  exists share' n, shares_of x.2 !! id = Some share' /\ sh_Token share' = Some token /\ sh_MaxDownloads share' = Some m /\
    sh_DownloadCount share' = sh_DownloadCount share + n /\ 0 <= n /\ (n = 0 \/ sh_DownloadCount share + n <= m) /\
    (match q with PDownload r => if bool_decide (q_token r = token) && answered x then 1 else 0 | _ => 0 end) <= n.
Proof.
  intros [Hk Hu] Hid Ht Hm x. assert (silent (pw_out (connect faults w))) as Hw by done.
  assert (forall n, (0 <= n -> n <= 0 ->
    exists share' n', shares_of w !! id = Some share' /\ sh_Token share' = Some token /\ sh_MaxDownloads share' = Some m /\
      sh_DownloadCount share' = sh_DownloadCount share + n' /\ 0 <= n' /\ (n' = 0 \/ sh_DownloadCount share + n' <= m) /\ n <= n')) as Hsame.
  { intros n _ Hn. exists share, 0. split_and!; first [done|lia|by left|by right; lia]. }
  destruct q as [r|r|r]; simpl in x.
  - destruct (info_spec r (connect faults w) Hw Hk) as [Es|(id' & s' & v & Hs' & Es)]; fold x in Es; rewrite Es.
    + split; [done|]. apply Hsame; lia.
    + split; [by apply same_keys_change; destruct s'|]. destruct (decide (id' = id)) as [->|Hne].
      * assert (s' = share) as -> by (unfold connect, shares_of in *; simpl in *; congruence).
        exists (apply_share (S_view_count v) share), 0. rewrite lookup_insert_eq. destruct share; simpl in *. split_and!; first [done|lia|by left|by right; lia].
      * rewrite lookup_insert_ne by done. apply Hsame; lia.
  - destruct (download_spec r (connect faults w) Hw Hk) as [[Hr Es]|(id' & s' & Had & Es)]; fold x in Es; rewrite Es.
    + fold x in Hr. rewrite (refused_answered _ Hr), andb_false_r. split; [done|]. apply Hsame; lia.
    + pose proof (ad_row _ _ _ _ Had) as Hs'. split; [by apply same_keys_change; destruct s'|]. destruct (decide (id' = id)) as [->|Hne].
      * assert (s' = share) as -> by (unfold connect, shares_of in *; simpl in *; congruence).
        pose proof (ad_limit _ _ _ _ Had) as Hl. unfold under_limit in Hl. rewrite Hm in Hl.
        exists (count_download share), 1. rewrite lookup_insert_eq. destruct share; simpl in *. split_and!; first [done|lia|right; lia|destruct (_ && _); lia].
      * rewrite lookup_insert_ne by done. destruct (ad_opens _ _ _ _ Had) as [f Hop].
        rewrite bool_decide_eq_false_2; [apply (Hsame 0); lia|]. intros E. apply Hne. apply (Hu id' id s' share); [done|done| |].
        -- rewrite (op_token _ _ _ _ Hop), E. by rewrite Ht.
        -- by rewrite (op_token _ _ _ _ Hop).
  - destruct (stream_spec r (connect faults w) Hw) as [Es _]. fold x in Es. rewrite Es. split; [done|]. apply Hsame; lia.
Qed.

(** [C23] What a share link gives away.  A download either is refused with an error
    reply and no content, or there is an active, unexpired share with that token
    whose file exists, whose password the request shows, which is not for preview
    only and below its limit -- and its count has gone up by one.  A stream
    likewise asks for the share and its password, but for nothing else: neither
    the limit nor the preview restriction holds it back, and nothing is counted. *)
Theorem share_link_guarded r w : silent (pw_out w) -> shares_keyed w ->
  (refused_with (downloadSharedFile r w) \/
   exists id share, admitted r w id share /\ shares_of (downloadSharedFile r w).2 = <[id := count_download share]> (shares_of w)) /\
  (refused_with (streamSharedFile r w) \/ exists share file, opens (q_token r) w share file /\ password_ok r share) /\
  shares_of (streamSharedFile r w).2 = shares_of w.
Proof.
  intros Hw Hk. destruct (stream_spec r w Hw) as [Hs Hr]. split_and!; [|done|done].
  destruct (download_spec r w Hw Hk) as [[? _]|?]; auto.
Qed.

(** [C22] A download limit holds: over every sequence of requests for any shares,
    whatever writes, statements and reads fail, the downloads answered through the
    token of a share never exceed what its limit left, and its count never passes
    the limit. *)
Theorem download_limit_holds reqs w id share token m : well_keyed w ->
  shares_of w !! id = Some share -> sh_Token share = Some token -> sh_MaxDownloads share = Some m ->
  let '(n, w') := served token reqs w in
  0 <= n <= Z.max 0 (m - sh_DownloadCount share) /\
  exists share', shares_of w' !! id = Some share' /\
    sh_DownloadCount share + n <= sh_DownloadCount share' <= Z.max (sh_DownloadCount share) m.
Proof.
  revert w share. induction reqs as [|[q faults] reqs IH]; intros w share Hk Hid Ht Hm; simpl.
  - split; [lia|]. exists share. split; [done|lia].
  - destruct (serve_one q faults w id share token m Hk Hid Ht Hm) as (Hsk & s1 & n1 & Hs1 & Ht1 & Hm1 & Hc1 & Hn1 & Hlim & Hi).
    set (x := serve q (connect faults w)) in *. specialize (IH x.2 s1 (well_keyed_same _ _ Hsk Hk) Hs1 Ht1 Hm1).
    destruct (served token reqs x.2) as [n w']. destruct IH as (Hn & s2 & Hs2 & Hc2).
    set (i := match q with PDownload r => _ | _ => _ end) in *.
    assert (0 <= i) as Hi0 by (unfold i; destruct q as [r|r|r]; [lia|destruct (_ && _); lia|lia]).
    split; [lia|]. exists s2. split; [done|]. lia.
Qed.
End PublicProofs.

(** *** From creation to revocation *)

Section Lifecycle.
Context `{Hmac} `{HashFn} `{Sha512}.
Implicit Types w : ShareDB.

Lemma token_taken_false s m id t : token_taken s m = false -> m !! id = Some t -> is_Some (sh_Token s) -> sh_Token t <> sh_Token s.
Proof.
  unfold token_taken. intros Hf Ht [x Hx] E. rewrite Hx in Hf. assert (existsb (fun v => bool_decide (sh_Token v = Some x)) (rows m) = true) as Ht'; [|congruence].
  apply existsb_exists. exists t. split; [apply list_elem_of_In, elem_of_rows; eauto|]. apply bool_decide_eq_true. congruence.
Qed.

Lemma stored_share_same reread s : sh_ID (stored_share reread s) = sh_ID s /\ sh_Token (stored_share reread s) = sh_Token s /\
  sh_IsActive (stored_share reread s) = sh_IsActive s /\ sh_FileID (stored_share reread s) = sh_FileID s /\
  sh_ExpiresAt (stored_share reread s) = reread <$> sh_ExpiresAt s.
Proof. by destruct s. Qed.

(** The only row with the token of a new share is its own. *)
Lemma only_row reread config u f w share path w1 token id s (g : Share -> Share) :
  created reread config u f w share path w1 -> sh_Token share = Some token ->
  (forall x, sh_Token (g x) = sh_Token x) ->
  <[sh_ID share := g (stored_share reread share)]> (st_shares (tab w1)) !! id = Some s -> sh_Token s = Some token ->
  s = g (stored_share reread share).
Proof.
  intros Hc Ht Hg Hs Es. apply lookup_insert_Some in Hs as [[_ <-]|[Hne Hs]]; [done|]. exfalso.
  destruct (cr_tables _ _ _ _ _ _ _ _ Hc) as [Et _]. rewrite Et, lookup_insert_ne in Hs by done.
  destruct (cr_fresh _ _ _ _ _ _ _ _ Hc) as [_ Hf]. apply (token_taken_false share _ id s) in Hf; [congruence|done|by exists token].
Qed.

Lemma validate_still token w s f : still w -> (forall x, x ∈ shares_where (fun s => bool_decide (sh_Token s = Some token)) w -> x = s) ->
  s ∈ shares_where (fun s => bool_decide (sh_Token s = Some token)) w -> expired (db_now (base w)) s = false -> sh_IsActive s = true ->
  db_files (base w) !! sh_FileID s = Some f -> validateShare token w = (Ok (s, f), w).
Proof.
  intros Hq Hall Hin He Ha Hf. unfold validateShare, GetShareByToken.
  assert (head (shares_where (fun s => bool_decide (sh_Token s = Some token)) w) = Some s) as Hh.
  { destruct (shares_where _ w) as [|x xs]; [by apply elem_of_nil in Hin|]. simpl. f_equal. apply Hall. by left. }
  rewrite (bind_ok _ _ w s w).
  2:{ unfold instead. rewrite tab_scan_still by done. by rewrite Hh. }
  rewrite (bind_ok _ _ w (db_now (base w)) w) by done. rewrite He, Ha. cbn [negb].
  rewrite (bind_ok _ _ w f w); [done|]. unfold instead, on_base, GetFileByID. rewrite scan_row_quiet by done. rewrite Hf. by rewrite ext_eta.
Qed.

(** [Fact] A link opens the share it was made for, until it is revoked.  When a link
    is created, its file belongs to the caller and the share obeys the rules of the
    configuration on links, passwords, downloads and -- if it was given one -- on
    its expiry; the token then finds exactly that share and file at any later time
    that is not past the expiry as the driver gives it back; and once its creator
    revoked it, the token finds nothing. *)
Theorem share_lifecycle reread config userID fileID req w share path w1 token later :
  createShare reread config userID fileID req w = (Ok (H_created share path), w1) -> sh_Token share = Some token ->
  still later -> st_shares (tab later) = st_shares (tab w1) -> db_files (base later) = db_files (base w1) ->
  created reread config userID fileID w share path w1 /\
  ((forall t, sh_ExpiresAt share = Some t -> db_now (base later) <= reread t) ->
   exists f, f_UserID f = userID /\ validateShare token later = (Ok (stored_share reread share, f), later)) /\
  (forall after, revokeShare userID (sh_ID share) later = (Ok H_revoked, after) ->
   exists e, (validateShare token after).1 = Err e).
Proof.
  intros Hc%createShare_inv Ht Hq Hsh Hfs. split; [done|]. destruct (cr_tables _ _ _ _ _ _ _ _ Hc) as (Et & Ef & _).
  destruct (stored_share_same reread share) as (Si & St & Sa & Sf & Se). destruct (cr_ids _ _ _ _ _ _ _ _ Hc) as (If & Iu & Ia & _). split.
  - intros Hexp. destruct (cr_file _ _ _ _ _ _ _ _ Hc) as (f & Hf & Hu). exists f. split; [done|]. apply validate_still; [done| | | | |].
    + intros x Hx. unfold shares_where in Hx. apply list_elem_of_In, filter_In in Hx as [Hx Hb]. apply andb_true_iff in Hb as [Hb _].
      apply bool_decide_eq_true in Hb. apply list_elem_of_In, elem_of_rows in Hx as [id Hx]. rewrite Hsh in Hx.
      apply (only_row reread config userID fileID w share path w1 token id x (fun y => y) Hc Ht); [done| |done].
      rewrite insert_id; [done|]. by rewrite Et, lookup_insert_eq.
    + unfold shares_where. apply list_elem_of_In, filter_In. split; [|by rewrite St, Ht, Sa, Ia, bool_decide_eq_true_2].
      apply list_elem_of_In, elem_of_rows. exists (sh_ID share). by rewrite Hsh, Et, lookup_insert_eq.
    + unfold expired. rewrite Se. destruct (sh_ExpiresAt share) as [t|]; [|done]. simpl. apply Z.ltb_ge. by apply Hexp.
    + by rewrite Sa.
    + by rewrite Hfs, Ef, Sf, If.
  - intros after (s & t & Hs & _ & Ea)%revokeShare_inv. rewrite Hsh in Hs, Ea.
    assert (s = stored_share reread share) as -> by (rewrite Et, lookup_insert_eq in Hs; by injection Hs).
    pose proof (validateShare_opens (S := unit) token (mkPublic after tt ∅ (mkWriter ∅ None [] []))) as Ho. simpl in Ho.
    destruct (validateShare token after) as [[[s f]|e|m|] x]; try done; [|by exists e]. exfalso.
    destruct Ho as [[id Hrow] Htok Hact _ _]. simpl in *. unfold shares_of in Hrow. simpl in Hrow. rewrite Ea in Hrow.
    apply (only_row reread config userID fileID w share path w1 token id s (fun x => touch_share t (apply_share (S_is_active false) x)) Hc Ht)
      in Hrow as ->; [by destruct share|by intros []|done].
Qed.
End Lifecycle.

(** ** Witnesses *)

Section Witnesses.
#[local] Existing Instance toy_hash.
#[local] Existing Instance toy_hmac.
#[local] Existing Instance toy_sha512.
#[local] Existing Instance toy_aead.
#[local] Existing Instance download_backend.

(** The file of [Download]'s examples, shared through a link for one download. *)
Definition one_download : Share :=
  mkShare "s" "f" "u" "link" (Some "tok"%string) None None (Some 1) 0 false false None "read" [] true 0 10 10.
Definition public0 : Public FS :=
  mkPublic (mkExt (sv_db conn0.1) (mkShareTables (mkAuthTables ∅ ∅ ∅) {["s"%string := one_download]})) (sv_store conn0.1) ∅ (mkWriter ∅ None [] []).
Definition ask (token : string) : ShareRequest := mkShareRequest token "" 0 "" None "" "".

Lemma public0_keyed : well_keyed public0.
Proof.
  assert (shares_of public0 = {["s"%string := one_download]}) as E by reflexivity.
  unfold well_keyed, shares_keyed, tokens_unique. rewrite E. split.
  - intros id s Hs. apply lookup_singleton_Some in Hs as [<- <-]. reflexivity.
  - intros i j s t Hs Ht _ _. apply lookup_singleton_Some in Hs as [<- _]. apply lookup_singleton_Some in Ht as [<- _]. reflexivity.
Qed.

Lemma share_link_witness : exists id share, admitted (ask "tok") public0 id share.
Proof.
  assert (silent (pw_out public0)) as Hs by (split; reflexivity).
  destruct (proj1 (share_link_guarded (ask "tok") public0 Hs (proj1 public0_keyed))) as [Hr|(id & share & Had & _)].
  - apply refused_answered in Hr. vm_compute in Hr. discriminate Hr.
  - exists id, share. exact Had.
Defined.

Lemma download_limit_witness :
  let reqs := [(PDownload (ask "tok"), []); (PInfo (ask "tok"), []); (PDownload (ask "tok"), [])] in
  (served "tok" reqs public0).1 = 1 /\ (served "tok" reqs public0).1 <= Z.max 0 (1 - 0).
Proof.
  intros reqs. split; [vm_compute; reflexivity|].
  pose proof (download_limit_holds reqs public0 "s" one_download "tok" 1 public0_keyed eq_refl eq_refl eq_refl) as Hd.
  destruct (served "tok" reqs public0) as [n w']. exact (proj2 (proj1 Hd)).
Defined.

Definition open_config : SharingConfig := mkSharing true 0 false 0.
Definition shared_db : ShareDB := mkExt (sv_db conn0.1) (mkShareTables (mkAuthTables ∅ ∅ ∅) ∅).
Definition link_request : createShareRequest := mkCreateShare "link" None None (Some 7) (Some 3) false false "".
Definition link_made : Res share_reply * ShareDB := createShare (fun t => t) open_config "u" "f" (Some link_request) shared_db.

Lemma share_lifecycle_witness : exists share token f,
  sh_Token share = Some token /\ validateShare token link_made.2 = (Ok (stored_share (fun t => t) share, f), link_made.2) /\
  exists e, (validateShare token (revokeShare "u" (sh_ID share) link_made.2).2).1 = Err e.
Proof.
  assert (match link_made.1 with
          | Ok (H_created share _) =>
              match sh_Token share, sh_ExpiresAt share with
              | Some _, Some t => (db_now (base link_made.2) <=? t) &&
                  match (revokeShare "u" (sh_ID share) link_made.2).1 with Ok H_revoked => true | _ => false end
              | _, _ => false
              end
          | _ => false end = true) as Hok by (vm_compute; reflexivity).
  assert (still link_made.2) as Hst by (vm_compute; reflexivity).
  destruct link_made as [[[share path|l|l|s| |]|e|m|] w1] eqn:E; try discriminate Hok. cbn [fst snd] in *.
  destruct (sh_Token share) as [token|] eqn:Et; [|discriminate Hok].
  destruct (share_lifecycle (fun t => t) open_config "u" "f" (Some link_request) shared_db share path w1 token w1 E Et Hst eq_refl eq_refl)
    as (_ & Hopen & Hrev).
  destruct (sh_ExpiresAt share) as [t|] eqn:Ex; [|discriminate Hok]. apply andb_true_iff in Hok as [Ht Hr]. apply Z.leb_le in Ht.
  destruct Hopen as (f & _ & Ev); [intros t' [= <-]; exact Ht|].
  exists share, token, f. split; [exact Et|]. split; [exact Ev|].
  destruct (revokeShare "u" (sh_ID share) w1) as [[[]|e|m|] w2] eqn:Er; try discriminate Hr.
  exact (Hrev w2 eq_refl).
Defined.
End Witnesses.
