(* ===== verification/Events.v ===== *)
(** * Real-time events (internal/server/events.go)

    The notifier, its subscribers and the goroutine that distributes events.  A
    subscriber is a shared object: the table holds a pointer to it, the event loop
    keeps pointers in a local slice after a subscriber has left the table.  The
    goroutines interleave at their lock operations, channel operations and tests
    of [closed]; a step of the relation is one of these, and the loop blocks the
    writers of the table while it filters (it holds the read lock).  What a step
    does that an outside observer can see is its label. *)

From S2P Require Import Prelude GoStrings.

Section Events.

(** The payload of an event: [interface{}]. *)
Context {P : Type}.

Record SSEEvent := mkEvent {
  e_Type : string; e_UserID : string; e_FolderID : string; e_FileID : string; e_Data : P; e_Timestamp : Z
}.

(** [FolderIDs] only ever maps to [true]; [Events] is a channel of 64. *)
Record EventSubscriber := mkSub {
  sub_ID : string; sub_UserID : string; sub_FolderIDs : gset string; sub_Events : list SSEEvent; sub_closed : bool
}.

Definition events_cap : nat := 64.
Definition eventChan_cap : nat := 256.

(** The event loop: waiting; filtering the subscribers (still to look at, chosen);
    about to test whether the next one is closed; about to send to it. *)
Inductive loop_state :=
  | Idle
  | Filtering (e : SSEEvent) (todo chosen : list nat)
  | Sending (e : SSEEvent) (todo : list nat)
  | Checked (e : SSEEvent) (p : nat) (todo : list nat)
  | Stopped
  | Crashed.

Record EventNotifier := mkNotifier {
  n_subscribers : gmap string nat; n_heap : list EventSubscriber; n_eventChan : list SSEEvent;
  n_stop : bool; n_loop : loop_state
}.

Definition NewEventNotifier : EventNotifier := mkNotifier ∅ [] [] false Idle.

Definition with_heap (h : list EventSubscriber) (n : EventNotifier) : EventNotifier :=
  mkNotifier (n_subscribers n) h (n_eventChan n) (n_stop n) (n_loop n).
Definition with_loop (l : loop_state) (n : EventNotifier) : EventNotifier :=
  mkNotifier (n_subscribers n) (n_heap n) (n_eventChan n) (n_stop n) l.
Definition with_chan (c : list SSEEvent) (n : EventNotifier) : EventNotifier :=
  mkNotifier (n_subscribers n) (n_heap n) c (n_stop n) (n_loop n).

(** ** Subscriptions *)

Definition Subscribe (id userID : string) (n : EventNotifier) : nat * EventNotifier :=
  let p := length (n_heap n) in
  (p, mkNotifier (<[id := p]> (n_subscribers n)) (n_heap n ++ [mkSub id userID ∅ [] false])
        (n_eventChan n) (n_stop n) (n_loop n)).

Definition close_sub (s : EventSubscriber) : EventSubscriber :=
  mkSub (sub_ID s) (sub_UserID s) (sub_FolderIDs s) (sub_Events s) true.
Definition set_folders (f : gset string) (s : EventSubscriber) : EventSubscriber :=
  mkSub (sub_ID s) (sub_UserID s) f (sub_Events s) (sub_closed s).
Definition set_queue (q : list SSEEvent) (s : EventSubscriber) : EventSubscriber :=
  mkSub (sub_ID s) (sub_UserID s) (sub_FolderIDs s) q (sub_closed s).

Definition Unsubscribe (subID : string) (n : EventNotifier) : EventNotifier :=
  match n_subscribers n !! subID with
  | None => n
  | Some p => mkNotifier (delete subID (n_subscribers n)) (alter close_sub p (n_heap n)) (n_eventChan n) (n_stop n) (n_loop n)
  end.

Definition SubscribeFolder (subID folderID : string) (n : EventNotifier) : EventNotifier :=
  match n_subscribers n !! subID with
  | None => n
  | Some p => with_heap (alter (fun s => set_folders ({[folderID]} ∪ sub_FolderIDs s) s) p (n_heap n)) n
  end.

Definition UnsubscribeFolder (subID folderID : string) (n : EventNotifier) : EventNotifier :=
  match n_subscribers n !! subID with
  | None => n
  | Some p => with_heap (alter (fun s => set_folders (sub_FolderIDs s ∖ {[folderID]}) s) p (n_heap n)) n
  end.

(** ** Notification: a send that never blocks *)

Definition stamp (now : Z) (e : SSEEvent) : SSEEvent :=
  if e_Timestamp e =? 0 then mkEvent (e_Type e) (e_UserID e) (e_FolderID e) (e_FileID e) (e_Data e) now else e.

Definition Notify (now : Z) (e : SSEEvent) (n : EventNotifier) : EventNotifier :=
  if (length (n_eventChan n) <? eventChan_cap)%nat then with_chan (n_eventChan n ++ [stamp now e]) n else n.

Definition NotifyUser (now : Z) (userID eventType : string) (data : P) : EventNotifier -> EventNotifier :=
  Notify now (mkEvent eventType userID "" "" data 0).

Definition NotifyFileChange (now : Z) (userID folderID fileID eventType : string) (data : P)
    : EventNotifier -> EventNotifier := Notify now (mkEvent eventType userID folderID fileID data 0).

(** ** The event loop *)

Definition wants (e : SSEEvent) (s : EventSubscriber) : bool :=
  bool_decide (sub_UserID s = e_UserID e) &&
  (bool_decide (e_FolderID e = ""%string) ||
   bool_decide (e_FolderID e ∈ sub_FolderIDs s) || bool_decide ("*"%string ∈ sub_FolderIDs s)).

(** [select { case sub.Events <- event: default: }]; a send on a closed channel panics. *)
Definition offer (e : SSEEvent) (s : EventSubscriber) : option EventSubscriber :=
  if sub_closed s then None
  else if (length (sub_Events s) <? events_cap)%nat then Some (set_queue (sub_Events s ++ [e]) s) else Some s.

(** The next statement of [processEvent] for the event at hand. *)
Definition loop_step (n : EventNotifier) : option EventNotifier :=
  match n_loop n with
  | Filtering e (p :: todo) chosen =>
      s ← n_heap n !! p;
      Some (with_loop (Filtering e todo (if wants e s then chosen ++ [p] else chosen)) n)
  | Filtering e [] chosen => Some (with_loop (Sending e chosen) n)
  | Sending e (p :: todo) =>
      s ← n_heap n !! p;
      Some (with_loop (if sub_closed s then Sending e todo else Checked e p todo) n)
  | Sending e [] => Some (with_loop Idle n)
  | Checked e p todo =>
      s ← n_heap n !! p;
      match offer e s with
      | None => Some (with_loop Crashed n)
      | Some s' => Some (with_loop (Sending e todo) (with_heap (<[p := s']> (n_heap n)) n))
      end
  | Idle | Stopped | Crashed => None
  end.

(** The loop takes an event and the table's subscribers in the order of the map. *)
Definition take_event (order : list nat) (n : EventNotifier) : option EventNotifier :=
  match n_loop n, n_eventChan n with
  | Idle, e :: rest => Some (with_loop (Filtering e order []) (with_chan rest n))
  | _, _ => None
  end.

(** The client takes an event from its channel. *)
Definition client_take (p : nat) (n : EventNotifier) : option (SSEEvent * EventNotifier) :=
  s ← n_heap n !! p;
  match sub_Events s with
  | e :: q => Some (e, with_heap (<[p := set_queue q s]> (n_heap n)) n)
  | [] => None
  end.

Definition Close (n : EventNotifier) : Res EventNotifier :=
  if n_stop n then Panic "close of closed channel"
  else Ok (mkNotifier (n_subscribers n) (n_heap n) (n_eventChan n) true (n_loop n)).

(** ** The handlers' frames *)

Definition newline : string := String "010"%char "".

Inductive sse_input := Tick | Event (e : SSEEvent) | Disconnected.

(** One round of the loop of [HandleSSE]: what is written, or the handler returns. *)
Definition sse_frame (marshal : SSEEvent -> string) (i : sse_input) : option string :=
  match i with
  | Disconnected => None
  | Tick => Some ("event: ping" +:+ newline +:+ "data: {}" +:+ newline +:+ newline)%string
  | Event e => Some ("event: " +:+ e_Type e +:+ newline +:+ "id: " +:+ pretty (e_Timestamp e) +:+ newline +:+
                     "data: " +:+ marshal e +:+ newline +:+ newline)%string
  end.

(** What [HandleSSE] and [HandleLongPoll] do before they wait. *)
Definition open_stream (id userID folderID : string) (n : EventNotifier) : Res nat * EventNotifier :=
  if bool_decide (userID = ""%string) then (Err (ErrHTTP 401 "Unauthorized"), n)
  else
    let '(p, n) := Subscribe id userID n in
    (Ok p, if bool_decide (folderID = ""%string) then n else SubscribeFolder id folderID n).

(** ** Interleavings *)

Inductive label :=
  | L_joined (id userID : string) | L_left (id : string)
  | L_followed (id folder : string) | L_unfollowed (id folder : string)
  | L_accepted (e : SSEEvent) | L_dropped (e : SSEEvent)
  | L_received (p : nat) (e : SSEEvent)
  | L_internal.

(** [n.mu] is free for a writer. *)
Definition unlocked (n : EventNotifier) : Prop := match n_loop n with Filtering _ _ _ => False | _ => True end.

Inductive step : EventNotifier -> label -> EventNotifier -> Prop :=
  | step_subscribe id u n : unlocked n -> step n (L_joined id u) (Subscribe id u n).2
  | step_unsubscribe id n : unlocked n -> step n (L_left id) (Unsubscribe id n)
  | step_follow id f n : step n (L_followed id f) (SubscribeFolder id f n)
  | step_unfollow id f n : step n (L_unfollowed id f) (UnsubscribeFolder id f n)
  | step_accept now e n : (length (n_eventChan n) < eventChan_cap)%nat -> step n (L_accepted (stamp now e)) (Notify now e n)
  | step_drop now e n : (eventChan_cap <= length (n_eventChan n))%nat -> step n (L_dropped (stamp now e)) (Notify now e n)
  | step_take order n n' : order ≡ₚ (map_to_list (n_subscribers n)).*2 -> take_event order n = Some n' -> step n L_internal n'
  | step_loop n n' : loop_step n = Some n' -> step n L_internal n'
  | step_client p e n n' : client_take p n = Some (e, n') -> step n (L_received p e) n'
  | step_close n n' : Close n = Ok n' -> step n L_internal n'
  | step_stop n : n_loop n = Idle -> n_stop n = true -> step n L_internal (with_loop Stopped n).

(** A scheduler: the step that an action names, when it is enabled. *)
Inductive action :=
  | A_join (id userID : string) | A_leave (id : string) | A_follow (id folder : string)
  | A_notify (now : Z) (e : SSEEvent) | A_take | A_loop | A_receive (p : nat).

Definition lock_free (n : EventNotifier) : bool := match n_loop n with Filtering _ _ _ => false | _ => true end.

Definition perform (a : action) (n : EventNotifier) : option (label * EventNotifier) :=
  match a with
  | A_join id u => if lock_free n then Some (L_joined id u, (Subscribe id u n).2) else None
  | A_leave id => if lock_free n then Some (L_left id, Unsubscribe id n) else None
  | A_follow id f => Some (L_followed id f, SubscribeFolder id f n)
  | A_notify now e =>
      Some (if (length (n_eventChan n) <? eventChan_cap)%nat then L_accepted (stamp now e) else L_dropped (stamp now e), Notify now e n)
  | A_take => n' ← take_event (map_to_list (n_subscribers n)).*2 n; Some (L_internal, n')
  | A_loop => n' ← loop_step n; Some (L_internal, n')
  | A_receive p => '(e, n') ← client_take p n; Some (L_received p e, n')
  end.

Fixpoint schedule (l : list action) (tr : list label) (n : EventNotifier) : option (list label * EventNotifier) :=
  match l with
  | [] => Some (tr, n)
  | a :: l => '(x, n') ← perform a n; schedule l (tr ++ [x]) n'
  end.

Inductive run : list label -> EventNotifier -> Prop :=
  | run_start : run [] NewEventNotifier
  | run_step tr n l n' : run tr n -> step n l n' -> run (tr ++ [l]) n'.

(** What the labels of a run say. *)
Definition accepted (tr : list label) : list SSEEvent := omap (fun l => match l with L_accepted e => Some e | _ => None end) tr.
Definition received (p : nat) (tr : list label) : list SSEEvent :=
  omap (fun l => match l with L_received q e => if bool_decide (p = q) then Some e else None | _ => None end) tr.
Definition followed (id : string) (tr : list label) : gset string :=
  list_to_set (omap (fun l => match l with L_followed i f => if bool_decide (i = id) then Some f else None | _ => None end) tr).

End Events.

Arguments SSEEvent : clear implicits.
Arguments EventSubscriber : clear implicits.
Arguments EventNotifier : clear implicits.
Arguments loop_state : clear implicits.
Arguments label : clear implicits.
Arguments sse_input : clear implicits.
Arguments action : clear implicits.

(** ** The invariant of a run *)

Section Proofs.
Context {P : Type}.
Implicit Types (n : EventNotifier P) (e : SSEEvent P) (s : EventSubscriber P).

(** The event at hand, and the subscribers it may still be sent to. *)
Definition current (l : loop_state P) : list (SSEEvent P) :=
  match l with Filtering e _ _ | Sending e _ | Checked e _ _ => [e] | _ => [] end.

Definition waiting (l : loop_state P) : list nat :=
  match l with
  | Filtering _ todo chosen => todo ++ chosen | Sending _ todo => todo | Checked _ p todo => p :: todo | _ => []
  end.

(** Those of them that the filter has let through. *)
Definition chosen_of (l : loop_state P) : list nat :=
  match l with
  | Filtering _ _ chosen => chosen | Sending _ todo => todo | Checked _ p todo => p :: todo | _ => []
  end.

(** What a subscriber may be sent: its user's events, and those of a folder only if
    it has asked for that folder or for all. *)
Definition entitled (tr : list (label P)) (s : EventSubscriber P) (e : SSEEvent P) : Prop :=
  e_UserID e = sub_UserID s /\
  (e_FolderID e = ""%string \/ e_FolderID e ∈ followed (sub_ID s) tr \/ "*"%string ∈ followed (sub_ID s) tr).

(** What has gone to subscriber [p]: taken by its client, or in its channel. *)
Definition sent (tr : list (label P)) (p : nat) (s : EventSubscriber P) : list (SSEEvent P) :=
  received p tr ++ sub_Events s.

Record subscriber_ok (tr : list (label P)) (past : list (SSEEvent P)) (l : loop_state P) (p : nat) (s : EventSubscriber P) : Prop := {
  so_order : sublist (sent tr p s) (past ++ if bool_decide (p ∈ waiting l) then [] else current l);
  so_entitled : Forall (entitled tr s) (sent tr p s);
  so_chosen : p ∈ chosen_of l -> Forall (entitled tr s) (current l);
  so_folders : sub_FolderIDs s ⊆ followed (sub_ID s) tr;
  so_cap : (length (sub_Events s) <= events_cap)%nat
}.

Record notifier_ok (tr : list (label P)) (n : EventNotifier P) : Prop := {
  no_past : exists past,
    accepted tr = past ++ current (n_loop n) ++ n_eventChan n /\
    forall p s, n_heap n !! p = Some s -> subscriber_ok tr past (n_loop n) p s;
  no_table : forall id p, n_subscribers n !! id = Some p -> exists s, n_heap n !! p = Some s /\ sub_ID s = id;
  no_waiting : NoDup (waiting (n_loop n)) /\ Forall (fun p => is_Some (n_heap n !! p)) (waiting (n_loop n));
  no_cap : (length (n_eventChan n) <= eventChan_cap)%nat;
  no_fresh : forall p, n_heap n !! p = None -> received p tr = []
}.

(** *** Reading labels *)

Lemma accepted_app tr tr' : accepted (tr ++ tr') = accepted tr ++ accepted (P := P) tr'.
Proof. apply omap_app. Qed.

Lemma received_app p tr tr' : received p (tr ++ tr') = received p tr ++ received (P := P) p tr'.
Proof. apply omap_app. Qed.

Lemma followed_app id tr tr' : followed id (tr ++ tr') = followed id tr ∪ followed (P := P) id tr'.
Proof. unfold followed. rewrite omap_app. apply list_to_set_app_L. Qed.

Lemma entitled_mono tr tr' s s' e : sub_ID s = sub_ID s' -> sub_UserID s = sub_UserID s' ->
  entitled tr s e -> entitled (tr ++ tr') s' e.
Proof. intros Hi Hu [H1 H2]. split; [congruence|]. rewrite followed_app, <-Hi. set_solver. Qed.

Lemma wants_entitled tr s e : sub_FolderIDs s ⊆ followed (sub_ID s) tr -> wants e s = true -> entitled tr s e.
Proof.
  intros Hf Hw. unfold wants in Hw. apply andb_true_iff in Hw as [Hu Hw]. apply bool_decide_eq_true in Hu.
  split; [done|]. rewrite !orb_true_iff, !bool_decide_eq_true in Hw. set_solver.
Qed.

Lemma chosen_waiting l p : p ∈ chosen_of l -> p ∈ waiting l.
Proof. destruct l; simpl; set_solver. Qed.

(** *** A step that leaves queues and the loop alone *)

(** A subscriber whose queue stays, and whose folders the labels account for. *)
Lemma subscriber_frame tr l past lp p s s' : received p [l] = [] ->
  sub_ID s' = sub_ID s -> sub_UserID s' = sub_UserID s -> sub_Events s' = sub_Events s ->
  sub_FolderIDs s' ⊆ sub_FolderIDs s ∪ followed (sub_ID s) [l] ->
  subscriber_ok tr past lp p s -> subscriber_ok (tr ++ [l]) past lp p s'.
Proof.
  intros Hr Hi Hu He Hf [H1 H2 H3 H4 H5].
  assert (sent (tr ++ [l]) p s' = sent tr p s) as Es by (unfold sent; by rewrite received_app, Hr, app_nil_r, He).
  split; rewrite ?Es; try done.
  - eapply Forall_impl; [done|]. intros e. by apply entitled_mono.
  - intros Hp. eapply Forall_impl; [by apply H3|]. intros e. by apply entitled_mono.
  - rewrite Hi, followed_app. set_solver.
  - by rewrite He.
Qed.

Lemma frame_alter tr l n g p0 table : notifier_ok tr n -> accepted [l] = [] -> (forall p, received p [l] = []) ->
  table ⊆ n_subscribers n ->
  (forall s, n_heap n !! p0 = Some s -> sub_ID (g s) = sub_ID s /\ sub_UserID (g s) = sub_UserID s /\ sub_Events (g s) = sub_Events s /\
     sub_FolderIDs (g s) ⊆ sub_FolderIDs s ∪ followed (sub_ID s) [l]) ->
  notifier_ok (tr ++ [l]) (mkNotifier table (alter g p0 (n_heap n)) (n_eventChan n) (n_stop n) (n_loop n)).
Proof.
  intros [(past & Hpast & Hsubs) Htab Hwait Hcap Hfresh] Ha Hr Ht Hg.
  assert (forall p s', alter g p0 (n_heap n) !! p = Some s' -> exists s, n_heap n !! p = Some s /\
            sub_ID s' = sub_ID s /\ sub_UserID s' = sub_UserID s /\ sub_Events s' = sub_Events s /\
            sub_FolderIDs s' ⊆ sub_FolderIDs s ∪ followed (sub_ID s) [l]) as Hlook.
  { intros p s' Hp. destruct (decide (p = p0)) as [->|Hne].
    - rewrite list_lookup_alter_eq in Hp. apply fmap_Some in Hp as (s & Hs & ->). exists s. naive_solver.
    - rewrite list_lookup_alter_ne in Hp by done. exists s'. set_solver. }
  split; simpl.
  - exists past. rewrite accepted_app, Ha, app_nil_r. split; [done|]. intros p s' Hp.
    destruct (Hlook p s' Hp) as (s & Hs & ? & ? & ? & ?). by eapply subscriber_frame; [..|by apply Hsubs].
  - intros id p Hp. destruct (Htab id p) as (s & Hs & Hid); [by eapply lookup_weaken|].
    destruct (decide (p = p0)) as [->|Hne].
    + exists (g s). rewrite list_lookup_alter_eq, Hs. split; [done|]. destruct (Hg s Hs) as [? _]. congruence.
    + exists s. by rewrite list_lookup_alter_ne.
  - destruct Hwait as [Hnd Hw]. split; [done|]. eapply Forall_impl; [done|]. intros p [s Hs].
    destruct (decide (p = p0)) as [->|Hne]; [by rewrite list_lookup_alter_eq, Hs; eexists|]. rewrite list_lookup_alter_ne by done. by exists s.
  - done.
  - intros p Hp. rewrite received_app, Hr, app_nil_r. apply Hfresh. destruct (decide (p = p0)) as [->|Hne].
    + rewrite list_lookup_alter_eq in Hp. by apply fmap_None in Hp.
    + by rewrite list_lookup_alter_ne in Hp.
Qed.

(** *** The steps *)

Lemma ok_start : notifier_ok [] (NewEventNotifier (P := P)).
Proof.
  split; simpl; [|done|by split; [constructor|]|unfold eventChan_cap; lia|done].
  exists []. split; [done|]. by intros p s Hp.
Qed.

Lemma ok_subscribe tr n id u : notifier_ok tr n -> notifier_ok (tr ++ [L_joined id u]) (Subscribe id u n).2.
Proof.
  intros [(past & Hpast & Hsubs) Htab [Hnd Hw] Hcap Hfresh]. set (p0 := length (n_heap n)).
  assert (n_heap n !! p0 = None) as Hp0 by (by apply lookup_ge_None).
  assert (forall p, is_Some (n_heap n !! p) -> (n_heap n ++ [mkSub id u ∅ [] false]) !! p = n_heap n !! p) as Hold.
  { intros p Hp. rewrite lookup_app_l; [done|]. by apply lookup_lt_is_Some. }
  assert (p0 ∉ waiting (n_loop n)) as Hnw.
  { intros Hin. eapply Forall_forall in Hw as [? Hs]; [|exact Hin]. congruence. }
  split; simpl.
  - exists past. rewrite accepted_app, app_nil_r. split; [done|]. intros p s Hp.
    apply lookup_app_Some in Hp as [Hp|[Hlen Hp]]; [by eapply subscriber_frame; [..|by apply Hsubs]; set_solver|].
    apply list_lookup_singleton_Some in Hp as [Hp <-]. assert (p = p0) as -> by (unfold p0; lia).
    assert (sent (tr ++ [L_joined id u]) p0 (mkSub id u ∅ [] false) = []) as Es.
    { unfold sent. by rewrite received_app, Hfresh. }
    split; rewrite ?Es; simpl; [apply sublist_nil_l|done| |set_solver|unfold events_cap; lia].
    intros Hin. by apply chosen_waiting in Hin.
  - intros id' p Hp. destruct (decide (id' = id)) as [->|Hne].
    + rewrite lookup_insert_eq in Hp. simplify_eq. exists (mkSub id u ∅ [] false). by rewrite lookup_snoc.
    + rewrite lookup_insert_ne in Hp by done. destruct (Htab id' p Hp) as (s & Hs & ?). exists s. rewrite Hold by eauto. done.
  - split; [done|]. eapply Forall_impl; [done|]. intros p Hp. by rewrite Hold.
  - done.
  - intros p Hp. rewrite received_app, app_nil_r. apply Hfresh. apply lookup_ge_None in Hp. rewrite length_app in Hp. apply lookup_ge_None. lia.
Qed.

Lemma ok_accept tr n now e : (length (n_eventChan n) < eventChan_cap)%nat -> notifier_ok tr n ->
  notifier_ok (tr ++ [L_accepted (stamp now e)]) (Notify now e n).
Proof.
  intros Hlt [(past & Hpast & Hsubs) Htab Hwait Hcap Hfresh]. unfold Notify.
  rewrite (proj2 (Nat.ltb_lt _ _) Hlt). split; simpl; try done.
  - exists past. rewrite accepted_app, Hpast, <-!app_assoc. split; [done|]. intros p s Hp.
    eapply subscriber_frame; [..|by apply Hsubs]; set_solver.
  - rewrite length_app. simpl. lia.
  - intros p Hp. rewrite received_app, app_nil_r. by apply Hfresh.
Qed.

Lemma ok_quiet tr l n : notifier_ok tr n -> accepted [l] = [] -> (forall p, received p [l] = []) -> notifier_ok (tr ++ [l]) n.
Proof.
  intros [(past & Hpast & Hsubs) Htab Hwait Hcap Hfresh] Ha Hr. split; try done.
  - exists past. rewrite accepted_app, Ha, app_nil_r. split; [done|]. intros p s Hp.
    eapply subscriber_frame; [..|by apply Hsubs]; set_solver.
  - intros p Hp. rewrite received_app, Hr, app_nil_r. by apply Hfresh.
Qed.

Lemma ok_client tr n n' p0 e : client_take p0 n = Some (e, n') -> notifier_ok tr n -> notifier_ok (tr ++ [L_received p0 e]) n'.
Proof.
  intros Htake [(past & Hpast & Hsubs) Htab Hwait Hcap Hfresh]. unfold client_take in Htake.
  destruct (n_heap n !! p0) as [s0|] eqn:Hs0; [|done]. simpl in Htake.
  destruct (sub_Events s0) as [|e0 q] eqn:Hq; [done|]. simplify_eq.
  assert (forall p s, <[p0:=set_queue q s0]> (n_heap n) !! p = Some s -> p <> p0 -> n_heap n !! p = Some s) as Hother.
  { intros p s Hp Hne. by rewrite list_lookup_insert_ne in Hp. }
  split; simpl; try done.
  - exists past. rewrite accepted_app, app_nil_r. split; [done|]. intros p s Hp. destruct (decide (p = p0)) as [->|Hne].
    + rewrite list_lookup_insert_eq in Hp by (by eapply lookup_lt_Some). simplify_eq.
      destruct (Hsubs p0 s0 Hs0) as [H1 H2 H3 H4 H5].
      assert (sent (tr ++ [L_received p0 e]) p0 (set_queue q s0) = sent tr p0 s0) as Es.
      { unfold sent. rewrite received_app, Hq, <-app_assoc. simpl. by rewrite bool_decide_true. }
      rewrite Hq in H5. split; rewrite ?Es; simpl in *; try done.
      * eapply Forall_impl; [done|]. intros x. by apply entitled_mono.
      * intros Hin. eapply Forall_impl; [by apply H3|]. intros x. by apply entitled_mono.
      * rewrite followed_app. set_solver.
      * lia.
    + eapply subscriber_frame; [..|by apply Hsubs, Hother]; try done; [simpl; by rewrite bool_decide_false|set_solver].
  - intros id p Hp. destruct (Htab id p Hp) as (s & Hs & Hid). destruct (decide (p = p0)) as [->|Hne].
    + exists (set_queue q s0). rewrite list_lookup_insert_eq by (by eapply lookup_lt_Some). split; [done|]. simpl. congruence.
    + exists s. by rewrite list_lookup_insert_ne.
  - destruct Hwait as [Hnd Hw]. split; [done|]. eapply Forall_impl; [done|]. intros p Hp.
    apply lookup_lt_is_Some. rewrite length_insert. by apply lookup_lt_is_Some.
  - intros p Hp. assert (p <> p0) by (intros ->; apply lookup_ge_None in Hp; rewrite length_insert in Hp; apply lookup_lt_Some in Hs0; lia).
    rewrite list_lookup_insert_ne in Hp by done. rewrite received_app, Hfresh by done. simpl. by rewrite bool_decide_false.
Qed.

Lemma so_weaken tr past l p s : subscriber_ok tr past l p s -> sublist (sent tr p s) (past ++ current l).
Proof.
  intros [H1 _ _ _ _]. case_bool_decide; [|done]. etrans; [done|]. rewrite app_nil_r. apply sublist_inserts_r. done.
Qed.

(** The loop moves on with the event at hand. *)
Lemma ok_loop tr n l' : notifier_ok tr n -> current l' = current (n_loop n) ->
  NoDup (waiting l') -> waiting l' ⊆ waiting (n_loop n) ->
  (forall p s, n_heap n !! p = Some s -> p ∈ chosen_of l' -> p ∈ chosen_of (n_loop n) \/ Forall (fun e => wants e s = true) (current l')) ->
  notifier_ok (tr ++ [L_internal]) (with_loop l' n).
Proof.
  intros Hok Hcur Hnd Hsub Hch. apply (ok_quiet _ L_internal) in Hok; [|done..].
  destruct Hok as [(past & Hpast & Hsubs) Htab [_ Hw] Hcap Hfresh]. split; simpl; try done.
  - exists past. rewrite Hcur. split; [done|]. intros p s Hp. pose proof (Hsubs p s Hp) as Hs.
    pose proof (so_weaken _ _ _ _ _ Hs) as Hweak. destruct Hs as [H1 H2 H3 H4 H5]. split; try done; rewrite ?Hcur; try done.
    + destruct (bool_decide_reflect (p ∈ waiting l')) as [Hin|Hin]; [|done]. rewrite bool_decide_true in H1 by (by apply Hsub). done.
    + intros Hp'. destruct (Hch p s Hp Hp') as [Hold|Hwants]; [by apply H3|]. rewrite Hcur in Hwants.
      eapply Forall_impl; [done|]. intros e. by apply wants_entitled.
  - split; [done|]. apply Forall_forall. intros p Hp. eapply Forall_forall in Hw; [done|]. by apply Hsub.
Qed.

(** The loop is done with the event at hand. *)
Lemma ok_done tr n l' : notifier_ok tr n -> current l' = [] -> waiting l' = [] -> notifier_ok (tr ++ [L_internal]) (with_loop l' n).
Proof.
  intros Hok Hcur Hwt. apply (ok_quiet _ L_internal) in Hok; [|done..].
  destruct Hok as [(past & Hpast & Hsubs) Htab _ Hcap Hfresh]. split; simpl; try done.
  - exists (past ++ current (n_loop n)). rewrite Hcur, <-app_assoc. split; [done|]. intros p s Hp.
    pose proof (Hsubs p s Hp) as Hs. pose proof (so_weaken _ _ _ _ _ Hs) as Hweak. destruct Hs as [H1 H2 H3 H4 H5].
    split; try done; rewrite ?Hcur, ?Hwt; [by rewrite bool_decide_false, app_nil_r by set_solver|by constructor].
  - rewrite Hwt. split; constructor.
Qed.

Lemma pointers_distinct tr n : notifier_ok tr n -> NoDup ((map_to_list (n_subscribers n)).*2).
Proof.
  intros Hok. assert (forall l, (forall i p, (i, p) ∈ l -> n_subscribers n !! i = Some p) -> NoDup l -> NoDup l.*2) as Hgen.
  { induction l as [|[i p] l IH]; intros Hl Hnd; [constructor|]. apply NoDup_cons in Hnd as [Hni Hnd]. simpl. apply NoDup_cons.
    split; [|apply IH; [|done]; intros; apply Hl; by right]. intros Hin. apply list_elem_of_fmap in Hin as ([j q] & Hq & Hj). simpl in Hq. subst q.
    destruct (no_table _ _ Hok i p) as (s & Hs & Hi); [apply Hl; by left|].
    destruct (no_table _ _ Hok j p) as (s' & Hs' & Hj'); [apply Hl; by right|]. simplify_eq. done. }
  apply Hgen; [|apply NoDup_map_to_list]. intros i p Hp. by apply elem_of_map_to_list.
Qed.

Lemma ok_take tr n n' order : order ≡ₚ (map_to_list (n_subscribers n)).*2 -> take_event order n = Some n' ->
  notifier_ok tr n -> notifier_ok (tr ++ [L_internal]) n'.
Proof.
  intros Ho Htake Hok. pose proof (pointers_distinct _ _ Hok) as Hnd. unfold take_event in Htake.
  destruct (n_loop n) eqn:Hl; try done. destruct (n_eventChan n) as [|e rest] eqn:Hc; [done|]. simplify_eq.
  assert (forall p, p ∈ order -> is_Some (n_heap n !! p)) as Hin.
  { intros p Hp. rewrite Ho in Hp. apply list_elem_of_fmap in Hp as ([id q] & -> & Hp). apply elem_of_map_to_list in Hp.
    destruct (no_table _ _ Hok id q Hp) as (s & Hs & _). eauto. }
  apply (ok_quiet _ L_internal) in Hok; [|done..]. destruct Hok as [(past & Hpast & Hsubs) Htab _ Hcap Hfresh].
  rewrite Hl, Hc in *. split; simpl; try done.
  - exists past. split; [done|]. intros p s Hp. pose proof (Hsubs p s Hp) as Hs. pose proof (so_weaken _ _ _ _ _ Hs) as Hweak.
    destruct Hs as [H1 H2 H3 H4 H5]. simpl in *. rewrite app_nil_r in *. split; try done; simpl; [|set_solver].
    case_bool_decide; [by rewrite app_nil_r|]. by apply sublist_inserts_r.
  - rewrite app_nil_r. split; [by rewrite Ho|]. by apply Forall_forall.
  - simpl in Hcap. lia.
Qed.

(** The loop sends to a subscriber that is open. *)
Lemma ok_send tr n e p todo s s' : n_loop n = Checked e p todo -> n_heap n !! p = Some s -> offer e s = Some s' ->
  notifier_ok tr n -> notifier_ok (tr ++ [L_internal]) (with_loop (Sending e todo) (with_heap (<[p := s']> (n_heap n)) n)).
Proof.
  intros Hl Hp Hoff Hok. apply (ok_quiet _ L_internal) in Hok; [|done..].
  destruct Hok as [(past & Hpast & Hsubs) Htab [Hnd Hw] Hcap Hfresh]. rewrite Hl in *. simpl in *.
  apply NoDup_cons in Hnd as [Hnp Hnd]. unfold offer in Hoff. destruct (sub_closed s) eqn:Hc; [done|].
  assert (sub_ID s' = sub_ID s /\ sub_UserID s' = sub_UserID s /\ sub_FolderIDs s' = sub_FolderIDs s) as (Hi & Hu & Hf) by (case_match; by simplify_eq).
  pose proof (lookup_lt_Some _ _ _ Hp) as Hlt.
  split; simpl; try done.
  - exists past. split; [done|]. intros q t Hq. destruct (decide (q = p)) as [->|Hne].
    + rewrite list_lookup_insert_eq in Hq by done. simplify_eq. destruct (Hsubs p s Hp) as [H1 H2 H3 H4 H5].
      simpl in *. rewrite bool_decide_true, app_nil_r in H1 by set_solver. specialize (H3 ltac:(set_solver)).
      assert (forall evs, Forall (entitled (tr ++ [L_internal]) s) evs -> Forall (entitled (tr ++ [L_internal]) t) evs) as Hent.
      { intros evs Hevs. eapply Forall_impl; [exact Hevs|]. intros x [E1 E2]. split; [congruence|]. by rewrite Hi. }
      destruct (Nat.ltb_spec (length (sub_Events s)) events_cap) as [Hroom|Hfull]; simplify_eq.
      * assert (sent (tr ++ [L_internal]) p (set_queue (sub_Events s ++ [e]) s) = sent (tr ++ [L_internal]) p s ++ [e]) as Es
          by (unfold sent; simpl; by rewrite app_assoc).
        split; rewrite ?Es; simpl; try done; [rewrite bool_decide_false by done; by apply sublist_app|apply Forall_app; auto|rewrite length_app; simpl; lia].
      * split; simpl; try done; rewrite bool_decide_false by done; by apply sublist_inserts_r.
    + rewrite list_lookup_insert_ne in Hq by done. destruct (Hsubs q t Hq) as [H1 H2 H3 H4 H5]. simpl in *. split; try done; simpl.
      * assert (q ∈ p :: todo <-> q ∈ todo) as Hiff by set_solver. by rewrite (bool_decide_ext _ _ Hiff) in H1.
      * intros Hin. apply H3. by right.
  - intros id q Hq. destruct (Htab id q Hq) as (t & Ht & Hid). destruct (decide (q = p)) as [->|Hne].
    + exists s'. rewrite list_lookup_insert_eq by done. split; [done|congruence].
    + exists t. by rewrite list_lookup_insert_ne.
  - split; [done|]. apply Forall_cons in Hw as [_ Hw]. eapply Forall_impl; [done|]. intros q Hq.
    apply lookup_lt_is_Some. rewrite length_insert. by apply lookup_lt_is_Some.
  - intros q Hq. apply Hfresh. apply lookup_ge_None. apply lookup_ge_None in Hq. by rewrite length_insert in Hq.
Qed.

Lemma ok_loop_step tr n n' : loop_step n = Some n' -> notifier_ok tr n -> notifier_ok (tr ++ [L_internal]) n'.
Proof.
  intros Hs Hok. unfold loop_step in Hs. pose proof (no_waiting _ _ Hok) as [Hnd _].
  destruct (n_loop n) as [|e [|p todo] chosen|e [|p todo]|e p todo| |] eqn:Hl; try done; simpl in Hs, Hnd.
  - simplify_eq. apply ok_loop; rewrite ?Hl; try done; simpl. intros p s _ Hin. by left.
  - destruct (n_heap n !! p) as [s|] eqn:Hp; [|done]. simpl in Hs. simplify_eq. apply NoDup_cons in Hnd as [Hnp Hnd].
    apply ok_loop; rewrite ?Hl; try done; simpl.
    + destruct (wants e s); [|done]. rewrite app_assoc. apply NoDup_app. split; [done|]. split; [set_solver|apply NoDup_singleton].
    + destruct (wants e s); set_solver.
    + intros q t Hq Hin. destruct (wants e s) eqn:Hw; [|by left]. apply elem_of_app in Hin as [Hin|Hin]; [by left|right].
      apply list_elem_of_singleton in Hin as ->. simplify_eq. by repeat constructor.
  - simplify_eq. by apply ok_done.
  - destruct (n_heap n !! p) as [s|] eqn:Hp; [|done]. simpl in Hs. simplify_eq. apply NoDup_cons in Hnd as [Hnp Hnd].
    destruct (sub_closed s).
    + apply ok_loop; rewrite ?Hl; try done; simpl; [set_solver|]. intros q t _ Hin. left. by right.
    + apply ok_loop; rewrite ?Hl; try done; simpl; [by apply NoDup_cons|]. intros q t _ Hin. by left.
  - destruct (n_heap n !! p) as [s|] eqn:Hp; [|done]. simpl in Hs. destruct (offer e s) as [s'|] eqn:Hoff; simplify_eq.
    + by eapply ok_send.
    + by apply ok_done.
Qed.

Lemma run_ok tr n : run tr n -> notifier_ok tr n.
Proof.
  induction 1 as [|tr n l n' _ IH Hs]; [apply ok_start|]. destruct Hs as [id u n _|id n _|id f n|id f n|now e n Hlt|now e n Hle|order n n' Ho Ht|n n' Hl|p e n n' Hc|n n' Hc|n Hi Hst].
  - by apply ok_subscribe.
  - unfold Unsubscribe. destruct (n_subscribers n !! id) as [p|]; [|by apply ok_quiet].
    apply frame_alter; try done; [apply delete_subseteq|]. intros s _. simpl. set_solver.
  - unfold SubscribeFolder. destruct (n_subscribers n !! id) as [p|] eqn:Hp; [|by apply ok_quiet].
    apply (frame_alter _ _ _ _ _ (n_subscribers n)); try done. intros s Hs. repeat split.
    destruct (no_table _ _ IH _ _ Hp) as (s' & Hs' & Hid). simplify_eq. unfold followed. simpl. rewrite bool_decide_true by done. set_solver.
  - unfold UnsubscribeFolder. destruct (n_subscribers n !! id) as [p|]; [|by apply ok_quiet].
    apply (frame_alter _ _ _ _ _ (n_subscribers n)); try done. intros s _. simpl. set_solver.
  - by apply ok_accept.
  - unfold Notify. rewrite (proj2 (Nat.ltb_ge _ _) Hle). by apply ok_quiet.
  - by eapply ok_take.
  - by eapply ok_loop_step.
  - by eapply ok_client.
  - unfold Close in Hc. destruct (n_stop n); [done|]. simplify_eq.
    apply (ok_quiet _ L_internal) in IH; [|done..]. by destruct IH.
  - by apply ok_done.
Qed.

(** *** Closed subscribers *)

Definition left (tr : list (label P)) : Prop := exists id, L_left id ∈ tr.

(** Subscribers are closed only by leaving, and the loop crashes only on a closed one. *)
Definition closed_only_left (tr : list (label P)) (n : EventNotifier P) : Prop :=
  left tr \/ ((forall p s, n_heap n !! p = Some s -> sub_closed s = false) /\ n_loop n <> Crashed).

Lemma alter_open (g : EventSubscriber P -> EventSubscriber P) p0 (h : list (EventSubscriber P)) :
  (forall s, sub_closed (g s) = sub_closed s) -> (forall p s, h !! p = Some s -> sub_closed s = false) ->
  forall p s, alter g p0 h !! p = Some s -> sub_closed s = false.
Proof.
  intros Hg Hh p s Hp. destruct (decide (p = p0)) as [->|Hne].
  - rewrite list_lookup_alter_eq in Hp. apply fmap_Some in Hp as (s0 & Hs0 & ->). rewrite Hg. by eapply Hh.
  - rewrite list_lookup_alter_ne in Hp by done. by eapply Hh.
Qed.

Lemma insert_open p0 s0 (h : list (EventSubscriber P)) : sub_closed s0 = false -> (forall p s, h !! p = Some s -> sub_closed s = false) ->
  forall p s, <[p0 := s0]> h !! p = Some s -> sub_closed s = false.
Proof. intros H0 Hh p s Hp. apply list_lookup_insert_Some in Hp as [(_ & -> & _)|[_ Hp]]; [done|]. by eapply Hh. Qed.

Lemma loop_step_open n n' : (forall p s, n_heap n !! p = Some s -> sub_closed s = false) -> loop_step n = Some n' ->
  (forall p s, n_heap n' !! p = Some s -> sub_closed s = false) /\ n_loop n' <> Crashed.
Proof.
  intros Hh Hs. unfold loop_step in Hs.
  destruct (n_loop n) as [|e [|p todo] chosen|e [|p todo]|e p todo| |]; try done; try (simplify_eq; done);
    destruct (n_heap n !! p) as [s|] eqn:Hp; try done; simpl in Hs; [by simplify_eq|simplify_eq; by case_match|].
  pose proof (Hh p s Hp) as Hc. unfold offer in Hs. rewrite Hc in Hs.
  destruct (_ <? _)%nat; simplify_eq; (split; [by apply insert_open|done]).
Qed.

Lemma run_open tr n : run tr n -> closed_only_left tr n.
Proof.
  induction 1 as [|tr n l n' _ IH Hs]; [by right|].
  destruct IH as [[id Hid]|[Hh Hl]]; [left; exists id; set_solver|].
  destruct Hs as [id u n _|id n _|id f n|id f n|now e n _|now e n _|order n n' _ Ht|n n' Hs|p e n n' Hc|n n' Hc|n _ _];
    try (right; split; [|done]; done).
  - right. split; [|done]. intros p s Hp. simpl in Hp. apply lookup_app_Some in Hp as [Hp|[_ Hp]]; [by eapply Hh|].
    by apply list_lookup_singleton_Some in Hp as [_ <-].
  - left. exists id. set_solver.
  - right. unfold SubscribeFolder. destruct (_ !! _); [|done]. split; [|done]. by apply alter_open.
  - right. unfold UnsubscribeFolder. destruct (_ !! _); [|done]. split; [|done]. by apply alter_open.
  - right. unfold Notify. by destruct (_ <? _)%nat.
  - right. unfold Notify. by destruct (_ <? _)%nat.
  - right. unfold take_event in Ht. by repeat case_match; simplify_eq.
  - right. by eapply loop_step_open.
  - right. unfold client_take in Hc. destruct (n_heap n !! p) as [s|] eqn:Hp; [|done]. simpl in Hc.
    destruct (sub_Events s); [done|]. simplify_eq. split; [|done]. apply insert_open; [|done]. exact (Hh p s Hp).
  - right. unfold Close in Hc. by destruct (n_stop n); simplify_eq.
Qed.

(** *** One event, undisturbed *)

(** [k] statements of the event loop. *)
Definition loop_steps (k : nat) (n : EventNotifier P) : option (EventNotifier P) := Nat.iter k (fun o => o ≫= loop_step) (Some n).

Lemma loop_steps_S k n n1 : loop_step n = Some n1 -> loop_steps (S k) n = loop_steps k n1.
Proof. intros H. unfold loop_steps. rewrite Nat.iter_succ_r. simpl. by rewrite H. Qed.

Lemma loop_steps_add k k' n n1 : loop_steps k n = Some n1 -> loop_steps (k' + k) n = loop_steps k' n1.
Proof. intros H. unfold loop_steps in *. by rewrite Nat.iter_add, H. Qed.

(** What one event does to a subscriber in the table. *)
Definition deliver (e : SSEEvent P) (s : EventSubscriber P) : EventSubscriber P :=
  if wants e s && negb (sub_closed s) && (length (sub_Events s) <? events_cap)%nat then set_queue (sub_Events s ++ [e]) s else s.

Definition wanted_by (e : SSEEvent P) (h : list (EventSubscriber P)) (p : nat) : Prop := (wants e <$> h !! p) = Some true.

#[local] Instance wanted_by_dec e h p : Decision (wanted_by e h p).
Proof. unfold wanted_by. apply _. Defined.

Lemma filter_steps e todo : forall chosen n, n_loop n = Filtering e todo chosen -> Forall (fun p => is_Some (n_heap n !! p)) todo ->
  exists k, loop_steps k n = Some (with_loop (Sending e (chosen ++ filter (wanted_by e (n_heap n)) todo)) n).
Proof.
  induction todo as [|p todo IH]; intros chosen n Hl Hw.
  - exists 1%nat. unfold loop_steps. simpl. unfold loop_step. rewrite Hl. by rewrite app_nil_r.
  - apply Forall_cons in Hw as [[s Hs] Hw]. set (n1 := with_loop (Filtering e todo (if wants e s then chosen ++ [p] else chosen)) n).
    destruct (IH _ n1 eq_refl Hw) as [k Hk]. exists (S k). rewrite (loop_steps_S _ _ n1) by (unfold loop_step; by rewrite Hl; simpl; rewrite Hs).
    rewrite Hk. unfold n1. simpl. unfold with_loop. simpl. do 3 f_equal. rewrite filter_cons.
    assert (wanted_by e (n_heap n) p <-> wants e s = true) as Hws by (unfold wanted_by; rewrite Hs; simpl; split; congruence).
    destruct (wants e s); [rewrite decide_True by (by apply Hws); by rewrite <-app_assoc|by rewrite decide_False by (by rewrite Hws)].
Qed.

Lemma send_steps e todo : forall n, n_loop n = Sending e todo -> NoDup todo -> Forall (wanted_by e (n_heap n)) todo ->
  exists k n', loop_steps k n = Some n' /\ n_loop n' = Idle /\ n_subscribers n' = n_subscribers n /\ n_eventChan n' = n_eventChan n /\
    forall p, n_heap n' !! p = if bool_decide (p ∈ todo) then deliver e <$> n_heap n !! p else n_heap n !! p.
Proof.
  induction todo as [|p todo IH]; intros n Hl Hnd Hw.
  - exists 1%nat, (with_loop Idle n). unfold loop_steps. simpl. unfold loop_step. rewrite Hl. done.
  - apply NoDup_cons in Hnd as [Hnp Hnd]. apply Forall_cons in Hw as [Hwp Hw]. unfold wanted_by in Hwp.
    destruct (n_heap n !! p) as [s|] eqn:Hs; [|done]. simpl in Hwp. injection Hwp as Hws.
    assert (exists k n1, loop_steps k n = Some n1 /\ n_loop n1 = Sending e todo /\ n_subscribers n1 = n_subscribers n /\
              n_eventChan n1 = n_eventChan n /\ n_heap n1 = <[p := deliver e s]> (n_heap n)) as (k & n1 & Hk & Hl1 & Ht & Hc & Hh).
    { unfold deliver. rewrite Hws. destruct (sub_closed s) eqn:Hc; simpl.
      - exists 1%nat, (with_loop (Sending e todo) n). unfold loop_steps. simpl. unfold loop_step. rewrite Hl, Hs. simpl. rewrite Hc.
        split_and!; try done. simpl. by rewrite list_insert_id.
      - exists 2%nat. unfold loop_steps. simpl. unfold loop_step at 2. rewrite Hl, Hs. simpl. rewrite Hc. unfold loop_step, offer. simpl.
        rewrite Hs. simpl. rewrite Hc. destruct (_ <? _)%nat; eexists; split_and!; done. }
    assert (forall q, q ∈ todo -> n_heap n1 !! q = n_heap n !! q) as Hold.
    { intros q Hq. rewrite Hh, list_lookup_insert_ne; [done|]. by intros ->. }
    destruct (IH n1 Hl1 Hnd) as (k' & n2 & Hk' & Hi & Ht2 & Hc2 & Hh2).
    { apply Forall_forall. intros q Hq. unfold wanted_by. rewrite Hold by done. by eapply Forall_forall in Hw. }
    exists (k' + k)%nat, n2. rewrite (loop_steps_add _ _ _ _ Hk). split_and!; [done..|congruence|congruence|]. intros q. rewrite Hh2, Hh.
    destruct (decide (q = p)) as [->|Hne].
    + rewrite bool_decide_false, bool_decide_true by (done || set_solver). rewrite list_lookup_insert_eq by (by eapply lookup_lt_Some). by rewrite Hs.
    + rewrite list_lookup_insert_ne by done. assert (q ∈ todo <-> q ∈ p :: todo) as Hiff by set_solver. by rewrite (bool_decide_ext _ _ Hiff).
Qed.
End Proofs.

(** ** Properties *)

Lemma perform_step {P} a (n : EventNotifier P) l n' : perform a n = Some (l, n') -> step n l n'.
Proof.
  assert (lock_free n = true -> unlocked n) as Hfree by (unfold lock_free, unlocked; by destruct (n_loop n)).
  destruct a; cbn [perform]; intros Hp.
  - destruct (lock_free n); simplify_eq. apply step_subscribe. by apply Hfree.
  - destruct (lock_free n); simplify_eq. apply step_unsubscribe. by apply Hfree.
  - simplify_eq. apply step_follow.
  - destruct (Nat.ltb_spec (length (n_eventChan n)) eventChan_cap); simplify_eq; [by apply step_accept|by apply step_drop].
  - destruct (take_event _ n) eqn:Ht; simpl in Hp; simplify_eq. by eapply step_take.
  - destruct (loop_step n) eqn:Ht; simpl in Hp; simplify_eq. by apply step_loop.
  - destruct (client_take p n) as [[e n1]|] eqn:Ht; simpl in Hp; simplify_eq. by apply step_client.
Qed.

Lemma schedule_run {P} l : forall tr (n : EventNotifier P) tr' n', run tr n -> schedule l tr n = Some (tr', n') -> run tr' n'.
Proof.
  induction l as [|a l IH]; intros tr n tr' n' Hr Hs; simpl in Hs; [by simplify_eq|].
  destruct (perform a n) as [[x n1]|] eqn:Hp; [|done]. simpl in Hs. eapply IH; [|done]. eapply run_step; [done|]. by eapply perform_step.
Qed.

(** An event of a user in a folder. *)
Definition ev (u f : string) (t : Z) : SSEEvent unit := mkEvent "file:created" u f "x" tt t.

(** [C35] Whatever the goroutines do and in whichever order, what a subscriber is
    sent is a subsequence of the accepted events (none twice, none out of order,
    none made up), all of it its own user's, an event of a folder only if the
    subscriber has asked for that folder or for all of them; and no queue grows
    beyond its capacity. *)
Theorem events_reach_their_audience {P} (tr : list (label P)) n : run tr n ->
  (length (n_eventChan n) <= 256)%nat /\
  forall p s, n_heap n !! p = Some s ->
    sublist (received p tr ++ sub_Events s) (accepted tr) /\
    Forall (entitled tr s) (received p tr ++ sub_Events s) /\
    (length (sub_Events s) <= 64)%nat.
Proof.
  intros Hr. destruct (run_ok tr n Hr) as [(past & Hpast & Hsubs) _ _ Hcap _]. split; [done|]. intros p s Hp.
  pose proof (Hsubs p s Hp) as Hs. pose proof (so_weaken _ _ _ _ _ Hs) as Hweak. destruct Hs as [_ H2 _ _ H5].
  split_and!; try done. rewrite Hpast. etrans; [done|]. rewrite app_assoc. by apply sublist_inserts_r.
Qed.


(** [Fact] The goroutine that distributes the events crashes the server exactly when it
    is about to send to a subscriber that leaves in between: such a run exists, and
    as long as no subscriber leaves the loop never crashes. *)
Theorem event_loop_crash_race :
  (exists tr n, run (P := unit) tr n /\ n_loop n = Crashed) /\
  (forall P (tr : list (label P)) n, run tr n -> n_loop n = Crashed -> exists id, L_left id ∈ tr) /\
  (forall P e p todo (n : EventNotifier P) n', n_loop n = Checked e p todo -> loop_step n = Some n' -> n_loop n' = Crashed ->
     exists s, n_heap n !! p = Some s /\ sub_closed s = true).
Proof.
  split_and!.
  - destruct (schedule [A_join "s" "u"; A_notify 1 (ev "u" "" 1); A_take; A_loop; A_loop; A_loop; A_leave "s"; A_loop] [] NewEventNotifier)
      as [[tr n]|] eqn:E; [|by vm_compute in E].
    exists tr, n. split; [by eapply schedule_run; [apply run_start|]|]. vm_compute in E. by simplify_eq.
  - intros P tr n Hr Hc. destruct (run_open tr n Hr) as [Hl|[_ Hn]]; [done|]. by destruct Hn.
  - intros P e p todo n n' Hl Hs Hc. unfold loop_step in Hs. rewrite Hl in Hs. destruct (n_heap n !! p) as [s|] eqn:Hp; [|done].
    simpl in Hs. unfold offer in Hs. exists s. split; [done|]. destruct (sub_closed s); [done|]. by destruct (_ <? _)%nat; simplify_eq.
Qed.

(** [Fact] An event that the loop takes when no other goroutine runs is appended to the
    channel of exactly those subscribers in the table that want it, are open and have
    room, and the loop returns to waiting. *)
Theorem processEvent_delivers {P} (tr : list (label P)) n n1 order : run tr n ->
  order ≡ₚ (map_to_list (n_subscribers n)).*2 -> take_event order n = Some n1 ->
  exists e rest k n2, n_eventChan n = e :: rest /\ loop_steps k n1 = Some n2 /\ n_loop n2 = Idle /\ n_eventChan n2 = rest /\
    n_subscribers n2 = n_subscribers n /\
    forall p, n_heap n2 !! p = if bool_decide (p ∈ order) then deliver e <$> n_heap n !! p else n_heap n !! p.
Proof.
  intros Hr Ho Ht. pose proof (run_ok tr n Hr) as Hok. pose proof (ok_take _ _ _ _ Ho Ht Hok) as Hok1.
  unfold take_event in Ht. destruct (n_loop n); try done. destruct (n_eventChan n) as [|e rest] eqn:Hc; [done|]. simplify_eq.
  destruct (no_waiting _ _ Hok1) as [Hnd Hw]. simpl in Hnd, Hw. rewrite app_nil_r in Hnd, Hw.
  set (n0 := with_loop (Filtering e order []) (with_chan rest n)) in *.
  destruct (filter_steps e order [] n0 eq_refl Hw) as [k Hk].
  set (n3 := with_loop (Sending e ([] ++ filter (wanted_by e (n_heap n0)) order)) n0) in *.
  destruct (send_steps e (filter (wanted_by e (n_heap n)) order) n3 eq_refl) as (k' & n2 & Hk' & Hi & Hs & Hch & Hh);
    [by apply NoDup_filter|apply Forall_forall; intros p Hp; by apply list_elem_of_filter in Hp as [Hp _]|].
  exists e, rest, (k' + k)%nat, n2. rewrite (loop_steps_add _ _ _ _ Hk). simpl in *. split_and!; try done. intros p. rewrite Hh.
  destruct (decide (p ∈ order)) as [Hin|Hin].
  - rewrite (bool_decide_true (p ∈ order)) by done. case_bool_decide as Hf; [done|].
    destruct (n_heap n !! p) as [s|] eqn:Hp; [|done]. simpl. unfold deliver. destruct (wants e s) eqn:Hws; [|done].
    destruct Hf. apply list_elem_of_filter. split; [|done]. unfold wanted_by. by rewrite Hp; simpl; rewrite Hws.
  - rewrite !bool_decide_false; [done| |]; [done|]. intros Hf. by apply list_elem_of_filter in Hf as [_ Hf].
Qed.

(** [Fact] A stream that is opened without a folder receives only the events that name no
    folder, and every file and folder event names one. *)
Theorem unfiltered_stream_sees_no_files {P} (tr : list (label P)) n p s : run tr n -> n_heap n !! p = Some s ->
  followed (sub_ID s) tr = ∅ -> Forall (fun e => e_FolderID e = ""%string) (received p tr ++ sub_Events s).
Proof.
  intros Hr Hp Hf. pose proof (run_ok tr n Hr) as [(past & _ & Hsubs) _ _ _ _]. destruct (Hsubs p s Hp) as [_ H2 _ _ _].
  eapply Forall_impl; [exact H2|]. intros e [_ He]. rewrite Hf in He. set_solver.
Qed.

(** ** Witnesses *)

Definition delivery : list (action unit) :=
  [A_join "s" "u"; A_follow "s" "f"; A_notify 1 (ev "u" "f" 7); A_notify 1 (ev "v" "f" 8); A_notify 1 (ev "u" "g" 9);
   A_take; A_loop; A_loop; A_loop; A_loop; A_loop; A_take; A_loop; A_loop; A_loop; A_receive 0].

Lemma events_witness : exists tr n, run tr n /\ (length (n_eventChan n) <= 256)%nat /\
  received 0 tr = [ev "u" "f" 7] /\ accepted tr = [ev "u" "f" 7; ev "v" "f" 8; ev "u" "g" 9].
Proof.
  destruct (schedule delivery [] NewEventNotifier) as [[tr n]|] eqn:E; [|by vm_compute in E].
  assert (run tr n) as Hr by (eapply schedule_run; [apply run_start|exact E]).
  exists tr, n. split; [exact Hr|]. split; [apply (events_reach_their_audience tr n Hr)|].
  vm_compute in E. injection E as <- _. split; reflexivity.
Defined.

Lemma processEvent_witness : exists e rest k n2, loop_steps k
    (with_loop (Filtering (ev "u" "" 7) [0%nat] []) (with_chan [] (Notify 1 (ev "u" "" 7) (Subscribe "s" "u" NewEventNotifier).2))) = Some n2 /\
  e :: rest = [ev "u" "" 7] /\ (sub_Events <$> n_heap n2 !! 0%nat) = Some [ev "u" "" 7].
Proof.
  set (n := Notify 1 (ev "u" "" 7) (Subscribe "s" "u" (NewEventNotifier (P := unit))).2).
  destruct (processEvent_delivers ([] ++ [L_joined "s" "u"] ++ [L_accepted (ev "u" "" 7)]) n
    (with_loop (Filtering (ev "u" "" 7) [0%nat] []) (with_chan [] n)) [0%nat]) as (e & rest & k & n2 & Hc & Hk & _ & _ & _ & Hh).
  - rewrite app_assoc. eapply run_step; [eapply run_step; [apply run_start|by apply step_subscribe]|].
    apply (step_accept 1 (ev "u" "" 7)). vm_compute. lia.
  - by vm_compute.
  - reflexivity.
  - exists e, rest, k, n2. split; [exact Hk|]. split; [rewrite <-Hc; reflexivity|]. rewrite Hh.
    vm_compute in Hc. injection Hc as <- _. reflexivity.
Defined.
