(* ===== verification/FileApi.v ===== *)
(** * Files, folders, trash and versions over HTTP (internal/server: handlers_files.go,
    handlers_folders.go, handlers_trash.go, handlers_versions.go; the searches of
    internal/vfs/vfs.go and internal/db/files.go)

    A handler takes the authenticated user and the decoded request; its state is
    the database, the event notifier if there is one, and the replies written so
    far.  What a handler still does after its reply (the event) is part of it. *)

From S2P Require Import Prelude GoStrings GoCrypto Database Vfs Server Events.

(** ** Searching

    SQLite's LIKE: [%] is any text, [_] one character, letters match in either
    case.  A character is a byte below 192 or a lead byte with the continuation
    bytes that follow it. *)

Definition lower (c : ascii) : ascii :=
  let n := N_of_ascii c in if (65 <=? n)%N && (n <=? 90)%N then ascii_of_N (n + 32) else c.

Definition is_continuation (c : ascii) : bool := (128 <=? N_of_ascii c)%N && (N_of_ascii c <? 192)%N.

Fixpoint drop_continuation (s : list ascii) : list ascii :=
  match s with
  | c :: s' => if is_continuation c then drop_continuation s' else s
  | [] => []
  end.

Definition drop_char (s : list ascii) : option (list ascii) :=
  match s with
  | [] => None
  | c :: s => Some (if (192 <=? N_of_ascii c)%N then drop_continuation s else s)
  end.

(** [%]: the rest of the pattern somewhere in the text. *)
Fixpoint somewhere (rest : list ascii -> bool) (s : list ascii) : bool :=
  rest s || match s with [] => false | _ :: s => somewhere rest s end.

Fixpoint like (pat : list ascii) (s : list ascii) {struct pat} : bool :=
  match pat with
  | [] => match s with [] => true | _ => false end
  | p :: pat =>
      if bool_decide (p = "%"%char) then somewhere (like pat) s
      else if bool_decide (p = "_"%char) then match drop_char s with Some s' => like pat s' | None => false end
      else match s with c :: s' => bool_decide (lower p = lower c) && like pat s' | [] => false end
  end.

Definition chars (s : string) : list ascii := Stdlib.Strings.String.list_ascii_of_string s.

Definition matches_query (userID query : string) (f : File) : Prop :=
  f_UserID f = userID /\ f_IsTrashed f = false /\ like (chars ("%" +:+ query +:+ "%")) (chars (f_Name f)) = true.

#[export] Instance matches_query_dec u q f : Decision (matches_query u q f).
Proof. unfold matches_query. apply _. Defined.

Definition name_order (a b : File) : Prop := String.le (f_Name a) (f_Name b).

#[export] Instance name_order_dec : RelDecision name_order.
Proof. intros a b. unfold name_order. apply _. Defined.

Definition SearchFiles (userID query : string) (limit : Z) : GoM DB (list File) :=
  let limit := if limit <=? 0 then 100 else limit in
  wrap "failed to search files"
    (sql_query (fun d => take (Z.to_nat limit) (merge_sort name_order (filter (matches_query userID query) (rows (db_files d)))))).

Definition recent_of (userID : string) (f : File) : Prop := f_UserID f = userID /\ f_IsTrashed f = false /\ f_Type f = "file"%string.

#[export] Instance recent_of_dec u f : Decision (recent_of u f).
Proof. unfold recent_of. apply _. Defined.

Definition newest_order (a b : File) : Prop := f_UpdatedAt b <= f_UpdatedAt a.

#[export] Instance newest_order_dec : RelDecision newest_order.
Proof. intros a b. unfold newest_order. apply _. Defined.

Definition RecentFiles (userID : string) (limit : Z) : GoM DB (list File) :=
  let limit := if limit <=? 0 then 100 else limit in
  wrap "failed to get recent files"
    (sql_query (fun d => take (Z.to_nat limit) (merge_sort newest_order (filter (recent_of userID) (rows (db_files d)))))).

Definition Search_ (userID query : string) (limit : Z) : GoM DB (list File) :=
  let limit := if limit <=? 0 then 100 else limit in wrap "failed to search" (SearchFiles userID query limit).

Definition Recent (userID : string) (limit : Z) : GoM DB (list File) :=
  let limit := if limit <=? 0 then 50 else limit in wrap "failed to get recent files" (RecentFiles userID limit).

(** ** State and replies *)

(** The data of the events that the handlers emit. *)
Inductive event_data :=
  | E_file (f : File)
  | E_folder (f : File)
  | E_changed (id new_name new_parent : string)
  | E_deleted (id name : string).

Inductive api_reply :=
  | A_error (code : Z) (msg : string)
  | A_listed (files : list File) (limit offset : Z)
  | A_folders (folders : list File) (limit offset : Z)
  | A_item (f : File)
  | A_created (f : File)
  | A_status (status : string)
  | A_found (files : list File) (query : string)
  | A_recent (files : list File)
  | A_breadcrumbs (crumbs : list Breadcrumb)
  | A_trash (items : list File) (total limit offset : Z)
  | A_emptied (deleted failed : Z)
  | A_version (file_id : string) (version : Z) (name : string)
  | A_bumped (file_id : string) (version previous : Z) (comment : string).

Record Api := mkApi { a_db : DB; a_events : option (EventNotifier event_data); a_replies : list api_reply }.

Definition on_files {A} (m : GoM DB A) : GoM Api A := fun w =>
  let '(r, d) := m (a_db w) in (r, mkApi d (a_events w) (a_replies w)).

Definition respond (r : api_reply) : GoM Api unit := fun w => (Ok tt, mkApi (a_db w) (a_events w) (a_replies w ++ [r])).

(** [ErrorResponse(w, code, msg); return] *)
Definition refuse {A} (code : Z) (msg : string) : GoM Api A := respond (A_error code msg);; fail (ErrHTTP code msg).

Definition demand (b : bool) (code : Z) (msg : string) : GoM Api unit := if b then mret tt else refuse code msg.

(** [if err != nil { InternalErrorResponse(w, err); return }] *)
Definition or_internal {A} (m : GoM DB A) : GoM Api A :=
  r ← attempt (on_files m);
  match r with inl a => mret a | inr _ => refuse 500 "Internal server error" end.

(** [h.events.Notify] when there is a notifier. *)
Definition emit (e : DB -> SSEEvent event_data) : GoM Api unit := fun w =>
  (Ok tt, mkApi (a_db w) (Notify (db_now (a_db w)) (e (a_db w)) <$> a_events w) (a_replies w)).

Definition has_events : GoM Api bool := fun w => (Ok (bool_decide (is_Some (a_events w))), w).

(** [*p] *)
Definition deref (p : option string) : GoM Api string :=
  match p with Some s => mret s | None => panic "invalid memory address or nil pointer dereference" end.

(** A [limit] or [offset] of the query string. *)
Definition query_limit (limitStr : string) (dflt : Z) : Z :=
  if bool_decide (limitStr = ""%string) then dflt
  else match Atoi limitStr with Some n => if (n <=? 0) || (100 <? n) then dflt else n | None => dflt end.

Definition query_offset (offsetStr : string) : Z :=
  if bool_decide (offsetStr = ""%string) then 0
  else match Atoi offsetStr with Some n => if n <? 0 then 0 else n | None => 0 end.

Definition given (s : string) : bool := negb (bool_decide (s = ""%string)).

Definition authenticated (userID : string) : GoM Api unit := demand (given userID) 401 "Unauthorized".

Definition body {A} (req : option A) : GoM Api A :=
  match req with Some q => mret q | None => refuse 400 "Invalid request body" end.

Definition is_not_found (e : error) : bool := match e with ErrNotFound => true | _ => false end.

(** The item with this id, if it is the caller's: [what] names it in the replies. *)
Definition own_item (what userID id : string) : GoM Api File :=
  demand (given id) 400 (what +:+ " ID required");;
  r ← attempt (on_files (GetFile id));
  match r with
  | inr e => if is_not_found e then refuse 404 (what +:+ " not found") else refuse 500 "Internal server error"
  | inl file =>
      demand (bool_decide (f_UserID file = userID)) 403 "Access denied";;
      mret file
  end.

Definition own_folder (userID id : string) : GoM Api File :=
  folder ← own_item "Folder" userID id;
  demand (bool_decide (f_Type folder = "folder"%string)) 400 "Not a folder";;
  mret folder.

(** ** handlers_files.go *)

Definition listFiles (userID parentID limitStr offsetStr : string) : GoM Api unit :=
  authenticated userID;;
  let limit := query_limit limitStr 50 in
  let offset := query_offset offsetStr in
  files ← or_internal (VFS_ListDirectory userID parentID (mkOpts offset limit));
  respond (A_listed files limit offset).

Definition getFile (userID fileID : string) : GoM Api unit :=
  authenticated userID;;
  file ← own_item "File" userID fileID;
  respond (A_item file).

Record createFileRequest := mkCreateFile { cf_ParentID : string; cf_Name : string; cf_Size : Z; cf_MimeType : string }.

Definition is_exists (e : error) : bool := match e with ErrAlreadyExists => true | _ => false end.
Definition is_bad_name (e : error) : bool := match e with ErrInvalidName => true | _ => false end.

Definition created_or (m : GoM DB File) (exists_ invalid : string) : GoM Api File :=
  r ← attempt (on_files m);
  match r with
  | inl f => mret f
  | inr e => if is_exists e then refuse 409 exists_ else if is_bad_name e then refuse 400 invalid
             else refuse 500 "Internal server error"
  end.

Definition root_named (parentID : string) : string := if bool_decide (parentID = ""%string) then "root"%string else parentID.

Definition createFile (userID : string) (req : option createFileRequest) : GoM Api unit :=
  authenticated userID;;
  req ← body req;
  demand (given (cf_Name req)) 400 "Name is required";;
  file ← created_or (VFS_CreateFile userID (cf_ParentID req) (cf_Name req) (cf_MimeType req) (cf_Size req))
           "File already exists" "Invalid file name";
  respond (A_created file);;
  emit (fun _ => mkEvent "file:created" userID (root_named (cf_ParentID req)) (f_ID file) (E_file file) 0).

Record updateRequest := mkUpdate { ur_Name : string; ur_ParentID : string }.

(** Move when a parent is given, else rename when a name is given. *)
Definition apply_request (id : string) (req : updateRequest) : GoM Api unit :=
  if given (ur_ParentID req) then or_internal (Move id (ur_ParentID req) (ur_Name req))
  else if given (ur_Name req) then or_internal (Rename id (ur_Name req))
  else mret tt.

Definition updateFile (userID fileID : string) (req : option updateRequest) : GoM Api unit :=
  authenticated userID;;
  file ← own_item "File" userID fileID;
  req ← body req;
  (if given (ur_ParentID req) then
     r ← attempt (on_files (GetFile (ur_ParentID req)));
     match r with
     | inl parent => demand (bool_decide (f_UserID parent = userID)) 403 "Access denied to target folder"
     | inr _ => refuse 403 "Access denied to target folder"
     end
   else mret tt);;
  apply_request fileID req;;
  respond (A_status "updated");;
  ev ← has_events;
  if ev : bool then
    parent ← deref (f_ParentID file);
    let eventType := if given (ur_ParentID req) && negb (bool_decide (ur_ParentID req = parent)) then "file:moved" else "file:updated" in
    emit (fun _ => mkEvent eventType userID parent fileID (E_changed fileID (ur_Name req) (ur_ParentID req)) 0)
  else mret tt.

Definition deleteFile (userID fileID : string) : GoM Api unit :=
  authenticated userID;;
  file ← own_item "File" userID fileID;
  or_internal (VFS_Delete fileID);;
  respond (A_status "deleted");;
  ev ← has_events;
  if ev : bool then
    parent ← deref (f_ParentID file);
    emit (fun _ => mkEvent "file:deleted" userID parent fileID (E_deleted fileID (f_Name file)) 0)
  else mret tt.

Definition searchFiles (userID query limitStr : string) : GoM Api unit :=
  authenticated userID;;
  demand (given query) 400 "Query required";;
  files ← or_internal (Search_ userID query (query_limit limitStr 50));
  respond (A_found files query).

Definition recentFiles (userID limitStr : string) : GoM Api unit :=
  authenticated userID;;
  files ← or_internal (Recent userID (query_limit limitStr 20));
  respond (A_recent files).

(** ** handlers_folders.go *)

Definition listFolders (userID parentID limitStr offsetStr : string) : GoM Api unit :=
  authenticated userID;;
  let limit := query_limit limitStr 50 in
  let offset := query_offset offsetStr in
  files ← or_internal (VFS_ListDirectory userID parentID (mkOpts offset limit));
  respond (A_folders (filter (fun f => f_Type f = "folder"%string) files) limit offset).

Definition getFolder (userID folderID : string) : GoM Api unit :=
  authenticated userID;;
  folder ← own_folder userID folderID;
  respond (A_item folder).

Record createFolderRequest := mkCreateFolder { cd_ParentID : string; cd_Name : string }.

Definition createFolder (userID : string) (req : option createFolderRequest) : GoM Api unit :=
  authenticated userID;;
  req ← body req;
  demand (given (cd_Name req)) 400 "Name is required";;
  folder ← created_or (CreateFolder userID (cd_ParentID req) (cd_Name req)) "Folder already exists" "Invalid folder name";
  respond (A_created folder);;
  emit (fun _ => mkEvent "folder:created" userID (root_named (cd_ParentID req)) (f_ID folder) (E_folder folder) 0).

Definition updateFolder (userID folderID : string) (req : option updateRequest) : GoM Api unit :=
  authenticated userID;;
  folder ← own_folder userID folderID;
  req ← body req;
  apply_request folderID req;;
  respond (A_status "updated");;
  let moved := match f_ParentID folder with
               | Some p => given (ur_ParentID req) && negb (bool_decide (ur_ParentID req = p))
               | None => false
               end in
  let eventType := if moved then "file:moved"%string else "folder:updated"%string in
  emit (fun _ => mkEvent eventType userID folderID "" (E_changed folderID (ur_Name req) (ur_ParentID req)) 0).

Definition deleteFolder (userID folderID : string) : GoM Api unit :=
  authenticated userID;;
  folder ← own_folder userID folderID;
  or_internal (VFS_Delete folderID);;
  respond (A_status "deleted");;
  emit (fun _ => mkEvent "folder:deleted" userID folderID "" (E_deleted folderID (f_Name folder)) 0).

Definition getBreadcrumbs (fuel : nat) (userID folderID : string) : GoM Api unit :=
  authenticated userID;;
  _ ← own_folder userID folderID;
  breadcrumbs ← or_internal (GetBreadcrumbs fuel folderID);
  respond (A_breadcrumbs breadcrumbs).

(** ** handlers_trash.go *)

Definition listTrash (userID limitStr offsetStr : string) : GoM Api unit :=
  authenticated userID;;
  let limit := query_limit limitStr 50 in
  let offset := query_offset offsetStr in
  items ← or_internal (VFS_ListTrash userID limit offset);
  total ← or_internal (VFS_CountTrash userID);
  respond (A_trash items total limit offset).

Definition restoreItem (userID itemID : string) : GoM Api unit :=
  authenticated userID;;
  _ ← own_item "Item" userID itemID;
  or_internal (Restore itemID);;
  respond (A_status "restored").

Definition permanentDelete (userID itemID : string) : GoM Api unit :=
  authenticated userID;;
  _ ← own_item "Item" userID itemID;
  or_internal (DeletePermanent itemID);;
  respond (A_status "deleted").

Definition batchSize : Z := 100.

(** The items of one page, deleted one by one: how many went, how many failed. *)
Fixpoint delete_items (items : list File) (counts : Z * Z) : GoM Api (Z * Z) :=
  match items with
  | [] => mret counts
  | item :: items =>
      r ← attempt (on_files (DeletePermanent (f_ID item)));
      delete_items items (match r with inl _ => (counts.1 + 1, counts.2) | inr _ => (counts.1, counts.2 + 1) end)
  end.

Fixpoint empty_loop (fuel : nat) (userID : string) (offset : Z) (counts : Z * Z) : GoM Api (Z * Z) :=
  match fuel with
  | O => out_of_fuel
  | S fuel =>
      items ← or_internal (VFS_ListTrash userID batchSize offset);
      if bool_decide (items = []) then mret counts
      else
        counts ← delete_items items counts;
        if Z.of_nat (length items) <? batchSize then mret counts
        else empty_loop fuel userID (offset + batchSize) counts
  end.

Definition emptyTrash (fuel : nat) (userID : string) : GoM Api unit :=
  authenticated userID;;
  counts ← empty_loop fuel userID 0 (0, 0);
  let '(deleted, failed) := (counts : Z * Z) in
  respond (A_emptied deleted failed).

(** ** handlers_versions.go *)

Definition getVersion (userID fileID : string) : GoM Api unit :=
  authenticated userID;;
  file ← own_item "File" userID fileID;
  respond (A_version (f_ID file) (f_Version file) (f_Name file)).

(** A body that does not decode is an empty comment. *)
Definition incrementVersion (userID fileID : string) (comment : option string) : GoM Api unit :=
  authenticated userID;;
  file ← own_item "File" userID fileID;
  newVersion ← or_internal (IncrementVersion fileID);
  respond (A_bumped fileID newVersion (f_Version file) (default ""%string comment)).

(** ** Requests *)

Inductive api_request :=
  | Q_listFiles (parent limit offset : string) | Q_getFile (id : string) | Q_createFile (req : option createFileRequest)
  | Q_updateFile (id : string) (req : option updateRequest) | Q_deleteFile (id : string)
  | Q_search (query limit : string) | Q_recent (limit : string)
  | Q_listFolders (parent limit offset : string) | Q_getFolder (id : string) | Q_createFolder (req : option createFolderRequest)
  | Q_updateFolder (id : string) (req : option updateRequest) | Q_deleteFolder (id : string) | Q_breadcrumbs (id : string)
  | Q_listTrash (limit offset : string) | Q_restore (id : string) | Q_permanentDelete (id : string) | Q_emptyTrash
  | Q_version (id : string) | Q_increment (id : string) (comment : option string).

(** The handler of a request; [fuel] bounds the walk to the root and the batches. *)
Definition serve (fuel : nat) (userID : string) (q : api_request) : GoM Api unit :=
  match q with
  | Q_listFiles p l o => listFiles userID p l o | Q_getFile id => getFile userID id
  | Q_createFile r => createFile userID r | Q_updateFile id r => updateFile userID id r | Q_deleteFile id => deleteFile userID id
  | Q_search s l => searchFiles userID s l | Q_recent l => recentFiles userID l
  | Q_listFolders p l o => listFolders userID p l o | Q_getFolder id => getFolder userID id
  | Q_createFolder r => createFolder userID r | Q_updateFolder id r => updateFolder userID id r
  | Q_deleteFolder id => deleteFolder userID id | Q_breadcrumbs id => getBreadcrumbs fuel userID id
  | Q_listTrash l o => listTrash userID l o | Q_restore id => restoreItem userID id
  | Q_permanentDelete id => permanentDelete userID id | Q_emptyTrash => emptyTrash fuel userID
  | Q_version id => getVersion userID id | Q_increment id c => incrementVersion userID id c
  end.

(** ** The rows of other users *)

Definition foreign (u : string) (d : DB) : gmap string File := filter (fun kv => f_UserID kv.2 <> u) (db_files d).

(** The row under [id], if any, is the user's. *)
Definition owned (u id : string) (d : DB) : Prop := forall f, db_files d !! id = Some f -> f_UserID f = u.

Definition keyed (d : DB) : Prop := forall id f, db_files d !! id = Some f -> f_ID f = id.

(** Where deletes cascade, what lies in the user's folders is the user's. *)
Definition contained (u : string) (d : DB) : Prop := db_fk d = true ->
  forall k f p g, db_files d !! k = Some f -> f_ParentID f = Some p -> db_files d !! p = Some g -> f_UserID g = u -> f_UserID f = u.

Lemma foreign_spec u d k f : foreign u d !! k = Some f <-> db_files d !! k = Some f /\ f_UserID f <> u.
Proof. unfold foreign. rewrite map_lookup_filter_Some. done. Qed.

Lemma foreign_eq u d d' : (forall k f, f_UserID f <> u -> db_files d' !! k = Some f <-> db_files d !! k = Some f) -> foreign u d' = foreign u d.
Proof.
  intros Hd. apply map_eq. intros k. apply option_eq. intros f. rewrite !foreign_spec. split; intros [Hk Hu]; split; try done; by apply Hd.
Qed.

Lemma foreign_insert u d d' k g : db_files d' = <[k := g]> (db_files d) -> f_UserID g = u -> owned u k d -> foreign u d' = foreign u d.
Proof.
  intros Hd' Hg Hk. apply foreign_eq. intros j f Hf. rewrite Hd'. destruct (decide (j = k)) as [->|Hne].
  - rewrite lookup_insert_eq. split; [by intros [= ->]|]. intros Hj. by apply Hk in Hj.
  - by rewrite lookup_insert_ne.
Qed.

(** Rows a delete of an own row takes are own rows. *)
Lemma cascade_owned u d id : contained u d -> db_fk d = true -> is_Some (db_files d !! id) -> owned u id d ->
  forall k, k ∈ cascade (db_files d) id -> owned u k d.
Proof.
  intros Hc Hfk Hex Hid. unfold cascade. apply elem_of_dom in Hex.
  induction (size (db_files d)) as [|n IH]; intros k Hk; [simpl in Hk; by apply elem_of_singleton in Hk as ->|].
  rewrite Nat.iter_succ in Hk. unfold cascade_step at 1 in Hk. apply elem_of_union in Hk as [Hk|Hk]; [by apply IH|].
  apply elem_of_dom in Hk as [f Hf]. apply map_lookup_filter_Some in Hf as [Hf Hp]. unfold parent_in in Hp. simpl in Hp.
  destruct (f_ParentID f) as [p|] eqn:Ep; [|done]. intros f' Hf'. simplify_eq.
  destruct (cascade_iter (db_files d) {[id]} n) as (_ & Hdom & _); [set_solver|set_solver|].
  assert (p ∈ dom (db_files d)) as [g Hg]%elem_of_dom by (by apply Hdom).
  eapply (Hc Hfk k f p g); try done. by apply (IH p).
Qed.

(** What every step keeps: [F] are the other users' rows. *)
Definition isolated (u : string) (F : gmap string File) (d : DB) : Prop := foreign u d = F.

Definition tidy (u : string) (F : gmap string File) (d : DB) : Prop := foreign u d = F /\ keyed d /\ contained u d.

Lemma delete_file_tidy u F id d n d' : tidy u F d -> owned u id d -> delete_file id d = inr (n, d') ->
  tidy u F d' /\ forall k, owned u k d -> owned u k d'.
Proof.
  intros (HF & Hk & Hc) Hid. unfold delete_file. destruct (db_files d !! id) as [f|] eqn:Ef; [|by intros [= <- <-]].
  set (gone := if db_fk d then cascade (db_files d) id else {[id]}). intros E. injection E as <- Hd'.
  assert (db_files d' = filter (fun kv => kv.1 ∉ gone) (db_files d) /\ db_fk d' = db_fk d) as [Hfiles Hfk].
  { rewrite <-Hd'. destruct (db_fk d) eqn:E; simpl; by rewrite ?E. }
  assert (forall k g, db_files d' !! k = Some g -> db_files d !! k = Some g) as Hsub.
  { intros k g. rewrite Hfiles. by intros [? _]%map_lookup_filter_Some. }
  split; [|by intros k Ho g Hg; apply Ho, Hsub]. split_and!.
  - rewrite <-HF. apply foreign_eq. intros k g Hg. split; [apply Hsub|]. intros Hkg. rewrite Hfiles. apply map_lookup_filter_Some.
    split; [done|]. simpl. intros Hgone. apply Hg. unfold gone in Hgone. destruct (db_fk d) eqn:Efk.
    + eapply cascade_owned; [exact Hc|done| |exact Hid|exact Hgone|done]. by rewrite Ef.
    + apply elem_of_singleton in Hgone as ->. by apply Hid.
  - intros k g Hg. apply Hk. by apply Hsub.
  - intros Hfk' k g p h Hg Hp Hh. rewrite Hfk in Hfk'. eapply (Hc Hfk' k g p h); try done; by apply Hsub.
Qed.

(** An own row changed in place, and a new own row. *)
Lemma update_isolated u F id g d n d' : (forall f, f_UserID (g f) = f_UserID f) -> isolated u F d /\ owned u id d ->
  update_file id g d = inr (n, d') -> isolated u F d' /\ owned u id d'.
Proof.
  intros Hg [HF Hid]. unfold update_file. destruct (db_files d !! id) as [f|] eqn:Ef; [|by intros [= <- <-]].
  destruct (negb _); [done|]. destruct (negb _); [done|]. intros [= <- <-].
  assert (f_UserID (g f) = u) as Hu by (rewrite Hg; by apply Hid). split.
  - unfold isolated. rewrite <-HF. by eapply foreign_insert.
  - intros f'. simpl. rewrite lookup_insert_eq. by intros [= <-].
Qed.

Lemma insert_isolated u F f d n d' : f_UserID f = u -> isolated u F d -> insert_file f d = inr (n, d') -> isolated u F d'.
Proof.
  intros Hf HF. unfold insert_file. case_bool_decide as Hex; [done|]. destruct (negb _); [done|]. destruct (negb _); [done|].
  intros [= <- <-]. unfold isolated. rewrite <-HF. eapply foreign_insert; [done|done|]. intros g Hg. destruct Hex. by rewrite Hg.
Qed.

Lemma insert_set_trashed f : f_UserID (set_trashed (f_IsTrashed f) None f) = f_UserID f.
Proof. done. Qed.

Lemma preserves_query {A} (I : DB -> Prop) (q : DB -> A) : (forall l d, I d -> I (with_faults l d)) -> preserves I (sql_query q).
Proof. intros HI d Hd. unfold sql_query. destruct (next_fault (db_faults d)) as [[] l]; by apply HI. Qed.

Lemma preserves_exec (I : DB -> Prop) x : (forall l d, I d -> I (with_faults l d)) -> (forall d n d', I d -> x d = inr (n, d') -> I d') ->
  preserves I (sql_exec x).
Proof. intros HI Hx. apply preserves_hoare. by apply sql_exec_hoare. Qed.

Lemma preserves_affected (I : DB -> Prop) msg n : preserves I (affected msg n).
Proof. unfold affected. destruct (n =? 0); apply preserves_ret. Qed.

Lemma preserves_generateID (I : DB -> Prop) p : (forall r d, I d -> I (with_rand r d)) -> preserves I (generateID p).
Proof. intros HI d Hd. unfold generateID. destruct (rand_read 8 (db_rand d)) as [[] r]; by apply HI. Qed.

(** ** Isolation of the handlers *)

Section Isolation.
Context (u : string) (F : gmap string File).

Definition mine (id : string) (d : DB) : Prop := isolated u F d /\ owned u id d.

Lemma own_update id g : (forall f, f_UserID (g f) = f_UserID f) -> preserves (mine id) (sql_exec (update_file id g)).
Proof. intros Hg. apply preserves_exec; [done|]. intros d n d'. by apply update_isolated. Qed.

Lemma own_insert f : f_UserID f = u -> preserves (isolated u F) (sql_exec (insert_file f)).
Proof. intros Hf. apply preserves_exec; [done|]. intros d n d'. by apply insert_isolated. Qed.

Lemma mine_query {A} id (q : DB -> A) : preserves (mine id) (sql_query q).
Proof. by apply preserves_query. Qed.
Lemma mine_affected id msg n : preserves (mine id) (affected msg n).
Proof. apply preserves_affected. Qed.
Lemma isolated_query {A} (q : DB -> A) : preserves (isolated u F) (sql_query q).
Proof. by apply preserves_query. Qed.
Lemma isolated_generateID p : preserves (isolated u F) (generateID p).
Proof. by apply preserves_generateID. Qed.

#[local] Hint Resolve mine_query mine_affected isolated_query isolated_generateID : preserves.

Lemma updates_user t us f : f_UserID (set_updated t (foldl (fun f u => apply_update u f) f us)) = f_UserID f.
Proof. simpl. revert f. induction us as [|x us IH]; intros f; simpl; [done|]. rewrite IH. by destruct x. Qed.

Lemma mine_UpdateFile id us : preserves (mine id) (UpdateFile id us).
Proof.
  unfold UpdateFile. destruct us as [|x us]; [apply preserves_ret|]. destruct (invalid_field _); [apply preserves_ret|].
  apply preserves_get. intros d0. apply preserves_bind; [|intros; auto with preserves].
  apply preserves_wrap, own_update. intros f. apply (updates_user _ (x :: us)).
Qed.

Lemma mine_changes id : (forall p n, preserves (mine id) (Move id p n)) /\ (forall n, preserves (mine id) (Rename id n)) /\
  preserves (mine id) (VFS_Delete id) /\ preserves (mine id) (Restore id) /\ preserves (mine id) (IncrementVersion id).
Proof.
  pose proof (mine_UpdateFile id). split_and!.
  - intros p n. unfold Move, MoveFile, GetFileByID, scan_row. preserve; by apply own_update.
  - intros n. unfold Rename. preserve.
  - unfold VFS_Delete, SoftDelete. preserve; by apply own_update.
  - unfold Restore, RestoreFromTrash. preserve; by apply own_update.
  - unfold IncrementVersion, GetFileByID, scan_row. preserve.
Qed.

Lemma isolated_creates p n : (forall mime size, preserves (isolated u F) (VFS_CreateFile u p n mime size)) /\
  preserves (isolated u F) (CreateFolder u p n).
Proof.
  split; [intros mime size|]; unfold VFS_CreateFile, CreateFolder, CreateFile, must_be_absent, GetFileByPath, scan_row;
    preserve; by apply own_insert.
Qed.

(** A delete: the tidy state stays tidy, and own ids stay own. *)
Definition mine_all (ids : list string) (d : DB) : Prop := tidy u F d /\ Forall (fun id => owned u id d) ids.

Lemma tidy_delete ids id : id ∈ ids -> preserves (mine_all ids) (DeletePermanent id).
Proof.
  intros Hin. unfold DeletePermanent, PermanentDelete. apply preserves_wrap, preserves_bind; [|intros; apply preserves_affected].
  apply preserves_wrap, preserves_exec; [done|]. intros d n d' [Ht Hids] E.
  destruct (delete_file_tidy _ _ _ _ _ _ Ht (proj1 (Forall_forall _ _) Hids id Hin) E) as [Ht' Ho]. split; [done|].
  eapply Forall_impl; [done|]. auto.
Qed.
End Isolation.

(** *** Lifted to the handlers *)

Definition on_api (I : DB -> Prop) (w : Api) : Prop := I (a_db w).

Section Lifted.
Context (I : DB -> Prop).

Lemma api_files {A} (m : GoM DB A) : preserves I m -> preserves (on_api I) (on_files m).
Proof. intros Hm w Hw. specialize (Hm (a_db w) Hw). unfold on_files. by destruct (m (a_db w)) as [r d]. Qed.

Lemma api_respond r : preserves (on_api I) (respond r).
Proof. by intros w Hw. Qed.
Lemma api_emit e : preserves (on_api I) (emit e).
Proof. by intros w Hw. Qed.
Lemma api_has_events : preserves (on_api I) has_events.
Proof. by intros w Hw. Qed.

#[local] Hint Resolve api_respond api_emit api_has_events : preserves.

Lemma api_refuse {A} code msg : preserves (on_api I) (@refuse A code msg).
Proof. unfold refuse. preserve. Qed.
Lemma api_demand b code msg : preserves (on_api I) (demand b code msg).
Proof. unfold demand. destruct b; [apply preserves_ret|apply api_refuse]. Qed.
Lemma api_deref p : preserves (on_api I) (deref p).
Proof. destruct p; apply preserves_ret. Qed.
Lemma api_body {A} (req : option A) : preserves (on_api I) (body req).
Proof. destruct req; [apply preserves_ret|apply api_refuse]. Qed.

Lemma api_internal {A} (m : GoM DB A) : preserves I m -> preserves (on_api I) (or_internal m).
Proof.
  intros Hm. apply preserves_bind; [by apply preserves_attempt, api_files|]. intros [a|e]; [apply preserves_ret|apply api_refuse].
Qed.
End Lifted.

#[export] Hint Resolve api_respond api_emit api_has_events api_refuse api_demand api_deref api_body : preserves.

(** What the owner check does: a reply with an error, or an own row and nothing else. *)
Definition check_outcome (u id : string) (w : Api) (out : Res File * Api) : Prop :=
  (exists l, a_db out.2 = with_faults l (a_db w)) /\ a_events out.2 = a_events w /\
  match out.1 with
  | Ok f => db_files (a_db w) !! id = Some f /\ f_UserID f = u /\ id <> ""%string /\ a_replies out.2 = a_replies w
  | Err _ => exists code msg, a_replies out.2 = a_replies w ++ [A_error code msg]
  | _ => False
  end.

Lemma own_item_cases what u id w : check_outcome u id w (own_item what u id w).
Proof.
  unfold check_outcome, own_item, demand, given. destruct (bool_decide_reflect (id = ""%string)) as [->|Hid].
  { simpl. split_and!; [by exists (db_faults (a_db w)); destruct (a_db w)|done|eauto]. }
  unfold attempt, on_files, GetFile, instead, GetFileByID, scan_row, attempt, sql_query, mbind, GoM_bind. simpl.
  destruct (next_fault (db_faults (a_db w))) as [[] l]; simpl; [split_and!; eauto|].
  destruct (db_files (a_db w) !! id) as [f|] eqn:Hf; simpl; [|split_and!; eauto].
  case_bool_decide as Hu; simpl; split_and!; eauto.
Qed.

Lemma own_folder_cases u id w : check_outcome u id w (own_folder u id w).
Proof.
  unfold own_folder, mbind, GoM_bind. pose proof (own_item_cases "Folder" u id w) as Hc.
  destruct (own_item "Folder" u id w) as [[f|e|m|] w1]; try done. destruct Hc as (Hdb & He & Hf & Hu & Hid & Hr). simpl in *.
  unfold demand. case_bool_decide; simpl; [by split_and!|]. split_and!; simpl; rewrite ?Hr; eauto.
Qed.

(** What runs after the check may use that the row is the caller's. *)
Lemma after_check {A} I u id (chk : GoM Api File) (k : File -> GoM Api A) : (forall l d, I d -> I (with_faults l d)) ->
  (forall w, check_outcome u id w (chk w)) -> (forall f w, I (a_db w) -> owned u id (a_db w) -> I (a_db (k f w).2)) ->
  preserves (on_api I) (f ← chk; k f).
Proof.
  intros HI Hc Hk w Hw. specialize (Hc w). unfold mbind, GoM_bind. destruct (chk w) as [[f|e|m|] w1];
    destruct Hc as ([l Hl] & _ & Hr); simpl in *; unfold on_api in *; [| |done|done].
  - apply Hk; rewrite Hl; [by apply HI|]. intros g. simpl. destruct Hr as (Hf & Hu & _). congruence.
  - rewrite Hl. by apply HI.
Qed.

Lemma after_owner {A} I what u id (k : File -> GoM Api A) : (forall l d, I d -> I (with_faults l d)) ->
  (forall f, preserves (on_api (fun d => I d /\ owned u id d)) (k f)) -> preserves (on_api I) (f ← own_item what u id; k f).
Proof.
  intros HI Hk. eapply after_check; [done|intros w; apply own_item_cases|]. intros f w Hw Ho. by apply (Hk f w).
Qed.

Lemma after_folder {A} I u id (k : File -> GoM Api A) : (forall l d, I d -> I (with_faults l d)) ->
  (forall f, preserves (on_api (fun d => I d /\ owned u id d)) (k f)) -> preserves (on_api I) (f ← own_folder u id; k f).
Proof.
  intros HI Hk. eapply after_check; [done|intros w; apply own_folder_cases|]. intros f w Hw Ho. by apply (Hk f w).
Qed.

Definition with_db (d : DB) (w : Api) : Api := mkApi d (a_events w) (a_replies w).

Lemma or_internal_eq {A} (m : GoM DB A) w :
  or_internal m w =
  match m (a_db w) with
  | (Ok a, d) => (Ok a, with_db d w)
  | (Err _, d) => refuse 500 "Internal server error" (with_db d w)
  | (Panic s, d) => (Panic s, with_db d w)
  | (OutOfFuel, d) => (OutOfFuel, with_db d w)
  end.
Proof. unfold or_internal, attempt, on_files, mbind, GoM_bind. by destruct (m (a_db w)) as [[] d]. Qed.

(** *** Every request *)

Section Requests.
Context (u : string) (F : gmap string File).

Lemma api_own {A} id (m : GoM DB A) : preserves (mine u F id) m -> preserves (on_api (mine u F id)) (or_internal m).
Proof. apply api_internal. Qed.

Lemma api_apply id req : preserves (on_api (mine u F id)) (apply_request id req).
Proof.
  destruct (mine_changes u F id) as (Hm & Hr & _). unfold apply_request.
  destruct (given (ur_ParentID req)); [apply api_own, Hm|]. destruct (given (ur_Name req)); [apply api_own, Hr|apply preserves_ret].
Qed.

Lemma isolated_reads I : (forall l d, I d -> I (with_faults l d)) ->
  (forall id, preserves I (GetFile id)) /\ (forall p o, preserves I (VFS_ListDirectory u p o)) /\ (forall q l, preserves I (Search_ u q l)) /\
  (forall l, preserves I (Recent u l)) /\ (forall l o, preserves I (VFS_ListTrash u l o)) /\ preserves I (VFS_CountTrash u) /\
  (forall fuel id, preserves I (GetBreadcrumbs fuel id)).
Proof.
  intros HI. assert (forall A (q : DB -> A), preserves I (sql_query q)) as Hq by (intros; by apply preserves_query).
  split_and!; intros; unfold GetFile, GetFileByID, scan_row, VFS_ListDirectory, ListDirectory, Search_, SearchFiles, Recent, RecentFiles,
    VFS_ListTrash, ListTrash, VFS_CountTrash, CountTrash, GetBreadcrumbs; preserve; auto.
  match goal with |- preserves _ (crumb_loop ?k ?c ?l) => generalize c, l; induction k as [|k IH]; intros c' l'; simpl; [apply preserves_ret|] end.
  unfold GetFileByID, scan_row. preserve; auto.
Qed.

(** The items of a page are rows of the user's trash. *)
Lemma page_subset {A} limit offset (l : list A) a : a ∈ page limit offset l -> a ∈ l.
Proof. unfold page. intros Ha. by apply (subseteq_take (Z.to_nat limit)), (subseteq_drop (Z.to_nat offset)) in Ha. Qed.

Lemma ListTrash_out l o d : (exists fl, (VFS_ListTrash u l o d).2 = with_faults fl d) /\
  match (VFS_ListTrash u l o d).1 with
  | Ok items => forall it, it ∈ items -> exists k, db_files d !! k = Some it /\ trashed_of u it
  | Err _ => True | _ => False
  end.
Proof.
  unfold VFS_ListTrash, ListTrash, wrap, sql_query. destruct (next_fault (db_faults d)) as [[] fl]; simpl; [by eauto|].
  split; [by eauto|]. intros it Hit. apply page_subset in Hit. rewrite merge_sort_Permutation in Hit.
  apply list_elem_of_filter in Hit as [Ht Hit]. apply elem_of_rows in Hit as [k Hk]. eauto.
Qed.

Lemma api_delete_items ids items : (forall it, it ∈ items -> f_ID it ∈ ids) ->
  forall counts, preserves (on_api (mine_all u F ids)) (delete_items items counts).
Proof.
  induction items as [|it items IH]; intros Hin counts; simpl; [apply preserves_ret|].
  apply preserves_bind; [|intros r; apply IH; set_solver].
  apply preserves_attempt, api_files, tidy_delete. set_solver.
Qed.

Lemma api_empty_loop fuel : forall offset counts, preserves (on_api (tidy u F)) (empty_loop fuel u offset counts).
Proof.
  induction fuel as [|fuel IH]; intros offset counts w Hw; [done|]. cbn [empty_loop]. unfold mbind at 1, GoM_bind. rewrite or_internal_eq.
  pose proof (ListTrash_out batchSize offset (a_db w)) as [[fl Hfl] Hit].
  destruct (VFS_ListTrash u batchSize offset (a_db w)) as [[items|e|m|] d]; simpl in Hfl, Hit; subst d; try done.
  case_bool_decide; [done|]. set (w1 := with_db _ w).
  assert (on_api (mine_all u F (f_ID <$> items)) w1) as Hw1.
  { destruct Hw as (HF & Hk & Hc). split; [done|]. apply Forall_forall. intros id Hid. apply list_elem_of_fmap in Hid as (it & -> & Hin).
    destruct (Hit it Hin) as (k & Hkey & Hu & _). intros g Hg. simpl in Hg. pose proof (Hk _ _ Hkey). congruence. }
  apply (api_delete_items _ items ltac:(intros; by apply list_elem_of_fmap_2) counts) in Hw1.
  unfold mbind, GoM_bind. destruct (delete_items items counts w1) as [[c|e|m|] w2]; try apply Hw1.
  destruct (_ <? _); [apply Hw1|]. apply IH, Hw1.
Qed.

Lemma after_owner_mine {A} what id (k : File -> GoM Api A) :
  (forall f, preserves (on_api (mine u F id)) (k f)) -> preserves (on_api (isolated u F)) (f ← own_item what u id; k f).
Proof. intros Hk. by apply after_owner. Qed.

Lemma after_folder_mine {A} id (k : File -> GoM Api A) :
  (forall f, preserves (on_api (mine u F id)) (k f)) -> preserves (on_api (isolated u F)) (f ← own_folder u id; k f).
Proof. intros Hk. by apply after_folder. Qed.

Lemma api_changes id : preserves (on_api (mine u F id)) (or_internal (VFS_Delete id)) /\
  preserves (on_api (mine u F id)) (or_internal (Restore id)) /\ preserves (on_api (mine u F id)) (or_internal (IncrementVersion id)) /\
  (forall j, preserves (on_api (mine u F id)) (on_files (GetFile j))).
Proof.
  destruct (mine_changes u F id) as (_ & _ & H1 & H2 & H3). split_and!; try (by apply api_internal).
  intros j. apply api_files. by destruct (isolated_reads (mine u F id)) as [R _].
Qed.

Lemma api_created_or m a b : preserves (isolated u F) m -> preserves (on_api (isolated u F)) (created_or m a b).
Proof.
  intros Hm. unfold created_or. apply preserves_bind; [by apply preserves_attempt, api_files|]. intros [f|e]; preserve.
Qed.

Lemma api_own_item I what id : (forall l d, I d -> I (with_faults l d)) -> preserves (on_api I) (own_item what u id).
Proof. intros HI w Hw. destruct (own_item_cases what u id w) as ([l Hl] & _). unfold on_api. rewrite Hl. by apply HI. Qed.

Lemma api_own_folder I id : (forall l d, I d -> I (with_faults l d)) -> preserves (on_api I) (own_folder u id).
Proof. intros HI w Hw. destruct (own_folder_cases u id w) as ([l Hl] & _). unfold on_api. rewrite Hl. by apply HI. Qed.

#[local] Hint Resolve after_owner_mine after_folder_mine api_apply api_created_or api_own_item api_own_folder : preserves.

Lemma api_updates id req : preserves (on_api (isolated u F)) (updateFile u id req) /\ preserves (on_api (isolated u F)) (updateFolder u id req).
Proof.
  destruct (api_changes id) as (_ & _ & _ & Hg). split; [unfold updateFile|unfold updateFolder]; (apply preserves_bind; [apply api_demand|intros _]).
  - apply after_owner_mine. intros f. preserve.
  - apply after_folder_mine. intros f. preserve.
Qed.

Lemma api_reads fuel q :
  match q with
  | Q_listFiles _ _ _ | Q_getFile _ | Q_search _ _ | Q_recent _ | Q_listFolders _ _ _ | Q_getFolder _ | Q_breadcrumbs _
  | Q_listTrash _ _ | Q_version _ => forall I, (forall l d, I d -> I (with_faults l d)) -> preserves (on_api I) (serve fuel u q)
  | _ => True
  end.
Proof.
  destruct q; try done; intros I HI; destruct (isolated_reads I HI) as (R1 & R2 & R3 & R4 & R5 & R6 & R7);
    pose proof (@api_internal I) as Hi; simpl;
    unfold listFiles, getFile, searchFiles, recentFiles, listFolders, getFolder, getBreadcrumbs, listTrash, getVersion, authenticated; preserve.
Qed.

Lemma api_serve fuel q :
  preserves (on_api (match q with Q_permanentDelete _ | Q_emptyTrash => tidy u F | _ => isolated u F end)) (serve fuel u q).
Proof.
  pose proof (api_reads fuel q) as Hreads.
  destruct q; try (by apply Hreads); clear Hreads; simpl; try apply api_updates;
    unfold createFile, deleteFile, createFolder, deleteFolder, restoreItem, permanentDelete, emptyTrash, incrementVersion;
    (apply preserves_bind; [apply api_demand|intros _]).
  - assert (forall p n m s, preserves (isolated u F) (VFS_CreateFile u p n m s)) as Hc by (intros; apply isolated_creates). preserve.
  - destruct (api_changes id) as (H1 & H2 & H3 & _). apply after_owner_mine. intros f. preserve.
  - assert (forall p n, preserves (isolated u F) (CreateFolder u p n)) as Hc by (intros; apply isolated_creates). preserve.
  - destruct (api_changes id) as (H1 & H2 & H3 & _). apply after_folder_mine. intros f. preserve.
  - destruct (api_changes id) as (H1 & H2 & H3 & _). apply after_owner_mine. intros f. preserve.
  - eapply after_check; [done|intros w; apply own_item_cases|]. intros f w Hw Ho.
    assert (preserves (on_api (mine_all u F [id])) (or_internal (DeletePermanent id);; respond (A_status "deleted"))) as Hp.
    { apply preserves_bind; [apply api_internal, tidy_delete; set_solver|]. intros. apply api_respond. }
    apply (Hp w). split; [done|]. by repeat constructor.
  - apply preserves_bind; [apply api_empty_loop|]. intros [del failed]. apply api_respond.
  - destruct (api_changes id) as (H1 & H2 & H3 & _). apply after_owner_mine. intros f. preserve.
Qed.
End Requests.

(** *** Without a user *)

Lemma unauthenticated fuel q w : serve fuel "" q w = (Err (ErrHTTP 401 "Unauthorized"), mkApi (a_db w) (a_events w) (a_replies w ++ [A_error 401 "Unauthorized"])).
Proof. by destruct q. Qed.

(** ** Emptying the trash *)

Definition trash (u : string) (d : DB) : list File := filter (trashed_of u) (rows (db_files d)).

(** Nothing lies below the user's trash. *)
Definition childless (u : string) (d : DB) : Prop := forall k f j g, db_files d !! k = Some f -> trashed_of u f ->
  db_files d !! j = Some g -> f_ParentID g <> Some k.

Lemma cascade_alone files id : (forall j g, files !! j = Some g -> f_ParentID g <> Some id) -> cascade files id = {[id]}.
Proof.
  intros Hn. unfold cascade. induction (size files) as [|n IH]; [done|]. rewrite Nat.iter_succ, IH. unfold cascade_step.
  apply leibniz_equiv. intros k. rewrite elem_of_union, elem_of_dom. split; [|by left]. intros [?|[g Hg]]; [done|].
  apply map_lookup_filter_Some in Hg as [Hg Hp]. unfold parent_in in Hp. simpl in Hp. destruct (f_ParentID g) as [p|] eqn:Ep; [|done].
  apply elem_of_singleton in Hp as ->. by destruct (Hn _ _ Hg).
Qed.

(** One delete takes one row. *)
Lemma DeletePermanent_alone u d k f : quiet d -> childless u d -> db_files d !! k = Some f -> trashed_of u f ->
  exists d', DeletePermanent k d = (Ok tt, d') /\ quiet d' /\ db_files d' = delete k (db_files d).
Proof.
  intros Hq Hc Hk Ht.
  assert (exists d', delete_file k d = inr (1, d') /\ quiet d' /\ db_files d' = delete k (db_files d)) as (d' & E & Hq' & Hd').
  { unfold delete_file. rewrite Hk. eexists. split; [done|].
    assert ((if db_fk d then cascade (db_files d) k else {[k]}) = {[k]}) as ->.
    { destruct (db_fk d); [|done]. apply cascade_alone. intros j g Hj. by eapply Hc. }
    assert (filter (fun kv : string * File => kv.1 ∉ ({[k]} : gset string)) (db_files d) = delete k (db_files d)) as Hf.
    { apply map_eq. intros j. apply option_eq. intros g. rewrite map_lookup_filter_Some, lookup_delete_Some. simpl. set_solver. }
    destruct (db_fk d); simpl; rewrite Hf; by split. }
  exists d'. split; [|done]. unfold DeletePermanent, wrap at 1, PermanentDelete. by rewrite (exec_affected_ok _ _ _ _ d').
Qed.

Lemma trash_delete u d d' k f : db_files d !! k = Some f -> trashed_of u f -> db_files d' = delete k (db_files d) ->
  trash u d ≡ₚ f :: trash u d'.
Proof.
  intros Hk Ht Hd'. unfold trash, rows. rewrite Hd'.
  assert (map_to_list (db_files d) ≡ₚ (k, f) :: map_to_list (delete k (db_files d))) as -> by (symmetry; by apply map_to_list_delete).
  rewrite fmap_cons, filter_cons_True by done. done.
Qed.

Lemma delete_items_all u items : forall d ev rs counts, quiet d -> childless u d -> keyed d -> items ⊆+ trash u d ->
  exists d', delete_items items counts (mkApi d ev rs) = (Ok (counts.1 + Z.of_nat (length items), counts.2), mkApi d' ev rs) /\
    quiet d' /\ childless u d' /\ keyed d' /\ trash u d ≡ₚ items ++ trash u d'.
Proof.
  induction items as [|it items IH]; intros d ev rs counts Hq Hc Hk Hin.
  - exists d. simpl. split_and!; try done. destruct counts. simpl. by rewrite Z.add_0_r.
  - assert (it ∈ trash u d) as Hit by (eapply elem_of_submseteq; [|done]; by left).
    apply list_elem_of_filter in Hit as [Ht Hit]. apply elem_of_rows in Hit as [k Hkey]. pose proof (Hk _ _ Hkey) as Hid. subst k.
    destruct (DeletePermanent_alone u d _ _ Hq Hc Hkey Ht) as (d1 & E & Hq1 & Hd1).
    pose proof (trash_delete _ _ _ _ _ Hkey Ht Hd1) as Hperm.
    assert (forall j g, db_files d1 !! j = Some g -> db_files d !! j = Some g) as Hsub by (intros j g; rewrite Hd1, lookup_delete_Some; tauto).
    destruct (IH d1 ev rs (counts.1 + 1, counts.2)) as (d2 & E2 & ? & ? & ? & Hp2).
    + done.
    + intros j g i h Hj Hg Hi. apply (Hc j g i h); auto.
    + intros j g Hj. by apply Hk, Hsub.
    + rewrite Hperm in Hin. apply submseteq_cons_l in Hin as (l' & Hl & Hin). apply Permutation_cons_inv in Hl. by rewrite Hl.
    + exists d2. split_and!; try done; [|by rewrite Hperm, Hp2].
      cbn [delete_items]. unfold attempt, on_files, mbind, GoM_bind. cbn [a_db a_events a_replies]. rewrite E. cbn [fst snd] in *. rewrite E2. cbn [length]. replace (counts.1 + Z.of_nat (S (length items))) with (counts.1 + 1 + Z.of_nat (length items)) by lia. done.
Qed.

Lemma ListTrash_page u limit offset d : quiet d -> 0 < limit -> 0 <= offset ->
  exists items, VFS_ListTrash u limit offset d = (Ok items, d) /\ items ⊆+ trash u d /\
    length items = Nat.min (Z.to_nat limit) (length (trash u d) - Z.to_nat offset).
Proof.
  intros Hq Hl Ho. unfold VFS_ListTrash, ListTrash, wrap. rewrite query_quiet by done.
  rewrite (proj2 (Z.leb_gt limit 0)), (proj2 (Z.ltb_ge offset 0)) by lia. eexists. split; [done|]. fold (trash u d). split.
  - etrans; [|apply Permutation_submseteq, (merge_sort_Permutation trash_order)]. unfold page. etrans; [apply sublist_submseteq, sublist_take|].
    apply sublist_submseteq, sublist_drop.
  - unfold page. rewrite length_take, length_drop. by rewrite (Permutation_length (merge_sort_Permutation trash_order _)).
Qed.

(** What the batches clear when [m] items lie beyond the offset. *)
Definition cleared (m : Z) : Z := let k := (m + 100) / 200 in 100 * k + Z.max 0 (m - 200 * k).

Lemma cleared_done m : -100 <= m -> m <= 0 -> cleared m = 0.
Proof. intros. unfold cleared. rewrite Z.div_small by lia. lia. Qed.

Lemma cleared_last m : 0 <= m < 100 -> cleared m = m.
Proof. intros. unfold cleared. rewrite Z.div_small by lia. lia. Qed.

Lemma cleared_full m : 100 <= m -> cleared m = 100 + cleared (m - 200).
Proof. intros. unfold cleared. replace (m - 200 + 100) with (m + 100 + (-1) * 200) by lia. rewrite Z.div_add by lia. lia. Qed.

Lemma empty_loop_clears u : forall fuel offset d ev rs counts m, quiet d -> childless u d -> keyed d -> 0 <= offset ->
  m = Z.of_nat (length (trash u d)) - offset -> -100 <= m -> (m + 100) / 200 < Z.of_nat fuel ->
  exists d', empty_loop fuel u offset counts (mkApi d ev rs) = (Ok (counts.1 + cleared m, counts.2), mkApi d' ev rs) /\
    Z.of_nat (length (trash u d')) = Z.of_nat (length (trash u d)) - cleared m.
Proof.
  induction fuel as [|fuel IH]; intros offset d ev rs counts m Hq Hc Hk Ho Hm Hlow Hf; [exfalso; pose proof (Z.div_pos (m + 100) 200); lia|].
  cbn [empty_loop]. unfold mbind at 1, GoM_bind. rewrite or_internal_eq. cbn [a_db].
  destruct (ListTrash_page u batchSize offset d Hq) as (items & -> & Hsub & Hlen); [done|done|].
  unfold batchSize in Hlen. unfold with_db. cbn [a_events a_replies].
  case_bool_decide as Hnil.
  { subst items. cbn [length] in Hlen. rewrite cleared_done by lia. exists d. split; [|lia]. destruct counts. simpl. by rewrite Z.add_0_r. }
  assert (0 < length items)%nat as Hpos by (destruct items; [done|simpl; lia]).
  destruct (delete_items_all u items d ev rs counts Hq Hc Hk Hsub) as (d1 & E & Hq1 & Hc1 & Hk1 & Hp).
  apply Permutation_length in Hp. rewrite length_app in Hp. unfold mbind, GoM_bind. rewrite E.
  destruct (Z.ltb_spec (Z.of_nat (length items)) batchSize) as [Hlt|Hge]; unfold batchSize in *.
  - exists d1. rewrite cleared_last by lia. split; [|lia]. by replace (Z.of_nat (length items)) with m by lia.
  - rewrite (cleared_full m) by lia.
    destruct (IH (offset + 100) d1 ev rs (counts.1 + Z.of_nat (length items), counts.2) (m - 200) Hq1 Hc1 Hk1) as (d2 & E2 & Hl2); try lia.
    { replace (m - 200 + 100) with (m + 100 + (-1) * 200) by lia. rewrite Z.div_add by lia. lia. }
    exists d2. rewrite E2. split; [|lia]. cbn [fst snd].
    replace (counts.1 + Z.of_nat (length items) + cleared (m - 200)) with (counts.1 + (100 + cleared (m - 200))) by lia. done.
Qed.

(** ** Properties *)


(** [Fact] Emptying the trash pages through the items with an offset that advances by
    the batch although the batch has been deleted: of [n] items all go when there are
    at most 100, and about half of them when there are more, and the reply counts the
    deleted ones as if that were all.  It always ends. *)
Theorem emptyTrash_skips_batches fuel u d ev rs n : u <> ""%string -> quiet d -> childless u d -> keyed d ->
  n = Z.of_nat (length (trash u d)) -> (n + 100) / 200 < Z.of_nat fuel ->
  exists d', emptyTrash fuel u (mkApi d ev rs) = (Ok tt, mkApi d' ev (rs ++ [A_emptied (cleared n) 0])) /\
    Z.of_nat (length (trash u d')) = n - cleared n /\
    (n <= 100 -> trash u d' = []) /\ (100 < n -> n - cleared n >= 1 /\ 2 * cleared n <= n + 100).
Proof.
  intros Hu Hq Hc Hk Hn Hf.
  destruct (empty_loop_clears u fuel 0 d ev rs (0, 0) n) as (d' & E & Hl); try done; try lia.
  exists d'. unfold emptyTrash, authenticated, demand, given. rewrite bool_decide_eq_false_2 by done. cbn [negb]. rewrite bind_mret.
  unfold mbind, GoM_bind. rewrite E. cbn [fst snd]. rewrite Z.add_0_l. split; [done|]. rewrite Hl, <-Hn. split; [done|]. split.
  - intros Hle. assert (cleared n = n) as Hcl.
    { destruct (decide (n = 100)) as [->|]; [done|]. apply cleared_last. lia. }
    apply nil_length_inv. lia.
  - intros Hlt. unfold cleared. pose proof (Z.div_mod (n + 100) 200 ltac:(lia)). pose proof (Z.mod_pos_bound (n + 100) 200). lia.
Qed.

(** The owner check on a present own row. *)
Lemma own_item_ok what u id d ev rs f : quiet d -> id <> ""%string -> db_files d !! id = Some f -> f_UserID f = u ->
  own_item what u id (mkApi d ev rs) = (Ok f, mkApi d ev rs).
Proof.
  intros Hq Hid Hf Hu. unfold own_item, demand, given. rewrite bool_decide_eq_false_2 by done. cbn [negb]. rewrite bind_mret.
  unfold attempt, on_files, GetFile, instead, mbind, GoM_bind. cbn [a_db a_events a_replies]. rewrite GetFileByID_quiet, Hf by done.
  by rewrite bool_decide_eq_true_2.
Qed.

(** [Fact] Deleting an own item puts it into the trash and replies with success; then the
    event names the item's folder, and for an item of the root, which has none, the
    handler panics after its reply when there is a notifier. *)
Theorem deleteFile_outcome u id d ev rs f : tables_ok d -> quiet d -> u <> ""%string -> id <> ""%string ->
  db_files d !! id = Some f -> f_UserID f = u ->
  let d' := with_files (<[id := set_updated (db_now d) (set_trashed true (Some (db_now d)) f)]> (db_files d)) d in
  let rs' := rs ++ [A_status "deleted"] in
  deleteFile u id (mkApi d ev rs) =
  match ev, f_ParentID f with
  | None, _ => (Ok tt, mkApi d' None rs')
  | Some n, Some p =>
      (Ok tt, mkApi d' (Some (Notify (db_now d) (mkEvent "file:deleted" u p id (E_deleted id (f_Name f)) 0) n)) rs')
  | Some n, None => (Panic "invalid memory address or nil pointer dereference", mkApi d' ev rs')
  end.
Proof.
  intros Hok Hq Hu Hid Hf Hfu d' rs'. unfold deleteFile, authenticated, demand, given. rewrite bool_decide_eq_false_2 by done.
  cbn [negb]. rewrite bind_mret. unfold mbind, GoM_bind. rewrite (own_item_ok "File" u id d ev rs f) by done. rewrite or_internal_eq. cbn [a_db].
  pose proof (update_same_key id (fun f => set_updated (db_now d) (set_trashed true (Some (db_now d)) f)) d f
    Hok Hf eq_refl eq_refl eq_refl eq_refl) as Eu.
  assert (VFS_Delete id d = (Ok tt, d')) as ->.
  { unfold VFS_Delete, wrap, SoftDelete. rewrite bind_get. by rewrite (exec_affected_ok _ _ _ _ _ Hq Eu). }
  unfold with_db, respond, has_events, emit, deref. cbn [a_db a_events a_replies]. destruct ev as [n|]; [|done]. by destruct (f_ParentID f).
Qed.

(** *** Folders of two users *)

Definition row_of (u id : string) (parent : option string) (type : string) : File :=
  mkFileRow id u parent id type 3 "" None None false [] false None 1 10 10.

Definition two_users (l : list File) : DB :=
  mkDB {["u"; "v"]} (list_to_map ((fun f => (f_ID f, f)) <$> l)) ∅ ∅ 100 (mkRand (fun _ => x00) 0 []) [] true.

Definition two_folders : Api := mkApi (two_users [row_of "u" "a" None "folder"; row_of "v" "b" None "folder"; row_of "v" "c" (Some "b"%string) "file"]) None [].

(** [Fact] Only the endpoint for files checks whose the target folder of a move is: a user
    can put a folder into another user's folder, and the deletion of that folder by
    its owner then takes the rows of both. *)
Theorem moved_into_foreign_folder :
  let w1 := (serve 0 "v" (Q_updateFolder "b" (Some (mkUpdate "" "a"))) two_folders).2 in
  let w2 := (serve 0 "u" (Q_permanentDelete "a") w1).2 in
  (serve 0 "v" (Q_updateFile "b" (Some (mkUpdate "" "a"))) two_folders).1 = Err (ErrHTTP 403 "Access denied to target folder") /\
  a_replies w1 = [A_status "updated"] /\ contained "u" (a_db two_folders) /\ ~ contained "u" (a_db w1) /\
  db_files (a_db w2) = ∅.
Proof.
  split_and!; [vm_compute; reflexivity|vm_compute; reflexivity| | |vm_compute; reflexivity].
  - intros _ k f p g Hk Hp Hg Hu.
    assert (k = "a"%string \/ k = "b"%string \/ k = "c"%string) as Hcases.
    { apply elem_of_list_to_map_2, list_elem_of_fmap in Hk as (x & [= -> ->] & Hx). rewrite !elem_of_cons in Hx. destruct Hx as [ -> | [ -> | [ -> | Hx ] ] ]; [by left|by right; left|by right; right|by apply not_elem_of_nil in Hx]. }
    destruct Hcases as [-> | [-> | ->]]; vm_compute in Hk; injection Hk as <-; [done|done|]. simpl in Hp. injection Hp as <-.
    vm_compute in Hg. injection Hg as <-. done.
  - intros Hc. specialize (Hc eq_refl "b"%string). vm_compute in Hc.
    specialize (Hc _ "a"%string _ eq_refl eq_refl eq_refl eq_refl). done.
Qed.

(** [Fact] A folder can be moved below itself over HTTP; the request for its breadcrumbs
    then never ends. *)
Theorem breadcrumbs_never_end :
  let w := (serve 0 "u" (Q_updateFolder "a" (Some (mkUpdate "" "a"))) two_folders).2 in
  a_replies w = [A_status "updated"] /\ forall fuel, (serve fuel "u" (Q_breadcrumbs "a") w).1 = OutOfFuel.
Proof.
  intros w. split; [vm_compute; reflexivity|]. intros fuel.
  assert (exists g, db_files (a_db w) !! "a"%string = Some g /\ f_UserID g = "u"%string /\ f_Type g = "folder"%string /\ f_ParentID g = Some "a"%string)
    as (g & Hg & Hu & Hty & Hp) by (eexists; vm_compute; done).
  assert (quiet (a_db w)) as Hq by (vm_compute; done).
  destruct (cycle_diverges (a_db w) "a" g Hq) with (fuel := fuel) as [_ Hb]; try done; [rewrite Hp; by apply below_here|].
  destruct w as [d ev rs]. cbn [a_db] in *. cbn [serve]. unfold getBreadcrumbs, authenticated, demand, given. cbn [negb].
  rewrite bool_decide_eq_false_2 by done. cbn [negb]. rewrite bind_mret. unfold mbind, GoM_bind, own_folder, mbind, GoM_bind.
  rewrite (own_item_ok "Folder" "u" "a" d ev rs g) by done. unfold demand. rewrite bool_decide_eq_true_2 by done. cbn.
  rewrite or_internal_eq. cbn [a_db]. by rewrite Hb.
Qed.

(** *** Searching *)

Definition plain (s : list ascii) : Prop := Forall (fun c => c <> "%"%char /\ c <> "_"%char) s.

Lemma somewhere_spec rest s : somewhere rest s = true <-> exists a b, s = a ++ b /\ rest b = true.
Proof.
  induction s as [|c s IH]; simpl; rewrite orb_true_iff.
  - split; [intros [H|]; [by exists [], []|done]|]. intros (a & b & E & H). symmetry in E. apply app_eq_nil in E as [-> ->]. by left.
  - rewrite IH. split.
    + intros [H|(a & b & -> & H)]; [by exists [], (c :: s)|by exists (c :: a), b].
    + intros ([|x a] & b & E & H); simplify_eq/=; [by left|right; eauto].
Qed.

Lemma like_plain q pat s : plain q -> like (q ++ pat) s = true <-> exists a b, s = a ++ b /\ (lower <$> a) = (lower <$> q) /\ like pat b = true.
Proof.
  intros Hq. revert s. induction Hq as [|c q [Hc1 Hc2] Hq IH]; intros s; simpl.
  - split; [intros H; by exists [], s|]. intros (a & b & -> & E & H). apply fmap_nil_inv in E as ->. done.
  - rewrite !bool_decide_eq_false_2 by done. destruct s as [|x s].
    + split; [done|]. intros (a & b & E & E' & _). symmetry in E. apply app_eq_nil in E as [-> _]. done.
    + rewrite andb_true_iff, bool_decide_eq_true, IH. split.
      * intros [E (a & b & -> & Ea & H)]. exists (x :: a), b. by rewrite !fmap_cons, E, Ea.
      * intros ([|y a] & b & E & Ea & H); simplify_eq/=. split; [done|eauto].
Qed.

Lemma like_substring q s : plain (chars q) -> like (chars ("%" +:+ q +:+ "%")) (chars s) = true <->
  exists a b c, chars s = a ++ b ++ c /\ (lower <$> b) = (lower <$> chars q).
Proof.
  intros Hq. assert (chars ("%" +:+ q +:+ "%") = "%"%char :: (chars q ++ ["%"%char])) as ->.
  { unfold chars. simpl. f_equal. clear Hq. induction q as [|c q IH]; simpl; [done|]. by f_equal. }
  assert (forall l, like ["%"%char] l = true) as Hany.
  { intros l. apply somewhere_spec. exists l, []. by rewrite app_nil_r. }
  cbn [like]. rewrite bool_decide_eq_true_2 by done. rewrite somewhere_spec. split.
  - intros (a & r & E & H). apply like_plain in H as (b & c & -> & Hb & _); [|done]. eauto.
  - intros (a & b & c & E & Hb). exists a, (b ++ c). split; [done|]. apply like_plain; [done|]. exists b, c. by rewrite Hany.
Qed.

(** [Fact] The search for a text without wildcard characters returns live entries of the
    user whose name contains it up to the case of ASCII letters, each once and as many
    as there are up to the limit.  A [%] or [_] in the request is a wildcard. *)
Theorem search_finds_substrings u q limit d : quiet d -> plain (chars q) -> 0 < limit ->
  let hits f := f_UserID f = u /\ f_IsTrashed f = false /\
    exists a b c, chars (f_Name f) = a ++ b ++ c /\ (lower <$> b) = (lower <$> chars q) in
  exists found all, Search_ u q limit d = (Ok found, d) /\ found ⊆+ all /\
    length found = Nat.min (Z.to_nat limit) (length all) /\ all ⊆+ rows (db_files d) /\
    (forall f, f ∈ all <-> f ∈ rows (db_files d) /\ hits f).
Proof.
  intros Hq Hpl Hl hits. set (all := filter (matches_query u q) (rows (db_files d))).
  exists (take (Z.to_nat limit) (merge_sort name_order all)), all.
  unfold Search_, SearchFiles, wrap. rewrite !(proj2 (Z.leb_gt limit 0)) by lia. rewrite query_quiet by done. split_and!; [done| | | |].
  - etrans; [apply sublist_submseteq, sublist_take|apply Permutation_submseteq, (merge_sort_Permutation name_order)].
  - by rewrite length_take, (Permutation_length (merge_sort_Permutation name_order _)).
  - apply sublist_submseteq, sublist_filter.
  - intros f. unfold all. rewrite list_elem_of_filter. unfold matches_query, hits. rewrite like_substring by done. tauto.
Qed.

(** ** Witnesses *)

Definition big_trash (n : nat) : Api :=
  mkApi (two_users ((fun i => set_trashed true (Some 5) (row_of "u" (pretty i) None "file")) <$> seq 0 n)) None [].


Lemma emptyTrash_witness : exists d', emptyTrash 3 "u" (big_trash 150) = (Ok tt, mkApi d' None [A_emptied 100 0]) /\
  Z.of_nat (length (trash "u" d')) = 50.
Proof.
  destruct (emptyTrash_skips_batches 3 "u" (a_db (big_trash 150)) None [] 150) as (d' & E & Hl & _).
  - done.
  - reflexivity.
  - intros k f j g _ _ Hj. apply elem_of_list_to_map_2, list_elem_of_fmap in Hj as (x & [= -> ->] & Hx).
    apply list_elem_of_fmap in Hx as (i & -> & _). done.
  - intros id f Hk. apply elem_of_list_to_map_2, list_elem_of_fmap in Hk as (x & [= -> ->] & _). done.
  - vm_compute. reflexivity.
  - vm_compute. reflexivity.
  - exists d'. split; [exact E|exact Hl].
Defined.

Definition root_file : DB := two_users [row_of "u" "a" None "file"].

Lemma deleteFile_witness : (deleteFile "u" "a" (mkApi root_file (Some NewEventNotifier) [])).1 =
  Panic "invalid memory address or nil pointer dereference".
Proof.
  rewrite (deleteFile_outcome "u" "a" root_file (Some NewEventNotifier) [] (row_of "u" "a" None "file")); [reflexivity| |done..].
  apply tables_okb_ok. vm_compute. reflexivity.
Defined.

Lemma search_witness : exists found, Search_ "u" "DOC" 50 (two_users [row_of "u" "my_docs" None "file"; row_of "u" "x" None "file"]) =
  (Ok found, two_users [row_of "u" "my_docs" None "file"; row_of "u" "x" None "file"]) /\ (f_ID <$> found) = ["my_docs"%string].
Proof.
  destruct (search_finds_substrings "u" "DOC" 50 (two_users [row_of "u" "my_docs" None "file"; row_of "u" "x" None "file"]))
    as (found & all & E & _); [done|by repeat constructor|done|].
  exists found. split; [exact E|]. vm_compute in E. injection E as <-. reflexivity.
Defined.
