(* ===== verification/Middleware.v ===== *)
(** * The HTTP front (internal/server: middleware.go, middleware_auth.go; the user
    lookups of internal/media/stream.go and internal/preview/handler.go)

    A handler is a computation on the state of the front: the authentication
    service, the caches of the access control engine, the rate limiter and the
    response.  A middleware maps handlers to handlers. *)

From S2P Require Import Prelude GoStrings GoCrypto Encoding Util Database Devices Users ApiTokens Password Jwt Totp AuthService Rbac Chunker Storage Server Download.

(** ** responseWriter

    Records the status for the log and drops a second [WriteHeader]. *)

Record responseWriter := mkResponseWriter { rw_inner : Writer; rw_statusCode : Z; rw_written : bool }.

Definition wrap_writer (w : Writer) : responseWriter := mkResponseWriter w 200 false.

Definition send_status (code : Z) (w : Writer) : Writer :=
  mkWriter (w_headers w) (match w_status w with None => Some code | s => s end) (w_body w) (w_faults w).

Definition rw_WriteHeader (code : Z) (rw : responseWriter) : responseWriter :=
  if rw_written rw then rw else mkResponseWriter (send_status code (rw_inner rw)) code true.

Definition rw_Write (p : piece) (rw : responseWriter) : Res unit * responseWriter :=
  let rw := if rw_written rw then rw else rw_WriteHeader 200 rw in
  let '(r, w) := write_piece p (rw_inner rw) in
  (r, mkResponseWriter w (rw_statusCode rw) (rw_written rw)).

(** What a handler does to its writer. *)
Inductive writer_call := C_header (k v : string) | C_del (k : string) | C_status (code : Z) | C_write (p : piece).

Definition rw_call (c : writer_call) (rw : responseWriter) : responseWriter :=
  match c with
  | C_header k v => let w := rw_inner rw in
      mkResponseWriter (mkWriter (<[k := v]> (w_headers w)) (w_status w) (w_body w) (w_faults w)) (rw_statusCode rw) (rw_written rw)
  | C_del k => let w := rw_inner rw in
      mkResponseWriter (mkWriter (delete k (w_headers w)) (w_status w) (w_body w) (w_faults w)) (rw_statusCode rw) (rw_written rw)
  | C_status code => rw_WriteHeader code rw
  | C_write p => (rw_Write p rw).2
  end.

(** The same calls on the writer itself. *)
Definition plain_call (c : writer_call) (w : Writer) : Writer :=
  match c with
  | C_header k v => mkWriter (<[k := v]> (w_headers w)) (w_status w) (w_body w) (w_faults w)
  | C_del k => mkWriter (delete k (w_headers w)) (w_status w) (w_body w) (w_faults w)
  | C_status code => send_status code w
  | C_write p => (write_piece p w).2
  end.

(** net/http's Error: a text body, after the headers of a text. *)
Definition error_calls (msg : string) (code : Z) : list writer_call :=
  [C_del "Content-Length"; C_header "Content-Type" "text/plain; charset=utf-8"; C_header "X-Content-Type-Options" "nosniff";
   C_status code; C_write (Raw (bytes_of (msg +:+ String "010" "")))].

(** ** Origins *)

Fixpoint origin_listed (origin : string) (allowed : list string) : bool :=
  match allowed with
  | [] => false
  | a :: allowed =>
      if bool_decide (a = origin) then true
      else if HasPrefix a "*." && HasSuffix origin (str_drop 1 a) then true
      else origin_listed origin allowed
  end.

Definition isOriginAllowed (origin : string) (allowed : list string) : bool :=
  if bool_decide (origin = ""%string) then true
  else if bool_decide (allowed = []) || bool_decide (allowed = ["*"%string]) then true
  else origin_listed origin allowed.

(** ** Rate limiting

    Instants and durations are nanoseconds; the lock of the limiter is held while
    the limited handler runs, so requests are limited one after the other. *)

Record RateLimitMiddleware := mkLimiter { rl_requests : gmap string (list Z); rl_limit : Z; rl_window : Z; rl_lastClean : Z }.

Definition NewRateLimitMiddleware (limit window now : Z) : RateLimitMiddleware := mkLimiter ∅ limit window now.

Definition one_minute : Z := 60 * 1000000000.

(** [t.After(cutoff)] for some recorded instant. *)
Definition has_recent (cutoff : Z) (times : list Z) : bool := existsb (fun t => cutoff <? t) times.

Definition cleanupOldClients (now : Z) (rl : RateLimitMiddleware) : gmap string (list Z) :=
  filter (fun kv => has_recent (now - rl_window rl) kv.2 = true) (rl_requests rl).

(** Whether the request goes on, and the limiter after the decision. *)
Definition Limit_request (now : Z) (clientID : string) (rl : RateLimitMiddleware) : bool * RateLimitMiddleware :=
  let rl := if one_minute <? now - rl_lastClean rl
            then mkLimiter (cleanupOldClients now rl) (rl_limit rl) (rl_window rl) now else rl in
  let times := default [] (rl_requests rl !! clientID) in
  let count := Z.of_nat (length (filter (fun t => now - rl_window rl < t) times)) in
  if rl_limit rl <=? count then (false, rl)
  else (true, mkLimiter (<[clientID := times ++ [now]]> (rl_requests rl)) (rl_limit rl) (rl_window rl) (rl_lastClean rl)).

(** ** Requests and contexts

    A request carries the instant at which the limiter looks at the clock.
    Context keys have the type of their package: the key of the server is neither
    the string with the same text nor the key of the auth package. *)

Inductive key_type := server_key | auth_key | plain_key.

#[export] Instance key_type_eq_dec : EqDecision key_type.
Proof. solve_decision. Defined.

#[export] Instance key_type_countable : Countable key_type.
Proof.
  refine (inj_countable (fun k => match k with server_key => 0%nat | auth_key => 1%nat | plain_key => 2%nat end)
            (fun n => match n with 0%nat => Some server_key | 1%nat => Some auth_key | 2%nat => Some plain_key | _ => None end) _).
  by intros [].
Defined.

Notation http_context := (gmap (key_type * string) ctx_value).

Record HttpRequest := mkHttp {
  h_Method : string; h_Path : string; h_Authorization : string; h_Origin : string; h_RemoteAddr : string; h_ForwardedProto : string;
  h_TLS : bool; h_scope : string; h_ctx : http_context; h_now : Z
}.

Definition with_ctx (ctx : http_context) (r : HttpRequest) : HttpRequest :=
  mkHttp (h_Method r) (h_Path r) (h_Authorization r) (h_Origin r) (h_RemoteAddr r) (h_ForwardedProto r) (h_TLS r) (h_scope r) ctx (h_now r).

Definition value_string (v : option ctx_value) : string := match v with Some (VString s) => s | _ => "" end.
Definition value_strings (v : option ctx_value) : list string := match v with Some (VStrings l) => l | _ => [] end.

Definition GetUserIDFromRequest (r : HttpRequest) : string := value_string (h_ctx r !! (server_key, "user_id"%string)).
Definition GetUsernameFromRequest (r : HttpRequest) : string := value_string (h_ctx r !! (server_key, "username"%string)).
Definition GetRolesFromRequest (r : HttpRequest) : list string := value_strings (h_ctx r !! (server_key, "roles"%string)).
Definition GetDeviceIDFromRequest (r : HttpRequest) : string := value_string (h_ctx r !! (server_key, "device_id"%string)).

Definition IsAuthenticated (r : HttpRequest) : bool := negb (bool_decide (GetUserIDFromRequest r = ""%string)).
Definition Middleware_IsAdmin (r : HttpRequest) : bool := bool_decide ("admin"%string ∈ GetRolesFromRequest r).

Record AuthInfo := mkAuthInfo { ai_UserID : string; ai_Username : string; ai_Roles : list string; ai_DeviceID : string; ai_IsAPIKey : bool }.

Definition GetAuthInfo (r : HttpRequest) : AuthInfo :=
  mkAuthInfo (GetUserIDFromRequest r) (GetUsernameFromRequest r) (GetRolesFromRequest r) (GetDeviceIDFromRequest r) false.

(** media.GetUserID and preview.GetUserID: the plain string as a key. *)
Definition media_GetUserID (r : HttpRequest) : string := value_string (h_ctx r !! (plain_key, "user_id"%string)).

Definition setUserContext (ctx : http_context) (userID username : string) (roles : list string) (deviceID : string) : http_context :=
  <[(server_key, "device_id"%string) := VString deviceID]> (<[(server_key, "roles"%string) := VStrings roles]>
    (<[(server_key, "username"%string) := VString username]> (<[(server_key, "user_id"%string) := VString userID]> ctx))).

Definition setAPIUserContext (ctx : http_context) (userID username : string) (permissions : list string) : http_context :=
  <[(server_key, "roles"%string) := VStrings permissions]>
    (<[(server_key, "username"%string) := VString username]> (<[(server_key, "user_id"%string) := VString userID]> ctx)).

Definition extract (prefix : string) (r : HttpRequest) : string :=
  let auth := h_Authorization r in
  if bool_decide (auth = ""%string) then ""%string
  else if negb (HasPrefix auth prefix) then ""%string
  else TrimPrefix auth prefix.

Definition extractBearerToken : HttpRequest -> string := extract "Bearer ".
Definition extractAPIToken : HttpRequest -> string := extract "Token ".

Definition getRateLimitClientID (r : HttpRequest) : string :=
  let uid := GetUserIDFromRequest r in
  if negb (bool_decide (uid = ""%string)) then ("user:" +:+ uid)%string else h_RemoteAddr r.

(** ** The front

    The access control engine reads the role column of the user's row. *)

#[export] Program Instance auth_users : UserDB AuthDB := {
  Rbac.GetUserByID id := (u ← Users.GetUserByID id; mret (u_Role u));
  role_at d id := u_Role <$> t_users (tab d) !! id
}.
Next Obligation.
  intros d id. unfold Users.GetUserByID, tab_scan, attempt, tab_query, mbind, GoM_bind.
  destruct (next_fault _) as [[] l]; simpl; [done|]. by destruct (t_users (tab d) !! id).
Qed.

Record Front := mkFront {
  fr_service : Service; fr_roles : gmap string Role; fr_perms : gmap string (list Permission);
  fr_limiter : RateLimitMiddleware; fr_out : Writer
}.

Definition Handler : Type := HttpRequest -> GoM Front unit.

Definition on_service {A} (m : GoM Service A) : GoM Front A := fun w =>
  let '(r, s) := m (fr_service w) in (r, mkFront s (fr_roles w) (fr_perms w) (fr_limiter w) (fr_out w)).

Definition on_rbac {A} (m : GoM (RBAC (D := AuthDB)) A) : GoM Front A := fun w =>
  let s := fr_service w in
  let '(r, e) := m (mkRBAC (tw_db (sv_world s)) (fr_roles w) (fr_perms w)) in
  (r, mkFront (mkService (mkTokenWorld (rdb e) (tw_ids (sv_world s))) (sv_failedAttempts s) (sv_totpSessions s))
        (roles e) (perms e) (fr_limiter w) (fr_out w)).

Definition on_out (f : Writer -> Writer) : GoM Front unit := fun w =>
  (Ok tt, mkFront (fr_service w) (fr_roles w) (fr_perms w) (fr_limiter w) (f (fr_out w))).

Definition respond (c : writer_call) : GoM Front unit := on_out (plain_call c).

Definition http_Error (msg : string) (code : Z) : GoM Front unit := forM (error_calls msg code) respond.

Definition writeError (status : Z) (message : string) : GoM Front unit :=
  respond (C_header "Content-Type" "application/json");;
  respond (C_status status);;
  respond (C_write (Json (J_error message))).

(** {"error":"..."} as the text of [http.Error]. *)
Definition error_text (msg : string) : string := ("{" +:+ quoted "error" +:+ ":" +:+ quoted msg +:+ "}")%string.

(** A panic of the handler becomes the outcome; anything else passes. *)
Definition RecoveryMiddleware (next : Handler) : Handler := fun r w =>
  match next r w with
  | (Panic _, w') => http_Error (error_text "Internal server error") 500 w'
  | x => x
  end.

Definition CORSMiddleware (next : Handler) (allowedOrigins : list string) : Handler := fun r =>
  let origin := h_Origin r in
  (if isOriginAllowed origin allowedOrigins then
     respond (C_header "Access-Control-Allow-Origin" origin);;
     respond (C_header "Access-Control-Allow-Credentials" "true");;
     respond (C_header "Access-Control-Allow-Methods" "GET, POST, PUT, DELETE, OPTIONS, PATCH");;
     respond (C_header "Access-Control-Allow-Headers" "Content-Type, Authorization, X-Requested-With");;
     respond (C_header "Access-Control-Max-Age" "86400")
   else mret tt);;
  if bool_decide (h_Method r = "OPTIONS"%string) then respond (C_status 200) else next r.

Definition SecurityHeadersMiddleware (next : Handler) : Handler := fun r =>
  respond (C_header "X-Content-Type-Options" "nosniff");;
  respond (C_header "X-Frame-Options" "DENY");;
  respond (C_header "X-XSS-Protection" "1; mode=block");;
  respond (C_header "Referrer-Policy" "strict-origin-when-cross-origin");;
  respond (C_header "Content-Security-Policy" "default-src 'self'; style-src 'self' 'unsafe-inline'; script-src 'self'");;
  (if h_TLS r || bool_decide (h_ForwardedProto r = "https"%string) then
     respond (C_header "Strict-Transport-Security" "max-age=31536000; includeSubDomains; preload")
   else mret tt);;
  next r.

Definition Limit (next : Handler) : Handler := fun r w =>
  let '(admitted, rl) := Limit_request (h_now r) (getRateLimitClientID r) (fr_limiter w) in
  let w := mkFront (fr_service w) (fr_roles w) (fr_perms w) rl (fr_out w) in
  if admitted then next r w else http_Error (error_text "Rate limit exceeded") 429 w.

(** ** Authentication *)

Section Guards.
Context `{Hmac} `{HashFn} `{ClaimsJSON}.
Context (jwtSecret : bytes) (hasTokenService : bool).

(** The token service may be absent: only the check of the prefix does without it. *)
Definition service_ValidateToken (token : string) : GoM Service (User * list string) :=
  if hasTokenService then on_world (ValidateToken token)
  else if negb (HasPrefix token APITokenPrefix) then fail ErrInvalidAPIToken
  else panic "invalid memory address or nil pointer dereference".

Definition Authenticate (next : Handler) : Handler := fun r =>
  let bearer := extractBearerToken r in
  c ← (if bool_decide (bearer = ""%string) then mret (inr ErrInvalidToken)
       else attempt (on_service (Service_ValidateAccessToken jwtSecret bearer)));
  match c with
  | inl claims => next (with_ctx (setUserContext (h_ctx r) (ac_UserID claims) (ac_Username claims) (ac_Roles claims) (ac_DeviceID claims)) r)
  | inr _ =>
      let api := extractAPIToken r in
      t ← (if bool_decide (api = ""%string) then mret (inr ErrInvalidAPIToken)
           else attempt (on_service (service_ValidateToken api)));
      match t with
      | inl (user, permissions) => next (with_ctx (setAPIUserContext (h_ctx r) (u_ID user) (u_Username user) permissions) r)
      | inr _ => next r
      end
  end.

Definition OptionalAuth : Handler -> Handler := Authenticate.
End Guards.

Definition RequireAuth (next : Handler) : Handler := fun r =>
  if bool_decide (GetUserIDFromRequest r = ""%string) then writeError 401 "Unauthorized" else next r.

Definition RequirePermission (resource action : string) (next : Handler) : Handler := fun r =>
  let userID := GetUserIDFromRequest r in
  if bool_decide (userID = ""%string) then writeError 401 "Unauthorized"
  else
    let scope := if negb (bool_decide (h_scope r = ""%string)) then h_scope r else "own"%string in
    a ← attempt (on_rbac (Authorize userID resource action scope));
    match a with inr _ => writeError 403 "Permission denied" | inl _ => next r end.

Definition RequireAdmin (next : Handler) : Handler := fun r =>
  let userID := GetUserIDFromRequest r in
  if bool_decide (userID = ""%string) then writeError 401 "Unauthorized"
  else
    a ← attempt (on_rbac (IsAdmin userID));
    match a with inl true => next r | _ => writeError 403 "Admin access required" end.

Definition PublicRoute (next : Handler) : Handler := fun r => next r.

(** Every handler of the media and preview packages starts with this test. *)
Definition media_guard (next : Handler) : Handler := fun r =>
  if bool_decide (media_GetUserID r = ""%string) then http_Error "Unauthorized" 401 else next r.

(** ** The chain around the router

    Tracing and logging do not touch the response; what the log records is
    [rw_statusCode]. *)

Definition wrapMiddleware (rateLimited : bool) (allowedOrigins : list string) (router : Handler) : Handler :=
  let handler := RecoveryMiddleware router in
  let handler := if rateLimited then Limit handler else handler in
  SecurityHeadersMiddleware (CORSMiddleware handler allowedOrigins).

(** ** Lemmas: the response writer *)

Lemma rw_call_plain c rw : rw_written rw = bool_decide (is_Some (w_status (rw_inner rw))) ->
  rw_statusCode rw = default 200 (w_status (rw_inner rw)) ->
  let rw' := rw_call c rw in
  rw_inner rw' = plain_call c (rw_inner rw) /\ rw_written rw' = bool_decide (is_Some (w_status (rw_inner rw'))) /\
  rw_statusCode rw' = default 200 (w_status (rw_inner rw')).
Proof.
  destruct rw as [[hs st body fs] code wr]. simpl. intros -> ->.
  destruct c as [k v|k|code|p]; simpl; unfold rw_WriteHeader, rw_Write, write_piece, send_status; simpl; destruct st as [s|]; simpl; try done.
  all: unfold write_piece; simpl; destruct (next_fault fs) as [[] l]; done.
Qed.

(** [Fact] The logging wrapper is transparent: whatever sequence of calls a handler
    makes, the wrapped writer ends in the state that the same calls have on the
    writer itself, and the status in the log is the one the client received --
    200 when the handler never set one. *)
Theorem captured_status calls w : w_status w = None ->
  let rw := foldl (fun rw c => rw_call c rw) (wrap_writer w) calls in
  rw_inner rw = foldl (fun w c => plain_call c w) w calls /\ rw_statusCode rw = default 200 (w_status (rw_inner rw)).
Proof.
  intros Hw. simpl.
  assert (forall rw, rw_written rw = bool_decide (is_Some (w_status (rw_inner rw))) ->
    rw_statusCode rw = default 200 (w_status (rw_inner rw)) ->
    let rw' := foldl (fun rw c => rw_call c rw) rw calls in
    rw_inner rw' = foldl (fun w c => plain_call c w) (rw_inner rw) calls /\ rw_statusCode rw' = default 200 (w_status (rw_inner rw'))) as Hall.
  { induction calls as [|c calls IH]; intros rw Hr Hs; [done|]. simpl.
    destruct (rw_call_plain c rw Hr Hs) as (Ei & Ew & Es). destruct (IH _ Ew Es) as [E1 E2]. rewrite <-Ei. done. }
  apply (Hall (wrap_writer w)); simpl; by rewrite Hw.
Qed.

(** ** Lemmas: the limiter *)

Section Limiter.
Context (limit window : Z).

Definition offered (rl : RateLimitMiddleware) (req : Z * string) := Limit_request req.1 req.2 rl.

Fixpoint limiter_run (rl : RateLimitMiddleware) (reqs : list (Z * string)) : list bool :=
  match reqs with
  | [] => []
  | req :: reqs => let '(ok, rl) := offered rl req in ok :: limiter_run rl reqs
  end.

(** The admitted requests of a client among those at [lo < t <= hi]. *)
Definition admitted_in (c : string) (lo hi : Z) (hist : list (Z * string)) : list (Z * string) :=
  filter (fun q => q.2 = c /\ lo < q.1 <= hi) hist.

(** The limiter that forgets nothing. *)
Fixpoint reference (hist : list (Z * string)) (reqs : list (Z * string)) : list bool * list (Z * string) :=
  match reqs with
  | [] => ([], hist)
  | (now, c) :: reqs =>
      let ok := Z.of_nat (length (admitted_in c (now - window) now hist)) <? limit in
      let '(oks, h) := reference (if ok then hist ++ [(now, c)] else hist) reqs in (ok :: oks, h)
  end.

Fixpoint ordered (from : Z) (reqs : list (Z * string)) : Prop :=
  match reqs with [] => True | (now, _) :: reqs => from <= now /\ ordered now reqs end.

Definition recent (cutoff : Z) (c : string) (hist : list (Z * string)) : list Z := (filter (fun q => q.2 = c /\ cutoff < q.1) hist).*1.

Definition limiter_inv (from : Z) (hist : list (Z * string)) (rl : RateLimitMiddleware) : Prop :=
  rl_limit rl = limit /\ rl_window rl = window /\ Forall (fun q => q.1 <= from) hist /\
  forall c cutoff, from - window <= cutoff -> filter (fun t => cutoff < t) (default [] (rl_requests rl !! c)) = recent cutoff c hist.

Lemma recent_none times cutoff : has_recent cutoff times = false -> forall cutoff', cutoff <= cutoff' -> filter (fun t => cutoff' < t) times = [].
Proof.
  intros Hr c Hc. induction times as [|t times IH]; [done|]. simpl in Hr. apply orb_false_iff in Hr as [Ht Hr].
  apply Z.ltb_ge in Ht. rewrite filter_cons_False by lia. auto.
Qed.

Lemma cleanup_inv from now hist rl : limiter_inv from hist rl -> from <= now ->
  limiter_inv now hist (mkLimiter (cleanupOldClients now rl) (rl_limit rl) (rl_window rl) now).
Proof.
  intros (Hl & Hw & Hh & Hf) Hn. split; [done|]. split; [done|]. split; [eapply Forall_impl; [done|simpl; lia]|].
  intros c cutoff Hc. rewrite <-Hf by lia. simpl. unfold cleanupOldClients. rewrite Hw. rewrite map_lookup_filter.
  destruct (rl_requests rl !! c) as [times|] eqn:E; [|done]. simpl.
  case_guard as Hg; simpl; [done|]. apply not_true_is_false in Hg. symmetry. by apply (recent_none times (now - window)).
Qed.

Lemma filter_same {A} (P Q : A -> Prop) `{!forall x, Decision (P x)} `{!forall x, Decision (Q x)} l :
  Forall (fun x => P x <-> Q x) l -> filter P l = filter Q l.
Proof.
  induction 1 as [|x l Hx _ IH]; [done|]. rewrite !filter_cons.
  destruct (decide (P x)), (decide (Q x)); [by rewrite IH|tauto|tauto|done].
Qed.

Lemma recent_admitted now c hist : Forall (fun q => q.1 <= now) hist ->
  length (recent (now - window) c hist) = length (admitted_in c (now - window) now hist).
Proof.
  intros Hh. unfold recent, admitted_in. rewrite length_fmap. f_equal. apply filter_same. eapply Forall_impl; [done|].
  simpl. intros q Hq. intuition lia.
Qed.

(** One request: the decision is the reference's, and the invariant survives. *)
Lemma admit_step from hist rl now c : limiter_inv from hist rl -> from <= now ->
  let ok := Z.of_nat (length (admitted_in c (now - window) now hist)) <? limit in
  (offered rl (now, c)).1 = ok /\ limiter_inv now (if ok then hist ++ [(now, c)] else hist) (offered rl (now, c)).2.
Proof.
  intros Hinv Hn ok.
  assert (exists rl', limiter_inv now hist rl' /\ offered rl (now, c) =
    let times := default [] (rl_requests rl' !! c) in
    if limit <=? Z.of_nat (length (filter (fun t => now - window < t) times)) then (false, rl')
    else (true, mkLimiter (<[c := times ++ [now]]> (rl_requests rl')) limit window (rl_lastClean rl'))) as (rl' & Hi & Ea).
  { unfold offered, Limit_request. simpl. destruct (one_minute <? now - rl_lastClean rl).
    - pose proof (cleanup_inv _ _ _ _ Hinv Hn) as Hc. eexists; split; [apply Hc|]. destruct Hinv as (-> & -> & _). done.
    - exists rl. destruct Hinv as (Hl & Hw & Hh & Hf). rewrite Hl, Hw. split; [|done].
      split; [done|]. split; [done|]. split; [eapply Forall_impl; [done|simpl; lia]|]. intros; apply Hf; lia. }
  destruct Hi as (Hl & Hw & Hh & Hf). rewrite Ea. simpl. rewrite Hf, recent_admitted by (done || lia).
  subst ok. destruct (Z.leb_spec limit (Z.of_nat (length (admitted_in c (now - window) now hist)))) as [Hle|Hlt].
  - rewrite (proj2 (Z.ltb_ge _ _)) by done. done.
  - rewrite (proj2 (Z.ltb_lt _ _)) by done. split; [done|]. split; [done|]. split; [done|].
    split; [apply Forall_app; split; [done|by repeat constructor]|]. intros c' cutoff Hc. simpl. unfold recent. rewrite filter_app, fmap_app.
    destruct (decide (c' = c)) as [->|Hne].
    + rewrite lookup_insert_eq. simpl. rewrite filter_app, Hf by done. f_equal. rewrite !filter_cons, !filter_nil. simpl.
      repeat case_decide; simpl; try done; lia || tauto.
    + rewrite lookup_insert_ne by done. rewrite Hf by done. rewrite filter_cons_False, filter_nil, app_nil_r; [done|].
      simpl. intros [? _]. by apply Hne.
Qed.

Lemma limiter_run_reference from hist rl reqs : limiter_inv from hist rl -> ordered from reqs ->
  limiter_run rl reqs = (reference hist reqs).1.
Proof.
  revert from hist rl. induction reqs as [|[now c] reqs IH]; intros from hist rl Hi Ho; [done|]. destruct Ho as [Hn Ho].
  destruct (admit_step from hist rl now c Hi Hn) as [E1 E2]. simpl. destruct (offered rl (now, c)) as [ok rl']. simpl in *. subst ok.
  rewrite (IH now _ _ E2 Ho). by destruct (reference _ reqs).
Qed.

Definition bounded (hist : list (Z * string)) : Prop :=
  forall c t, Z.of_nat (length (admitted_in c (t - window) t hist)) <= limit.

Lemma reference_bounded from hist reqs : Forall (fun q => q.1 <= from) hist -> bounded hist -> ordered from reqs ->
  bounded (reference hist reqs).2.
Proof.
  revert from hist. induction reqs as [|[now c] reqs IH]; intros from hist Hh Hb Ho; [done|]. destruct Ho as [Hn Ho]. simpl.
  assert (Forall (fun q => q.1 <= now) hist) as Hh' by (eapply Forall_impl; [done|simpl; lia]).
  set (n := length (admitted_in c (now - window) now hist)).
  destruct (Z.ltb_spec (Z.of_nat n) limit) as [Hlt|Hge].
  2:{ pose proof (IH now hist Hh' Hb Ho) as IHr. by destruct (reference hist reqs). }
  enough (bounded (reference (hist ++ [(now, c)]) reqs).2) as Hr by (by destruct (reference (hist ++ [(now, c)]) reqs)).
  apply (IH now); [apply Forall_app; split; [done|by repeat constructor]| |done].
  intros c' t. unfold admitted_in. rewrite filter_app, filter_cons, filter_nil. simpl. case_decide as Hd; simpl.
  2:{ rewrite app_nil_r. apply Hb. }
  destruct Hd as (<- & H1 & H2). rewrite length_app. simpl.
  assert (length (admitted_in c (t - window) t hist) <= n)%nat as Hn'; [|unfold admitted_in in Hn'; lia].
  unfold n, admitted_in. clear -Hh' H1 H2. induction Hh' as [|q hist Hq _ IH]; [done|]. rewrite !filter_cons.
  repeat case_decide; simpl; try lia; exfalso; intuition lia.
Qed.
End Limiter.

(** [C21] The limiter is the sliding window it means to be, in spite of its
    clean-up: over any sequence of requests whose instants do not go backwards it
    decides as the reference that never forgets an admitted request (go on
    iff fewer than [limit] requests of that client were admitted in the window
    that ends now), so that in every interval of the length of the window at most
    [limit] requests of a client pass, and none with a limit of zero. *)
Theorem rate_limited limit window start reqs : 0 <= limit -> ordered start reqs ->
  limiter_run (NewRateLimitMiddleware limit window start) reqs = (reference limit window [] reqs).1 /\
  forall c t, Z.of_nat (length (admitted_in c (t - window) t (reference limit window [] reqs).2)) <= limit.
Proof.
  intros Hl Ho. split.
  - apply (limiter_run_reference limit window start); [|done]. split; [done|]. split; [done|]. split; [done|].
    intros c cutoff _. simpl. by rewrite lookup_empty.
  - apply (reference_bounded limit window start); [done|by intros c t|done].
Qed.

(** ** Lemmas: tokens *)

Section GuardProofs.
Context `{Hmac} `{HashFn} `{ClaimsJSON}.

(** An API token that is accepted is a row of the table, unexpired, whose owner
    has a row; only the time of its last use changes. *)
Lemma ValidateToken_ok_inv token w user permissions w' : ValidateToken token w = (Ok (user, permissions), w') ->
  HasPrefix token APITokenPrefix = true /\
  (exists id t, t_tokens (tab (tw_db w)) !! id = Some t /\ tk_TokenHash t = hashToken token /\ tk_Permissions t = permissions /\
     t_users (tab (tw_db w)) !! tk_UserID t = Some user /\
     match tk_ExpiresAt t with Some e => db_now (base (tw_db w)) <= e | None => True end) /\
  t_users (tab (tw_db w')) = t_users (tab (tw_db w)) /\ t_sessions (tab (tw_db w')) = t_sessions (tab (tw_db w)).
Proof.
  unfold ValidateToken. destruct (HasPrefix token _); [|done]. intros E. split; [done|]. simpl in E.
  apply bind_ok_inv in E as (t & w1 & E1 & E).
  assert (on_tables (GetAPITokenByHash (hashToken token)) w = (Ok t, w1)) as E1'.
  { unfold instead in E1. by destruct (on_tables _ w) as [[]]; simplify_eq. }
  clear E1. unfold on_tables in E1'. destruct (GetAPITokenByHash _ _) as [r1 d1] eqn:Eg. simplify_eq.
  apply tab_scan_ok_inv in Eg as (Et & En & Eq). destruct (Eq t eq_refl) as [l Hh]. clear Eq.
  apply bind_ok_inv in E as (now & w2 & E2 & E). unfold token_now, on_tables, tab_now in E2. simpl in E2. simplify_eq.
  apply head_Some_elem_of, list_elem_of_filter in Hh as [Hh Hin]. simpl in Hin.
  unfold rows in Hin. apply list_elem_of_fmap in Hin as ([id t'] & -> & Hin). apply elem_of_map_to_list in Hin. simpl in *.
  destruct (match tk_ExpiresAt t' with Some e => e <? _ | None => false end) eqn:Ee; [done|].
  apply bind_ok_inv in E as (u & w3 & E3 & E).
  assert (on_tables (Users.GetUserByID (tk_UserID t')) (mkTokenWorld d1 (tw_ids w)) = (Ok u, w3)) as E3'.
  { unfold wrap in E3. by destruct (on_tables _ _) as [[]]; simplify_eq. }
  clear E3. unfold on_tables in E3'. simpl in E3'. destruct (Users.GetUserByID _ _) as [r3 d3] eqn:Eu. simplify_eq.
  apply tab_scan_ok_inv in Eu as (Eu & _ & Eq). destruct (Eq u eq_refl) as [l' Hu]. simpl in Hu. clear Eq.
  apply bind_ok_inv in E as ([] & w4 & E4 & E). apply ignore_ok_inv in E4. unfold mret, GoM_ret in E. injection E as -> <- <-.
  rewrite Et in Hu. split.
  - exists id, t'. split_and!; [done..|]. rewrite <-En. destruct (tk_ExpiresAt t'); [|done]. bool_to_prop. lia.
  - subst w4. rewrite <-Et, <-Eu. unfold on_tables, UpdateAPITokenLastUsed, wrap, tab_exec, mbind, GoM_bind. simpl.
    destruct (next_fault _) as [[] l2]; simpl; [done|]. by destruct (t_tokens (tab d3) !! tk_ID t').
Qed.

Definition with_service (s : Service) (w : Front) : Front := mkFront s (fr_roles w) (fr_perms w) (fr_limiter w) (fr_out w).

Lemma service_validate jwtSecret token w :
  attempt (on_service (Service_ValidateAccessToken jwtSecret token)) w =
  match ValidateAccessToken jwtSecret (clock (fr_service w)) token with
  | Ok c => (Ok (inl c), w) | Err e => (Ok (inr e), w) | Panic m => (Panic m, w) | OutOfFuel => (OutOfFuel, w)
  end.
Proof.
  destruct w as [[[[d t] i] a p] ? ? ? ?].
  change (clock _) with (db_now d). unfold attempt, on_service, Service_ValidateAccessToken, lift, mbind, GoM_bind. simpl.
  by destruct (ValidateAccessToken _ _ _).
Qed.

Lemma ValidateAccessToken_returns jwtSecret now token :
  (exists c, ValidateAccessToken jwtSecret now token = Ok c) \/ (exists e, ValidateAccessToken jwtSecret now token = Err e).
Proof.
  unfold ValidateAccessToken, open_token, mbind, Res_bind. repeat (case_match; simplify_eq); eauto.
Qed.

Lemma bearer_not_api r : extractBearerToken r <> ""%string -> extractAPIToken r = ""%string.
Proof.
  unfold extractBearerToken, extractAPIToken, extract. destruct (h_Authorization r) as [|c s]; [done|].
  unfold HasPrefix, String.prefix. rewrite !bool_decide_eq_false_2 by done.
  destruct (ascii_dec "B" c) as [<-|]; [done|]. by intros [].
Qed.
End GuardProofs.

Section Routes.
Context `{Hmac} `{HashFn} `{ClaimsJSON}.

Lemma tab_scan_safe {T A} a b (q : Ext T -> option A) : safe (tab_scan a b q).
Proof.
  intros w. unfold tab_scan, attempt, tab_query, mbind, GoM_bind. destruct (next_fault _) as [[] l]; simpl; [done|].
  by destruct (q _).
Qed.

Lemma ValidateToken_safe token : safe (ValidateToken token).
Proof.
  assert (forall A (m : GoM AuthDB A), safe m -> safe (on_tables m)) as Ht.
  { intros A m Hm w. specialize (Hm (tw_db w)). unfold on_tables. by destruct (m _). }
  assert (safe token_now) as Hn by (by intros w).
  assert (forall id t, safe (UpdateAPITokenLastUsed id t)) as Hu.
  { intros id t w. unfold UpdateAPITokenLastUsed, wrap, tab_exec, mbind, GoM_bind. destruct (next_fault _) as [[] l]; simpl; [done|].
    by destruct (t_tokens _ !! id). }
  unfold ValidateToken. safety; try (apply Ht; first [apply tab_scan_safe|apply Hu]); try apply Hn.
Qed.

Lemma service_ValidateToken_true token w :
  attempt (on_service (service_ValidateToken true token)) w =
  (let '(r, x) := ValidateToken token (sv_world (fr_service w)) in
   let w' := with_service (mkService x (sv_failedAttempts (fr_service w)) (sv_totpSessions (fr_service w))) w in
   match r with Ok a => (Ok (inl a), w') | Err e => (Ok (inr e), w') | Panic m => (Panic m, w') | OutOfFuel => (OutOfFuel, w') end).
Proof.
  unfold attempt, on_service, service_ValidateToken, on_world. by destruct (ValidateToken _ _) as [[] x].
Qed.

Lemma require_auth_some next r w : GetUserIDFromRequest r <> ""%string -> RequireAuth next r w = next r w.
Proof. intros Hr. unfold RequireAuth. by rewrite bool_decide_eq_false_2. Qed.

Lemma require_auth_none next r w : GetUserIDFromRequest r = ""%string -> RequireAuth next r w = writeError 401 "Unauthorized" w.
Proof. intros Hr. unfold RequireAuth. by rewrite bool_decide_eq_true_2. Qed.

Lemma user_of_context r u n l d : GetUserIDFromRequest (with_ctx (setUserContext (h_ctx r) u n l d) r) = u /\
  GetRolesFromRequest (with_ctx (setUserContext (h_ctx r) u n l d) r) = l.
Proof.
  unfold GetUserIDFromRequest, GetRolesFromRequest, with_ctx, setUserContext. simpl.
  split; repeat (rewrite lookup_insert_ne by done); by rewrite lookup_insert_eq.
Qed.

Lemma user_of_api_context r u n l : GetUserIDFromRequest (with_ctx (setAPIUserContext (h_ctx r) u n l) r) = u /\
  GetRolesFromRequest (with_ctx (setAPIUserContext (h_ctx r) u n l) r) = l.
Proof.
  unfold GetUserIDFromRequest, GetRolesFromRequest, with_ctx, setAPIUserContext. simpl.
  split; repeat (rewrite lookup_insert_ne by done); by rewrite lookup_insert_eq.
Qed.

Lemma with_service_id w : with_service (fr_service w) w = w.
Proof. by destruct w. Qed.

End Routes.

Section Chain.
Context `{Hmac} `{HashFn} `{ClaimsJSON}.

Lemma authenticate_ext jwtSecret hasTokenService (next next' : Handler) r w :
  media_GetUserID r = ""%string -> (forall r' w', media_GetUserID r' = ""%string -> next r' w' = next' r' w') ->
  Authenticate jwtSecret hasTokenService next r w = Authenticate jwtSecret hasTokenService next' r w.
Proof.
  intros Hr Hn.
  assert (forall u n l d, media_GetUserID (with_ctx (setUserContext (h_ctx r) u n l d) r) = ""%string) as H1'.
  { intros. rewrite <-Hr. unfold media_GetUserID, setUserContext. simpl. by rewrite !lookup_insert_ne. }
  assert (forall u n l, media_GetUserID (with_ctx (setAPIUserContext (h_ctx r) u n l) r) = ""%string) as H2'.
  { intros. rewrite <-Hr. unfold media_GetUserID, setAPIUserContext. simpl. by rewrite !lookup_insert_ne. }
  unfold Authenticate. apply bind_ext. intros [c|e] w1; [by apply Hn|]. apply bind_ext. intros [[user perms]|e'] w2; by apply Hn.
Qed.

(** [Fact] The media and preview endpoints admit nobody.  They look the user up
    under a plain string, while Authenticate stores him under the key type of the
    server: for every request that arrives without such a plain value, whatever
    its credentials, the endpoint behind Authenticate answers as one whose only
    action is the 401 response -- its own code is unreachable. *)
Theorem media_admits_nobody jwtSecret hasTokenService endpoint r w : media_GetUserID r = ""%string ->
  Authenticate jwtSecret hasTokenService (media_guard endpoint) r w =
  Authenticate jwtSecret hasTokenService (fun _ => http_Error "Unauthorized" 401) r w.
Proof.
  intros Hr. apply authenticate_ext; [done|]. intros r' w' Hr'. unfold media_guard. by rewrite bool_decide_eq_true_2.
Qed.
End Chain.

(** A state in which nothing but the response differs. *)
Definition responds (w w' : Front) (f : Writer -> Writer) : Prop :=
  w' = mkFront (fr_service w) (fr_roles w) (fr_perms w) (fr_limiter w) (f (fr_out w)).

(** [Fact] An administrator's route runs only for users whose row has the role
    admin: the roles that the token or the API token claims play no part.  Any
    other request gets 401 or 403, also when the row is missing or the driver
    fails, and the tables keep their rows. *)
Theorem admin_routes next r w :
  let uid := GetUserIDFromRequest r in
  let users := t_users (rows_of (fr_service w)) in
  exists w1, fr_out w1 = fr_out w /\ fr_limiter w1 = fr_limiter w /\ rows_of (fr_service w1) = rows_of (fr_service w) /\
    ((uid <> ""%string /\ u_Role <$> users !! uid = Some "admin"%string /\ RequireAdmin next r w = next r w1) \/
     (uid = ""%string /\ RequireAdmin next r w = writeError 401 "Unauthorized" w1) \/
     (uid <> ""%string /\ RequireAdmin next r w = writeError 403 "Admin access required" w1)).
Proof.
  intros uid users. subst uid users. unfold RequireAdmin. destruct (bool_decide (GetUserIDFromRequest r = ""%string)) eqn:Eb.
  { apply bool_decide_eq_true in Eb. exists w. split_and!; auto. }
  apply bool_decide_eq_false in Eb. unfold mbind, GoM_bind, attempt, on_rbac, IsAdmin, HasRole, mbind, GoM_bind, in_db. simpl.
  unfold mbind, GoM_bind. destruct (Users.GetUserByID _ _) as [ru d] eqn:Eu.
  apply tab_scan_ok_inv in Eu as Eu'. destruct Eu' as (Et & _ & Eq). unfold rows_of in *.
  assert (safe (Users.GetUserByID (GetUserIDFromRequest r))) as Hs by apply tab_scan_safe.
  specialize (Hs (tw_db (sv_world (fr_service w)))). rewrite Eu in Hs. destruct ru as [u|e| |]; simpl in Hs |- *; try done.
  - destruct (Eq u eq_refl) as [l Hu]. simpl in Hu. rewrite Hu. destruct (bool_decide (u_Role u = "admin"%string)) eqn:Er.
    + apply bool_decide_eq_true in Er. eexists. split_and!; [| | |left; split_and!; [done|by simpl; rewrite Er|reflexivity]]; done.
    + eexists. split_and!; [| | |right; right; split; [done|reflexivity]]; done.
  - eexists. split_and!; [| | |right; right; split; [done|reflexivity]]; done.
Qed.

(** Headers set before the router runs. *)
Definition prepared (w w1 : Front) : Prop :=
  fr_service w1 = fr_service w /\ fr_roles w1 = fr_roles w /\ fr_perms w1 = fr_perms w /\ fr_limiter w1 = fr_limiter w /\
  w_status (fr_out w1) = w_status (fr_out w) /\ w_body (fr_out w1) = w_body (fr_out w).

Definition allow_origin : string := "Access-Control-Allow-Origin".

Lemma SecurityHeaders_runs next r w : exists w1, prepared w w1 /\ SecurityHeadersMiddleware next r w = next r w1 /\
  w_headers (fr_out w1) !! allow_origin = w_headers (fr_out w) !! allow_origin.
Proof.
  unfold SecurityHeadersMiddleware, mbind, GoM_bind, respond, on_out. simpl.
  destruct (h_TLS r || _); simpl; eexists; (split; [|split; [reflexivity|]]); [done| |done|]; simpl; by rewrite !lookup_insert_ne by done.
Qed.

Lemma CORS_runs next origins r w : exists w1, prepared w w1 /\
  CORSMiddleware next origins r w =
    (if bool_decide (h_Method r = "OPTIONS"%string) then respond (C_status 200) w1 else next r w1) /\
  w_headers (fr_out w1) !! allow_origin =
    if isOriginAllowed (h_Origin r) origins then Some (h_Origin r) else w_headers (fr_out w) !! allow_origin.
Proof.
  unfold CORSMiddleware, mbind, GoM_bind, respond, on_out. simpl.
  destruct (isOriginAllowed _ _); simpl; eexists; (split; [|split; [by destruct (bool_decide _)|]]); [done| |done|done].
  simpl. rewrite !lookup_insert_ne by done. by rewrite lookup_insert_eq.
Qed.

Lemma http_Error_outcome msg code w : w_status (fr_out w) = None ->
  let x := http_Error msg code w in x.1 = Ok tt /\ w_status (fr_out x.2) = Some code /\ fr_service x.2 = fr_service w.
Proof.
  intros Hw. unfold http_Error, mbind, GoM_bind, respond, on_out. simpl. unfold write_piece, send_status. simpl. rewrite Hw.
  by destruct (next_fault _) as [[] l].
Qed.

Lemma recovery_no_panic next r w m : (RecoveryMiddleware next r w).1 <> Panic m.
Proof. unfold RecoveryMiddleware. by destruct (next r w) as [[] w']. Qed.

Lemma limit_no_panic next r w m : (forall r w m, (next r w).1 <> Panic m) -> (Limit next r w).1 <> Panic m.
Proof. intros Hn. unfold Limit. destruct (Limit_request _ _ _) as [[] rl]; [apply Hn|done]. Qed.

(** [C37] What the chain around the router guarantees, for any router: no panic
    leaves it; a preflight request is answered 200 without the limiter or the
    router, and names the origin back exactly if the list allows it; a request
    that the limiter refuses gets 429 and never reaches the router; and where the
    router panics before it has answered, the client gets a 500. *)
Theorem front_chain rateLimited origins router r w : w_status (fr_out w) = None ->
  w_headers (fr_out w) !! allow_origin = None ->
  let '(res, w') := wrapMiddleware rateLimited origins router r w in
  (forall m, res <> Panic m) /\
  (h_Method r = "OPTIONS"%string ->
     res = Ok tt /\ w_status (fr_out w') = Some 200 /\ fr_service w' = fr_service w /\ fr_limiter w' = fr_limiter w /\
     w_headers (fr_out w') !! allow_origin = if isOriginAllowed (h_Origin r) origins then Some (h_Origin r) else None) /\
  (h_Method r <> "OPTIONS"%string ->
     if rateLimited && negb (Limit_request (h_now r) (getRateLimitClientID r) (fr_limiter w)).1
     then res = Ok tt /\ w_status (fr_out w') = Some 429 /\ fr_service w' = fr_service w
     else (forall w1, fr_service w1 = fr_service w -> w_status (fr_out w1) = None ->
             exists m, (router r w1).1 = Panic m /\ w_status (fr_out (router r w1).2) = None) ->
          res = Ok tt /\ w_status (fr_out w') = Some 500).
Proof.
  intros Hs Ho. unfold wrapMiddleware. set (handler := if rateLimited then _ else _).
  destruct (SecurityHeaders_runs (CORSMiddleware handler origins) r w) as (w1 & (E1 & _ & _ & E2 & E3 & _) & -> & Ha).
  destruct (CORS_runs handler origins r w1) as (w2 & (F1 & _ & _ & F2 & F3 & _) & -> & Hb).
  assert (w_status (fr_out w2) = None) as Hs2 by (rewrite F3, E3; exact Hs).
  destruct (bool_decide (h_Method r = "OPTIONS"%string)) eqn:Em.
  - apply bool_decide_eq_true in Em. simpl. rewrite Hs2. split; [done|]. split; [|done]. intros _. split_and!; try congruence; try done.
    rewrite Hb, Ha, Ho. done.
  - apply bool_decide_eq_false in Em. destruct (handler r w2) as [res w'] eqn:Eh. split.
    { intros m ->. assert ((handler r w2).1 <> Panic m) as Hn; [|by rewrite Eh in Hn]. unfold handler.
      destruct rateLimited; [apply limit_no_panic; intros; apply recovery_no_panic|apply recovery_no_panic]. }
    split; [done|]. intros _.
    assert (forall w3, fr_service w3 = fr_service w -> w_status (fr_out w3) = None -> RecoveryMiddleware router r w3 = (res, w') ->
      (forall w1, fr_service w1 = fr_service w -> w_status (fr_out w1) = None ->
        exists m, (router r w1).1 = Panic m /\ w_status (fr_out (router r w1).2) = None) -> res = Ok tt /\ w_status (fr_out w') = Some 500) as Hrec.
    { intros w3 H1 H2 Er Hp. destruct (Hp w3 H1 H2) as (m & Hm & Hst). unfold RecoveryMiddleware in Er.
      destruct (router r w3) as [rr wr]. simpl in Hm, Hst. subst rr.
      destruct (http_Error_outcome (error_text "Internal server error") 500 wr Hst) as (Ea & Eb & _).
      rewrite Er in Ea, Eb. done. }
    unfold handler in Eh. destruct rateLimited; simpl; [|apply (Hrec w2); [congruence|done|done]].
    unfold Limit in Eh. rewrite F2, E2 in Eh. destruct (Limit_request _ _ _) as [[] rl]; simpl.
    + apply (Hrec (mkFront (fr_service w2) (fr_roles w2) (fr_perms w2) rl (fr_out w2))); simpl; [congruence|done|done].
    + destruct (http_Error_outcome (error_text "Rate limit exceeded") 429 (mkFront (fr_service w2) (fr_roles w2) (fr_perms w2) rl (fr_out w2)) Hs2)
        as (Ea & Eb & Ec). rewrite Eh in Ea, Eb, Ec. simpl in *. split_and!; congruence.
Qed.

(** ** Witnesses *)

Section Witnesses.
#[local] Existing Instance cut_hash.
#[local] Existing Instance cut_hmac.
#[local] Existing Instance toy_claims.

Definition no_response : Writer := mkWriter ∅ None [] [].

Lemma captured_status_witness :
  let rw := foldl (fun rw c => rw_call c rw) (wrap_writer no_response) [C_header "A" "b"; C_write (Raw []); C_status 500] in
  rw_statusCode rw = 200.
Proof.
  destruct (captured_status [C_header "A" "b"; C_write (Raw []); C_status 500] no_response eq_refl) as [_ E]. exact E.
Defined.

Definition four : list (Z * string) := [(0, "a"); (1, "a"); (2, "b"); (3, "a")]%string.

Lemma rate_limited_witness :
  limiter_run (NewRateLimitMiddleware 2 10 0) four = [true; true; true; false] /\
  Z.of_nat (length (admitted_in "a" (4 - 10) 4 (reference 2 10 [] four).2)) <= 2.
Proof.
  destruct (rate_limited 2 10 0 four) as [E Hb]; [lia|repeat split; lia|]. split; [rewrite E; by vm_compute|apply Hb].
Defined.

Definition front0 : Front := mkFront service0 ∅ ∅ (NewRateLimitMiddleware 10 10 0) no_response.
Definition signed_request : HttpRequest :=
  mkHttp "GET" "/" ("Bearer " +:+ GenerateAccessToken [x41] 50 some_access) "" "1.2.3.4:5" "" false "" ∅ 0.
Definition accepting : Handler := fun _ => respond (C_status 204).


Lemma media_witness :
  Authenticate [x41] false (media_guard accepting) signed_request front0 =
  Authenticate [x41] false (fun _ => http_Error "Unauthorized" 401) signed_request front0.
Proof. exact (media_admits_nobody [x41] false accepting signed_request front0 eq_refl). Defined.

Lemma front_chain_witness :
  let '(res, w') := wrapMiddleware true [] (fun _ => panic "boom") signed_request front0 in
  res = Ok tt /\ w_status (fr_out w') = Some 500.
Proof.
  pose proof (front_chain true [] (fun _ => panic "boom") signed_request front0 eq_refl eq_refl) as Hc.
  destruct (wrapMiddleware _ _ _ _ _) as [res w']. destruct Hc as (_ & _ & Hc).
  assert (h_Method signed_request <> "OPTIONS"%string) as Hm by done. specialize (Hc Hm).
  assert ((Limit_request (h_now signed_request) (getRateLimitClientID signed_request) (fr_limiter front0)).1 = true) as El
    by (vm_compute; reflexivity).
  rewrite El in Hc. apply Hc. intros w1 _ Hs. exists "boom"%string. done.
Defined.
End Witnesses.
