(* ===== verification/WebDav.v ===== *)
(** * WebDAV (internal/webdav/handler.go; the credential check of internal/server/server.go)

    A request runs alone, from its first statement to its last, on the server
    state, the response and the table of locks.  Durations and the instants of the
    locks are nanoseconds.  An error response ends a handler: it is the error
    [ErrHTTP]. *)

From S2P Require Import Prelude GoStrings GoCrypto Encoding Crypto Chunker Storage Encrypted Database Devices Users Password AuthService Vfs Server Upload Download Transfer Middleware FileApi.

(** ** Locks *)

Record Lock := mkLock { lk_Token : string; lk_UserID : string; lk_ExpiresAt : Z; lk_IsNull : bool }.

Notation LockStore := (gmap string Lock).

Definition LockStore_Lock (now : Z) (resourceID token userID : string) (duration : Z) (isNull : bool) (s : LockStore) : LockStore :=
  <[resourceID := mkLock token userID (now + duration) isNull]> s.

(** The first lock with the token and the user, in the unspecified order of the map. *)
Definition LockStore_Unlock (token userID : string) (s : LockStore) : bool * LockStore :=
  match filter (fun kv => lk_Token kv.2 = token /\ lk_UserID kv.2 = userID) (map_to_list s) with
  | (resourceID, _) :: _ => (true, delete resourceID s)
  | [] => (false, s)
  end.

Definition IsLocked (now : Z) (resourceID : string) (s : LockStore) : bool :=
  match s !! resourceID with Some lock => now <? lk_ExpiresAt lock | None => false end.

Definition GetLockToken (now : Z) (resourceID : string) (s : LockStore) : string * bool :=
  match s !! resourceID with Some lock => (lk_Token lock, now <? lk_ExpiresAt lock) | None => (""%string, false) end.

(** One tick of [cleanupLoop]. *)
Definition cleanup_locks (now : Z) (s : LockStore) : LockStore := filter (fun kv => now <= lk_ExpiresAt kv.2) s.

(** *** Tokens and timeouts *)

Definition default_timeout : Z := 30 * Minute.

(** [parseTimeout]; [None] is the error of [strconv.Atoi]. *)
Definition parseTimeout (s : string) : option Z :=
  if HasPrefix s "Second-" then
    seconds ← Atoi (str_drop 7 s); Some (i64 (seconds * Second))
  else Some default_timeout.

(** The fallback fills the token with one byte of the clock. *)
Definition generateLockToken (clock : Z) : GoM Rand string := fun r =>
  let '(res, r) := rand_read 16 r in
  let b := match res with Ok b => b | _ => replicate 16 (zb clock) end in
  (Ok ("opaquelocktoken:" +:+ encode_padded base64url b)%string, r).

(** [strings.Trim(s, "<>")] *)
Definition is_bracket (c : ascii) : bool := bool_decide (c = "<"%char) || bool_decide (c = ">"%char).

Fixpoint trim_brackets_left (s : string) : string :=
  match s with
  | String c s' => if is_bracket c then trim_brackets_left s' else s
  | "" => ""
  end%string.

Fixpoint trim_brackets_right (s : string) : string :=
  match s with
  | "" => ""
  | String c s' =>
      match trim_brackets_right s' with
      | "" => if is_bracket c then "" else String c ""
      | t => String c t
      end
  end%string.

Definition trim_brackets (s : string) : string := trim_brackets_right (trim_brackets_left s).

(** ** Names and paths *)

(** [strings.SplitN(s, sep, 2)], when it has two parts. *)
Definition SplitN2 (s sep : string) : option (string * string) :=
  match index_str sep s 0 with
  | Some i => Some (str_take i s, str_drop (i + len sep) s)
  | None => None
  end.

(** The path after the host of the Destination header. *)
Definition parseDestination (dest : string) : string :=
  match SplitN2 dest "://" with
  | None => ""
  | Some (_, rest) => match SplitN2 rest "/" with None => "" | Some (_, p) => String slash p end
  end%string.

(** [path.Ext]: from the last dot of the last element. *)
Definition path_Ext (p : string) : string :=
  let base := str_drop (Z.to_nat (LastIndex p slash + 1)) p in
  let i := LastIndex base "."%char in
  if i <? 0 then ""%string else str_drop (Z.to_nat i) base.

(** [strings.ToLower] as far as it can yield one of the extensions below: besides
    A to Z only U+0130 (0xC4 0xB0) has a lower case letter of ASCII that occurs
    in them. *)
Fixpoint lower_ext (s : string) : string :=
  match s with
  | "" => ""
  | String c s =>
      match s with
      | String d s' =>
          if (N_of_ascii c =? 196)%N && (N_of_ascii d =? 176)%N then String "i" (lower_ext s')
          else String (lower c) (lower_ext s)
      | "" => String (lower c) ""
      end
  end%string.

Definition detectContentType (filename : string) : string :=
  let ext := lower_ext (path_Ext filename) in
  let one_of (l : list string) := bool_decide (ext ∈ l) in
  if one_of [".txt"] then "text/plain"
  else if one_of [".html"; ".htm"] then "text/html"
  else if one_of [".css"] then "text/css"
  else if one_of [".js"] then "application/javascript"
  else if one_of [".json"] then "application/json"
  else if one_of [".xml"] then "application/xml"
  else if one_of [".pdf"] then "application/pdf"
  else if one_of [".png"] then "image/png"
  else if one_of [".jpg"; ".jpeg"] then "image/jpeg"
  else if one_of [".gif"] then "image/gif"
  else if one_of [".svg"] then "image/svg+xml"
  else if one_of [".zip"] then "application/zip"
  else "application/octet-stream"%string.

(** ** Documents (xml.go) *)

Record Property := mkProperty { pr_Name : string; pr_Value : string; pr_IsResourceType : bool }.
Record Response := mkResponse { rs_Href : string; rs_Property : list Property }.

Definition xml_header : string := ("<?xml version=" +:+ quoted "1.0" +:+ " encoding=" +:+ quoted "UTF-8" +:+ "?>" +:+ String "010" "")%string.

(** The encoding of a multistatus document.  The tag of the field
    [Response.Property], propstat>prop>, ends with the separator: encoding/xml
    refuses the type, so that a document with a response has no encoding. *)
Definition encode_multistatus (responses : list Response) : option string :=
  match responses with
  | [] => Some ("<multistatus xmlns:d=" +:+ quoted "DAV:" +:+ "></multistatus>")%string
  | _ => None
  end.

(** ** Requests and state *)

(** [q_user] is the value that the request context holds under the plain key, and
    [q_timeout] the timeout attribute that the body of a LOCK decodes to. *)
Record dav_request := mkDavRequest {
  q_Method : string; q_Path : string; q_user : string; q_BasicAuth : option (string * string); q_IfNoneMatch : string;
  q_Depth : string; q_Destination : string; q_Overwrite : string; q_If : string; q_LockToken : string; q_ContentLength : Z;
  q_body : reader; q_timeout : string
}.

Record Dav (S : Type) := mkDav { dv_conn : Server S * Writer; dv_locks : LockStore }.
Arguments mkDav {S}.
Arguments dv_conn {S}.
Arguments dv_locks {S}.

(** ** Credentials (internal/server/server.go)

    The validator that [setupRoutes] installs. *)

Section Credentials.
Context `{Hmac} `{HashFn} `{Sha512}.

Definition webdav_credentials (username password : string) : GoM AuthDB (string * bool) :=
  r ← attempt (GetUserByUsername username);
  match r with
  | inr _ => mret (""%string, false)
  | inl user =>
      if negb (bool_decide (u_Status user = "active"%string)) then mret (""%string, false)
      else if u_TOTPEnabled user then mret (""%string, false)
      else
        v ← attempt (lift (VerifyPassword password (u_PasswordHash user)));
        mret (match v with inl true => (u_ID user, true) | _ => (""%string, false) end)
  end.
End Credentials.

(** ** The handler *)

Section Handler.
Context `{HashFn} {S : Type} `{Backend S}.

(** The layouts of dates, the text of an error, the escaping of XML; the base path,
    the chunker, the name of the store and the validator, if one was set; the
    bound for the recursion of [Copy]. *)
Context (http_time rfc3339 : Z -> string) (err_text : error -> string) (xml_escape : string -> string).
Context (basePath : string) (chunker : Chunker) (storageType : string).
Context (validateCreds : option (string -> string -> string * bool)) (fuel : nat).

Definition on_conn {A} (m : GoM (@D S) A) : GoM (Dav S) A := fun w =>
  let '(r, c) := m (dv_conn w) in (r, mkDav c (dv_locks w)).
Definition on_dav_server {A} (m : GoM (Server S) A) : GoM (Dav S) A := on_conn (on_server m).
Definition on_dav_db {A} (m : GoM DB A) : GoM (Dav S) A := on_dav_server (on_db m).

Definition say (c : writer_call) : GoM (Dav S) unit := on_conn (on_writer (fun w => (Ok tt, plain_call c w))).
Definition say_or_fail (p : piece) : GoM (Dav S) unit := on_conn (on_writer (write_piece p)).

(** [time.Now()] in nanoseconds. *)
Definition dav_now : GoM (Dav S) Z := t ← on_dav_server now; mret (t * Second).

Definition get_locks : GoM (Dav S) LockStore := fun w => (Ok (dv_locks w), w).
Definition set_locks (s : LockStore) : GoM (Dav S) unit := fun w => (Ok tt, mkDav (dv_conn w) s).

Definition is_locked (resourceID : string) : GoM (Dav S) bool :=
  t ← dav_now; s ← get_locks; mret (IsLocked t resourceID s).

(** [h.sendError(w, status, message); return] *)
Definition sendError {A} (status : Z) (message : string) : GoM (Dav S) A :=
  say (C_header "Content-Type" "text/plain; charset=utf-8");;
  say (C_status status);;
  say (C_write (Raw (bytes_of (ReplaceAll (ReplaceAll message "<" "") ">" ""))));;
  fail (ErrHTTP status message).

Definition or_send {A} (m : GoM (Dav S) A) (status : Z) (message : string) : GoM (Dav S) A :=
  r ← attempt m; match r with inl a => mret a | inr _ => sendError status message end.

Definition getUserID (r : dav_request) : string :=
  if negb (bool_decide (q_user r = ""%string)) then q_user r
  else match validateCreds, q_BasicAuth r with
       | Some validate, Some (username, password) =>
           let '(userID, valid) := validate username password in if valid then userID else ""%string
       | _, _ => ""%string
       end.

(** [userID := h.getUserID(r); if userID == "" { ... }] *)
Definition dav_user (r : dav_request) : GoM (Dav S) string :=
  let userID := getUserID r in
  if bool_decide (userID = ""%string) then sendError 401 "Authentication required" else mret userID.

(** The folder that stands for "/". *)
Definition root_folder (userID : string) (t : Z) : File :=
  mkFileRow "" userID None "root" "folder" 0 "" None None false [] false None 0 t t.

Fixpoint walk_parts (userID parentID : string) (parts : list string) : GoM DB File :=
  match parts with
  | [] => fail ErrNotFound
  | part :: rest =>
      file ← VFS_GetFileByPath userID parentID part;
      match rest with
      | [] => mret file
      | _ => if negb (bool_decide (f_Type file = "folder"%string)) then fail ErrNotFound
             else walk_parts userID (f_ID file) rest
      end
  end.

Definition getFileByPath (userID webdavPath : string) : GoM DB File := fun d =>
  if bool_decide (webdavPath = "/"%string) || bool_decide (webdavPath = ""%string) then (Ok (root_folder userID (db_now d)), d)
  else walk_parts userID "" (split_char slash (Trim webdavPath slash)) d.

(** [if err == vfs.ErrNotFound { ... } else { h.sendError(w, 500, err.Error()) }] *)
Definition found_or (userID webdavPath : string) (status : Z) (message : string) : GoM (Dav S) File :=
  r ← attempt (on_dav_db (getFileByPath userID webdavPath));
  match r with
  | inl file => mret file
  | inr ErrNotFound => sendError status message
  | inr e => sendError 500 (err_text e)
  end.

(** *** Reading *)

Fixpoint streamChunks (chunks : list string) : GoM (Dav S) unit :=
  match chunks with
  | [] => mret tt
  | chunkHash :: chunks =>
      r ← attempt (on_dav_server (on_store (Get chunkHash)));
      match r with
      | inr e =>
          forM (error_calls "Failed to read file data" 500) say;;
          fail (Wrapf ("failed to get chunk " +:+ chunkHash) e)
      | inl data =>
          wrap "failed to write chunk data" (say_or_fail (Raw data));;
          streamChunks chunks
      end
  end.

Definition handleOptions : GoM (Dav S) unit :=
  say (C_header "Allow" "OPTIONS, GET, HEAD, PUT, DELETE, PROPFIND, PROPPATCH, MKCOL, COPY, MOVE, LOCK, UNLOCK");;
  say (C_header "DAV" "1, 2");;
  say (C_status 200).

Definition handleGet (r : dav_request) (webdavPath : string) : GoM (Dav S) unit :=
  userID ← dav_user r;
  file ← found_or userID webdavPath 404 "Resource not found";
  if bool_decide (f_Type file = "folder"%string) then sendError 405 "Cannot GET a folder"
  else
    say (C_header "Content-Type" (f_MimeType file));;
    say (C_header "Content-Length" (pretty (f_SizeBytes file)));;
    say (C_header "Last-Modified" (http_time (f_UpdatedAt file)));;
    (match f_Checksum file with Some c => say (C_header "ETag" (quoted c)) | None => mret tt end);;
    if match f_Checksum file with
       | Some c => negb (bool_decide (q_IfNoneMatch r = ""%string)) && bool_decide (q_IfNoneMatch r = quoted c)
       | None => false
       end
    then say (C_status 304)
    else match f_ManifestID file with
         | None | Some ""%string => sendError 400 "File has no content"
         | Some mid =>
             manifest ← or_send (on_dav_db (GetManifest mid)) 500 "Failed to get file manifest";
             say (C_status 200);;
             ignore (streamChunks (m_Chunks manifest))
         end.

(** *** Writing *)

Definition root_like (dirPath : string) : bool := bool_decide (dirPath = "/"%string) || bool_decide (dirPath = "."%string).

Definition maxUploadSize : Z := 10 * 1024 * 1024 * 1024.

(** The chunks of a PUT are stored by the same statements as those of an upload. *)
Definition put_chunks : nat -> list ChunkInfo -> list bytes -> GoM (Server S) (list string) := process_chunks storageType.

Definition put_error {A} (m : GoM (Server S) A) : GoM (Dav S) A :=
  r ← attempt (on_dav_server m);
  match r with inl a => mret a | inr (ErrHTTP code msg) => sendError code msg | inr e => fail e end.

Definition handlePut (r : dav_request) (webdavPath : string) : GoM (Dav S) unit :=
  userID ← dav_user r;
  let dirPath := path_Dir webdavPath in
  let fileName := path_Base webdavPath in
  parentID ← (if root_like dirPath then mret ""%string
              else parent ← found_or userID dirPath 409 "Parent directory does not exist"; mret (f_ID parent));
  e ← attempt (on_dav_db (getFileByPath userID webdavPath));
  let existing := match e with inl f => Some f | inr _ => None end in
  if maxUploadSize <? q_ContentLength r then sendError 413 "File too large"
  else
    data ← or_send (lift (read_limited maxUploadSize (q_body r))) 500 "Failed to read upload";
    let checksumStr := sha256_hex data in
    p ← or_send (lift (ChunkWithData chunker [(data, None)])) 500 "Failed to chunk data";
    let '(cdcChunks, cdcData) := (p : list ChunkInfo * list bytes) in
    chunkHashes ← put_error (put_chunks 0 cdcChunks cdcData);
    fileID ← match existing with
             | None =>
                 file ← or_send (on_dav_db (VFS_CreateFile userID parentID fileName (detectContentType fileName) (zlen data)))
                          500 "Failed to create file";
                 mret (f_ID file)
             | Some f => mret (f_ID f)
             end;
    manifestRand ← or_send (on_dav_server (on_rand (rand_read 16))) 500 "Failed to generate manifest ID";
    let manifestID := ("manifest_" +:+ hex_encode manifestRand)%string in
    t ← on_dav_server now;
    or_send (on_dav_db (CreateManifest (mkManifestRow manifestID fileID 1 (zlen data) (zlen chunkHashes) chunkHashes checksumStr "webdav" t)))
      500 "Failed to create manifest";;
    or_send (on_dav_db (UpdateFile fileID [U_manifest_id (Some manifestID); U_size_bytes (zlen data); U_checksum (Some checksumStr);
      U_mime_type (detectContentType fileName)])) 500 "Failed to update file";;
    say (C_status (match existing with None => 201 | Some _ => 204 end)).

Definition handleDelete (r : dav_request) (webdavPath : string) : GoM (Dav S) unit :=
  userID ← dav_user r;
  file ← found_or userID webdavPath 404 "Resource not found";
  locked ← is_locked (f_ID file);
  if locked : bool then sendError 423 "Resource is locked"
  else
    or_send (on_dav_db (VFS_Delete (f_ID file))) 500 "Failed to delete";;
    say (C_status 204).

(** *** Properties *)

Definition buildPropResponse (resource : File) (href : string) : GoM (Dav S) Response :=
  t ← dav_now;
  s ← get_locks;
  let locked := IsLocked t (f_ID resource) s in
  mret (mkResponse href (
    [mkProperty "displayname" (f_Name resource) false;
     mkProperty "getlastmodified" (http_time (f_UpdatedAt resource)) false;
     mkProperty "creationdate" (rfc3339 (f_CreatedAt resource)) false] ++
    match f_Checksum resource with Some c => [mkProperty "getetag" (quoted c) false] | None => [] end ++
    (if bool_decide (f_Type resource = "file"%string) then
       [mkProperty "getcontentlength" (pretty (f_SizeBytes resource)) false;
        mkProperty "getcontenttype" (f_MimeType resource) false;
        mkProperty "resourcetype" "" false]
     else [mkProperty "resourcetype" "" true]) ++
    if locked then [mkProperty "lockdiscovery" (GetLockToken t (f_ID resource) s).1 false] else [])).

Definition sendMultiStatus (responses : list Response) : GoM (Dav S) unit :=
  say (C_header "Content-Type" "application/xml; charset=utf-8");;
  say (C_status 207);;
  say (C_write (Raw (bytes_of xml_header)));;
  match encode_multistatus responses with Some doc => say (C_write (Raw (bytes_of doc))) | None => mret tt end.

(** [path.Join] of a path and a name. *)
Definition path_Join (p name : string) : string :=
  if bool_decide (p = ""%string) then (if bool_decide (name = ""%string) then ""%string else Clean name)
  else if bool_decide (name = ""%string) then Clean p else Clean (p +:+ String slash name).

Fixpoint build_all (base : string) (children : list File) : GoM (Dav S) (list Response) :=
  match children with
  | [] => mret []
  | child :: children =>
      x ← buildPropResponse child (path_Join base (f_Name child));
      l ← build_all base children;
      mret (x :: l)
  end.

Definition handlePropFind (r : dav_request) (webdavPath : string) : GoM (Dav S) unit :=
  userID ← dav_user r;
  let depth := if bool_decide (q_Depth r = ""%string) then "infinity"%string else q_Depth r in
  f ← attempt (on_dav_db (getFileByPath userID webdavPath));
  match f with
  | inr ErrNotFound => sendMultiStatus []
  | inr e => sendError 500 (err_text e)
  | inl resource =>
      x ← buildPropResponse resource (q_Path r);
      l ← (if bool_decide (f_Type resource = "folder"%string) && negb (bool_decide (depth = "0"%string)) then
             c ← attempt (on_dav_db (VFS_ListDirectory userID (f_ID resource) (mkOpts 0 1000)));
             match c with inl children => build_all (q_Path r) children | inr _ => mret [] end
           else mret []);
      sendMultiStatus (x :: l)
  end.

Definition handlePropPatch (r : dav_request) (webdavPath : string) : GoM (Dav S) unit :=
  userID ← dav_user r;
  resource ← found_or userID webdavPath 404 "Resource not found";
  x ← buildPropResponse resource (q_Path r);
  sendMultiStatus [x].

(** *** The tree *)

(** The parent folder of a path, by its identifier. *)
Definition parent_or (userID dirPath : string) (message : string) : GoM (Dav S) string :=
  if root_like dirPath then mret ""%string
  else parent ← or_send (on_dav_db (getFileByPath userID dirPath)) 409 message; mret (f_ID parent).

Definition handleMkCol (r : dav_request) (webdavPath : string) : GoM (Dav S) unit :=
  userID ← dav_user r;
  e ← attempt (on_dav_db (getFileByPath userID webdavPath));
  match e with
  | inl _ => sendError 405 "Resource already exists"
  | inr _ =>
      parentID ← parent_or userID (path_Dir webdavPath) "Parent directory does not exist";
      c ← attempt (on_dav_db (CreateFolder userID parentID (path_Base webdavPath)));
      match c with
      | inl _ => say (C_status 201)
      | inr ErrAlreadyExists => sendError 405 "Resource already exists"
      | inr _ => sendError 500 "Failed to create folder"
      end
  end.

(** The destination of COPY and MOVE: the header, and the path it names. *)
Definition destination_path (r : dav_request) : GoM (Dav S) string :=
  if bool_decide (q_Destination r = ""%string) then sendError 400 "Destination header required"
  else
    let destPath := parseDestination (q_Destination r) in
    if bool_decide (destPath = ""%string) then sendError 400 "Invalid destination" else mret destPath.

Definition handleCopy (r : dav_request) (webdavPath : string) : GoM (Dav S) unit :=
  userID ← dav_user r;
  destPath ← destination_path r;
  source ← found_or userID webdavPath 404 "Source not found";
  destParentID ← parent_or userID (path_Dir destPath) "Destination parent does not exist";
  c ← attempt (on_dav_db (Copy fuel userID (f_ID source) destParentID (path_Base destPath)));
  match c with
  | inl _ => say (C_status 201)
  | inr ErrAlreadyExists => sendError 412 "Destination already exists"
  | inr ErrInvalidName => sendError 400 "Invalid destination name"
  | inr ErrPermissionDenied => sendError 403 "Access denied"
  | inr _ => sendError 500 "Copy failed"
  end.

Definition handleMove (r : dav_request) (webdavPath : string) : GoM (Dav S) unit :=
  userID ← dav_user r;
  destPath ← destination_path r;
  source ← found_or userID webdavPath 404 "Source not found";
  locked ← is_locked (f_ID source);
  if locked : bool then sendError 423 "Resource is locked"
  else
    destParentID ← parent_or userID (path_Dir destPath) "Destination parent does not exist";
    or_send (on_dav_db (Move (f_ID source) destParentID (path_Base destPath))) 500 "Move failed";;
    say (C_status (if bool_decide (q_Overwrite r = "F"%string) then 201 else 204)).

(** *** Locking *)

Definition encode_lock_discovery (token : string) (timeout : Z) : string :=
  ("<lockdiscovery><activelock><locktype><write>write</write></locktype><lockscope><exclusive>exclusive</exclusive></lockscope>" +:+
   "<depth>0</depth><owner><href></href></owner><timeout>Second-" +:+ pretty (Z.quot timeout Second) +:+ "</timeout><locktoken><href>" +:+
   xml_escape token +:+ "</href></locktoken><lockroot><href></href></lockroot></activelock></lockdiscovery>")%string.

Definition lock_timeout (r : dav_request) : Z :=
  if (0 <? q_ContentLength r) && negb (bool_decide (q_timeout r = ""%string))
  then default default_timeout (parseTimeout (q_timeout r)) else default_timeout.

Definition handleLock (r : dav_request) (webdavPath : string) : GoM (Dav S) unit :=
  userID ← dav_user r;
  lockToken ← (if bool_decide (q_If r = ""%string) then
                 t ← dav_now; on_dav_server (on_rand (generateLockToken t))
               else mret (q_If r));
  let timeout := lock_timeout r in
  f ← attempt (on_dav_db (getFileByPath userID webdavPath));
  t ← dav_now;
  s ← get_locks;
  match f with
  | inl resource => set_locks (LockStore_Lock t (f_ID resource) lockToken userID timeout false s)
  | inr ErrNotFound => set_locks (LockStore_Lock t webdavPath lockToken userID timeout true s)
  | inr e => sendError 500 (err_text e)
  end;;
  say (C_header "Lock-Token" ("<" +:+ lockToken +:+ ">")%string);;
  say (C_header "Content-Type" "application/xml; charset=utf-8");;
  say (C_status 200);;
  say (C_write (Raw (bytes_of (encode_lock_discovery lockToken timeout)))).

Definition handleUnlock (r : dav_request) : GoM (Dav S) unit :=
  userID ← dav_user r;
  if bool_decide (q_LockToken r = ""%string) then sendError 400 "Lock-Token header required"
  else
    s ← get_locks;
    let '(ok, s') := LockStore_Unlock (trim_brackets (q_LockToken r)) userID s in
    set_locks s';;
    if ok then say (C_status 204) else sendError 403 "Unlock failed".

Definition webdav_path (r : dav_request) : string :=
  let p := TrimPrefix (q_Path r) basePath in if bool_decide (p = ""%string) then "/"%string else p.

Definition ServeHTTP (r : dav_request) : GoM (Dav S) unit :=
  let p := webdav_path r in
  let m := q_Method r in
  say (C_header "DAV" "1, 2");;
  say (C_header "MS-Author-Via" "DAV");;
  if bool_decide (m = "OPTIONS"%string) then handleOptions
  else if bool_decide (m = "GET"%string) || bool_decide (m = "HEAD"%string) then handleGet r p
  else if bool_decide (m = "PUT"%string) then handlePut r p
  else if bool_decide (m = "DELETE"%string) then handleDelete r p
  else if bool_decide (m = "PROPFIND"%string) then handlePropFind r p
  else if bool_decide (m = "PROPPATCH"%string) then handlePropPatch r p
  else if bool_decide (m = "MKCOL"%string) then handleMkCol r p
  else if bool_decide (m = "COPY"%string) then handleCopy r p
  else if bool_decide (m = "MOVE"%string) then handleMove r p
  else if bool_decide (m = "LOCK"%string) then handleLock r p
  else if bool_decide (m = "UNLOCK"%string) then handleUnlock r
  else sendError 501 ("Method " +:+ m +:+ " not implemented").
End Handler.

(** ** Lemmas: responses leave everything else alone *)

Section Frame.
Context {S : Type}.

Definition dav_db (w : Dav S) : DB := sv_db (dv_conn w).1.

(** A property of the database alone, and of the locks alone. *)
Definition db_is (I : DB -> Prop) (w : Dav S) : Prop := I (dav_db w).

Lemma keeps_say I c : preserves (db_is I) (say (S := S) c).
Proof. intros w Hw. by destruct w as [[]]. Qed.

Lemma keeps_db {A} I (m : GoM DB A) : preserves I m -> preserves (db_is I) (on_dav_db (S := S) m).
Proof.
  intros Hm [[[d s ss] x] k] Hw. specialize (Hm d Hw). unfold db_is, dav_db, on_dav_db, on_dav_server, on_conn, on_server, on_db.
  simpl. by destruct (m d).
Qed.

Lemma keeps_lift {A} I (r : Res A) : preserves (db_is I) (lift (W := Dav S) r).
Proof. by intros w Hw. Qed.

Lemma keeps_locked I id : preserves (db_is I) (is_locked (S := S) id).
Proof. by intros [[[]]] Hw. Qed.

Lemma keeps_get_locks I : preserves (db_is I) (get_locks (S := S)).
Proof. by intros w Hw. Qed.

Lemma keeps_set_locks I s : preserves (db_is I) (set_locks (S := S) s).
Proof. by intros w Hw. Qed.

Lemma keeps_dav_now I : preserves (db_is I) (dav_now (S := S)).
Proof. by intros [[[]]] Hw. Qed.

Lemma keeps_rand {A} I (m : GoM Rand A) : (forall r d, I d -> I (with_rand r d)) -> preserves (db_is I) (on_dav_server (S := S) (on_rand m)).
Proof.
  intros HI. apply (keeps_db I (fun d => let '(r, x) := m (db_rand d) in (r, with_rand x d))). intros d Hd.
  destruct (m (db_rand d)). by apply HI.
Qed.

#[local] Hint Resolve keeps_say keeps_lift keeps_locked keeps_get_locks keeps_set_locks keeps_dav_now : preserves.

Lemma keeps_error {A} I code msg : preserves (db_is I) (@sendError S A code msg).
Proof. unfold sendError. preserve. Qed.

Lemma keeps_or_send {A} I (m : GoM (Dav S) A) code msg : preserves (db_is I) m -> preserves (db_is I) (or_send m code msg).
Proof. intros Hm. unfold or_send. preserve. apply keeps_error. Qed.
End Frame.

#[export] Hint Resolve keeps_say keeps_lift keeps_locked keeps_get_locks keeps_set_locks keeps_dav_now keeps_error : preserves.

(** ** Lemmas: runs *)

Section Runs.
Context `{HashFn} {S : Type} `{Backend S}.
Context (http_time rfc3339 : Z -> string) (err_text : error -> string) (xml_escape : string -> string).
Context (basePath : string) (chunker : Chunker) (storageType : string).
Context (validateCreds : option (string -> string -> string * bool)) (fuel : nat).
Implicit Types w : Dav S.

Definition dav_out w : Writer := (dv_conn w).2.
Definition with_out (x : Writer) w : Dav S := mkDav ((dv_conn w).1, x) (dv_locks w).
Definition with_dav_db (d : DB) w : Dav S :=
  let c := (dv_conn w).1 in mkDav (mkServer d (sv_store c) (sv_sessions c), (dv_conn w).2) (dv_locks w).

Lemma run_db {A} (m : GoM DB A) w : on_dav_db m w = ((m (dav_db w)).1, with_dav_db (m (dav_db w)).2 w).
Proof.
  destruct w as [[[d s ss] x] k]. unfold on_dav_db, on_dav_server, on_conn, on_server, on_db, with_dav_db, dav_db. simpl. by destruct (m d).
Qed.

Lemma run_say c w : say c w = (Ok tt, with_out (plain_call c (dav_out w)) w).
Proof. by destruct w as [[]]. Qed.

Lemma with_dav_db_id w : with_dav_db (dav_db w) w = w.
Proof. by destruct w as [[[]]]. Qed.

Lemma attempt_db {A} (m : GoM DB A) w r d : m (dav_db w) = (r, d) -> settles r ->
  attempt (on_dav_db m) w = (Ok (match r with Ok a => inl a | Err e => inr e | _ => inr ErrDriver end), with_dav_db d w).
Proof. intros E Hr. unfold attempt. rewrite run_db, E. by destruct r. Qed.

(** The response of an error: its state differs in the writer only. *)
Lemma run_error {A} code msg w : exists x, @sendError S A code msg w = (Err (ErrHTTP code msg), with_out x w).
Proof. eexists. unfold sendError. do 3 (rewrite (bind_ok _ _ _ _ _ (run_say _ _))). reflexivity. Qed.

Lemma run_or_send {A} (m : GoM DB A) code msg w : settles (m (dav_db w)).1 ->
  match m (dav_db w) with
  | (Ok a, d) => or_send (on_dav_db m) code msg w = (Ok a, with_dav_db d w)
  | (_, d) => exists x, or_send (on_dav_db m) code msg w = (Err (ErrHTTP code msg), with_out x (with_dav_db d w))
  end.
Proof.
  intros Hs. unfold or_send. destruct (m (dav_db w)) as [r d] eqn:E.
  rewrite (bind_ok _ _ _ _ _ (attempt_db m w r d E Hs)). destruct r as [a|e| |]; try done. apply run_error.
Qed.

Lemma run_user r w : getUserID validateCreds r <> ""%string -> dav_user validateCreds r w = (Ok (getUserID validateCreds r), w).
Proof. intros Hu. unfold dav_user. by rewrite bool_decide_eq_false_2. Qed.

Lemma run_locked id w : is_locked id w = (Ok (IsLocked (db_now (dav_db w) * Second) id (dv_locks w)), w).
Proof. by destruct w as [[[]]]. Qed.

Lemma VFS_GetFileByPath_err u p n d : settles (VFS_GetFileByPath u p n d).1 /\
  (forall e, (VFS_GetFileByPath u p n d).1 = Err e -> e = ErrNotFound).
Proof.
  assert (safe (GetFileByPath u (Some p) n)) as Hs by apply scan_row_safe. specialize (Hs d).
  unfold VFS_GetFileByPath, instead. destruct (GetFileByPath _ _ _ _) as [[] d']; simpl in *; split; try done; congruence.
Qed.

Lemma walk_parts_err u : forall parts p d, settles (walk_parts u p parts d).1 /\
  (forall e, (walk_parts u p parts d).1 = Err e -> e = ErrNotFound).
Proof.
  induction parts as [|n parts IH]; intros p d; [split; [done|]; by intros e [= <-]|].
  cbn [walk_parts]. destruct (VFS_GetFileByPath_err u p n d) as [Hs He]. unfold mbind, GoM_bind.
  destruct (VFS_GetFileByPath u p n d) as [[f|e| |] d1]; simpl in Hs, He; try done.
  destruct parts as [|m parts]; [done|]. destruct (negb _); [split; [done|]; by intros e [= <-]|]. apply IH.
Qed.

(** The only error of a lookup is [ErrNotFound]: the other responses are never sent. *)
Lemma lookup_err u path d : settles (getFileByPath u path d).1 /\ (forall e, (getFileByPath u path d).1 = Err e -> e = ErrNotFound).
Proof. unfold getFileByPath. destruct (_ || _); [done|]. apply walk_parts_err. Qed.

Lemma run_found u path code msg w :
  match getFileByPath u path (dav_db w) with
  | (Ok f, d) => found_or err_text u path code msg w = (Ok f, with_dav_db d w)
  | (_, d) => exists x, found_or err_text u path code msg w = (Err (ErrHTTP code msg), with_out x (with_dav_db d w))
  end.
Proof.
  destruct (lookup_err u path (dav_db w)) as [Hs He]. unfold found_or. destruct (getFileByPath u path (dav_db w)) as [r d] eqn:E.
  rewrite (bind_ok _ _ _ _ _ (attempt_db (getFileByPath u path) w r d E Hs)). destruct r as [f|e| |]; try done.
  rewrite (He e eq_refl). apply run_error.
Qed.
End Runs.

(** *** Computations that neither read nor change the locks *)

Section Locks.
Context `{HashFn} {S : Type} `{Backend S}.
Context (http_time rfc3339 : Z -> string) (err_text : error -> string) (xml_escape : string -> string).
Context (chunker : Chunker) (storageType : string).
Context (validateCreds : option (string -> string -> string * bool)) (fuel : nat).
Implicit Types w : Dav S.

Definition lock_free {A} (m : GoM (Dav S) A) : Prop :=
  exists k : GoM (@D S) A, forall c l, m (mkDav c l) = let '(r, c') := k c in (r, mkDav c' l).

Lemma free_conn {A} (m : GoM (@D S) A) : lock_free (on_conn m).
Proof. by exists m. Qed.

Lemma free_ret {A} (r : Res A) : lock_free (fun w => (r, w)).
Proof. by exists (fun c => (r, c)). Qed.

Lemma free_bind {A B} (m : GoM (Dav S) A) (f : A -> GoM (Dav S) B) : lock_free m -> (forall a, lock_free (f a)) -> lock_free (m ≫= f).
Proof.
  intros [k Hk] Hf.
  exists (fun c => match k c with
    | (Ok a, c') => let '(r, w) := f a (mkDav c' ∅) in (r, dv_conn w)
    | (Err e, c') => (Err e, c') | (Panic s, c') => (Panic s, c') | (OutOfFuel, c') => (OutOfFuel, c') end).
  intros c l. unfold mbind, GoM_bind. rewrite Hk. destruct (k c) as [[a|e|s|] c']; try done.
  destruct (Hf a) as [ka Ha]. rewrite !Ha. by destruct (ka c').
Qed.

Lemma free_attempt {A} (m : GoM (Dav S) A) : lock_free m -> lock_free (attempt m).
Proof. intros [k Hk]. exists (attempt k). intros c l. unfold attempt. rewrite Hk. by destruct (k c) as [[] ?]. Qed.

Lemma free_wrap {A} msg (m : GoM (Dav S) A) : lock_free m -> lock_free (wrap msg m).
Proof. intros [k Hk]. exists (wrap msg k). intros c l. unfold wrap. rewrite Hk. by destruct (k c) as [[] ?]. Qed.

Lemma free_error {A} code msg : lock_free (@sendError S A code msg).
Proof. unfold sendError. do 3 (apply free_bind; [apply free_conn|intros ?]). apply free_ret. Qed.
End Locks.

Ltac free :=
  repeat match goal with
  | |- lock_free (_ ≫= _) => apply free_bind; [|intros ?]
  | |- lock_free (mret _) => apply free_ret
  | |- lock_free (fail _) => apply free_ret
  | |- lock_free (lift _) => apply free_ret
  | |- lock_free (sendError _ _) => apply free_error
  | |- lock_free (say _) => apply free_conn
  | |- lock_free (on_dav_db _) => apply free_conn
  | |- lock_free (on_dav_server _) => apply free_conn
  | |- lock_free (attempt _) => apply free_attempt
  | |- lock_free (or_send _ _ _) => unfold or_send
  | |- lock_free (found_or _ _ _ _ _) => unfold found_or
  | |- lock_free (parent_or _ _ _) => unfold parent_or
  | |- lock_free (dav_user _ _) => unfold dav_user
  | |- lock_free (ignore _) => unfold ignore
  | |- lock_free (wrap _ _) => apply free_wrap
  | |- lock_free (let _ := _ in _) => intro
  | |- lock_free (if ?b then _ else _) => destruct b
  | |- lock_free (match ?x with _ => _ end) => destruct x
  end.

Section LockTheorems.
Context `{HashFn} {S : Type} `{Backend S}.
Context (http_time rfc3339 : Z -> string) (err_text : error -> string) (xml_escape : string -> string).
Context (chunker : Chunker) (storageType : string).
Context (validateCreds : option (string -> string -> string * bool)) (fuel : nat).
Implicit Types w : Dav S.

Lemma free_stream l : lock_free (S := S) (streamChunks l).
Proof.
  induction l as [|h l IH]; cbn [streamChunks]; free; try done; try apply free_conn.
  unfold error_calls. simpl. free.
Qed.

Lemma free_handlers r p :
  lock_free (handlePut (S := S) err_text chunker storageType validateCreds r p) /\
  lock_free (handleGet (S := S) http_time err_text validateCreds r p) /\
  lock_free (handleMkCol (S := S) validateCreds r p) /\ lock_free (handleCopy (S := S) err_text validateCreds fuel r p).
Proof.
  split_and!.
  - unfold handlePut, put_error. free.
  - unfold handleGet. free; try apply free_stream.
  - unfold handleMkCol. free.
  - unfold handleCopy, destination_path. free.
Qed.
End LockTheorems.

(** [C36] Locks protect against DELETE and MOVE and nothing else.  While a lock on
    the resource of a path is in force, DELETE and MOVE of that path are refused
    and the tables keep their rows -- also for the user who holds the lock, whose
    token no handler looks at.  PUT, GET, MKCOL and COPY on the other hand do the
    same whatever locks there are. *)
Theorem locks_bind_delete_and_move `{HashFn} {S : Type} `{Backend S} http_time err_text chunker st creds fuel r path (w : Dav S) f :
  let u := getUserID creds r in
  u <> ""%string -> quiet (dav_db w) -> getFileByPath u path (dav_db w) = (Ok f, dav_db w) ->
  IsLocked (db_now (dav_db w) * Second) (f_ID f) (dv_locks w) = true ->
  (exists x, handleDelete err_text creds r path w = (Err (ErrHTTP 423 "Resource is locked"), with_out x w)) /\
  (exists x code msg, handleMove err_text creds r path w = (Err (ErrHTTP code msg), with_out x w) /\ (code = 400 \/ code = 423)) /\
  forall (c : Server S * Writer) l l', (handlePut err_text chunker st creds r path (mkDav c l)).1 = (handlePut err_text chunker st creds r path (mkDav c l')).1 /\
    dv_conn (handlePut err_text chunker st creds r path (mkDav c l)).2 = dv_conn (handlePut err_text chunker st creds r path (mkDav c l')).2 /\
    (handleGet http_time err_text creds r path (mkDav c l)).1 = (handleGet http_time err_text creds r path (mkDav c l')).1 /\
    (handleMkCol creds r path (mkDav c l)).1 = (handleMkCol creds r path (mkDav c l')).1 /\
    (handleCopy err_text creds fuel r path (mkDav c l)).1 = (handleCopy err_text creds fuel r path (mkDav c l')).1.
Proof.
  intros u Hu Hq Hf Hl. split_and!.
  - unfold handleDelete. rewrite (bind_ok _ _ _ _ _ (run_user creds r w Hu)).
    pose proof (run_found err_text u path 404 "Resource not found" w) as E. rewrite Hf, with_dav_db_id in E.
    rewrite (bind_ok _ _ _ _ _ E), (bind_ok _ _ _ _ _ (run_locked _ _)), Hl. apply run_error.
  - unfold handleMove. rewrite (bind_ok _ _ _ _ _ (run_user creds r w Hu)). unfold destination_path.
    destruct (bool_decide (q_Destination r = ""%string)).
    { destruct (run_error (A := string) 400 "Destination header required" w) as [x E]. exists x. do 2 eexists. rewrite (bind_err _ _ _ _ _ E). split; [done|by left]. }
    cbv zeta. destruct (bool_decide (parseDestination (q_Destination r) = ""%string)).
    { destruct (run_error (A := string) 400 "Invalid destination" w) as [x E]. exists x. do 2 eexists. rewrite (bind_err _ _ _ _ _ E). split; [done|by left]. }
    rewrite bind_mret. pose proof (run_found err_text u path 404 "Source not found" w) as E. rewrite Hf, with_dav_db_id in E.
    rewrite (bind_ok _ _ _ _ _ E), (bind_ok _ _ _ _ _ (run_locked _ _)), Hl.
    destruct (run_error (A := unit) 423 "Resource is locked" w) as [x Ex]. exists x. do 2 eexists. split; [exact Ex|by right].
  - intros c l l'. destruct (free_handlers http_time err_text chunker st creds fuel r path) as ([k1 E1] & [k2 E2] & [k3 E3] & [k4 E4]).
    rewrite !E1, !E2, !E3, !E4. destruct (k1 c), (k2 c), (k3 c), (k4 c). done.
Qed.

(** *** Lock tokens *)

Lemma trim_right_clean s : no_sep "<"%char s -> no_sep ">"%char s -> trim_brackets_right (s +:+ ">") = s.
Proof.
  unfold no_sep. induction s as [|c s IH]; [done|]. simpl. intros [H1 H2]%orb_false_iff [H3 H4]%orb_false_iff.
  rewrite IH by done. destruct s; [|done]. unfold is_bracket. by rewrite H1, H3.
Qed.

Lemma trim_brackets_token c s : is_bracket c = false -> no_sep "<"%char (String c s) -> no_sep ">"%char (String c s) ->
  trim_brackets ("<" +:+ String c s +:+ ">") = String c s.
Proof. intros Hc H1 H2. unfold trim_brackets. simpl. rewrite Hc. by apply (trim_right_clean (String c s)). Qed.

Lemma no_sep_app c s t : no_sep c s -> no_sep c t -> no_sep c (s +:+ t).
Proof. unfold no_sep. induction s as [|d s IH]; [done|]. simpl. intros [-> Hs]%orb_false_iff Ht. by apply IH. Qed.

Lemma no_sep_repeat c d n : c <> d -> no_sep c (repeat_char d n).
Proof. intros Hne. induction n as [|n IH]; [done|]. unfold no_sep in *. simpl. rewrite IH, orb_false_r. by apply bool_decide_eq_false. Qed.

Lemma generated_token t r : exists tok r', generateLockToken t r = (Ok tok, r') /\ trim_brackets ("<" +:+ tok +:+ ">") = tok.
Proof.
  unfold generateLockToken. destruct (rand_read 16 r) as [res r']. do 2 eexists. split; [done|].
  set (b := match res with Ok b => b | _ => _ end). apply trim_brackets_token; [done|..].
  all: apply (no_sep_app _ "opaquelocktoken:"); [done|]; unfold encode_padded; apply no_sep_app;
    [apply (encoded_no_sep _ base64url_ok); vm_compute; reflexivity|by apply no_sep_repeat].
Qed.

Lemma unlock_one (k : LockStore) id lk : k !! id = Some lk ->
  (forall j l, k !! j = Some l -> lk_Token l = lk_Token lk -> lk_UserID l = lk_UserID lk -> j = id) ->
  LockStore_Unlock (lk_Token lk) (lk_UserID lk) k = (true, delete id k).
Proof.
  intros Hk Hu. unfold LockStore_Unlock.
  destruct (filter (fun kv => lk_Token kv.2 = lk_Token lk /\ lk_UserID kv.2 = lk_UserID lk) (map_to_list k)) as [|[j l] rest] eqn:E.
  - assert ((id, lk) ∈ ([] : list (string * Lock))) as Hin; [|by apply not_elem_of_nil in Hin].
    rewrite <-E. apply list_elem_of_filter. split; [done|]. by apply elem_of_map_to_list.
  - assert ((j, l) ∈ (j, l) :: rest) as Hin by by left. rewrite <-E in Hin.
    apply list_elem_of_filter in Hin as [[Ht Hus] Hin]. apply elem_of_map_to_list in Hin. simpl in *. by rewrite (Hu j l).
Qed.

(** [Fact] Unlocking undoes locking.  For a LOCK without a token of its own on a path
    that resolves, the response names a fresh token in its Lock-Token header, the
    resource is locked for the user from now to the end of the timeout, and no
    other lock changes; and an UNLOCK by the same user that sends that header back
    answers 204 and removes exactly this lock, provided no other lock of the user
    has the same token. *)
Theorem lock_unlock_roundtrip `{HashFn} {S : Type} `{Backend S} err_text xml_escape creds r r' path (w : Dav S) f :
  let u := getUserID creds r in
  u <> ""%string -> getUserID creds r' = u -> q_If r = ""%string -> w_status (dav_out w) = None ->
  (forall x, getFileByPath u path (with_rand x (dav_db w)) = (Ok f, with_rand x (dav_db w))) ->
  exists tok w1, handleLock err_text xml_escape creds r path w = (Ok tt, w1) /\
    w_headers (dav_out w1) !! "Lock-Token"%string = Some ("<" +:+ tok +:+ ">")%string /\ w_status (dav_out w1) = Some 200 /\
    dv_locks w1 = <[f_ID f := mkLock tok u (db_now (dav_db w) * Second + lock_timeout r) false]> (dv_locks w) /\
    ((forall k l, dv_locks w !! k = Some l -> lk_Token l = tok -> lk_UserID l = u -> k = f_ID f) ->
     q_LockToken r' = ("<" +:+ tok +:+ ">")%string ->
     forall x, w_status x = None -> exists w2, handleUnlock creds r' (with_out x w1) = (Ok tt, w2) /\
       w_status (dav_out w2) = Some 204 /\ dv_locks w2 = delete (f_ID f) (dv_locks w)).
Proof.
  intros u Hu Hu' Hif Hst Hf. destruct w as [[[d s ss] x0] k]. unfold dav_db, dav_out in *. simpl in Hst, Hf.
  destruct (generated_token (db_now d * Second) (db_rand d)) as (tok & rr & Eg & Ht).
  exists tok. eexists. split.
  { unfold handleLock. rewrite (bind_ok _ _ _ _ _ (run_user creds r _ Hu)). rewrite bool_decide_eq_true_2 by done.
    unfold dav_now, on_dav_server, on_conn, on_server, on_rand, on_db, attempt, on_dav_db, get_locks, set_locks, say, on_writer, now,
      mbind, GoM_bind. simpl. unfold on_dav_server, on_conn, on_server, on_db. simpl. rewrite Eg. simpl.
    unfold on_dav_server, on_conn, on_server, on_db. simpl. rewrite Hf. simpl. reflexivity. }
  simpl. unfold write_piece, send_status. simpl. rewrite Hst. destruct (next_fault (w_faults x0)) as [flt l]. simpl.
  split; [by destruct flt; simpl; rewrite lookup_insert_ne, lookup_insert_eq by done|]. split; [by destruct flt|]. split; [done|].
  intros Huniq Hlt x Hx. unfold handleUnlock. rewrite <-Hu' in Hu. rewrite (bind_ok _ _ _ _ _ (run_user creds r' _ Hu)).
  rewrite Hlt, bool_decide_eq_false_2 by done. rewrite Ht. simpl.
  unfold get_locks, set_locks, say, on_conn, on_writer, mbind, GoM_bind. simpl.
  unfold LockStore_Lock. rewrite Hu'. set (lk := mkLock tok u (db_now d * Second + lock_timeout r) false).
  rewrite (unlock_one (<[f_ID f := lk]> k) (f_ID f) lk); [|by rewrite lookup_insert_eq|].
  2:{ intros j l1 Hj Htk Hus. destruct (decide (j = f_ID f)) as [|Hne]; [done|]. rewrite lookup_insert_ne in Hj by done. by apply (Huniq _ _ Hj). }
  eexists. split; [reflexivity|]. simpl. unfold send_status. simpl. rewrite Hx. split; [done|].
  by rewrite delete_insert_eq.
Qed.

(** *** Listings *)

Section Listing.
Context `{HashFn} {S : Type} `{Backend S}.
Context (http_time rfc3339 : Z -> string) (err_text : error -> string) (creds : option (string -> string -> string * bool)).
Implicit Types w : Dav S.

Lemma build_same resource href w : exists x, buildPropResponse http_time rfc3339 resource href w = (Ok x, w).
Proof. destruct w as [[[d s ss] x] k]. by eexists. Qed.

Lemma build_all_same base l w : exists x, build_all http_time rfc3339 base l w = (Ok x, w).
Proof.
  induction l as [|c l IH]; [by exists []|]. cbn [build_all]. destruct (build_same c (path_Join base (f_Name c)) w) as [x E].
  rewrite (bind_ok _ _ _ _ _ E). destruct IH as [xs E']. rewrite (bind_ok _ _ _ _ _ E'). by eexists.
Qed.

Lemma send_multi responses w : w_faults (dav_out w) = [] -> exists h, sendMultiStatus responses w =
  (Ok tt, with_out (mkWriter h (match w_status (dav_out w) with None => Some 207 | s => s end)
    (w_body (dav_out w) ++ Raw (bytes_of xml_header) ::
       match encode_multistatus responses with Some doc => [Raw (bytes_of doc)] | None => [] end) []) w).
Proof.
  intros Hf. exists (<["Content-Type"%string := "application/xml; charset=utf-8"%string]> (w_headers (dav_out w))).
  destruct w as [[s [h st b fl]] k]. unfold dav_out in Hf. simpl in Hf. subst fl.
  unfold sendMultiStatus. do 3 (rewrite (bind_ok _ _ _ _ _ (run_say _ _))).
  unfold dav_out, with_out, send_status. simpl. destruct (encode_multistatus responses); [rewrite run_say|];
    unfold dav_out, with_out, send_status; simpl; destruct st; simpl; rewrite <-?app_assoc; reflexivity.
Qed.

Lemma ListDirectory_safe u p o : safe (VFS_ListDirectory u p o).
Proof. unfold VFS_ListDirectory, ListDirectory. apply safe_wrap, safe_wrap, sql_query_safe. Qed.
End Listing.

(** [Fact] PROPFIND lists nothing.  For every resource that exists, whatever the
    depth and whatever lies below it, the 207 response consists of the XML
    declaration alone -- the document behind it has no encoding -- while a path that
    does not exist gets a complete, empty multistatus document. *)
Theorem propfind_lists_nothing {S : Type} http_time rfc3339 err_text creds r path (w : Dav S) :
  let u := getUserID creds r in
  u <> ""%string -> w_status (dav_out w) = None -> w_body (dav_out w) = [] -> w_faults (dav_out w) = [] ->
  let out := handlePropFind http_time rfc3339 err_text creds r path w in
  out.1 = Ok tt /\ w_status (dav_out out.2) = Some 207 /\
  w_body (dav_out out.2) = Raw (bytes_of xml_header) ::
    (if is_ok (getFileByPath u path (dav_db w)).1 then []
     else [Raw (bytes_of ("<multistatus xmlns:d=" +:+ quoted "DAV:" +:+ "></multistatus>"))]).
Proof.
  intros u Hu Hst Hb Hf out. subst out. unfold handlePropFind. rewrite (bind_ok _ _ _ _ _ (run_user creds r w Hu)). cbv zeta.
  destruct (lookup_err u path (dav_db w)) as [Hs He]. fold u. destruct (getFileByPath u path (dav_db w)) as [res d] eqn:E.
  rewrite (bind_ok _ _ _ _ _ (attempt_db (getFileByPath u path) w res d E Hs)). destruct res as [f|e| |]; try done; simpl.
  2:{ rewrite (He e eq_refl). destruct (send_multi [] (with_dav_db d w) Hf) as [h ->]. simpl.
      unfold dav_out in *. simpl. by rewrite Hst, Hb. }
  destruct (build_same http_time rfc3339 f (q_Path r) (with_dav_db d w)) as [x Ex]. rewrite (bind_ok _ _ _ _ _ Ex).
  match goal with |- context [(?m ≫= fun l => sendMultiStatus (x :: l)) (with_dav_db d w)] =>
    assert (exists l w1, m (with_dav_db d w) = (Ok l, w1) /\ dav_out w1 = dav_out w) as (l & w1 & El & Ew)
  end.
  { destruct (_ && _); [|by exists [], (with_dav_db d w)].
    set (o := mkOpts 0 1000). pose proof (ListDirectory_safe u (f_ID f) o (dav_db (with_dav_db d w))) as Hl.
    destruct (VFS_ListDirectory u (f_ID f) o (dav_db (with_dav_db d w))) as [rl d2] eqn:Ed.
    rewrite (bind_ok _ _ _ _ _ (attempt_db _ _ _ _ Ed Hl)). destruct rl as [c|e| |]; try done.
    - destruct (build_all_same http_time rfc3339 (q_Path r) c (with_dav_db d2 (with_dav_db d w))) as [xs Exs]. by exists xs, (with_dav_db d2 (with_dav_db d w)).
    - by exists [], (with_dav_db d2 (with_dav_db d w)). }
  rewrite (bind_ok _ _ _ _ _ El). destruct (send_multi (x :: l) w1) as [h ->]; [by rewrite Ew|]. simpl. unfold dav_out in *. simpl.
  by rewrite Ew, Hst, Hb.
Qed.

(** *** Paths *)

Lemma split_abs l : l <> [] -> Forall good_elem l -> split_char slash (Trim (abs_path l) slash) = l.
Proof.
  intros Hne Hl. assert (Trim (abs_path l) slash = join_char slash l) as ->; [|by apply split_join, good_elems_no_sep].
  unfold Trim, abs_path. simpl.
  assert (trim_left slash (join_char slash l) = join_char slash l) as ->.
  { destruct l as [|w ws]; [done|]. apply Forall_cons in Hl as [(Hw & _ & _ & Hs) _].
    destruct w as [|c w]; [done|]. unfold no_sep in Hs. simpl in Hs. apply orb_false_iff in Hs as [Hc _].
    destruct ws; simpl; by rewrite Hc. }
  induction l as [|w ws IH]; [done|]. apply Forall_cons in Hl as [Hw Hws]. destruct ws as [|w' ws].
  - simpl. apply trim_right_no_sep. by destruct Hw as (_ & _ & _ & ?).
  - rewrite join_char_cons2. specialize (IH ltac:(done) Hws).
    assert (join_char slash (w' :: ws) <> ""%string) as Hj.
    { apply Forall_cons in Hws as [(Hw' & _) _]. destruct w' as [|c w']; [done|]. by destruct ws. }
    revert IH Hj. generalize (join_char slash (w' :: ws)). clear. intros j Ej Hj.
    induction w as [|c w IH]; simpl.
    + rewrite Ej. by destruct j.
    + rewrite IH. by destruct w.
Qed.

(** The first element of a path decides: without such an entry at the root the
    path does not resolve. *)
Lemma lookup_missing u b l d : quiet d -> Forall good_elem (b :: l) -> ~ live u None b d ->
  getFileByPath u (abs_path (b :: l)) d = (Err ErrNotFound, d).
Proof.
  intros Hq Hg Hl. unfold getFileByPath. rewrite split_abs by done.
  assert (bool_decide (abs_path (b :: l) = "/"%string) = false) as ->.
  { apply bool_decide_eq_false. apply Forall_cons in Hg as [(Hb & _) _]. destruct b as [|c b]; [done|]. by destruct l. }
  rewrite bool_decide_eq_false_2 by done. simpl. unfold VFS_GetFileByPath, instead.
  destruct (GetFileByPath_quiet u "" b d Hq) as (r & E & Hr). unfold mbind, GoM_bind. rewrite E.
  destruct r as [f|e| |]; try done. destruct Hr as [Hr _]. done.
Qed.

Lemma lookup_quiet u p d : quiet d -> exists y, getFileByPath u p d = (y, d).
Proof.
  intros Hd. unfold getFileByPath. destruct (_ || _); [by eexists|]. generalize ""%string as q.
  induction (split_char slash (Trim p slash)) as [|m ms IH]; intros q; [by eexists|]. cbn [walk_parts]. unfold VFS_GetFileByPath, instead.
  destruct (GetFileByPath_quiet u q m d Hd) as (y & E & Hy). unfold mbind, GoM_bind. rewrite E.
  destruct y as [f|e| |]; try (by eexists). destruct ms; [by eexists|]. destruct (negb _); [by eexists|]. apply IH.
Qed.

Lemma abs_path_not_root l : l <> [] -> Forall good_elem l -> root_like (abs_path l) = false.
Proof.
  intros Hne Hg. unfold root_like. destruct l as [|b l]; [done|]. apply Forall_cons in Hg as [(Hb & _) _].
  rewrite !bool_decide_eq_false_2; [done|done|]. destruct b as [|c b]; [done|]. by destruct l.
Qed.

(** [Fact] COPY and MOVE refuse the addresses that clients send.  The destination of a
    request keeps the base path that the source has lost: for a destination
    below the base path (one good element [b], as in /webdav), a user who has no
    entry of that name at his root gets a 404, 409 or 423, and nothing is copied
    or moved. *)
Theorem destination_keeps_base_path {S : Type} err_text creds fuel r path (w : Dav S) b l n :
  let u := getUserID creds r in
  u <> ""%string -> quiet (dav_db w) -> Forall good_elem (b :: l ++ [n]) ->
  q_Destination r <> ""%string -> parseDestination (q_Destination r) = abs_path (b :: l ++ [n]) -> ~ live u None b (dav_db w) ->
  forall h, h = handleCopy err_text creds fuel r path \/ h = handleMove err_text creds r path ->
  exists x code msg, h w = (Err (ErrHTTP code msg), with_out x w) /\ (code = 404 \/ code = 409 \/ code = 423).
Proof.
  intros u Hu Hq Hg Hd Hp Hl h Hh.
  assert (exists x, parent_or u (path_Dir (abs_path (b :: l ++ [n]))) "Destination parent does not exist" w =
    (Err (ErrHTTP 409 "Destination parent does not exist"), with_out x w)) as [xp Ep].
  { change (b :: l ++ [n]) with ((b :: l) ++ [n]) in *. rewrite path_Dir_abs by done. apply Forall_app in Hg as [Hg _].
    unfold parent_or. rewrite abs_path_not_root by done.
    pose proof (run_or_send (getFileByPath u (abs_path (b :: l))) 409 "Destination parent does not exist" w) as Ho.
    rewrite (lookup_missing u b l (dav_db w) Hq Hg Hl), with_dav_db_id in Ho. destruct (Ho ltac:(done)) as [x E].
    exists x. by rewrite (bind_err _ _ _ _ _ E). }
  assert (destination_path r w = (Ok (abs_path (b :: l ++ [n])), w)) as Edp.
  { unfold destination_path. rewrite bool_decide_eq_false_2 by done. cbv zeta. rewrite Hp. by rewrite bool_decide_eq_false_2 by discriminate. }
  pose proof (run_found err_text u path 404 "Source not found" w) as Hf.
  destruct (lookup_quiet u path (dav_db w) Hq) as [y Ey]. rewrite Ey, with_dav_db_id in Hf.
  destruct Hh as [-> | ->]; [unfold handleCopy|unfold handleMove]; rewrite (bind_ok _ _ _ _ _ (run_user creds r w Hu)), (bind_ok _ _ _ _ _ Edp); fold u.
  - destruct y as [f|e| |]; [|destruct Hf as [x E]; exists x; do 2 eexists; rewrite (bind_err _ _ _ _ _ E); by auto..].
    rewrite (bind_ok _ _ _ _ _ Hf), (bind_err _ _ _ _ _ Ep). exists xp. do 2 eexists. by auto.
  - destruct y as [f|e| |]; [|destruct Hf as [x E]; exists x; do 2 eexists; rewrite (bind_err _ _ _ _ _ E); by auto..].
    rewrite (bind_ok _ _ _ _ _ Hf), (bind_ok _ _ _ _ _ (run_locked _ _)). destruct (IsLocked _ _ _).
    + destruct (run_error (A := unit) 423 "Resource is locked" w) as [x E]. exists x. do 2 eexists. split; [exact E|auto].
    + rewrite (bind_err _ _ _ _ _ Ep). exists xp. do 2 eexists. by auto.
Qed.

(** *** A trailing slash *)

Lemma trim_right_snoc s c : trim_right c (s +:+ String c "") = trim_right c s.
Proof. induction s as [|d s IH]; simpl; [by rewrite bool_decide_eq_true_2|]. by rewrite IH. Qed.

Lemma trim_left_keep c s t : trim_left c s <> ""%string -> trim_left c (s +:+ t) = (trim_left c s +:+ t)%string.
Proof. induction s as [|d s IH]; [done|]. simpl. case_bool_decide; [by apply IH|done]. Qed.

Lemma Trim_slash l : l <> [] -> Forall good_elem l -> Trim (abs_path l +:+ "/") slash = Trim (abs_path l) slash.
Proof.
  intros Hne Hl. unfold Trim. rewrite trim_left_keep; [apply trim_right_snoc|]. intros E.
  pose proof (split_abs l Hne Hl) as Es. unfold Trim in Es. rewrite E in Es. simpl in Es. subst l.
  apply Forall_cons in Hl as [(Hb & _) _]. done.
Qed.

Lemma str_app_String w c s t : ((w +:+ String c s) +:+ t)%string = (w +:+ String c (s +:+ t))%string.
Proof. by rewrite str_app_assoc. Qed.

Lemma split_join_slash l : Forall (no_sep slash) l -> l <> [] -> split_char slash (join_char slash l +:+ String slash "") = l ++ [""%string].
Proof.
  intros Hl Hne. induction Hl as [|w ws Hw Hws IH]; [done|]. destruct ws as [|w' ws].
  - exact (split_app slash w "" Hw).
  - rewrite join_char_cons2, str_app_String, split_app by done. by rewrite IH.
Qed.

Lemma path_Dir_slash l : l <> [] -> Forall good_elem l -> path_Dir (abs_path l +:+ String slash "") = abs_path l.
Proof.
  intros Hne Hl. unfold path_Dir. rewrite (LastIndex_app (abs_path l) slash "") by done.
  assert (forall s, str_take (Z.to_nat (Z.of_nat (len s) + 1)) (s +:+ String slash "") = (s +:+ String slash "")%string) as ->.
  { intros s. replace (Z.to_nat (Z.of_nat (len s) + 1)) with (S (len s)) by lia. induction s as [|c s IH]; [done|].
    change (String c (str_take (S (len s)) (s +:+ String slash "")) = String c (s +:+ String slash ""))%string. by rewrite IH. }
  unfold abs_path at 1. rewrite str_app_cons, (proj1 (Clean_abs _)). f_equal.
  change (split_char slash (String slash (join_char slash l +:+ String slash ""))) with (""%string :: split_char slash (join_char slash l +:+ String slash "")).
  rewrite split_join_slash by (done || by apply good_elems_no_sep).
  unfold clean_elems. cbn [foldl]. rewrite foldl_app. simpl. unfold clean_step at 1 3. simpl.
  fold (clean_elems true l). by apply clean_elems_id.
Qed.

(** [Fact] A collection cannot be created under the address that denotes one.  For a
    path of good elements with a slash at its end, MKCOL looks for the parent at
    the path itself: where nothing exists yet it answers 409 and creates nothing,
    and otherwise 405. *)
Theorem mkcol_trailing_slash {S : Type} creds r (w : Dav S) l :
  let u := getUserID creds r in
  u <> ""%string -> quiet (dav_db w) -> l <> [] -> Forall good_elem l ->
  exists x code msg, handleMkCol creds r (abs_path l +:+ "/") w = (Err (ErrHTTP code msg), with_out x w) /\
    code = if is_ok (getFileByPath u (abs_path l) (dav_db w)).1 then 405 else 409.
Proof.
  intros u Hu Hq Hne Hl. unfold handleMkCol. rewrite (bind_ok _ _ _ _ _ (run_user creds r w Hu)). fold u.
  assert (getFileByPath u (abs_path l +:+ "/") (dav_db w) = getFileByPath u (abs_path l) (dav_db w)) as Eq.
  { pose proof (abs_path_not_root l Hne Hl) as Hr. unfold root_like in Hr. apply orb_false_iff in Hr as [Hr _].
    unfold getFileByPath. rewrite Trim_slash by done. rewrite Hr. rewrite (bool_decide_eq_false_2 (abs_path l = ""%string)) by done.
    rewrite !bool_decide_eq_false_2; [done|done|]. apply bool_decide_eq_false in Hr. intros E. apply Hr.
    unfold abs_path in *. injection E as E. by destruct (join_char slash l). }
  destruct (lookup_err u (abs_path l +:+ "/") (dav_db w)) as [Hs _]. destruct (lookup_quiet u (abs_path l) (dav_db w) Hq) as [y Ey].
  rewrite Eq, Ey in Hs. rewrite Ey in Eq. pose proof (attempt_db _ w y (dav_db w) Eq Hs) as Ea. rewrite (bind_ok _ _ _ _ _ Ea), with_dav_db_id.
  rewrite Ey. destruct y as [f|e| |]; try done; simpl.
  - destruct (run_error (A := unit) 405 "Resource already exists" w) as [x E]. exists x. do 2 eexists. by split.
  - unfold parent_or. rewrite path_Dir_slash, abs_path_not_root by done.
    pose proof (run_or_send (getFileByPath u (abs_path l)) 409 "Parent directory does not exist" w) as Ho.
    rewrite Ey, with_dav_db_id in Ho. destruct (Ho ltac:(done)) as [x E]. exists x. do 2 eexists.
    rewrite bind_assoc, (bind_err _ _ _ _ _ E). by split.
Qed.

(** [Fact] Basic authentication over WebDAV admits a user exactly on his password.
    Whenever the validator accepts, there is a row with the user name, active and
    without a second factor, against whose hash the password verifies, and the
    identifier is that row's; the tables do not change.  And with a driver that
    answers, every such user whose name is unique is accepted. *)
Theorem webdav_credentials_exact `{Hmac} `{HashFn} `{Sha512} username password d :
  (forall id d', webdav_credentials username password d = (Ok (id, true), d') ->
     tab d' = tab d /\ exists k user, t_users (tab d) !! k = Some user /\ u_Username user = username /\ u_Status user = "active"%string /\
       u_TOTPEnabled user = false /\ VerifyPassword password (u_PasswordHash user) = Ok true /\ id = u_ID user) /\
  (forall k user, still d -> t_users (tab d) !! k = Some user -> u_Username user = username ->
     (forall k' user', t_users (tab d) !! k' = Some user' -> u_Username user' = username -> user' = user) ->
     u_Status user = "active"%string -> u_TOTPEnabled user = false -> VerifyPassword password (u_PasswordHash user) = Ok true ->
     webdav_credentials username password d = (Ok (u_ID user, true), d)).
Proof.
  split.
  - intros id d' E. unfold webdav_credentials in E. apply bind_ok_inv in E as (r & d1 & E1 & E).
    unfold attempt, GetUserByUsername in E1. destruct (tab_scan _ _ _ d) as [ru d2] eqn:Es.
    apply tab_scan_ok_inv in Es as (Et & _ & Eq).
    destruct ru as [user|e| |]; simplify_eq; try done. destruct (Eq user eq_refl) as [l Hh]. simpl in Hh.
    apply head_Some_elem_of, list_elem_of_filter in Hh as [Hn Hin]. apply elem_of_rows in Hin as [k Hk].
    destruct (bool_decide (u_Status user = "active"%string)) eqn:Ea; simpl in E; [|done]. apply bool_decide_eq_true in Ea.
    destruct (u_TOTPEnabled user) eqn:Etotp; [done|].
    apply bind_ok_inv in E as (v & d3 & E3 & E). unfold attempt, lift in E3.
    destruct (VerifyPassword password (u_PasswordHash user)) as [[]| | |] eqn:Ev; simplify_eq.
    injection E as <- <-. split; [done|]. by exists k, user.
  - intros k user Hs Hk Hn Hu Ha Ht Hv. unfold webdav_credentials.
    assert (attempt (GetUserByUsername username) d = (Ok (inl user), d)) as E.
    { unfold attempt, GetUserByUsername. rewrite tab_scan_still by done.
      destruct (filter (has_username username) (rows (t_users (tab d)))) as [|u' l] eqn:Ef.
      - assert (user ∈ ([] : list User)) as Hin; [|by apply not_elem_of_nil in Hin].
        rewrite <-Ef. apply list_elem_of_filter. split; [done|]. apply elem_of_rows. eauto.
      - assert (u' ∈ u' :: l) as Hin by by left. rewrite <-Ef in Hin. apply list_elem_of_filter in Hin as [Hn' Hin].
        apply elem_of_rows in Hin as [k' Hk']. simpl. by rewrite (Hu k' u'). }
    rewrite (bind_ok _ _ _ _ _ E), Ha, bool_decide_eq_true_2 by done. simpl. rewrite Ht.
    unfold attempt, lift, mbind, GoM_bind. by rewrite Hv.
Qed.

(** *** Other users' rows *)

Section Isolated.
Context `{HashFn} {S : Type} `{Backend S}.
Context (http_time rfc3339 : Z -> string) (err_text : error -> string) (xml_escape : string -> string).
Context (basePath : string) (chunker : Chunker) (st : string).
Context (creds : option (string -> string -> string * bool)) (fuel : nat).
Context (u : string) (F : gmap string File).

Definition ends {W A} (I : W -> Prop) (m : GoM W A) (Q : A -> W -> Prop) (J : W -> Prop) : Prop :=
  forall w, I w -> match m w with (Ok a, w') => Q a w' | (_, w') => J w' end.

Lemma ends_bind {W A B} (I : W -> Prop) (m : GoM W A) (k : A -> GoM W B) Q R J :
  ends I m Q J -> (forall a, ends (Q a) (k a) R J) -> ends I (m ≫= k) R J.
Proof.
  intros Hm Hk w Hw. specialize (Hm w Hw). unfold mbind, GoM_bind. destruct (m w) as [[a|e|s|] w']; try done. by apply Hk.
Qed.

Lemma ends_preserves {W A} (I J : W -> Prop) (m : GoM W A) : preserves J m -> (forall w, I w -> J w) -> ends I m (fun _ => J) J.
Proof. intros Hm HI w Hw. specialize (Hm w (HI w Hw)). by destruct (m w) as [[] w']. Qed.

Lemma ends_keep {W A} (I J : W -> Prop) (m : GoM W A) : preserves I m -> (forall w, I w -> J w) -> ends I m (fun _ => I) J.
Proof. intros Hm HI w Hw. specialize (Hm w Hw). destruct (m w) as [[] w']; auto. Qed.

Lemma ends_conseq {W A} (I I' : W -> Prop) (m : GoM W A) (Q Q' : A -> W -> Prop) J :
  ends I m Q J -> (forall w, I' w -> I w) -> (forall a w, Q a w -> Q' a w) -> ends I' m Q' J.
Proof. intros Hm HI HQ w Hw. specialize (Hm w (HI w Hw)). destruct (m w) as [[] w']; auto. Qed.

(** What a lookup returns: the folder that stands for the root, or an own row. *)
Lemma VFS_GetFileByPath_rows p n d : let out := VFS_GetFileByPath u p n d in
  db_files out.2 = db_files d /\ forall f, out.1 = Ok f -> exists k, db_files d !! k = Some f /\ f_UserID f = u.
Proof.
  unfold VFS_GetFileByPath, instead, GetFileByPath, scan_row, attempt, sql_query, mbind, GoM_bind. simpl.
  destruct (next_fault (db_faults d)) as [[] l]; simpl; [done|].
  destruct (filter _ _) as [|f fs] eqn:E; simpl; [done|]. split; [done|]. intros g [= <-].
  assert (f ∈ f :: fs) as Hin by by left. rewrite <-E in Hin. apply list_elem_of_filter in Hin as [(Hu & _) Hin].
  apply elem_of_rows in Hin as [k Hk]. by exists k.
Qed.

Lemma lookup_rows p d : let out := getFileByPath u p d in
  db_files out.2 = db_files d /\ forall f, out.1 = Ok f -> f_ID f = ""%string \/ exists k, db_files d !! k = Some f /\ f_UserID f = u.
Proof.
  simpl. unfold getFileByPath. destruct (_ || _); [split; [done|]; intros f [= <-]; by left|].
  assert (forall q, db_files (walk_parts u q (split_char slash (Trim p slash)) d).2 = db_files d /\
    forall f, (walk_parts u q (split_char slash (Trim p slash)) d).1 = Ok f -> exists k, db_files d !! k = Some f /\ f_UserID f = u) as Hw.
  2:{ destruct (Hw ""%string) as [H1 H2]. split; [done|]. intros f Hf. right. by apply H2. }
  revert d. induction (split_char slash (Trim p slash)) as [|m ms IH]; intros d q; [done|]. cbn [walk_parts].
  destruct (VFS_GetFileByPath_rows q m d) as [Hd Hf]. unfold mbind, GoM_bind.
  destruct (VFS_GetFileByPath u q m d) as [[f|e| |] d1]; simpl in *; try done.
  destruct ms as [|m' ms]; [split; [done|]; intros g [= <-]; by apply Hf|]. destruct (negb _); [by split|].
  destruct (IH d1 (f_ID f)) as [IH1 IH2]. rewrite IH1, <-Hd. split; [done|]. exact IH2.
Qed.

Definition fine (d : DB) : Prop := isolated u F d /\ keyed d /\ db_files d !! ""%string = None.

Lemma same_files d d' : db_files d' = db_files d -> (isolated u F d -> isolated u F d') /\ (fine d -> fine d') /\ (forall id, owned u id d -> owned u id d').
Proof. intros E. unfold fine, isolated, foreign, keyed, owned. by rewrite E. Qed.

Lemma lookup_mine p d f : fine d -> (getFileByPath u p d).1 = Ok f -> mine u F (f_ID f) (getFileByPath u p d).2.
Proof.
  intros (HF & Hk & Hn) E. destruct (lookup_rows p d) as [Ed Hf]. destruct (same_files _ _ Ed) as (Hi & _ & Ho).
  split; [by apply Hi|]. apply Ho. intros g Hg. destruct (Hf f E) as [Hz|(k & Hk' & Hu)]; [congruence|].
  rewrite (Hk _ _ Hk') in Hg. congruence.
Qed.

Notation iso := (db_is (S := S) (isolated u F)).

Lemma keeps_lookup p (I : DB -> Prop) : (forall d d', db_files d' = db_files d -> I d -> I d') -> preserves I (getFileByPath u p).
Proof. intros HI d Hd. eapply HI; [|exact Hd]. by destruct (lookup_rows p d). Qed.

Lemma iso_out x d w : isolated u F d -> iso (with_out x (with_dav_db d w)).
Proof. done. Qed.

Lemma ends_found p code msg : ends (db_is (S := S) fine) (found_or err_text u p code msg) (fun f => db_is (mine u F (f_ID f))) iso.
Proof.
  intros w Hw. pose proof (run_found err_text u p code msg w) as Hr. pose proof (lookup_mine p (dav_db w)) as Hm.
  destruct (lookup_rows p (dav_db w)) as [Ed _]. destruct (same_files _ _ Ed) as (Hi & _).
  destruct (getFileByPath u p (dav_db w)) as [[f|e| |] d]; simpl in *.
  - rewrite Hr. by apply Hm.
  - destruct Hr as [x ->]. apply Hi, Hw.
  - destruct Hr as [x ->]. apply Hi, Hw.
  - destruct Hr as [x ->]. apply Hi, Hw.
Qed.

Lemma keeps_parent (I : DB -> Prop) p msg : (forall d d', db_files d' = db_files d -> I d -> I d') ->
  preserves (db_is (S := S) I) (parent_or u p msg).
Proof.
  intros HI. unfold parent_or. destruct (root_like p); [apply preserves_ret|].
  apply preserves_bind; [apply keeps_or_send, keeps_db, keeps_lookup, HI|]. intros ?. apply preserves_ret.
Qed.

Lemma isolated_same d d' : db_files d' = db_files d -> isolated u F d -> isolated u F d'.
Proof. intros E. by apply same_files. Qed.
Lemma mine_same id d d' : db_files d' = db_files d -> mine u F id d -> mine u F id d'.
Proof. intros E [H1 H2]. destruct (same_files _ _ E) as (Hi & _ & Ho). split; [by apply Hi|by apply Ho]. Qed.
Lemma fine_same d d' : db_files d' = db_files d -> fine d -> fine d'.
Proof. intros E. by apply same_files. Qed.
Lemma mine_iso id w : db_is (S := S) (mine u F id) w -> iso w.
Proof. by intros [? _]. Qed.
Lemma fine_iso w : db_is (S := S) fine w -> iso w.
Proof. by intros [? _]. Qed.

Lemma isolated_copies : (forall n s t, preserves (isolated u F) (copyFolderContents n u s t)) /\
  forall id p n, preserves (isolated u F) (Copy fuel u id p n).
Proof.
  assert (forall A (q : DB -> A), preserves (isolated u F) (sql_query q)) as Hq by (intros; apply isolated_query). pose proof (isolated_generateID u F) as Hg.
  assert (forall f, f_UserID f = u -> preserves (isolated u F) (CreateFile f)) as Hc.
  { intros f Hf. unfold CreateFile. preserve; by apply own_insert. }
  assert (forall n s t, preserves (isolated u F) (copyFolderContents n u s t)) as Hfc.
  { induction n as [|n IH]; intros s t; cbn [copyFolderContents]; [apply preserves_ret|]. unfold ListDirectory.
    apply preserves_bind; [by apply preserves_wrap|]. intros items. apply preserves_forM. intros item.
    apply preserves_get. intros d. apply preserves_bind; [apply Hg|]. intros id. apply preserves_bind; [by apply preserves_wrap, Hc|].
    intros ?. destruct (bool_decide _); [apply IH|apply preserves_ret]. }
  split; [done|]. intros id p n. unfold Copy, GetFileByID, must_be_absent, GetFileByPath, scan_row. preserve; first [apply Hq|apply Hg|apply Hfc|by apply Hc].
Qed.

Lemma isolated_chunks (I : DB -> Prop) i infos data : (forall d d', db_files d' = db_files d -> I d -> I d') ->
  preserves (fun w : Server S => I (sv_db w)) (process_chunks st i infos data).
Proof.
  intros HI.
  assert (forall A (m : GoM DB A), (forall d, db_files (m d).2 = db_files d) -> preserves (fun w : Server S => I (sv_db w)) (on_db m)) as Hdb.
  { intros A m Hm w Hw. specialize (Hm (sv_db w)). unfold on_db. destruct (m (sv_db w)) as [r d]. simpl in *. by eapply HI. }
  assert (forall x : DB -> error + (Z * DB), (forall d n d', x d = inr (n, d') -> db_files d' = db_files d) -> forall d, db_files (sql_exec x d).2 = db_files d) as Hx.
  { intros x Hf d. unfold sql_exec. destruct (next_fault _) as [[] l]; simpl; [done|]. destruct (x _) as [e|[n d']] eqn:E; simpl; [done|]. by apply Hf in E. }
  assert (forall h, preserves (fun w : Server S => I (sv_db w)) (on_db (ChunkExists h))) as H1.
  { intros h. apply Hdb. intros d. unfold ChunkExists, wrap, sql_query. by destruct (next_fault _) as [[] l]. }
  assert (forall h, preserves (fun w : Server S => I (sv_db w)) (on_db (IncrementRefCount h))) as H2.
  { intros h. apply Hdb. intros d. unfold IncrementRefCount, wrap, affected, mbind, GoM_bind.
    pose proof (Hx (bump_chunk h 1 (fun _ => true))) as Hb. specialize (Hb ltac:(unfold bump_chunk; intros ? ? ?; repeat case_match; by intros [= <- <-]) d).
    destruct (sql_exec _ d) as [[n| | |] d']; simpl in *; try done. by destruct (n =? 0). }
  assert (forall c, preserves (fun w : Server S => I (sv_db w)) (on_db (CreateChunk c))) as H3.
  { intros c. apply Hdb. intros d. unfold CreateChunk, wrap, mbind, GoM_bind.
    pose proof (Hx (insert_chunk c)) as Hb. specialize (Hb ltac:(unfold insert_chunk; intros ? ? ?; repeat case_match; by intros [= <- <-]) d).
    by destruct (sql_exec _ d) as [[n| | |] d']. }
  revert i. induction infos as [|c infos IH]; intros i; cbn [process_chunks]; [apply preserves_ret|].
  apply preserves_bind; [|intros; apply preserves_bind; [apply IH|intros; apply preserves_ret]].
  unfold store_one. apply preserves_bind; [by apply preserves_instead|]. intros b. destruct (b : bool); [by apply preserves_instead|].
  apply preserves_bind; [destruct (data !! i); apply preserves_ret|]. intros bs. apply preserves_bind.
  { apply preserves_instead. intros w Hw. unfold on_store. by destruct (Put _ _ _). }
  intros ?. apply preserves_bind; [by intros w|]. intros t. by apply preserves_instead.
Qed.

(** *** Each handler *)

Lemma ends_user {A} r (k : string -> GoM (Dav S) A) : ends (db_is fine) (k u) (fun _ => iso) iso ->
  getUserID creds r = u \/ getUserID creds r = ""%string -> ends (db_is fine) (userID ← dav_user creds r; k userID) (fun _ => iso) iso.
Proof.
  intros Hk Hu w Hw. unfold dav_user. destruct (bool_decide (getUserID creds r = ""%string)) eqn:E.
  - destruct (run_error (A := string) 401 "Authentication required" w) as [x Ex]. rewrite (bind_err _ _ _ _ _ Ex). by apply fine_iso.
  - apply bool_decide_eq_false in E. destruct Hu as [Hu|Hu]; [|done]. rewrite bind_mret, Hu. by apply Hk.
Qed.

Lemma ends_iso {A} (I : Dav S -> Prop) (m : GoM (Dav S) A) : preserves iso m -> (forall w, I w -> iso w) -> ends I m (fun _ => iso) iso.
Proof. intros Hm HI. by apply ends_preserves. Qed.

Lemma ends_mine {A} id (m : GoM (Dav S) A) : preserves (db_is (mine u F id)) m -> ends (db_is (mine u F id)) m (fun _ => iso) iso.
Proof. intros Hm w Hw. specialize (Hm w Hw). destruct (m w) as [[] w']; by apply (mine_iso id). Qed.

Lemma iso_replies {A} (m : GoM (Dav S) A) code msg : preserves iso m -> preserves iso (or_send m code msg).
Proof. apply keeps_or_send. Qed.

Lemma iso_lookup p : preserves iso (on_dav_db (S := S) (getFileByPath u p)).
Proof. apply keeps_db, keeps_lookup, isolated_same. Qed.

#[local] Hint Resolve iso_lookup : preserves.

Lemma ends_dest r : ends (db_is fine) (destination_path (S := S) r) (fun _ => db_is fine) iso.
Proof. apply ends_keep; [|apply fine_iso]. unfold destination_path. preserve. Qed.

Lemma stays_delete r p : ends (db_is fine) (f ← found_or (S := S) err_text u p 404 "Resource not found";
  locked ← is_locked (f_ID f); if locked : bool then sendError 423 "Resource is locked"
  else or_send (on_dav_db (VFS_Delete (f_ID f))) 500 "Failed to delete";; say (C_status r)) (fun _ => iso) iso.
Proof.
  eapply ends_bind; [apply ends_found|]. intros f. cbv beta. apply ends_mine. apply preserves_bind; [auto with preserves|].
  intros [|]; [auto with preserves|]. apply preserves_bind; [|intros; auto with preserves].
  apply keeps_or_send, keeps_db. by destruct (mine_changes u F (f_ID f)) as (_ & _ & ? & _).
Qed.

Lemma stays_move r p : ends (db_is fine) (destPath ← destination_path (S := S) r; source ← found_or err_text u p 404 "Source not found";
  locked ← is_locked (f_ID source); if locked : bool then sendError 423 "Resource is locked"
  else destParentID ← parent_or u (path_Dir destPath) "Destination parent does not exist";
    or_send (on_dav_db (Move (f_ID source) destParentID (path_Base destPath))) 500 "Move failed";;
    say (C_status (if bool_decide (q_Overwrite r = "F"%string) then 201 else 204))) (fun _ => iso) iso.
Proof.
  eapply ends_bind; [apply ends_dest|]. intros dest. cbv beta. eapply ends_bind; [apply ends_found|]. intros f. cbv beta.
  apply ends_mine. apply preserves_bind; [auto with preserves|]. intros [|]; [auto with preserves|].
  apply preserves_bind; [apply keeps_parent, mine_same|]. intros pid. apply preserves_bind; [|intros; auto with preserves].
  apply keeps_or_send, keeps_db. destruct (mine_changes u F (f_ID f)) as (Hm & _). apply Hm.
Qed.

Lemma stays_copy r p : ends (db_is fine) (destPath ← destination_path (S := S) r; source ← found_or err_text u p 404 "Source not found";
  destParentID ← parent_or u (path_Dir destPath) "Destination parent does not exist";
  c ← attempt (on_dav_db (Copy fuel u (f_ID source) destParentID (path_Base destPath)));
  match c with
  | inl _ => say (C_status 201)
  | inr ErrAlreadyExists => sendError 412 "Destination already exists"
  | inr ErrInvalidName => sendError 400 "Invalid destination name"
  | inr ErrPermissionDenied => sendError 403 "Access denied"
  | inr _ => sendError 500 "Copy failed"
  end) (fun _ => iso) iso.
Proof.
  eapply ends_bind; [apply ends_dest|]. intros dest. cbv beta. eapply ends_bind; [apply ends_found|]. intros f. cbv beta.
  apply ends_iso; [|apply mine_iso]. apply preserves_bind; [apply keeps_parent, isolated_same|]. intros pid.
  apply preserves_bind; [apply preserves_attempt, keeps_db, isolated_copies|]. intros [?|e]; [auto with preserves|].
  destruct e; auto with preserves.
Qed.

Lemma created_file p n m sz d f d' : VFS_CreateFile u p n m sz d = (Ok f, d') -> owned u (f_ID f) d'.
Proof.
  unfold VFS_CreateFile. destruct (negb _); [done|]. intros E. apply bind_ok_inv in E as (? & d1 & _ & E).
  rewrite bind_get in E. apply bind_ok_inv in E as (id & d2 & _ & E). apply bind_ok_inv in E as ([] & d3 & E & E').
  injection E' as <- <-. unfold wrap in E. destruct (CreateFile _ d2) as [[]] eqn:Ec; try done. injection E as ->.
  unfold CreateFile, attempt, sql_exec, mbind, GoM_bind in Ec. destruct (next_fault _) as [[] l]; [done|].
  unfold insert_file in Ec. destruct (bool_decide _); [done|]. destruct (negb _); [done|]. destruct (negb _); [done|]. injection Ec as E1. subst.
  intros g. simpl. rewrite lookup_insert_eq. by intros [= <-].
Qed.

Lemma keeps_put_chunks (I : DB -> Prop) i infos data : (forall d d', db_files d' = db_files d -> I d -> I d') ->
  preserves (db_is (S := S) I) (put_error (put_chunks st i infos data)).
Proof.
  intros HI. unfold put_error. apply preserves_bind; [|intros [?|[]]; preserve].
  apply preserves_attempt. intros w Hw. destruct w as [[s x] k]. unfold on_dav_server, on_conn, on_server. simpl.
  pose proof (isolated_chunks I i infos data HI s Hw) as Hp. unfold put_chunks.
  destruct (process_chunks st i infos data s) as [rr s']. exact Hp.
Qed.

Lemma manifest_files m d : db_files (CreateManifest m d).2 = db_files d.
Proof.
  unfold CreateManifest, wrap, sql_exec, mbind, GoM_bind. destruct (next_fault _) as [[] l]; simpl; [done|].
  unfold insert_manifest. by repeat case_match; simplify_eq.
Qed.

(** The end of a PUT, once the row of the file is known to be the user's. *)
Lemma stays_put_tail id hashes size name code z : preserves (db_is (S := S) (mine u F id))
  (manifestRand ← or_send (on_dav_server (on_rand (rand_read 16))) 500 "Failed to generate manifest ID";
   let manifestID := ("manifest_" +:+ hex_encode manifestRand)%string in
   t ← on_dav_server now;
   or_send (on_dav_db (CreateManifest (mkManifestRow manifestID id 1 size (zlen hashes) hashes code "webdav" t))) 500 "Failed to create manifest";;
   or_send (on_dav_db (UpdateFile id [U_manifest_id (Some manifestID); U_size_bytes size; U_checksum (Some code);
     U_mime_type (detectContentType name)])) 500 "Failed to update file";;
   say (C_status z)).
Proof.
  apply preserves_bind; [apply keeps_or_send, keeps_rand; by intros|]. intros b. cbv zeta.
  apply preserves_bind; [by intros [[[]]]|]. intros t. apply preserves_bind.
  - apply keeps_or_send, keeps_db. intros d Hd. eapply mine_same; [apply manifest_files|exact Hd].
  - intros ?. apply preserves_bind; [apply keeps_or_send, keeps_db, mine_UpdateFile|]. intros ?. apply keeps_say.
Qed.

Lemma preserves_mret_bind {W A B} (I : W -> Prop) (a : A) (k : A -> GoM W B) : preserves I (k a) -> preserves I (mret a ≫= k).
Proof. done. Qed.

Lemma ends_existing p : ends (db_is (S := S) fine) (attempt (on_dav_db (getFileByPath u p)))
  (fun e => match e with inl f => db_is (mine u F (f_ID f)) | inr _ => iso end) iso.
Proof.
  intros w Hw. destruct (lookup_err u p (dav_db w)) as [Hs _]. pose proof (lookup_mine p (dav_db w)) as Hm.
  destruct (lookup_rows p (dav_db w)) as [Ed _]. destruct (getFileByPath u p (dav_db w)) as [y d] eqn:E.
  rewrite (attempt_db _ w y d E Hs). destruct y as [f|e| |]; try done; simpl in *.
  - by apply Hm.
  - eapply isolated_same; [exact Ed|apply Hw].
Qed.

Lemma ends_create p n m sz : ends iso (or_send (on_dav_db (VFS_CreateFile u p n m sz)) 500 "Failed to create file")
  (fun f => db_is (S := S) (mine u F (f_ID f))) iso.
Proof.
  intros w Hw. destruct (isolated_creates u F p n) as [Hi _]. specialize (Hi m sz (dav_db w) Hw).
  assert (settles (VFS_CreateFile u p n m sz (dav_db w)).1) as Ht.
  { pose proof (VFS_CreateFile_total u p n m sz (dav_db w)) as Ht. by destruct (VFS_CreateFile _ _ _ _ _ _) as [[]]. }
  pose proof (run_or_send (VFS_CreateFile u p n m sz) 500 "Failed to create file" w Ht) as Hr.
  destruct (VFS_CreateFile u p n m sz (dav_db w)) as [[f|e| |] d] eqn:E; try done.
  - rewrite Hr. split; [done|]. by eapply created_file.
  - destruct Hr as [x ->]. exact Hi.
Qed.

Lemma stays_put r p : getUserID creds r = u \/ getUserID creds r = ""%string ->
  ends (db_is (S := S) fine) (handlePut err_text chunker st creds r p) (fun _ => iso) iso.
Proof.
  intros Hu. unfold handlePut. apply (ends_user r (fun userID => _)); [|done]. cbv zeta.
  assert (forall I : DB -> Prop, (forall d d', db_files d' = db_files d -> I d -> I d') ->
    forall msg code A (x : Res A), preserves (db_is (S := S) I) (or_send (lift x) code msg)) as Hlift.
  { intros I HI msg code A x. apply keeps_or_send. apply keeps_lift. }
  eapply ends_bind.
  { instantiate (1 := fun _ => db_is fine). destruct (root_like _); [by intros w Hw|]. eapply ends_bind.
    - intros w Hw. pose proof (run_found err_text u (path_Dir p) 409 "Parent directory does not exist" w) as Hr.
      destruct (lookup_rows (path_Dir p) (dav_db w)) as [Ed _]. instantiate (1 := fun _ => db_is fine).
      pose proof (fine_same _ _ Ed Hw) as Hf. destruct (getFileByPath u (path_Dir p) (dav_db w)) as [[f|e| |] d]; simpl in *;
        [by rewrite Hr|destruct Hr as [x ->]; apply Hf..].
    - intros f w Hw. exact Hw. }
  intros parentID. eapply ends_bind; [apply ends_existing|]. intros [f|e]; cbv beta iota.
  - apply ends_mine. destruct (_ <? _); [auto with preserves|]. apply preserves_bind; [apply Hlift, mine_same|]. intros data.
    apply preserves_bind; [apply Hlift, mine_same|]. intros [infos bs]. apply preserves_bind; [apply keeps_put_chunks, mine_same|].
    intros hashes. apply preserves_mret_bind, stays_put_tail.
  - destruct (_ <? _); [apply ends_iso; [auto with preserves|done]|].
    eapply ends_bind; [apply ends_keep; [apply Hlift, isolated_same|done]|]. intros data.
    eapply ends_bind; [apply ends_keep; [apply Hlift, isolated_same|done]|]. intros [infos bs].
    eapply ends_bind; [apply ends_keep; [apply keeps_put_chunks, isolated_same|done]|]. intros hashes.
    apply (ends_bind _ _ _ (fun id => db_is (mine u F id))); [eapply ends_bind; [apply ends_create|intros g w Hw; exact Hw]|]. intros id.
    apply ends_mine, stays_put_tail.
Qed.

Lemma stays_reads r p : getUserID creds r = u \/ getUserID creds r = ""%string ->
  ends (db_is (S := S) fine) (handleGet http_time err_text creds r p) (fun _ => iso) iso /\
  ends (db_is (S := S) fine) (handlePropFind http_time rfc3339 err_text creds r p) (fun _ => iso) iso /\
  ends (db_is (S := S) fine) (handlePropPatch http_time rfc3339 err_text creds r p) (fun _ => iso) iso /\
  ends (db_is (S := S) fine) (handleLock err_text xml_escape creds r p) (fun _ => iso) iso /\
  ends (db_is (S := S) fine) (handleUnlock creds r) (fun _ => iso) iso.
Proof.
  intros Hu.
  assert (forall f href, preserves iso (buildPropResponse (S := S) http_time rfc3339 f href)) as Hb.
  { intros f href w Hw. destruct (build_same http_time rfc3339 f href w) as [x ->]. exact Hw. }
  assert (forall base l, preserves iso (build_all (S := S) http_time rfc3339 base l)) as Hba.
  { intros base l w Hw. destruct (build_all_same http_time rfc3339 base l w) as [x ->]. exact Hw. }
  assert (forall l, preserves iso (sendMultiStatus (S := S) l)) as Hm by (intros; unfold sendMultiStatus; preserve).
  assert (forall l, preserves iso (streamChunks (S := S) l)) as Hst.
  { induction l as [|h l IH]; cbn [streamChunks]; [apply preserves_ret|]. apply preserves_bind.
    - apply preserves_attempt. intros [[[d s ss] x] k] Hw. unfold on_dav_server, on_conn, on_server, on_store. simpl. by destruct (Get h s).
    - intros [data|e]; [apply preserves_bind; [apply preserves_wrap|by intros ?]|unfold error_calls; preserve].
      intros [[s x] k] Hw. unfold say_or_fail, on_conn, on_writer. simpl. by destruct (write_piece _ x). }
  assert (forall code msg, preserves iso (found_or (S := S) err_text u p code msg)) as Hf.
  { intros code msg. unfold found_or. apply preserves_bind; [apply preserves_attempt; auto with preserves|]. intros [f|e]; [apply preserves_ret|].
    destruct e; auto with preserves. }
  assert (forall {A} (m : GoM DB A), preserves (isolated u F) m -> preserves iso (on_dav_db (S := S) m)) as Hdb by (intros; by apply keeps_db).
  split_and!.
  - apply (ends_user r (fun userID => _)); [|done]. apply ends_iso; [|apply fine_iso]. apply preserves_bind; [apply Hf|]. intros f. preserve; try apply Hst.
    apply keeps_or_send, keeps_db. unfold GetManifest, scan_row. preserve. apply isolated_query.
  - apply (ends_user r (fun userID => _)); [|done]. apply ends_iso; [|apply fine_iso]. cbv zeta.
    apply preserves_bind; [apply preserves_attempt; auto with preserves|]. intros [f|e]; [|destruct e; auto with preserves].
    apply preserves_bind; [apply Hb|]. intros x. apply preserves_bind; [|intros; apply Hm]. destruct (_ && _); [|apply preserves_ret].
    apply preserves_bind; [|intros [?|?]; [apply Hba|apply preserves_ret]]. apply preserves_attempt, Hdb.
    unfold VFS_ListDirectory, ListDirectory. apply preserves_wrap, preserves_wrap, isolated_query.
  - apply (ends_user r (fun userID => _)); [|done]. apply ends_iso; [|apply fine_iso]. apply preserves_bind; [apply Hf|]. intros f.
    apply preserves_bind; [apply Hb|]. intros x. apply Hm.
  - apply (ends_user r (fun userID => _)); [|done]. apply ends_iso; [|apply fine_iso]. apply preserves_bind.
    { destruct (bool_decide _); [|apply preserves_ret]. apply preserves_bind; [auto with preserves|]. intros t. apply keeps_rand. by intros. }
    intros tok. cbv zeta. apply preserves_bind; [apply preserves_attempt; auto with preserves|]. intros f.
    apply preserves_bind; [auto with preserves|]. intros t. apply preserves_bind; [auto with preserves|]. intros k.
    apply preserves_bind; [destruct f as [?|[]]; auto with preserves|]. intros ?. preserve.
  - apply (ends_user r (fun userID => _)); [|done]. apply ends_iso; [|apply fine_iso]. preserve.
Qed.

Lemma stays_mkcol r p : getUserID creds r = u \/ getUserID creds r = ""%string ->
  ends (db_is (S := S) fine) (handleMkCol creds r p) (fun _ => iso) iso.
Proof.
  intros Hu. apply (ends_user r (fun userID => _)); [|done]. apply ends_iso; [|apply fine_iso].
  apply preserves_bind; [apply preserves_attempt; auto with preserves|]. intros [f|e]; [auto with preserves|].
  apply preserves_bind; [apply keeps_parent, isolated_same|]. intros pid. apply preserves_bind.
  - apply preserves_attempt, keeps_db. by destruct (isolated_creates u F pid (path_Base p)) as [_ ?].
  - intros [f|x]; [auto with preserves|]. destruct x; auto with preserves.
Qed.
End Isolated.

(** [C10] No WebDAV request touches another user's entries.  Whatever the method,
    path, headers, body, locks, driver and store, the rows of all other users are
    the same after a request as before it, provided each row lies under its own
    identifier and none under the empty one. *)
Theorem webdav_stays_with_owner `{HashFn} {S : Type} `{Backend S} http_time rfc3339 err_text xml_escape basePath chunker st creds fuel r (w : Dav S) :
  let u := getUserID creds r in
  keyed (dav_db w) -> db_files (dav_db w) !! ""%string = None ->
  foreign u (dav_db (ServeHTTP http_time rfc3339 err_text xml_escape basePath chunker st creds fuel r w).2) = foreign u (dav_db w).
Proof.
  intros u Hk Hn. set (F := foreign u (dav_db w)).
  assert (ends (db_is (S := S) (fine u F)) (ServeHTTP http_time rfc3339 err_text xml_escape basePath chunker st creds fuel r)
    (fun _ => db_is (isolated u F)) (db_is (isolated u F))) as He.
  { unfold ServeHTTP. cbv zeta. do 2 (eapply ends_bind; [apply ends_keep; [apply keeps_say|apply fine_iso]|intros ?; cbv beta]).
    destruct (stays_reads http_time rfc3339 err_text xml_escape creds u F r (webdav_path basePath r) ltac:(by left)) as (Hg & Hpf & Hpp & Hlk & Hul).
    repeat match goal with |- ends _ (if ?b then _ else _) _ _ => destruct b end; try done.
    - apply ends_iso; [|apply fine_iso]. unfold handleOptions. preserve.
    - apply stays_put. by left.
    - apply (ends_user creds u F r (fun userID => _)); [|by left]. apply (stays_delete err_text u F 204).
    - apply stays_mkcol. by left.
    - apply (ends_user creds u F r (fun userID => _)); [|by left]. apply stays_copy.
    - apply (ends_user creds u F r (fun userID => _)); [|by left]. apply stays_move.
    - apply ends_iso; [auto with preserves|apply fine_iso]. }
  specialize (He w). unfold db_is, isolated, fine in He. destruct (ServeHTTP _ _ _ _ _ _ _ _ _ _ w) as [[] w']; by apply He.
Qed.

(** *** Writing and reading back *)

Section PutGet.
Context `{HashFn} {S : Type} `{Backend S} (Hkeys : forall d, valid_key (sha256_hex d)).
Context (http_time : Z -> string) (err_text : error -> string) (chunker : Chunker) (st : string).
Context (creds : option (string -> string -> string * bool)).
Implicit Types w : Dav S.

(** What a lookup reads of a row. *)
Definition same_place (f g : File) : Prop :=
  f_ID g = f_ID f /\ f_UserID g = f_UserID f /\ f_ParentID g = f_ParentID f /\ f_Name g = f_Name f /\ f_Type g = f_Type f /\
  f_IsTrashed g = f_IsTrashed f.

(** Every row is still there, in the same place. *)
Definition places_kept (d d' : DB) : Prop :=
  forall k f, db_files d !! k = Some f -> exists g, db_files d' !! k = Some g /\ same_place f g.

(** No directory of the user lists a name twice: the schema guarantees it below
    folders, but not at the root, where the parent is NULL. *)
Definition one_name (u : string) (d : DB) : Prop :=
  forall p n k f k' f', db_files d !! k = Some f -> at_path u p n f -> db_files d !! k' = Some f' -> at_path u p n f' -> k = k'.

Lemma at_path_unique u q n d k f : quiet d -> one_name u d -> db_files d !! k = Some f -> at_path u (parent_pointer q) n f ->
  VFS_GetFileByPath u q n d = (Ok f, d).
Proof.
  intros Hq Hu Hk Ha. unfold VFS_GetFileByPath, instead. destruct (GetFileByPath_quiet u q n d Hq) as ([g|e| |] & -> & Hr); try done.
  - destruct Hr as (_ & Hg & k' & Hk'). pose proof (Hu _ _ _ _ _ _ Hk Ha Hk' Hg) as ->. by simplify_eq.
  - destruct Hr. by exists k, f.
Qed.

Lemma found_row u q n d f d1 : quiet d -> VFS_GetFileByPath u q n d = (Ok f, d1) ->
  d1 = d /\ at_path u (parent_pointer q) n f /\ exists k, db_files d !! k = Some f.
Proof.
  intros Hq. unfold VFS_GetFileByPath, instead. destruct (GetFileByPath_quiet u q n d Hq) as ([g|e| |] & -> & Hr); try done.
  intros [= <- <-]. by destruct Hr as (_ & ? & ?).
Qed.

Lemma walk_kept u d d' : quiet d -> quiet d' -> one_name u d' -> places_kept d d' -> forall parts q f d1,
  walk_parts u q parts d = (Ok f, d1) ->
  exists k g, db_files d !! k = Some f /\ db_files d' !! k = Some g /\ walk_parts u q parts d' = (Ok g, d').
Proof.
  intros Hq Hq' Hu Hp. induction parts as [|n ms IH]; intros q f d1; [done|]. cbn [walk_parts]. intros E.
  apply bind_ok_inv in E as (h & d2 & E1 & E). apply found_row in E1 as (-> & Ha & k & Hk); [|done].
  destruct (Hp k h Hk) as (g & Hg & Ei & Eu & Epp & En & Et & Etr).
  assert (VFS_GetFileByPath u q n d' = (Ok g, d')) as Eg.
  { apply (at_path_unique u q n d' k g); try done. unfold at_path in *. destruct Ha as (? & ? & ? & ?). split_and!; congruence. }
  rewrite (bind_ok _ _ _ _ _ Eg). destruct ms as [|m ms].
  - injection E as <- <-. by exists k, g.
  - rewrite Et. destruct (negb _); [done|]. rewrite Ei. by apply (IH _ _ d1).
Qed.

Lemma walk_cons2 u q m m' l d : walk_parts u q (m :: m' :: l) d =
  (file ← VFS_GetFileByPath u q m; if negb (bool_decide (f_Type file = "folder"%string)) then fail ErrNotFound
   else walk_parts u (f_ID file) (m' :: l)) d.
Proof. done. Qed.

Lemma walk_snoc u n : forall l q d, l <> [] -> walk_parts u q (l ++ [n]) d =
  (parent ← walk_parts u q l; if negb (bool_decide (f_Type parent = "folder"%string)) then fail ErrNotFound
   else file ← VFS_GetFileByPath u (f_ID parent) n; mret file) d.
Proof.
  induction l as [|m l IH]; [done|]. intros q d _. destruct l as [|m' l].
  - simpl. unfold mbind, GoM_bind. by destruct (VFS_GetFileByPath u q m d) as [[]].
  - change ((m :: m' :: l) ++ [n]) with (m :: m' :: (l ++ [n])). rewrite walk_cons2. unfold mbind, GoM_bind. rewrite walk_cons2. unfold mbind, GoM_bind.
    destruct (VFS_GetFileByPath u q m d) as [[f|e| |] d1]; try done. destruct (negb _); [done|].
    change (m' :: l ++ [n]) with ((m' :: l) ++ [n]). by rewrite IH.
Qed.

Lemma path_Base_abs l n : Forall good_elem (l ++ [n]) -> path_Base (abs_path (l ++ [n])) = n.
Proof.
  intros [Hl Hn]%Forall_app. apply Forall_singleton in Hn as (Hne & _ & _ & Hs). unfold path_Base.
  rewrite bool_decide_eq_false_2 by done.
  assert (trim_right slash (abs_path (l ++ [n])) = abs_path (l ++ [n])) as ->.
  { rewrite abs_path_snoc. generalize (if bool_decide (l = []) then ""%string else abs_path l) as x. intros x.
    pose proof (trim_right_no_sep slash n Hs) as Ht. induction x as [|c x IH]; simpl.
    - rewrite Ht. by destruct n.
    - simpl in IH. rewrite IH. by destruct x. }
  rewrite abs_path_snoc, LastIndex_app by done. set (X := if bool_decide (l = []) then ""%string else abs_path l).
  replace (Z.to_nat (Z.of_nat (len X) + 1)) with (Datatypes.S (len X)) by lia. rewrite str_drop_S_app.
  by rewrite bool_decide_eq_false_2.
Qed.

(** *** The statements of a PUT *)

Lemma UpdateFile_rows id us d d' : quiet d -> us <> [] -> invalid_field us = None -> UpdateFile id us d = (Ok tt, d') ->
  exists f, db_files d !! id = Some f /\
    d' = Database.with_files (<[id := set_updated (db_now d) (foldl (fun f u => apply_update u f) f us)]> (db_files d)) d.
Proof.
  intros Hq Hne Hu. unfold UpdateFile. destruct us as [|u0 us0]; [done|]. rewrite Hu, bind_get. intros E.
  pose proof (exec_affected_quiet "failed to update file" "file not found"
    (update_file id (fun f => set_updated (db_now d) (foldl (fun f u => apply_update u f) f (u0 :: us0)))) d Hq) as Ee.
  rewrite Ee in E. clear Ee. unfold update_file in E. destruct (db_files d !! id) as [f|] eqn:Ef; [|done]. exists f. split; [done|].
  destruct (negb (unique_ok _ _)); [done|]. destruct (negb (references_ok _ _)); [done|]. by injection E as <-.
Qed.

Definition put_updates (mid : string) (size : Z) (code name : string) : list field_update :=
  [U_manifest_id (Some mid); U_size_bytes size; U_checksum (Some code); U_mime_type (detectContentType name)].

Definition put_row (mid : string) (size now : Z) (code name : string) (f : File) : File :=
  set_updated now (foldl (fun f u => apply_update u f) f (put_updates mid size code name)).

Lemma put_row_place mid size now code name f : same_place f (put_row mid size now code name f).
Proof. by destruct f. Qed.

Lemma or_send_ok_inv {A} (m : GoM (Dav S) A) code msg w a w' : or_send m code msg w = (Ok a, w') -> m w = (Ok a, w').
Proof.
  unfold or_send. intros E. apply bind_ok_inv in E as ([x|e] & w1 & E1 & E2).
  - injection E2 as <- <-. unfold attempt in E1. by destruct (m w) as [[]]; simplify_eq.
  - destruct (run_error (A := A) code msg w1) as [y Ey]. by rewrite Ey in E2.
Qed.

Lemma db_ok_inv {A} (m : GoM DB A) w a w' : on_dav_db m w = (Ok a, w') -> exists d, m (dav_db w) = (Ok a, d) /\ w' = with_dav_db d w.
Proof. rewrite run_db. destruct (m (dav_db w)) as [r d]. intros [= -> <-]. by exists d. Qed.

(** What is known after a PUT that succeeded: [id] is the row written. *)
Definition put_done (data : bytes) (id : string) w w' : Prop :=
  exists pieces mid m t name, concat pieces = data /\ quiet (dav_db w') /\ sound (dv_conn w').1 /\
    (forall d, d ∈ pieces -> stored_as (dv_conn w').1 d) /\
    db_manifests (dav_db w') !! mid = Some m /\ m_Chunks m = sha256_hex <$> pieces /\ mid <> ""%string /\
    exists g, db_files (dav_db w') !! id = Some (put_row mid (zlen data) t (sha256_hex data) name g) /\
      ((db_files (dav_db w) !! id = Some g /\ db_files (dav_db w') = <[id := put_row mid (zlen data) t (sha256_hex data) name g]> (db_files (dav_db w))) \/
       (db_files (dav_db w') = <[id := put_row mid (zlen data) t (sha256_hex data) name g]> (<[id := g]> (db_files (dav_db w))) /\ f_ID g = id /\
        db_files (dav_db w) !! id = None)).

Lemma created_fresh u p n m sz d f d' : VFS_CreateFile u p n m sz d = (Ok f, d') -> db_files d !! f_ID f = None.
Proof.
  unfold VFS_CreateFile. destruct (negb _); [done|]. intros E. apply bind_ok_inv in E as (? & d1 & E0 & E).
  assert (db_files d1 = db_files d) as Ed1.
  { unfold must_be_absent, GetFileByPath, scan_row, attempt, sql_query, mbind, GoM_bind in E0. simpl in E0.
    destruct (next_fault (db_faults d)) as [[] l]; simpl in E0; [by injection E0 as _ <-|].
    destruct (filter _ _); simpl in E0; [by injection E0 as _ <-|done]. }
  rewrite bind_get in E. apply bind_ok_inv in E as (id & d2 & E2 & E).
  assert (db_files d2 = db_files d) as Ed2 by (destruct (generateID_ok "file" d1) as (i & rr & Eg); rewrite Eg in E2; by injection E2 as _ <-).
  apply bind_ok_inv in E as ([] & d3 & E & E'). injection E' as <- _. unfold wrap in E.
  destruct (CreateFile _ d2) as [[]] eqn:Ec; try done. clear E.
  unfold CreateFile, attempt, sql_exec, mbind, GoM_bind in Ec. destruct (next_fault _) as [[] l]; [done|].
  unfold insert_file in Ec. simpl in Ec. rewrite Ed2 in Ec.
  destruct (bool_decide (is_Some (db_files d !! id))) eqn:Eb; [done|]. apply bool_decide_eq_false in Eb. by apply eq_None_not_Some.
Qed.

Lemma found_ok_inv u p code msg w f w' : quiet (dav_db w) -> found_or err_text u p code msg w = (Ok f, w') ->
  w' = w /\ getFileByPath u p (dav_db w) = (Ok f, dav_db w).
Proof.
  intros Hq E. pose proof (run_found err_text u p code msg w) as Hr. destruct (lookup_quiet u p (dav_db w) Hq) as [y Ey].
  rewrite Ey, with_dav_db_id in Hr. destruct y as [g|e| |]; [|destruct Hr as [x Hr]; by rewrite Hr in E..].
  rewrite Hr in E. by injection E as <- <-.
Qed.

Lemma put_error_ok_inv {A} (m : GoM (Server S) A) w a w' : put_error m w = (Ok a, w') ->
  m (dv_conn w).1 = (Ok a, (dv_conn w').1) /\ w' = mkDav ((dv_conn w').1, (dv_conn w).2) (dv_locks w).
Proof.
  unfold put_error. intros E. apply bind_ok_inv in E as ([x|e] & w1 & E1 & E2).
  - injection E2 as <- <-. destruct w as [[s y] k]. unfold attempt, on_dav_server, on_conn, on_server in E1. simpl in *.
    destruct (m s) as [[]]; simplify_eq. done.
  - by destruct e.
Qed.

Lemma put_tail_inv id hashes size name code z w w' : quiet (dav_db w) ->
  (manifestRand ← or_send (on_dav_server (on_rand (rand_read 16))) 500 "Failed to generate manifest ID";
   let manifestID := ("manifest_" +:+ hex_encode manifestRand)%string in
   t ← on_dav_server now;
   or_send (on_dav_db (CreateManifest (mkManifestRow manifestID id 1 size (zlen hashes) hashes code "webdav" t))) 500 "Failed to create manifest";;
   or_send (on_dav_db (UpdateFile id (put_updates manifestID size code name))) 500 "Failed to update file";;
   say (C_status z)) w = (Ok tt, w') ->
  exists mid m t g, mid <> ""%string /\ m_Chunks m = hashes /\ db_files (dav_db w) !! id = Some g /\
    db_files (dav_db w') = <[id := put_row mid size t code name g]> (db_files (dav_db w)) /\
    db_manifests (dav_db w') !! mid = Some m /\ db_chunks (dav_db w') = db_chunks (dav_db w) /\ quiet (dav_db w') /\
    sv_store (dv_conn w').1 = sv_store (dv_conn w).1.
Proof.
  intros Hq E. apply bind_ok_inv in E as (b & w1 & E1 & E). apply or_send_ok_inv in E1.
  destruct w as [[[d s ss] x] k]. unfold dav_db in *. cbn [dv_conn sv_db fst] in *.
  unfold on_dav_server, on_conn, on_server, on_rand, on_db in E1. simpl in E1. destruct (rand_read 16 (db_rand d)) as [rb rr].
  injection E1 as -> <-. cbv zeta in E. set (mid := ("manifest_" +:+ hex_encode b)%string) in E.
  rewrite (bind_ok _ _ _ (db_now d) (mkDav (mkServer (with_rand rr d) s ss, x) k)) in E by done.
  set (m := mkManifestRow mid id 1 size (zlen hashes) hashes code "webdav" (db_now d)) in E.
  apply bind_ok_inv in E as (u1 & w2 & E2 & E). apply or_send_ok_inv, db_ok_inv in E2 as (d2 & E2 & ->).
  unfold dav_db in E2. simpl in E2. rewrite CreateManifest_quiet in E2 by exact Hq.
  destruct (insert_manifest m (with_rand rr d)) as [e|[n1 d3]] eqn:Ei; [done|]. injection E2 as _ <-.
  apply insert_manifest_inv in Ei as [_ ->].
  apply bind_ok_inv in E as (u2 & w3 & E3 & E). apply or_send_ok_inv, db_ok_inv in E3 as (d4 & E3 & ->). destruct u2.
  apply UpdateFile_rows in E3 as (g & Hg & ->); [|exact Hq|done|done].
  unfold dav_db in Hg. simpl in Hg. rewrite run_say in E. injection E as <-. exists mid, m, (db_now d), g. simpl. rewrite lookup_insert_eq. done.
Qed.

Lemma put_inv r l n data w w' : let u := getUserID creds r in let path := abs_path (l ++ [n]) in
  u <> ""%string -> wf_chunker chunker -> Forall good_elem (l ++ [n]) -> read_limited maxUploadSize (q_body r) = Ok data ->
  sound (dv_conn w).1 -> no_collision (segment data) (dv_conn w).1 ->
  handlePut err_text chunker st creds r path w = (Ok tt, w') ->
  exists id, put_done data id w w' /\
    ((exists f, getFileByPath u path (dav_db w) = (Ok f, dav_db w) /\ id = f_ID f) \/
     (exists q g, (forall f, (getFileByPath u path (dav_db w)).1 <> Ok f) /\ db_files (dav_db w) !! id = None /\
        (l = [] /\ q = ""%string \/ l <> [] /\ exists parent, getFileByPath u (abs_path l) (dav_db w) = (Ok parent, dav_db w) /\ q = f_ID parent) /\
        at_path u (parent_pointer q) n g /\ f_ID g = id /\ f_Type g = "file"%string /\
        exists g', db_files (dav_db w') = <[id := g']> (<[id := g]> (db_files (dav_db w))) /\ same_place g g')).
Proof.
  intros u path Hu Hch Hg Hbody Hs Hnc E. pose proof (proj1 Hs) as Hq. fold (dav_db w) in Hq. unfold handlePut in E.
  rewrite (bind_ok _ _ _ _ _ (run_user creds r w Hu)) in E. fold u in E. cbv zeta in E. unfold path in E.
  rewrite path_Dir_abs, path_Base_abs in E by done.
  apply bind_ok_inv in E as (q & w1 & E1 & E).
  assert (w1 = w /\ (l = [] /\ q = ""%string \/ l <> [] /\ exists parent, getFileByPath u (abs_path l) (dav_db w) = (Ok parent, dav_db w) /\ q = f_ID parent))
    as [-> Hpar].
  { destruct l as [|b l]; [injection E1 as <- <-; split; [done|by left]|].
    rewrite abs_path_not_root in E1 by (done || by apply Forall_app in Hg as [? _]).
    apply bind_ok_inv in E1 as (parent & w2 & E1 & E2). apply found_ok_inv in E1 as [-> E1]; [|done].
    injection E2 as <- <-. split; [done|]. right. split; [done|]. by exists parent. }
  clear E1. apply bind_ok_inv in E as (e & w1 & E1 & E).
  destruct (lookup_quiet u (abs_path (l ++ [n])) (dav_db w) Hq) as [y Ey]. destruct (lookup_err u (abs_path (l ++ [n])) (dav_db w)) as [Hsy _].
  rewrite Ey in Hsy. rewrite (attempt_db _ w y (dav_db w) Ey Hsy), with_dav_db_id in E1. injection E1 as <- <-.
  destruct (maxUploadSize <? q_ContentLength r).
  { destruct (run_error (A := unit) 413 "File too large" w) as [x Ex]. by rewrite Ex in E. }
  apply bind_ok_inv in E as (data' & w1 & E1 & E). apply or_send_ok_inv in E1. unfold lift in E1. rewrite Hbody in E1. injection E1 as <- <-.
  apply bind_ok_inv in E as (p & w1 & E1 & E). apply or_send_ok_inv in E1. unfold lift in E1.
  destruct (cut_part chunker data Hch) as (pieces & Ecut & Hcat). rewrite Ecut in E1. injection E1 as <- <-.
  apply bind_ok_inv in E as (hashes & w1 & E1 & E). apply put_error_ok_inv in E1 as [E1 Ew1].
  destruct (process_chunks_stores Hkeys (segment data) (dv_conn w).1 st pieces Hnc) with (off := 0) (pre := @nil bytes) (w := (dv_conn w).1)
    as (s1 & Ep & Hs1 & [[cs Hcs] _] & _ & Hst & _); [intros d Hd; rewrite <-Hcat; by apply concat_segment|done|split; [exists (db_chunks (dav_db w)); by destruct w as [[[[] ? ?] ?] ?]|auto]|].
  simpl in Ep. unfold put_chunks in E1. rewrite Ep in E1. injection E1 as <- Es1. rewrite <-Es1 in Ew1. clear Es1.
  assert (dav_db w1 = with_chunks cs (dav_db w) /\ (dv_conn w1).1 = s1) as [Ed1 Ec1] by (rewrite Ew1; split; [exact Hcs|done]).
  assert (quiet (dav_db w1)) as Hq1 by (rewrite Ed1; exact Hq).
  assert (forall id w2, sv_store (dv_conn w2).1 = sv_store s1 -> db_chunks (dav_db w2) = db_chunks (dav_db w1) -> quiet (dav_db w2) ->
    forall mid m t g, mid <> ""%string -> m_Chunks m = sha256_hex <$> pieces -> db_files (dav_db w2) !! id = Some g ->
    db_files (dav_db w') = <[id := put_row mid (zlen data) t (sha256_hex data) n g]> (db_files (dav_db w2)) ->
    db_manifests (dav_db w') !! mid = Some m -> db_chunks (dav_db w') = db_chunks (dav_db w2) -> quiet (dav_db w') ->
    sv_store (dv_conn w').1 = sv_store (dv_conn w2).1 ->
    (db_files (dav_db w2) = db_files (dav_db w) \/
     db_files (dav_db w2) = <[id := g]> (db_files (dav_db w)) /\ f_ID g = id /\ db_files (dav_db w) !! id = None) ->
    put_done data id w w') as Hdone.
  { intros id w2 Hst2 Hch2 Hq2 mid m t g Hmid Hm Hgid Hfiles Hman Hch' Hq' Hst' Hcase.
    assert (sv_store (dv_conn w').1 = sv_store s1) as Hstore by congruence.
    exists pieces, mid, m, t, n. split_and!; try done.
    - split_and!; [exact Hq'|rewrite Hstore; apply Hs1..|]. intros h c Hc. rewrite Hstore. destruct Hs1 as (_ & _ & _ & Hrows).
      apply (Hrows h c). unfold dav_db in *. by rewrite <-Ec1, <-Hch2, <-Hch'.
    - intros d Hd. unfold stored_as. rewrite Hstore. by apply Hst.
    - exists g. rewrite Hfiles, lookup_insert_eq. split; [done|]. destruct Hcase as [Hf|(Hf & Hid & Hn)]; [left|right].
      + rewrite <-Hf. done.
      + rewrite Hf. by split_and!. }
  apply bind_ok_inv in E as (id & w2 & E2 & E). destruct y as [f|e'| |]; try done; cbv beta iota in E2, E.
  - injection E2 as <- <-. apply put_tail_inv in E as (mid & m & t & g & Hmid & Hm & Hgid & Hfiles & Hman & Hch' & Hq' & Hst'); [|done].
    exists (f_ID f). split; [|left; by exists f]. eapply (Hdone (f_ID f) w1); try done; [by rewrite Ec1|]. left. by rewrite Ed1.
  - apply bind_ok_inv in E2 as (g & w3 & E3 & E2). injection E2 as <- <-. apply or_send_ok_inv, db_ok_inv in E3 as (d3 & E3 & ->).
    pose proof (created_fresh _ _ _ _ _ _ _ _ E3) as Hfresh. rewrite Ed1 in E3, Hfresh.
    apply VFS_CreateFile_inv in E3 as [[i Eg] [rr Hd3]]; [|exact Hq].
    apply put_tail_inv in E as (mid & m & t & g' & Hmid & Hm & Hgid & Hfiles & Hman & Hch' & Hq' & Hst'); [|by rewrite Hd3].
    assert (db_files (dav_db (with_dav_db d3 w1)) = <[f_ID g := g]> (db_files (dav_db w))) as Hf3 by (unfold dav_db; simpl; by rewrite Hd3).
    assert (g' = g) as -> by (rewrite Hf3, lookup_insert_eq in Hgid; by injection Hgid).
    exists (f_ID g). split.
    + eapply (Hdone (f_ID g) (with_dav_db d3 w1)); try done.
      * by rewrite <-Ec1.
      * unfold dav_db at 1. simpl. by rewrite Hd3, Ed1.
      * unfold dav_db. simpl. by rewrite Hd3.
      * right. rewrite Hf3. done.
    + right. exists q, g. split_and!; [by unfold path; rewrite Ey|done|done|by rewrite Eg|done|by rewrite Eg|].
      eexists. rewrite Hfiles, Hf3. split; [done|apply put_row_place].
Qed.

(** *** Reading *)

Lemma stream_sends ps : forall w, holds plain_blob ps (dv_conn w).1 -> w_faults (dav_out w) = [] ->
  exists s', streamChunks ps.*1 w = (Ok tt, mkDav (s', wrote (dav_out w) ps.*2) (dv_locks w)).
Proof.
  induction ps as [|[h d] ps IH]; intros [[s x] k] Hh Hf.
  { exists s. unfold dav_out in *. simpl in *. by rewrite wrote_nil. }
  unfold dav_out in *. cbn [dv_conn snd dv_locks] in *. rewrite !fmap_cons. cbn [streamChunks fst snd]. destruct Hh as [Hr Hb].
  destruct (Hb (h, d) ltac:(by left)) as [Hk Hhd]. destruct (get_ready h d (sv_store s) Hk Hr Hhd) as (s' & E & Hr' & Hfr).
  set (s1 := mkServer (sv_db s) s' (sv_sessions s)).
  assert (attempt (on_dav_server (on_store (Get h))) (mkDav (s, x) k) = (Ok (inl d), mkDav (s1, x) k)) as Ea.
  { unfold attempt, on_dav_server, on_conn, on_server, on_store. simpl in *. by rewrite E. }
  rewrite (bind_ok _ _ _ _ _ Ea).
  assert (wrap "failed to write chunk data" (say_or_fail (Raw d)) (mkDav (s1, x) k) = (Ok tt, mkDav (s1, wrote x [d]) k)) as Ew.
  { unfold wrap, say_or_fail, on_conn, on_writer. simpl. fold (Write d x). by rewrite (write_ok x d Hf). }
  rewrite (bind_ok _ _ _ _ _ Ew). destruct (IH (mkDav (s1, wrote x [d]) k)) as [s2 E2]; [|done|].
  - split; [done|]. intros p Hp. destruct (Hb p ltac:(by right)) as [Hkp Hbp]. split; [done|]. simpl. by rewrite Hfr.
  - exists s2. simpl in E2. rewrite E2. f_equal. f_equal. by rewrite wrote_app.
Qed.

(** The response with the whole content. *)
Definition dav_sends (content : bytes) (r : Res unit * Dav S) : Prop :=
  exists w' qs, r = (Ok tt, w') /\ w_status (dav_out w') = Some 200 /\ w_body (dav_out w') = Raw <$> qs /\ concat qs = content.

Lemma get_sends r path w f mid m ps : let u := getUserID creds r in u <> ""%string -> quiet (dav_db w) -> fresh (dav_out w) ->
  getFileByPath u path (dav_db w) = (Ok f, dav_db w) -> f_Type f = "file"%string -> q_IfNoneMatch r = ""%string ->
  f_ManifestID f = Some mid -> mid <> ""%string -> db_manifests (dav_db w) !! mid = Some m -> m_Chunks m = ps.*1 ->
  holds plain_blob ps (dv_conn w).1 -> dav_sends (concat ps.*2) (handleGet http_time err_text creds r path w).
Proof.
  intros u Hu Hq (Hst & Hb & Hfl) Hf Ht Hin Hmid Hne Hm Hch Hh. unfold handleGet. rewrite (bind_ok _ _ _ _ _ (run_user creds r w Hu)).
  pose proof (run_found err_text u path 404 "Resource not found" w) as Er. rewrite Hf, with_dav_db_id in Er.
  rewrite (bind_ok _ _ _ _ _ Er), Ht. rewrite bool_decide_eq_false_2 by done. do 3 (rewrite (bind_ok _ _ _ _ _ (run_say _ _))).
  assert (forall w1 : Dav S, exists h, (match f_Checksum f with Some c => say (C_header "ETag" (quoted c)) | None => mret tt end) w1 =
    (Ok tt, with_out (mkWriter h (w_status (dav_out w1)) (w_body (dav_out w1)) (w_faults (dav_out w1))) w1)) as He.
  { intros [[s [h st0 b fl]] k]. destruct (f_Checksum f); [rewrite run_say|]; by eexists. }
  match goal with |- context [(_ ≫= _) ?w1] => destruct (He w1) as [h Eh] end. rewrite (bind_ok _ _ _ _ _ Eh). clear He Eh.
  rewrite Hin, bool_decide_eq_true_2 by done. assert ((match f_Checksum f with Some c => negb true && bool_decide (""%string = quoted c) | None => false end) = false) as ->
    by (by destruct (f_Checksum f)).
  rewrite Hmid. destruct mid as [|c0 mid0] eqn:Emid; [done|]. rewrite <-Emid in *.
  match goal with |- context [(_ ≫= _) ?w1] => set (w1' := w1) end.
  assert (or_send (on_dav_db (GetManifest mid)) 500 "Failed to get file manifest" w1' = (Ok m, w1')) as Em.
  { pose proof (run_or_send (GetManifest mid) 500 "Failed to get file manifest" w1') as Ho.
    assert (GetManifest mid (dav_db w1') = (Ok m, dav_db w1')) as Eg.
    { unfold GetManifest. rewrite scan_row_quiet by exact Hq. change (dav_db w1') with (dav_db w). by rewrite Hm. }
    rewrite Eg, with_dav_db_id in Ho. by apply Ho. }
  rewrite (bind_ok _ _ _ _ _ Em), (bind_ok _ _ _ _ _ (run_say _ _)), Hch.
  destruct (stream_sends ps (with_out (plain_call (C_status 200) (dav_out w1')) w1') Hh Hfl) as [s' Es].
  exists (mkDav (s', wrote (plain_call (C_status 200) (dav_out w1')) ps.*2) (dv_locks w)), ps.*2.
  split; [unfold ignore, attempt, mbind, GoM_bind; by rewrite Es|].
  unfold dav_out in *. simpl. unfold send_status. simpl. rewrite Hst, Hb. done.
Qed.
End PutGet.


(** ** Witnesses *)

Section Witnesses.
#[local] Existing Instance toy_hash.
#[local] Existing Instance transfer_backend.

Definition no_creds : option (string -> string -> string * bool) := None.
Definition dav0 : Dav FS := mkDav (mkServer Upload.db0 (mkFS ∅ ∅ []) ∅, no_response) ∅.
Definition ask (method path dest token : string) (body : reader) : dav_request :=
  mkDavRequest method path "u" None "" "" dest "" "" token 0 body "".

Definition put_a : dav_request := ask "PUT" "/a.txt" "" "" [([x68], None)].
Definition after_put : Dav FS := (handlePut (fun _ => ""%string) small_chunker "local" no_creds put_a "/a.txt" dav0).2.

Lemma dav0_sound : sound (dv_conn dav0).1.
Proof.
  split; [reflexivity|]. split; [reflexivity|]. split; [intros k _; apply not_elem_of_empty|].
  intros h c Hc. simpl in Hc. by rewrite lookup_empty in Hc.
Qed.

Lemma dav0_no_collision : no_collision (segment [x68]) (dv_conn dav0).1.
Proof.
  intros d d' Hd [Hd'|(h & _ & Hb)].
  - destruct (Encrypted.segments_one _ _ Hd) as [-> | ->], (Encrypted.segments_one _ _ Hd') as [-> | ->]; try done; intros E; by vm_compute in E.
  - simpl in Hb. unfold local_blob in Hb. simpl in Hb. by rewrite lookup_empty in Hb.
Qed.

Lemma one_row_one_name u d k f : db_files d = {[k := f]} -> one_name u d.
Proof.
  intros E p n k1 f1 k2 f2. rewrite E. rewrite !lookup_singleton_Some. by intros [<- _] _ [<- _].
Qed.

Definition the_row : string * File := default (""%string, root_folder "" 0) (head (map_to_list (db_files (dav_db after_put)))).


(** A file of another user, and a locked folder of one's own. *)
Definition shared_db : DB := two_users [row_of "u" "a" None "folder"; row_of "v" "b" None "file"].
Definition locked : Dav FS := mkDav (mkServer shared_db (mkFS ∅ ∅ []) ∅, no_response) {["a"%string := mkLock "t" "u" (10 ^ 15) false]}.

Lemma stays_witness : foreign "u" (dav_db (ServeHTTP (fun _ => ""%string) (fun _ => ""%string) (fun _ => ""%string) (fun s => s) "/webdav"
  small_chunker "local" no_creds 5 (ask "DELETE" "/webdav/b" "" "" []) locked).2) = foreign "u" shared_db.
Proof.
  apply (webdav_stays_with_owner (fun _ => ""%string) (fun _ => ""%string) (fun _ => ""%string) (fun s => s) "/webdav" small_chunker "local"
    no_creds 5 (ask "DELETE" "/webdav/b" "" "" []) locked).
  - intros k f Hk. assert (map_Forall (fun k f => f_ID f = k) shared_db.(db_files)) as Hm by (apply (bool_decide_unpack _); vm_compute; exact I).
    by apply (Hm k f).
  - vm_compute. reflexivity.
Defined.

Lemma locks_witness : exists x, handleDelete (fun _ => ""%string) no_creds (ask "DELETE" "/a" "" "" []) "/a" locked =
  (Err (ErrHTTP 423 "Resource is locked"), with_out x locked).
Proof.
  apply (locks_bind_delete_and_move (fun _ => ""%string) (fun _ => ""%string) small_chunker "local" no_creds 5 (ask "DELETE" "/a" "" "" []) "/a"
    locked (row_of "u" "a" None "folder")); [done|reflexivity|vm_compute; reflexivity|vm_compute; reflexivity].
Defined.

Definition unlocked : Dav FS := mkDav (dv_conn locked) ∅.

Lemma lock_unlock_witness : exists tok w1, handleLock (fun _ => ""%string) (fun s => s) no_creds (ask "LOCK" "/a" "" "" []) "/a" unlocked = (Ok tt, w1) /\
  dv_locks w1 = {["a"%string := mkLock tok "u" (db_now shared_db * Second + default_timeout) false]}.
Proof.
  destruct (lock_unlock_roundtrip (fun _ => ""%string) (fun s => s) no_creds (ask "LOCK" "/a" "" "" []) (ask "UNLOCK" "/a" "" "" []) "/a" unlocked
    (row_of "u" "a" None "folder")) as (tok & w1 & E & _ & _ & El & _); [done|done|done|done| |by exists tok, w1].
  intros x. vm_compute. reflexivity.
Defined.

Lemma propfind_witness : w_body (dav_out (handlePropFind (fun _ => ""%string) (fun _ => ""%string) (fun _ => ""%string) no_creds
  (ask "PROPFIND" "/a" "" "" []) "/a" unlocked).2) = [Raw (bytes_of xml_header)].
Proof.
  destruct (propfind_lists_nothing (fun _ => ""%string) (fun _ => ""%string) (fun _ => ""%string) no_creds (ask "PROPFIND" "/a" "" "" []) "/a"
    unlocked) as (_ & _ & E); [done..|]. exact E.
Defined.

Lemma destination_witness : exists x code msg,
  handleMove (fun _ => ""%string) no_creds (ask "MOVE" "/a" "http://h/webdav/c" "" []) "/a" unlocked = (Err (ErrHTTP code msg), with_out x unlocked) /\
  (code = 404 \/ code = 409 \/ code = 423).
Proof.
  eapply (destination_keeps_base_path (fun _ => ""%string) no_creds 5 (ask "MOVE" "/a" "http://h/webdav/c" "" []) "/a" unlocked "webdav" [] "c");
    [done|reflexivity|by apply (bool_decide_unpack _)|done|vm_compute; reflexivity| |by right].
  intros (k & f & Hk & _ & _ & Hn & _). assert (map_Forall (fun _ f => f_Name f <> "webdav"%string) shared_db.(db_files)) as Hm
    by (apply (bool_decide_unpack _); vm_compute; exact I). by apply (Hm k f).
Defined.

Lemma mkcol_witness : exists x code msg,
  handleMkCol no_creds (ask "MKCOL" "/new/" "" "" []) "/new/" unlocked = (Err (ErrHTTP code msg), with_out x unlocked) /\ code = 409.
Proof.
  apply (mkcol_trailing_slash no_creds (ask "MKCOL" "/new/" "" "" []) unlocked ["new"%string]); [done|reflexivity|done|].
  by apply (bool_decide_unpack _).
Defined.
End Witnesses.
