(* ===== verification/Schema.v ===== *)
(** * The schema, its migrations, the default data, the audit log and the settings
    (internal/db: db.go, schema.go, seed.go, audit.go, settings.go)

    The tables of the administration lie next to those of users and files.  The
    schema itself is a catalogue of names: which tables, indexes and added columns
    exist, and the version that is recorded.  Each statement is one call of the
    driver; no transaction joins them. *)

From S2P Require Import Prelude GoStrings GoCrypto Util Database Devices Users Crypto AuthService Rbac.

(** ** The catalogue *)

(** [Create_table] with the names and declarations of its columns (a table
    constraint has no name), [Create_index] with its table and columns: both do
    nothing when the name exists. *)
Inductive statement :=
  | Create_table (name : string) (columns : list (string * string))
  | Create_index (unique : bool) (name table : string) (columns : list string)
  | Add_column (table column declaration : string).

Record Catalog := mkCatalog {
  ct_tables : gset string; ct_indexes : gset string; ct_columns : gset (string * string); ct_version : option Z
}.

Definition run_statement (q : statement) (c : Catalog) : error + Catalog :=
  match q with
  | Create_table t _ => inr (mkCatalog ({[t]} ∪ ct_tables c) (ct_indexes c) (ct_columns c) (ct_version c))
  | Create_index _ i t _ =>
      if bool_decide (t ∈ ct_tables c) then inr (mkCatalog (ct_tables c) ({[i]} ∪ ct_indexes c) (ct_columns c) (ct_version c))
      else inl (Errorf ("no such table: " +:+ t))
  | Add_column t col _ =>
      if negb (bool_decide (t ∈ ct_tables c)) then inl (Errorf ("no such table: " +:+ t))
      else if bool_decide ((t, col) ∈ ct_columns c) then inl (Errorf ("duplicate column name: " +:+ col))
      else inr (mkCatalog (ct_tables c) (ct_indexes c) ({[(t, col)]} ∪ ct_columns c) (ct_version c))
  end.

Definition v1_users : list statement :=
  [
   Create_table "schema_version" [
     ("id", "INTEGER PRIMARY KEY DEFAULT 1"); ("version", "INTEGER NOT NULL"); ("applied_at", "TEXT NOT NULL")]%string;
   Create_table "users" [
     ("id", "TEXT PRIMARY KEY"); ("username", "TEXT UNIQUE NOT NULL"); ("email", "TEXT UNIQUE NOT NULL");
     ("display_name", "TEXT NOT NULL DEFAULT ''"); ("password_hash", "TEXT NOT NULL"); ("role", "TEXT NOT NULL DEFAULT 'user'");
     ("quota_bytes", "INTEGER NOT NULL DEFAULT 10737418240"); ("used_bytes", "INTEGER NOT NULL DEFAULT 0");
     ("totp_secret", "TEXT DEFAULT NULL"); ("totp_enabled", "INTEGER NOT NULL DEFAULT 0"); ("public_key", "BLOB DEFAULT NULL");
     ("encrypted_private_key", "BLOB DEFAULT NULL"); ("recovery_key_hash", "TEXT DEFAULT NULL");
     ("avatar_chunk_hash", "TEXT DEFAULT NULL"); ("status", "TEXT NOT NULL DEFAULT 'active'"); ("last_login_at", "TEXT DEFAULT NULL");
     ("created_at", "TEXT NOT NULL"); ("updated_at", "TEXT NOT NULL")]%string;
   Create_index false "idx_users_username" "users" ["username"]%string;
   Create_index false "idx_users_email" "users" ["email"]%string;
   Create_index false "idx_users_status" "users" ["status"]%string;
   Create_table "sessions" [
     ("id", "TEXT PRIMARY KEY"); ("user_id", "TEXT NOT NULL REFERENCES users(id) ON DELETE CASCADE");
     ("refresh_token", "TEXT UNIQUE NOT NULL"); ("device_name", "TEXT NOT NULL DEFAULT 'Unknown'");
     ("device_type", "TEXT NOT NULL DEFAULT 'web'"); ("ip_address", "TEXT NOT NULL"); ("user_agent", "TEXT NOT NULL DEFAULT ''");
     ("last_active_at", "TEXT NOT NULL"); ("expires_at", "TEXT NOT NULL"); ("created_at", "TEXT NOT NULL")]%string;
   Create_index false "idx_sessions_user" "sessions" ["user_id"]%string;
   Create_index false "idx_sessions_refresh" "sessions" ["refresh_token"]%string;
   Create_index false "idx_sessions_expires" "sessions" ["expires_at"]%string;
   Create_table "api_tokens" [
     ("id", "TEXT PRIMARY KEY"); ("user_id", "TEXT NOT NULL REFERENCES users(id) ON DELETE CASCADE"); ("name", "TEXT NOT NULL");
     ("token_hash", "TEXT UNIQUE NOT NULL"); ("permissions", "TEXT NOT NULL DEFAULT '[]'"); ("last_used_at", "TEXT DEFAULT NULL");
     ("expires_at", "TEXT DEFAULT NULL"); ("created_at", "TEXT NOT NULL")]%string;
   Create_index false "idx_api_tokens_user" "api_tokens" ["user_id"]%string;
   Create_index false "idx_api_tokens_hash" "api_tokens" ["token_hash"]%string].

Definition v1_files : list statement :=
  [
   Create_table "files" [
     ("id", "TEXT PRIMARY KEY"); ("user_id", "TEXT NOT NULL REFERENCES users(id) ON DELETE CASCADE");
     ("parent_id", "TEXT DEFAULT NULL REFERENCES files(id) ON DELETE CASCADE"); ("name", "TEXT NOT NULL");
     ("name_encrypted", "BLOB DEFAULT NULL"); ("type", "TEXT NOT NULL"); ("size_bytes", "INTEGER NOT NULL DEFAULT 0");
     ("mime_type", "TEXT NOT NULL DEFAULT 'application/octet-stream'"); ("manifest_id", "TEXT DEFAULT NULL");
     ("checksum", "TEXT DEFAULT NULL"); ("is_encrypted", "INTEGER NOT NULL DEFAULT 0"); ("encrypted_key", "BLOB DEFAULT NULL");
     ("is_trashed", "INTEGER NOT NULL DEFAULT 0"); ("trashed_at", "TEXT DEFAULT NULL"); ("version", "INTEGER NOT NULL DEFAULT 1");
     ("created_at", "TEXT NOT NULL"); ("updated_at", "TEXT NOT NULL"); ("", "UNIQUE(user_id, parent_id, name)")]%string;
   Create_index false "idx_files_user" "files" ["user_id"]%string;
   Create_index false "idx_files_parent" "files" ["parent_id"]%string;
   Create_index false "idx_files_user_parent" "files" ["user_id"; "parent_id"]%string;
   Create_index false "idx_files_name" "files" ["name"]%string;
   Create_index false "idx_files_type" "files" ["type"]%string;
   Create_index false "idx_files_trashed" "files" ["is_trashed"]%string;
   Create_index false "idx_files_updated" "files" ["updated_at"]%string;
   Create_index false "idx_files_mime" "files" ["mime_type"]%string;
   Create_table "manifests" [
     ("id", "TEXT PRIMARY KEY"); ("file_id", "TEXT NOT NULL REFERENCES files(id) ON DELETE CASCADE"); ("version", "INTEGER NOT NULL");
     ("size_bytes", "INTEGER NOT NULL"); ("chunk_count", "INTEGER NOT NULL"); ("chunks", "TEXT NOT NULL"); ("checksum", "TEXT NOT NULL");
     ("device_id", "TEXT NOT NULL"); ("created_at", "TEXT NOT NULL"); ("", "UNIQUE(file_id, version)")]%string;
   Create_index false "idx_manifests_file" "manifests" ["file_id"]%string;
   Create_index false "idx_manifests_file_version" "manifests" ["file_id"; "version"]%string;
   Create_table "chunks" [
     ("hash", "TEXT PRIMARY KEY"); ("size_bytes", "INTEGER NOT NULL"); ("storage_backend", "TEXT NOT NULL");
     ("storage_path", "TEXT NOT NULL"); ("ref_count", "INTEGER NOT NULL DEFAULT 1"); ("is_encrypted", "INTEGER NOT NULL DEFAULT 0");
     ("created_at", "TEXT NOT NULL")]%string;
   Create_index false "idx_chunks_backend" "chunks" ["storage_backend"]%string;
   Create_index false "idx_chunks_refcount" "chunks" ["ref_count"]%string;
   Create_table "shares" [
     ("id", "TEXT PRIMARY KEY"); ("file_id", "TEXT NOT NULL REFERENCES files(id) ON DELETE CASCADE");
     ("created_by", "TEXT NOT NULL REFERENCES users(id) ON DELETE CASCADE"); ("share_type", "TEXT NOT NULL");
     ("token", "TEXT UNIQUE DEFAULT NULL"); ("password_hash", "TEXT DEFAULT NULL"); ("expires_at", "TEXT DEFAULT NULL");
     ("max_downloads", "INTEGER DEFAULT NULL"); ("download_count", "INTEGER NOT NULL DEFAULT 0");
     ("allow_upload", "INTEGER NOT NULL DEFAULT 0"); ("preview_only", "INTEGER NOT NULL DEFAULT 0");
     ("shared_with", "TEXT DEFAULT NULL REFERENCES users(id) ON DELETE CASCADE"); ("permission", "TEXT NOT NULL DEFAULT 'read'");
     ("encrypted_key", "BLOB DEFAULT NULL"); ("is_active", "INTEGER NOT NULL DEFAULT 1"); ("view_count", "INTEGER NOT NULL DEFAULT 0");
     ("created_at", "TEXT NOT NULL"); ("updated_at", "TEXT NOT NULL")]%string;
   Create_index false "idx_shares_file" "shares" ["file_id"]%string;
   Create_index false "idx_shares_token" "shares" ["token"]%string;
   Create_index false "idx_shares_created_by" "shares" ["created_by"]%string;
   Create_index false "idx_shares_shared_with" "shares" ["shared_with"]%string;
   Create_index false "idx_shares_active" "shares" ["is_active"]%string;
   Create_table "devices" [
     ("id", "TEXT PRIMARY KEY"); ("user_id", "TEXT NOT NULL REFERENCES users(id) ON DELETE CASCADE"); ("name", "TEXT NOT NULL");
     ("device_type", "TEXT NOT NULL"); ("os", "TEXT NOT NULL DEFAULT ''"); ("sync_folder", "TEXT NOT NULL DEFAULT ''");
     ("last_sync_at", "TEXT DEFAULT NULL"); ("vector_clock", "TEXT NOT NULL DEFAULT '{}'"); ("merkle_root", "TEXT DEFAULT NULL");
     ("is_active", "INTEGER NOT NULL DEFAULT 1"); ("created_at", "TEXT NOT NULL"); ("updated_at", "TEXT NOT NULL")]%string;
   Create_index false "idx_devices_user" "devices" ["user_id"]%string;
   Create_index false "idx_devices_active" "devices" ["is_active"]%string;
   Create_table "sync_state" [
     ("id", "TEXT PRIMARY KEY"); ("device_id", "TEXT NOT NULL REFERENCES devices(id) ON DELETE CASCADE");
     ("file_id", "TEXT NOT NULL REFERENCES files(id) ON DELETE CASCADE"); ("manifest_id", "TEXT NOT NULL");
     ("vector_clock", "TEXT NOT NULL"); ("synced_at", "TEXT NOT NULL"); ("", "UNIQUE(device_id, file_id)")]%string;
   Create_index false "idx_sync_state_device" "sync_state" ["device_id"]%string;
   Create_index false "idx_sync_state_file" "sync_state" ["file_id"]%string].

Definition v1_site : list statement :=
  [
   Create_table "roles" [
     ("id", "TEXT PRIMARY KEY"); ("name", "TEXT UNIQUE NOT NULL"); ("description", "TEXT NOT NULL DEFAULT ''");
     ("is_system", "INTEGER NOT NULL DEFAULT 0"); ("created_at", "TEXT NOT NULL")]%string;
   Create_table "permissions" [
     ("id", "TEXT PRIMARY KEY"); ("role_id", "TEXT NOT NULL REFERENCES roles(id) ON DELETE CASCADE"); ("resource", "TEXT NOT NULL");
     ("action", "TEXT NOT NULL"); ("scope", "TEXT NOT NULL DEFAULT 'own'"); ("", "UNIQUE(role_id, resource, action, scope)")]%string;
   Create_index false "idx_permissions_role" "permissions" ["role_id"]%string;
   Create_table "user_roles" [
     ("user_id", "TEXT NOT NULL REFERENCES users(id) ON DELETE CASCADE");
     ("role_id", "TEXT NOT NULL REFERENCES roles(id) ON DELETE CASCADE"); ("", "PRIMARY KEY(user_id, role_id)")]%string;
   Create_table "audit_log" [
     ("id", "TEXT PRIMARY KEY"); ("user_id", "TEXT DEFAULT NULL"); ("action", "TEXT NOT NULL"); ("resource_type", "TEXT NOT NULL");
     ("resource_id", "TEXT DEFAULT NULL"); ("details", "TEXT NOT NULL DEFAULT '{}'"); ("ip_address", "TEXT NOT NULL DEFAULT ''");
     ("user_agent", "TEXT NOT NULL DEFAULT ''"); ("created_at", "TEXT NOT NULL")]%string;
   Create_index false "idx_audit_user" "audit_log" ["user_id"]%string;
   Create_index false "idx_audit_action" "audit_log" ["action"]%string;
   Create_index false "idx_audit_resource" "audit_log" ["resource_type"; "resource_id"]%string;
   Create_index false "idx_audit_created" "audit_log" ["created_at"]%string;
   Create_table "settings" [
     ("key", "TEXT PRIMARY KEY"); ("value", "TEXT NOT NULL"); ("updated_at", "TEXT NOT NULL")]%string;
   Create_table "federation_peers" [
     ("id", "TEXT PRIMARY KEY"); ("name", "TEXT NOT NULL"); ("public_url", "TEXT NOT NULL"); ("public_key", "TEXT NOT NULL");
     ("status", "TEXT NOT NULL DEFAULT 'active'"); ("last_seen", "TEXT NOT NULL"); ("created_at", "TEXT NOT NULL");
     ("capabilities", "TEXT NOT NULL DEFAULT ''")]%string;
   Create_index false "idx_federation_peers_status" "federation_peers" ["status"]%string;
   Create_index true "idx_federation_peers_url" "federation_peers" ["public_url"]%string;
   Create_table "federation_invites" [
     ("id", "TEXT PRIMARY KEY"); ("from_peer_id", "TEXT NOT NULL"); ("token", "TEXT UNIQUE NOT NULL"); ("expires_at", "TEXT NOT NULL");
     ("used", "INTEGER NOT NULL DEFAULT 0"); ("created_at", "TEXT NOT NULL")]%string;
   Create_index false "idx_federation_invites_token" "federation_invites" ["token"]%string;
   Create_index false "idx_federation_invites_expires" "federation_invites" ["expires_at"]%string;
   Create_table "federated_shares" [
     ("id", "TEXT PRIMARY KEY"); ("local_file_id", "TEXT NOT NULL REFERENCES files(id) ON DELETE CASCADE"); ("peer_id", "TEXT NOT NULL");
     ("remote_user_id", "TEXT NOT NULL"); ("permission", "TEXT NOT NULL DEFAULT 'read'"); ("token", "TEXT UNIQUE NOT NULL");
     ("expires_at", "TEXT DEFAULT NULL"); ("created_at", "TEXT NOT NULL")]%string;
   Create_index false "idx_federated_shares_file" "federated_shares" ["local_file_id"]%string;
   Create_index false "idx_federated_shares_token" "federated_shares" ["token"]%string;
   Create_index false "idx_federated_shares_peer" "federated_shares" ["peer_id"]%string].

Definition v1_statements : list statement := v1_users ++ v1_files ++ v1_site.

Definition v2_statement : statement := Add_column "users" "password_change_required" "INTEGER NOT NULL DEFAULT 0".

Definition v3_statements : list statement :=
  [
   Create_index false "idx_files_user_trashed" "files" ["user_id"; "is_trashed"]%string;
   Create_index false "idx_files_user_trashed_trashed_at" "files" ["user_id"; "is_trashed"; "trashed_at"]%string;
   Create_index false "idx_files_user_type_updated" "files" ["user_id"; "is_trashed"; "type"; "updated_at"]%string;
   Create_index false "idx_shares_created_by_active" "shares" ["created_by"; "is_active"]%string;
   Create_index false "idx_shares_shared_with_active" "shares" ["shared_with"; "is_active"]%string;
   Create_index false "idx_shares_file_active" "shares" ["file_id"; "is_active"]%string;
   Create_index false "idx_audit_user_created" "audit_log" ["user_id"; "created_at"]%string].

(** ** The tables of the administration (types.go) *)

Record RoleRow := mkRoleRow { rr_ID : string; rr_Name : string; rr_Description : string; rr_IsSystem : bool; rr_CreatedAt : Z }.
Record PermissionRow := mkPermissionRow { pm_ID : string; pm_RoleID : string; pm_Grant : Permission }.

Record AuditEntry := mkAudit {
  ae_ID : string; ae_UserID : option string; ae_Action : string; ae_ResourceType : string; ae_ResourceID : option string;
  ae_Details : string; ae_IPAddress : string; ae_UserAgent : string; ae_CreatedAt : Z
}.

Record Setting := mkSetting { set_Value : string; set_UpdatedAt : Z }.

Record SiteTables := mkSite {
  si_auth : AuthTables; si_catalog : Catalog; si_roles : gmap string RoleRow; si_permissions : gmap string PermissionRow;
  si_audit : gmap string AuditEntry; si_settings : gmap string Setting
}.

Definition SiteDB : Type := Ext SiteTables.

Definition with_catalog (c : Catalog) (w : SiteDB) : SiteDB :=
  let t := tab w in with_tab (mkSite (si_auth t) c (si_roles t) (si_permissions t) (si_audit t) (si_settings t)) w.
Definition with_roles (m : gmap string RoleRow) (w : SiteDB) : SiteDB :=
  let t := tab w in with_tab (mkSite (si_auth t) (si_catalog t) m (si_permissions t) (si_audit t) (si_settings t)) w.
Definition with_permissions (m : gmap string PermissionRow) (w : SiteDB) : SiteDB :=
  let t := tab w in with_tab (mkSite (si_auth t) (si_catalog t) (si_roles t) m (si_audit t) (si_settings t)) w.
Definition with_audit (m : gmap string AuditEntry) (w : SiteDB) : SiteDB :=
  let t := tab w in with_tab (mkSite (si_auth t) (si_catalog t) (si_roles t) (si_permissions t) m (si_settings t)) w.
Definition with_settings (m : gmap string Setting) (w : SiteDB) : SiteDB :=
  let t := tab w in with_tab (mkSite (si_auth t) (si_catalog t) (si_roles t) (si_permissions t) (si_audit t) m) w.

(** The operations on users, sessions and tokens. *)
Definition on_accounts {A} (m : GoM AuthDB A) : GoM SiteDB A := fun w =>
  let t := tab w in
  let '(r, a) := m (mkExt (base w) (si_auth t)) in
  (r, mkExt (base a) (mkSite (tab a) (si_catalog t) (si_roles t) (si_permissions t) (si_audit t) (si_settings t))).

(** ** Migrations *)

Definition exec_statement (q : statement) : GoM SiteDB unit :=
  tab_exec (fun w => match run_statement q (si_catalog (tab w)) with inl e => inl e | inr c => inr (0, with_catalog c w) end);; mret tt.

(** The table is created before the version is looked at, with other defaults than
    in the first migration. *)
Definition schema_version_columns : list (string * string) :=
  [("id", "INTEGER PRIMARY KEY DEFAULT 1"); ("version", "INTEGER NOT NULL DEFAULT 0"); ("applied_at", "TEXT NOT NULL DEFAULT ''")]%string.

Definition CurrentSchemaVersion : Z := 3.

(** No row of schema_version reads as version 0. *)
Definition GetVersion : GoM SiteDB Z := tab_query (fun w => default 0 (ct_version (si_catalog (tab w)))).

Definition set_version (v : Z) (c : Catalog) : Catalog := mkCatalog (ct_tables c) (ct_indexes c) (ct_columns c) (Some v).

Definition SetVersion (version : Z) : GoM SiteDB unit :=
  tab_exec (fun w => inr (1, with_catalog (set_version version (si_catalog (tab w))) w));; mret tt.

Definition migrationV1 : GoM SiteDB unit := forM v1_statements (fun q => wrap "failed to execute query" (exec_statement q)).
Definition migrationV2 : GoM SiteDB unit := ignore (exec_statement v2_statement).
Definition migrationV3 : GoM SiteDB unit := forM v3_statements (fun q => wrap "failed to create index" (exec_statement q)).

Definition runMigration (version : Z) : GoM SiteDB unit :=
  if version =? 1 then migrationV1
  else if version =? 2 then migrationV2
  else if version =? 3 then migrationV3
  else fail (Errorf ("unknown migration version: " +:+ pretty version)).

(** The versions after [current]. *)
Definition pending (current : Z) : list Z :=
  (fun k => current + 1 + Z.of_nat k) <$> seq 0 (Z.to_nat (CurrentSchemaVersion - current)).

Definition migrate : GoM SiteDB unit :=
  wrap "failed to create schema_version table" (exec_statement (Create_table "schema_version" schema_version_columns));;
  currentVersion ← wrap "failed to get schema version" GetVersion;
  if CurrentSchemaVersion <=? currentVersion then mret tt
  else forM (pending currentVersion) (fun version =>
         wrap ("failed to run migration " +:+ pretty version) (runMigration version);;
         wrap ("failed to set schema version " +:+ pretty version) (SetVersion version)).

(** ** The default data *)

Record Site := mkSiteWorld { site_db : SiteDB; site_ids : Ids }.

Definition on_site {A} (m : GoM SiteDB A) : GoM Site A := fun w =>
  let '(r, d) := m (site_db w) in (r, mkSiteWorld d (site_ids w)).

Definition site_now : GoM Site Z := on_site tab_now.

(** [id, _ := util.GenerateUUIDv7()]: a failing random source gives the empty
    identifier.  The generator counts milliseconds. *)
Definition fresh_id : GoM Site string := fun w =>
  let d := base (site_db w) in
  let '(r, (ids, rnd)) := attempt (GenerateUUIDv7 (1000 * db_now d)) (site_ids w, db_rand d) in
  (match r with
   | Ok (inl id) => Ok id
   | Ok (inr _) => Ok ""%string
   | Err e => Err e
   | Panic s => Panic s
   | OutOfFuel => OutOfFuel
   end, mkSiteWorld (mkExt (with_rand rnd d) (tab (site_db w))) ids).

Definition insert_role (r : RoleRow) (w : SiteDB) : error + (Z * SiteDB) :=
  let m := si_roles (tab w) in
  if bool_decide (is_Some (m !! rr_ID r)) || existsb (fun v => bool_decide (rr_Name v = rr_Name r)) (rows m) then inl ErrUnique
  else inr (1, with_roles (<[rr_ID r := r]> m) w).

Definition same_grant (p v : PermissionRow) : bool := bool_decide (pm_RoleID v = pm_RoleID p) && bool_decide (pm_Grant v = pm_Grant p).

Definition insert_permission (p : PermissionRow) (w : SiteDB) : error + (Z * SiteDB) :=
  let m := si_permissions (tab w) in
  if bool_decide (is_Some (m !! pm_ID p)) || existsb (same_grant p) (rows m) then inl ErrUnique
  else if db_fk (base w) && negb (bool_decide (is_Some (si_roles (tab w) !! pm_RoleID p))) then inl ErrForeignKey
  else inr (1, with_permissions (<[pm_ID p := p]> m) w).

(** The row as given, the flag of a due password change included. *)
Definition insert_seeded (u : User) : GoM AuthDB Z :=
  tab_exec (fun w => match insert_user u w with inl _ => inl ErrUnique | r => r end).

Definition seed_roles : list (string * string * string) :=
  [("role_admin", "admin", "Full system control"); ("role_user", "user", "Standard user");
   ("role_guest", "guest", "Guest user with limited access")]%string.

Definition adminPerms : list Permission :=
  [mkPerm "file" "read" "all"; mkPerm "file" "write" "all"; mkPerm "file" "delete" "all"; mkPerm "file" "share" "all";
   mkPerm "folder" "read" "all"; mkPerm "folder" "write" "all"; mkPerm "folder" "delete" "all"; mkPerm "folder" "share" "all";
   mkPerm "user" "read" "all"; mkPerm "user" "write" "all"; mkPerm "user" "delete" "all"; mkPerm "user" "manage" "all";
   mkPerm "share" "read" "all"; mkPerm "share" "write" "all"; mkPerm "share" "delete" "all";
   mkPerm "system" "read" "all"; mkPerm "system" "write" "all"; mkPerm "system" "manage" "all"].

Definition userPerms : list Permission :=
  [mkPerm "file" "read" "own"; mkPerm "file" "write" "own"; mkPerm "file" "delete" "own"; mkPerm "file" "share" "own";
   mkPerm "file" "read" "group";
   mkPerm "folder" "read" "own"; mkPerm "folder" "write" "own"; mkPerm "folder" "delete" "own"; mkPerm "folder" "share" "own";
   mkPerm "folder" "read" "group";
   mkPerm "share" "read" "own"; mkPerm "share" "write" "own"; mkPerm "share" "delete" "own"].

Definition guestPerms : list Permission := [mkPerm "file" "read" "group"; mkPerm "folder" "read" "group"].

Definition seed_permission (role : string) (perm : Permission) : GoM Site unit :=
  id ← fresh_id;
  on_site (tab_exec (insert_permission (mkPermissionRow id role perm)));;
  mret tt.

Definition adminPasswordHash : string :=
  "$argon2id$v=19$m=65536,t=3,p=1$6IOdsT/ZB3Yc39wdhST32A$0psObWN9M9SCF1zLWMsE9lef9JFfK2pqsY1o2M3x2zg".

(** The columns that the statement does not list take their defaults. *)
Definition seeded_admin (id : string) (now : Z) : User :=
  mkUser id "admin" "admin@localhost" "Administrator" adminPasswordHash "admin" 10737418240 0 None false [] [] None None
    "active" true None now now.

Definition seed : GoM Site unit :=
  count ← on_site (tab_query (fun w => Z.of_nat (size (si_roles (tab w)))));
  if 0 <? count then mret tt
  else
    now ← site_now;
    forM seed_roles (fun '(id, name, description) =>
      on_site (tab_exec (insert_role (mkRoleRow id name description true now)));; mret tt);;
    forM adminPerms (seed_permission "role_admin");;
    forM userPerms (seed_permission "role_user");;
    forM guestPerms (seed_permission "role_guest");;
    adminID ← fresh_id;
    on_site (on_accounts (insert_seeded (seeded_admin adminID now)));;
    mret tt.

(** ** Opening *)

Definition pragmas : list string :=
  ["PRAGMA journal_mode=WAL"; "PRAGMA busy_timeout=5000"; "PRAGMA synchronous=NORMAL"; "PRAGMA foreign_keys=ON"; "PRAGMA cache_size=-64000"]%string.

(** A call of the driver that leaves the tables alone. *)
Definition driver_call : GoM SiteDB unit := tab_query (fun _ => tt).

Definition Ping : GoM SiteDB unit := driver_call.

(** [mkdir] and [connect] are the outcomes of [os.MkdirAll] and [sql.Open]. *)
Definition Open (mkdir connect : Res unit) : GoM Site unit :=
  wrap "failed to create database directory" (lift mkdir);;
  wrap "failed to open database" (lift connect);;
  forM pragmas (fun p => wrap ("failed to set pragma " +:+ quoted p) (on_site driver_call));;
  wrap "failed to ping database" (on_site Ping);;
  wrap "failed to migrate database" (on_site migrate);;
  wrap "failed to seed database" seed.

(** ** The audit log *)

Definition CreateAuditEntry (entry : AuditEntry) : GoM SiteDB unit :=
  wrap "failed to create audit entry" (tab_exec (fun w =>
    let m := si_audit (tab w) in
    if bool_decide (is_Some (m !! ae_ID entry)) then inl ErrUnique
    else inr (1, with_audit (<[ae_ID entry := entry]> m) w)));;
  mret tt.

(** The WHERE clause: a filter that is not given does not restrict; [None] is the
    zero time. *)
Definition audit_matches (userID : option string) (action resourceType : string) (from to_ : option Z) (e : AuditEntry) : bool :=
  match userID with None => true | Some u => bool_decide (ae_UserID e = Some u) end &&
  (bool_decide (action = ""%string) || bool_decide (ae_Action e = action)) &&
  (bool_decide (resourceType = ""%string) || bool_decide (ae_ResourceType e = resourceType)) &&
  match from with None => true | Some t => t <=? ae_CreatedAt e end &&
  match to_ with None => true | Some t => ae_CreatedAt e <=? t end.

Definition newest_entry (a b : AuditEntry) : Prop := ae_CreatedAt b <= ae_CreatedAt a.

#[export] Instance newest_entry_dec : RelDecision newest_entry.
Proof. intros a b. unfold newest_entry. apply _. Defined.

Definition GetAuditEntries (userID : option string) (action resourceType : string) (from to_ : option Z) (limit offset : Z) :
  GoM SiteDB (list AuditEntry * Z) :=
  let chosen (w : SiteDB) := List.filter (audit_matches userID action resourceType from to_) (rows (si_audit (tab w))) in
  total ← wrap "failed to count audit entries" (tab_query (fun w => Z.of_nat (length (chosen w))));
  entries ← wrap "failed to list audit entries"
    (tab_query (fun w => sql_page limit offset (merge_sort newest_entry (chosen w))));
  mret (entries, total).

(** The number removed; [olderThan] is in nanoseconds, the text of the cutoff in
    seconds. *)
Definition CleanupOldAuditEntries (olderThan : Z) : GoM SiteDB Z :=
  t ← tab_now;
  let cutoff := (t * Second - olderThan) / Second in
  wrap "failed to cleanup audit entries" (tab_exec (fun w =>
    let m := si_audit (tab w) in
    let kept := filter (fun kv => cutoff <= ae_CreatedAt kv.2) m in
    inr (Z.of_nat (size m) - Z.of_nat (size kept), with_audit kept w))).

(** ** Settings *)

Definition GetSetting (key : string) : GoM SiteDB string :=
  tab_scan "setting not found" "failed to get setting" (fun w => set_Value <$> si_settings (tab w) !! key).

Definition GetSettingOrDefault (key defaultValue : string) : GoM SiteDB string :=
  r ← attempt (GetSetting key); mret (match r with inl value => value | inr _ => defaultValue end).

Definition SetSetting (key value : string) : GoM SiteDB unit :=
  t ← tab_now;
  wrap "failed to set setting" (tab_exec (fun w => inr (1, with_settings (<[key := mkSetting value t]> (si_settings (tab w))) w)));;
  mret tt.

Definition DeleteSetting (key : string) : GoM SiteDB unit :=
  rows ← wrap "failed to delete setting" (tab_exec (fun w =>
    let m := si_settings (tab w) in
    if bool_decide (is_Some (m !! key)) then inr (1, with_settings (delete key m) w) else inr (0, w)));
  tab_affected "setting not found" rows.

Definition GetAllSettings : GoM SiteDB (gmap string string) :=
  wrap "failed to list settings" (tab_query (fun w => set_Value <$> si_settings (tab w))).

(** ** The policy of the tables and that of the engine *)

Definition requests : list (string * string * string) :=
  r ← ["file"; "folder"; "share"; "user"; "system"]%string;
  a ← ["read"; "write"; "delete"; "share"; "manage"]%string;
  s ← ["own"; "group"; "all"]%string; [(r, a, s)].

Definition granted (perms : list Permission) (q : string * string * string) : bool :=
  let '(r, a, s) := q in existsb (fun p => Matches p r a s) perms.

(** What the first list grants and the second does not. *)
Definition granted_only (perms perms' : list Permission) : list (string * string * string) :=
  List.filter (fun q => granted perms q && negb (granted perms' q)) requests.

(** ** Lemmas: the catalogue *)

Notation cat w := (si_catalog (tab w)).

Definition object_in (q : statement) (c : Catalog) : Prop :=
  match q with
  | Create_table t _ => t ∈ ct_tables c
  | Create_index _ i _ _ => i ∈ ct_indexes c
  | Add_column t col _ => (t, col) ∈ ct_columns c
  end.

Definition has_objects (l : list statement) (c : Catalog) : Prop := forall q, q ∈ l -> object_in q c.

Definition catalog_le (c c' : Catalog) : Prop :=
  ct_tables c ⊆ ct_tables c' /\ ct_indexes c ⊆ ct_indexes c' /\ ct_columns c ⊆ ct_columns c'.

Definition version_of (c : Catalog) : Z := default 0 (ct_version c).

(** What a version promises. *)
Definition promised (v : Z) : list statement :=
  (if 1 <=? v then v1_statements else []) ++ (if 3 <=? v then v3_statements else []).

Definition catalog_ok (c : Catalog) : Prop := 0 <= version_of c /\ has_objects (promised (version_of c)) c.

(** The state differs from [w0] in the catalogue and in the calls consumed. *)
Definition only_catalog (w0 w : SiteDB) : Prop := exists c l, w = with_catalog c (mkExt (with_faults l (base w0)) (tab w0)).

Lemma object_in_le q c c' : catalog_le c c' -> object_in q c -> object_in q c'.
Proof. intros (H1 & H2 & H3). destruct q; simpl; set_solver. Qed.

Lemma has_objects_le l c c' : catalog_le c c' -> has_objects l c -> has_objects l c'.
Proof. intros Hle Hl q Hq. by apply (object_in_le _ c), Hl. Qed.

Lemma run_statement_le q c c' : run_statement q c = inr c' ->
  catalog_le c c' /\ object_in q c' /\ ct_version c' = ct_version c.
Proof.
  unfold run_statement, catalog_le. destruct q; repeat case_match; intros E; simplify_eq; simpl; split_and!; set_solver.
Qed.

(** A statement that creates what exists changes nothing. *)
Lemma run_statement_again q c : object_in q c -> (forall t i u cs, q = Create_index u i t cs -> t ∈ ct_tables c) ->
  (forall t col dc, q <> Add_column t col dc) -> run_statement q c = inr c.
Proof.
  intros Hq Ht Hc. destruct c as [ts ix cs v]. destruct q as [t refs|u i t cs'|t col dc]; simpl in *.
  - by rewrite subseteq_union_1_L by set_solver.
  - rewrite bool_decide_eq_true_2 by (by eapply Ht). by rewrite subseteq_union_1_L by set_solver.
  - by destruct (Hc t col dc).
Qed.

Section Migration.
Context (w0 : SiteDB) (quiet : bool).

(** While migrating: the objects [os] exist, version [v] is recorded; with a quiet
    driver nothing fails. *)
Definition migrating (os : list statement) (v : Z) (w : SiteDB) : Prop :=
  only_catalog w0 w /\ catalog_le (cat w0) (cat w) /\ version_of (cat w) = v /\ has_objects os (cat w) /\
  (quiet = true -> still w).

Definition interrupted (os : list statement) (v : Z) (w : SiteDB) : Prop := quiet = false /\ migrating os v w.

(** The table of an index is there. *)
Definition creates (t : string) (q : statement) : bool := match q with Create_table t' _ => bool_decide (t' = t) | _ => false end.

Definition runnable (os : list statement) (q : statement) : bool :=
  match q with Create_index _ _ t _ => existsb (creates t) os | Add_column _ _ _ => false | _ => true end.

Lemma only_catalog_step w l c : only_catalog w0 w -> only_catalog w0 (with_catalog c (mkExt (with_faults l (base w)) (tab w))).
Proof. intros (c1 & l1 & ->). exists c, l. reflexivity. Qed.

Lemma migrating_faults os v w l : migrating os v w -> (quiet = true -> l = []) ->
  migrating os v (mkExt (with_faults l (base w)) (tab w)).
Proof.
  intros (Hc & Hle & Hv & Ho & Hq) Hl. split_and!; try done.
  pose proof (only_catalog_step w l (cat w) Hc) as H. by destruct w as [? []].
Qed.

Lemma next_fault_quiet os v w f l : migrating os v w -> next_fault (db_faults (base w)) = (f, l) ->
  quiet = true -> f = false /\ l = [].
Proof. intros (_ & _ & _ & _ & Hq) E Hqt. unfold still in Hq. rewrite (Hq Hqt) in E. by injection E as <- <-. Qed.

Lemma exec_statement_spec os v q : (quiet = true -> runnable os q = true) ->
  hoare (migrating os v) (exec_statement q) (fun _ => migrating (q :: os) v) (interrupted os v).
Proof.
  intros Hrun w Hw. unfold exec_statement, tab_exec, mbind, GoM_bind.
  destruct (next_fault (db_faults (base w))) as [f l] eqn:El. pose proof (next_fault_quiet os v w f l Hw El) as Hq.
  destruct f.
  { destruct quiet eqn:Eq; [by destruct (Hq eq_refl)|]. split; [done|]. apply migrating_faults; [done|]. by rewrite Eq. }
  pose proof (migrating_faults os v w l Hw ltac:(naive_solver)) as Hw1.
  destruct (run_statement q (cat (mkExt (with_faults l (base w)) (tab w)))) as [e|c] eqn:Er.
  - split; [|done]. destruct quiet eqn:Eq; [|done]. exfalso. specialize (Hrun eq_refl).
    destruct Hw as (_ & _ & _ & Ho & _). destruct q as [t refs|u i t cs'|t col dc]; simpl in *; [done| |done].
    apply existsb_exists in Hrun as ([t' refs| |] & Ht%list_elem_of_In & Hc); try done. apply bool_decide_eq_true in Hc as ->.
    apply Ho in Ht. simpl in Ht. by rewrite bool_decide_eq_true_2 in Er.
  - apply run_statement_le in Er as (Hle & Hin & Hver). destruct Hw1 as (Hc & Hle0 & Hv & Ho & Hst). simpl in *.
    split; [by apply (only_catalog_step w l c), Hw|]. simpl.
    split_and!; [|by unfold version_of; rewrite Hver| |exact Hst].
    + unfold catalog_le in *. set_solver.
    + intros q' [->|Hq']%elem_of_cons; [done|]. by apply (object_in_le _ _ _ Hle), Ho.
Qed.

Lemma migrating_weaken os os' v w : os' ⊆ os -> migrating os v w -> migrating os' v w.
Proof. intros Hs (? & ? & ? & Ho & ?). split_and!; try done. intros q Hq. by apply Ho, Hs. Qed.

(** A list of statements in which each index follows its table. *)
Fixpoint ordered (os l : list statement) : bool :=
  match l with [] => true | q :: l => runnable os q && ordered (q :: os) l end.

Lemma exec_all_spec msg v l os : (quiet = true -> ordered os l = true) ->
  hoare (migrating os v) (forM l (fun q => wrap msg (exec_statement q))) (fun _ => migrating (l ++ os) v) (interrupted os v).
Proof.
  revert os. induction l as [|q l IH]; intros os Hord; simpl; [by apply hoare_ret|].
  eapply hoare_bind.
  { apply hoare_wrap, exec_statement_spec. intros Hq. by apply andb_true_iff in Hord as [? _]. }
  intros ?. eapply hoare_conseq; [apply (IH (q :: os)); intros Hq; by apply andb_true_iff in Hord as [_ ?]|done| |].
  - intros ? w. apply migrating_weaken. set_solver.
  - intros w [? Hw]. split; [done|]. by eapply migrating_weaken, Hw; set_solver.
Qed.

Lemma set_version_spec os v v' :
  hoare (migrating os v) (SetVersion v') (fun _ => migrating os v') (interrupted os v).
Proof.
  intros w Hw. unfold SetVersion, tab_exec, mbind, GoM_bind.
  destruct (next_fault (db_faults (base w))) as [f l] eqn:El. pose proof (next_fault_quiet os v w f l Hw El) as Hq.
  destruct f.
  { destruct quiet eqn:Eq; [by destruct (Hq eq_refl)|]. split; [done|]. apply migrating_faults; [done|]. by rewrite Eq. }
  destruct (migrating_faults os v w l Hw ltac:(naive_solver)) as (Hc & Hle0 & Hv & Ho & Hst). simpl in *.
  split; [by apply (only_catalog_step w l), Hw|]. by split_and!.
Qed.

(** Whether or not it succeeds. *)
Lemma exec_any_spec os v q :
  hoare (migrating os v) (exec_statement q) (fun _ => migrating os v) (migrating os v).
Proof.
  intros w Hw. unfold exec_statement, tab_exec, mbind, GoM_bind.
  destruct (next_fault (db_faults (base w))) as [f l] eqn:El. pose proof (next_fault_quiet os v w f l Hw El) as Hq.
  assert (migrating os v (mkExt (with_faults l (base w)) (tab w))) as Hw1 by (apply migrating_faults; naive_solver).
  destruct f; [done|]. destruct (run_statement q _) as [e|c] eqn:Er; [done|].
  apply run_statement_le in Er as (Hle & Hin & Hver). destruct Hw1 as (Hc & Hle0 & Hv & Ho & Hst). simpl in *.
  split; [by apply (only_catalog_step w l c), Hw|]. simpl.
  split_and!; [unfold catalog_le in *; set_solver|by unfold version_of; rewrite Hver| |exact Hst].
  intros q' Hq'. by apply (object_in_le _ _ _ Hle), Ho.
Qed.

Definition version_objects (v : Z) : list statement := if v =? 1 then v1_statements else if v =? 3 then v3_statements else [].

(** One turn of the loop of [migrate]. *)
Lemma migration_step os v : v ∈ [1; 2; 3] -> (quiet = true -> ordered os (version_objects v) = true) ->
  hoare (migrating os (v - 1))
    (wrap ("failed to run migration " +:+ pretty v) (runMigration v);; wrap ("failed to set schema version " +:+ pretty v) (SetVersion v))
    (fun _ => migrating (version_objects v ++ os) v) (interrupted os (v - 1)).
Proof.
  intros Hv Hord. eapply (hoare_bind _ _ _ (fun _ => migrating (version_objects v ++ os) (v - 1))).
  - apply hoare_wrap.
    apply elem_of_cons in Hv as [->|Hv]; [by apply exec_all_spec|].
    apply elem_of_cons in Hv as [->|Hv]; [by apply hoare_ignore, exec_any_spec|].
    apply list_elem_of_singleton in Hv as ->. by apply exec_all_spec.
  - intros ?. eapply hoare_conseq; [apply hoare_wrap, set_version_spec|done|done|].
    intros w [? Hw]. split; [done|]. eapply migrating_weaken, Hw. set_solver.
Qed.

(** Every outcome of the loop. *)
Definition stopped (v0 : Z) (w : SiteDB) : Prop :=
  quiet = false /\ only_catalog w0 w /\ catalog_le (cat w0) (cat w) /\ catalog_ok (cat w) /\ v0 <= version_of (cat w).

Lemma interrupted_stopped os v0 v w : promised v ⊆ os -> 0 <= v -> v0 <= v -> interrupted os v w -> stopped v0 w.
Proof.
  intros Hp H0 Hv (Hq & Hc & Hle & Hver & Ho & _). split_and!; try done; [|lia].
  split; [lia|]. rewrite Hver. intros q Hq'. by apply Ho, Hp.
Qed.

Lemma runnable_mono os os' q : os ⊆ os' -> runnable os q = true -> runnable os' q = true.
Proof.
  intros Hs. destruct q as [|u i t cs|]; simpl; try done. rewrite !existsb_exists. intros (q & Hq & Hc).
  exists q. split; [|done]. apply list_elem_of_In, Hs. by apply list_elem_of_In.
Qed.

Lemma ordered_mono os os' l : os ⊆ os' -> ordered os l = true -> ordered os' l = true.
Proof.
  revert os os'. induction l as [|q l IH]; intros os os' Hs; simpl; [done|]. rewrite !andb_true_iff. intros [Hr Ho].
  split; [by eapply runnable_mono|]. eapply IH, Ho. set_solver.
Qed.

Lemma version_ordered os v : promised (v - 1) ⊆ os -> v ∈ [1; 2; 3] -> ordered os (version_objects v) = true.
Proof.
  intros Hp Hv. apply (ordered_mono (promised (v - 1))); [done|].
  apply elem_of_cons in Hv as [->|Hv]; [by vm_compute|]. apply elem_of_cons in Hv as [->|Hv]; [done|].
  apply list_elem_of_singleton in Hv as ->. by vm_compute.
Qed.

Lemma promised_next os v : promised (v - 1) ⊆ os -> v ∈ [1; 2; 3] -> promised v ⊆ version_objects v ++ os.
Proof.
  intros Hp Hv. apply elem_of_cons in Hv as [->|Hv]; [|apply elem_of_cons in Hv as [->|Hv]; [|apply list_elem_of_singleton in Hv as ->]].
  - change (v1_statements ++ [] ⊆ v1_statements ++ os). generalize v1_statements. intros l. rewrite app_nil_r. by apply list_subseteq_app_l.
  - exact Hp.
  - change (v1_statements ++ [] ⊆ os) in Hp. change (v1_statements ++ v3_statements ⊆ v3_statements ++ os).
    revert Hp. generalize v1_statements, v3_statements. intros l1 l3. rewrite app_nil_r. intros Hp q.
    rewrite !elem_of_app. naive_solver.
Qed.

Fixpoint leads (v : Z) (vs : list Z) : Prop := match vs with [] => v = 3 | v' :: vs => v = v' - 1 /\ v' ∈ [1; 2; 3] /\ leads v' vs end.

Lemma migrations_spec vs v os v0 : 0 <= v -> v0 <= v -> promised v ⊆ os -> leads v vs ->
  hoare (migrating os v)
    (forM vs (fun version => wrap ("failed to run migration " +:+ pretty version) (runMigration version);;
                             wrap ("failed to set schema version " +:+ pretty version) (SetVersion version)))
    (fun _ w => exists os', promised 3 ⊆ os' /\ migrating os' 3 w) (stopped v0).
Proof.
  revert v os. induction vs as [|v' vs IH]; intros v os H0 Hv Hp Hl; simpl in *.
  { subst v. apply hoare_ret. intros w Hw. by exists os. }
  destruct Hl as (-> & Hin & Hl). eapply hoare_bind.
  - eapply hoare_conseq; [apply migration_step|done|done|].
    + done.
    + intros _. by apply version_ordered.
    + intros w. by apply interrupted_stopped.
  - intros ?. apply IH; [lia|lia|by apply promised_next|done].
Qed.
End Migration.

Lemma start_migrating w0 quiet : catalog_ok (cat w0) -> (quiet = true -> still w0) ->
  migrating w0 quiet (promised (version_of (cat w0))) (version_of (cat w0)) w0.
Proof.
  intros [_ Ho] Hq. split_and!; try done. exists (cat w0), (db_faults (base w0)). by destruct w0 as [[] []].
Qed.

Lemma get_version_spec w0 quiet os v :
  hoare (migrating w0 quiet os v) GetVersion (fun n w => n = v /\ migrating w0 quiet os v w) (interrupted w0 quiet os v).
Proof.
  intros w Hw. unfold GetVersion, tab_query.
  destruct (next_fault (db_faults (base w))) as [f l] eqn:El. pose proof (next_fault_quiet _ _ os v w f l Hw El) as Hq.
  assert (migrating w0 quiet os v (mkExt (with_faults l (base w)) (tab w))) as Hw1 by (apply migrating_faults; naive_solver).
  destruct f; [destruct quiet; [by destruct (Hq eq_refl)|by split]|]. split; [|done]. by destruct Hw as (_ & _ & <- & _).
Qed.

Lemma promised_more v : 3 <= v -> promised v = promised 3.
Proof. intros Hv. unfold promised. by rewrite !(proj2 (Z.leb_le _ _)) by lia. Qed.

Lemma migrate_spec w0 quiet : catalog_ok (cat w0) -> (quiet = true -> still w0) ->
  hoare (eq w0) migrate
    (fun _ w => only_catalog w0 w /\ catalog_le (cat w0) (cat w) /\ version_of (cat w) = Z.max 3 (version_of (cat w0)) /\
                has_objects (Create_table "schema_version" schema_version_columns :: promised 3) (cat w) /\ (quiet = true -> still w))
    (stopped w0 quiet (version_of (cat w0))).
Proof.
  intros Hok Hq. pose proof Hok as [H0 _]. set (v := version_of (cat w0)) in *. set (q0 := Create_table "schema_version" schema_version_columns).
  assert (forall w, interrupted w0 quiet (promised v) v w -> stopped w0 quiet v w) as Hstop.
  { intros w. by apply interrupted_stopped; [|lia|lia]. }
  eapply hoare_bind; [apply hoare_wrap; eapply hoare_conseq|].
  - apply (exec_statement_spec w0 quiet (promised v) v q0). done.
  - intros w <-. by apply start_migrating.
  - intros a w Hw. exact Hw.
  - apply Hstop.
  - intros ?. eapply hoare_bind; [apply hoare_wrap; eapply hoare_conseq; [apply get_version_spec|done|done|]|].
    { intros w [? Hw]. apply Hstop. split; [done|]. eapply migrating_weaken, Hw. set_solver. }
    intros n w [-> Hw]. cbn beta. destruct (Z.leb_spec CurrentSchemaVersion v) as [H3|H3]; unfold CurrentSchemaVersion in *.
    + destruct Hw as (Hc & Hle & Hver & Ho & Hst). split_and!; try done; [lia|]. by rewrite promised_more in Ho by lia.
    + assert (leads v (pending v)) as Hl.
      { assert (v = 0 \/ v = 1 \/ v = 2) as [E|[E|E]] by lia; rewrite E; simpl; split_and!; try done; set_solver. }
      pose proof (migrations_spec w0 quiet (pending v) v (q0 :: promised v) v H0 ltac:(lia) ltac:(set_solver) Hl w Hw) as H.
      match goal with |- context [forM ?l ?b ?x] => destruct (forM l b x) as [[]] end; try done.
      destruct H as (os & Hp & Hc & Hle & Hver & Ho & Hst). split_and!; try done; [lia|].
      intros q [->|Hq']%elem_of_cons; [|by apply Ho, Hp]. apply (Ho (Create_table "schema_version" [("id", "INTEGER PRIMARY KEY DEFAULT 1"); ("version", "INTEGER NOT NULL"); ("applied_at", "TEXT NOT NULL")]%string)), Hp.
      vm_compute. by left.
Qed.

Lemma exec_statement_again w q : still w -> object_in q (cat w) -> (forall t i u cs, q = Create_index u i t cs -> t ∈ ct_tables (cat w)) ->
  (forall t col dc, q <> Add_column t col dc) -> exec_statement q w = (Ok tt, w).
Proof.
  intros Hst Hq Ht Hc. unfold exec_statement. rewrite (bind_ok _ _ _ 0 w); [done|]. rewrite tab_exec_still by done.
  rewrite run_statement_again by done. by destruct w as [? []].
Qed.

Lemma migrate_done w : still w -> object_in (Create_table "schema_version" schema_version_columns) (cat w) -> 3 <= version_of (cat w) -> migrate w = (Ok tt, w).
Proof.
  intros Hst Ht Hv. unfold migrate. rewrite (bind_ok _ _ _ tt w).
  2:{ unfold wrap. by rewrite exec_statement_again. }
  rewrite (bind_ok _ _ _ (version_of (cat w)) w).
  2:{ unfold wrap, GetVersion. by rewrite tab_query_still. }
  by rewrite (proj2 (Z.leb_le _ _)).
Qed.


(** ** Lemmas: seeding *)

Lemma hoare_total {W A} (P : W -> Prop) (m : GoM W A) Q : hoare P m Q (fun _ => False) ->
  forall w, P w -> exists a w', m w = (Ok a, w') /\ Q a w'.
Proof. intros Hm w Hw. specialize (Hm w Hw). destruct (m w) as [[a| | |] w']; try done. by exists a, w'. Qed.

Lemma str_lt_irrefl s : ~ str_lt s s.
Proof.
  intros (u & c & d & v & w & E1 & E2 & Hlt). rewrite E1 in E2. clear E1.
  induction u as [|x u IH]; simpl in E2; injection E2; [intros _ ->; lia|auto].
Qed.

Lemma str_lt_ne s t : str_lt s t -> s <> t.
Proof. intros H ->. by apply (str_lt_irrefl t). Qed.

(** The [n]th identifier of the millisecond [T]. *)
Definition nth_id (T n : Z) (rnd : bytes) : string := formatUUID (uuid_bytes T n rnd).

Lemma nth_id_lt T n n' rnd rnd' : 0 <= T < 2 ^ 48 -> 0 <= n < n' -> n' < 4096 -> length rnd = 8%nat -> length rnd' = 8%nat ->
  str_lt (nth_id T n rnd) (nth_id T n' rnd').
Proof.
  intros HT Hn Hn' Hr Hr'. unfold nth_id. rewrite !uuid_bytes_be by lia. apply formatUUID_lt; try done.
  apply be_lt; [lia|lia|]. change (256 ^ Z.of_nat 8) with (2 ^ 48 * 65536). lia.
Qed.

(** [n] identifiers of the millisecond [T] were drawn. *)
Definition drawn (T n : Z) (s : Ids) : Prop :=
  (n = 0 /\ lastTimestamp s < T) \/ (0 < n /\ lastTimestamp s = T /\ sequence s = n - 1).

Lemma draw_next T n s r : drawn T n s -> 0 <= n < 4096 -> rnd_faults r = [] ->
  exists rnd s' r', GenerateUUIDv7 T (s, r) = (Ok (nth_id T n rnd), (s', r')) /\ length rnd = 8%nat /\ drawn T (n + 1) s' /\ rnd_faults r' = [].
Proof.
  intros Hd Hn Hr. destruct (rand_read_ok 8 r Hr) as (rnd & r' & E & Hl & Hf).
  assert (next_sequence T s = ((T, n), mkIds T n)) as Es.
  { unfold next_sequence. destruct Hd as [[-> Hlt]|(Hp & El & Eq)].
    - by rewrite (proj2 (Z.ltb_lt _ _)).
    - rewrite (proj2 (Z.ltb_ge _ _)) by lia. rewrite El, Eq. replace (n - 1 + 1) with n by lia.
      rewrite u32_id by lia. f_equal. f_equal. change 4095 with (Z.ones 12). rewrite Z.land_ones by lia. apply Z.mod_small. lia. }
  exists rnd, (mkIds T n), r'. unfold GenerateUUIDv7. cbn [fst snd]. rewrite Es, E. split_and!; try done. right. simpl. lia.
Qed.

Section Seeding.
Context (w0 : Site).

Notation d0 := (site_db w0).
Notation T := (1000 * db_now (base d0)).

Definition default_roles (now : Z) : gmap string RoleRow :=
  list_to_map ((fun '(id, name, description) => (id, mkRoleRow id name description true now)) <$> seed_roles).

(** Nothing but the roles, the permissions and the identifiers drawn has changed. *)
Definition rest_kept (w : Site) : Prop :=
  let t := tab (site_db w) in let t0 := tab d0 in
  db_now (base (site_db w)) = db_now (base d0) /\ db_files (base (site_db w)) = db_files (base d0) /\
  si_auth t = si_auth t0 /\ si_catalog t = si_catalog t0 /\ si_audit t = si_audit t0 /\ si_settings t = si_settings t0.

(** The permissions [done] are stored, each once, under the identifiers drawn. *)
Definition stored_grants (done : list (string * Permission)) (m : gmap string PermissionRow) : Prop :=
  size m = length done /\
  (forall k p, m !! k = Some p -> k = pm_ID p /\ (pm_RoleID p, pm_Grant p) ∈ done /\
     exists n rnd, 0 <= n < Z.of_nat (length done) /\ length rnd = 8%nat /\ k = nth_id T n rnd) /\
  (forall x, x ∈ done -> exists k p, m !! k = Some p /\ (pm_RoleID p, pm_Grant p) = x).

Definition quiet_site (w : Site) : Prop := still (site_db w) /\ rnd_faults (db_rand (base (site_db w))) = [].

Definition seeding (done : list (string * Permission)) (w : Site) : Prop :=
  rest_kept w /\ quiet_site w /\ drawn T (Z.of_nat (length done)) (site_ids w) /\
  si_roles (tab (site_db w)) = default_roles (db_now (base d0)) /\ stored_grants done (si_permissions (tab (site_db w))).

Lemma on_site_spec {A} (m : GoM SiteDB A) w : on_site m w = let '(r, d) := m (site_db w) in (r, mkSiteWorld d (site_ids w)).
Proof. done. Qed.

Lemma fresh_id_spec n w : rest_kept w -> quiet_site w -> drawn T n (site_ids w) -> 0 <= n < 4096 ->
  exists rnd w', fresh_id w = (Ok (nth_id T n rnd), w') /\ length rnd = 8%nat /\ rest_kept w' /\ quiet_site w' /\
    drawn T (n + 1) (site_ids w') /\ tab (site_db w') = tab (site_db w).
Proof.
  intros Hk [Hs Hr] Hd Hn. destruct (draw_next T n (site_ids w) _ Hd Hn Hr) as (rnd & s' & r' & E & Hl & Hd' & Hr').
  eexists rnd, _. split.
  { unfold fresh_id, attempt. destruct Hk as (-> & _). by rewrite E. }
  by split_and!.
Qed.

Lemma seed_permission_spec done role perm : 0 <= T < 2 ^ 48 -> (length done < 4096)%nat -> (role, perm) ∉ done ->
  is_Some (default_roles (db_now (base d0)) !! role) ->
  hoare (seeding done) (seed_permission role perm) (fun _ => seeding (done ++ [(role, perm)])) (fun _ => False).
Proof.
  intros HT Hlen Hnew Hrole w (Hk & Hq & Hd & Hroles & Hsz & Hall & Hin).
  destruct (fresh_id_spec _ w Hk Hq Hd ltac:(lia)) as (rnd & w1 & E & Hl & Hk1 & Hq1 & Hd1 & Ht).
  unfold seed_permission. rewrite (bind_ok _ _ _ _ _ E). set (id := nth_id T (Z.of_nat (length done)) rnd) in *.
  set (p := mkPermissionRow id role perm). set (m := si_permissions (tab (site_db w))) in *.
  assert (m !! id = None) as Hid.
  { destruct (m !! id) as [q|] eqn:Em; [|done]. exfalso. destruct (Hall _ _ Em) as (_ & _ & n & rnd' & Hn & Hl' & Eid).
    apply (str_lt_ne (nth_id T n rnd') id); [|done]. apply nth_id_lt; try done; lia. }
  assert (insert_permission p (site_db w1) = inr (1, with_permissions (<[id := p]> m) (site_db w1))) as Ei.
  { unfold insert_permission. rewrite Ht. fold m. change (pm_ID p) with id. rewrite Hid. rewrite bool_decide_eq_false_2 by (by intros [? ?]).
    assert (existsb (same_grant p) (rows m) = false) as ->.
    { apply not_true_iff_false. intros (q & Hq' & Hsame)%existsb_exists. apply list_elem_of_In, elem_of_rows in Hq' as [k Ek].
      destruct (Hall _ _ Ek) as (_ & Hd' & _). unfold same_grant in Hsame. apply andb_true_iff in Hsame as [H1 H2].
      apply bool_decide_eq_true in H1, H2. rewrite H1, H2 in Hd'. done. }
    rewrite Hroles. rewrite bool_decide_eq_true_2 by done. by rewrite andb_false_r. }
  unfold mbind, GoM_bind. rewrite on_site_spec, tab_exec_still by apply Hq1. rewrite Ei. simpl.
  destruct Hk1 as (K1 & K2 & K3 & K4 & K5 & K6), Hq1 as [Q1 Q2].
  assert (rest_kept (mkSiteWorld (with_permissions (<[id:=p]> m) (site_db w1)) (site_ids w1))) as Hk2 by (by split_and!).
  split; [exact Hk2|]. split; [by split|]. split; [|split; [|split; [|split]]].
  - rewrite length_app. simpl. by replace (Z.of_nat (length done + 1)) with (Z.of_nat (length done) + 1) by lia.
  - simpl. by rewrite Ht.
  - simpl. rewrite map_size_insert_None by done. rewrite length_app, Hsz. simpl. lia.
  - simpl. intros k q [[<- <-]|[Hne Hq']]%lookup_insert_Some.
    + split_and!; [done|set_solver|]. exists (Z.of_nat (length done)), rnd. rewrite length_app. simpl. split_and!; try done; lia.
    + destruct (Hall _ _ Hq') as (-> & Hd' & n & rnd' & Hn & Hl' & Eid). split_and!; [done|set_solver|].
      exists n, rnd'. rewrite length_app. simpl. split_and!; try done; lia.
  - intros x [Hx| ->%list_elem_of_singleton]%elem_of_app.
    + destruct (Hin _ Hx) as (k & q & Ek & <-). exists k, q. split; [|done]. simpl. rewrite lookup_insert_ne; [done|]. congruence.
    + exists id, p. simpl. by rewrite lookup_insert_eq.
Qed.

Lemma seed_permissions_spec done role l : 0 <= T < 2 ^ 48 -> (length done + length l < 4096)%nat -> NoDup (done ++ (pair role <$> l)) ->
  is_Some (default_roles (db_now (base d0)) !! role) ->
  hoare (seeding done) (forM l (seed_permission role)) (fun _ => seeding (done ++ (pair role <$> l))) (fun _ => False).
Proof.
  intros HT. revert done. induction l as [|perm l IH]; intros done Hlen Hnd Hrole.
  { apply hoare_ret. intros w. simpl. by rewrite app_nil_r. }
  assert (done ++ (pair role <$> perm :: l) = (done ++ [(role, perm)]) ++ (pair role <$> l)) as E by (by rewrite <-app_assoc).
  rewrite E in *. simpl in Hlen. simpl forM. eapply hoare_bind.
  - apply seed_permission_spec; [done|lia| |done]. apply NoDup_app in Hnd as (Hx & _). apply NoDup_app in Hx as (_ & Hx & _).
    intros Hin. apply (Hx _ Hin). by left.
  - intros ?. apply IH; [rewrite length_app; simpl; lia|done|done].
Qed.
End Seeding.

Definition seeded_grants : list (string * Permission) :=
  (pair "role_admin"%string <$> adminPerms) ++ (pair "role_user"%string <$> userPerms) ++ (pair "role_guest"%string <$> guestPerms).

Lemma insert_role_new r m d : si_roles (tab d) = m -> m !! rr_ID r = None -> existsb (fun v => bool_decide (rr_Name v = rr_Name r)) (rows m) = false ->
  insert_role r d = inr (1, with_roles (<[rr_ID r := r]> m) d).
Proof. intros <- Hid Hn. unfold insert_role. by rewrite Hid, Hn, bool_decide_eq_false_2 by (by intros [? ?]). Qed.

Lemma seed_roles_spec w : still (site_db w) -> si_roles (tab (site_db w)) = ∅ ->
  let now := db_now (base (site_db w)) in
  forM seed_roles (fun '(id, name, description) => on_site (tab_exec (insert_role (mkRoleRow id name description true now)));; mret tt) w =
  (Ok tt, mkSiteWorld (with_roles (default_roles now) (site_db w)) (site_ids w)).
Proof.
  intros Hs H0 now.
  set (body := fun '(id, name, description) => on_site (tab_exec (insert_role (mkRoleRow id name description true now)));; mret tt).
  assert (forall id name description m, m !! id = None -> existsb (fun v => bool_decide (rr_Name v = name)) (rows m) = false ->
    body (id, name, description) (mkSiteWorld (with_roles m (site_db w)) (site_ids w)) =
    (Ok tt, mkSiteWorld (with_roles (<[id := mkRoleRow id name description true now]> m) (site_db w)) (site_ids w))) as Hstep.
  { intros id name description m Hid Hn. unfold body, mbind, GoM_bind. rewrite on_site_spec, tab_exec_still by done.
    by rewrite (insert_role_new _ m). }
  replace w with (mkSiteWorld (with_roles ∅ (site_db w)) (site_ids w)) at 1 by (rewrite <-H0; by destruct w as [[? []] ?]).
  unfold seed_roles. simpl forM.
  do 3 (erewrite bind_ok; [|apply Hstep; vm_compute; reflexivity]).
  unfold mret, GoM_ret. by do 3 f_equal.
Qed.

Lemma seed_again w : still (site_db w) -> si_roles (tab (site_db w)) <> ∅ -> seed w = (Ok tt, w).
Proof.
  intros Hs Hr. unfold seed. rewrite (bind_ok _ _ w (Z.of_nat (size (si_roles (tab (site_db w))))) w).
  - rewrite (proj2 (Z.ltb_lt _ _)); [done|]. assert (size (si_roles (tab (site_db w))) <> 0%nat); [|lia].
    intros E. by apply Hr, map_size_empty_inv.
  - rewrite on_site_spec, tab_query_still by done. by destruct w.
Qed.

(** Every step but the last keeps the users; the last either stores one or fails. *)
Definition users_kept (w0 w : Site) : Prop := si_auth (tab (site_db w)) = si_auth (tab (site_db w0)).

Lemma kept_exec w0 x : (forall d n d', x d = inr (n, d') -> si_auth (tab d') = si_auth (tab d)) ->
  hoare (users_kept w0) (on_site (tab_exec x)) (fun _ => users_kept w0) (users_kept w0).
Proof.
  intros Hx w Hw. rewrite on_site_spec. unfold tab_exec. destruct (next_fault _) as [[] l]; [done|].
  destruct (x _) as [e|[n d']] eqn:E; [done|]. apply Hx in E. unfold users_kept in *. simpl in *. congruence.
Qed.

Lemma kept_fresh_id w0 : hoare (users_kept w0) fresh_id (fun _ => users_kept w0) (users_kept w0).
Proof.
  intros w Hw. unfold fresh_id, attempt, GenerateUUIDv7, rand_read. simpl.
  destruct (next_sequence _ _) as [[ts sq] s]. by destruct (next_fault _) as [[] l].
Qed.

Lemma kept_permission w0 role perm : hoare (users_kept w0) (seed_permission role perm) (fun _ => users_kept w0) (users_kept w0).
Proof.
  eapply hoare_bind; [apply kept_fresh_id|]. intros id. cbn beta. eapply hoare_bind; [apply kept_exec|intros ?; by apply hoare_ret].
  intros d n d'. unfold insert_permission. repeat case_match; intros E; by simplify_eq.
Qed.

Lemma seed_keeps_users w : match seed w with (Ok _, _) => True | (Err _, w') => users_kept w w' | _ => False end.
Proof.
  assert (hoare (users_kept w) seed (fun _ _ => True) (users_kept w)) as H; [|exact (H w eq_refl)].
  eapply hoare_bind.
  { intros v Hv. rewrite on_site_spec. unfold tab_query. destruct (next_fault _) as [[] l]; [exact Hv|]. instantiate (1 := fun _ => users_kept w). exact Hv. }
  intros count. cbn beta. destruct (0 <? count); [by apply hoare_ret|].
  eapply hoare_bind; [intros v Hv; instantiate (1 := fun _ => users_kept w); exact Hv|]. intros now. cbn beta.
  eapply hoare_bind; [apply hoare_forM|intros ?; cbn beta].
  { intros [[id name] description] _. eapply hoare_bind; [apply kept_exec|intros ?; by apply hoare_ret].
    intros d n d'. unfold insert_role. case_match; intros E; by simplify_eq. }
  do 3 (eapply hoare_bind; [apply hoare_forM; intros ? _; apply kept_permission|intros ?; cbn beta]).
  eapply hoare_bind; [apply kept_fresh_id|intros id; cbn beta].
  eapply (hoare_bind _ _ _ (fun _ _ => True)); [|intros ?; by apply hoare_ret].
  intros v Hv. rewrite on_site_spec. unfold on_accounts, insert_seeded, tab_exec. cbn [base].
  destruct (next_fault _) as [[] l]; [exact Hv|]. destruct (insert_user _ _) as [e|[n d']]; [exact Hv|done].
Qed.

(** [Fact] A fresh database is seeded once.  With a driver that accepts its calls and
    a working random source, seeding tables that are empty succeeds and leaves the
    three roles, each permission of their lists exactly once, and one user: the
    administrator, active, with the fixed password hash and with a password change
    due; nothing else is touched, and seeding again changes nothing. *)
Theorem seed_once (w : Site) :
  let t := tab (site_db w) in let now := db_now (base (site_db w)) in
  quiet_site w -> si_roles t = ∅ -> si_permissions t = ∅ -> t_users (si_auth t) = ∅ ->
  0 <= 1000 * now < 2 ^ 48 -> lastTimestamp (site_ids w) < 1000 * now ->
  exists w' id, seed w = (Ok tt, w') /\
    let t' := tab (site_db w') in
    si_roles t' = default_roles now /\
    size (si_permissions t') = 33%nat /\
    (forall role grant, (role, grant) ∈ seeded_grants <->
       exists k p, si_permissions t' !! k = Some p /\ pm_RoleID p = role /\ pm_Grant p = grant) /\
    t_users (si_auth t') = {[id := seeded_admin id now]} /\
    t_sessions (si_auth t') = t_sessions (si_auth t) /\ t_tokens (si_auth t') = t_tokens (si_auth t) /\
    si_catalog t' = si_catalog t /\ si_audit t' = si_audit t /\ si_settings t' = si_settings t /\
    db_files (base (site_db w')) = db_files (base (site_db w)) /\
    seed w' = (Ok tt, w').
Proof.
  intros t now. subst t now. intros Hq Hr0 Hp0 Hu0 HT Hids. set (now := db_now (base (site_db w))).
  set (w1 := mkSiteWorld (with_roles (default_roles now) (site_db w)) (site_ids w)).
  assert (seeding w [] w1) as H1.
  { split; [by split_and!|]. split; [by split; apply Hq|]. split; [by left|]. split; [done|].
    split; [by simpl; rewrite Hp0|]. split; [|by intros x ?%elem_of_nil]. simpl. rewrite Hp0. intros k p. by rewrite lookup_empty. }
  pose (g1 := [] ++ (pair "role_admin"%string <$> adminPerms)). pose (g2 := pair "role_user"%string <$> userPerms).
  destruct (hoare_total _ _ _ (seed_permissions_spec w [] "role_admin" adminPerms HT ltac:(simpl; lia)
    ltac:(apply (bool_decide_unpack _); vm_compute; exact I) ltac:(by eexists)) w1 H1) as ([] & w2 & E2 & H2).
  destruct (hoare_total _ _ _ (seed_permissions_spec w g1 "role_user" userPerms HT ltac:(vm_compute; lia)
    ltac:(apply (bool_decide_unpack _); vm_compute; exact I) ltac:(by eexists)) w2 H2) as ([] & w3 & E3 & H3).
  destruct (hoare_total _ _ _ (seed_permissions_spec w (g1 ++ g2) "role_guest" guestPerms HT ltac:(vm_compute; lia)
    ltac:(apply (bool_decide_unpack _); vm_compute; exact I) ltac:(by eexists)) w3 H3) as ([] & w4 & E4 & H4).
  destruct H4 as (Hk4 & Hq4 & Hd4 & Hroles4 & Hsz & Hall & Hin).
  destruct (fresh_id_spec w _ w4 Hk4 Hq4 Hd4 ltac:(split; [lia|vm_compute; reflexivity])) as (rnd & w5 & E5 & _ & Hk5 & Hq5 & _ & Ht5).
  set (id := nth_id _ _ rnd) in *. destruct Hk5 as (K1 & K2 & K3 & K4 & K5 & K6).
  set (t5 := tab (site_db w5)) in *.
  assert (t_users (si_auth t5) = ∅) as Hu5 by (rewrite K3; exact Hu0).
  assert (exists w6, on_site (on_accounts (insert_seeded (seeded_admin id now))) w5 = (Ok 1, w6) /\ still (site_db w6) /\
    db_files (base (site_db w6)) = db_files (base (site_db w5)) /\
    tab (site_db w6) = mkSite (mkAuthTables {[id := seeded_admin id now]} (t_sessions (si_auth t5)) (t_tokens (si_auth t5)))
      (si_catalog t5) (si_roles t5) (si_permissions t5) (si_audit t5) (si_settings t5)) as (w6 & E6 & Hs6 & Hf6 & Ht6).
  { eexists. split.
    - unfold on_site, on_accounts, insert_seeded. rewrite tab_exec_still by apply Hq5. unfold insert_user. cbn [tab base].
      fold t5. rewrite Hu5. rewrite lookup_empty, bool_decide_eq_false_2 by (by intros [? ?]).
      unfold user_unique. rewrite delete_empty. simpl. reflexivity.
    - simpl. split; [apply Hq5|]. done. }
  assert (seed w = (Ok tt, w6)) as Eseed.
  { unfold seed. rewrite (bind_ok _ _ w 0 w).
    2:{ rewrite on_site_spec, tab_query_still by apply Hq. rewrite Hr0. by destruct w. }
    cbn beta. change (0 <? 0) with false. cbv iota. rewrite (bind_ok _ _ w now w) by (by destruct w).
    rewrite (bind_ok _ _ w tt w1) by (by apply seed_roles_spec; [apply Hq|]).
    rewrite (bind_ok _ _ _ _ _ E2), (bind_ok _ _ _ _ _ E3), (bind_ok _ _ _ _ _ E4), (bind_ok _ _ _ _ _ E5), (bind_ok _ _ _ _ _ E6). done. }
  exists w6, id. split; [done|]. rewrite Ht6. simpl. fold t5 in Ht5. rewrite Ht5 in *.
  split_and!; try done; try congruence.
  - intros role grant. assert ((g1 ++ g2) ++ (pair "role_guest"%string <$> guestPerms) = seeded_grants) as Eg by reflexivity.
    rewrite Eg in *. split; [intros Hx; destruct (Hin _ Hx) as (k & p & Ek & [= <- <-]); by exists k, p|].
    intros (k & p & Ek & <- & <-). by destruct (Hall _ _ Ek) as (_ & ? & _).
  - apply seed_again; [done|]. rewrite Ht6. simpl. by rewrite Hroles4.
Qed.

(** [Fact] An interrupted seeding is never completed.  When a call of the driver
    fails on the way, no user has been created; and if a role was, every later run
    finds the tables seeded and leaves them as they are: there is no administrator
    and there never will be. *)
Theorem seed_interrupted (w : Site) :
  match seed w with
  | (Ok _, _) => True
  | (Err _, w') =>
      si_auth (tab (site_db w')) = si_auth (tab (site_db w)) /\
      (si_roles (tab (site_db w')) <> ∅ ->
       forall later, tab (site_db later) = tab (site_db w') -> still (site_db later) -> seed later = (Ok tt, later))
  | _ => False
  end.
Proof.
  pose proof (seed_keeps_users w) as H. destruct (seed w) as [[a|e|s|] w'] eqn:E; try done. split; [exact H|].
  intros Hne later Et Hs. apply seed_again; [done|]. by rewrite Et.
Qed.

(** [Fact] The seeded permissions are not those that the access control engine
    enforces.  For the administrator the engine grants more (the action manage on
    files, folders and shares, and sharing of shares); for users it grants reading
    of the shares of the group and their own profile, which the tables do not,
    but not the sharing of own files and folders, which they do; only for guests
    the two agree. *)
Theorem policies_differ :
  granted_only (Permissions adminRole) adminPerms =
    (r ← ["file"; "folder"]%string; s ← ["own"; "group"; "all"]%string; [(r, "manage"%string, s)]) ++
    (a ← ["share"; "manage"]%string; s ← ["own"; "group"; "all"]%string; [("share"%string, a, s)]) /\
  granted_only adminPerms (Permissions adminRole) = [] /\
  granted_only (Permissions userRole) userPerms = [("share", "read", "group"); ("user", "read", "own"); ("user", "write", "own")]%string /\
  granted_only userPerms (Permissions userRole) = [("file", "share", "own"); ("folder", "share", "own")]%string /\
  granted_only (Permissions guestRole) guestPerms = [] /\ granted_only guestPerms (Permissions guestRole) = [].
Proof. split_and!; vm_compute; reflexivity. Qed.

(** ** The statements fit together *)

(** The table that a declaration refers to. *)
Definition referenced (declaration : string) : option string :=
  i ← index_str "REFERENCES " declaration 0; head (split_char "("%char (str_drop (i + 11) declaration)).

(** The statements in order, against the tables and columns created before. *)
Fixpoint well_formed (known : list (string * list string)) (l : list statement) : bool :=
  let columns t := snd <$> List.find (fun kv => bool_decide (kv.1 = t)) known in
  match l with
  | [] => true
  | Create_table t cs :: l =>
      let known := match columns t with Some _ => known | None => (t, filter (fun c => c <> ""%string) cs.*1) :: known end in
      forallb (fun c => match referenced c.2 with None => true | Some r => existsb (fun kv => bool_decide (kv.1 = r)) known end) cs &&
      well_formed known l
  | Create_index _ _ t cs :: l =>
      match columns t with Some own => forallb (fun c => bool_decide (c ∈ own)) cs | None => false end && well_formed known l
  | Add_column t c _ :: l => match columns t with Some own => negb (bool_decide (c ∈ own)) | None => false end && well_formed known l
  end.

(** [Fact] The statements of the three migrations, in the order in which they run,
    fit together: each index is on a table created before it and on columns of
    that table, each foreign key refers to a table created before its own or to
    its own, the added column is new, and no name of a table or an index is
    defined twice. *)
Theorem schema_well_formed :
  well_formed [] (v1_statements ++ v2_statement :: v3_statements) = true /\
  NoDup (omap (fun q => match q with Create_table t _ => Some t | _ => None end) v1_statements) /\
  NoDup (omap (fun q => match q with Create_index _ i _ _ => Some i | _ => None end) (v1_statements ++ v3_statements)).
Proof. split_and!; [vm_compute; reflexivity|apply (bool_decide_unpack _); vm_compute; exact I..]. Qed.

(** ** Lemmas: the added column *)

Lemma migrate_current w : 3 <= version_of (cat w) -> ct_columns (cat (migrate w).2) = ct_columns (cat w) /\ 3 <= version_of (cat (migrate w).2).
Proof.
  intros Hv.
  assert (hoare (fun v => ct_columns (cat v) = ct_columns (cat w) /\ 3 <= version_of (cat v)) migrate
    (fun _ v => ct_columns (cat v) = ct_columns (cat w) /\ 3 <= version_of (cat v))
    (fun v => ct_columns (cat v) = ct_columns (cat w) /\ 3 <= version_of (cat v))) as H.
  2:{ specialize (H w (conj eq_refl Hv)). by destruct (migrate w) as [[]]. }
  unfold migrate. eapply hoare_bind; [apply hoare_wrap|].
  { intros v Hw. unfold exec_statement, tab_exec, mbind, GoM_bind. destruct (next_fault _) as [[] l]; [exact Hw|]. simpl.
    instantiate (1 := fun _ v => ct_columns (cat v) = ct_columns (cat w) /\ 3 <= version_of (cat v)). exact Hw. }
  intros ?. cbn beta. eapply hoare_bind; [apply hoare_wrap|].
  { intros v Hw. unfold GetVersion, tab_query. destruct (next_fault _) as [[] l]; [exact Hw|].
    instantiate (1 := fun n v => 3 <= n /\ ct_columns (cat v) = ct_columns (cat w) /\ 3 <= version_of (cat v)). by split; [apply Hw|]. }
  intros n v [Hn Hw]. cbn beta. unfold CurrentSchemaVersion. by rewrite (proj2 (Z.leb_le _ _)).
Qed.

Definition fresh_site (faults : list bool) (now : Z) : SiteDB :=
  mkExt (mkDB ∅ ∅ ∅ ∅ now toy_rand faults true)
    (mkSite (mkAuthTables ∅ ∅ ∅) (mkCatalog ∅ ∅ ∅ None) ∅ ∅ ∅ ∅).

(** The driver refuses the statement that adds the column, and nothing else. *)
Definition alter_refused : list bool := replicate (3 + length v1_statements) false ++ [true].

(** [Fact] An error of the second migration is swallowed.  When the driver refuses
    the ALTER TABLE -- and only that -- migration of a fresh database reports
    success and records version 3 without the column password_change_required,
    which every query of users names; and no later migration adds it. *)
Theorem lost_column now :
  let '(r, w) := migrate (fresh_site alter_refused now) in
  r = Ok tt /\ version_of (cat w) = 3 /\ ("users", "password_change_required")%string ∉ ct_columns (cat w) /\
  forall n : nat, ("users", "password_change_required")%string ∉ ct_columns (cat (Nat.iter n (fun w => (migrate w).2) w)).
Proof.
  set (start := fresh_site alter_refused now).
  assert ((migrate start).1 = Ok tt) as Hr by (vm_compute; reflexivity).
  assert (version_of (cat (migrate start).2) = 3) as Hv by (vm_compute; reflexivity).
  assert (ct_columns (cat (migrate start).2) = ∅) as Hc by (vm_compute; reflexivity).
  clearbody start. destruct (migrate start) as [r w]. simpl in *.
  split_and!; [done|done|by rewrite Hc|]. intros n.
  assert (3 <= version_of (cat (Nat.iter n (fun w => (migrate w).2) w)) /\ ct_columns (cat (Nat.iter n (fun w => (migrate w).2) w)) = ∅) as [_ ->]; [|set_solver].
  induction n as [|n [IH1 IH2]]; simpl; [split; [lia|done]|]. destruct (migrate_current _ IH1) as [E1 E2]. split; [done|congruence].
Qed.

(** ** The audit log and the settings *)

(** [Fact] The audit log is read consistently and pruned exactly.  With a driver that
    accepts its calls there is one order of the entries that match a filter, newest
    first, of which every call returns the page it asks for, with their total
    number; removing the old entries counts them, keeps exactly the others, and
    no filter finds one of them again. *)
Theorem audit_log_exact w u action rt from to_ olderThan : still w ->
  (exists all, all ≡ₚ List.filter (audit_matches u action rt from to_) (rows (si_audit (tab w))) /\
     Sorted.StronglySorted newest_entry all /\
     forall limit offset, 0 <= limit ->
       GetAuditEntries u action rt from to_ limit offset w =
       (Ok (take (Z.to_nat limit) (drop (Z.to_nat offset) all), Z.of_nat (length all)), w)) /\
  (let cutoff := (db_now (base w) * Second - olderThan) / Second in
   exists n w', CleanupOldAuditEntries olderThan w = (Ok n, w') /\ 0 <= n /\
     n = Z.of_nat (size (filter (fun kv => ~ (cutoff <= ae_CreatedAt kv.2)) (si_audit (tab w)))) /\
     (forall k e, si_audit (tab w') !! k = Some e <-> si_audit (tab w) !! k = Some e /\ cutoff <= ae_CreatedAt e) /\
     forall e, e ∈ rows (si_audit (tab w')) -> audit_matches u action rt from (Some (cutoff - 1)) e = false).
Proof.
  intros Hs. split.
  - set (l := List.filter _ _). exists (merge_sort newest_entry l). split_and!.
    + apply merge_sort_Permutation.
    + apply StronglySorted_merge_sort; intros x; unfold newest_entry; [intros y z|intros y]; lia.
    + intros limit offset Hl. unfold GetAuditEntries, wrap. fold l.
      unfold mbind, GoM_bind. rewrite !tab_query_still by done. fold l. unfold sql_page. rewrite (proj2 (Z.ltb_ge _ _)) by done.
      by rewrite (Permutation_length (merge_sort_Permutation newest_entry l)).
  - set (cutoff := _ / Second).
    set (m := si_audit (tab w)). set (kept := filter (fun kv => cutoff <= ae_CreatedAt kv.2) m).
    assert (Z.of_nat (size m) - Z.of_nat (size kept) = Z.of_nat (size (filter (fun kv => ~ (cutoff <= ae_CreatedAt kv.2)) m))) as Ecount.
    { rewrite <-(map_filter_union_complement (fun kv => cutoff <= ae_CreatedAt kv.2) m) at 1.
      rewrite map_size_disj_union by apply map_disjoint_filter_complement. fold kept. lia. }
    eexists _, _. split.
    { unfold CleanupOldAuditEntries, wrap. unfold mbind, GoM_bind, tab_now. fold cutoff. rewrite tab_exec_still by done. fold m kept. reflexivity. }
    split; [lia|]. split; [done|]. simpl. split.
    + intros k e. unfold kept. rewrite map_lookup_filter_Some. done.
    + intros e (k & He)%elem_of_rows. unfold kept in He. apply map_lookup_filter_Some in He as [_ Hc]. simpl in Hc.
      unfold audit_matches. rewrite (proj2 (Z.leb_gt _ _)) by lia. by rewrite andb_false_r.
Qed.

(** [Fact] The settings are a finite map.  With a driver that accepts its calls a
    key reads as what was last set, whatever was set under other keys in between
    is kept apart, a deleted key is gone and cannot be deleted again, and the list
    of all settings is the map; reading with a default never fails, and gives the
    default for a missing key as well as when the driver fails. *)
Theorem settings_refine_map w key value : still w ->
  let m := set_Value <$> si_settings (tab w) in
  GetAllSettings w = (Ok m, w) /\
  GetSetting key w = (match m !! key with Some v => Ok v | None => Err (Errorf "setting not found") end, w) /\
  (exists w', SetSetting key value w = (Ok tt, w') /\ still w' /\ set_Value <$> si_settings (tab w') = <[key := value]> m /\
     forall other, other <> key -> si_settings (tab w') !! other = si_settings (tab w) !! other) /\
  (match m !! key with
   | Some _ => exists w', DeleteSetting key w = (Ok tt, w') /\ set_Value <$> si_settings (tab w') = delete key m /\
                 DeleteSetting key w' = (Err (Errorf "setting not found"), w')
   | None => DeleteSetting key w = (Err (Errorf "setting not found"), w)
   end) /\
  forall dflt v, (GetSettingOrDefault key dflt v).1 =
    Ok (if (next_fault (db_faults (base v))).1 then dflt else default dflt (set_Value <$> si_settings (tab v) !! key)).
Proof.
  intros Hs m. split_and!.
  - unfold GetAllSettings, wrap. by rewrite tab_query_still.
  - unfold GetSetting. rewrite tab_scan_still by done. unfold m. rewrite lookup_fmap. by destruct (si_settings (tab w) !! key).
  - eexists. split; [|split; [|split]].
    + unfold SetSetting, wrap, mbind, GoM_bind, tab_now. rewrite tab_exec_still by done. reflexivity.
    + exact Hs.
    + simpl. by rewrite fmap_insert.
    + intros other Hne. simpl. by rewrite lookup_insert_ne.
  - assert (forall v, still v -> DeleteSetting key v =
      match si_settings (tab v) !! key with
      | Some _ => (Ok tt, with_settings (delete key (si_settings (tab v))) v)
      | None => (Err (Errorf "setting not found"), v)
      end) as Hdel.
    { intros v Hv. unfold DeleteSetting, wrap, mbind, GoM_bind. rewrite tab_exec_still by done.
      destruct (si_settings (tab v) !! key) as [x|] eqn:E; [by rewrite bool_decide_eq_true_2|].
      by rewrite bool_decide_eq_false_2 by (by intros [? ?]). }
    unfold m. rewrite lookup_fmap, (Hdel w Hs). destruct (si_settings (tab w) !! key) as [x|]; simpl; [|done].
    eexists. split; [done|]. split; [simpl; by rewrite fmap_delete|]. rewrite Hdel by done. simpl. by rewrite lookup_delete_eq.
  - intros dflt v. unfold GetSettingOrDefault, GetSetting, tab_scan, attempt, tab_query, mbind, GoM_bind.
    destruct (next_fault (db_faults (base v))) as [[] l]; simpl; [done|]. by destruct (si_settings (tab v) !! key).
Qed.

(** ** Witnesses *)

Section Witnesses.

Lemma empty_catalog_ok : catalog_ok (mkCatalog ∅ ∅ ∅ None).
Proof. split; [done|]. intros q. by intros ?%elem_of_nil. Qed.

(** The driver fails in the middle of the first migration. *)
Definition interrupted_start : SiteDB := fresh_site (replicate 20 false ++ [true]) 1.


Definition site0 : Site := mkSiteWorld (fresh_site [] 1) (mkIds 0 0).

Lemma seed_witness : exists w' id, seed site0 = (Ok tt, w') /\ t_users (si_auth (tab (site_db w'))) = {[id := seeded_admin id 1]} /\
  seed w' = (Ok tt, w').
Proof.
  destruct (seed_once site0) as (w' & id & E & _ & _ & _ & Hu & _ & _ & _ & _ & _ & _ & Hagain);
    [by split|done|done|done|simpl; lia|simpl; lia|].
  exists w', id. split; [exact E|]. split; [exact Hu|exact Hagain].
Defined.

(** The second role is refused. *)
Lemma interrupted_example :
  let '(r, w') := seed (mkSiteWorld (fresh_site [false; false; true] 1) (mkIds 0 0)) in
  r = Err ErrDriver /\ size (si_roles (tab (site_db w'))) = 1%nat /\ t_users (si_auth (tab (site_db w'))) = ∅ /\ seed w' = (Ok tt, w').
Proof. vm_compute. repeat (split; [reflexivity|]). reflexivity. Qed.

Definition entry (id : string) (at_ : Z) : AuditEntry := mkAudit id (Some "u"%string) "login" "user" None "{}" "" "" at_.
Definition logged : SiteDB := with_audit {["a"%string := entry "a" 10; "b"%string := entry "b" 20]} (fresh_site [] 100).

Lemma audit_witness : exists n w', CleanupOldAuditEntries (85 * Second) logged = (Ok n, w') /\ n = 1.
Proof.
  destruct (audit_log_exact logged None "" "" None None (85 * Second) eq_refl) as [_ (n & w' & E & _ & Hn & _)].
  exists n, w'. split; [exact E|]. rewrite Hn. vm_compute. reflexivity.
Defined.

Lemma settings_witness : exists w', SetSetting "k" "v" (fresh_site [] 1) = (Ok tt, w') /\ (GetSetting "k" w').1 = Ok "v"%string.
Proof.
  destruct (settings_refine_map (fresh_site [] 1) "k" "v" eq_refl) as (_ & _ & (w' & E & _) & _). exists w'. split; [exact E|].
  vm_compute in E. injection E as <-. vm_compute. reflexivity.
Defined.
End Witnesses.
