(* ===== verification/Accounts.v ===== *)
(** * Account endpoints (internal/server: handlers_auth.go, handlers_user.go,
    handlers_admin.go; internal/db/stats_helpers.go)

    A handler takes the request, with the context that the middleware filled in,
    and the decoded body ([None] when it does not decode); its state is the
    database with the tables of the administration, the memory of the
    authentication service, the shares, the workers if there are any, and the
    replies written so far. *)

From S2P Require Import Prelude GoStrings GoCrypto Crypto Encoding Util Database Devices Users Password Jwt Totp ApiTokens AuthService Rbac Storage Server Worker Gc Shares Middleware Schema.

(** ** State and replies *)

(** The rows as they are shown: to their owner and to administrators. *)
Record profile := mkProfile {
  pf_id : string; pf_username : string; pf_email : string; pf_display_name : string; pf_role : string; pf_quota_bytes : Z;
  pf_used_bytes : Z; pf_totp_enabled : bool; pf_status : string; pf_created_at : Z; pf_last_login : option Z
}.

Record account_view := mkView {
  av_id : string; av_username : string; av_email : string; av_status : string; av_role : string; av_quota_bytes : Z;
  av_used_bytes : Z; av_totp_enabled : bool; av_last_login_at : option Z; av_created_at : Z; av_updated_at : option Z
}.

Definition profile_of (u : User) : profile :=
  mkProfile (u_ID u) (u_Username u) (u_Email u) (u_DisplayName u) (u_Role u) (u_QuotaBytes u) (u_UsedBytes u) (u_TOTPEnabled u)
    (u_Status u) (u_CreatedAt u) (u_LastLoginAt u).

Definition view_of (updated : bool) (u : User) : account_view :=
  mkView (u_ID u) (u_Username u) (u_Email u) (u_Status u) (u_Role u) (u_QuotaBytes u) (u_UsedBytes u) (u_TOTPEnabled u)
    (u_LastLoginAt u) (u_CreatedAt u) (if updated then Some (u_UpdatedAt u) else None).

Record counts := mkCounts {
  ct_users : Z; ct_active_users : Z; ct_files : Z; ct_bytes : Z; ct_chunks : Z; ct_chunk_size : Z; ct_shares : Z; ct_backend_bytes : Z
}.

Inductive desk_reply :=
  | K_error (code : Z) (msg : string)
  | K_requires_totp (session : string)
  | K_tokens (tokens : TokenPair) (session : string) (username : option string)
  | K_refreshed (tokens : TokenPair)
  | K_status (status : string)
  | K_profile (p : profile)
  | K_users (users : list account_view) (total limit offset : Z)
  | K_user (v : account_view)
  | K_created (message user_id : string)
  | K_message (message : string)
  | K_running (message : string)
  | K_health (status database storage : string) (figures : list Z) (timestamp : Z)
  | K_stats (pool : list Z) (c : counts) (timestamp : Z)
  | K_entries (entries : list AuditEntry) (total limit offset : Z).

Section Desk.
Context {S : Type} `{Backend S}.

Record Desk := mkDesk {
  dk_db : SiteDB; dk_ids : Ids; dk_failedAttempts : gmap string FailedAttempt; dk_totpSessions : gmap string totpSession;
  dk_shares : gmap string Share; dk_workers : option (Scheduler payload GCResult (Server S)); dk_replies : list desk_reply
}.

Definition set_desk_db (d : SiteDB) (w : Desk) : Desk :=
  mkDesk d (dk_ids w) (dk_failedAttempts w) (dk_totpSessions w) (dk_shares w) (dk_workers w) (dk_replies w).

Definition on_desk {A} (m : GoM SiteDB A) : GoM Desk A := fun w => let '(r, d) := m (dk_db w) in (r, set_desk_db d w).

Definition on_desk_files {A} (m : GoM DB A) : GoM Desk A := on_desk (on_base m).
Definition on_desk_users {A} (m : GoM AuthDB A) : GoM Desk A := on_desk (on_accounts m).

(** The authentication service over the same tables. *)
Definition on_desk_service {A} (m : GoM Service A) : GoM Desk A := fun w =>
  let t := tab (dk_db w) in
  let '(r, s) := m (mkService (mkTokenWorld (mkExt (base (dk_db w)) (si_auth t)) (dk_ids w)) (dk_failedAttempts w) (dk_totpSessions w)) in
  let a := tw_db (sv_world s) in
  (r, mkDesk (mkExt (base a) (mkSite (tab a) (si_catalog t) (si_roles t) (si_permissions t) (si_audit t) (si_settings t)))
        (tw_ids (sv_world s)) (sv_failedAttempts s) (sv_totpSessions s) (dk_shares w) (dk_workers w) (dk_replies w)).

Definition on_desk_shares {A} (m : GoM ShareDB A) : GoM Desk A := fun w =>
  let t := tab (dk_db w) in
  let '(r, s) := m (mkExt (base (dk_db w)) (mkShareTables (si_auth t) (dk_shares w))) in
  (r, mkDesk (mkExt (base s) (mkSite (st_auth (tab s)) (si_catalog t) (si_roles t) (si_permissions t) (si_audit t) (si_settings t)))
        (dk_ids w) (dk_failedAttempts w) (dk_totpSessions w) (st_shares (tab s)) (dk_workers w) (dk_replies w)).

(** Random bytes and identifiers. *)
Definition on_desk_random {A} (m : GoM (Ids * Rand) A) : GoM Desk A := on_desk_service (on_world (on_random m)).

Definition desk_now : GoM Desk Z := on_desk tab_now.

Definition answer (r : desk_reply) : GoM Desk unit := fun w =>
  (Ok tt, mkDesk (dk_db w) (dk_ids w) (dk_failedAttempts w) (dk_totpSessions w) (dk_shares w) (dk_workers w) (dk_replies w ++ [r])).

(** [ErrorResponse(w, code, msg); return] *)
Definition deny {A} (code : Z) (msg : string) : GoM Desk A := answer (K_error code msg);; fail (ErrHTTP code msg).

Definition expect (b : bool) (code : Z) (msg : string) : GoM Desk unit := if b then mret tt else deny code msg.

(** [if err := m(); err != nil { ErrorResponse(w, code, msg); return }] *)
Definition or_deny {A} (m : GoM Desk A) (code : Z) (msg : string) : GoM Desk A :=
  r ← attempt m; match r with inl a => mret a | inr _ => deny code msg end.

Definition decoded {A} (body : option A) : GoM Desk A :=
  match body with Some b => mret b | None => deny 400 "Invalid request body" end.

Definition nonempty (s : string) : bool := negb (bool_decide (s = ""%string)).

(** *** Passwords: the hash draws its salt from the random source *)

Context `{Hmac} `{HashFn} `{Sha512} `{ClaimsJSON} `{HmacSha1}.
Context (bruteConfig : BruteForceConfig) (jwtSecret : bytes) (totp : TOTP) (sessionTTL : Z).

Definition hash_password (password : string) : GoM Desk string := on_desk_random (only_rand (HashPassword password)).

(** ** handlers_auth.go *)

(** [token[7:]] of a header longer than the prefix; any other header as it is. *)
Definition header_token (r : HttpRequest) : string :=
  let token := h_Authorization r in
  if (7 <? Z.of_nat (len token)) && bool_decide (str_take 7 token = "Bearer "%string) then str_drop 7 token else token.

(** [*result.Tokens] *)
Definition tokens_of (result : LoginResult) : GoM Desk TokenPair :=
  match lr_Tokens result with Some t => mret t | None => panic "invalid memory address or nil pointer dereference" end.

Definition login (r : HttpRequest) (userAgent : string) (body : option (string * string)) : GoM Desk unit :=
  req ← decoded body;
  let '(username, password) := (req : string * string) in
  expect (nonempty username && nonempty password) 400 "Username and password required";;
  res ← attempt (on_desk_service (Login bruteConfig jwtSecret sessionTTL username password "" "web" (h_RemoteAddr r) userAgent));
  match res with
  | inr ErrInvalidCredentials => deny 401 "Invalid username or password"
  | inr ErrUserDisabled => deny 403 "Account is disabled"
  | inr ErrUserLocked => deny 403 "Account is locked"
  | inr ErrPasswordChangeRequired => deny 403 "Password change required"
  | inr _ => deny 500 "Internal server error"
  | inl result =>
      if lr_RequiresTOTP result then answer (K_requires_totp (lr_TOTPSession result))
      else tokens ← tokens_of result; answer (K_tokens tokens (lr_SessionID result) (Some username))
  end.

Definition verifyTOTP (r : HttpRequest) (userAgent : string) (body : option (string * string)) : GoM Desk unit :=
  req ← decoded body;
  let '(session, code) := (req : string * string) in
  expect (nonempty session && nonempty code) 400 "Session and code required";;
  res ← attempt (on_desk_service (LoginWithTOTP jwtSecret totp sessionTTL session code "" "web" (h_RemoteAddr r) userAgent));
  match res with
  | inr ErrInvalidSession => deny 401 "Invalid or expired TOTP session"
  | inr ErrInvalidTOTP => deny 401 "Invalid TOTP code"
  | inr _ => deny 500 "Internal server error"
  | inl result => tokens ← tokens_of result; answer (K_tokens tokens (lr_SessionID result) None)
  end.

(** Before [logout]; the claims are dropped. *)
Definition requireAuth (next : HttpRequest -> GoM Desk unit) (r : HttpRequest) : GoM Desk unit :=
  expect (nonempty (h_Authorization r)) 401 "Authorization required";;
  or_deny (on_desk_service (Service_ValidateAccessToken jwtSecret (header_token r))) 401 "Invalid token";;
  next r.

Definition logout (r : HttpRequest) : GoM Desk unit :=
  claims ← or_deny (on_desk_service (Service_ValidateAccessToken jwtSecret (header_token r))) 401 "Invalid token";
  or_deny (on_desk_service (Logout (ac_SessionID claims))) 500 "Failed to logout";;
  answer (K_status "logged out").

Definition refresh (body : option string) : GoM Desk unit :=
  refreshToken ← decoded body;
  expect (nonempty refreshToken) 400 "Refresh token required";;
  res ← attempt (on_desk_service (Refresh jwtSecret sessionTTL refreshToken));
  match res with
  | inr ErrInvalidSession => deny 401 "Invalid session"
  | inr ErrSessionExpired => deny 401 "Session expired"
  | inr _ => deny 500 "Internal server error"
  | inl tokens => answer (K_refreshed tokens)
  end.

(** ** handlers_user.go *)

Definition current_user (r : HttpRequest) : GoM Desk string :=
  let userID := GetUserIDFromRequest r in expect (nonempty userID) 401 "Unauthorized";; mret userID.

Definition find_user (userID : string) : GoM Desk User := or_deny (on_desk_users (Users.GetUserByID userID)) 404 "User not found".

Definition getProfile (r : HttpRequest) : GoM Desk unit :=
  userID ← current_user r;
  user ← find_user userID;
  answer (K_profile (profile_of user)).

Definition updateProfile (r : HttpRequest) (body : option (option string * option string)) : GoM Desk unit :=
  userID ← current_user r;
  req ← decoded body;
  let '(displayName, email) := (req : option string * option string) in
  let updates := match displayName with Some v => [W_display_name v] | None => [] end ++
                 match email with Some v => [W_email v] | None => [] end in
  expect (negb (bool_decide (length updates = 0%nat))) 400 "No fields to update";;
  or_deny (on_desk_users (UpdateUser userID updates)) 500 "Failed to update profile";;
  answer (K_status "updated").

Definition changePassword (r : HttpRequest) (body : option (string * string)) : GoM Desk unit :=
  userID ← current_user r;
  req ← decoded body;
  let '(current, new) := (req : string * string) in
  expect (nonempty current && nonempty new) 400 "Current and new password required";;
  expect (negb (Z.of_nat (len new) <? 8)) 400 "New password must be at least 8 characters";;
  user ← find_user userID;
  v ← attempt (lift (VerifyPassword current (u_PasswordHash user)));
  expect (match v with inl true => true | _ => false end) 401 "Current password is incorrect";;
  newHash ← or_deny (hash_password new) 500 "Failed to hash password";
  or_deny (on_desk_users (UpdatePassword userID newHash)) 500 "Failed to update password";;
  answer (K_status "password changed").

(** ** handlers_admin.go *)

Definition isAdmin (r : HttpRequest) : bool := Middleware_IsAdmin r.

Definition admin_only (r : HttpRequest) : GoM Desk unit := expect (isAdmin r) 403 "Admin access required".

Definition requireAdmin (next : HttpRequest -> GoM Desk unit) (r : HttpRequest) : GoM Desk unit := admin_only r;; next r.

(** What SQL answers when a stored expiry is compared with the clock, the figures
    of the connection pool and of the runtime, and the outcome of the storage
    backend's [Stats]: the total of bytes it reports. *)
Context (sql_before : Z -> Z -> bool) (pool_figures runtime_figures : list Z) (backend_stats : Res Z).

Definition CountActiveShares : GoM ShareDB Z := tab_query (fun w =>
  let now := db_now (base w) in
  Z.of_nat (length (List.filter (fun s => sh_IsActive s && match sh_ExpiresAt s with None => true | Some t => sql_before now t end)
                      (rows (st_shares (tab w)))))).

Definition getSystemHealth (r : HttpRequest) : GoM Desk unit :=
  admin_only r;;
  d ← attempt (on_desk Schema.Ping);
  let dbStatus := match d with inl _ => "healthy" | inr _ => "unhealthy" end%string in
  s ← attempt (lift backend_stats);
  let storageStatus := match s with inl _ => "healthy" | inr _ => "unhealthy" end%string in
  let healthy := bool_decide (dbStatus = "healthy"%string) && bool_decide (storageStatus = "healthy"%string) in
  t ← desk_now;
  answer (K_health (if healthy then "healthy" else "degraded") dbStatus storageStatus runtime_figures t).

(** [n, err := m(); if err != nil { log.Printf(...) }]: the number is 0 then. *)
Definition or_zero (m : GoM Desk Z) : GoM Desk Z := r ← attempt m; mret (match r with inl n => n | inr _ => 0 end).

Definition getSystemStats (r : HttpRequest) : GoM Desk unit :=
  admin_only r;;
  totalUsers ← or_zero (on_desk_users (CountUsersByStatus ""));
  activeUsers ← or_zero (on_desk_users (CountUsersByStatus "active"));
  totalStorageBytes ← or_zero (lift backend_stats);
  totalFiles ← or_zero (on_desk_files CountFiles);
  totalBytes ← or_zero (on_desk_files SumFileBytes);
  activeShares ← or_zero (on_desk_shares CountActiveShares);
  totalChunks ← or_zero (on_desk_files GetTotalChunkCount);
  totalChunkSize ← or_zero (on_desk_files GetTotalChunkSize);
  t ← desk_now;
  answer (K_stats pool_figures (mkCounts totalUsers activeUsers totalFiles totalBytes totalChunks totalChunkSize activeShares totalStorageBytes) t).

(** [n, _ := strconv.Atoi(s)]: 0 for text that is no number, the nearest integer
    for a number out of range. *)
Definition Atoi_or_nearest (s : string) : Z :=
  match Atoi s with
  | Some n => n
  | None =>
      let '(negative, digits) := match s with
        | String c t => if bool_decide (c = "-"%char) then (true, t) else if bool_decide (c = "+"%char) then (false, t) else (false, s)
        | ""%string => (false, s)
        end in
      match digits with
      | ""%string => 0
      | _ => match parse_digits 0 digits with Some _ => if negative : bool then - 2 ^ 63 else 2 ^ 63 - 1 | None => 0 end
      end
  end.

(** The limit and the offset of a list. *)
Definition page_limit (s : string) (maximum dflt : Z) : Z :=
  let limit := Atoi_or_nearest s in if (limit <? 1) || (maximum <? limit) then dflt else limit.
Definition page_offset (s : string) : Z := let offset := Atoi_or_nearest s in if offset <? 0 then 0 else offset.

Definition listUsers (r : HttpRequest) (limitStr offsetStr : string) : GoM Desk unit :=
  admin_only r;;
  let limit := page_limit limitStr 100 20 in
  let offset := page_offset offsetStr in
  p ← or_deny (on_desk_users (ListUsers offset limit (mkFilter "" "" ""))) 500 "Failed to list users";
  let '(users, total) := (p : list User * Z) in
  answer (K_users (view_of false <$> users) total limit offset).

Record create_request := mkCreate { cr_username : string; cr_email : string; cr_password : string; cr_role : string }.

(** [time.Time{}] in the columns of the times. *)
Definition new_account (req : create_request) (hash : string) : User :=
  mkUser "" (cr_username req) (cr_email req) "" hash (cr_role req) 0 0 None false [] [] None None "active" false None zero_time_s zero_time_s.

Definition admin_createUser (r : HttpRequest) (body : option create_request) : GoM Desk unit :=
  admin_only r;;
  req ← decoded body;
  expect (nonempty (cr_username req) && nonempty (cr_email req) && nonempty (cr_password req)) 400 "Username, email and password required";;
  hash ← or_deny (hash_password (cr_password req)) 500 "Failed to hash password";
  newID ← on_desk_service service_uuid;
  or_deny (on_desk_users (CreateUser newID (new_account req hash))) 500 "Failed to create user";;
  answer (K_created "User created successfully" newID).

Definition admin_getUser (r : HttpRequest) (userID : string) : GoM Desk unit :=
  admin_only r;;
  expect (nonempty userID) 400 "User ID required";;
  user ← find_user userID;
  answer (K_user (view_of true user)).

Record update_request := mkUpdate { up_email : string; up_role : string; up_status : string; up_quota_bytes : Z; up_reset_password : string }.

Definition account_updates (req : update_request) : list user_update :=
  (if nonempty (up_email req) then [W_email (up_email req)] else []) ++
  (if nonempty (up_role req) then [W_role (up_role req)] else []) ++
  (if nonempty (up_status req) then [W_status (up_status req)] else []) ++
  (if 0 <? up_quota_bytes req then [W_quota_bytes (up_quota_bytes req)] else []).

Definition admin_updateUser (r : HttpRequest) (userID : string) (body : option update_request) : GoM Desk unit :=
  admin_only r;;
  expect (nonempty userID) 400 "User ID required";;
  req ← decoded body;
  let updates := account_updates req in
  (if bool_decide (length updates = 0%nat) then mret tt
   else or_deny (on_desk_users (UpdateUser userID updates)) 500 "Failed to update user");;
  (if nonempty (up_reset_password req) then
     hash ← or_deny (hash_password (up_reset_password req)) 500 "Failed to hash password";
     or_deny (on_desk_users (UpdateUserPassword userID hash)) 500 "Failed to reset password"
   else mret tt);;
  answer (K_message "User updated successfully").

Definition admin_deleteUser (r : HttpRequest) (userID : string) : GoM Desk unit :=
  admin_only r;;
  expect (nonempty userID) 400 "User ID required";;
  expect (negb (bool_decide (userID = GetUserIDFromRequest r))) 400 "Cannot delete yourself";;
  or_deny (on_desk_users (DeleteUser userID)) 500 "Failed to delete user";;
  answer (K_message "User deleted successfully").

(** The filters, the limit and the offset of the query string. *)
Definition getAuditLogs (r : HttpRequest) (userID action resourceType limitStr offsetStr : string) : GoM Desk unit :=
  admin_only r;;
  let limit := page_limit limitStr 1000 100 in
  let offset := page_offset offsetStr in
  t ← desk_now;
  p ← or_deny (on_desk (GetAuditEntries (if nonempty userID then Some userID else None) action resourceType None (Some t) limit offset))
        500 "Failed to get audit logs";
  let '(entries, total) := (p : list AuditEntry * Z) in
  answer (K_entries entries total limit offset).

(** [QueueGC] when there are workers: it always accepts the job. [k] is the worker
    that the signal wakes. *)
Definition queue_gc (k : nat) (type : string) (age : Z) : GoM Desk unit := fun w =>
  let now := db_now (base (dk_db w)) in
  (Ok tt, mkDesk (dk_db w) (dk_ids w) (dk_failedAttempts w) (dk_totpSessions w) (dk_shares w)
            (QueueGC k (now * Second) (mkSpec type (now - age)) <$> dk_workers w) (dk_replies w)).

Definition runGC (r : HttpRequest) (k : nat) : GoM Desk unit :=
  admin_only r;; queue_gc k "orphaned-chunks" (24 * 3600);; answer (K_running "GC triggered").

Definition runCleanup (r : HttpRequest) (k : nat) : GoM Desk unit :=
  admin_only r;; queue_gc k "trash" (30 * 24 * 3600);; answer (K_running "Cleanup triggered").
End Desk.

Arguments Desk : clear implicits.

(** ** Lemmas: the state *)

Section Frame.
Context {S : Type} `{Backend S}.
Implicit Type w : Desk S.

Definition users_of w : gmap string User := t_users (si_auth (tab (dk_db w))).
Definition sessions_of w : gmap string Session := t_sessions (si_auth (tab (dk_db w))).

Definition service_of w : Service :=
  mkService (mkTokenWorld (mkExt (base (dk_db w)) (si_auth (tab (dk_db w)))) (dk_ids w)) (dk_failedAttempts w) (dk_totpSessions w).

Definition put_service (s : Service) w : Desk S :=
  let t := tab (dk_db w) in let a := tw_db (sv_world s) in
  mkDesk (mkExt (base a) (mkSite (tab a) (si_catalog t) (si_roles t) (si_permissions t) (si_audit t) (si_settings t)))
    (tw_ids (sv_world s)) (sv_failedAttempts s) (sv_totpSessions s) (dk_shares w) (dk_workers w) (dk_replies w).

Definition with_reply (r : desk_reply) w : Desk S :=
  mkDesk (dk_db w) (dk_ids w) (dk_failedAttempts w) (dk_totpSessions w) (dk_shares w) (dk_workers w) (dk_replies w ++ [r]).

Lemma service_step {A} (m : GoM Service A) w : on_desk_service m w = ((m (service_of w)).1, put_service (m (service_of w)).2 w).
Proof. unfold on_desk_service. fold (service_of w). by destruct (m (service_of w)). Qed.

Lemma service_of_put s w : service_of (put_service s w) = s.
Proof. by destruct s as [[[] ?] ? ?]. Qed.

Lemma put_service_twice s s' w : put_service s (put_service s' w) = put_service s w.
Proof. done. Qed.

Lemma put_service_of w : put_service (service_of w) w = w.
Proof. by destruct w as [[? []] ? ? ? ? ? ?]. Qed.

Lemma answer_step r w : answer r w = (Ok tt, with_reply r w).
Proof. done. Qed.

Lemma deny_step {A} code msg w : deny (A := A) code msg w = (Err (ErrHTTP code msg), with_reply (K_error code msg) w).
Proof. done. Qed.

(** A guard: either it holds and nothing happens, or the reply is the error. *)
Lemma expect_bind {A} b code msg (k : unit -> GoM (Desk S) A) w :
  (expect b code msg ≫= k) w = if b then k tt w else (Err (ErrHTTP code msg), with_reply (K_error code msg) w).
Proof. by destruct b. Qed.

Lemma decoded_bind {A B} (body : option A) (k : A -> GoM (Desk S) B) w :
  (decoded body ≫= k) w =
  match body with Some b => k b w | None => (Err (ErrHTTP 400 "Invalid request body"), with_reply (K_error 400 "Invalid request body") w) end.
Proof. by destruct body. Qed.

Lemma attempt_bind {A B} (m : GoM (Desk S) A) (k : A + error -> GoM (Desk S) B) w :
  (attempt m ≫= k) w = match m w with
                       | (Ok a, w') => k (inl a) w'
                       | (Err e, w') => k (inr e) w'
                       | (Panic s, w') => (Panic s, w')
                       | (OutOfFuel, w') => (OutOfFuel, w')
                       end.
Proof. unfold attempt, mbind, GoM_bind. by destruct (m w) as [[]]. Qed.

Lemma or_deny_bind {A B} (m : GoM (Desk S) A) code msg (k : A -> GoM (Desk S) B) w :
  (or_deny m code msg ≫= k) w = match m w with
                                | (Ok a, w') => k a w'
                                | (Err _, w') => (Err (ErrHTTP code msg), with_reply (K_error code msg) w')
                                | (Panic s, w') => (Panic s, w')
                                | (OutOfFuel, w') => (OutOfFuel, w')
                                end.
Proof. unfold or_deny, attempt, mbind, GoM_bind. by destruct (m w) as [[]]. Qed.
End Frame.

#[export] Hint Rewrite @expect_bind @decoded_bind @attempt_bind @or_deny_bind @answer_step @deny_step @service_step using done : desk.

(** ** Logging in *)

Section Login.
Context {S : Type} `{Backend S} `{Hmac} `{HashFn} `{Sha512} `{ClaimsJSON} `{HmacSha1}.
Context (bruteConfig : BruteForceConfig) (jwtSecret : bytes) (totp : TOTP) (sessionTTL : Z).
Implicit Type w : Desk S.

(** An account that the credentials open. *)
Definition opens (username password : string) (u : User) : Prop :=
  u_Username u = username /\ u_Status u <> "disabled"%string /\ u_Status u <> "locked"%string /\
  VerifyPassword password (u_PasswordHash u) = Ok true /\ u_PasswordChangeRequired u = false.

Definition second_factor (u : User) : bool := u_TOTPEnabled u && bool_decide (is_Some (u_TOTPSecret u)).

(** What each reply of the login says of the accounts. *)
Definition justified (body : option (string * string)) w w' (reply : desk_reply) : Prop :=
  match reply with
  | K_tokens tokens sid name =>
      exists username password id u, body = Some (username, password) /\ name = Some username /\ users_of w !! id = Some u /\
        opens username password u /\ second_factor u = false /\
        (exists row, sessions_of w' !! sid = Some row /\ se_UserID row = u_ID u) /\
        (exists now jti, AccessToken tokens = GenerateAccessToken jwtSecret now (mkAccess (u_ID u) (u_Username u) [u_Role u] "" sid 0 0 jti))
  | K_requires_totp t =>
      exists username password id u, body = Some (username, password) /\ users_of w !! id = Some u /\
        opens username password u /\ second_factor u = true /\
        exists pending, dk_totpSessions w' !! t = Some pending /\ ts_UserID pending = u_ID u
  | K_error code _ => code ∈ [400; 401; 403; 500]
  | _ => False
  end.

Lemma login_cases r ua body w : settles (login bruteConfig jwtSecret sessionTTL r ua body w).1 ->
  exists reply, dk_replies (login bruteConfig jwtSecret sessionTTL r ua body w).2 = dk_replies w ++ [reply] /\
    justified body w (login bruteConfig jwtSecret sessionTTL r ua body w).2 reply.
Proof.
  intros Hs. unfold login in *. rewrite decoded_bind in *. destruct body as [[username password]|]; [|by eexists; split; [done|simpl; set_solver]].
  rewrite expect_bind in *. destruct (nonempty username && nonempty password); [|by eexists; split; [done|simpl; set_solver]].
  rewrite attempt_bind, service_step in *.
  destruct (Login bruteConfig jwtSecret sessionTTL username password "" "web" (h_RemoteAddr r) ua (service_of w)) as [res s'] eqn:E. simpl fst in *. simpl snd in *.
  destruct res as [result|e|m|]; [| |by destruct Hs..].
  - apply Login_ok in E as (id & u & Hu & Hname & Hdis & Hloc & Hv & Hch & Hcase).
    assert (opens username password u) as Hopens by done. fold (second_factor u) in Hcase.
    destruct (second_factor u) eqn:Esf.
    + destruct Hcase as (_ & -> & t & Ht & Hid). rewrite answer_step. eexists. split; [done|].
      exists username, password, id, u. split_and!; try done. by exists t.
    + destruct Hcase as (-> & t & jti & row & Et & Hrow & Hid & _ & Ha & _). unfold tokens_of. rewrite Et.
      cbv [mret GoM_ret mbind GoM_bind]. rewrite answer_step. eexists. split; [done|].
      exists username, password, id, u. split_and!; try done; [by exists row|by eauto].
  - destruct e; rewrite deny_step; (eexists; split; [done|simpl; set_solver]).
Qed.

(** [C15] Only good credentials get tokens.  A login that ends without panic writes
    exactly one reply.  If it hands out tokens, the request named an existing
    account that is neither disabled nor locked, without a due password change
    and without second factor, with a password that verifies; the tokens name its
    identifier and role, and a session of it is stored.  If it asks for a second
    factor, the same holds of an account that has one, which is now pending.
    Anything else is an error reply. *)
Theorem login_replies r ua body w : settles (login bruteConfig jwtSecret sessionTTL r ua body w).1 ->
  exists reply, dk_replies (login bruteConfig jwtSecret sessionTTL r ua body w).2 = dk_replies w ++ [reply] /\
    justified body w (login bruteConfig jwtSecret sessionTTL r ua body w).2 reply.
Proof. apply login_cases. Qed.

(** [Fact] A fresh system admits nobody.  The seeded administrator has a password
    change due, an account in that state is refused by the login whatever the
    password, and the change needs a login: in a database whose users are those
    of the seed -- or any others in that state -- every login that ends writes
    an error reply. *)
Theorem fresh_system_admits_nobody r ua body w :
  (forall id u, users_of w !! id = Some u -> u_PasswordChangeRequired u = true) ->
  settles (login bruteConfig jwtSecret sessionTTL r ua body w).1 ->
  exists code msg, dk_replies (login bruteConfig jwtSecret sessionTTL r ua body w).2 = dk_replies w ++ [K_error code msg].
Proof.
  intros Hall Hs. destruct (login_cases r ua body w Hs) as (reply & E & Hj).
  destruct reply; try done; [by eauto| |].
  - destruct Hj as (n & p & id & u & _ & Hu & (_ & _ & _ & _ & Hf) & _). apply Hall in Hu. congruence.
  - destruct Hj as (n & p & id & u & _ & _ & Hu & (_ & _ & _ & _ & Hf) & _). apply Hall in Hu. congruence.
Qed.
End Login.

(** ** Lemmas: statements on users *)

Lemma tab_exec_cases {T} x (w : Ext T) :
  match tab_exec x w with
  | (Ok n, w') => exists l, x (mkExt (with_faults l (base w)) (tab w)) = inr (n, w')
  | (Err _, w') => tab w' = tab w /\ db_now (base w') = db_now (base w)
  | _ => False
  end.
Proof. unfold tab_exec. destruct (next_fault _) as [[] l]; [done|]. destruct (x _) as [e|[n w']] eqn:E; [done|]. by exists l. Qed.

(** An update of one row: done, or nothing happened. *)
Lemma update_statement id g msg msg' w :
  match (rows ← wrap msg (tab_exec (update_user id g)); tab_affected msg' rows) w with
  | (Ok _, w') => exists u, t_users (tab w) !! id = Some u /\ t_users (tab w') = <[id := g u]> (t_users (tab w)) /\
                    t_sessions (tab w') = t_sessions (tab w) /\ t_tokens (tab w') = t_tokens (tab w)
  | (Err _, w') => tab w' = tab w
  | _ => False
  end.
Proof.
  unfold wrap, mbind, GoM_bind. pose proof (tab_exec_cases (update_user id g) w) as H.
  destruct (tab_exec (update_user id g) w) as [[n|e|s|] w']; try done; [|by destruct H].
  destruct H as [l H]. unfold update_user in H. simpl in H. destruct (t_users (tab w) !! id) as [u|] eqn:Eu.
  - destruct (user_unique _ _ _); [|done]. injection H as <- <-. simpl. by exists u.
  - by injection H as <- <-.
Qed.

Lemma scan_user_cases {A} a b (q : AuthDB -> option A) w :
  match tab_scan a b q w with
  | (Ok x, w') => tab w' = tab w /\ db_now (base w') = db_now (base w) /\ exists l, q (mkExt (with_faults l (base w)) (tab w)) = Some x
  | (Err _, w') => tab w' = tab w /\ db_now (base w') = db_now (base w)
  | _ => False
  end.
Proof.
  unfold tab_scan, attempt, tab_query, mbind, GoM_bind. destruct (next_fault _) as [[] l]; simpl; [done|].
  destruct (q _) as [x|] eqn:E; [|done]. simpl. split_and!; try done. by exists l.
Qed.

Section Profile.
Context {S : Type} `{Backend S} `{Hmac} `{HashFn} `{Sha512}.
Implicit Type w : Desk S.

(** What a step on the users leaves alone. *)
Definition auth_of w : AuthTables := si_auth (tab (dk_db w)).
Definition clock_of w : Z := db_now (base (dk_db w)).

Lemma users_step {A} (m : GoM AuthDB A) w :
  let a := m (mkExt (base (dk_db w)) (auth_of w)) in
  (on_desk_users m w).1 = a.1 /\ auth_of (on_desk_users m w).2 = tab a.2 /\ clock_of (on_desk_users m w).2 = db_now (base a.2) /\
  dk_replies (on_desk_users m w).2 = dk_replies w.
Proof. unfold on_desk_users, on_desk, on_accounts, auth_of, clock_of. simpl. by destruct (m _). Qed.

Lemma find_user_cases userID w :
  match on_desk_users (Users.GetUserByID userID) w with
  | (Ok u, w') => auth_of w' = auth_of w /\ clock_of w' = clock_of w /\ dk_replies w' = dk_replies w /\ users_of w !! userID = Some u
  | (Err _, w') => auth_of w' = auth_of w /\ dk_replies w' = dk_replies w
  | _ => False
  end.
Proof.
  destruct (users_step (Users.GetUserByID userID) w) as (E1 & E2 & E3 & E4).
  destruct (on_desk_users (Users.GetUserByID userID) w) as [r w']. simpl in *. subst r.
  unfold Users.GetUserByID in *. set (v := mkExt _ (auth_of w)) in *.
  pose proof (scan_user_cases "user not found" "failed to get user" (fun a : AuthDB => t_users (tab a) !! userID) v) as Hs.
  destruct (tab_scan _ _ _ v) as [[u|e|s|] v']; simpl in *; try done.
  - destruct Hs as (Ht & Hn & l & Hu). rewrite E2, Ht, E3, Hn. by split_and!.
  - destruct Hs as (Ht & Hn). by rewrite E2, Ht.
Qed.

Lemma hash_step password w :
  match hash_password password w with
  | (Ok phc, w') => auth_of w' = auth_of w /\ clock_of w' = clock_of w /\ dk_replies w' = dk_replies w /\
      exists salt key, derive password salt DefaultMemoryKB DefaultIterations = Ok key /\
        forall other, exists k, derive other salt DefaultMemoryKB DefaultIterations = Ok k /\ VerifyPassword other phc = Ok (bool_decide (k = key))
  | (Err _, w') => auth_of w' = auth_of w /\ dk_replies w' = dk_replies w
  | _ => False
  end.
Proof.
  unfold hash_password, on_desk_random. rewrite service_step. unfold on_world, on_random, only_rand, service_of. simpl.
  pose proof (HashPassword_cases password (db_rand (base (dk_db w)))) as Hh.
  destruct (HashPassword password _) as [[phc|e|s|] rnd]; try done.
Qed.
End Profile.

Section PasswordChange.
Context {S : Type} `{Backend S} `{Hmac} `{HashFn} `{Sha512}.
Implicit Type w : Desk S.

#[local] Opaque VerifyPassword HashPassword derive.

(** One error reply, no row changed. *)
Definition denied (w : Desk S) (o : Res unit * Desk S) : Prop :=
  exists code msg, o.1 = Err (ErrHTTP code msg) /\ dk_replies o.2 = dk_replies w ++ [K_error code msg] /\ auth_of o.2 = auth_of w.

Lemma denied_here code msg w w' : auth_of w' = auth_of w -> dk_replies w' = dk_replies w ->
  denied w (Err (ErrHTTP code msg), with_reply (K_error code msg) w').
Proof. intros Ha Hr. exists code, msg. split_and!; [done| |done]. simpl. by rewrite Hr. Qed.

(** A step that changes at most one row, after which the reply is sent. *)
Lemma update_step id hash w :
  match on_desk_users (UpdatePassword id hash) w with
  | (Ok _, w') => dk_replies w' = dk_replies w /\ exists u, users_of w !! id = Some u /\
      users_of w' = <[id := touch_user (clock_of w) (set_password hash u)]> (users_of w) /\
      sessions_of w' = sessions_of w /\ t_tokens (auth_of w') = t_tokens (auth_of w)
  | (Err _, w') => auth_of w' = auth_of w /\ dk_replies w' = dk_replies w
  | _ => False
  end.
Proof.
  destruct (users_step (UpdatePassword id hash) w) as (E1 & E2 & E3 & E4).
  destruct (on_desk_users (UpdatePassword id hash) w) as [r w']. simpl in *. subst r.
  set (v := mkExt (base (dk_db w)) (auth_of w)) in *.
  pose proof (update_statement id (fun u => touch_user (clock_of w) (set_password hash u)) "failed to update password" "user not found" v) as Hu.
  change ((rows ← wrap "failed to update password" (tab_exec (update_user id (fun u => touch_user (clock_of w) (set_password hash u))));
           tab_affected "user not found" rows) v) with (UpdatePassword id hash v) in Hu.
  destruct (UpdatePassword id hash v) as [[u|e|s|] v']; simpl in *; try done.
  - destruct Hu as (u0 & Hu & Hus & Hss & Htk). split; [done|]. exists u0. unfold users_of, sessions_of. fold (auth_of w').
    rewrite E2. by split_and!.
  - rewrite E2. by split.
Qed.

(** [Fact] Changing a password needs the current one and takes effect.  Whatever the
    driver and the random source do, the endpoint writes one reply; an error reply
    leaves every account, session and token as it was.  If it succeeds, the new
    password has at least 8 bytes, the current one verified, the row of the user
    of the request -- and no other, and no session or token -- has changed: its
    hash now verifies exactly the passwords that derive the key of the new one,
    the new one among them, and no password change is due. *)
Theorem changePassword_exact r body w :
  let uid := GetUserIDFromRequest r in
  let '(res, w') := changePassword r body w in
  match res with
  | Ok _ =>
      dk_replies w' = dk_replies w ++ [K_status "password changed"] /\
      exists current new u hash, body = Some (current, new) /\ 8 <= Z.of_nat (len new) /\
        users_of w !! uid = Some u /\ VerifyPassword current (u_PasswordHash u) = Ok true /\
        users_of w' = <[uid := touch_user (clock_of w) (set_password hash u)]> (users_of w) /\
        sessions_of w' = sessions_of w /\ t_tokens (auth_of w') = t_tokens (auth_of w) /\
        VerifyPassword new hash = Ok true /\
        (exists salt key, derive new salt DefaultMemoryKB DefaultIterations = Ok key /\
           forall other, VerifyPassword other hash = Ok true <-> derive other salt DefaultMemoryKB DefaultIterations = Ok key)
  | _ => denied w (res, w')
  end.
Proof.
  intros uid. destruct (changePassword r body w) as [res w'] eqn:E. unfold changePassword in E.
  unfold current_user in E. fold uid in E. rewrite bind_assoc, expect_bind in E. destruct (nonempty uid); [|by injection E as <- <-; apply denied_here].
  rewrite bind_mret, decoded_bind in E. destruct body as [[current new]|]; [|by injection E as <- <-; apply denied_here].
  rewrite expect_bind in E. destruct (nonempty current && nonempty new); [|by injection E as <- <-; apply denied_here].
  rewrite expect_bind in E. destruct (Z.ltb_spec (Z.of_nat (len new)) 8) as [|Hlen]; [by injection E as <- <-; apply denied_here|]. simpl negb in E. cbv iota in E.
  unfold find_user in E. rewrite or_deny_bind in E. pose proof (find_user_cases uid w) as Hf.
  destruct (on_desk_users (Users.GetUserByID uid) w) as [[u|e|m|] w1]; try done; [|by destruct Hf; injection E as <- <-; apply denied_here].
  destruct Hf as (A1 & C1 & R1 & Hu). rewrite attempt_bind in E. unfold lift in E.
  pose proof (VerifyPassword_total current (u_PasswordHash u)) as Ht.
  destruct (VerifyPassword current (u_PasswordHash u)) as [b|e|m|] eqn:Ev; try done; rewrite expect_bind in E;
    [destruct b|]; [|by injection E as <- <-; apply denied_here..].
  rewrite or_deny_bind in E. pose proof (hash_step new w1) as Hh.
  destruct (hash_password new w1) as [[hash|e|m|] w2]; try done;
    [|destruct Hh as [A2 R2]; injection E as <- <-; apply denied_here; congruence].
  destruct Hh as (A2 & C2 & R2 & salt & key & Hk & Hver). rewrite or_deny_bind in E. pose proof (update_step uid hash w2) as Hup.
  destruct (on_desk_users (UpdatePassword uid hash) w2) as [[[]|e|m|] w3];
    [|destruct Hup as [A3 R3]; injection E as <- <-; apply denied_here; congruence|destruct Hup..].
  destruct Hup as (R3 & u' & Hu' & Hus & Hss & Htk). injection E as <- <-.
  assert (auth_of w2 = auth_of w) as A by (by rewrite A2, A1). clear Ht.
  assert (users_of w2 = users_of w) as Eus by (exact (f_equal t_users A)).
  rewrite Eus in Hu', Hus. rewrite Hu in Hu'. injection Hu' as <-.
  split; [simpl; by rewrite R3, R2, R1|]. exists current, new, u, hash.
  split; [reflexivity|]. split; [exact Hlen|]. split; [exact Hu|]. split; [exact Ev|].
  split; [unfold users_of; simpl; etransitivity; [exact Hus|by rewrite C2, C1]|].
  split; [etransitivity; [exact Hss|exact (f_equal t_sessions A)]|].
  split; [etransitivity; [exact Htk|exact (f_equal t_tokens A)]|].
  split.
  - destruct (Hver new) as (k & Hk' & ->). rewrite Hk in Hk'. injection Hk' as <-. by rewrite bool_decide_eq_true_2.
  - exists salt, key. split; [exact Hk|]. intros other. destruct (Hver other) as (k & Hk' & ->). rewrite Hk'. split.
    + intros [= Hb]. apply bool_decide_eq_true in Hb. exact (f_equal Ok Hb).
    + intros [= ->]. rewrite bool_decide_eq_true_2; reflexivity.
Qed.
Lemma hash_step_ok password w : rnd_faults (db_rand (base (dk_db w))) = [] ->
  exists phc w', hash_password password w = (Ok phc, w') /\ auth_of w' = auth_of w /\
    db_faults (base (dk_db w')) = db_faults (base (dk_db w)).
Proof.
  intros Hr. destruct (RandomBytes_ok SaltSize _ Hr) as (salt & r' & Es & _).
  destruct (derive_total password salt DefaultMemoryKB DefaultIterations) as (key & Ek).
  unfold hash_password, on_desk_random. rewrite service_step. unfold on_world, on_random, only_rand, service_of. simpl.
  rewrite (hash_derived password _ salt r' key Es Ek). eexists _, _. split; [reflexivity|]. split; reflexivity.
Qed.

(** [Fact] And it is not refused for another reason: for a user who exists, with a
    current password that verifies, a new one of at least 8 bytes, and a driver
    and a random source that do not fail, the change succeeds. *)
Theorem changePassword_accepts r current new w u :
  let uid := GetUserIDFromRequest r in
  uid <> ""%string -> current <> ""%string -> 8 <= Z.of_nat (len new) ->
  db_faults (base (dk_db w)) = [] -> rnd_faults (db_rand (base (dk_db w))) = [] ->
  users_of w !! uid = Some u -> user_unique uid u (users_of w) = true -> VerifyPassword current (u_PasswordHash u) = Ok true ->
  (changePassword r (Some (current, new)) w).1 = Ok tt.
Proof.
  intros uid Hne Hc Hlen Hf Hr Hu Hq Hv. unfold changePassword, current_user. fold uid.
  assert (nonempty uid = true) as E1 by (unfold nonempty; by rewrite bool_decide_eq_false_2).
  assert (nonempty current && nonempty new = true) as E2.
  { unfold nonempty. rewrite !bool_decide_eq_false_2; [reflexivity|intros ->; simpl in Hlen; lia|exact Hc]. }
  assert ((Z.of_nat (len new) <? 8) = false) as E3 by (by apply Z.ltb_ge).
  rewrite bind_assoc, expect_bind, E1, bind_mret, decoded_bind. cbv beta iota zeta. rewrite expect_bind, E2, expect_bind, E3. simpl negb. cbv iota.
  unfold find_user. rewrite or_deny_bind.
  assert (on_desk_users (Users.GetUserByID uid) w = (Ok u, w)) as ->.
  { unfold on_desk_users, on_desk, on_accounts, Users.GetUserByID. rewrite tab_scan_still by exact Hf. unfold users_of in Hu. simpl. rewrite Hu.
    by destruct w as [[? []] ? ? ? ? ? ?]. }
  rewrite attempt_bind. unfold lift. rewrite Hv, expect_bind, or_deny_bind.
  destruct (hash_step_ok new w Hr) as (phc & w2 & -> & Ha & Hf2). rewrite or_deny_bind. rewrite Hf in Hf2.
  unfold on_desk_users, on_desk, on_accounts, UpdatePassword, wrap, tab_now, mbind, GoM_bind. simpl.
  rewrite tab_exec_still by exact Hf2. unfold update_user. simpl. unfold auth_of, users_of in *. rewrite Ha, Hu.
  destruct u. unfold user_unique in *. simpl in *. by rewrite Hq.
Qed.
End PasswordChange.

(** ** The endpoints together *)

(** The routes of the three handlers, each with its parsed arguments. *)
Inductive desk_call :=
  | D_login (userAgent : string) (body : option (string * string))
  | D_verifyTOTP (userAgent : string) (body : option (string * string))
  | D_logout
  | D_refresh (body : option string)
  | D_getProfile
  | D_updateProfile (body : option (option string * option string))
  | D_changePassword (body : option (string * string)).

Inductive admin_call :=
  | D_getSystemHealth
  | D_getSystemStats
  | D_listUsers (limit offset : string)
  | D_createUser (body : option create_request)
  | D_getUser (userID : string)
  | D_updateUser (userID : string) (body : option update_request)
  | D_deleteUser (userID : string)
  | D_getAuditLogs (userID action resourceType limit offset : string)
  | D_runGC (k : nat)
  | D_runCleanup (k : nat).

Section Routes.
Context {S : Type} `{Backend S} `{Hmac} `{HashFn} `{Sha512} `{ClaimsJSON} `{HmacSha1}.
Context (bruteConfig : BruteForceConfig) (jwtSecret : bytes) (totp : TOTP) (sessionTTL : Z).
Context (sql_before : Z -> Z -> bool) (pool_figures runtime_figures : list Z) (backend_stats : Res Z).
Implicit Type w : Desk S.

(** [RegisterRoutes] of the authentication and of the user handler. *)
Definition serve_account (c : desk_call) (r : HttpRequest) : GoM (Desk S) unit :=
  match c with
  | D_login ua body => login bruteConfig jwtSecret sessionTTL r ua body
  | D_verifyTOTP ua body => verifyTOTP jwtSecret totp sessionTTL r ua body
  | D_logout => requireAuth jwtSecret (logout jwtSecret) r
  | D_refresh body => refresh jwtSecret sessionTTL body
  | D_getProfile => getProfile r
  | D_updateProfile body => updateProfile r body
  | D_changePassword body => changePassword r body
  end.

(** [RegisterRoutes] of the administration. *)
Definition serve_admin (c : admin_call) (r : HttpRequest) : GoM (Desk S) unit :=
  match c with
  | D_getSystemHealth => getSystemHealth runtime_figures backend_stats r
  | D_getSystemStats => getSystemStats sql_before pool_figures backend_stats r
  | D_listUsers l o => listUsers r l o
  | D_createUser body => admin_createUser r body
  | D_getUser id => admin_getUser r id
  | D_updateUser id body => admin_updateUser r id body
  | D_deleteUser id => admin_deleteUser r id
  | D_getAuditLogs u a t l o => getAuditLogs r u a t l o
  | D_runGC k => runGC r k
  | D_runCleanup k => runCleanup r k
  end.

(** A step that writes no reply; one that moreover never fails; one that, unless
    the process panics, writes exactly one reply. *)
Definition quiet {A} (m : GoM (Desk S) A) : Prop := forall w, dk_replies (m w).2 = dk_replies w.
Definition sure {A} (m : GoM (Desk S) A) : Prop := quiet m /\ forall w e, (m w).1 <> Err e.
Definition answers {A} (m : GoM (Desk S) A) : Prop :=
  forall w, settles (m w).1 -> exists reply, dk_replies (m w).2 = dk_replies w ++ [reply].

Lemma quiet_on_desk {A} (m : GoM SiteDB A) : quiet (on_desk m).
Proof. intros w. unfold on_desk. by destruct (m _). Qed.
Lemma quiet_service {A} (m : GoM Service A) : quiet (on_desk_service m).
Proof. intros w. by rewrite service_step. Qed.
Lemma quiet_shares {A} (m : GoM ShareDB A) : quiet (on_desk_shares m).
Proof. intros w. unfold on_desk_shares. by destruct (m _). Qed.
Lemma quiet_lift {A} (r : Res A) : quiet (lift r).
Proof. by intros w. Qed.

Lemma sure_ret {A} (a : A) : sure (mret a).
Proof. by split. Qed.
Lemma sure_attempt {A} (m : GoM (Desk S) A) : quiet m -> sure (attempt m).
Proof. intros Hm. split; intros w; specialize (Hm w); unfold attempt; by destruct (m w) as [[]]. Qed.
Lemma sure_now : sure desk_now.
Proof. by split. Qed.
Lemma sure_queue k type age : sure (queue_gc k type age).
Proof. by split. Qed.
Lemma sure_zero (m : GoM (Desk S) Z) : quiet m -> sure (or_zero m).
Proof. intros Hm. split; intros w; specialize (Hm w); unfold or_zero, attempt, mbind, GoM_bind; by destruct (m w) as [[]]. Qed.
Lemma sure_uuid : sure (on_desk_service service_uuid).
Proof.
  split; [apply quiet_service|]. intros w e. rewrite service_step. simpl. unfold service_uuid, on_world, new_uuid, on_random.
  unfold mbind, GoM_bind. simpl. unfold GenerateUUID. destruct (GenerateUUIDv7 _ _) as [[] [? ?]]; discriminate.
Qed.
Lemma sure_tokens result : sure (tokens_of result).
Proof. split; intros w; unfold tokens_of; by destruct (lr_Tokens result). Qed.

Lemma answers_answer r : answers (answer r).
Proof. intros w _. by eexists. Qed.
Lemma answers_deny {A} code msg : answers (deny (A := A) code msg).
Proof. intros w _. by eexists. Qed.
Lemma answers_bind {A B} (m : GoM (Desk S) A) (k : A -> GoM (Desk S) B) : sure m -> (forall a, answers (k a)) -> answers (m ≫= k).
Proof.
  intros [Hm Hne] Hk w. specialize (Hm w). specialize (Hne w). unfold mbind, GoM_bind.
  destruct (m w) as [[a|e|s|] w']; simpl in *; [|by destruct (Hne e)|done..]. rewrite <- Hm. apply Hk.
Qed.
Lemma answers_expect {A} b code msg (k : unit -> GoM (Desk S) A) : answers (k tt) -> answers (expect b code msg ≫= k).
Proof. intros Hk w. rewrite expect_bind. destruct b; [apply Hk|by eexists]. Qed.
Lemma answers_decoded {A B} (body : option A) (k : A -> GoM (Desk S) B) : (forall b, answers (k b)) -> answers (decoded body ≫= k).
Proof. intros Hk w. rewrite decoded_bind. destruct body; [apply Hk|by eexists]. Qed.
Lemma answers_or_deny {A B} (m : GoM (Desk S) A) code msg (k : A -> GoM (Desk S) B) :
  quiet m -> (forall a, answers (k a)) -> answers (or_deny m code msg ≫= k).
Proof.
  intros Hm Hk w. rewrite or_deny_bind. specialize (Hm w). destruct (m w) as [[a|e|s|] w']; simpl in *; [|intros _|done..].
  - rewrite <- Hm. apply Hk.
  - rewrite <- Hm. by eexists.
Qed.
Lemma answers_assoc {A B C} (m : GoM (Desk S) A) (k : A -> GoM (Desk S) B) (h : B -> GoM (Desk S) C) :
  answers (m ≫= fun a => k a ≫= h) -> answers ((m ≫= k) ≫= h).
Proof. intros Hk w. rewrite bind_assoc. apply Hk. Qed.
End Routes.

Create HintDb answering.
#[export] Hint Resolve quiet_on_desk quiet_service quiet_shares quiet_lift sure_ret sure_attempt sure_now sure_queue sure_zero sure_uuid
  sure_tokens answers_answer answers_deny : answering.

(** Follows the text of a handler to its replies. *)
Ltac answering :=
  unfold current_user, find_user, hash_password, on_desk_random, on_desk_users, on_desk_files, admin_only in *;
  repeat first
    [ solve [auto with answering]
    | match goal with |- answers ((_ ≫= _) ≫= _) => apply answers_assoc end
    | apply answers_expect
    | apply answers_decoded; intros ?
    | apply answers_or_deny; [solve [auto with answering]|intros ?]
    | apply answers_bind; [solve [auto with answering]|intros ?]
    | match goal with |- answers (match ?x with _ => _ end) => destruct x end
    | match goal with |- answers ((if ?x then _ else _) ≫= _) => destruct x end
    | progress cbv beta ].

Section Answers.
Context {S : Type} `{Backend S} `{Hmac} `{HashFn} `{Sha512} `{ClaimsJSON} `{HmacSha1}.
Context (bruteConfig : BruteForceConfig) (jwtSecret : bytes) (totp : TOTP) (sessionTTL : Z).
Context (sql_before : Z -> Z -> bool) (pool_figures runtime_figures : list Z) (backend_stats : Res Z).

Lemma account_answers c r : answers (S := S) (serve_account bruteConfig jwtSecret totp sessionTTL c r).
Proof.
  destruct c; simpl; unfold login, verifyTOTP, requireAuth, logout, refresh, getProfile, updateProfile, changePassword; answering.
Qed.

Lemma admin_answers c r : answers (S := S) (serve_admin sql_before pool_figures runtime_figures backend_stats c r).
Proof.
  destruct c; simpl; unfold getSystemHealth, getSystemStats, listUsers, admin_createUser, admin_getUser, admin_updateUser,
    admin_deleteUser, getAuditLogs, runGC, runCleanup; answering.
Qed.
End Answers.

(** ** The administration and the accounts *)

(** The account that a call may change, the one it may remove. *)
Definition changes (c : admin_call) : option string := match c with D_updateUser id _ => Some id | _ => None end.
Definition removes (c : admin_call) : option string := match c with D_deleteUser id => Some id | _ => None end.

Section Scope.
Context {S : Type} `{Backend S} (J : gmap string User -> Prop).

(** A property of the users, kept by a step on the tables, by a step of the
    endpoints. *)
Definition users_ok (a : AuthDB) : Prop := J (t_users (tab a)).
Definition desk_ok (w : Desk S) : Prop := J (users_of w).

Lemma ok_users {A} (m : GoM AuthDB A) : preserves users_ok m -> preserves desk_ok (on_desk_users m).
Proof.
  intros Hm w Hw. destruct (users_step m w) as (_ & E & _). unfold desk_ok, users_of. fold (auth_of (on_desk_users m w).2).
  rewrite E. by apply (Hm (mkExt (base (dk_db w)) (auth_of w))).
Qed.

Lemma ok_same {A} (m : GoM (Desk S) A) : (forall w, users_of (m w).2 = users_of w) -> preserves desk_ok m.
Proof. intros Hm w Hw. unfold desk_ok. by rewrite Hm. Qed.

Lemma ok_random {A} (m : GoM (Ids * Rand) A) : preserves desk_ok (on_desk_service (on_world (on_random m))).
Proof.
  apply ok_same. intros w. rewrite service_step. unfold on_world, on_random. simpl. by destruct (m _) as [r [ids rnd]].
Qed.

Lemma ok_uuid : preserves desk_ok (on_desk_service service_uuid).
Proof.
  apply ok_same. intros w. rewrite service_step. unfold service_uuid, on_world, new_uuid, on_random, mbind, GoM_bind. simpl.
  by destruct (GenerateUUID _ _) as [r [ids rnd]].
Qed.

Lemma ok_files {A} (m : GoM DB A) : preserves desk_ok (on_desk_files m).
Proof. apply ok_same. intros w. unfold on_desk_files, on_desk, on_base. by destruct (m _). Qed.

Lemma ok_shares {A} (q : ShareDB -> A) : preserves desk_ok (on_desk_shares (tab_query q)).
Proof. apply ok_same. intros w. unfold on_desk_shares, tab_query. by destruct (next_fault _) as [[] l]. Qed.

Lemma ok_site {A} (m : GoM SiteDB A) : (forall w, si_auth (tab (m w).2) = si_auth (tab w)) -> preserves desk_ok (on_desk m).
Proof. intros Hm. apply ok_same. intros w. unfold on_desk, users_of. specialize (Hm (dk_db w)). destruct (m (dk_db w)). simpl in *. by rewrite Hm. Qed.

Lemma ok_or_deny {A} (m : GoM (Desk S) A) code msg : preserves desk_ok m -> preserves desk_ok (or_deny m code msg).
Proof. intros Hm. apply preserves_bind; [by apply preserves_attempt|]. by intros [a|e] w Hw. Qed.

Lemma ok_zero (m : GoM (Desk S) Z) : preserves desk_ok m -> preserves desk_ok (or_zero m).
Proof. intros Hm. apply preserves_bind; [by apply preserves_attempt|]. by intros [a|e] w Hw. Qed.

Lemma ok_expect b code msg : preserves desk_ok (expect (S := S) b code msg).
Proof. by destruct b; intros w Hw. Qed.

Lemma ok_decoded {A} (body : option A) : preserves desk_ok (decoded body).
Proof. by destruct body; intros w Hw. Qed.

Lemma ok_ret {W A} (I : W -> Prop) (a : A) : preserves I (mret a).
Proof. by intros w Hw. Qed.
Lemma ok_fail {W A} (I : W -> Prop) e : preserves I (fail (A := A) e).
Proof. by intros w Hw. Qed.
Lemma ok_tab_now : preserves users_ok tab_now.
Proof. by intros w Hw. Qed.
Lemma ok_lift {A} (r : Res A) : preserves desk_ok (lift r).
Proof. by intros w Hw. Qed.
Lemma ok_now : preserves desk_ok desk_now.
Proof. by intros w Hw. Qed.
Lemma ok_answer r : preserves desk_ok (answer r).
Proof. by intros w Hw. Qed.
Lemma ok_queue k type age : preserves desk_ok (queue_gc k type age).
Proof. by intros w Hw. Qed.
Lemma ok_ping : preserves desk_ok (on_desk Schema.Ping).
Proof. apply ok_site. intros w. unfold Schema.Ping, driver_call, tab_query. by destruct (next_fault _) as [[] l]. Qed.
Lemma ok_audit u a t from until limit offset : preserves desk_ok (on_desk (GetAuditEntries u a t from until limit offset)).
Proof.
  apply ok_site. intros w. unfold GetAuditEntries, wrap, tab_query, mbind, GoM_bind.
  destruct (next_fault _) as [[] l]; simpl; [done|]. by destruct (next_fault _) as [[] l'].
Qed.

Lemma ok_query {A} (q : AuthDB -> A) : preserves users_ok (tab_query q).
Proof. intros w Hw. unfold tab_query. by destruct (next_fault _) as [[] l]. Qed.

Lemma ok_exec x : (forall l w n w', users_ok w -> x (mkExt (with_faults l (base w)) (tab w)) = inr (n, w') -> users_ok w') ->
  preserves users_ok (tab_exec x).
Proof.
  intros Hx w Hw. unfold tab_exec. destruct (next_fault _) as [[] l]; [done|]. destruct (x _) as [e|[n w']] eqn:E; [done|]. by eapply Hx.
Qed.

Lemma ok_affected msg n : preserves users_ok (tab_affected msg n).
Proof. unfold tab_affected. by destruct (n =? 0); intros w Hw. Qed.

Lemma ok_update id g : (forall m u, J m -> m !! id = Some u -> J (<[id := g u]> m)) -> preserves users_ok (tab_exec (update_user id g)).
Proof.
  intros Hg. apply ok_exec. intros l w n w' Hw. unfold update_user. simpl. destruct (t_users (tab w) !! id) as [u|] eqn:Eu.
  - destruct (user_unique _ _ _); simpl; [|done]. intros [= _ <-]. by apply Hg.
  - by intros [= _ <-].
Qed.

Lemma ok_delete id : (forall m, J m -> J (delete id m)) -> preserves users_ok (tab_exec (delete_user id)).
Proof.
  intros Hd. apply ok_exec. intros l w n w' Hw. unfold delete_user. simpl. destruct (t_users (tab w) !! id) as [u|] eqn:Eu.
  - destruct (db_fk _); intros [= _ <-]; by apply Hd.
  - by intros [= _ <-].
Qed.

Lemma ok_insert u : (forall m, J m -> m !! u_ID u = None -> J (<[u_ID u := u]> m)) -> preserves users_ok (tab_exec (insert_user u)).
Proof.
  intros Hi. apply ok_exec. intros l w n w' Hw. unfold insert_user. simpl. destruct (bool_decide _) eqn:Eb; [done|].
  destruct (negb _); [done|]. intros [= _ <-]. apply Hi; [done|]. apply bool_decide_eq_false in Eb. by apply eq_None_not_Some.
Qed.
End Scope.

Create HintDb keeping.
#[export] Hint Resolve preserves_ret preserves_attempt preserves_wrap ok_users ok_random ok_uuid ok_files ok_shares ok_or_deny
  ok_zero ok_expect ok_decoded ok_ret ok_fail ok_tab_now ok_lift ok_now ok_answer ok_queue ok_ping ok_audit ok_query ok_affected : keeping.

(** A computation, statement by statement. *)
Ltac keeping := repeat first
  [ solve [auto with keeping nocore]
  | match goal with |- preserves _ (_ ≫= _) => apply preserves_bind; [|intros ?] end
  | apply ok_users | apply ok_or_deny | apply ok_zero | apply preserves_attempt | apply preserves_wrap
  | match goal with |- preserves _ (match ?x with _ => _ end) => destruct x end ].

Section Administration.
Context {S : Type} `{Backend S} `{Hmac} `{HashFn} `{Sha512} `{ClaimsJSON} `{HmacSha1}.
Context (sql_before : Z -> Z -> bool) (pool_figures runtime_figures : list Z) (backend_stats : Res Z).
Implicit Type w : Desk S.

#[local] Opaque HashPassword VerifyPassword.

Notation admin := (serve_admin (S := S) sql_before pool_figures runtime_figures backend_stats).

(** Nobody else gets further than the first line of a handler. *)
Lemma admin_closed c r w : isAdmin r = false ->
  admin c r w = (Err (ErrHTTP 403 "Admin access required"), with_reply (K_error 403 "Admin access required") w).
Proof.
  intros Hr. destruct c; simpl; unfold getSystemHealth, getSystemStats, listUsers, admin_createUser, admin_getUser, admin_updateUser,
    admin_deleteUser, getAuditLogs, runGC, runCleanup, admin_only; by rewrite Hr.
Qed.

(** What a call keeps of the users: each property that new rows, changes of the
    account it may change and the removal of the one it may remove keep. *)
Lemma admin_keeps (J : gmap string User -> Prop) c r :
  (forall m u, J m -> m !! u_ID u = None -> J (<[u_ID u := u]> m)) ->
  (forall m id u v, changes c = Some id -> J m -> m !! id = Some u -> J (<[id := v]> m)) ->
  (forall m id, removes c = Some id -> id <> GetUserIDFromRequest r -> J m -> J (delete id m)) ->
  preserves (desk_ok J) (admin c r).
Proof.
  intros Hi Hu Hd. destruct c; simpl.
  - unfold getSystemHealth, admin_only. keeping.
  - unfold getSystemStats, admin_only, CountUsersByStatus, CountActiveShares. keeping.
  - unfold listUsers, admin_only, ListUsers. keeping.
  - unfold admin_createUser, admin_only, hash_password, on_desk_random, CreateUser. keeping. apply ok_insert. intros m. apply Hi.
  - unfold admin_getUser, admin_only, find_user, Users.GetUserByID, tab_scan. keeping.
  - unfold admin_updateUser, admin_only, hash_password, on_desk_random, UpdateUser, UpdateUserPassword, UpdatePassword. keeping;
      apply ok_update; intros m v Hm Ev; by eapply Hu.
  - unfold admin_deleteUser, admin_only. apply preserves_bind; [apply ok_expect|intros _]. apply preserves_bind; [apply ok_expect|intros _].
    destruct (bool_decide (userID = GetUserIDFromRequest r)) eqn:Eb; [by intros w Hw|]. apply bool_decide_eq_false in Eb.
    unfold DeleteUser. simpl. keeping. apply ok_delete. intros m Hm. by apply Hd.
  - unfold getAuditLogs, admin_only. keeping.
  - unfold runGC, admin_only. keeping.
  - unfold runCleanup, admin_only. keeping.
Qed.
End Administration.

(** ** Correctness of the endpoints *)

(** [Fact] One reply per request.  Every endpoint of the authentication, the profile
    and the administration that ends without panic -- whatever the request, the
    tables, the driver and the random source do -- has written exactly one reply:
    no path falls through after an error reply, none ends without a word. *)
Theorem one_reply {S : Type} `{Backend S} `{Hmac} `{HashFn} `{Sha512} `{ClaimsJSON} `{HmacSha1} bruteConfig jwtSecret totp sessionTTL
    sql_before pool_figures runtime_figures backend_stats (c : desk_call + admin_call) r (w : Desk S) :
  let o := match c with
           | inl c => serve_account bruteConfig jwtSecret totp sessionTTL c r w
           | inr c => serve_admin sql_before pool_figures runtime_figures backend_stats c r w
           end in
  settles o.1 -> exists reply, dk_replies o.2 = dk_replies w ++ [reply].
Proof. destruct c as [c|c]; [apply account_answers|apply admin_answers]. Qed.

Section Scoped.
Context {S : Type} `{Backend S} `{Hmac} `{HashFn} `{Sha512} `{ClaimsJSON} `{HmacSha1}.
Context (sql_before : Z -> Z -> bool) (pool_figures runtime_figures : list Z) (backend_stats : Res Z).
Implicit Type w : Desk S.

Notation admin := (serve_admin (S := S) sql_before pool_figures runtime_figures backend_stats).


(** [Fact] The role is the one that the token was issued with.  An account whose
    row has lost the role, with a token from before, gives it back to itself. *)
Theorem demoted_admin_returns r w u :
  let uid := GetUserIDFromRequest r in
  isAdmin r = true -> uid <> ""%string -> db_faults (base (dk_db w)) = [] ->
  users_of w !! uid = Some u -> user_unique uid u (users_of w) = true ->
  let o := admin (D_updateUser uid (Some (mkUpdate "" "admin" "" 0 ""))) r w in
  o.1 = Ok tt /\ u_Role <$> users_of o.2 !! uid = Some "admin"%string.
Proof.
  intros uid Ha Hne Hf Hu Hq. simpl. unfold admin_updateUser, admin_only. rewrite Ha.
  rewrite expect_bind. replace (nonempty uid) with true by (unfold nonempty; by rewrite bool_decide_eq_false_2).
  rewrite expect_bind, decoded_bind. cbv beta iota zeta. unfold account_updates. simpl.
  rewrite or_deny_bind. unfold on_desk_users, on_desk, on_accounts, UpdateUser, wrap, tab_exec, mbind, GoM_bind. simpl.
  rewrite Hf. simpl. unfold update_user. simpl. unfold users_of in *. rewrite Hu. destruct u. simpl.
  unfold user_unique in *. simpl in *. rewrite Hq. simpl. by rewrite lookup_insert_eq.
Qed.
End Scoped.

(** ** Witnesses *)

Section Witnesses.
#[local] Existing Instance cut_hash.
#[local] Existing Instance cut_hmac.
#[local] Existing Instance cut_sha512.
#[local] Existing Instance toy_claims.
#[local] Existing Instance toy_sha1.

Lemma desk_root_good : Forall good_elem ["data"%string].
Proof. by apply (bool_decide_unpack _). Qed.

#[local] Instance desk_backend : Backend FS := Local_Backend ["data"%string] desk_root_good.

Definition desk_of (users : gmap string User) : Desk FS :=
  mkDesk (mkExt (mkDB (dom users) ∅ ∅ ∅ 100 toy_rand [] true) (mkSite (mkAuthTables users ∅ ∅) (mkCatalog ∅ ∅ ∅ None) ∅ ∅ ∅ ∅))
    (mkIds 0 0) ∅ ∅ ∅ None [].

Definition due : User := mkUser "u1" "ann" "a@x" "Ann" weak_phc "admin" 10 0 None false [] [] None None "active" true None 10 10.
Definition plain_request : HttpRequest := mkHttp "POST" "/" "" "" "1.2.3.4:5" "" false "" ∅ 0.
Definition request_of (roles : list string) : HttpRequest :=
  with_ctx (<[(server_key, "roles"%string) := VStrings roles]> {[(server_key, "user_id"%string) := VString "u1"]}) plain_request.

Lemma login_replies_witness : exists tokens sid,
  dk_replies (login DefaultBruteForceConfig [x41] 1000 plain_request "ua" (Some ("ann", "pw")%string) (desk_of {["u1"%string := ann]})).2 =
    [K_tokens tokens sid (Some "ann"%string)] /\ u_Status ann <> "disabled"%string.
Proof.
  assert (match dk_replies (login DefaultBruteForceConfig [x41] 1000 plain_request "ua" (Some ("ann", "pw")%string) (desk_of {["u1"%string := ann]})).2 with
          | [K_tokens _ _ (Some n)] => n = "ann"%string | _ => False end) as Hok by (vm_compute; reflexivity).
  assert (settles (login DefaultBruteForceConfig [x41] 1000 plain_request "ua" (Some ("ann", "pw")%string) (desk_of {["u1"%string := ann]})).1) as Hs
    by (vm_compute; exact I).
  destruct (login_replies DefaultBruteForceConfig [x41] 1000 plain_request "ua" (Some ("ann", "pw")%string) (desk_of {["u1"%string := ann]}) Hs) as (reply & E & Hj). rewrite E in Hok |- *. cbn [desk_of dk_replies app] in Hok |- *.
  destruct reply as [| |tokens sid [n|]| | | | | | | | | | |]; try destruct Hok.
  exists tokens, sid. split; [reflexivity|]. destruct Hj as (n' & p' & id & u & Hb & Hn & Hu & (_ & Hd & _) & _).
  unfold desk_of, users_of in Hu. cbn in Hu. apply lookup_singleton_Some in Hu as [_ <-]. exact Hd.
Defined.

Lemma fresh_system_witness : exists code msg,
  dk_replies (login DefaultBruteForceConfig [x41] 1000 plain_request "ua" (Some ("ann", "pw")%string) (desk_of {["u1"%string := due]})).2 =
    [K_error code msg].
Proof.
  apply fresh_system_admits_nobody.
  - intros id u Hu. unfold desk_of, users_of in Hu. cbn in Hu. apply lookup_singleton_Some in Hu as [_ <-]. reflexivity.
  - vm_compute. exact I.
Defined.

Lemma one_reply_witness : exists reply,
  dk_replies (serve_account DefaultBruteForceConfig [x41] NewTOTP 1000 D_getProfile (request_of []) (desk_of {["u1"%string := ann]})).2 = [reply].
Proof.
  apply (one_reply DefaultBruteForceConfig [x41] NewTOTP 1000 (fun _ _ => true) [] [] (Ok 0) (inl D_getProfile)).
  vm_compute. exact I.
Defined.

Lemma demoted_admin_witness :
  u_Role <$> users_of (serve_admin (fun _ _ => true) [] [] (Ok 0) (D_updateUser "u1" (Some (mkUpdate "" "admin" "" 0 "")))
                          (request_of ["admin"%string]) (desk_of {["u1"%string := ann]})).2 !! "u1"%string = Some "admin"%string /\
  u_Role ann = "user"%string.
Proof.
  split; [|reflexivity].
  apply (demoted_admin_returns (fun _ _ => true) [] [] (Ok 0) (request_of ["admin"%string]) (desk_of {["u1"%string := ann]}) ann);
    vm_compute; first [reflexivity|discriminate].
Defined.

(** The right current password: the change goes through. *)
Lemma changePassword_witness :
  (changePassword (request_of []) (Some ("pw", "new password")%string) (desk_of {["u1"%string := ann]})).1 = Ok tt /\
  VerifyPassword "pw" weak_phc = Ok true.
Proof.
  assert (VerifyPassword "pw" weak_phc = Ok true) as Hv by (vm_compute; reflexivity). split; [|exact Hv].
  apply (changePassword_accepts (request_of []) "pw" "new password" (desk_of {["u1"%string := ann]}) ann);
    first [exact Hv|vm_compute; first [reflexivity|discriminate]].
Defined.
End Witnesses.
