(* ===== verification/WebSocket.v ===== *)
(** * WebSocket server (internal/server/websocket.go)

    The hub of connections as a state machine.  A client is a shared object: the
    table of clients and the goroutines hold pointers to it.  A step is one action
    of a goroutine: the handshake up to the registration, one case of the event
    loop (which alone writes the table and the index), one frame read, one reply
    put into the channel of a client, one message written.  Frames come decoded,
    by the field that does not decode; what the database holds may change between
    two steps.  The event loop visits the clients of an event in one step. *)

From S2P Require Import Prelude GoStrings GoCrypto Encoding Database Vfs Devices Users Password Jwt ApiTokens AuthService Shares Middleware.

(** ** Messages *)

Section WebSocket.
Context {P : Type}.

Record WebSocketEvent := mkWsEvent {
  we_Type : string; we_UserID : string; we_FileID : string; we_FolderID : string; we_Data : P; we_Timestamp : Z
}.

Inductive ws_payload :=
  | P_none
  | P_device (device_id : string)
  | P_event (event : WebSocketEvent)
  | P_status (status folder_id : string)
  | P_changes (folder_id : string) (changes : list File) (full_sync : bool) (timestamp : Z).

Record WebSocketMessage := mkWsMessage { wm_Type : string; wm_ID : string; wm_Payload : ws_payload; wm_Error : string; wm_Timestamp : Z }.

(** What a frame decodes to: [None] when it is no message; its payload read as a
    folder and as a request to synchronise. *)
Record Frame := mkFrame { fm_Type : string; fm_ID : string; fm_folder : option string; fm_sync : option (string * Z * bool) }.

(** ** Clients and the hub *)

(** The goroutine that serves the connection, then reads from it: registering;
    about to greet; reading; blocked with a reply; about to unregister; gone. *)
Inductive reader := Joining | Greeting | Reading | Replying (m : WebSocketMessage) | Leaving | Left.

(** [wc_Send] is a channel of 256; [SubscribedFolders] only ever maps to [true]. *)
Record WebSocketClient := mkWsClient {
  wc_ID : string; wc_UserID : string; wc_DeviceID : string; wc_Send : list WebSocketMessage; wc_closed : bool;
  wc_SubscribedFolders : gset string; wc_reader : reader; wc_writer : bool
}.

Definition send_cap : nat := 256.
Definition broadcast_cap : nat := 256.

(** [hb_panic]: some goroutine has sent on a closed channel or closed one twice,
    which ends the process. *)
Record WebSocketServer := mkHub {
  hb_heap : list WebSocketClient; hb_clients : gmap string nat; hb_userIndex : gmap string (list string);
  hb_broadcast : list WebSocketEvent; hb_db : DB; hb_panic : bool
}.

Definition NewWebSocketServer (d : DB) : WebSocketServer := mkHub [] ∅ ∅ [] d false.

Definition with_clients (heap : list WebSocketClient) (h : WebSocketServer) : WebSocketServer :=
  mkHub heap (hb_clients h) (hb_userIndex h) (hb_broadcast h) (hb_db h) (hb_panic h).
Definition panicked (h : WebSocketServer) : WebSocketServer :=
  mkHub (hb_heap h) (hb_clients h) (hb_userIndex h) (hb_broadcast h) (hb_db h) true.

Definition set_reader (r : reader) (c : WebSocketClient) : WebSocketClient :=
  mkWsClient (wc_ID c) (wc_UserID c) (wc_DeviceID c) (wc_Send c) (wc_closed c) (wc_SubscribedFolders c) r (wc_writer c).
Definition set_writer (b : bool) (c : WebSocketClient) : WebSocketClient :=
  mkWsClient (wc_ID c) (wc_UserID c) (wc_DeviceID c) (wc_Send c) (wc_closed c) (wc_SubscribedFolders c) (wc_reader c) b.
Definition set_send (q : list WebSocketMessage) (c : WebSocketClient) : WebSocketClient :=
  mkWsClient (wc_ID c) (wc_UserID c) (wc_DeviceID c) q (wc_closed c) (wc_SubscribedFolders c) (wc_reader c) (wc_writer c).
Definition set_subs (f : gset string) (c : WebSocketClient) : WebSocketClient :=
  mkWsClient (wc_ID c) (wc_UserID c) (wc_DeviceID c) (wc_Send c) (wc_closed c) f (wc_reader c) (wc_writer c).
Definition set_closed (c : WebSocketClient) : WebSocketClient :=
  mkWsClient (wc_ID c) (wc_UserID c) (wc_DeviceID c) (wc_Send c) true (wc_SubscribedFolders c) (wc_reader c) (wc_writer c).

(** ** The handshake *)

(** [upgrader.CheckOrigin] *)
Definition origin_matches (origin allowed : string) : bool :=
  bool_decide (allowed = origin) || (HasPrefix allowed "*." && HasSuffix origin (str_drop 1 allowed)).

Definition CheckOrigin (allowedOrigins : list string) (origin : string) : bool :=
  bool_decide (origin = ""%string) || bool_decide (allowedOrigins = []) || bool_decide (allowedOrigins = ["*"%string]) ||
  existsb (origin_matches origin) allowedOrigins.

(** The token of the query, else of the header. *)
Definition ws_token (query : string) (r : HttpRequest) : string :=
  if bool_decide (query = ""%string) then
    let token := h_Authorization r in
    if (7 <? Z.of_nat (len token)) && bool_decide (str_take 7 token = "Bearer "%string) then str_drop 7 token else token
  else query.

(** [8 random bytes in hex] is the fallback of the identifiers; its read may fail
    too, and then the bytes are zero. *)
Definition random_id : GoM Rand string :=
  r ← attempt (generateRandomString 16);
  match r with
  | inl s => mret s
  | inr _ => b ← attempt (rand_read 8); mret (hex_encode (match b with inl b => b | inr _ => replicate 8 x00 end))
  end.

Definition generateClientID : GoM Rand string := s ← random_id; mret ("ws_" +:+ s)%string.

(** Until the registration; [upgrade] is what the library makes of the request,
    given the outcome of [CheckOrigin].  The client that will register, or the
    error reply. *)
Definition handleWebSocket `{Hmac} `{ClaimsJSON} (jwtSecret : bytes) (allowedOrigins : list string) (upgrade : bool -> bool)
    (query device : string) (r : HttpRequest) : GoM Service WebSocketClient :=
  let token := ws_token query r in
  if bool_decide (token = ""%string) then fail (ErrHTTP 401 "Unauthorized: token required")
  else
    claims ← instead (ErrHTTP 401 "Unauthorized: invalid token") (Service_ValidateAccessToken jwtSecret token);
    if negb (upgrade (CheckOrigin allowedOrigins (h_Origin r))) then fail (ErrHTTP 400 "WebSocket upgrade failed")
    else
      deviceID ← (if bool_decide (device = ""%string) then on_world (on_random (only_rand random_id)) else mret device);
      clientID ← on_world (on_random (only_rand generateClientID));
      mret (mkWsClient clientID (ac_UserID claims) deviceID [] false ∅ Joining false).

(** ** Frames *)

Definition ws_reply (type id : string) (payload : ws_payload) (now : Z) : WebSocketMessage := mkWsMessage type id payload "" now.

Definition ws_error (id code message : string) (now : Z) : WebSocketMessage :=
  mkWsMessage "error" id P_none (code +:+ ": " +:+ message)%string now.

(** The items that have changed since the instant that the client names. *)
Definition changed_since (full : bool) (since : Z) (item : File) : bool :=
  full || negb (0 <? since) || negb (f_UpdatedAt item <? since).

Definition handleSyncRequest (now : Z) (userID id : string) (payload : option (string * Z * bool)) : GoM DB WebSocketMessage :=
  match payload with
  | None => mret (ws_error id "invalid_payload" "Invalid sync request payload" now)
  | Some (folderID, since, fullSync) =>
      items ← attempt (VFS_ListDirectory userID folderID (mkOpts 0 1000));
      mret (match items with
            | inr _ => ws_error id "sync_failed" "Failed to list directory" now
            | inl items => ws_reply "sync_response" id (P_changes folderID (List.filter (changed_since fullSync since) items) fullSync now) now
            end)
  end.

(** The reply to a frame, with the folders that are subscribed after it. *)
Definition handleMessage (now : Z) (frame : option Frame) (userID : string) (subs : gset string) : GoM DB (WebSocketMessage * gset string) :=
  match frame with
  | None => mret (ws_error "" "invalid_message" "Failed to parse message" now, subs)
  | Some f =>
      if bool_decide (fm_Type f = "ping"%string) then mret (ws_reply "pong" (fm_ID f) P_none now, subs)
      else if bool_decide (fm_Type f = "subscribe"%string) then
        mret (match fm_folder f with
              | None => (ws_error (fm_ID f) "invalid_payload" "Invalid subscription payload" now, subs)
              | Some folder => (ws_reply "subscribe" (fm_ID f) (P_status "subscribed" folder) now, {[folder]} ∪ subs)
              end)
      else if bool_decide (fm_Type f = "unsubscribe"%string) then
        mret (match fm_folder f with
              | None => (ws_error (fm_ID f) "invalid_payload" "Invalid unsubscription payload" now, subs)
              | Some folder => (ws_reply "unsubscribe" (fm_ID f) (P_status "unsubscribed" folder) now, subs ∖ {[folder]})
              end)
      else if bool_decide (fm_Type f = "sync_request"%string) then
        m ← handleSyncRequest now userID (fm_ID f) (fm_sync f); mret (m, subs)
      else mret (ws_error (fm_ID f) "unknown_type" ("Unknown message type: " +:+ fm_Type f) now, subs)
  end.

(** ** The event loop *)

(** [case client := <-s.register] *)
Definition hub_register (p : nat) (c : WebSocketClient) (h : WebSocketServer) : WebSocketServer :=
  mkHub (alter (set_reader Greeting) p (hb_heap h)) (<[wc_ID c := p]> (hb_clients h))
    (<[wc_UserID c := (hb_userIndex h !!! wc_UserID c) ++ [wc_ID c]]> (hb_userIndex h)) (hb_broadcast h) (hb_db h) (hb_panic h).

(** [append(clients[:i], clients[i+1:]...)] at the first place of the identifier *)
Fixpoint remove_first (id : string) (l : list string) : list string :=
  match l with [] => [] | x :: l => if bool_decide (x = id) then l else x :: remove_first id l end.

(** [case client := <-s.unregister]: whatever client is found under the identifier
    is removed, the channel closed is that of the client that leaves. *)
Definition hub_unregister (p : nat) (c : WebSocketClient) (h : WebSocketServer) : WebSocketServer :=
  let index := match hb_userIndex h !! wc_UserID c with
               | Some ids => <[wc_UserID c := remove_first (wc_ID c) ids]> (hb_userIndex h)
               | None => hb_userIndex h
               end in
  match hb_clients h !! wc_ID c with
  | Some _ => mkHub (alter (fun c => set_closed (set_reader Left c)) p (hb_heap h)) (delete (wc_ID c) (hb_clients h)) index
                (hb_broadcast h) (hb_db h) (hb_panic h || wc_closed c)
  | None => mkHub (alter (set_reader Left) p (hb_heap h)) (hb_clients h) index (hb_broadcast h) (hb_db h) (hb_panic h)
  end.

(** [select { case client.Send <- message: default: }] *)
Definition try_send (m : WebSocketMessage) (p : nat) (h : WebSocketServer) : WebSocketServer :=
  match hb_heap h !! p with
  | None => h
  | Some c =>
      if wc_closed c then panicked h
      else if (length (wc_Send c) <? send_cap)%nat then with_clients (<[p := set_send (wc_Send c ++ [m]) c]> (hb_heap h)) h else h
  end.

Definition subscribed (e : WebSocketEvent) (c : WebSocketClient) : bool :=
  bool_decide (we_FolderID e = ""%string) || bool_decide (we_FolderID e ∈ wc_SubscribedFolders c) || bool_decide (""%string ∈ wc_SubscribedFolders c).

Definition event_message (now : Z) (e : WebSocketEvent) : WebSocketMessage := mkWsMessage "event" "" (P_event e) "" now.

Definition offer (now : Z) (e : WebSocketEvent) (h : WebSocketServer) (id : string) : WebSocketServer :=
  match hb_clients h !! id with
  | None => h
  | Some p => match hb_heap h !! p with
              | Some c => if subscribed e c then try_send (event_message now e) p h else h
              | None => h
              end
  end.

Definition broadcastEvent (now : Z) (e : WebSocketEvent) (h : WebSocketServer) : WebSocketServer :=
  foldl (offer now e) h (hb_userIndex h !!! we_UserID e).

(** ** Publishing *)

Definition Broadcast (e : WebSocketEvent) (h : WebSocketServer) : WebSocketServer :=
  if (length (hb_broadcast h) <? broadcast_cap)%nat
  then mkHub (hb_heap h) (hb_clients h) (hb_userIndex h) (hb_broadcast h ++ [e]) (hb_db h) (hb_panic h) else h.

Definition BroadcastToUser (now : Z) (userID eventType : string) (data : P) : WebSocketServer -> WebSocketServer :=
  Broadcast (mkWsEvent eventType userID "" "" data now).

Definition BroadcastFileEvent (now : Z) (userID folderID fileID eventType : string) (data : P) : WebSocketServer -> WebSocketServer :=
  Broadcast (mkWsEvent eventType userID fileID folderID data now).

(** ** Steps *)

Inductive ws_label :=
  | L_join (c : WebSocketClient)                     (* a handshake that succeeded *)
  | L_register (p : nat)
  | L_greet (p : nat) (now : Z)
  | L_frame (p : nat) (now : Z) (frame : option Frame)
  | L_reply (p : nat)
  | L_hangup (p : nat)                               (* reading fails *)
  | L_unregister (p : nat)
  | L_publish (e : WebSocketEvent)
  | L_deliver (now : Z)
  | L_write (p : nat) (ok : bool)                    (* a message, or the close message, is written or not *)
  | L_ping (p : nat) (ok : bool)
  | L_database (d : DB).

(** A client that has passed the handshake. *)
Definition fresh_client (c : WebSocketClient) : bool :=
  match wc_reader c with Joining => true | _ => false end && negb (wc_closed c) && negb (wc_writer c) &&
  bool_decide (wc_Send c = []) && bool_decide (wc_SubscribedFolders c = ∅).

(** [c.Send <- m]: blocked while the channel is full. *)
Definition blocking_send (m : WebSocketMessage) (f : WebSocketClient -> WebSocketClient) (p : nat) (c : WebSocketClient) (h : WebSocketServer) :
    option WebSocketServer :=
  if wc_closed c then Some (panicked h)
  else if (length (wc_Send c) <? send_cap)%nat then Some (with_clients (<[p := f (set_send (wc_Send c ++ [m]) c)]> (hb_heap h)) h)
  else None.

Definition at_client (p : nat) (h : WebSocketServer) (k : WebSocketClient -> option WebSocketServer) : option WebSocketServer :=
  match hb_heap h !! p with Some c => k c | None => None end.

(** The state after a step, if it can be taken. *)
Definition ws_step (l : ws_label) (h : WebSocketServer) : option WebSocketServer :=
  match l with
  | L_join c => if fresh_client c then Some (with_clients (hb_heap h ++ [c]) h) else None
  | L_register p => at_client p h (fun c => match wc_reader c with Joining => Some (hub_register p c h) | _ => None end)
  | L_greet p now => at_client p h (fun c => match wc_reader c with
      | Greeting => blocking_send (ws_reply "auth_success" "" (P_device (wc_DeviceID c)) now) (fun c => set_writer true (set_reader Reading c)) p c h
      | _ => None end)
  | L_frame p now frame => at_client p h (fun c => match wc_reader c with
      | Reading => match handleMessage now frame (wc_UserID c) (wc_SubscribedFolders c) (hb_db h) with
                   | (Ok (m, subs), d) => Some (mkHub (<[p := set_reader (Replying m) (set_subs subs c)]> (hb_heap h)) (hb_clients h)
                                                  (hb_userIndex h) (hb_broadcast h) d (hb_panic h))
                   | _ => None
                   end
      | _ => None end)
  | L_reply p => at_client p h (fun c => match wc_reader c with Replying m => blocking_send m (set_reader Reading) p c h | _ => None end)
  | L_hangup p => at_client p h (fun c => match wc_reader c with
      | Reading => Some (with_clients (<[p := set_reader Leaving c]> (hb_heap h)) h) | _ => None end)
  | L_unregister p => at_client p h (fun c => match wc_reader c with Leaving => Some (hub_unregister p c h) | _ => None end)
  | L_publish e => Some (Broadcast e h)
  | L_deliver now =>
      match hb_broadcast h with
      | [] => None
      | e :: es => Some (broadcastEvent now e (mkHub (hb_heap h) (hb_clients h) (hb_userIndex h) es (hb_db h) (hb_panic h)))
      end
  | L_write p ok => at_client p h (fun c =>
      if wc_writer c then
        match wc_Send c with
        | _ :: q => Some (with_clients (<[p := set_writer ok (set_send q c)]> (hb_heap h)) h)
        | [] => if wc_closed c then Some (with_clients (<[p := set_writer false c]> (hb_heap h)) h) else None
        end
      else None)
  | L_ping p ok => at_client p h (fun c => if wc_writer c then Some (with_clients (<[p := set_writer ok c]> (hb_heap h)) h) else None)
  | L_database d => Some (mkHub (hb_heap h) (hb_clients h) (hb_userIndex h) (hb_broadcast h) d (hb_panic h))
  end.

Fixpoint ws_run (ls : list ws_label) (h : WebSocketServer) : option WebSocketServer :=
  match ls with [] => Some h | l :: ls => match ws_step l h with Some h => ws_run ls h | None => None end end.
End WebSocket.

Arguments WebSocketServer : clear implicits.
Arguments WebSocketClient : clear implicits.
Arguments ws_label : clear implicits.

(** ** Lemmas: the table and the index *)

Section Invariant.
Context {P : Type}.
Implicit Type h : WebSocketServer P.
Implicit Type c : WebSocketClient P.

(** A client is in the table from its registration until it has left. *)
Definition registered c : bool := match wc_reader c with Joining | Left => false | _ => true end.

Definition same_place c c' : Prop :=
  wc_ID c' = wc_ID c /\ wc_UserID c' = wc_UserID c /\ wc_closed c' = wc_closed c /\ registered c' = registered c.

Record hub_ok h : Prop := {
  ok_panic : hb_panic h = false;
  ok_closed : forall p c, hb_heap h !! p = Some c -> wc_closed c = true -> wc_reader c = Left;
  ok_table : forall id p, hb_clients h !! id = Some p ->
    exists c, hb_heap h !! p = Some c /\ wc_ID c = id /\ registered c = true /\ wc_closed c = false
}.

(** With different identifiers, moreover: every client that is registered is in the
    table, and the index lists, once each, the identifiers of a user's clients. *)
Definition distinct_ids h : Prop :=
  forall p q c c', hb_heap h !! p = Some c -> hb_heap h !! q = Some c' -> wc_ID c = wc_ID c' -> p = q.

Record index_ok h : Prop := {
  ok_present : forall p c, hb_heap h !! p = Some c -> registered c = true -> hb_clients h !! wc_ID c = Some p;
  ok_nodup : forall u, NoDup (hb_userIndex h !!! u);
  ok_listed : forall u id, id ∈ hb_userIndex h !!! u <->
    exists p c, hb_clients h !! id = Some p /\ hb_heap h !! p = Some c /\ wc_UserID c = u
}.

Lemma closed_unregistered c : wc_reader c = Left -> registered c = false.
Proof. unfold registered. by intros ->. Qed.

Lemma open_registered h p c : hub_ok h -> hb_heap h !! p = Some c -> registered c = true -> wc_closed c = false.
Proof.
  intros Hok Hp Hr. destruct (wc_closed c) eqn:E; [|done]. pose proof (ok_closed h Hok p c Hp E) as Hl.
  by rewrite closed_unregistered in Hr.
Qed.

(** One client moves on, the tables stay. *)
Definition moves h h' (p : nat) c c' : Prop :=
  hb_heap h !! p = Some c /\ same_place c c' /\ (wc_closed c' = true -> wc_reader c' = Left) /\
  hb_heap h' = <[p := c']> (hb_heap h) /\ hb_clients h' = hb_clients h /\ hb_userIndex h' = hb_userIndex h /\ hb_panic h' = hb_panic h.

Lemma moved_lookup h h' p c c' q d' : moves h h' p c c' -> hb_heap h' !! q = Some d' ->
  exists d, hb_heap h !! q = Some d /\ same_place d d'.
Proof.
  intros (Hp & Hs & Hl & Eh & _) Hq. rewrite Eh in Hq. destruct (decide (q = p)) as [->|Hne].
  - rewrite list_lookup_insert_eq in Hq by (by eapply lookup_lt_Some). injection Hq as <-. by exists c.
  - rewrite list_lookup_insert_ne in Hq by done. by exists d'.
Qed.

Lemma moved_back h h' p c c' q d : moves h h' p c c' -> hb_heap h !! q = Some d ->
  exists d', hb_heap h' !! q = Some d' /\ same_place d d'.
Proof.
  intros (Hp & Hs & Hl & Eh & _) Hq. rewrite Eh. destruct (decide (q = p)) as [->|Hne].
  - rewrite list_lookup_insert_eq by (by eapply lookup_lt_Some). rewrite Hp in Hq. injection Hq as <-. by exists c'.
  - rewrite list_lookup_insert_ne by done. by exists d.
Qed.

Lemma moves_ok h h' p c c' : moves h h' p c c' -> hub_ok h -> hub_ok h'.
Proof.
  intros Hm Hok. pose proof Hm as (Hp & Hs & Hl & Eh & Ec & _ & Epc). constructor.
  - rewrite Epc. apply Hok.
  - intros q d' Hq Hcl. rewrite Eh in Hq. destruct (decide (q = p)) as [->|Hne].
    + rewrite list_lookup_insert_eq in Hq by (by eapply lookup_lt_Some). injection Hq as <-. by apply Hl.
    + rewrite list_lookup_insert_ne in Hq by done. by eapply ok_closed.
  - intros id q Hq. rewrite Ec in Hq. destruct (ok_table h Hok id q Hq) as (d & Hd & Hid & Hr & Hc).
    destruct (moved_back _ _ _ _ _ _ _ Hm Hd) as (d' & Hd' & E1 & E2 & E3 & E4). exists d'. split_and!; congruence.
Qed.

Lemma moves_index h h' p c c' : moves h h' p c c' -> index_ok h -> index_ok h'.
Proof.
  intros Hm Hok. pose proof Hm as (_ & _ & _ & _ & Ec & Ei & _). constructor.
  - intros q d' Hq Hr. destruct (moved_lookup _ _ _ _ _ _ _ Hm Hq) as (d & Hd & E1 & E2 & E3 & E4). rewrite Ec, E1. apply (ok_present h Hok); [done|congruence].
  - intros u. rewrite Ei. apply Hok.
  - intros u id. rewrite Ei, Ec, (ok_listed h Hok). split; intros (q & d & Hq & Hd & Hu).
    + destruct (moved_back _ _ _ _ _ _ _ Hm Hd) as (d' & Hd' & E1 & E2 & _). exists q, d'. split_and!; congruence.
    + destruct (moved_lookup _ _ _ _ _ _ _ Hm Hd) as (d' & Hd' & E1 & E2 & _). exists q, d'. split_and!; congruence.
Qed.

Lemma moves_distinct h h' p c c' : moves h h' p c c' -> distinct_ids h' -> distinct_ids h.
Proof.
  intros Hm Hd q1 q2 d1 d2 H1 H2 E. destruct (moved_back _ _ _ _ _ _ _ Hm H1) as (e1 & F1 & E1 & _), (moved_back _ _ _ _ _ _ _ Hm H2) as (e2 & F2 & E2 & _).
  apply (Hd q1 q2 e1 e2 F1 F2). congruence.
Qed.

Lemma alter_at {A} (f : A -> A) p (l : list A) x : l !! p = Some x -> alter f p l = <[p := f x]> l.
Proof.
  intros Hp. apply list_eq. intros q. destruct (decide (q = p)) as [->|Hne].
  - by rewrite list_lookup_alter_eq, list_lookup_insert_eq, Hp by (by eapply lookup_lt_Some).
  - by rewrite list_lookup_alter_ne, list_lookup_insert_ne by done.
Qed.

(** Looking up after the client at a place has changed. *)
Lemma insert_cases {A} p q (x : A) (l : list A) y : l !! p = Some y -> forall z, <[p := x]> l !! q = Some z -> (q = p /\ z = x) \/ (q <> p /\ l !! q = Some z).
Proof.
  intros Hp z Hq. destruct (decide (q = p)) as [->|Hne].
  - rewrite list_lookup_insert_eq in Hq by (by eapply lookup_lt_Some). injection Hq as <-. by left.
  - rewrite list_lookup_insert_ne in Hq by done. by right.
Qed.

Lemma join_ok h c : fresh_client c = true -> hub_ok h -> hub_ok (with_clients (hb_heap h ++ [c]) h).
Proof.
  intros Hf Hok. unfold fresh_client in Hf. bool_to_prop. constructor; [apply Hok| |].
  - intros p d Hp Hc. simpl in Hp. apply lookup_app_Some in Hp as [Hp|[_ Hp]]; [by eapply ok_closed|].
    apply list_lookup_singleton_Some in Hp as [_ <-]. congruence.
  - intros id p Hp. destruct (ok_table h Hok id p Hp) as (d & Hd & Hr). exists d. split; [|done]. simpl. by apply lookup_app_l_Some.
Qed.

Lemma join_index h c : fresh_client c = true -> hub_ok h -> index_ok h -> index_ok (with_clients (hb_heap h ++ [c]) h).
Proof.
  intros Hf Hok Hi. unfold fresh_client in Hf. bool_to_prop. constructor; [|apply Hi|].
  - intros p d Hp Hr. simpl in Hp. apply lookup_app_Some in Hp as [Hp|[_ Hp]]; [by apply (ok_present h Hi)|].
    apply list_lookup_singleton_Some in Hp as [_ <-]. unfold registered in Hr. by destruct (wc_reader c).
  - intros u id. rewrite (ok_listed h Hi). split; intros (p & d & Hp & Hd & Hu); exists p, d; split_and!; try done.
    + simpl. by apply lookup_app_l_Some.
    + destruct (ok_table h Hok id p Hp) as (d' & Hd' & _). simpl in Hd. rewrite (lookup_app_l_Some _ _ _ _ Hd') in Hd. congruence.
Qed.

Lemma register_ok h p c : hb_heap h !! p = Some c -> wc_reader c = Joining -> hub_ok h -> hub_ok (hub_register p c h).
Proof.
  intros Hp Hr Hok. unfold hub_register. rewrite (alter_at _ _ _ _ Hp). constructor; [apply Hok| |]; simpl.
  - intros q d Hq Hc. destruct (insert_cases _ _ _ _ _ Hp _ Hq) as [[-> ->]|[_ Hq']]; [|by eapply ok_closed].
    simpl in Hc. pose proof (ok_closed h Hok p c Hp Hc). congruence.
  - intros id q Hq. destruct (decide (id = wc_ID c)) as [->|Hne].
    + rewrite lookup_insert_eq in Hq. injection Hq as <-. exists (set_reader Greeting c).
      rewrite list_lookup_insert_eq by (by eapply lookup_lt_Some). split_and!; try done.
      destruct (wc_closed c) eqn:E; [|done]. pose proof (ok_closed h Hok p c Hp E). congruence.
    + rewrite lookup_insert_ne in Hq by done. destruct (ok_table h Hok id q Hq) as (d & Hd & Hid & Hreg & Hcl).
      destruct (decide (q = p)) as [->|Hqp]; [rewrite Hp in Hd; injection Hd as <-; unfold registered in Hreg; by rewrite Hr in Hreg|].
      exists d. by rewrite list_lookup_insert_ne.
Qed.

Lemma unregister_ok h p c : hb_heap h !! p = Some c -> wc_reader c = Leaving -> hub_ok h -> hub_ok (hub_unregister p c h).
Proof.
  intros Hp Hr Hok. assert (registered c = true) as Hreg by (unfold registered; by rewrite Hr).
  pose proof (open_registered _ _ _ Hok Hp Hreg) as Ho. unfold hub_unregister.
  assert (forall c' q d, wc_ID d <> wc_ID c -> hb_heap h !! q = Some d -> <[p := c']> (hb_heap h) !! q = Some d) as Hother.
  { intros c' q d Hne Hd. rewrite list_lookup_insert_ne; [done|]. intros <-. rewrite Hp in Hd. injection Hd as <-. done. }
  destruct (hb_clients h !! wc_ID c) as [q0|] eqn:E; rewrite (alter_at _ _ _ _ Hp); constructor; simpl.
  - rewrite Ho, (ok_panic h Hok). done.
  - intros q d Hq Hc. destruct (insert_cases _ _ _ _ _ Hp _ Hq) as [[-> ->]|[_ Hq']]; [done|by eapply ok_closed].
  - intros id q Hq. apply lookup_delete_Some in Hq as [Hne Hq]. destruct (ok_table h Hok id q Hq) as (d & Hd & Hid & Hd').
    exists d. split; [|done]. apply Hother; [congruence|done].
  - apply Hok.
  - intros q d Hq Hc. destruct (insert_cases _ _ _ _ _ Hp _ Hq) as [[-> ->]|[_ Hq']]; [simpl in Hc; congruence|by eapply ok_closed].
  - intros id q Hq. destruct (ok_table h Hok id q Hq) as (d & Hd & Hid & Hd'). exists d. split; [|done].
    apply Hother; [|done]. intros E'. congruence.
Qed.

Lemma remove_first_spec id l : NoDup l -> NoDup (remove_first id l) /\ forall x, x ∈ remove_first id l <-> x ∈ l /\ x <> id.
Proof.
  induction l as [|y l IH]; intros Hn; [split; [constructor|]; set_solver|]. apply NoDup_cons in Hn as [Hy Hn]. destruct (IH Hn) as [IH1 IH2].
  simpl. destruct (bool_decide (y = id)) eqn:E; [apply bool_decide_eq_true in E|apply bool_decide_eq_false in E].
  - subst. split; [done|]. intros x. set_solver.
  - split; [apply NoDup_cons; split; [|done]; rewrite IH2; by intros [? ?]|]. intros x. rewrite !elem_of_cons, IH2. naive_solver.
Qed.

Lemma not_listed h p c u : hub_ok h -> index_ok h -> distinct_ids h -> hb_heap h !! p = Some c -> registered c = false -> wc_ID c ∉ hb_userIndex h !!! u.
Proof.
  intros Hok Hi Hd Hp Hr Hin. apply (ok_listed h Hi) in Hin as (q & d & Hq & Hqd & _).
  destruct (ok_table h Hok _ _ Hq) as (d' & Hd' & Hid & Hreg & _). assert (q = p) as -> by (by eapply Hd). congruence.
Qed.

Lemma register_index h p c : hb_heap h !! p = Some c -> wc_reader c = Joining -> hub_ok h -> distinct_ids h -> index_ok h ->
  index_ok (hub_register p c h).
Proof.
  intros Hp Hr Hok Hd Hi. assert (registered c = false) as Hreg by (unfold registered; by rewrite Hr).
  pose proof (fun u => not_listed h p c u Hok Hi Hd Hp Hreg) as Hn. unfold hub_register. rewrite (alter_at _ _ _ _ Hp).
  assert (forall id q, id <> wc_ID c -> hb_clients h !! id = Some q -> q <> p) as Hqp.
  { intros id q Hne Hq ->. destruct (ok_table h Hok id p Hq) as (d & Hd' & Hid & _). congruence. }
  assert (<[p := set_reader Greeting c]> (hb_heap h) !! p = Some (set_reader Greeting c)) as Hself by (apply list_lookup_insert_eq; by eapply lookup_lt_Some).
  constructor; simpl.
  - intros q d Hq Hrd. destruct (insert_cases _ _ _ _ _ Hp _ Hq) as [[-> ->]|[Hne Hq']]; [apply lookup_insert_eq|].
    rewrite lookup_insert_ne; [by apply (ok_present h Hi)|]. intros E. apply Hne. by eapply Hd.
  - intros u. destruct (decide (u = wc_UserID c)) as [->|Hne]; [|rewrite lookup_total_insert_ne by done; apply (ok_nodup h Hi)].
    rewrite lookup_total_insert_eq. apply NoDup_app. split_and!; [apply (ok_nodup h Hi)| |apply NoDup_singleton].
    intros x Hx ->%list_elem_of_singleton. by apply (Hn (wc_UserID c)).
  - intros u id. destruct (decide (u = wc_UserID c)) as [->|Hne].
    + rewrite lookup_total_insert_eq, elem_of_app, list_elem_of_singleton, (ok_listed h Hi). split.
      * intros [(q & d & Hq & Hqd & Hu)| ->].
        -- assert (id <> wc_ID c) as Hid by (intros ->; apply (Hn (wc_UserID c)), (ok_listed h Hi); eauto).
           exists q, d. rewrite lookup_insert_ne, list_lookup_insert_ne by (done || by apply not_eq_sym, (Hqp id)). done.
        -- exists p, (set_reader Greeting c). by rewrite lookup_insert_eq.
      * intros (q & d & Hq & Hqd & Hu). destruct (decide (id = wc_ID c)) as [->|Hid]; [by right|]. left. rewrite lookup_insert_ne in Hq by done.
        exists q, d. rewrite list_lookup_insert_ne in Hqd by (by apply not_eq_sym, (Hqp id)). done.
    + rewrite lookup_total_insert_ne, (ok_listed h Hi) by done. split; intros (q & d & Hq & Hqd & Hu).
      * assert (id <> wc_ID c) as Hid by (intros ->; apply (Hn u), (ok_listed h Hi); eauto).
        exists q, d. rewrite lookup_insert_ne, list_lookup_insert_ne by (done || by apply not_eq_sym, (Hqp id)). done.
      * destruct (decide (id = wc_ID c)) as [->|Hid]; [rewrite lookup_insert_eq in Hq; injection Hq as <-; rewrite Hself in Hqd; by injection Hqd as <-|].
        rewrite lookup_insert_ne in Hq by done. exists q, d. rewrite list_lookup_insert_ne in Hqd by (by apply not_eq_sym, (Hqp id)). done.
Qed.

Lemma unregister_index h p c : hb_heap h !! p = Some c -> wc_reader c = Leaving -> hub_ok h -> distinct_ids h -> index_ok h ->
  index_ok (hub_unregister p c h).
Proof.
  intros Hp Hr Hok Hd Hi. assert (registered c = true) as Hreg by (unfold registered; by rewrite Hr).
  pose proof (ok_present h Hi p c Hp Hreg) as Hc. unfold hub_unregister. rewrite Hc, (alter_at _ _ _ _ Hp).
  assert (wc_ID c ∈ hb_userIndex h !!! wc_UserID c) as Hin by (apply (ok_listed h Hi); eauto).
  destruct (hb_userIndex h !! wc_UserID c) as [ids|] eqn:Eids; [|rewrite lookup_total_alt, Eids in Hin; by apply elem_of_nil in Hin].
  assert (hb_userIndex h !!! wc_UserID c = ids) as Etot by (by rewrite lookup_total_alt, Eids).
  pose proof (ok_nodup h Hi (wc_UserID c)) as Hnd. rewrite Etot in Hnd. destruct (remove_first_spec (wc_ID c) ids Hnd) as [Hr1 Hr2].
  assert (forall id q, id <> wc_ID c -> hb_clients h !! id = Some q -> q <> p) as Hqp.
  { intros id q Hne Hq ->. destruct (ok_table h Hok id p Hq) as (d & Hd' & Hid & _). congruence. }
  constructor; simpl.
  - intros q d Hq Hrd. destruct (insert_cases _ _ _ _ _ Hp _ Hq) as [[-> ->]|[Hne Hq']]; [done|].
    rewrite lookup_delete_ne; [by apply (ok_present h Hi)|]. intros E. apply Hne. by eapply Hd.
  - intros u. destruct (decide (u = wc_UserID c)) as [->|Hne]; [by rewrite lookup_total_insert_eq|].
    rewrite lookup_total_insert_ne by done. apply (ok_nodup h Hi).
  - intros u id. assert (id ∈ <[wc_UserID c := remove_first (wc_ID c) ids]> (hb_userIndex h) !!! u <-> id ∈ hb_userIndex h !!! u /\ id <> wc_ID c) as ->.
    { destruct (decide (u = wc_UserID c)) as [->|Hne]; [by rewrite lookup_total_insert_eq, Hr2, Etot|].
      rewrite lookup_total_insert_ne by done. split; [|by intros [? _]]. intros Hu. split; [done|]. intros ->.
      apply (ok_listed h Hi) in Hu as (q & d & Hq & Hqd & Hu). rewrite Hc in Hq. injection Hq as <-. congruence. }
    rewrite (ok_listed h Hi). split.
    + intros [(q & d & Hq & Hqd & Hu) Hid]. exists q, d. rewrite lookup_delete_ne by done.
      rewrite list_lookup_insert_ne by (by apply not_eq_sym, (Hqp id)). done.
    + intros (q & d & Hq & Hqd & Hu). apply lookup_delete_Some in Hq as [Hid Hq]. apply not_eq_sym in Hid.
      rewrite list_lookup_insert_ne in Hqd by (by apply not_eq_sym, (Hqp id)). split; [by exists q, d|done].
Qed.
End Invariant.

(** ** Lemmas: delivery *)

Section Delivery.
Context {P : Type} (now : Z) (e : WebSocketEvent (P := P)).
Implicit Type h : WebSocketServer P.
Implicit Type c : WebSocketClient P.

Definition has_room c : bool := (length (wc_Send c) <? send_cap)%nat.
Definition given c : WebSocketClient P := set_send (wc_Send c ++ [event_message now e]) c.

Lemma offer_cases h id : hub_ok h ->
  (offer now e h id = h /\ forall p c, hb_clients h !! id = Some p -> hb_heap h !! p = Some c -> subscribed e c && has_room c = false) \/
  (exists p c, hb_clients h !! id = Some p /\ hb_heap h !! p = Some c /\ subscribed e c && has_room c = true /\
     offer now e h id = with_clients (<[p := given c]> (hb_heap h)) h).
Proof.
  intros Hok. unfold offer. destruct (hb_clients h !! id) as [p|] eqn:Ep; [|by left].
  destruct (ok_table h Hok id p Ep) as (c & Hc & Hid & _ & Hcl). rewrite Hc. unfold try_send, has_room. destruct (subscribed e c) eqn:Es.
  - rewrite Hc, Hcl. destruct (_ <? _)%nat eqn:El.
    + right. exists p, c. rewrite Es, El. done.
    + left. split; [done|]. intros p' c' [= <-] Hc'. rewrite Hc in Hc'. injection Hc' as <-. by rewrite El, andb_false_r.
  - left. split; [done|]. intros p' c' [= <-] Hc'. rewrite Hc in Hc'. injection Hc' as <-. by rewrite Es.
Qed.

Lemma given_moves h p c : hub_ok h -> hb_heap h !! p = Some c -> moves h (with_clients (<[p := given c]> (hb_heap h)) h) p c (given c).
Proof. intros Hok Hp. split_and!; try done. simpl. by apply (ok_closed h Hok p). Qed.

Lemma fold_offer ids : forall h, NoDup ids -> hub_ok h ->
  let h' := foldl (offer now e) h ids in
  hub_ok h' /\ hb_clients h' = hb_clients h /\ hb_userIndex h' = hb_userIndex h /\ hb_broadcast h' = hb_broadcast h /\
  length (hb_heap h') = length (hb_heap h) /\ (index_ok h -> index_ok h') /\ (distinct_ids h' -> distinct_ids h) /\
  forall p c, hb_heap h !! p = Some c ->
    hb_heap h' !! p = Some (if bool_decide (wc_ID c ∈ ids /\ hb_clients h !! wc_ID c = Some p) && (subscribed e c && has_room c) then given c else c).
Proof.
  induction ids as [|id ids IH]; intros h Hn Hok; [by split_and!; try done; intros p c Hp|]. apply NoDup_cons in Hn as [Hid Hn]. cbn [foldl].
  destruct (offer_cases h id Hok) as [[-> Hno]|(p0 & c0 & Hp0 & Hc0 & Hyes & ->)].
  - destruct (IH h Hn Hok) as (H1 & H2 & H3 & H4 & H5 & H6 & H7 & H8). split_and!; try done. intros p c Hp. rewrite (H8 p c Hp). f_equal.
    destruct (decide (wc_ID c = id /\ hb_clients h !! wc_ID c = Some p)) as [[E Ep]|Hne].
    + rewrite <- E in Hno. rewrite (Hno p c Ep Hp). by rewrite !andb_false_r.
    + assert (bool_decide (wc_ID c ∈ id :: ids /\ hb_clients h !! wc_ID c = Some p) = bool_decide (wc_ID c ∈ ids /\ hb_clients h !! wc_ID c = Some p)) as ->; [|done].
      apply bool_decide_ext. rewrite elem_of_cons. naive_solver.
  - set (h1 := with_clients _ _). pose proof (given_moves h p0 c0 Hok Hc0) as Hm. fold h1 in Hm.
    destruct (IH h1 Hn (moves_ok _ _ _ _ _ Hm Hok)) as (H1 & H2 & H3 & H4 & H5 & H6 & H7 & H8).
    split_and!; [done..|rewrite H5; simpl; apply length_insert|intros Hi; by eapply H6, moves_index|intros Hd; by eapply moves_distinct, H7|].
    intros p c Hp. destruct (decide (p = p0)) as [->|Hne].
    + rewrite Hc0 in Hp. injection Hp as <-. destruct (ok_table h Hok id p0 Hp0) as (c' & Hc' & Eid & _). rewrite Hc0 in Hc'. injection Hc' as <-.
      rewrite (H8 p0 (given c0)) by (apply list_lookup_insert_eq; by eapply lookup_lt_Some).
      rewrite (bool_decide_eq_false_2 (wc_ID (given c0) ∈ ids /\ _)) by (simpl; rewrite Eid; by intros [? _]).
      rewrite Hyes, bool_decide_eq_true_2; [done|]. rewrite Eid. split; [by left|done].
    + rewrite (H8 p c) by (simpl; by rewrite list_lookup_insert_ne). f_equal.
      assert (bool_decide (wc_ID c ∈ id :: ids /\ hb_clients h !! wc_ID c = Some p) = bool_decide (wc_ID c ∈ ids /\ hb_clients h !! wc_ID c = Some p)) as ->; [|done].
      apply bool_decide_ext. rewrite elem_of_cons. split; [|naive_solver]. intros [[E|?] ?]; [congruence|done].
Qed.

(** Without a word about identifiers: nothing is closed that is written to. *)
Lemma fold_offer_ok ids : forall h, hub_ok h ->
  hub_ok (foldl (offer now e) h ids) /\ (index_ok h -> index_ok (foldl (offer now e) h ids)) /\
  (distinct_ids (foldl (offer now e) h ids) -> distinct_ids h).
Proof.
  induction ids as [|id ids IH]; intros h Hok; [done|]. cbn [foldl].
  destruct (offer_cases h id Hok) as [[-> _]|(p & c & _ & Hc & _ & ->)]; [by apply IH|]. pose proof (given_moves h p c Hok Hc) as Hm.
  destruct (IH _ (moves_ok _ _ _ _ _ Hm Hok)) as (H1 & H2 & H3). split_and!; [done|intros Hi; by eapply H2, moves_index|intros Hd; by eapply moves_distinct, H3].
Qed.
End Delivery.

(** ** Lemmas: steps *)

Section Steps.
Context {P : Type}.
Implicit Type h : WebSocketServer P.
Implicit Type c : WebSocketClient P.

Inductive reachable (d : DB) : WebSocketServer P -> Prop :=
  | reach_start : reachable d (NewWebSocketServer d)
  | reach_step l h h' : reachable d h -> ws_step l h = Some h' -> reachable d h'.

Lemma send_moves m f p c h h' : hub_ok h -> hb_heap h !! p = Some c -> wc_closed c = false ->
  (forall c, same_place c (f c)) \/ (wc_reader c = Greeting /\ f = (fun c => set_writer true (set_reader Reading c))) \/ (wc_reader c = Replying m /\ f = set_reader Reading) ->
  blocking_send m f p c h = Some h' -> exists c', moves h h' p c c'.
Proof.
  intros Hok Hp Hcl Hf. unfold blocking_send. rewrite Hcl. destruct (_ <? _)%nat; [|done]. intros [= <-].
  exists (f (set_send (wc_Send c ++ [m]) c)). split; [done|]. split; [|split; [|done]].
  - destruct Hf as [Hf|[[Hr ->]|[Hr ->]]]; [apply (Hf (set_send (wc_Send c ++ [m]) c))|unfold same_place, registered; simpl; by rewrite Hr..].
  - destruct Hf as [Hf|[[Hr ->]|[Hr ->]]]; [|simpl; congruence..]. destruct (Hf (set_send (wc_Send c ++ [m]) c)) as (_ & _ & E & _). simpl in E. congruence.
Qed.

(** A step is one of the event loop, of the world, or one client that moves on. *)
Lemma step_cases l h h' : hub_ok h -> ws_step l h = Some h' ->
  (exists c, fresh_client c = true /\ h' = with_clients (hb_heap h ++ [c]) h) \/
  (exists p c, hb_heap h !! p = Some c /\ wc_reader c = Joining /\ h' = hub_register p c h) \/
  (exists p c, hb_heap h !! p = Some c /\ wc_reader c = Leaving /\ h' = hub_unregister p c h) \/
  (exists now e es, hb_broadcast h = e :: es /\
     h' = broadcastEvent now e (mkHub (hb_heap h) (hb_clients h) (hb_userIndex h) es (hb_db h) (hb_panic h))) \/
  (hb_heap h' = hb_heap h /\ hb_clients h' = hb_clients h /\ hb_userIndex h' = hb_userIndex h /\ hb_panic h' = hb_panic h) \/
  (exists p c c', moves h h' p c c').
Proof.
  intros Hok. destruct l; simpl; unfold at_client.
  - destruct (fresh_client c) eqn:E; [|done]. intros [= <-]. left. by exists c.
  - destruct (hb_heap h !! p) as [c|] eqn:Ep; [|done]. destruct (wc_reader c) eqn:Er; try done. intros [= <-]. right; left. by exists p, c.
  - destruct (hb_heap h !! p) as [c|] eqn:Ep; [|done]. destruct (wc_reader c) eqn:Er; try done. intros E.
    assert (wc_closed c = false) as Hcl by (eapply open_registered; [done|done|unfold registered; by rewrite Er]).
    edestruct (fun Hf => send_moves _ _ p c h h' Hok Ep Hcl Hf E) as [c' Hm]; [by auto|]. do 5 right. by exists p, c, c'.
  - destruct (hb_heap h !! p) as [c|] eqn:Ep; [|done]. destruct (wc_reader c) eqn:Er; try done.
    destruct (handleMessage _ _ _ _ _) as [[[m subs]| | |] d]; try done. intros [= <-]. do 5 right. exists p, c, (set_reader (Replying m) (set_subs subs c)).
    split_and!; try done; [unfold same_place, registered; simpl; by rewrite Er|]. simpl. intros Hcl.
    pose proof (ok_closed h Hok p c Ep Hcl). congruence.
  - destruct (hb_heap h !! p) as [c|] eqn:Ep; [|done]. destruct (wc_reader c) eqn:Er; try done. intros E.
    assert (wc_closed c = false) as Hcl by (eapply open_registered; [done|done|unfold registered; by rewrite Er]).
    edestruct (fun Hf => send_moves _ _ p c h h' Hok Ep Hcl Hf E) as [c' Hm]; [by auto|]. do 5 right. by exists p, c, c'.
  - destruct (hb_heap h !! p) as [c|] eqn:Ep; [|done]. destruct (wc_reader c) eqn:Er; try done. intros [= <-]. do 5 right. exists p, c, (set_reader Leaving c).
    split_and!; try done; [unfold same_place, registered; simpl; by rewrite Er|]. simpl. intros Hcl. pose proof (ok_closed h Hok p c Ep Hcl). congruence.
  - destruct (hb_heap h !! p) as [c|] eqn:Ep; [|done]. destruct (wc_reader c) eqn:Er; try done. intros [= <-]. do 2 right; left. by exists p, c.
  - intros [= <-]. do 4 right; left. unfold Broadcast. by destruct (_ <? _)%nat.
  - destruct (hb_broadcast h) as [|e es] eqn:Eb; [done|]. intros [= <-]. do 3 right; left. by exists now, e, es.
  - destruct (hb_heap h !! p) as [c|] eqn:Ep; [|done]. destruct (wc_writer c); [|done].
    destruct (wc_Send c) as [|m q]; [destruct (wc_closed c) eqn:Ecl; [|done]|]; intros [= <-]; do 5 right; exists p, c.
    + exists (set_writer false c). split_and!; try done. intros _. exact (ok_closed h Hok p c Ep Ecl).
    + exists (set_writer ok (set_send q c)). split_and!; try done. intros Hcl. exact (ok_closed h Hok p c Ep Hcl).
  - destruct (hb_heap h !! p) as [c|] eqn:Ep; [|done]. destruct (wc_writer c); [|done]. intros [= <-]; do 5 right; exists p, c.
    exists (set_writer ok c). split_and!; try done. intros Hcl. exact (ok_closed h Hok p c Ep Hcl).
  - intros [= <-]. do 4 right; left. done.
Qed.

Lemma hub_step_ok l h h' : ws_step l h = Some h' -> hub_ok h -> hub_ok h'.
Proof.
  intros E Hok. destruct (step_cases l h h' Hok E) as [(c & Hf & ->)|[(p & c & Hp & Hr & ->)|[(p & c & Hp & Hr & ->)|[(now & e & es & Eb & ->)|
    [(E1 & E2 & E3 & E4)|(p & c & c' & Hm)]]]]].
  - by apply join_ok.
  - by apply register_ok.
  - by apply unregister_ok.
  - apply fold_offer_ok. by constructor; apply Hok.
  - constructor; [rewrite E4|rewrite E1|rewrite E1, E2]; apply Hok.
  - by eapply moves_ok.
Qed.

Lemma step_index l h h' : ws_step l h = Some h' -> hub_ok h -> distinct_ids h' -> distinct_ids h /\ (index_ok h -> index_ok h').
Proof.
  intros E Hok Hd. destruct (step_cases l h h' Hok E) as [(c & Hf & ->)|[(p & c & Hp & Hr & ->)|[(p & c & Hp & Hr & ->)|[(now & e & es & Eb & ->)|
    [(E1 & E2 & E3 & E4)|(p & c & c' & Hm)]]]]].
  - assert (distinct_ids h) as Hd0 by (intros p q c1 c2 H1 H2; apply Hd; simpl; by apply lookup_app_l_Some). split; [done|]. by apply join_index.
  - assert (distinct_ids h) as Hd0; [|split; [done|by apply register_index]]. intros q1 q2 d1 d2 H1 H2 Eid. unfold hub_register in Hd. rewrite (alter_at _ _ _ _ Hp) in Hd.
    assert (forall q d, hb_heap h !! q = Some d -> exists d', <[p := set_reader Greeting c]> (hb_heap h) !! q = Some d' /\ wc_ID d' = wc_ID d) as Hb.
    { intros q d Hq. destruct (decide (q = p)) as [->|Hne]; [|exists d; by rewrite list_lookup_insert_ne].
      rewrite list_lookup_insert_eq by (by eapply lookup_lt_Some). rewrite Hp in Hq. injection Hq as <-. by eexists. }
    destruct (Hb _ _ H1) as (e1 & F1 & G1), (Hb _ _ H2) as (e2 & F2 & G2). apply (Hd _ _ _ _ F1 F2). congruence.
  - assert (distinct_ids h) as Hd0; [|split; [done|by apply unregister_index]]. intros q1 q2 d1 d2 H1 H2 Eid.
    assert (forall q d, hb_heap h !! q = Some d -> exists d', hb_heap (hub_unregister p c h) !! q = Some d' /\ wc_ID d' = wc_ID d) as Hb.
    { intros q d Hq. unfold hub_unregister. destruct (hb_clients h !! wc_ID c); simpl; rewrite (alter_at _ _ _ _ Hp);
        (destruct (decide (q = p)) as [->|Hne]; [|exists d; by rewrite list_lookup_insert_ne];
         rewrite list_lookup_insert_eq by (by eapply lookup_lt_Some); rewrite Hp in Hq; injection Hq as <-; by eexists). }
    destruct (Hb _ _ H1) as (e1 & F1 & G1), (Hb _ _ H2) as (e2 & F2 & G2). apply (Hd _ _ _ _ F1 F2). congruence.
  - set (h0 := mkHub _ _ _ _ _ _) in *. assert (hub_ok h0) as Hok0 by (by constructor; apply Hok).
    destruct (fold_offer_ok now e (hb_userIndex h0 !!! we_UserID e) h0 Hok0) as (_ & Hi & Hd0). split; [exact (Hd0 Hd)|].
    intros Hih. apply Hi. by constructor; apply Hih.
  - split; [unfold distinct_ids in *; by rewrite E1 in Hd|]. intros Hi. constructor; [rewrite E1, E2|rewrite E3|rewrite E3, E1, E2]; apply Hi.
  - split; [by eapply moves_distinct|by eapply moves_index].
Qed.

Lemma hub_reachable_ok d h : reachable d h -> hub_ok h.
Proof.
  induction 1 as [|l h h' _ IH E]; [|by eapply hub_step_ok]. constructor; simpl; [done|by intros p c Hp; rewrite lookup_nil in Hp|by intros id p Hp; rewrite lookup_empty in Hp].
Qed.

Lemma reachable_index d h : reachable d h -> distinct_ids h -> index_ok h.
Proof.
  induction 1 as [|l h h' Hr IH E]; intros Hd.
  - constructor; simpl; [by intros p c Hp; rewrite lookup_nil in Hp|intros u; rewrite lookup_total_empty; constructor|].
    intros u id. simpl. rewrite lookup_total_empty. split; [by intros ?%elem_of_nil|]. intros (p & c & Hp & _). by rewrite lookup_empty in Hp.
  - destruct (step_index l h h' E (hub_reachable_ok _ _ Hr) Hd) as [Hd0 Hi]. by apply Hi, IH.
Qed.
End Steps.

(** ** Correctness *)

Section Correctness.
Context {P : Type}.
Implicit Type h : WebSocketServer P.
Implicit Type c : WebSocketClient P.

(** [C33] The hub never panics, and its index is right.  Whatever the interleaving of
    handshakes, frames, replies, published events, broken connections and the
    event loop, no goroutine sends on a closed channel and none is closed twice:
    a channel is closed only when its client has left, and then it is in no
    table.  If moreover no two clients were given the same identifier, the index
    lists for every user, once each, exactly the identifiers of the clients that
    are registered. *)
Theorem hub_never_panics d h : reachable d h ->
  hb_panic h = false /\
  (forall p c, hb_heap h !! p = Some c -> wc_closed c = true -> wc_reader c = Left /\ forall id, hb_clients h !! id <> Some p) /\
  (distinct_ids h -> forall u, NoDup (hb_userIndex h !!! u) /\
     forall id, id ∈ hb_userIndex h !!! u <-> exists p c, hb_heap h !! p = Some c /\ registered c = true /\ wc_ID c = id /\ wc_UserID c = u).
Proof.
  intros Hr. pose proof (hub_reachable_ok d h Hr) as Hok. split; [apply Hok|]. split.
  - intros p c Hp Hc. split; [by apply (ok_closed h Hok p)|]. intros id Hid. destruct (ok_table h Hok id p Hid) as (c' & Hc' & _ & _ & Hcl). congruence.
  - intros Hd u. pose proof (reachable_index d h Hr Hd) as Hi. split; [apply Hi|]. intros id. rewrite (ok_listed h Hi). split.
    + intros (p & c & Hp & Hc & Hu). destruct (ok_table h Hok id p Hp) as (c' & Hc' & Hid & Hreg & _). exists p, c. rewrite Hc in Hc'. injection Hc' as <-. done.
    + intros (p & c & Hc & Hreg & <- & Hu). exists p, c. split; [by apply (ok_present h Hi)|done].
Qed.

(** Who gets an event: the registered clients of its user that have subscribed to
    its folder, or to all, and whose channel has room. *)
Definition audience (e : WebSocketEvent (P := P)) c : bool :=
  registered c && bool_decide (wc_UserID c = we_UserID e) && (subscribed e c && has_room c).

(** [C18] Events reach their audience and nobody else.  In every reachable state
    without a repeated identifier, when the loop takes an event from the queue,
    each client of its audience gets the message once, at the end of its channel,
    and nothing else about any client changes: no other user and no connection
    without the subscription sees it. *)
Theorem deliver_exact d h h' e es now : reachable d h -> distinct_ids h -> hb_broadcast h = e :: es ->
  ws_step (L_deliver now) h = Some h' ->
  hb_broadcast h' = es /\ length (hb_heap h') = length (hb_heap h) /\
  forall p c, hb_heap h !! p = Some c -> hb_heap h' !! p = Some (if audience e c then given now e c else c).
Proof.
  intros Hr Hd Eb. pose proof (hub_reachable_ok d h Hr) as Hok. pose proof (reachable_index d h Hr Hd) as Hi. cbn [ws_step]. rewrite Eb. intros [= <-].
  unfold broadcastEvent. set (h0 := mkHub _ _ _ _ _ _). assert (hub_ok h0) as Hok0 by (by constructor; apply Hok).
  destruct (fold_offer now e (hb_userIndex h0 !!! we_UserID e) h0 (ok_nodup h Hi _) Hok0) as (_ & _ & _ & H4 & H5 & _ & _ & H8).
  split_and!; [exact H4|exact H5|]. intros p c Hp. rewrite (H8 p c Hp). f_equal. unfold audience.
  assert (bool_decide (wc_ID c ∈ hb_userIndex h0 !!! we_UserID e /\ hb_clients h0 !! wc_ID c = Some p) =
          registered c && bool_decide (wc_UserID c = we_UserID e)) as ->; [|done].
  change (hb_userIndex h0) with (hb_userIndex h). change (hb_clients h0) with (hb_clients h). apply Bool.eq_true_iff_eq.
  rewrite andb_true_iff, !bool_decide_eq_true, (ok_listed h Hi). split.
  - intros [(q & c' & Hq & Hc' & Hu) Hp']. rewrite Hp' in Hq. injection Hq as <-. rewrite Hp in Hc'. injection Hc' as <-. split; [|done].
    destruct (ok_table h Hok _ p Hp') as (c' & Hc' & _ & Hreg & _). congruence.
  - intros [Hreg Hu]. pose proof (ok_present h Hi p c Hp Hreg) as Hc. split; [by exists p, c|done].
Qed.

(** A reader that waits to reply while its channel is full and its writer gone. *)
Definition stuck c : Prop := (exists m, wc_reader c = Replying m) /\ wc_writer c = false /\ has_room c = false /\ wc_closed c = false.

Lemma stuck_stays ls : forall h h' p c, hub_ok h -> hb_heap h !! p = Some c -> stuck c -> ws_run ls h = Some h' -> hb_heap h' !! p = Some c.
Proof.
  induction ls as [|l ls IH]; intros h h' p c Hok Hp Hst; [by intros [= <-]|]. cbn [ws_run]. destruct (ws_step l h) as [h1|] eqn:E; [|done].
  apply IH; [by eapply hub_step_ok| |done]. destruct Hst as ((m & Hr) & Hw & Hroom & Hcl). unfold has_room in Hroom.
  assert (forall q x, q <> p -> <[q := x]> (hb_heap h) !! p = Some c) as Hother by (intros q x Hne; by rewrite list_lookup_insert_ne).
  destruct l; simpl in E; unfold at_client, blocking_send in E;
    try (destruct (decide (p0 = p)) as [->|Hne]; [rewrite Hp in E; try rewrite Hr in E; try rewrite Hw in E; try done; rewrite Hcl, Hroom in E; done|];
         destruct (hb_heap h !! p0) as [c0|] eqn:E0; [|done]).
  - destruct (fresh_client c0); [|done]. injection E as <-. simpl. by apply lookup_app_l_Some.
  - destruct (wc_reader c0); try done. injection E as <-. unfold hub_register. simpl. by rewrite list_lookup_alter_ne.
  - destruct (wc_reader c0); try done. destruct (wc_closed c0); [by injection E as <-|]. destruct (length (wc_Send c0) <? send_cap)%nat; [|done]. injection E as <-. by apply Hother.
  - destruct (wc_reader c0); try done. destruct (handleMessage _ _ _ _ _) as [[[m' subs]| | |] d']; try done. injection E as <-. by apply Hother.
  - destruct (wc_reader c0); try done. destruct (wc_closed c0); [by injection E as <-|]. destruct (length (wc_Send c0) <? send_cap)%nat; [|done]. injection E as <-. by apply Hother.
  - destruct (wc_reader c0); try done. injection E as <-. by apply Hother.
  - destruct (wc_reader c0); try done. injection E as <-. unfold hub_unregister. destruct (hb_clients h !! wc_ID c0); simpl; by rewrite list_lookup_alter_ne.
  - injection E as <-. unfold Broadcast. by destruct (length (hb_broadcast h) <? broadcast_cap)%nat.
  - destruct (hb_broadcast h) as [|e es]; [done|]. injection E as <-. unfold broadcastEvent.
    set (h0 := mkHub _ _ _ _ _ _). generalize (hb_userIndex h0 !!! we_UserID e). intros ids. assert (hub_ok h0) as Hok0 by (by constructor; apply Hok). change (hb_heap h0 !! p = Some c) in Hp. clearbody h0.
    revert h0 Hok0 Hp. clear -Hroom. induction ids as [|id ids IH]; intros h0 Hok0 Hp; [done|]. cbn [foldl].
    destruct (offer_cases now e h0 id Hok0) as [[-> _]|(q & c0 & _ & Hc0 & Hyes & ->)]; [by apply IH|].
    apply IH; [by eapply moves_ok; [apply given_moves|]|]. simpl. destruct (decide (q = p)) as [->|Hne]; [|by rewrite list_lookup_insert_ne].
    rewrite Hp in Hc0. injection Hc0 as <-. unfold has_room in Hyes. by rewrite Hroom, andb_false_r in Hyes.
  - destruct (wc_writer c0); [|done]. destruct (wc_Send c0); [destruct (wc_closed c0); [|done]|]; injection E as <-; by apply Hother.
  - destruct (wc_writer c0); [|done]. injection E as <-; by apply Hother.
  - by injection E as <-.
Qed.
(** [Fact] A reader can be blocked for good.  When the writer of a connection has
    ended -- after a failed write or ping -- and the channel is full, a reply
    blocks the reader, which is the only goroutine that could unregister the
    client: whatever happens afterwards, the client never changes again, is never
    unregistered, and its goroutine never ends. *)
Theorem stuck_forever d h ls h' p c : reachable d h -> hb_heap h !! p = Some c -> stuck c -> ws_run ls h = Some h' -> hb_heap h' !! p = Some c.
Proof. intros Hr. apply stuck_stays. by eapply hub_reachable_ok. Qed.
End Correctness.

(** ** Witnesses *)

Section Witnesses.

Lemma run_reachable {P : Type} d ls : forall h h' : WebSocketServer P, reachable d h -> ws_run ls h = Some h' -> reachable d h'.
Proof.
  induction ls as [|l ls IH]; intros h h' Hr; [by intros [= <-]|]. cbn [ws_run]. destruct (ws_step l h) as [h1|] eqn:E; [|done].
  apply IH. by eapply reach_step.
Qed.

Definition ws_ann : WebSocketClient unit := mkWsClient "ws_1" "ann" "dev" [] false ∅ Joining false.
Definition ws_bob : WebSocketClient unit := mkWsClient "ws_2" "bob" "dev" [] false ∅ Joining false.
Definition no_db : DB := mkDB ∅ ∅ ∅ ∅ 0 toy_rand [] true.
Definition ann_event : WebSocketEvent (P := unit) := mkWsEvent "file.created" "ann" "f" "" tt 1.

Definition two_clients : list (ws_label unit) :=
  [L_join ws_ann; L_join ws_bob; L_register 0; L_register 1; L_greet 0 1; L_greet 1 1; L_publish ann_event].
Definition hub2 : WebSocketServer unit := match ws_run two_clients (NewWebSocketServer no_db) with Some h => h | None => NewWebSocketServer no_db end.

Lemma hub2_reachable : reachable no_db hub2.
Proof. apply (run_reachable no_db two_clients (NewWebSocketServer no_db)); [constructor|]. vm_compute. reflexivity. Qed.

Lemma never_panics_witness : hb_panic hub2 = false /\ exists c, hb_heap hub2 !! 0%nat = Some c /\ registered c = true.
Proof. split; [apply (hub_never_panics no_db hub2 hub2_reachable)|]. eexists. split; vm_compute; reflexivity. Defined.

Lemma deliver_witness : exists h', ws_step (L_deliver 2) hub2 = Some h' /\
  (length ∘ wc_Send <$> hb_heap h') = [2; 1]%nat /\ hb_broadcast h' = [].
Proof.
  destruct (ws_step (L_deliver 2) hub2) as [h'|] eqn:E; [|vm_compute in E; discriminate E]. exists h'. split; [reflexivity|].
  destruct (deliver_exact no_db hub2 h' ann_event [] 2 hub2_reachable) as (Hb & _ & _); [|vm_compute; reflexivity|exact E|].
  - intros p q c c' Hp Hq. vm_compute in Hp, Hq. destruct p as [|[|p]], q as [|[|q]]; try reflexivity; try discriminate Hp; try discriminate Hq;
      injection Hp as <-; injection Hq as <-; discriminate.
  - split; [|exact Hb]. vm_compute in E. injection E as <-. vm_compute. reflexivity.
Defined.

(** The writer ends on a failed ping, 255 events fill the channel, a ping of the
    client blocks the reader. *)
Definition jam : list (ws_label unit) :=
  [L_join ws_ann; L_register 0; L_greet 0 1; L_ping 0 false] ++ concat (replicate 255 [L_publish ann_event; L_deliver 1]) ++
  [L_frame 0 1 (Some (mkFrame "ping" "" None None))].
Definition jammed : WebSocketServer unit := match ws_run jam (NewWebSocketServer no_db) with Some h => h | None => NewWebSocketServer no_db end.
Definition jammed_client : WebSocketClient unit := match hb_heap jammed !! 0%nat with Some c => c | None => ws_ann end.

Lemma stuck_witness : stuck jammed_client /\ forall ls h', ws_run ls jammed = Some h' -> hb_heap h' !! 0%nat = Some jammed_client.
Proof.
  assert (stuck jammed_client) as Hs by (split; [eexists; vm_compute; reflexivity|repeat split; vm_compute; reflexivity]). split; [exact Hs|].
  intros ls h'. apply (stuck_forever no_db jammed ls h' 0 jammed_client); [|vm_compute; reflexivity|exact Hs].
  apply (run_reachable no_db jam (NewWebSocketServer no_db)); [constructor|]. vm_compute. reflexivity.
Defined.
End Witnesses.
