(* ===== verification/Config.v ===== *)
(** * Configuration (internal/config: config.go, loader.go, validate.go, setup.go)

    The loader reaches the fields of the configuration by reflection, so a
    configuration is modelled as [reflect] shows it: a tree of structs whose fields
    have a name, a name in the YAML tag and a typed value.  Floating-point numbers
    are a parameter, with their parser. *)

From S2P Require Import Prelude GoStrings GoCrypto Encoding Server FileApi.

(** ** strings: white space and case *)

Definition code (c : ascii) : Z := Z.of_N (N_of_ascii c).

(** The bytes of the white space rune that a text begins with: 0 when it begins
    with another one. *)
Definition space_at (s : string) : nat :=
  match s with
  | String a r =>
      let n := code a in
      if ((9 <=? n) && (n <=? 13)) || (n =? 32) then 1%nat
      else match r with
           | String b r' =>
               let m := code b in
               if n =? 0xC2 then (if (m =? 0x85) || (m =? 0xA0) then 2%nat else 0%nat)
               else match r' with
                    | String c _ =>
                        let k := code c in
                        if ((n =? 0xE1) && (m =? 0x9A) && (k =? 0x80)) ||
                           ((n =? 0xE2) && (m =? 0x80) && (((0x80 <=? k) && (k <=? 0x8A)) || (k =? 0xA8) || (k =? 0xA9) || (k =? 0xAF))) ||
                           ((n =? 0xE2) && (m =? 0x81) && (k =? 0x9F)) || ((n =? 0xE3) && (m =? 0x80) && (k =? 0x80))
                        then 3%nat else 0%nat
                    | ""%string => 0%nat
                    end
           | ""%string => 0%nat
           end
  | ""%string => 0%nat
  end.

(** [skip]: the bytes left of the white space rune that is being dropped. *)
Fixpoint drop_space (skip : nat) (s : string) : string :=
  match s with
  | ""%string => ""%string
  | String _ r => match skip with
                  | S k => drop_space k r
                  | O => match space_at s with O => s | S k => drop_space k r end
                  end
  end.

Definition all_space (s : string) : bool := bool_decide (drop_space 0 s = ""%string).

(** A text up to its last part that is all white space. *)
Fixpoint drop_space_right (s : string) : string :=
  match s with
  | ""%string => ""%string
  | String c r => if all_space s then ""%string else String c (drop_space_right r)
  end.

Definition TrimSpace (s : string) : string := drop_space_right (drop_space 0 s).

(** [strings.ToLower] and the folding of [strings.EqualFold], as far as the result
    can be ASCII: outside of A to Z only U+0130 and U+212A have a lower case
    letter of ASCII, only U+212A and U+017F are folded to one. *)
Fixpoint ToLower (s : string) : string :=
  match s with
  | ""%string => ""%string
  | String a r =>
      match r with
      | ""%string => String (lower a) ""
      | String b r1 =>
          if (code a =? 0xC4) && (code b =? 0xB0) then String "i" (ToLower r1)
          else match r1 with
               | String c r2 =>
                   if (code a =? 0xE2) && (code b =? 0x84) && (code c =? 0xAA) then String "k" (ToLower r2) else String (lower a) (ToLower r)
               | ""%string => String (lower a) (ToLower r)
               end
      end
  end.

Fixpoint fold_case (s : string) : string :=
  match s with
  | ""%string => ""%string
  | String a r =>
      match r with
      | ""%string => String (lower a) ""
      | String b r1 =>
          if (code a =? 0xC5) && (code b =? 0xBF) then String "s" (fold_case r1)
          else match r1 with
               | String c r2 =>
                   if (code a =? 0xE2) && (code b =? 0x84) && (code c =? 0xAA) then String "k" (fold_case r2) else String (lower a) (fold_case r)
               | ""%string => String (lower a) (fold_case r)
               end
      end
  end.

(** For a name of a field, which is ASCII. *)
Definition EqualFold (name s : string) : bool := bool_decide (fold_case name = fold_case s).

(** [strings.SplitN(s, sep, 2)] of a text that has_substring the byte. *)
Fixpoint cut_char (sep : ascii) (s : string) : option (string * string) :=
  match s with
  | ""%string => None
  | String c r => if bool_decide (c = sep) then Some (""%string, r)
                  else match cut_char sep r with Some (a, b) => Some (String c a, b) | None => None end
  end.

(** [strings.Trim(s, "[]")] *)
Definition bracket (c : ascii) : bool := bool_decide (c = "["%char) || bool_decide (c = "]"%char).
Fixpoint drop_brackets (s : string) : string :=
  match s with String c r => if bracket c then drop_brackets r else s | ""%string => ""%string end.
Fixpoint drop_brackets_right (s : string) : string :=
  match s with
  | ""%string => ""%string
  | String c r => match drop_brackets_right r with
                  | ""%string => if bracket c then ""%string else String c ""
                  | t => String c t
                  end
  end.

(** [strconv.ParseUint(s, 10, 64)] and [strconv.ParseBool] *)
Definition ParseUint (s : string) : option Z :=
  match s with
  | ""%string => None
  | _ => match parse_digits 0 s with Some z => if z <? 2 ^ 64 then Some z else None | None => None end
  end.

Definition ParseBool (s : string) : option bool :=
  if bool_decide (s ∈ ["1"; "t"; "T"; "true"; "TRUE"; "True"]%string) then Some true
  else if bool_decide (s ∈ ["0"; "f"; "F"; "false"; "FALSE"; "False"]%string) then Some false
  else None.

(** ** config.go: the structs, as reflection shows them *)

Section Config.
Context {F : Type} (float_one : F) (ParseFloat : string -> option F).

Inductive field_value :=
  | F_string (s : string)
  | F_int (n : Z)                       (* int and int64 *)
  | F_duration (n : Z)
  | F_uint (width : Z) (n : Z)
  | F_bool (b : bool)
  | F_float (f : F)
  | F_strings (l : list string)
  | F_struct (type : string) (fields : list (string * string * field_value)).

Notation field := (string * string * field_value)%type.

Definition TLSConfig (enabled autoCert : bool) (certFile keyFile : string) : field_value :=
  F_struct "config.TLSConfig" [("Enabled", "enabled", F_bool enabled); ("AutoCert", "auto_cert", F_bool autoCert);
            ("CertFile", "cert_file", F_string certFile); ("KeyFile", "key_file", F_string keyFile)]%string.

Definition RateLimitConfig (enabled : bool) (requests window burst : Z) : field_value :=
  F_struct "config.RateLimitConfig" [("Enabled", "enabled", F_bool enabled); ("Requests", "requests", F_int requests);
            ("Window", "window", F_duration window); ("Burst", "burst", F_int burst)]%string.

Definition SharingConfig (links : bool) (maxExpiry defaultExpiry : Z) (password : bool) (maxDownloads : Z) : field_value :=
  F_struct "config.SharingConfig" [("PublicLinksEnabled", "public_links_enabled", F_bool links); ("MaxExpiryDays", "max_expiry_days", F_int maxExpiry);
            ("DefaultExpiryDays", "default_expiry_days", F_int defaultExpiry); ("PasswordRequired", "password_required", F_bool password);
            ("MaxDownloadLimit", "max_download_limit", F_int maxDownloads)]%string.

Definition ServerConfig (host : string) (port : Z) (tls : field_value) (baseURL : string) (rateLimit : field_value) (read : Z)
    (sharing : field_value) (write idle : Z) (origins : list string) : field_value :=
  F_struct "config.ServerConfig" [("Host", "host", F_string host); ("Port", "port", F_int port); ("TLS", "tls", tls); ("BaseURL", "base_url", F_string baseURL);
            ("RateLimit", "rate_limit", rateLimit); ("ReadTimeout", "read_timeout", F_duration read); ("Sharing", "sharing", sharing);
            ("WriteTimeout", "write_timeout", F_duration write); ("IdleTimeout", "idle_timeout", F_duration idle);
            ("AllowedOrigins", "allowed_origins", F_strings origins)]%string.

Definition LocalConfig (dataDir : string) : field_value := F_struct "config.LocalConfig" [("DataDir", "data_dir", F_string dataDir)]%string.

Definition S3Config (endpoint bucket region accessKey secretKey : string) (pathStyle : bool) : field_value :=
  F_struct "config.S3Config" [("Endpoint", "endpoint", F_string endpoint); ("Bucket", "bucket", F_string bucket); ("Region", "region", F_string region);
            ("AccessKey", "access_key", F_string accessKey); ("SecretKey", "secret_key", F_string secretKey);
            ("UsePathStyle", "use_path_style", F_bool pathStyle)]%string.

Definition IPFSConfig (apiAddr gateway : string) (pin : bool) : field_value :=
  F_struct "config.IPFSConfig" [("APIAddr", "api_addr", F_string apiAddr); ("Gateway", "gateway", F_string gateway); ("PinFiles", "pin_files", F_bool pin)]%string.

Definition StorageConfig (backend : string) (local s3 ipfs : field_value) : field_value :=
  F_struct "config.StorageConfig" [("Backend", "backend", F_string backend); ("Local", "local", local); ("S3", "s3", s3); ("IPFS", "ipfs", ipfs)]%string.

Definition DatabaseConfig (path : string) : field_value := F_struct "config.DatabaseConfig" [("Path", "path", F_string path)]%string.

Definition AuthConfig (secret : string) (access refresh : Z) (totp : bool) (attempts lockout : Z) : field_value :=
  F_struct "config.AuthConfig" [("JWTSecret", "jwt_secret", F_string secret); ("AccessTokenTTL", "access_token_ttl", F_duration access);
            ("RefreshTokenTTL", "refresh_token_ttl", F_duration refresh); ("TOTPEnabled", "totp_enabled", F_bool totp);
            ("MaxLoginAttempts", "max_login_attempts", F_int attempts); ("LockoutDuration", "lockout_duration", F_duration lockout)]%string.

Definition SyncConfig (cmin cavg cmax transfers : Z) (websocket : bool) (folder : string) : field_value :=
  F_struct "config.SyncConfig" [("ChunkSizeMin", "chunk_size_min", F_int cmin); ("ChunkSizeAvg", "chunk_size_avg", F_int cavg);
            ("ChunkSizeMax", "chunk_size_max", F_int cmax); ("MaxConcurrentTransfers", "max_concurrent_transfers", F_int transfers);
            ("WebSocketEnabled", "websocket_enabled", F_bool websocket); ("DesktopSyncFolder", "desktop_sync_folder", F_string folder)]%string.

Definition EncryptionConfig (enabled zero : bool) (time memory threads : Z) : field_value :=
  F_struct "config.EncryptionConfig" [("Enabled", "enabled", F_bool enabled); ("ZeroKnowledge", "zero_knowledge", F_bool zero);
            ("Argon2Time", "argon2_time", F_uint 32 time); ("Argon2Memory", "argon2_memory", F_uint 32 memory);
            ("Argon2Threads", "argon2_threads", F_uint 8 threads)]%string.

Definition UsersConfig (registration : bool) (quota maxQuota : Z) : field_value :=
  F_struct "config.UsersConfig" [("RegistrationEnabled", "registration_enabled", F_bool registration); ("DefaultQuota", "default_quota", F_int quota);
            ("MaxQuota", "max_quota", F_int maxQuota)]%string.

Definition SMTPConfig (enabled : bool) (host : string) (port : Z) (username password from : string) (tls : bool) : field_value :=
  F_struct "config.SMTPConfig" [("Enabled", "enabled", F_bool enabled); ("Host", "host", F_string host); ("Port", "port", F_int port);
            ("Username", "username", F_string username); ("Password", "password", F_string password); ("From", "from", F_string from);
            ("TLS", "tls", F_bool tls)]%string.

Definition LoggingConfig (level file : string) (audit : bool) (format : string) : field_value :=
  F_struct "config.LoggingConfig" [("Level", "level", F_string level); ("File", "file", F_string file); ("Audit", "audit", F_bool audit);
            ("Format", "format", F_string format)]%string.

Definition TracingConfig (enabled : bool) (exporter endpoint service : string) (rate : F) : field_value :=
  F_struct "config.TracingConfig" [("Enabled", "enabled", F_bool enabled); ("Exporter", "exporter", F_string exporter);
            ("OTLPEndpoint", "otlp_endpoint", F_string endpoint); ("ServiceName", "service_name", F_string service);
            ("SampleRate", "sample_rate", F_float rate)]%string.

Definition FederationConfig (enabled : bool) (serverID publicURL privateKey publicKey : string) (peers : list string) (discovery : bool) :
    field_value :=
  F_struct "config.FederationConfig" [("Enabled", "enabled", F_bool enabled); ("ServerID", "server_id", F_string serverID); ("PublicURL", "public_url", F_string publicURL);
            ("PrivateKey", "private_key", F_string privateKey); ("PublicKey", "public_key", F_string publicKey);
            ("TrustedPeers", "trusted_peers", F_strings peers); ("AutoDiscovery", "auto_discovery", F_bool discovery)]%string.

(** [Config]: the sections, in their order. *)
Definition sections : list (string * string) :=
  [("Server", "server"); ("Storage", "storage"); ("Database", "database"); ("Auth", "auth"); ("Sync", "sync"); ("Encryption", "encryption");
   ("Sharing", "sharing"); ("Users", "users"); ("SMTP", "smtp"); ("Logging", "logging"); ("Tracing", "tracing"); ("Federation", "federation")]%string.

Definition Config (values : list field_value) : field_value := F_struct "config.Config" (zip sections values).

Definition Second : Z := 1000000000.
Definition Minute : Z := 60 * Second.
Definition Hour : Z := 60 * Minute.

Definition DefaultConfig : field_value := Config [
  ServerConfig "0.0.0.0" 8443 (TLSConfig true false "" "") "https://localhost:8443" (RateLimitConfig true 100 Minute 20) (30 * Second)
    (SharingConfig false 0 0 false 0) (30 * Second) (120 * Second) [];
  StorageConfig "local" (LocalConfig "/var/lib/vaultdrift/data") (S3Config "" "" "us-east-1" "" "" false) (IPFSConfig "" "" false);
  DatabaseConfig "/var/lib/vaultdrift/db/vaultdrift.cdb";
  AuthConfig "" (15 * Minute) (7 * 24 * Hour) true 5 (15 * Minute);
  SyncConfig (256 * 1024) (1024 * 1024) (4 * 1024 * 1024) 4 true "";
  EncryptionConfig true true 3 (64 * 1024) 4;
  SharingConfig true 90 7 false 1000;
  UsersConfig false (10 * 1024 * 1024 * 1024) 0;
  SMTPConfig false "" 587 "" "" "" true;
  LoggingConfig "info" "/var/lib/vaultdrift/logs/vaultdrift.log" true "json";
  TracingConfig false "stdout" "http://localhost:4318" "vaultdrift" float_one;
  FederationConfig false "" "" "" "" [] false].

(** ** Fields *)

(** The first field of a struct that satisfies a test, with its place. *)
Fixpoint find_index (p : field -> bool) (l : list field) : option (nat * field_value) :=
  match l with
  | [] => None
  | f :: l => if p f then Some (0%nat, f.2) else match find_index p l with Some (i, v) => Some (S i, v) | None => None end
  end.

Definition set_at (i : nat) (v : field_value) (l : list field) : list field :=
  alter (fun f : field => (f.1, v)) i l.

(** [cfg.A.B] *)
Fixpoint get (path : list string) (v : field_value) : option field_value :=
  match path with
  | [] => Some v
  | name :: path =>
      match v with
      | F_struct t l => match find_index (fun f => bool_decide (f.1.1 = name)) l with Some (_, w) => get path w | None => None end
      | _ => None
      end
  end.

(** [cfg.A.B = x] *)
Fixpoint put (path : list string) (x : field_value) (v : field_value) : field_value :=
  match path with
  | [] => x
  | name :: path =>
      match v with
      | F_struct t l => match find_index (fun f => bool_decide (f.1.1 = name)) l with
                      | Some (i, w) => F_struct t (set_at i (put path x w) l)
                      | None => v
                      end
      | _ => v
      end
  end.

(** The fields by their types. *)
Definition str (path : list string) (cfg : field_value) : string := match get path cfg with Some (F_string s) => s | _ => ""%string end.
Definition int (path : list string) (cfg : field_value) : Z :=
  match get path cfg with Some (F_int n) | Some (F_duration n) | Some (F_uint _ n) => n | _ => 0 end.
Definition flag (path : list string) (cfg : field_value) : bool := match get path cfg with Some (F_bool b) => b | _ => false end.

(** ** loader.go: durations *)

(** Digits, then the unit: [num] holds the digits since the last unit. *)
Fixpoint parse_duration_from (num : string) (total : Z) (s : string) : option Z :=
  match s with
  | ""%string => if bool_decide (num = ""%string) then Some total else None
  | String ch s =>
      match digit ch with
      | Some _ => parse_duration_from (num +:+ String ch "") total s
      | None =>
          let unit := if bool_decide (ch = "s"%char) then Some Second else if bool_decide (ch = "m"%char) then Some Minute
                      else if bool_decide (ch = "h"%char) then Some Hour else if bool_decide (ch = "d"%char) then Some (24 * Hour) else None in
          match unit with
          | None => None
          | Some u => match num with
                      | ""%string => None
                      | _ => match ParseInt num with Some n => parse_duration_from "" (i64 (total + i64 (n * u))) s | None => None end
                      end
          end
      end
  end.

Definition parseGoDuration (s : string) : option Z := parse_duration_from "" 0 s.

Definition parseDuration (s : string) : Res Z :=
  match parseGoDuration s with
  | Some d => Ok d
  | None => match ParseInt s with Some n => Ok (i64 (n * Second)) | None => Err (Errorf ("invalid duration: " +:+ s)) end
  end.

(** A value that is held in an [interface]: [int64] itself or of another type. *)
Inductive any_value := A_int64 (n : Z) | A_other.

Definition formatDuration (d : any_value) : string :=
  match d with
  | A_int64 v =>
      let secs := Z.quot v Second in
      if 86400 <=? secs then (pretty (Z.quot secs 86400) +:+ "d")%string
      else if 3600 <=? secs then (pretty (Z.quot secs 3600) +:+ "h")%string
      else if 60 <=? secs then (pretty (Z.quot secs 60) +:+ "m")%string
      else (pretty secs +:+ "s")%string
  | A_other => "15m"%string
  end.

(** ** loader.go: fields by name *)

Definition findField (fields : list field) (name : string) : option (nat * field_value) :=
  find_index (fun f => EqualFold f.1.1 name || bool_decide (f.1.2 = name)) fields.

Definition setValue (f : field_value) (value : string) : Res field_value :=
  match f with
  | F_string _ => Ok (F_string value)
  | F_duration _ => d ← parseDuration value; Ok (F_duration d)
  | F_int _ => match ParseInt value with Some n => Ok (F_int n) | None => Err (Errorf ("invalid integer: " +:+ value)) end
  | F_uint width _ =>
      match ParseUint value with
      | Some n => Ok (F_uint width (n mod 2 ^ width))
      | None => Err (Errorf ("invalid unsigned integer: " +:+ value))
      end
  | F_bool _ => match ParseBool value with Some b => Ok (F_bool b) | None => Err (Errorf ("invalid boolean: " +:+ value)) end
  | F_float _ => match ParseFloat value with Some x => Ok (F_float x) | None => Err (Errorf ("invalid float: " +:+ value)) end
  | F_strings _ =>
      let cleaned := drop_brackets_right (drop_brackets value) in
      Ok (F_strings (if bool_decide (cleaned = ""%string) then [] else TrimSpace <$> split_char ","%char cleaned))
  | F_struct type _ => Err (Errorf ("unsupported type: " +:+ type))
  end.

(** [seen]: the names before [path], for the messages. *)
Fixpoint set_field_from (seen : list string) (v : field_value) (path : list string) (value : string) : Res field_value :=
  match path with
  | [] => Ok v
  | name :: rest =>
      match v with
      | F_struct type fields =>
          match findField fields name with
          | None => Err (Errorf ("unknown field: " +:+ join_char "."%char (seen ++ [name])))
          | Some (i, f) =>
              match rest with
              | [] => f' ← setValue f value; Ok (F_struct type (set_at i f' fields))
              | _ =>
                  match f with
                  | F_struct _ _ => f' ← set_field_from (seen ++ [name]) f rest value; Ok (F_struct type (set_at i f' fields))
                  | _ => Err (Errorf ("cannot navigate into non-struct: " +:+ join_char "."%char (seen ++ [name])))
                  end
              end
          end
      | _ => Panic "reflect: call of NumField on a value that is no struct"
      end
  end.

Definition setField (cfg : field_value) (path : list string) (value : string) : Res field_value := set_field_from [] cfg path value.

(** ** loader.go: the environment *)

Definition env_prefix : string := "VAULTDRIFT_".

(** One variable of [os.Environ()]. *)
Definition load_variable (cfg : field_value) (env : string) : Res field_value :=
  match cut_char "="%char env with
  | None => Ok cfg
  | Some (key, value) =>
      if negb (HasPrefix key env_prefix) then Ok cfg
      else
        let key := ToLower (TrimPrefix key env_prefix) in
        match setField cfg (split_char "_"%char key) value with
        | Err e => Err (Wrapf ("failed to set " +:+ key) e)
        | r => r
        end
  end.

Definition loadFromEnv (cfg : field_value) (environ : list string) : Res field_value := foldM load_variable cfg environ.

(** ** loader.go: the file *)

Fixpoint indent_of (line : string) : Z :=
  match line with
  | String c r => if bool_decide (c = " "%char) || bool_decide (c = "009"%char) then 1 + indent_of r else 0
  | ""%string => 0
  end.

(** [cfg], [currentPath] and [lastIndent] of the loop. *)
Record YamlState := mkYaml { ym_cfg : field_value; ym_path : list string; ym_last : Z }.

(** The path after the indentation of a line. *)
Definition adjust_path (indent last : Z) (path : list string) : list string :=
  match path with
  | [] => []
  | _ =>
      if indent <=? last then
        let levels := Z.quot (last - indent) 2 in
        if Z.of_nat (length path) <=? levels then [] else take (length path - Z.to_nat levels - 1) path
      else path
  end.

Definition yaml_line (st : YamlState) (line : string) : YamlState :=
  let trimmed := TrimSpace line in
  if bool_decide (trimmed = ""%string) || HasPrefix trimmed "#" then st
  else match cut_char ":"%char trimmed with
       | None => st
       | Some (k, v) =>
           let indent := indent_of line in
           let key := TrimSpace k in
           let value := TrimSpace v in
           let path := adjust_path indent (ym_last st) (ym_path st) in
           if bool_decide (value = ""%string) then mkYaml (ym_cfg st) (path ++ [key]) indent
           else match setField (ym_cfg st) (path ++ [key]) value with
                | Ok cfg => mkYaml cfg path indent
                | _ => mkYaml (ym_cfg st) path (ym_last st)
                end
       end.

Definition newline : ascii := "010"%char.

Definition unmarshalYAML (data : string) (cfg : field_value) : field_value :=
  ym_cfg (foldl yaml_line (mkYaml cfg [] 0) (split_char newline data)).

(** What [os.ReadFile] finds. *)
Inductive file_read := Missing | Unreadable (e : error) | Contents (data : string).

Definition Load (path : string) (file : file_read) (environ : list string) : Res field_value :=
  cfg ← (if bool_decide (path = ""%string) then Ok DefaultConfig
         else match file with
              | Missing => Ok DefaultConfig
              | Unreadable e => Err (Wrapf "failed to read config file" e)
              | Contents data => Ok (unmarshalYAML data DefaultConfig)
              end);
  match loadFromEnv cfg environ with
  | Err e => Err (Wrapf "failed to load environment variables" e)
  | r => r
  end.

(** ** loader.go: writing the file *)

Definition bool_text (b : bool) : string := if b then "true" else "false".

(** The lines of a section and of a value. *)
Fixpoint spaces (n : nat) : string := match n with O => "" | S n => String " " (spaces n) end.
Definition section_line (indent : nat) (key : string) : string := (spaces indent +:+ key +:+ ":")%string.
Definition pair_line (indent : nat) (key value : string) : string := (section_line indent key +:+ " " +:+ value)%string.

(** [if b { lines = append(lines, l...) }] *)
Definition when (b : bool) (l : list string) : list string := if b then l else [].

Definition set_text (path : list string) (cfg : field_value) : bool := negb (bool_decide (str path cfg = ""%string)).

Definition lines_before_auth (cfg : field_value) : list string :=
  ["# VaultDrift Configuration File"; "# Generated by interactive setup"; "";
   section_line 0 "server";
   pair_line 2 "host" (str ["Server"; "Host"] cfg);
   pair_line 2 "port" (pretty (int ["Server"; "Port"] cfg));
   pair_line 2 "base_url" (str ["Server"; "BaseURL"] cfg);
   section_line 2 "tls";
   pair_line 4 "enabled" (bool_text (flag ["Server"; "TLS"; "Enabled"] cfg));
   pair_line 4 "auto_cert" (bool_text (flag ["Server"; "TLS"; "AutoCert"] cfg))]%string ++
  when (set_text ["Server"; "TLS"; "CertFile"] cfg) [pair_line 4 "cert_file" (str ["Server"; "TLS"; "CertFile"] cfg)]%string ++
  when (set_text ["Server"; "TLS"; "KeyFile"] cfg) [pair_line 4 "key_file" (str ["Server"; "TLS"; "KeyFile"] cfg)]%string ++
  [""; section_line 0 "storage";
   pair_line 2 "backend" (str ["Storage"; "Backend"] cfg);
   section_line 2 "local";
   pair_line 4 "data_dir" (str ["Storage"; "Local"; "DataDir"] cfg)]%string ++
  when (bool_decide (str ["Storage"; "Backend"] cfg = "s3"%string))
    ([section_line 2 "s3";
      pair_line 4 "endpoint" (str ["Storage"; "S3"; "Endpoint"] cfg);
      pair_line 4 "bucket" (str ["Storage"; "S3"; "Bucket"] cfg);
      pair_line 4 "region" (str ["Storage"; "S3"; "Region"] cfg);
      pair_line 4 "access_key" (str ["Storage"; "S3"; "AccessKey"] cfg)]%string ++
     when (set_text ["Storage"; "S3"; "SecretKey"] cfg) [pair_line 4 "secret_key" "*****"]%string) ++
  [""; section_line 0 "database";
   pair_line 2 "path" (str ["Database"; "Path"] cfg);
   ""]%string.

Definition lines_after_auth (cfg : field_value) : list string :=
  [pair_line 2 "access_token_ttl" (formatDuration A_other);
   pair_line 2 "refresh_token_ttl" (formatDuration A_other);
   pair_line 2 "totp_enabled" (bool_text (flag ["Auth"; "TOTPEnabled"] cfg));
   pair_line 2 "max_login_attempts" (pretty (int ["Auth"; "MaxLoginAttempts"] cfg));
   pair_line 2 "lockout_duration" (formatDuration A_other);
   ""; section_line 0 "sync";
   pair_line 2 "chunk_size_min" (pretty (int ["Sync"; "ChunkSizeMin"] cfg));
   pair_line 2 "chunk_size_avg" (pretty (int ["Sync"; "ChunkSizeAvg"] cfg));
   pair_line 2 "chunk_size_max" (pretty (int ["Sync"; "ChunkSizeMax"] cfg));
   pair_line 2 "max_concurrent_transfers" (pretty (int ["Sync"; "MaxConcurrentTransfers"] cfg));
   pair_line 2 "websocket_enabled" (bool_text (flag ["Sync"; "WebSocketEnabled"] cfg));
   ""; section_line 0 "encryption";
   pair_line 2 "enabled" (bool_text (flag ["Encryption"; "Enabled"] cfg));
   pair_line 2 "zero_knowledge" (bool_text (flag ["Encryption"; "ZeroKnowledge"] cfg));
   pair_line 2 "argon2_time" (pretty (int ["Encryption"; "Argon2Time"] cfg));
   pair_line 2 "argon2_memory" (pretty (int ["Encryption"; "Argon2Memory"] cfg));
   pair_line 2 "argon2_threads" (pretty (int ["Encryption"; "Argon2Threads"] cfg));
   ""; section_line 0 "sharing";
   pair_line 2 "public_links_enabled" (bool_text (flag ["Sharing"; "PublicLinksEnabled"] cfg));
   pair_line 2 "max_expiry_days" (pretty (int ["Sharing"; "MaxExpiryDays"] cfg));
   pair_line 2 "default_expiry_days" (pretty (int ["Sharing"; "DefaultExpiryDays"] cfg));
   ""; section_line 0 "users";
   pair_line 2 "registration_enabled" (bool_text (flag ["Users"; "RegistrationEnabled"] cfg));
   pair_line 2 "default_quota" (pretty (int ["Users"; "DefaultQuota"] cfg));
   ""; section_line 0 "logging";
   pair_line 2 "level" (str ["Logging"; "Level"] cfg);
   pair_line 2 "file" (str ["Logging"; "File"] cfg);
   pair_line 2 "format" (str ["Logging"; "Format"] cfg);
   pair_line 2 "audit" (bool_text (flag ["Logging"; "Audit"] cfg));
   ""; section_line 0 "federation";
   pair_line 2 "enabled" (bool_text (flag ["Federation"; "Enabled"] cfg))]%string.

(** The durations are passed as [time.Duration], which is not [int64]. *)
Definition marshal_lines (cfg : field_value) : list string :=
  lines_before_auth cfg ++ [section_line 0 "auth"; pair_line 2 "jwt_secret" "*****"]%string ++ lines_after_auth cfg.

Definition marshalYAML (cfg : field_value) : string := join_char newline (marshal_lines cfg).

(** ** validate.go *)

(** [if cond { errs = append(errs, fmt.Errorf(msg)) }] *)
Definition check (cond : bool) (msg : string) : list error := if cond then [Errorf msg] else [].

Definition len_of (path : list string) (cfg : field_value) : Z := Z.of_nat (len (str path cfg)).
Definition unset (path : list string) (cfg : field_value) : bool := bool_decide (str path cfg = ""%string).
Definition has_substring (s sub : string) : bool := bool_decide (is_Some (index_str sub s 0)).

Definition Validate (cfg : field_value) : list error :=
  let url := str ["Server"; "BaseURL"]%string cfg in
  let backend := str ["Storage"; "Backend"]%string cfg in
  check ((int ["Server"; "Port"]%string cfg <? 1) || (65535 <? int ["Server"; "Port"]%string cfg)) "server.port must be between 1 and 65535" ++
   check (bool_decide (url = ""%string)) "server.base_url is required" ++
   check (negb (HasPrefix url "http://") && negb (HasPrefix url "https://")) "server.base_url must start with http:// or https://" ++
   check (flag ["Server"; "TLS"; "Enabled"]%string cfg && negb (flag ["Server"; "TLS"; "AutoCert"]%string cfg) &&
          (unset ["Server"; "TLS"; "CertFile"]%string cfg || unset ["Server"; "TLS"; "KeyFile"]%string cfg))
     "server.tls.cert_file and server.tls.key_file are required when auto_cert is disabled" ++
   check (negb (bool_decide (backend = "local"%string)) && negb (bool_decide (backend = "s3"%string))) "storage.backend must be 'local' or 's3'" ++
   check (bool_decide (backend = "local"%string) && unset ["Storage"; "Local"; "DataDir"]%string cfg) "storage.local.data_dir is required" ++
   check (bool_decide (backend = "s3"%string) && unset ["Storage"; "S3"; "Bucket"]%string cfg) "storage.s3.bucket is required" ++
   check (bool_decide (backend = "s3"%string) && unset ["Storage"; "S3"; "Region"]%string cfg) "storage.s3.region is required" ++
   check (unset ["Database"; "Path"]%string cfg) "database.path is required" ++
   check (len_of ["Auth"; "JWTSecret"]%string cfg <? 32) "auth.jwt_secret must be at least 32 characters" ++
   check (int ["Auth"; "AccessTokenTTL"]%string cfg <=? 0) "auth.access_token_ttl must be positive" ++
   check (int ["Auth"; "RefreshTokenTTL"]%string cfg <=? 0) "auth.refresh_token_ttl must be positive" ++
   check (int ["Auth"; "MaxLoginAttempts"]%string cfg <? 1) "auth.max_login_attempts must be at least 1" ++
   check (int ["Sync"; "ChunkSizeMin"]%string cfg <? 1024) "sync.chunk_size_min must be at least 1KB" ++
   check (int ["Sync"; "ChunkSizeAvg"]%string cfg <? int ["Sync"; "ChunkSizeMin"]%string cfg) "sync.chunk_size_avg must be >= chunk_size_min" ++
   check (int ["Sync"; "ChunkSizeMax"]%string cfg <? int ["Sync"; "ChunkSizeAvg"]%string cfg) "sync.chunk_size_max must be >= chunk_size_avg" ++
   check (int ["Sync"; "MaxConcurrentTransfers"]%string cfg <? 1) "sync.max_concurrent_transfers must be at least 1" ++
   check (int ["Encryption"; "Argon2Time"]%string cfg <? 1) "encryption.argon2_time must be at least 1" ++
   check (int ["Encryption"; "Argon2Memory"]%string cfg <? 8 * 1024) "encryption.argon2_memory must be at least 8MB" ++
   check (int ["Encryption"; "Argon2Threads"]%string cfg <? 1) "encryption.argon2_threads must be at least 1" ++
   check (int ["Sharing"; "MaxExpiryDays"]%string cfg <? 1) "sharing.max_expiry_days must be at least 1" ++
   check (int ["Sharing"; "DefaultExpiryDays"]%string cfg <? 1) "sharing.default_expiry_days must be at least 1" ++
   check (int ["Sharing"; "MaxExpiryDays"]%string cfg <? int ["Sharing"; "DefaultExpiryDays"]%string cfg) "sharing.default_expiry_days must be <= max_expiry_days" ++
   check (int ["Users"; "DefaultQuota"]%string cfg <? 0) "users.default_quota must be non-negative" ++
   check (int ["Users"; "MaxQuota"]%string cfg <? 0) "users.max_quota must be non-negative (0 = unlimited)" ++
   check ((0 <? int ["Users"; "MaxQuota"]%string cfg) && (int ["Users"; "MaxQuota"]%string cfg <? int ["Users"; "DefaultQuota"]%string cfg))
     "users.default_quota must be <= max_quota" ++
   check (flag ["SMTP"; "Enabled"]%string cfg && unset ["SMTP"; "Host"]%string cfg) "smtp.host is required when smtp is enabled" ++
   check (flag ["SMTP"; "Enabled"]%string cfg && ((int ["SMTP"; "Port"]%string cfg <? 1) || (65535 <? int ["SMTP"; "Port"]%string cfg))) "smtp.port must be between 1 and 65535" ++
   check (flag ["SMTP"; "Enabled"]%string cfg && unset ["SMTP"; "From"]%string cfg) "smtp.from is required when smtp is enabled" ++
   check (negb (bool_decide (str ["Logging"; "Level"]%string cfg ∈ ["debug"; "info"; "warn"; "error"]%string)))
     "logging.level must be one of: debug, info, warn, error" ++
   check (negb (bool_decide (str ["Logging"; "Format"]%string cfg ∈ ["json"; "text"]%string))) "logging.format must be one of: json, text".

(** [filepath.Join] of elements, [filepath.Dir] *)
Definition filepath_Join (elems : list string) : string :=
  match List.filter (fun e => negb (bool_decide (e = ""%string))) elems with [] => ""%string | l => Clean (join_char slash l) end.

(** The directories that [EnsureDirs] makes, in their order; the first that cannot
    be made ends it. *)
Definition ensured_dirs (cfg : field_value) : list string :=
  let dir_of (path : string) := let d := path_Dir path in if bool_decide (d = ""%string) || bool_decide (d = "."%string) then [] else [d] in
  let data := str ["Storage"; "Local"; "DataDir"]%string cfg in
  (if bool_decide (str ["Storage"; "Backend"]%string cfg = "local"%string) then [data; filepath_Join [data; "chunks"%string]] else []) ++
  dir_of (str ["Database"; "Path"]%string cfg) ++ dir_of (str ["Logging"; "File"]%string cfg).

Definition IsDevelopment (cfg : field_value) : bool :=
  let url := str ["Server"; "BaseURL"]%string cfg in
  bool_decide (url = ""%string) || has_substring url "localhost" || has_substring url "127.0.0.1".

(** ** The disk, as far as the setup writes to it *)

(** The directories made and the files written; [sd_faults] says which calls fail. *)
Record Setup := mkSetup {
  sd_lines : list string;                  (* what is left to read of standard input, by lines *)
  sd_hidden : list (option string);        (* what [fmt.Scanln] yields for the next passwords *)
  sd_rand : Rand; sd_data : string;        (* the variable VAULTDRIFT_DATA *)
  sd_dirs : list string; sd_files : gmap string string; sd_faults : list bool
}.

Definition disk_call (f : Setup -> Setup) : GoM Setup unit := fun w =>
  let '(bad, l) := next_fault (sd_faults w) in
  let w := mkSetup (sd_lines w) (sd_hidden w) (sd_rand w) (sd_data w) (sd_dirs w) (sd_files w) l in
  if bad then (Err ErrDriver, w) else (Ok tt, f w).

Definition MkdirAll (dir : string) : GoM Setup unit := disk_call (fun w =>
  mkSetup (sd_lines w) (sd_hidden w) (sd_rand w) (sd_data w) (sd_dirs w ++ [dir]) (sd_files w) (sd_faults w)).

Definition WriteFile (path data : string) : GoM Setup unit := disk_call (fun w =>
  mkSetup (sd_lines w) (sd_hidden w) (sd_rand w) (sd_data w) (sd_dirs w) (<[path := data]> (sd_files w)) (sd_faults w)).

Definition EnsureDirs (cfg : field_value) : GoM Setup unit :=
  forM (ensured_dirs cfg) (fun dir => wrap ("failed to create directory " +:+ dir) (MkdirAll dir)).

Definition Save (cfg : field_value) (path : string) : GoM Setup unit :=
  wrap "failed to write config file" (WriteFile path (marshalYAML cfg)).

(** ** setup.go *)

(** [input, _ := reader.ReadString('\n')], without the white space around it *)
Definition read_answer : GoM Setup string := fun w =>
  match sd_lines w with
  | [] => (Ok ""%string, w)
  | l :: ls => (Ok (TrimSpace l), mkSetup ls (sd_hidden w) (sd_rand w) (sd_data w) (sd_dirs w) (sd_files w) (sd_faults w))
  end.

Definition prompt (defaultValue : string) : GoM Setup string :=
  input ← read_answer;
  mret (if bool_decide (input = ""%string) then defaultValue else input).

Definition promptYN (defaultValue : bool) : GoM Setup bool :=
  input ← read_answer;
  let input := ToLower input in
  mret (if bool_decide (input = ""%string) then defaultValue else bool_decide (input = "y"%string) || bool_decide (input = "yes"%string)).

Definition promptSelect (options : list string) (defaultValue : string) : GoM Setup string :=
  input ← read_answer;
  mret (if bool_decide (input = ""%string) then defaultValue
        else match Atoi input with
             | Some idx => if (0 <? idx) && (idx <=? Z.of_nat (length options)) then nth (Z.to_nat (idx - 1)) options defaultValue else defaultValue
             | None => defaultValue
             end).

(** The word that [fmt.Scanln] reads, if it reads one. *)
Definition readPassword : GoM Setup (option string) := fun w =>
  match sd_hidden w with
  | [] => (Ok None, w)
  | p :: ps => (Ok p, mkSetup (sd_lines w) ps (sd_rand w) (sd_data w) (sd_dirs w) (sd_files w) (sd_faults w))
  end.

Definition promptPassword : GoM Setup string :=
  p ← readPassword;
  match p with
  | Some password => if bool_decide (password = ""%string) then read_answer else mret password
  | None => read_answer
  end.

Definition generateRandomSecret : GoM Setup string := fun w =>
  let '(r, rnd) := rand_read 32 (sd_rand w) in
  let w := mkSetup (sd_lines w) (sd_hidden w) rnd (sd_data w) (sd_dirs w) (sd_files w) (sd_faults w) in
  match r with
  | Ok b => (Ok (Base64StdEncode b), w)
  | _ => (Ok "vaultdrift-fallback-secret-do-not-use-in-production"%string, w)
  end.

Definition getenv_data : GoM Setup string := fun w => (Ok (sd_data w), w).

Definition setup_server (cfg : field_value) : GoM Setup field_value :=
  host ← prompt (str ["Server"; "Host"]%string cfg);
  let cfg := put ["Server"; "Host"]%string (F_string host) cfg in
  portStr ← prompt (pretty (int ["Server"; "Port"]%string cfg));
  let cfg := match Atoi portStr with
             | Some port => if (0 <? port) && (port <? 65536) then put ["Server"; "Port"]%string (F_int port) cfg else cfg
             | None => cfg
             end in
  baseURL ← prompt (str ["Server"; "BaseURL"]%string cfg);
  mret (put ["Server"; "BaseURL"]%string (F_string baseURL) cfg).

Definition setup_tls (cfg : field_value) : GoM Setup field_value :=
  tlsEnabled ← promptYN (flag ["Server"; "TLS"; "Enabled"]%string cfg);
  let cfg := put ["Server"; "TLS"; "Enabled"]%string (F_bool tlsEnabled) cfg in
  if tlsEnabled : bool then
    autoCert ← promptYN false;
    let cfg := put ["Server"; "TLS"; "AutoCert"]%string (F_bool autoCert) cfg in
    if autoCert : bool then mret cfg
    else
      certFile ← prompt (str ["Server"; "TLS"; "CertFile"]%string cfg);
      keyFile ← prompt (str ["Server"; "TLS"; "KeyFile"]%string cfg);
      mret (put ["Server"; "TLS"; "KeyFile"]%string (F_string keyFile) (put ["Server"; "TLS"; "CertFile"]%string (F_string certFile) cfg))
  else mret cfg.

Definition setup_s3 (cfg : field_value) : GoM Setup field_value :=
  endpoint ← prompt (str ["Storage"; "S3"; "Endpoint"]%string cfg);
  bucket ← prompt (str ["Storage"; "S3"; "Bucket"]%string cfg);
  region ← prompt (str ["Storage"; "S3"; "Region"]%string cfg);
  accessKey ← prompt "";
  secretKey ← promptPassword;
  mret (put ["Storage"; "S3"; "SecretKey"]%string (F_string secretKey) (put ["Storage"; "S3"; "AccessKey"]%string (F_string accessKey)
       (put ["Storage"; "S3"; "Region"]%string (F_string region) (put ["Storage"; "S3"; "Bucket"]%string (F_string bucket)
       (put ["Storage"; "S3"; "Endpoint"]%string (F_string endpoint) cfg))))).

Definition setup_storage (cfg : field_value) : GoM Setup field_value :=
  backend ← promptSelect ["local"; "s3"]%string (str ["Storage"; "Backend"]%string cfg);
  let cfg := put ["Storage"; "Backend"]%string (F_string backend) cfg in
  if bool_decide (backend = "local"%string) then
    dataDir ← prompt (str ["Storage"; "Local"; "DataDir"]%string cfg);
    mret (put ["Storage"; "Local"; "DataDir"]%string (F_string dataDir) cfg)
  else if bool_decide (backend = "s3"%string) then setup_s3 cfg
  else mret cfg.

Definition setup_auth (cfg : field_value) : GoM Setup field_value :=
  dbPath ← prompt (str ["Database"; "Path"]%string cfg);
  let cfg := put ["Database"; "Path"]%string (F_string dbPath) cfg in
  jwtSecret ← promptPassword;
  secret ← (if bool_decide (jwtSecret = ""%string) then generateRandomSecret else mret jwtSecret);
  let cfg := put ["Auth"; "JWTSecret"]%string (F_string secret) cfg in
  totpEnabled ← promptYN (flag ["Auth"; "TOTPEnabled"]%string cfg);
  mret (put ["Auth"; "TOTPEnabled"]%string (F_bool totpEnabled) cfg).

(** The answers about the administrator are only printed. *)
Definition setup_admin (cfg : field_value) : GoM Setup field_value :=
  createAdmin ← promptYN true;
  if createAdmin : bool then
    prompt "admin";;
    prompt "admin@localhost";;
    adminPassword ← promptPassword;
    (if bool_decide (adminPassword = ""%string) then generateRandomSecret;; mret tt else mret tt);;
    mret (put ["Users"; "RegistrationEnabled"]%string (F_bool true) cfg)
  else mret cfg.

Definition setup_dirs (cfg : field_value) : GoM Setup field_value :=
  env ← getenv_data;
  let defaultDataDir := if bool_decide (env = ""%string) then "./data"%string else env in
  dataDir ← prompt defaultDataDir;
  let storageDir := filepath_Join [dataDir; "storage"%string] in
  let cfg := put ["Database"; "Path"]%string (F_string (filepath_Join [dataDir; "vaultdrift.db"%string])) cfg in
  let cfg := put ["Storage"; "Local"; "DataDir"]%string (F_string storageDir) cfg in
  let cfg := put ["Logging"; "File"]%string (F_string (filepath_Join [dataDir; "logs"; "vaultdrift.log"]%string)) cfg in
  wrap "failed to create data directory" (MkdirAll dataDir);;
  wrap "failed to create logs directory" (MkdirAll (filepath_Join [dataDir; "logs"%string]));;
  wrap "failed to create storage directory" (MkdirAll storageDir);;
  configPath ← prompt (filepath_Join [dataDir; "config.yaml"%string]);
  wrap "failed to save config" (Save cfg configPath);;
  mret cfg.

Definition InteractiveSetup : GoM Setup field_value :=
  cfg ← setup_server DefaultConfig;
  cfg ← setup_tls cfg;
  cfg ← setup_storage cfg;
  cfg ← setup_auth cfg;
  cfg ← setup_admin cfg;
  setup_dirs cfg.
End Config.

Arguments field_value : clear implicits.

(** ** Lemmas: white space *)

Definition printable (c : ascii) : bool := (33 <=? code c) && (code c <=? 126).

(** Keys and sections: printable characters, no colon, no number sign. *)
Definition key_char (c : ascii) : bool := printable c && negb (bool_decide (c = ":"%char)) && negb (bool_decide (c = "#"%char)).
Fixpoint good_chars (s : string) : bool := match s with String c r => key_char c && good_chars r | ""%string => true end.
Definition good_key (k : string) : Prop := k <> ""%string /\ good_chars k = true.

(** Texts that are not empty and have no white space at their ends. *)
Definition value_text (v : string) : Prop := v <> ""%string /\ TrimSpace v = v.

Lemma space_at_ascii c r : code c < 128 -> space_at (String c r) = if ((9 <=? code c) && (code c <=? 13)) || (code c =? 32) then 1%nat else 0%nat.
Proof.
  intros Hc. unfold space_at. destruct (_ || _); [done|]. destruct r as [|b r']; [done|].
  destruct (Z.eqb_spec (code c) 0xC2); [lia|]. destruct r' as [|d r'']; [done|].
  destruct (Z.eqb_spec (code c) 0xE1); [lia|]. destruct (Z.eqb_spec (code c) 0xE2); [lia|]. destruct (Z.eqb_spec (code c) 0xE3); [lia|]. done.
Qed.

Lemma drop_space_printable c r : printable c = true -> drop_space 0 (String c r) = String c r.
Proof.
  unfold printable. intros Hp. apply andb_true_iff in Hp as [H1 H2]. apply Z.leb_le in H1, H2.
  cbn [drop_space]. rewrite space_at_ascii by lia.
  destruct (Z.leb_spec (code c) 13); [lia|]. rewrite andb_false_r. destruct (Z.eqb_spec (code c) 32); [lia|]. done.
Qed.

Lemma drop_space_blank r : drop_space 0 (String " " r) = drop_space 0 r.
Proof. done. Qed.

Lemma drop_spaces n s : drop_space 0 (spaces n +:+ s) = drop_space 0 s.
Proof. induction n as [|n IH]; [done|]. simpl spaces. by rewrite str_app_cons, drop_space_blank. Qed.

Lemma right_printable c r : printable c = true -> drop_space_right (String c r) = String c (drop_space_right r).
Proof. intros Hc. simpl. unfold all_space. by rewrite drop_space_printable. Qed.

Lemma right_key k u : good_chars k = true -> drop_space_right (k +:+ u) = (k +:+ drop_space_right u)%string.
Proof.
  induction k as [|c k IH]; [done|]. cbn [good_chars]. intros Hk. apply andb_true_iff in Hk as [Hc Hk].
  unfold key_char in Hc. apply andb_true_iff in Hc as [Hc _]. apply andb_true_iff in Hc as [Hc _].
  rewrite !str_app_cons, right_printable by done. by rewrite IH.
Qed.

Lemma good_key_cons k : good_key k -> exists c r, k = String c r /\ printable c = true /\ c <> "#"%char.
Proof.
  intros [Hne Hk]. destruct k as [|c k]; [done|]. cbn [good_chars] in Hk. apply andb_true_iff in Hk as [Hc _].
  unfold key_char in Hc. apply andb_true_iff in Hc as [Hc Hh]. apply andb_true_iff in Hc as [Hc _].
  exists c, k. split_and!; [done..|]. intros ->. done.
Qed.

Lemma TrimSpace_key k : good_key k -> TrimSpace k = k.
Proof.
  intros Hk. destruct (good_key_cons k Hk) as (c & r & -> & Hc & _). unfold TrimSpace. rewrite drop_space_printable by done.
  rewrite <- (app_str_nil (String c r)) at 1. rewrite right_key by apply Hk. apply app_str_nil.
Qed.

(** A line with a key: what is left of it, and its parts. *)
Lemma TrimSpace_line n k u : good_key k -> TrimSpace (spaces n +:+ k +:+ ":" +:+ u) = (k +:+ ":" +:+ drop_space_right u)%string.
Proof.
  intros Hk. destruct (good_key_cons k Hk) as (c & r & -> & Hc & _). unfold TrimSpace. rewrite drop_spaces, str_app_cons, drop_space_printable by done.
  rewrite <- str_app_cons, right_key by apply Hk. rewrite (str_app_cons ":"%char ""%string u), str_app_nil_l, right_printable by done. reflexivity.
Qed.

Lemma cut_key k u : good_chars k = true -> cut_char ":"%char (k +:+ ":" +:+ u) = Some (k, u).
Proof.
  induction k as [|c k IH]; [done|]. cbn [good_chars]. intros Hk. apply andb_true_iff in Hk as [Hc Hk]. rewrite str_app_cons. cbn [cut_char].
  unfold key_char in Hc. apply andb_true_iff in Hc as [Hc _]. apply andb_true_iff in Hc as [_ Hc]. apply negb_true_iff, bool_decide_eq_false in Hc.
  rewrite bool_decide_eq_false_2 by done. by rewrite IH.
Qed.

Lemma not_comment k u : good_key k -> HasPrefix (k +:+ u) "#" = false.
Proof.
  intros Hk. destruct (good_key_cons k Hk) as (c & r & -> & _ & Hh). rewrite str_app_cons, HasPrefix_char. by apply bool_decide_eq_false_2.
Qed.

Lemma indent_spaces n k u : good_key k -> indent_of (spaces n +:+ k +:+ u) = Z.of_nat n.
Proof.
  intros Hk. destruct (good_key_cons k Hk) as (c & r & -> & Hc & _). induction n as [|n IH].
  - simpl spaces. rewrite str_app_nil_l, str_app_cons. simpl. unfold printable in Hc. rewrite !bool_decide_eq_false_2; [done|intros ->; done..].
  - simpl spaces. rewrite str_app_cons. simpl. rewrite IH. lia.
Qed.

Lemma value_right v : value_text v -> drop_space_right (" " +:+ v) = (" " +:+ v)%string.
Proof.
  intros [Hne Hv]. unfold TrimSpace in Hv.
  assert (forall s, (len (drop_space_right s) <= len s)%nat) as Hr.
  { intros s. induction s as [|c s IH]; [done|]. simpl. destruct (all_space _); simpl; lia. }
  assert (forall s k, (len (drop_space k s) <= len s)%nat) as Hd.
  { intros s. induction s as [|c s IH]; intros k; [done|]. cbn [drop_space]. destruct k as [|k]; [|specialize (IH k); cbn [String.length]; lia].
    destruct (space_at _) as [|k]; [done|]. specialize (IH k). cbn [String.length]. lia. }
  assert (forall s k, (len (drop_space k s) < len s)%nat \/ drop_space k s = s) as Hs.
  { intros [|c s] k; [by right|]. cbn [drop_space]. destruct k as [|k]; [|left; specialize (Hd s k); cbn [String.length]; lia].
    destruct (space_at _) as [|k]; [by right|]. left. specialize (Hd s k). cbn [String.length]. lia. }
  assert (drop_space 0 v = v) as Ev.
  { destruct (Hs v 0%nat) as [Hl|]; [|done]. specialize (Hr (drop_space 0 v)). rewrite Hv in Hr. lia. }
  rewrite Ev in Hv. rewrite str_app_cons, str_app_nil_l. cbn [drop_space_right]. unfold all_space. rewrite drop_space_blank, Ev.
  rewrite bool_decide_eq_false_2 by done. by rewrite Hv.
Qed.

Lemma TrimSpace_blank v : TrimSpace (" " +:+ v) = TrimSpace v.
Proof. done. Qed.

(** ** Lemmas: fields *)

Section Fields.
Context {F : Type} (ParseFloat : string -> option F).
Implicit Type v : field_value F.

#[local] Notation field := (string * string * field_value F)%type.

(** The types of a value, and the names of its fields. *)
Inductive shape :=
  | S_string | S_int | S_duration | S_uint (width : Z) | S_bool | S_float | S_strings
  | S_struct (type : string) (fields : list (string * string * shape)).

Fixpoint shape_of v : shape :=
  match v with
  | F_string _ => S_string | F_int _ => S_int | F_duration _ => S_duration | F_uint w _ => S_uint w | F_bool _ => S_bool
  | F_float _ => S_float | F_strings _ => S_strings
  | F_struct t l => S_struct t (map (fun f => (f.1, shape_of f.2)) l)
  end.

Definition is_struct v : bool := match v with F_struct _ _ => true | _ => false end.

(** The fields of a struct have different names. *)
Fixpoint distinct v : bool :=
  match v with
  | F_struct _ l => bool_decide (NoDup (map (fun f => f.1.1) l)) && forallb (fun f => distinct f.2) l
  | _ => true
  end.

(** The path by the names of the fields that a path by other names means. *)
Fixpoint resolve v (path : list string) : option (list string) :=
  match path with
  | [] => Some []
  | name :: rest =>
      match v with
      | F_struct _ l =>
          match findField l name with
          | Some (i, w) => match l !! i, resolve w rest with Some f, Some p => Some (f.1.1 :: p) | _, _ => None end
          | None => None
          end
      | _ => None
      end
  end.

Lemma find_index_lookup p (l : list (field)) i w : find_index p l = Some (i, w) -> exists n, l !! i = Some (n, w) /\ p (n, w) = true.
Proof.
  revert i. induction l as [|[n x] l IH]; intros i; [done|]. simpl. destruct (p (n, x)) eqn:E.
  - intros [= <- <-]. by exists n.
  - destruct (find_index p l) as [[j y]|]; [|done]. intros [= <- <-]. by apply IH.
Qed.

Lemma find_name l i n w : NoDup (map (fun f : field => f.1.1) l) -> l !! i = Some (n, w) ->
  find_index (fun f => bool_decide (f.1.1 = n.1)) l = Some (i, w).
Proof.
  revert i. induction l as [|[m x] l IH]; intros i; [done|]. simpl. intros Hn. apply NoDup_cons in Hn as [Hm Hn]. destruct i as [|i].
  - intros [= -> ->]. by rewrite bool_decide_eq_true_2.
  - intros Hi. simpl in Hi. rewrite bool_decide_eq_false_2.
    + by rewrite (IH i Hn Hi).
    + intros E. apply Hm. rewrite E. apply list_elem_of_In, in_map_iff. exists (n, w). split; [done|]. apply list_elem_of_In. by eapply list_elem_of_lookup_2.
Qed.

Lemma set_at_lookup l i n w x : l !! i = Some (n, w) -> (set_at i x l : list (field)) !! i = Some (n, x).
Proof. unfold set_at. revert l. induction i as [|i IH]; intros [|[m y] l]; [done|by intros [= -> ->]|done|apply IH]. Qed.

Lemma set_at_map {B} (g : field -> B) l i n w x : l !! i = Some (n, w) -> g (n, x) = g (n, w) -> map g (set_at i x l) = map g l.
Proof.
  intros Hi Hg. unfold set_at. revert l Hi. induction i as [|i IH]; intros [|[m y] l] Hi; try done.
  - injection Hi as -> ->. change (map g (((n, x) : field) :: l) = map g ((n, w) :: l)). simpl. by rewrite Hg.
  - exact (f_equal (cons _) (IH l Hi)).
Qed.

(** [find_index] by a test of the names sees no values. *)
Lemma find_set_at p l i j n w x y : l !! i = Some (n, w) -> (forall m a b, p (m, a) = p (m, b)) ->
  find_index p l = Some (j, y) -> find_index p (set_at i x l : list (field)) = Some (j, if decide (i = j) then x else y).
Proof.
  intros Hi Hp. unfold set_at. revert i j Hi. induction l as [|[m z] l IH]; intros [|i] j Hi; try done; simpl in Hi |- *.
  - injection Hi as -> ->. rewrite (Hp n x w). destruct (p (n, w)).
    + by intros [= <- _].
    + destruct (find_index p l) as [[k u]|]; [|done]. by intros [= <- <-].
  - destruct (p (m, z)).
    + by intros [= <- <-].
    + destruct (find_index p l) as [[k u]|] eqn:E; [|done]. intros [= <- <-]. setoid_rewrite (IH i k Hi eq_refl).
      destruct (decide (i = k)), (decide (S i = S k)); congruence.
Qed.

Lemma find_set_none p l i n w x : l !! i = Some (n, w) -> (forall m a b, p (m, a) = p (m, b)) ->
  find_index p l = None -> find_index p (set_at i x l : list (field)) = None.
Proof.
  intros Hi Hp. unfold set_at. revert i Hi. induction l as [|[m z] l IH]; intros [|i] Hi; try done; simpl in Hi |- *.
  - injection Hi as -> ->. rewrite (Hp n x w). by destruct (p (n, w)), (find_index p l) as [[]|].
  - destruct (p (m, z)); [done|]. destruct (find_index p l) as [[]|] eqn:E; [done|]. intros _. by setoid_rewrite (IH i Hi eq_refl).
Qed.

Lemma distinct_field t l i n w : distinct (F_struct t l) = true -> l !! i = Some (n, w) ->
  NoDup (map (fun f : field => f.1.1) l) /\ distinct w = true.
Proof.
  cbn [distinct]. intros Hd Hi. apply andb_true_iff in Hd as [Hn Hf]. split; [by apply bool_decide_eq_true in Hn|].
  rewrite forallb_forall in Hf. apply (Hf (n, w)). apply list_elem_of_In. by eapply list_elem_of_lookup_2.
Qed.

(** Only values change with [setValue]. *)
Lemma setValue_shape v s v' : setValue ParseFloat v s = Ok v' -> shape_of v' = shape_of v /\ is_struct v = false /\ is_struct v' = false.
Proof.
  destruct v; unfold setValue, mbind, Res_bind; try (by intros [= <-]); try done.
  all: repeat (case_match; try done); by intros [= <-].
Qed.

Lemma setValue_total v s : settles (setValue ParseFloat v s).
Proof.
  destruct v; unfold setValue, parseDuration, mbind, Res_bind; try done; by repeat case_match.
Qed.

(** [cfg.q] after [cfg.p = x]: the new value at [p] itself, the old one at any path
    that neither leads to [p] nor goes through it. *)
Lemma get_put_same p : forall v x w, get p v = Some w -> get p (put p x v) = Some x.
Proof.
  induction p as [|n p IH]; intros v x w; [done|]. destruct v as [| | | | | | |t l]; try done. cbn [get put].
  destruct (find_index _ l) as [[i y]|] eqn:E; [|done]. intros Hg. destruct (find_index_lookup _ _ _ _ E) as (m & Hi & _).
  cbn [get]. rewrite (find_set_at _ l i i m y _ y Hi); [|done|done]. rewrite decide_True by done. by eapply IH.
Qed.

Lemma get_put_other p : forall q v x w, get p v = Some w -> (forall r, q <> p ++ r) -> (forall r, p <> q ++ r) -> get q (put p x v) = get q v.
Proof.
  induction p as [|n p IH]; intros q v x w Hp H1 H2; [by destruct (H1 q)|]. destruct q as [|m q]; [by destruct (H2 (n :: p))|].
  destruct v as [| | | | | | |t l]; try done. cbn [get put] in Hp |- *. destruct (find_index _ l) as [[i y]|] eqn:E; [|done].
  destruct (find_index_lookup _ _ _ _ E) as (k & Hi & Hk). cbn [get].
  destruct (find_index (fun f => bool_decide (f.1.1 = m)) l) as [[j z]|] eqn:E'.
  - rewrite (find_set_at _ l i j k y _ z Hi); [|done|done]. destruct (decide (i = j)) as [<-|]; [|done].
    destruct (find_index_lookup _ _ _ _ E') as (k' & Hi' & Hk'). rewrite Hi in Hi'. injection Hi' as <- <-.
    simpl in Hk, Hk'. apply bool_decide_eq_true in Hk, Hk'. subst m n.
    eapply IH; [done| |]; intros r Hr; [by apply (H1 r); rewrite Hr|by apply (H2 r); rewrite Hr].
  - by rewrite (find_set_none _ l i k y _ Hi).
Qed.

(** What [setField] does, in terms of the names of the fields. *)
Lemma set_field_inv : forall path seen v s v', distinct v = true -> path <> [] -> set_field_from ParseFloat seen v path s = Ok v' ->
  exists q leaf leaf', resolve v path = Some q /\ get q v = Some leaf /\ setValue ParseFloat leaf s = Ok leaf' /\ v' = put q leaf' v.
Proof.
  induction path as [|name rest IH]; intros seen v s v' Hd Hne; [done|]. destruct v as [| | | | | | |t l]; try done. cbn [set_field_from resolve].
  destruct (findField l name) as [[i w]|] eqn:E; [|done]. unfold findField in E. destruct (find_index_lookup _ _ _ _ E) as (n & Hi & _).
  destruct (distinct_field _ _ _ _ _ Hd Hi) as [Hn Hw]. pose proof (find_name l i n w Hn Hi) as Hf. rewrite Hi.
  destruct rest as [|name' rest].
  - unfold mbind, Res_bind. destruct (setValue ParseFloat w s) as [w'| | |] eqn:Es; try done. intros [= <-].
    exists [n.1], w, w'. cbn [get put resolve]. rewrite Hf. done.
  - destruct w as [| | | | | | |t' l'] eqn:Ew; try done. rewrite <- Ew in *. unfold mbind, Res_bind.
    destruct (set_field_from _ _ w _ s) as [w'| | |] eqn:Es; try done. intros [= <-].
    destruct (IH _ _ _ _ Hw ltac:(done) Es) as (q & leaf & leaf' & Hq & Hg & Hs & ->). rewrite Hq.
    exists (n.1 :: q), leaf, leaf'. cbn [get put]. by rewrite Hf.
Qed.

Lemma set_field_total : forall path seen v s, is_struct v = true -> settles (set_field_from ParseFloat seen v path s).
Proof.
  induction path as [|name rest IH]; intros seen v s Hv; [done|]. destruct v as [| | | | | | |t l]; try done. cbn [set_field_from].
  destruct (findField l name) as [[i w]|]; [|done]. destruct rest as [|name' rest].
  - pose proof (setValue_total w s) as Ht. unfold mbind, Res_bind. by destruct (setValue ParseFloat w s).
  - destruct (is_struct w) eqn:Ew; [|by destruct w]. destruct w as [| | | | | | |t' l'] eqn:E; try done. rewrite <- E in *.
    specialize (IH (seen ++ [name]) w s Ew). unfold mbind, Res_bind. by destruct (set_field_from _ _ w _ s).
Qed.

Lemma put_shape p : forall v x w, get p v = Some w -> shape_of x = shape_of w -> shape_of (put p x v) = shape_of v.
Proof.
  induction p as [|n p IH]; intros v x w; [by intros [= <-]|]. destruct v as [| | | | | | |t l]; try done. cbn [get put].
  destruct (find_index _ l) as [[i y]|] eqn:E; [|done]. intros Hg Hx. destruct (find_index_lookup _ _ _ _ E) as (m & Hi & _).
  cbn [shape_of]. f_equal. eapply set_at_map; [exact Hi|]. simpl. f_equal. by eapply IH.
Qed.

Lemma set_field_exact cfg path s : distinct cfg = true -> is_struct cfg = true -> path <> [] ->
  match setField ParseFloat cfg path s with
  | Ok cfg' =>
      shape_of cfg' = shape_of cfg /\
      exists q leaf leaf', resolve cfg path = Some q /\ get q cfg = Some leaf /\ setValue ParseFloat leaf s = Ok leaf' /\
        get q cfg' = Some leaf' /\
        forall q' other, get q' cfg = Some other -> is_struct other = false -> q' <> q -> get q' cfg' = Some other
  | Err _ => True
  | _ => False
  end.
Proof.
  intros Hd Hst Hne. unfold setField. pose proof (set_field_total path [] cfg s Hst) as Ht.
  destruct (set_field_from ParseFloat [] cfg path s) as [cfg'| | |] eqn:E; try done.
  destruct (set_field_inv _ _ _ _ _ Hd Hne E) as (q & leaf & leaf' & Hq & Hg & Hs & ->).
  destruct (setValue_shape _ _ _ Hs) as (Hsh & Hl & _). split; [by eapply put_shape|].
  exists q, leaf, leaf'. split_and!; [done..|by eapply get_put_same|]. intros q' other Ho Hos Hq'.
  assert (forall p r x y, get p cfg = Some x -> is_struct x = false -> get (p ++ r) cfg = Some y -> r = []) as Hleaf.
  { clear. intros p. revert cfg. induction p as [|n p IH]; intros v r x y.
    - intros [= ->] Hx. destruct r; [done|]. by destruct x.
    - destruct v as [| | | | | | |t l]; try done. cbn [get app]. destruct (find_index _ l) as [[i z]|]; [|done]. apply IH. }
  erewrite get_put_other; [done|done| |].
  - intros r ->. apply Hq'. rewrite (Hleaf _ _ _ _ Hg Hl Ho). by rewrite app_nil_r.
  - intros r ->. apply Hq'. rewrite (Hleaf _ _ _ _ Ho Hos Hg). by rewrite app_nil_r.
Qed.
(** [C40] Setting a field by its path changes one value and keeps all types.  For a
    configuration whose fields have different names within each struct, and any
    path and text, [setField] ends without panic; an error changes nothing; and
    if it succeeds the path names a field by its Go names, that field has the
    value that the text parses to, every other value is the one before, and all
    structs, names and types are as they were. *)
Theorem setField_exact cfg path s : distinct cfg = true -> is_struct cfg = true -> path <> [] ->
  match setField ParseFloat cfg path s with
  | Ok cfg' =>
      shape_of cfg' = shape_of cfg /\
      exists q leaf leaf', resolve cfg path = Some q /\ get q cfg = Some leaf /\ setValue ParseFloat leaf s = Ok leaf' /\
        get q cfg' = Some leaf' /\
        forall q' other, get q' cfg = Some other -> is_struct other = false -> q' <> q -> get q' cfg' = Some other
  | Err _ => True
  | _ => False
  end.
Proof. apply set_field_exact. Qed.
End Fields.

(** ** Lemmas: the file, line by line *)

Section File.
Context {F : Type} (float_one : F) (ParseFloat : string -> option F).
Implicit Type cfg : field_value F.
Implicit Type st : YamlState (F := F).

Notation yaml := (yaml_line ParseFloat).

Lemma yaml_keyed n k u st : good_key k ->
  yaml st (spaces n +:+ k +:+ ":" +:+ u) =
  let value := TrimSpace (drop_space_right u) in
  let path := adjust_path (Z.of_nat n) (ym_last st) (ym_path st) in
  if bool_decide (value = ""%string) then mkYaml (ym_cfg st) (path ++ [k]) (Z.of_nat n)
  else match setField ParseFloat (ym_cfg st) (path ++ [k]) value with
       | Ok cfg => mkYaml cfg path (Z.of_nat n)
       | _ => mkYaml (ym_cfg st) path (ym_last st)
       end.
Proof.
  intros Hk. unfold yaml_line. rewrite TrimSpace_line by done. rewrite bool_decide_eq_false_2.
  - rewrite not_comment, cut_key by first [exact Hk|exact (proj2 Hk)]. rewrite indent_spaces by done. by rewrite (TrimSpace_key k Hk).
  - destruct (good_key_cons k Hk) as (c & r & -> & _). done.
Qed.

Lemma yaml_section n k st : good_key k ->
  yaml st (section_line n k) = mkYaml (ym_cfg st) (adjust_path (Z.of_nat n) (ym_last st) (ym_path st) ++ [k]) (Z.of_nat n).
Proof. intros Hk. unfold section_line. rewrite <- (app_str_nil ":"%string). by rewrite yaml_keyed. Qed.

Lemma pair_keyed n k v : pair_line n k v = (spaces n +:+ k +:+ ":" +:+ (" " +:+ v))%string.
Proof. unfold pair_line, section_line. by rewrite !str_app_assoc. Qed.

Lemma yaml_pair n k v st : good_key k -> value_text v ->
  yaml st (pair_line n k v) =
  let path := adjust_path (Z.of_nat n) (ym_last st) (ym_path st) in
  match setField ParseFloat (ym_cfg st) (path ++ [k]) v with
  | Ok cfg => mkYaml cfg path (Z.of_nat n)
  | _ => mkYaml (ym_cfg st) path (ym_last st)
  end.
Proof.
  intros Hk Hv. rewrite pair_keyed, yaml_keyed, value_right, TrimSpace_blank by done. destruct Hv as [Hne Hv]. rewrite Hv. cbv zeta.
  by rewrite bool_decide_eq_false_2.
Qed.

(** A configuration whose fields are sections: a single name sets nothing. *)
Definition only_sections cfg : bool := match cfg with F_struct _ l => forallb (fun f => is_struct f.2) l | _ => false end.

Lemma single_name cfg k v c : only_sections cfg = true -> setField ParseFloat cfg [k] v <> Ok c.
Proof.
  destruct cfg as [| | | | | | |t l]; try done. cbn [only_sections]. intros Hs. unfold setField. cbn [set_field_from].
  destruct (findField l k) as [[i w]|] eqn:E; [|done]. destruct (find_index_lookup _ _ _ _ E) as (n & Hi & _).
  rewrite forallb_forall in Hs. assert (is_struct w = true) as Hw; [|by destruct w].
  apply (Hs (n, w)). apply list_elem_of_In. by eapply list_elem_of_lookup_2.
Qed.

Lemma sections_shape cfg cfg' : shape_of cfg = shape_of cfg' -> only_sections cfg = only_sections cfg'.
Proof.
  destruct cfg as [| | | | | | |t l], cfg' as [| | | | | | |t' l']; try done. simpl. intros [= _ E]. revert l' E.
  induction l as [|[n v] l IH]; intros [|[n' v'] l']; try done. simpl. intros [= En Ev El]. rewrite (IH l' El). f_equal.
  destruct v, v'; try done; simpl in Ev; congruence.
Qed.

(** The value that a section of the file sets: the first one that can be set. *)
Fixpoint first_set cfg (section : string) (kvs : list (string * string)) : field_value F :=
  match kvs with
  | [] => cfg
  | (k, v) :: kvs => match setField ParseFloat cfg [section; k] v with Ok c => c | _ => first_set cfg section kvs end
  end.

(** Once a value is set, the path is empty for the rest of the section. *)
Lemma rest_ignored cfg last kvs : only_sections cfg = true -> 2 <= last -> Forall (fun kv => good_key kv.1 /\ value_text kv.2) kvs ->
  ym_cfg (foldl yaml (mkYaml cfg [] last) (map (fun kv => pair_line 2 kv.1 kv.2) kvs)) = cfg.
Proof.
  intros Hs Hl. induction kvs as [|[k v] kvs IH]; intros Hf; [done|]. inversion Hf as [|? ? [Hk Hv] Hf']; subst. cbn [map foldl fst snd].
  rewrite yaml_pair by done. cbn [ym_cfg ym_path ym_last adjust_path app]. pose proof (fun c => single_name cfg k v c Hs) as Hn.
  destruct (setField ParseFloat cfg [k] v) as [c| | |]; [by destruct (Hn c)|..]; by apply IH.
Qed.

(** [Fact] The loader reads one value of a section.  A section of the file -- its
    name on a line, its values below it, each indented by two -- sets the first
    of its values that can be set; the indentation of the following lines, equal
    to the one before, is taken for the end of the section, and they are skipped
    without a word.  This is so for every list of keys and values, whatever
    their number. *)
Theorem section_keeps_first cfg section kvs : distinct cfg = true -> only_sections cfg = true -> good_key section ->
  Forall (fun kv => good_key kv.1 /\ value_text kv.2) kvs ->
  ym_cfg (foldl yaml (mkYaml cfg [] 0) (section_line 0 section :: map (fun kv => pair_line 2 kv.1 kv.2) kvs)) = first_set cfg section kvs.
Proof.
  intros Hd Hs Hk Hf. cbn [foldl]. rewrite yaml_section by done. cbn [ym_cfg ym_path ym_last adjust_path app]. change (Z.of_nat 0) with 0.
  induction kvs as [|[k v] kvs IH]; [done|]. inversion Hf as [|? ? [Hk' Hv] Hf']; subst. cbn [map foldl first_set fst snd].
  rewrite yaml_pair by done. cbn [ym_cfg ym_path ym_last app]. change (adjust_path (Z.of_nat 2) 0 [section]) with [section]. cbn [app].
  destruct (setField ParseFloat cfg [section; k] v) as [c| | |] eqn:E; [|by apply IH..].
  destruct kvs as [|[k2 v2] kvs]; [done|]. inversion Hf' as [|? ? [Hk2 Hv2] Hf'']; subst. cbn [map foldl fst snd].
  assert (only_sections c = true) as Hc.
  { unfold setField in E. destruct (set_field_inv _ [section; k] _ cfg v c Hd ltac:(discriminate) E) as (q & leaf & leaf' & _ & Hg & Hset & ->).
    rewrite <- Hs. apply sections_shape. eapply put_shape; [exact Hg|]. by eapply setValue_shape. }
  rewrite yaml_pair by done. cbn [ym_cfg ym_path ym_last app]. change (adjust_path (Z.of_nat 2) (Z.of_nat 2) [section]) with (@nil string). cbn [app].
  pose proof (fun c2 => single_name c k2 v2 c2 Hc) as Hn. destruct (setField ParseFloat c [k2] v2) as [c2| | |]; [by destruct (Hn c2)|..]; by apply rest_ignored.
Qed.

(** ** Lemmas: what is written and read again *)

Definition line_of (l : string) : Prop :=
  l = ""%string \/ (exists c, l = String "#" c) \/ exists m k u, good_key k /\ l = (spaces (2 * m) +:+ k +:+ ":" +:+ u)%string.

Lemma line_blank : line_of "".
Proof. by left. Qed.
Lemma line_comment c : line_of (String "#" c).
Proof. right; left. by exists c. Qed.
Lemma line_section m k : good_key k -> line_of (section_line (2 * m) k).
Proof. intros Hk. right; right. exists m, k, ""%string. by rewrite app_str_nil. Qed.
Lemma line_pair m k v : good_key k -> line_of (pair_line (2 * m) k v).
Proof. intros Hk. right; right. exists m, k, (" " +:+ v)%string. by rewrite pair_keyed. Qed.

Notation default := (shape_of (DefaultConfig float_one)).

(** The sections that are open are no deeper than the last indentation. *)
Definition reading st : Prop :=
  shape_of (ym_cfg st) = default /\ exists a, ym_last st = 2 * a /\ 0 <= a /\ Z.of_nat (length (ym_path st)) <= a + 1.

Lemma default_distinct cfg : shape_of cfg = default -> distinct cfg = true /\ is_struct cfg = true /\ only_sections cfg = true.
Proof.
  intros E. assert (forall v v' : field_value F, shape_of v = shape_of v' -> distinct v = distinct v') as Hd.
  { fix IH 1. intros [| | | | | | |t l] v' Ev; destruct v' as [| | | | | | |t' l']; try done. simpl in Ev. injection Ev as _ El. cbn [distinct].
    assert (map (fun f : string * string * field_value F => f.1.1) l = map (fun f => f.1.1) l' /\
            forallb (fun f => distinct f.2) l = forallb (fun f => distinct f.2) l') as [-> ->]; [|done].
    revert l' El. induction l as [|[n v] l IHl]; intros [|[n' v'] l'] El; try done. simpl in El. injection El as En Ev El.
    destruct (IHl l' El) as [E1 E2]. simpl. rewrite E1, E2, (IH v v' Ev), En. done. }
  split; [rewrite (Hd _ _ E); by vm_compute|]. rewrite (sections_shape _ _ E). split; [|by vm_compute]. by destruct cfg.
Qed.

Lemma set_keeps_shape cfg path s c : shape_of cfg = default -> path <> [] -> setField ParseFloat cfg path s = Ok c -> shape_of c = default.
Proof.
  intros Hs Hne E. destruct (default_distinct cfg Hs) as (Hd & Hst & _). pose proof (set_field_exact ParseFloat cfg path s Hd Hst Hne) as H.
  rewrite E in H. destruct H as [H _]. by rewrite H.
Qed.

Lemma adjust_length m a path : 0 <= a -> Z.of_nat (length path) <= a + 1 ->
  let p := adjust_path (2 * m) (2 * a) path in
  (m <= a -> Z.of_nat (length p) <= Z.max 0 m) /\ (a < m -> p = path).
Proof.
  intros Ha Hl. destruct path as [|x path]; [by split; [simpl; lia|]|]. cbv zeta. unfold adjust_path. set (l := x :: path) in *.
  destruct (Z.leb_spec (2 * m) (2 * a)) as [Hle|Hgt]; [|by split; [lia|]]. split; [|lia]. intros Hm.
  assert (Z.quot (2 * a - 2 * m) 2 = a - m) as -> by (replace (2 * a - 2 * m) with ((a - m) * 2) by lia; by rewrite Z.quot_mul).
  destruct (Z.leb_spec (Z.of_nat (length l)) (a - m)) as [|Hlt]; [simpl; lia|]. rewrite length_take. lia.
Qed.

Lemma reading_step st l : line_of l -> reading st -> reading (yaml st l).
Proof.
  intros Hl (Hs & a & Ea & Ha & Hp). destruct Hl as [->|[[c ->]|(m & k & u & Hk & ->)]].
  - split; [done|]. by exists a.
  - assert (yaml st (String "#" c) = st) as ->; [|by split; [|exists a]].
    unfold yaml_line, TrimSpace. rewrite drop_space_printable, right_printable by done. rewrite HasPrefix_char, (bool_decide_eq_true_2 ("#"%char = "#"%char)) by done. by rewrite orb_true_r.
  - rewrite yaml_keyed by done. cbv zeta. rewrite Ea. replace (Z.of_nat (2 * m)) with (2 * Z.of_nat m) by lia.
    destruct (adjust_length (Z.of_nat m) a (ym_path st) Ha Hp) as [H1 H2]. set (p := adjust_path _ _ _) in *.
    assert (Z.of_nat (length p) <= Z.of_nat m) as Hm by (destruct (Z.le_gt_cases (Z.of_nat m) a); [specialize (H1 ltac:(done)); lia|rewrite H2 by lia; lia]).
    assert (Z.of_nat (length p) <= a + 1) as Ha' by (destruct (Z.le_gt_cases (Z.of_nat m) a); [lia|by rewrite H2 by lia]).
    destruct (bool_decide _).
    + split; [done|]. exists (Z.of_nat m). simpl. rewrite length_app. simpl. split_and!; lia.
    + destruct (setField _ _ _ _) as [c| | |] eqn:E; [|by split; [|exists a]..].
      split; [by eapply set_keeps_shape; [exact Hs| |exact E]; destruct p|]. exists (Z.of_nat m). simpl. split_and!; lia.
Qed.

(** Lines of other sections leave the secret alone. *)
Definition secret : list string := ["Auth"; "JWTSecret"]%string.

Definition after_auth st : Prop :=
  shape_of (ym_cfg st) = default /\ get secret (ym_cfg st) = Some (F_string "*****") /\
  match ym_path st with [] => True | s :: _ => fold_case s <> "auth"%string end.

Definition other_line (l : string) : Prop :=
  l = ""%string \/ exists n k u, good_key k /\ fold_case k <> "auth"%string /\ l = (spaces n +:+ k +:+ ":" +:+ u)%string.

Lemma other_field cfg s p v c : shape_of cfg = default -> fold_case s <> "auth"%string -> setField ParseFloat cfg (s :: p) v = Ok c ->
  get secret cfg = Some (F_string "*****") -> get secret c = Some (F_string "*****").
Proof.
  intros Hs Hn E Hg. destruct (default_distinct cfg Hs) as (Hd & Hst & _).
  pose proof (set_field_exact ParseFloat cfg (s :: p) v Hd Hst ltac:(discriminate)) as H. rewrite E in H.
  destruct H as (_ & q & leaf & leaf' & Hq & _ & _ & _ & Hframe). apply (Hframe secret _ Hg eq_refl). intros <-.
  destruct cfg as [| | | | | | |t l]; try done. cbn [resolve] in Hq. destruct (findField l s) as [[i w]|] eqn:Ef; [|done].
  unfold findField in Ef. destruct (find_index_lookup _ _ _ _ Ef) as ([n y] & Hi & Ht). rewrite Hi in Hq.
  destruct (resolve w p) as [r|]; [|done]. simpl in Hq. injection Hq as -> _.
  assert ((("Auth", y)%string, shape_of w) ∈ map (fun f : string * string * field_value F => (f.1, shape_of f.2)) l) as Hin.
  { apply list_elem_of_In, in_map_iff. exists (("Auth"%string, y), w). split; [done|]. apply list_elem_of_In. by eapply list_elem_of_lookup_2. }
  simpl in Hs. injection Hs as _ El. setoid_rewrite El in Hin. simpl in Ht.
  assert (y = "auth"%string) as ->.
  { apply list_elem_of_In in Hin. simpl in Hin. repeat destruct Hin as [Hin|Hin]; try done; by injection Hin as <-. }
  apply orb_true_iff in Ht as [Ht|Ht]; apply bool_decide_eq_true in Ht; apply Hn; [by rewrite <- Ht|by subst].
Qed.

Lemma after_step st l : other_line l -> after_auth st -> after_auth (yaml st l).
Proof.
  intros Hl (Hs & Hg & Hp). destruct Hl as [->|(n & k & u & Hk & Hn & ->)]; [done|]. rewrite yaml_keyed by done. cbv zeta.
  set (p := adjust_path _ _ _). assert (match p with [] => True | s :: _ => fold_case s <> "auth"%string end) as Hp'.
  { subst p. unfold adjust_path. destruct (ym_path st) as [|s path]; [done|]. destruct (_ <=? _); [|done]. destruct (_ <=? _); [done|].
    by destruct (_ - _ - 1)%nat. }
  destruct (bool_decide _); [by split_and!; [..|destruct p]|].
  destruct (setField _ _ _ _) as [c| | |] eqn:E; [|done..]. split_and!; [by eapply set_keeps_shape; [exact Hs| |exact E]; destruct p| |done].
  destruct p as [|s p]; simpl in E; by eapply other_field.
Qed.

Ltac written_lines :=
  repeat match goal with
  | |- Forall _ (_ ++ _) => apply Forall_app; split
  | |- Forall _ (when ?b _) => destruct b; simpl when
  | |- Forall _ (_ :: _) => constructor
  | |- Forall _ [] => constructor
  end.

Lemma lines_before_ok cfg : Forall line_of (lines_before_auth cfg).
Proof.
  unfold lines_before_auth. written_lines;
    first [apply line_blank|apply line_comment|apply (line_section 0); by split|apply (line_section 1); by split
          |apply (line_pair 1); by split|apply (line_pair 2); by split].
Qed.

Lemma lines_after_ok cfg : Forall other_line (tail (lines_after_auth cfg)).
Proof.
  assert (forall n k, good_key k -> fold_case k <> "auth"%string -> other_line (section_line n k)) as Hs.
  { intros n k Hk Hn. right. exists n, k, ""%string. by rewrite app_str_nil. }
  assert (forall n k v, good_key k -> fold_case k <> "auth"%string -> other_line (pair_line n k v)) as Hp.
  { intros n k v Hk Hn. right. exists n, k, (" " +:+ v)%string. by rewrite pair_keyed. }
  unfold lines_after_auth. simpl tail. written_lines; first [by left|apply Hs; [by split|done]|apply Hp; [by split|done]].
Qed.

Lemma fold_lines (I : YamlState (F := F) -> Prop) (P : string -> Prop) ls st :
  (forall st l, P l -> I st -> I (yaml st l)) -> Forall P ls -> I st -> I (foldl yaml st ls).
Proof. intros Hstep Hf. revert st. induction Hf as [|l ls Hl Hf IH]; intros st Hi; [done|]. apply IH. by apply Hstep. Qed.

(** The section of the secret, from whatever has been read before, and the line
    after it, which ends the section for the loader. *)
Lemma read_auth st : reading st ->
  after_auth (yaml (yaml (yaml st (section_line 0 "auth")) (pair_line 2 "jwt_secret" "*****")) (pair_line 2 "access_token_ttl" (formatDuration A_other))).
Proof.
  intros (Hs & a & Ea & Ha & Hp). rewrite yaml_section by (by split). destruct (adjust_length 0 a (ym_path st) Ha Hp) as [H _]. rewrite Ea.
  assert (adjust_path (Z.of_nat 0) (2 * a) (ym_path st) = []) as ->.
  { specialize (H Ha). change (Z.of_nat 0) with (2 * 0). destruct (adjust_path _ _ _); [done|]. simpl in H. lia. }
  rewrite (yaml_pair 2 "jwt_secret") by (by split). cbn [ym_cfg ym_path ym_last app]. change (adjust_path (Z.of_nat 2) (Z.of_nat 0) ["auth"%string]) with ["auth"%string].
  cbn [app]. destruct (ym_cfg st) as [| | | | | | |t l] eqn:Ec; try done.
  assert (exists c, setField ParseFloat (F_struct t l) ["auth"; "jwt_secret"]%string "*****" = Ok c /\ get secret c = Some (F_string "*****")) as (c & E & Hg).
  { simpl in Hs. injection Hs as _ El. do 4 (destruct l as [|[[? ?] ?] l]; [done|]). injection El as -> -> _ -> -> _ -> -> _ -> -> Hv _.
    destruct f2 as [| | | | | | |t2 l2]; try done. simpl in Hv. injection Hv as _ Hv. destruct l2 as [|[[? ?] ?] l2]; [done|].
    injection Hv as -> -> Hf _. destruct f2; try done. eexists. split; [by vm_compute|]. done. }
  rewrite E. assert (shape_of c = default) as Hc by (eapply set_keeps_shape; [exact Hs| |exact E]; done).
  rewrite (yaml_pair 2 "access_token_ttl") by (split; first [done|by vm_compute]). cbn [ym_cfg ym_path ym_last].
  change (adjust_path (Z.of_nat 2) (Z.of_nat 2) ["auth"%string]) with (@nil string). cbn [app].
  destruct (default_distinct c Hc) as (_ & _ & Ho). pose proof (fun v c' => single_name c "access_token_ttl" v c' Ho) as Hn.
  destruct (setField ParseFloat c ["access_token_ttl"%string] _) as [c'| | |] eqn:E'; [by destruct (Hn _ _ E')|by split_and!..].
Qed.

Lemma lines_after_split cfg :
  lines_after_auth cfg = pair_line 2 "access_token_ttl" (formatDuration A_other) :: tail (lines_after_auth cfg).
Proof. done. Qed.

Lemma reading_start : reading (mkYaml (DefaultConfig float_one) [] 0).
Proof. split; [done|]. exists 0. by split_and!. Qed.

Lemma read_lines cfg : after_auth (foldl yaml (mkYaml (DefaultConfig float_one) [] 0) (marshal_lines cfg)).
Proof.
  unfold marshal_lines. rewrite lines_after_split. generalize (lines_after_ok cfg). generalize (tail (lines_after_auth cfg)). intros after Ha.
  generalize (lines_before_ok cfg). generalize (lines_before_auth cfg). intros before Hb. rewrite !foldl_app. cbn [foldl].
  apply (fold_lines after_auth other_line); [intros; by apply after_step|exact Ha|]. apply read_auth.
  apply (fold_lines reading line_of); [intros; by apply reading_step|exact Hb|apply reading_start].
Qed.

Lemma marshal_nonempty cfg : marshal_lines cfg <> [].
Proof. unfold marshal_lines. intros E. apply (f_equal length) in E. rewrite !length_app in E. simpl in E. lia. Qed.

Lemma read_written cfg : Forall (no_sep newline) (marshal_lines cfg) ->
  after_auth (foldl yaml (mkYaml (DefaultConfig float_one) [] 0) (split_char newline (marshalYAML cfg))).
Proof.
  intros Hn. unfold marshalYAML. rewrite split_join; [apply read_lines|apply marshal_nonempty|exact Hn].
Qed.

(** ** Correctness *)

(** The variables of the environment that the loader looks at. *)
Definition names_variable (e : string) : bool :=
  match cut_char "="%char e with Some (key, _) => HasPrefix key env_prefix | None => false end.

Lemma env_ignored cfg environ : Forall (fun e => names_variable e = false) environ -> loadFromEnv ParseFloat cfg environ = Ok cfg.
Proof.
  intros Hf. unfold loadFromEnv. induction Hf as [|e environ He Hf IH]; [done|]. cbn [foldM]. unfold load_variable, names_variable in *.
  destruct (cut_char _ e) as [[k v]|]; [rewrite He|]; exact IH.
Qed.

(** [Fact] A configuration that is saved cannot be used.  Whatever the configuration
    -- so long as no text in it holds a line feed -- the file that [Save] writes
    is loaded without an error, and the secret of the result is the mask that was
    written in its place, which validation refuses: a server that was set up by
    the wizard does not start again without a variable for its secret. *)
Theorem saved_configuration_refused cfg path environ : path <> ""%string -> Forall (no_sep newline) (marshal_lines cfg) ->
  Forall (fun e => names_variable e = false) environ ->
  exists cfg', Load float_one ParseFloat path (Contents (marshalYAML cfg)) environ = Ok cfg' /\
    shape_of cfg' = default /\ str secret cfg' = "*****"%string /\
    Errorf "auth.jwt_secret must be at least 32 characters" ∈ Validate cfg'.
Proof.
  intros Hp Hn He. destruct (read_written cfg Hn) as (Hs & Hg & _). eexists. split.
  { unfold Load. rewrite bool_decide_eq_false_2 by done. unfold mbind, Res_bind. rewrite env_ignored by done. reflexivity. }
  unfold unmarshalYAML. set (c := ym_cfg _) in *. assert (str secret c = "*****"%string) as Hstr by (unfold str; by rewrite Hg). split_and!; [done..|].
  unfold Validate. repeat (apply elem_of_app; first [by left; unfold check, len_of; fold secret; rewrite Hstr; left|right]).
Qed.

(** *** The environment *)

(** The paths of the values, by the names of the fields. *)
Fixpoint leaves cfg : list (list string) :=
  match cfg with
  | F_struct _ l => flat_map (fun f => map (cons f.1.1) (leaves f.2)) l
  | _ => [[]]
  end.

Lemma resolve_shape path : forall cfg cfg', shape_of cfg = shape_of cfg' -> resolve cfg path = resolve cfg' path.
Proof.
  induction path as [|name rest IH]; intros cfg cfg' E; [done|]. destruct cfg as [| | | | | | |t l], cfg' as [| | | | | | |t' l']; try done.
  simpl in E. injection E as _ El. cbn [resolve]. unfold findField.
  revert l' El. induction l as [|[n v] l IHl]; intros [|[n' v'] l'] El; try done. simpl in El. injection El as En Ev El. subst n'. simpl.
  destruct (EqualFold n.1 name || _); [simpl; by rewrite (IH v v' Ev)|]. specialize (IHl l' El).
  destruct (find_index _ l) as [[i w]|], (find_index _ l') as [[j w']|]; try done; simpl in IHl |- *; exact IHl.
Qed.

Lemma yaml_shape st l : shape_of (ym_cfg st) = default -> shape_of (ym_cfg (yaml st l)) = default.
Proof.
  intros Hs. unfold yaml_line. destruct (_ || _); [done|]. destruct (cut_char _ _) as [[k v]|]; [|done]. cbv zeta.
  destruct (bool_decide _); [done|]. destruct (setField _ _ _ _) as [c| | |] eqn:E; [|done..].
  eapply set_keeps_shape; [exact Hs| |exact E]. by destruct (adjust_path _ _ _).
Qed.

Lemma split_nonempty sep t : split_char sep t <> [].
Proof. destruct (split_char_cons sep t) as (w & ws & ->). done. Qed.

Lemma set_unknown cfg path v : shape_of cfg = default -> path <> [] -> resolve (DefaultConfig float_one) path = None ->
  exists e, setField ParseFloat cfg path v = Err e.
Proof.
  intros Hs Hne Hr. destruct (default_distinct cfg Hs) as (Hd & Hst & _). pose proof (set_field_exact ParseFloat cfg path v Hd Hst Hne) as H.
  destruct (setField ParseFloat cfg path v) as [c|e| |]; try done; [|by exists e]. destruct H as (_ & q & _ & _ & Hq & _).
  by rewrite (resolve_shape path cfg (DefaultConfig float_one) Hs), Hr in Hq.
Qed.

Lemma variable_cases cfg e : shape_of cfg = default ->
  match load_variable ParseFloat cfg e with Ok c => shape_of c = default | Err _ => True | _ => False end.
Proof.
  intros Hs. unfold load_variable. destruct (cut_char _ e) as [[k v]|]; [|done]. destruct (negb _); [done|]. cbv zeta.
  set (path := split_char _ _). assert (path <> []) as Hne by apply split_nonempty. destruct (default_distinct cfg Hs) as (Hd & Hst & _).
  pose proof (set_field_exact ParseFloat cfg path v Hd Hst Hne) as H. destruct (setField ParseFloat cfg path v) as [c|e'| |]; try done.
  destruct H as [H _]. by rewrite H.
Qed.

(** A variable that names no field ends the loading, wherever it stands. *)
Lemma unknown_variable environ key v : resolve (DefaultConfig float_one) (split_char "_"%char (ToLower (TrimPrefix key env_prefix))) = None ->
  HasPrefix key env_prefix = true -> forall e cfg, cut_char "="%char e = Some (key, v) -> e ∈ environ -> shape_of cfg = default ->
  exists err, loadFromEnv ParseFloat cfg environ = Err err.
Proof.
  intros Hr Hk e cfg Ee He. revert cfg. unfold loadFromEnv. induction environ as [|x environ IH]; intros cfg Hs; [by apply elem_of_nil in He|].
  cbn [foldM]. unfold mbind, Res_bind. apply elem_of_cons in He as [<-|He].
  - unfold load_variable. rewrite Ee, Hk. cbn [negb]. cbv zeta.
    destruct (set_unknown cfg _ v Hs (split_nonempty _ _) Hr) as [err ->]. by eexists.
  - pose proof (variable_cases cfg x Hs) as Hx. destruct (load_variable _ _ _) as [c|err| |]; try done; [|by eexists]. by apply IH.
Qed.

(** Variables that the documentation and the deployment files tell to set. *)
Definition documented : list string :=
  ["VAULTDRIFT_AUTH_JWT_SECRET"; "VAULTDRIFT_AUTH_ACCESS_TOKEN_TTL"; "VAULTDRIFT_AUTH_REFRESH_TOKEN_TTL"; "VAULTDRIFT_SERVER_BASE_URL";
   "VAULTDRIFT_STORAGE_LOCAL_PATH"; "VAULTDRIFT_STORAGE_S3_ACCESS_KEY"; "VAULTDRIFT_STORAGE_S3_SECRET_KEY"; "VAULTDRIFT_STORAGE_S3_USE_PATH_STYLE";
   "VAULTDRIFT_CONFIG"; "VAULTDRIFT_DATA"]%string.

(** [Fact] What the environment reaches.  A key is cut at every underscore, so a field
    is reached by its Go name and never by a name of several words: every value
    of the configuration has a variable -- the names of the fields joined by
    underscores, in any case -- but each of the documented variables above names
    no field, and a single one of them in the environment, with any value, makes
    loading fail, whatever the file holds and the other variables say. *)
Theorem environment_reaches :
  Forall (fun q => resolve (DefaultConfig float_one) (split_char "_"%char (ToLower (join_char "_"%char q))) = Some q) (leaves (DefaultConfig float_one)) /\
  forall name v environ path file, name ∈ documented -> (name +:+ "=" +:+ v)%string ∈ environ ->
    exists err, Load float_one ParseFloat path file environ = Err err.
Proof.
  split; [apply (bool_decide_unpack _); by vm_compute|]. intros name v environ path file Hname He. unfold Load, mbind, Res_bind.
  assert (forall cfg, shape_of cfg = default -> exists err, loadFromEnv ParseFloat cfg environ = Err err) as Henv.
  { intros cfg Hs. apply (unknown_variable environ name v) with (e := (name +:+ "=" +:+ v)%string) (cfg := cfg); [| | |done|done].
    all: unfold documented in Hname; repeat (apply elem_of_cons in Hname as [->|Hname]; [by vm_compute|]); by apply elem_of_nil in Hname. }
  assert (forall data, shape_of (unmarshalYAML ParseFloat data (DefaultConfig float_one)) = default) as Hfile.
  { intros data. unfold unmarshalYAML. apply (fold_lines (fun st => shape_of (ym_cfg st) = default) (fun _ => True)); [intros; by apply yaml_shape| |done].
    by apply Forall_true. }
  destruct (bool_decide (path = ""%string)); [|destruct file as [|e|data]; [|by eexists|]].
  - destruct (Henv (DefaultConfig float_one) eq_refl) as [err ->]. by eexists.
  - destruct (Henv (DefaultConfig float_one) eq_refl) as [err ->]. by eexists.
  - destruct (Henv _ (Hfile data)) as [err ->]. by eexists.
Qed.
End File.

Section Validation.
Context {F : Type} (float_one : F).
Implicit Type cfg : field_value F.

(** What a configuration has to satisfy. *)
Definition port_ok (n : Z) : Prop := 1 <= n <= 65535.

Record valid_config cfg : Prop := {
  vc_port : port_ok (int ["Server"; "Port"]%string cfg);
  vc_url : exists rest, str ["Server"; "BaseURL"]%string cfg = ("http://" +:+ rest)%string \/
                        str ["Server"; "BaseURL"]%string cfg = ("https://" +:+ rest)%string;
  vc_tls : flag ["Server"; "TLS"; "Enabled"]%string cfg = true -> flag ["Server"; "TLS"; "AutoCert"]%string cfg = false ->
    str ["Server"; "TLS"; "CertFile"]%string cfg <> ""%string /\ str ["Server"; "TLS"; "KeyFile"]%string cfg <> ""%string;
  vc_storage : (str ["Storage"; "Backend"]%string cfg = "local"%string /\ str ["Storage"; "Local"; "DataDir"]%string cfg <> ""%string) \/
    (str ["Storage"; "Backend"]%string cfg = "s3"%string /\ str ["Storage"; "S3"; "Bucket"]%string cfg <> ""%string /\
     str ["Storage"; "S3"; "Region"]%string cfg <> ""%string);
  vc_database : str ["Database"; "Path"]%string cfg <> ""%string;
  vc_auth : 32 <= Z.of_nat (len (str ["Auth"; "JWTSecret"]%string cfg)) /\ 0 < int ["Auth"; "AccessTokenTTL"]%string cfg /\
    0 < int ["Auth"; "RefreshTokenTTL"]%string cfg /\ 1 <= int ["Auth"; "MaxLoginAttempts"]%string cfg;
  vc_sync : 1024 <= int ["Sync"; "ChunkSizeMin"]%string cfg <= int ["Sync"; "ChunkSizeAvg"]%string cfg /\
    int ["Sync"; "ChunkSizeAvg"]%string cfg <= int ["Sync"; "ChunkSizeMax"]%string cfg /\ 1 <= int ["Sync"; "MaxConcurrentTransfers"]%string cfg;
  vc_encryption : 1 <= int ["Encryption"; "Argon2Time"]%string cfg /\ 8192 <= int ["Encryption"; "Argon2Memory"]%string cfg /\
    1 <= int ["Encryption"; "Argon2Threads"]%string cfg;
  vc_sharing : 1 <= int ["Sharing"; "DefaultExpiryDays"]%string cfg <= int ["Sharing"; "MaxExpiryDays"]%string cfg;
  vc_users : 0 <= int ["Users"; "DefaultQuota"]%string cfg /\ 0 <= int ["Users"; "MaxQuota"]%string cfg /\
    (0 < int ["Users"; "MaxQuota"]%string cfg -> int ["Users"; "DefaultQuota"]%string cfg <= int ["Users"; "MaxQuota"]%string cfg);
  vc_smtp : flag ["SMTP"; "Enabled"]%string cfg = true ->
    str ["SMTP"; "Host"]%string cfg <> ""%string /\ port_ok (int ["SMTP"; "Port"]%string cfg) /\ str ["SMTP"; "From"]%string cfg <> ""%string;
  vc_logging : str ["Logging"; "Level"]%string cfg ∈ ["debug"; "info"; "warn"; "error"]%string /\
    str ["Logging"; "Format"]%string cfg ∈ ["json"; "text"]%string
}.

Lemma check_none b msg : check b msg = [] <-> b = false.
Proof. by destruct b. Qed.

Lemma check_app b msg l : check b msg ++ l = [] <-> b = false /\ l = [].
Proof. destruct b; naive_solver. Qed.

Lemma prefix_exists t p : HasPrefix t p = true <-> exists rest, t = (p +:+ rest)%string.
Proof. apply prefix_spec. Qed.

Lemma andb_imp a b : a && b = false <-> (a = true -> b = false).
Proof. destruct a, b; naive_solver. Qed.

Ltac bools H :=
  rewrite ?andb_imp, ?andb_true_iff, ?orb_false_iff, ?negb_true_iff, ?negb_false_iff, ?bool_decide_eq_true, ?bool_decide_eq_false,
    ?Z.ltb_lt, ?Z.ltb_ge, ?Z.leb_gt in H.

Lemma url_ok url : negb (HasPrefix url "http://") && negb (HasPrefix url "https://") = false <->
  exists rest, url = ("http://" +:+ rest)%string \/ url = ("https://" +:+ rest)%string.
Proof.
  rewrite andb_imp, negb_true_iff, negb_false_iff, prefix_exists. destruct (HasPrefix url "http://") eqn:E.
  - apply prefix_exists in E as [r E]. split; [intros _; exists r; by left|done].
  - split; [intros H; destruct (H eq_refl) as [r Hr]; exists r; by right|]. intros [r [Hr|Hr]] _; [|by exists r].
    assert (HasPrefix url "http://" = true) by (apply prefix_exists; by exists r). congruence.
Qed.

Lemma valid_none cfg : Validate cfg = [] -> valid_config cfg.
Proof.
  unfold Validate. cbv zeta. unfold unset, len_of. intros H. repeat (apply check_app in H as [? H]). apply check_none in H.
  repeat match goal with
  | H : negb (HasPrefix _ _) && _ = false |- _ => apply url_ok in H
  | H : _ = false |- _ => progress bools H
  end.
  constructor; unfold port_ok in *; try lia; try tauto.
  destruct (decide (str ["Storage"; "Backend"]%string cfg = "local"%string)); [left|right]; tauto.
Qed.

Lemma none_valid cfg : valid_config cfg -> Validate cfg = [].
Proof.
  intros [[Hp1 Hp2] Hurl Htls Hst Hdb (Ha1 & Ha2 & Ha3 & Ha4) ([Hs1 Hs2] & Hs3 & Hs4) (He1 & He2 & He3) [Hx1 Hx2] (Hu1 & Hu2 & Hu3) Hsm [Hl1 Hl2]].
  unfold port_ok in *. unfold Validate. cbv zeta. unfold unset, len_of. repeat (apply check_app; split). 31: apply check_none.
  3: by apply url_ok. 2: { apply bool_decide_eq_false. destruct Hurl as [r [E|E]]; by rewrite E. }
  all: rewrite ?andb_imp, ?andb_true_iff, ?orb_false_iff, ?negb_true_iff, ?negb_false_iff, ?bool_decide_eq_true, ?bool_decide_eq_false,
    ?Z.ltb_lt, ?Z.ltb_ge, ?Z.leb_gt.
  all: try lia; try tauto.
  all: intros E; destruct Hst as [[E' ?]|(E' & ? & ?)]; rewrite E' in E; done.
Qed.

(** [Fact] Validation is exact: it reports nothing if and only if the configuration
    satisfies the specification above -- ports in range, an http address, files
    for TLS, a known storage with its settings, a secret of 32 bytes, ordered
    chunk sizes, expiries and quotas.  The default configuration fails it in
    exactly two ways: it has no certificate and no secret. *)
Theorem Validate_exact cfg :
  (Validate cfg = [] <-> valid_config cfg) /\
  Validate (DefaultConfig float_one) =
    [Errorf "server.tls.cert_file and server.tls.key_file are required when auto_cert is disabled";
     Errorf "auth.jwt_secret must be at least 32 characters"].
Proof. split; [split; [apply valid_none|apply none_valid]|by vm_compute]. Qed.
End Validation.

(** ** Durations *)

Fixpoint all_digits (s : string) : bool :=
  match s with String c r => bool_decide (is_Some (digit c)) && all_digits r | ""%string => true end.

Lemma pretty_char_digit n : (n < 10)%N -> digit (pretty_N_char n) = Some (Z.of_N n).
Proof. intros Hn. destruct n as [|p]; [done|]. do 4 (try destruct p as [p|p|]); try done; lia. Qed.

Lemma pretty_go_parse x s : parse_digits 0 (pretty_N_go x s) = parse_digits (Z.of_N x) s /\ (all_digits s = true -> all_digits (pretty_N_go x s) = true).
Proof.
  revert s. induction (N.lt_wf_0 x) as [x _ IH]; intros s. destruct (decide (x = 0)%N) as [->|Hx]; [by rewrite pretty_N_go_0|].
  rewrite pretty_N_go_step by lia. destruct (IH (x / 10)%N ltac:(apply N.div_lt; lia) (String (pretty_N_char (x mod 10)) s)) as [IH1 IH2].
  pose proof (pretty_char_digit (x mod 10) ltac:(by apply N.mod_lt)) as Hd. split.
  - rewrite IH1. cbn [parse_digits]. rewrite Hd. f_equal. rewrite N2Z.inj_div, N2Z.inj_mod. pose proof (Z.div_mod (Z.of_N x) 10). lia.
  - intros Hs. apply IH2. cbn [all_digits]. rewrite Hd. by rewrite bool_decide_eq_true_2.
Qed.

(** A number that is not negative, printed. *)
Lemma pretty_number n : 0 <= n -> all_digits (pretty n) = true /\ pretty n <> ""%string /\ parse_digits 0 (pretty n) = Some n.
Proof.
  intros Hn. destruct n as [|p|p]; [done| |lia]. change (pretty (Z.pos p)) with (pretty_N_go (N.pos p) ""). destruct (pretty_go_parse (N.pos p) "") as [E Hd].
  specialize (Hd eq_refl). split_and!; [done| |by rewrite E].
  intros E0. rewrite E0 in E. cbn in E. injection E. lia.
Qed.

Lemma ParseInt_number s n : all_digits s = true -> s <> ""%string -> parse_digits 0 s = Some n -> in_i64 n -> ParseInt s = Some n.
Proof.
  intros Hs Hne Hp Hr. destruct s as [|c r]; [done|]. unfold ParseInt. cbn [all_digits] in Hs. apply andb_true_iff in Hs as [Hc _].
  apply bool_decide_eq_true in Hc. rewrite !bool_decide_eq_false_2 by (intros ->; by destruct Hc). rewrite Hp.
  unfold in_i64b. unfold in_i64 in Hr. destruct (Z.leb_spec (- 2 ^ 63) n); [|lia]. destruct (Z.ltb_spec n (2 ^ 63)); [done|lia].
Qed.

Lemma duration_digits ds : forall num total rest, all_digits ds = true ->
  parse_duration_from num total (ds +:+ rest) = parse_duration_from (num +:+ ds) total rest.
Proof.
  induction ds as [|c ds IH]; intros num total rest; [by rewrite app_str_nil|]. cbn [all_digits]. intros Hd. apply andb_true_iff in Hd as [Hc Hd].
  apply bool_decide_eq_true in Hc as [d Hc]. rewrite str_app_cons. cbn [parse_duration_from]. rewrite Hc, IH by done. f_equal. by rewrite str_app_assoc.
Qed.

Definition unit_of (c : ascii) : option Z :=
  if bool_decide (c = "s"%char) then Some Second else if bool_decide (c = "m"%char) then Some Minute
  else if bool_decide (c = "h"%char) then Some Hour else if bool_decide (c = "d"%char) then Some (24 * Hour) else None.

Lemma parse_printed n c u : unit_of c = Some u -> 0 < u -> 0 <= n -> n * u < 2 ^ 63 ->
  parseGoDuration (pretty n +:+ String c "") = Some (n * u).
Proof.
  intros Hc Hu Hn Hb. destruct (pretty_number n Hn) as (Hd & Hne & Hp). unfold parseGoDuration. rewrite duration_digits, str_app_nil_l by done.
  cbn [parse_duration_from]. assert (digit c = None) as ->.
  { unfold unit_of in Hc. repeat case_bool_decide; try done; by subst c. }
  fold (unit_of c). rewrite Hc. destruct (pretty n) as [|a r] eqn:E; [done|].
  assert (n <= n * u) as Hnu by nia. assert (in_i64 n) as Hr by (unfold in_i64; lia). rewrite (ParseInt_number _ n Hd Hne Hp Hr). cbn [parse_duration_from].
  rewrite bool_decide_eq_true_2 by done. assert (in_i64 (n * u)) as Hr2 by (unfold in_i64; lia). by rewrite (i64_id (n * u)), Z.add_0_l, i64_id.
Qed.

(** The unit that is printed: the largest of day, hour, minute and second that is
    not above the duration. *)
Definition print_unit (v : Z) : Z :=
  if 24 * Hour <=? v then 24 * Hour else if Hour <=? v then Hour else if Minute <=? v then Minute else Second.

(** [Fact] Printing a duration and reading it rounds down to the unit that is
    printed: for every duration that is not negative, without overflow.  But the
    durations of the configuration are of another type than the one that is
    tested for, and are all written as fifteen minutes. *)
Theorem duration_roundtrip v : 0 <= v < 2 ^ 63 ->
  parseGoDuration (formatDuration (A_int64 v)) = Some (v / print_unit v * print_unit v) /\
  parseGoDuration (formatDuration A_other) = Some (15 * Minute).
Proof.
  intros Hv. split; [|by vm_compute]. unfold formatDuration, print_unit. cbv zeta. rewrite Z.quot_div_nonneg by (unfold Second; lia).
  assert (0 < Second) as Hs by done.
  assert (forall k c, unit_of c = Some (k * Second) -> 0 < k ->
    parseGoDuration (pretty (Z.quot (v / Second) k) +:+ String c "") = Some (v / (k * Second) * (k * Second))) as Hk.
  { intros k c Hc Hk. assert (0 <= v / Second) by (by apply Z.div_pos; lia). rewrite Z.quot_div_nonneg by lia.
    rewrite Z.div_div by lia. rewrite (Z.mul_comm Second k). apply parse_printed; [done|nia|apply Z.div_pos; nia|].
    pose proof (Z.mul_div_le v (k * Second) ltac:(nia)). lia. }
  assert (forall k, (k <=? v / Second) = (k * Second <=? v)) as Hle.
  { intros k. destruct (Z.leb_spec k (v / Second)) as [H|H], (Z.leb_spec (k * Second) v) as [H'|H']; try done.
    - pose proof (Z.mul_div_le v Second Hs). nia.
    - pose proof (Z.div_le_lower_bound v Second k Hs). lia. }
  rewrite !Hle. change (24 * Hour) with (86400 * Second). change Hour with (3600 * Second). change Minute with (60 * Second).
  destruct (_ <=? v); [by apply Hk|]. destruct (_ <=? v); [by apply Hk|]. destruct (_ <=? v); [by apply Hk|].
  specialize (Hk 1 "s"%char eq_refl ltac:(done)). rewrite Z.quot_1_r in Hk. rewrite Z.mul_1_l in Hk. exact Hk.
Qed.

(** ** Witnesses *)

Definition no_float : string -> option nat := fun _ => None.
Definition config0 : field_value nat := DefaultConfig 1%nat.

Lemma setField_witness : exists cfg', setField no_float config0 ["server"; "port"]%string "80" = Ok cfg' /\
  get ["Server"; "Port"]%string cfg' = Some (F_int 80) /\ get ["Server"; "Host"]%string cfg' = Some (F_string "0.0.0.0").
Proof.
  pose proof (setField_exact no_float config0 ["server"; "port"]%string "80" eq_refl eq_refl ltac:(discriminate)) as H.
  destruct (setField no_float config0 ["server"; "port"]%string "80") as [cfg'|e|m|] eqn:E; [|by vm_compute in E..].
  exists cfg'. split; [reflexivity|]. destruct H as (_ & q & leaf & leaf' & Hq & Hg & Hs & Hg' & Hf).
  vm_compute in Hq. injection Hq as <-. vm_compute in Hg. injection Hg as <-. vm_compute in Hs. injection Hs as <-. split; [exact Hg'|].
  apply (Hf ["Server"; "Host"]%string (F_string "0.0.0.0"%string)); [reflexivity|reflexivity|discriminate].
Defined.

Definition server_values : list (string * string) := [("host", "example.org"); ("port", "80")]%string.

Lemma section_witness :
  str ["Server"; "Host"]%string (unmarshalYAML no_float (join_char newline ["server:"; "  host: example.org"; "  port: 80"]%string) config0) = "example.org"%string /\
  int ["Server"; "Port"]%string (unmarshalYAML no_float (join_char newline ["server:"; "  host: example.org"; "  port: 80"]%string) config0) = 8443.
Proof.
  assert (unmarshalYAML no_float (join_char newline ["server:"; "  host: example.org"; "  port: 80"]%string) config0 =
          first_set no_float config0 "server" server_values) as ->.
  { apply (section_keeps_first no_float config0 "server" server_values);
      [reflexivity|reflexivity|by split|repeat constructor; first [discriminate|vm_compute; reflexivity]]. }
  split; vm_compute; reflexivity.
Defined.

(** The wizard with every answer left empty. *)
Definition setup0 : Setup := mkSetup [] [] toy_rand "" [] ∅ [].
Definition configured : field_value nat := match (InteractiveSetup 1%nat setup0).1 with Ok cfg => cfg | _ => config0 end.

Lemma saved_witness :
  sd_files (InteractiveSetup 1%nat setup0).2 !! "data/config.yaml"%string = Some (marshalYAML configured) /\
  (exists cfg', Load 1%nat no_float "data/config.yaml" (Contents (marshalYAML configured)) ["PATH=/bin"]%string = Ok cfg' /\ Validate cfg' <> []).
Proof.
  split; [vm_compute; reflexivity|].
  destruct (saved_configuration_refused 1%nat no_float configured "data/config.yaml" ["PATH=/bin"]%string) as (cfg' & E & _ & _ & Hin).
  - discriminate.
  - assert (forallb (fun l => negb (has_char newline l)) (marshal_lines configured) = true) as Hf by (vm_compute; reflexivity).
    rewrite forallb_forall in Hf. apply Forall_forall. intros l Hl. apply negb_true_iff, Hf. by apply list_elem_of_In.
  - repeat constructor.
  - exists cfg'. split; [exact E|]. intros E0. rewrite E0 in Hin. by apply elem_of_nil in Hin.
Defined.

Lemma duration_witness : formatDuration (A_int64 (3661 * Second)) = "1h"%string /\
  parseGoDuration (formatDuration (A_int64 (3661 * Second))) = Some Hour.
Proof. split; [vm_compute; reflexivity|]. apply (duration_roundtrip (3661 * Second)). unfold Second. lia. Defined.
