(* ===== verification/Federation.v ===== *)
(** * Federation with other servers (internal/federation: types.go, manager.go;
    internal/db/federation.go; internal/server/handlers_federation.go)

    The manager keeps the rows of the peers in memory, as values: of a row in
    memory the code changes only the status and the time of the last contact, and
    it does so through the map.  A request to another server is answered by a
    function of the URL and the request, given at each call.  Operations run one
    after the other; the two halves of joining are separate definitions, so that
    two joins can be interleaved.

    The tables store instants as the driver writes them and scan them back into
    [time.Time], unlike the rest of the package, which parses the text: what the
    driver makes of such a text is the parameter [reread], [None] when it refuses
    to scan it; [sql_before] is its order on these texts. *)

From S2P Require Import Prelude GoStrings GoCrypto Encoding Database Devices Server Middleware.

(** ** crypto/ed25519 *)

Class Ed25519 : Type := {
  ed_keys : bytes -> bytes * bytes;
  ed_sign : bytes -> bytes -> bytes;
  ed_verify : bytes -> bytes -> bytes -> bool;
  ed_public_size : forall seed, length (ed_keys seed).1 = 32%nat;
  ed_private_size : forall seed, length (ed_keys seed).2 = 64%nat;
  ed_verify_sign : forall seed m, ed_verify (ed_keys seed).1 m (ed_sign (ed_keys seed).2 m) = true
}.

(** ** types.go *)

Record FederationConfig := mkFedConfig {
  fc_Enabled : bool; fc_ServerID : string; fc_PublicURL : string; fc_PrivateKey : string; fc_PublicKey : string;
  fc_TrustedPeers : list string; fc_AutoDiscovery : bool
}.

Record FederationMessage := mkFedMessage {
  fm_MsgID : string; fm_From : string; fm_To : string; fm_MsgType : string; fm_Payload : bytes; fm_Signature : bytes; fm_Timestamp : Z
}.

Record PeerAnnouncement := mkAnnouncement {
  pa_ServerID : string; pa_Name : string; pa_PublicURL : string; pa_PublicKey : string; pa_Capabilities : list string;
  pa_Signature : string; pa_Timestamp : Z
}.

Definition DefaultCapabilities : list string := ["file_share"; "user_sync"; "health_check"; "peer_discovery"]%string.

Definition join_comma (l : list string) : string := join_char ","%char l.

Section Keys.
Context `{Ed25519}.

(** The public and the private key, as base64 text. *)
Definition GenerateKeyPair : GoM Rand (string * string) :=
  seed ← wrap "failed to generate key pair" (rand_read 32);
  let '(pub, priv) := ed_keys seed in
  mret (Base64StdEncode pub, Base64StdEncode priv).

Definition SignMessage (privateKeyBase64 : string) (message : bytes) : Res bytes :=
  match Base64StdDecode privateKeyBase64 with
  | None => Err (Errorf "failed to decode private key")
  | Some privateKey =>
      if negb (length privateKey =? 64)%nat then Err (Errorf "invalid private key size") else Ok (ed_sign privateKey message)
  end.

Definition VerifyMessage (publicKeyBase64 : string) (message signature : bytes) : Res unit :=
  match Base64StdDecode publicKeyBase64 with
  | None => Err (Errorf "failed to decode public key")
  | Some publicKey =>
      if negb (length publicKey =? 32)%nat then Err (Errorf "invalid public key size")
      else if negb (ed_verify publicKey message signature) then Err (Errorf "invalid signature")
      else Ok tt
  end.
End Keys.

(** ** db/federation.go *)

Record FederationPeer := mkPeer {
  fp_ID : string; fp_Name : string; fp_PublicURL : string; fp_PublicKey : string; fp_Status : string; fp_LastSeen : Z;
  fp_CreatedAt : Z; fp_Capabilities : string
}.

Record FederationInvite := mkInvite {
  fi_ID : string; fi_FromPeerID : string; fi_Token : string; fi_ExpiresAt : Z; fi_Used : bool; fi_CreatedAt : Z
}.

Record FederatedShare := mkFedShare {
  fs_ID : string; fs_LocalFileID : string; fs_PeerID : string; fs_RemoteUserID : string; fs_Permission : string;
  fs_Token : string; fs_ExpiresAt : Z; fs_CreatedAt : Z
}.

Record FedTables := mkFedTables {
  ft_peers : gmap string FederationPeer; ft_invites : gmap string FederationInvite; ft_shares : gmap string FederatedShare
}.

Definition FedDB : Type := Ext FedTables.

Definition with_peers (m : gmap string FederationPeer) (w : FedDB) : FedDB :=
  with_tab (mkFedTables m (ft_invites (tab w)) (ft_shares (tab w))) w.
Definition with_invites (m : gmap string FederationInvite) (w : FedDB) : FedDB :=
  with_tab (mkFedTables (ft_peers (tab w)) m (ft_shares (tab w))) w.
Definition with_fed_shares (m : gmap string FederatedShare) (w : FedDB) : FedDB :=
  with_tab (mkFedTables (ft_peers (tab w)) (ft_invites (tab w)) m) w.

Definition set_peer_status (status : string) (p : FederationPeer) : FederationPeer :=
  mkPeer (fp_ID p) (fp_Name p) (fp_PublicURL p) (fp_PublicKey p) status (fp_LastSeen p) (fp_CreatedAt p) (fp_Capabilities p).
Definition set_last_seen (t : Z) (p : FederationPeer) : FederationPeer :=
  mkPeer (fp_ID p) (fp_Name p) (fp_PublicURL p) (fp_PublicKey p) (fp_Status p) t (fp_CreatedAt p) (fp_Capabilities p).
Definition set_peer_created (t : Z) (p : FederationPeer) : FederationPeer :=
  mkPeer (fp_ID p) (fp_Name p) (fp_PublicURL p) (fp_PublicKey p) (fp_Status p) (fp_LastSeen p) t (fp_Capabilities p).

(** The unique index on public_url, for the row that replaces [id]. *)
Definition url_taken (id url : string) (m : gmap string FederationPeer) : bool :=
  existsb (fun p => bool_decide (fp_PublicURL p = url)) (rows (delete id m)).

(** INSERT ... ON CONFLICT(id) DO UPDATE: every column but created_at. *)
Definition upsert_peer (p : FederationPeer) (w : FedDB) : error + (Z * FedDB) :=
  let m := ft_peers (tab w) in
  if url_taken (fp_ID p) (fp_PublicURL p) m then inl ErrUnique
  else
    let p' := match m !! fp_ID p with Some old => set_peer_created (fp_CreatedAt old) p | None => p end in
    inr (1, with_peers (<[fp_ID p := p']> m) w).

Definition AddFederationPeer (peer : FederationPeer) : GoM FedDB unit := tab_exec (upsert_peer peer);; mret tt.

Definition ErrNoRows : error := Errorf "sql: no rows in result set".
Definition ErrScan : error := Errorf "sql: Scan error".

Section Tables.
Context (reread : Z -> option Z) (sql_before : Z -> Z -> bool).

Definition scan_peer (p : FederationPeer) : option FederationPeer :=
  seen ← reread (fp_LastSeen p); created ← reread (fp_CreatedAt p); Some (set_peer_created created (set_last_seen seen p)).

(** The rows affected by a statement are not looked at here. *)

(** ORDER BY created_at DESC *)
Definition newer_peer (a b : FederationPeer) : Prop := sql_before (fp_CreatedAt a) (fp_CreatedAt b) = false.

#[export] Instance newer_peer_dec : RelDecision newer_peer.
Proof. intros a b. unfold newer_peer. apply _. Defined.

Definition scanned {A} (r : option A) : GoM FedDB A := match r with Some a => mret a | None => fail ErrScan end.

Definition GetFederationPeers : GoM FedDB (list FederationPeer) :=
  l ← tab_query (fun w =>
        merge_sort newer_peer (filter (fun p => fp_Status p <> "blocked"%string) (rows (ft_peers (tab w)))));
  scanned (mapM scan_peer l).

Definition one_row {A} (q : FedDB -> option A) (scan : A -> option A) : GoM FedDB A :=
  r ← tab_query q;
  match r with None => fail ErrNoRows | Some a => scanned (scan a) end.

Definition GetFederationPeer (peerID : string) : GoM FedDB FederationPeer :=
  one_row (fun w => ft_peers (tab w) !! peerID) scan_peer.

Definition RemoveFederationPeer (peerID : string) : GoM FedDB unit :=
  tab_exec (fun w => inr (1, with_peers (delete peerID (ft_peers (tab w))) w));; mret tt.

Definition UpdateFederationPeerStatus (peerID status : string) : GoM FedDB unit :=
  now ← tab_now;
  tab_exec (fun w => inr (1, with_peers (alter (fun p => set_last_seen now (set_peer_status status p)) peerID (ft_peers (tab w))) w));;
  mret tt.

Definition insert_invite (i : FederationInvite) (w : FedDB) : error + (Z * FedDB) :=
  let m := ft_invites (tab w) in
  if bool_decide (is_Some (m !! fi_ID i)) || existsb (fun j => bool_decide (fi_Token j = fi_Token i)) (rows m) then inl ErrUnique
  else inr (1, with_invites (<[fi_ID i := i]> m) w).

Definition CreateFederationInvite (invite : FederationInvite) : GoM FedDB unit := tab_exec (insert_invite invite);; mret tt.

Definition scan_invite (i : FederationInvite) : option FederationInvite :=
  expires ← reread (fi_ExpiresAt i); created ← reread (fi_CreatedAt i);
  Some (mkInvite (fi_ID i) (fi_FromPeerID i) (fi_Token i) expires (fi_Used i) created).

Definition has_invite_token (token : string) (i : FederationInvite) : Prop := fi_Token i = token.

#[export] Instance has_invite_token_dec token i : Decision (has_invite_token token i).
Proof. unfold has_invite_token. apply _. Defined.

Definition GetFederationInvite (token : string) : GoM FedDB FederationInvite :=
  one_row (fun w => head (filter (has_invite_token token) (rows (ft_invites (tab w))))) scan_invite.

Definition mark_used (i : FederationInvite) : FederationInvite :=
  mkInvite (fi_ID i) (fi_FromPeerID i) (fi_Token i) (fi_ExpiresAt i) true (fi_CreatedAt i).

Definition UseFederationInvite (inviteID : string) : GoM FedDB unit :=
  tab_exec (fun w => inr (1, with_invites (alter mark_used inviteID (ft_invites (tab w))) w));; mret tt.

Definition insert_fed_share (s : FederatedShare) (w : FedDB) : error + (Z * FedDB) :=
  let m := ft_shares (tab w) in
  if bool_decide (is_Some (m !! fs_ID s)) || existsb (fun t => bool_decide (fs_Token t = fs_Token s)) (rows m) then inl ErrUnique
  else if db_fk (base w) && negb (bool_decide (is_Some (db_files (base w) !! fs_LocalFileID s))) then inl ErrForeignKey
  else inr (1, with_fed_shares (<[fs_ID s := s]> m) w).

Definition AddFederatedShare (share : FederatedShare) : GoM FedDB unit := tab_exec (insert_fed_share share);; mret tt.

Definition scan_fed_share (s : FederatedShare) : option FederatedShare :=
  expires ← reread (fs_ExpiresAt s); created ← reread (fs_CreatedAt s);
  Some (mkFedShare (fs_ID s) (fs_LocalFileID s) (fs_PeerID s) (fs_RemoteUserID s) (fs_Permission s) (fs_Token s) expires created).

(** The column is never NULL: the field is not a pointer. *)
Definition open_fed_share (now : Z) (token : string) (s : FederatedShare) : Prop :=
  fs_Token s = token /\ sql_before now (fs_ExpiresAt s) = true.

#[export] Instance open_fed_share_dec now token s : Decision (open_fed_share now token s).
Proof. unfold open_fed_share. apply _. Defined.

Definition GetFederatedShare (token : string) : GoM FedDB FederatedShare :=
  now ← tab_now;
  one_row (fun w => head (filter (open_fed_share now token) (rows (ft_shares (tab w))))) scan_fed_share.
End Tables.

(** ** manager.go *)

Record Fed := mkFed { fd_db : FedDB; fd_peers : gmap string FederationPeer }.

Definition on_fed {A} (m : GoM FedDB A) : GoM Fed A := fun w => let '(r, d) := m (fd_db w) in (r, mkFed d (fd_peers w)).
Definition fed_random {A} (m : GoM Rand A) : GoM Fed A :=
  on_fed (on_base (fun d => let '(r, x) := m (db_rand d) in (r, with_rand x d))).
Definition fed_now : GoM Fed Z := on_fed tab_now.
Definition set_known (m : gmap string FederationPeer) : GoM Fed unit := fun w => (Ok tt, mkFed (fd_db w) m).
Definition known : GoM Fed (gmap string FederationPeer) := fun w => (Ok (fd_peers w), w).

(** [rand.Read(b)]; its error is not looked at. *)
Definition random_base64 (n : nat) : GoM Rand string :=
  b ← attempt (rand_read n);
  mret (encode_padded base64url (match b with inl b => b | inr _ => replicate n x00 end)).

Definition generateServerID : GoM Rand string := random_base64 16.
Definition generateInviteID : GoM Rand string := random_base64 16.
Definition generateSecureToken : GoM Rand string := random_base64 32.
Definition generateMessageID : GoM Rand string := random_base64 16.

Definition blank (s : string) : bool := bool_decide (s = ""%string).

Definition NewFederationManager `{Ed25519} (config : FederationConfig) : GoM Rand FederationConfig :=
  serverID ← (if blank (fc_ServerID config) then generateServerID else mret (fc_ServerID config));
  '(pub, priv) ← (if blank (fc_PrivateKey config) || blank (fc_PublicKey config)
                  then wrap "failed to generate federation keys" GenerateKeyPair
                  else mret (fc_PublicKey config, fc_PrivateKey config));
  mret (mkFedConfig (fc_Enabled config) serverID (fc_PublicURL config) priv pub (fc_TrustedPeers config) (fc_AutoDiscovery config)).

(** A request to another server, and its answer: the status and, for a request of
    a list, the body when it decodes as one.  [None] when there is no answer. *)
Inductive outgoing := O_announce (a : PeerAnnouncement) | O_message (m : FederationMessage) | O_health | O_list.
Record fed_answer := mkFedAnswer { an_Status : Z; an_List : option (list PeerAnnouncement) }.
Definition network : Type := string -> outgoing -> option fed_answer.

Section Manager.
Context `{Ed25519} (reread : Z -> option Z) (sql_before : Z -> Z -> bool) (config : FederationConfig).

Definition IsEnabled : bool := fc_Enabled config.

Definition GetPeers : GoM Fed (list FederationPeer) := m ← known; mret (rows m).

Definition GetPeer (peerID : string) : GoM Fed FederationPeer :=
  m ← known;
  match m !! peerID with None => fail (Errorf ("peer not found: " +:+ peerID)) | Some peer => mret peer end.

(** The peer with the fields that the method fills in. *)
Definition AddPeer (peer : FederationPeer) : GoM Fed FederationPeer :=
  if bool_decide (fp_ID peer = fc_ServerID config) then fail (Errorf "cannot add self as peer")
  else
    seen ← fed_now; created ← fed_now;
    let peer := mkPeer (fp_ID peer) (fp_Name peer) (fp_PublicURL peer) (fp_PublicKey peer) (fp_Status peer) seen created
      (if blank (fp_Capabilities peer) then join_comma DefaultCapabilities else fp_Capabilities peer) in
    wrap "failed to save peer" (on_fed (AddFederationPeer peer));;
    m ← known; set_known (<[fp_ID peer := peer]> m);;
    mret peer.

Definition RemovePeer (peerID : string) : GoM Fed unit :=
  on_fed (RemoveFederationPeer peerID);;
  m ← known; set_known (delete peerID m).

(** [expiresIn] in seconds. *)
Definition CreateInvite (expiresIn : Z) : GoM Fed FederationInvite :=
  id ← fed_random generateInviteID;
  token ← fed_random generateSecureToken;
  now ← fed_now;
  let invite := mkInvite id (fc_ServerID config) token (now + expiresIn) false now in
  on_fed (CreateFederationInvite invite);;
  mret invite.

Definition VerifyInvite (token : string) : GoM Fed FederationInvite :=
  invite ← on_fed (GetFederationInvite reread token);
  now ← fed_now;
  if fi_Used invite then fail (Errorf "invite already used")
  else if fi_ExpiresAt invite <? now then fail (Errorf "invite expired")
  else mret invite.

(** AcceptInvite after the verification. *)
Definition finish_join (invite : FederationInvite) (peerInfo : PeerAnnouncement) : GoM Fed unit :=
  on_fed (UseFederationInvite (fi_ID invite));;
  _ ← AddPeer (mkPeer (pa_ServerID peerInfo) (pa_Name peerInfo) (pa_PublicURL peerInfo) (pa_PublicKey peerInfo) "active" 0 0
                 (join_comma (pa_Capabilities peerInfo)));
  mret tt.

Definition AcceptInvite (token : string) (peerInfo : PeerAnnouncement) : GoM Fed unit :=
  invite ← VerifyInvite token; finish_join invite peerInfo.

Definition sendHTTPRequest (net : network) (url : string) (payload : outgoing) : GoM Fed unit :=
  match net url payload with
  | None => fail (Errorf "request failed")
  | Some a => if 400 <=? an_Status a then fail (Errorf ("peer returned error: " +:+ pretty (an_Status a))) else mret tt
  end.

(** [payload] is the JSON text, [None] when it cannot be made. *)
Definition SendMessage (net : network) (peerID msgType : string) (payload : option bytes) : GoM Fed unit :=
  peer ← GetPeer peerID;
  match payload with
  | None => fail (Errorf "failed to marshal payload")
  | Some payloadBytes =>
      id ← fed_random generateMessageID;
      now ← fed_now;
      sig ← wrap "failed to sign message" (lift (SignMessage (fc_PrivateKey config) payloadBytes));
      sendHTTPRequest net (fp_PublicURL peer +:+ "/federation/v1/message")
        (O_message (mkFedMessage id (fc_ServerID config) peerID msgType payloadBytes sig now))
  end.

Definition VerifyIncomingMessage (msg : FederationMessage) : GoM Fed unit :=
  peer ← wrap "unknown peer" (GetPeer (fm_From msg));
  if negb (bool_decide (fp_Status peer = "active"%string)) then fail (Errorf "peer is not active")
  else lift (VerifyMessage (fp_PublicKey peer) (fm_Payload msg) (fm_Signature msg)).

Definition updatePeerStatus (peerID status : string) : GoM Fed unit :=
  m ← known; set_known (alter (set_peer_status status) peerID m);;
  ignore (on_fed (UpdateFederationPeerStatus peerID status)).

Definition updatePeerLastSeen (peerID : string) : GoM Fed unit :=
  now ← fed_now;
  m ← known; set_known (alter (set_last_seen now) peerID m).

Definition checkPeerHealth (net : network) (peer : FederationPeer) : GoM Fed unit :=
  match net (fp_PublicURL peer +:+ "/federation/v1/health")%string O_health with
  | None => updatePeerStatus (fp_ID peer) "inactive"
  | Some a =>
      if an_Status a =? 200 then updatePeerStatus (fp_ID peer) "active";; updatePeerLastSeen (fp_ID peer)
      else updatePeerStatus (fp_ID peer) "inactive"
  end.

(** A goroutine per peer of the snapshot; here they run one after the other. *)
Definition checkPeersHealth (net : network) : GoM Fed unit :=
  peers ← GetPeers; forM peers (checkPeerHealth net).

Definition own_announcement : PeerAnnouncement :=
  mkAnnouncement (fc_ServerID config) (fc_ServerID config) (fc_PublicURL config) (fc_PublicKey config) DefaultCapabilities "" 0.

Definition discoverPeer (net : network) (peerURL : string) : GoM Fed unit :=
  sendHTTPRequest net (peerURL +:+ "/federation/v1/discover") (O_announce own_announcement).

Definition add_discovered (announcement : PeerAnnouncement) : GoM Fed unit :=
  if bool_decide (pa_ServerID announcement = fc_ServerID config) then mret tt
  else
    r ← attempt (GetPeer (pa_ServerID announcement));
    match r with
    | inl _ => mret tt
    | inr _ =>
        ignore (AddPeer (mkPeer (pa_ServerID announcement) (pa_Name announcement) (pa_PublicURL announcement)
                  (pa_PublicKey announcement) "pending" 0 0 (join_comma (pa_Capabilities announcement))))
    end.

Definition requestPeerList (net : network) (peer : FederationPeer) : GoM Fed unit :=
  match net (fp_PublicURL peer +:+ "/federation/v1/peers")%string O_list with
  | None => mret tt
  | Some a =>
      if negb (an_Status a =? 200) then mret tt
      else match an_List a with None => mret tt | Some peerList => forM peerList add_discovered end
  end.

Definition discoverViaPeers (net : network) : GoM Fed unit :=
  peers ← GetPeers;
  forM (List.filter (fun p => bool_decide (fp_Status p = "active"%string)) peers) (requestPeerList net).

Definition loadPeers : GoM Fed unit :=
  peers ← on_fed (GetFederationPeers reread sql_before);
  m ← known; set_known (foldl (fun m p => <[fp_ID p := p]> m) m peers).

(** The loops that run until the manager is stopped: every five minutes, and at
    once and then every ten minutes. *)
Inductive fed_loop := HealthCheckLoop | AutoDiscoveryLoop.

Definition Federation_Start (net : network) : GoM Fed (list fed_loop) :=
  if negb IsEnabled then mret []
  else
    ignore loadPeers;;
    forM (fc_TrustedPeers config) (fun peerURL => ignore (discoverPeer net peerURL));;
    mret (HealthCheckLoop :: if fc_AutoDiscovery config then [AutoDiscoveryLoop] else []).

Definition loop_turn (net : network) (l : fed_loop) : GoM Fed unit :=
  match l with HealthCheckLoop => checkPeersHealth net | AutoDiscoveryLoop => discoverViaPeers net end.
End Manager.

(** ** handlers_federation.go

    A body is [None] when it does not decode. *)

Inductive fed_reply :=
  | F_config (config : option FederationConfig)
  | F_peers (peers : list FederationPeer)
  | F_peer (peer : FederationPeer)
  | F_status (status : string)
  | F_invite (token : string) (expires_at : Z) (server_id public_url : string)
  | F_health (server_id : string) (enabled : bool)
  | F_announcement (a : PeerAnnouncement)
  | F_not_implemented (message : string).

Record peer_request := mkPeerRequest {
  rq_ID : string; rq_Name : string; rq_PublicURL : string; rq_PublicKey : string; rq_Capabilities : list string
}.

Section Handlers.
Context `{Ed25519} (reread : Z -> option Z) (config : FederationConfig).

Definition requireFederationAdmin (r : HttpRequest) : GoM Fed unit := require (Middleware_IsAdmin r) 403 "Admin access required".
Definition requireEnabled : GoM Fed unit := require (IsEnabled config) 503 "Federation not enabled".
Definition fed_decoded {A} (body : option A) : GoM Fed A :=
  match body with Some b => mret b | None => fail (ErrHTTP 400 "Invalid request") end.

Definition server_error : error := ErrHTTP 500 "Internal Server Error".

(** The reply leaves the private key out. *)
Definition handleGetConfig (r : HttpRequest) : GoM Fed fed_reply :=
  requireFederationAdmin r;;
  if negb (IsEnabled config) then mret (F_config None)
  else mret (F_config (Some (mkFedConfig true (fc_ServerID config) (fc_PublicURL config) "" (fc_PublicKey config)
                               (fc_TrustedPeers config) (fc_AutoDiscovery config)))).

Definition handleListPeers (r : HttpRequest) : GoM Fed fed_reply :=
  requireFederationAdmin r;; requireEnabled;;
  peers ← GetPeers;
  mret (F_peers peers).

Definition handleAddPeer (r : HttpRequest) (body : option peer_request) : GoM Fed fed_reply :=
  requireFederationAdmin r;; requireEnabled;;
  req ← fed_decoded body;
  require (negb (blank (rq_ID req) || blank (rq_PublicURL req) || blank (rq_PublicKey req))) 400 "Missing required fields";;
  peer ← instead server_error
           (AddPeer config (mkPeer (rq_ID req) (rq_Name req) (rq_PublicURL req) (rq_PublicKey req) "active" 0 0
                              (join_comma (rq_Capabilities req))));
  mret (F_peer peer).

Definition handleRemovePeer (r : HttpRequest) (peerID : string) : GoM Fed fed_reply :=
  requireFederationAdmin r;; requireEnabled;;
  require (negb (blank peerID)) 400 "Peer ID required";;
  instead server_error (RemovePeer peerID);;
  mret (F_status "removed").

(** The hours an invitation lasts; 24 when the body does not decode. *)
Definition invite_hours (body : option Z) : Z :=
  let h := default 24 body in
  let h := if h <? 1 then 1 else h in
  if 168 <? h then 168 else h.

Definition handleCreateInvite (r : HttpRequest) (body : option Z) : GoM Fed fed_reply :=
  requireFederationAdmin r;; requireEnabled;;
  invite ← instead server_error (CreateInvite config (invite_hours body * 3600));
  mret (F_invite (fi_Token invite) (fi_ExpiresAt invite) (fc_ServerID config) (fc_PublicURL config)).

Definition handleHealth : GoM Fed fed_reply := mret (F_health (fc_ServerID config) (IsEnabled config)).

Definition maxSkew : Z := 300.

(** [fmt.Sprintf("%s:%s:%d", ...)] *)
Definition announced (a : PeerAnnouncement) : bytes :=
  bytes_of (pa_ServerID a +:+ ":" +:+ pa_PublicURL a +:+ ":" +:+ pretty (pa_Timestamp a))%string.

Definition peer_announced (a : PeerAnnouncement) : FederationPeer :=
  mkPeer (pa_ServerID a) (pa_Name a) (pa_PublicURL a) (pa_PublicKey a) "active" 0 0 (join_comma (pa_Capabilities a)).

Definition handleDiscover (body : option PeerAnnouncement) : GoM Fed fed_reply :=
  requireEnabled;;
  a ← fed_decoded body;
  require (negb (blank (pa_ServerID a) || blank (pa_PublicURL a) || blank (pa_PublicKey a))) 400 "Missing required fields";;
  require (negb (blank (pa_Signature a) || (pa_Timestamp a =? 0))) 400 "Missing signature or timestamp";;
  now ← fed_now;
  require (negb ((now + maxSkew <? pa_Timestamp a) || (pa_Timestamp a <? now - maxSkew))) 400 "Stale or future timestamp";;
  sigBytes ← match Base64StdDecode (pa_Signature a) with
             | Some b => mret b
             | None => fail (ErrHTTP 400 "Invalid signature encoding")
             end;
  instead (ErrHTTP 401 "Invalid signature") (lift (VerifyMessage (pa_PublicKey a) (announced a) sigBytes));;
  require (negb (bool_decide (pa_ServerID a = fc_ServerID config))) 400 "Cannot add self";;
  require (fc_AutoDiscovery config) 403 "Auto-discovery not enabled";;
  ignore (AddPeer config (peer_announced a));;
  mret (F_announcement (own_announcement config)).

Definition handleShareRequest : GoM Fed fed_reply := mret (F_not_implemented "federation share requests are not yet supported").
(** handleSyncRequest of handlers_federation.go *)
Definition handlePeerSync : GoM Fed fed_reply := mret (F_not_implemented "federation sync requests are not yet supported").

(** handleMessage of handlers_federation.go *)
Definition handlePeerMessage (body : option FederationMessage) : GoM Fed fed_reply :=
  requireEnabled;;
  msg ← fed_decoded body;
  instead (ErrHTTP 401 "Invalid signature") (VerifyIncomingMessage msg);;
  if bool_decide (fm_MsgType msg = "share_request"%string) then handleShareRequest
  else if bool_decide (fm_MsgType msg = "sync_request"%string) then handlePeerSync
  else mret (F_status "acknowledged").

Definition handleJoin (body : option (string * PeerAnnouncement)) : GoM Fed fed_reply :=
  requireEnabled;;
  '(token, peerInfo) ← fed_decoded body;
  instead (ErrHTTP 401 "Unauthorized") (AcceptInvite reread config token peerInfo);;
  mret (F_status "joined").
End Handlers.

(** *** A server and its history

    What reaches the manager: a request of an administrator or of another server,
    one step of the loops, a message or an announcement to send, a start, and the
    passing of time. *)

Inductive fed_call :=
  | C_config | C_list | C_add (body : option peer_request) | C_remove (peerID : string) | C_invite (body : option Z) | C_health
  | C_discover (body : option PeerAnnouncement) | C_message (body : option FederationMessage)
  | C_join (body : option (string * PeerAnnouncement)).

Inductive fed_event :=
  | E_request (c : fed_call) (r : HttpRequest)
  | E_start (net : network)
  | E_check (net : network) (peer : FederationPeer)
  | E_list (net : network) (peer : FederationPeer)
  | E_send (net : network) (peerID msgType : string) (payload : option bytes)
  | E_time (t : Z).

Section History.
Context `{Ed25519} (reread : Z -> option Z) (sql_before : Z -> Z -> bool) (config : FederationConfig).

Definition fed_serve (c : fed_call) (r : HttpRequest) : GoM Fed fed_reply :=
  match c with
  | C_config => handleGetConfig config r
  | C_list => handleListPeers config r
  | C_add body => handleAddPeer config r body
  | C_remove id => handleRemovePeer config r id
  | C_invite body => handleCreateInvite config r body
  | C_health => handleHealth config
  | C_discover body => handleDiscover config body
  | C_message body => handlePeerMessage config body
  | C_join body => handleJoin reread config body
  end.

Definition pass_time (t : Z) (w : Fed) : Fed :=
  let d := base (fd_db w) in
  mkFed (mkExt (mkDB (db_users d) (db_files d) (db_manifests d) (db_chunks d) (Z.max t (db_now d)) (db_rand d) (db_faults d) (db_fk d))
           (tab (fd_db w))) (fd_peers w).

(** The peer of [E_check] and of [E_list] is the one of some earlier snapshot. *)
Definition fed_step (e : fed_event) (w : Fed) : Fed :=
  match e with
  | E_request c r => (fed_serve c r w).2
  | E_start net => (Federation_Start reread sql_before config net w).2
  | E_check net peer => (checkPeerHealth net peer w).2
  | E_list net peer => (requestPeerList config net peer w).2
  | E_send net id ty payload => (SendMessage config net id ty payload w).2
  | E_time t => pass_time t w
  end.

Definition fed_run (es : list fed_event) (w : Fed) : Fed := foldl (fun w e => fed_step e w) w es.
End History.

(** *** Two servers

    What the routes of an enabled server, in the state [w], answer to another one.
    There is a route for its health, but none for the list of its peers. *)

Definition reply_status (r : Res fed_reply) : Z :=
  match r with
  | Ok (F_peer _) | Ok (F_invite _ _ _ _) => 201
  | Ok (F_not_implemented _) => 501
  | Ok _ => 200
  | Err (ErrHTTP code _) => code
  | _ => 500
  end.

Definition served_by `{Ed25519} (config : FederationConfig) (w : Fed) : network := fun _ o =>
  match o with
  | O_announce a => Some (mkFedAnswer (reply_status (handleDiscover config (Some a) w).1) None)
  | O_message m => Some (mkFedAnswer (reply_status (handlePeerMessage config (Some m) w).1) None)
  | O_health => Some (mkFedAnswer (reply_status (handleHealth config w).1) None)
  | O_list => Some (mkFedAnswer 404 None)
  end.

(** ** Lemmas *)

(** *** Operations that leave tables, known peers and clock alone *)

Definition kept (w w' : Fed) : Prop :=
  tab (fd_db w') = tab (fd_db w) /\ fd_peers w' = fd_peers w /\ db_now (base (fd_db w')) = db_now (base (fd_db w)).

#[export] Instance kept_refl : Reflexive kept.
Proof. by intros w. Qed.

#[export] Instance kept_trans : Transitive kept.
Proof. intros u v w (A & B & C) (D & E & F). unfold kept. by rewrite D, E, F. Qed.

#[export] Instance kept_preorder : PreOrder kept.
Proof. split; apply _. Qed.

Notation quietly := (runs kept).

Lemma quietly_now : quietly fed_now.
Proof. intros [[d t] m] r w' [= <- <-]. by repeat split. Qed.

Lemma quietly_known : quietly known.
Proof. by intros w r w' [= <- <-]. Qed.

Lemma quietly_query {A} (q : FedDB -> A) : quietly (on_fed (tab_query q)).
Proof.
  intros [[d t] m] r w'. unfold on_fed, tab_query. simpl. destruct (next_fault _) as [[] l]; intros [= <- <-]; by repeat split.
Qed.

Lemma quietly_random n : quietly (fed_random (random_base64 n)).
Proof.
  intros [[d t] m] r w'. unfold fed_random, on_fed, on_base, random_base64, attempt, rand_read, mbind, GoM_bind. simpl.
  destruct (next_fault _) as [[] l]; intros [= <- <-]; by repeat split.
Qed.

Lemma on_fed_bind {A B} (m : GoM FedDB A) (k : A -> GoM FedDB B) w :
  on_fed (m ≫= k) w = (on_fed m ≫= (fun a => on_fed (k a))) w.
Proof. unfold on_fed, mbind, GoM_bind. by destruct (m _) as [[] ?]. Qed.

Lemma quietly_on_fed {A} (x : Res A) : settles x -> quietly (on_fed (fun w => (x, w))).
Proof. intros Hx [d m] r w' [= <- <-]. by split. Qed.

Lemma quietly_scanned {A} (o : option A) : quietly (on_fed (scanned o)).
Proof. destruct o as [a|]; [exact (quietly_on_fed (Ok a) I)|exact (quietly_on_fed (Err ErrScan) I)]. Qed.

Lemma quietly_row {A} (q : FedDB -> option A) scan : quietly (on_fed (one_row q scan)).
Proof.
  eapply runs_ext; [intros w; apply on_fed_bind|]. apply runs_bind; [apply _|apply quietly_query|].
  intros [a|]; [apply quietly_scanned|]. exact (quietly_on_fed (Err ErrNoRows) I).
Qed.

#[export] Hint Resolve quietly_now quietly_known quietly_query quietly_random quietly_row quietly_scanned : quiet.

Lemma quietly_net net url o : quietly (sendHTTPRequest net url o).
Proof. unfold sendHTTPRequest. destruct (net url o) as [a|]; [|auto with quiet]. case_bool; auto with quiet. Qed.

Lemma quietly_peers : quietly GetPeers.
Proof. apply runs_bind; [apply _|apply quietly_known|]. intros m. apply runs_ret. apply _. Qed.

Lemma quietly_peer id : quietly (GetPeer id).
Proof. apply runs_bind; [apply _|apply quietly_known|]. intros m. destruct (m !! id); auto with quiet. Qed.

#[export] Hint Resolve quietly_net quietly_peer : quiet.

Section Settling.
Context `{Ed25519}.

Lemma SignMessage_settles key m : settles (SignMessage key m).
Proof. unfold SignMessage. destruct (Base64StdDecode key); [case_bool|]; done. Qed.

Lemma VerifyMessage_settles key m s : settles (VerifyMessage key m s).
Proof. unfold VerifyMessage. destruct (Base64StdDecode key); [|done]. case_bool; [done|]. by case_bool. Qed.

Lemma quietly_incoming msg : quietly (VerifyIncomingMessage msg).
Proof.
  apply runs_bind; [apply _|auto with quiet|]. intros p. case_bool; [auto with quiet|]. apply runs_lift, VerifyMessage_settles; apply _.
Qed.

Lemma quietly_verify reread token : quietly (VerifyInvite reread token).
Proof.
  apply runs_bind; [apply _|apply quietly_row|]. intros i. apply runs_bind; [apply _|auto with quiet|]. intros t.
  repeat case_bool; auto with quiet.
Qed.

Lemma quietly_send net config id ty payload : quietly (SendMessage config net id ty payload).
Proof.
  apply runs_bind; [apply _|auto with quiet|]. intros p. destruct payload as [b|]; [|auto with quiet].
  apply runs_bind; [apply _|apply quietly_random|]. intros i. apply runs_bind; [apply _|auto with quiet|]. intros t.
  apply runs_bind; [apply _|apply runs_wrap, runs_lift, SignMessage_settles; apply _|]. intros sig. apply quietly_net.
Qed.
End Settling.

(** *** What a statement or a change of the map does *)

Notation peer_rows w := (ft_peers (tab (fd_db w))).
Notation invite_rows w := (ft_invites (tab (fd_db w))).

(** The columns that say who a peer is. *)
Definition same_identity (p q : FederationPeer) : Prop :=
  fp_ID p = fp_ID q /\ fp_Name p = fp_Name q /\ fp_PublicURL p = fp_PublicURL q /\ fp_PublicKey p = fp_PublicKey q /\
  fp_Capabilities p = fp_Capabilities q.

#[export] Instance same_identity_equiv : Equivalence same_identity.
Proof.
  unfold same_identity. split.
  - by intros p.
  - intros p q (? & ? & ? & ? & ?). by repeat split.
  - intros p q u (? & ? & ? & ? & ?) (? & ? & ? & ? & ?). repeat split; congruence.
Qed.

Section Effects.
Context (self : string) (P : FederationPeer -> Prop).

Inductive effect (w w' : Fed) : Prop :=
  | Eff_kept : kept w w' -> effect w w'
  | Eff_add p q : P p -> fp_ID p <> self -> url_taken (fp_ID p) (fp_PublicURL p) (peer_rows w) = false -> same_identity p q ->
      peer_rows w' = <[fp_ID p := q]> (peer_rows w) -> invite_rows w' = invite_rows w ->
      fd_peers w' = <[fp_ID p := p]> (fd_peers w) -> effect w w'
  | Eff_remove_row id : peer_rows w' = delete id (peer_rows w) -> invite_rows w' = invite_rows w ->
      fd_peers w' = delete id (fd_peers w) -> effect w w'
  | Eff_invite i : invite_rows w !! fi_ID i = None -> (forall k j, invite_rows w !! k = Some j -> fi_Token j <> fi_Token i) ->
      peer_rows w' = peer_rows w -> invite_rows w' = <[fi_ID i := i]> (invite_rows w) -> fd_peers w' = fd_peers w -> effect w w'
  | Eff_use id : peer_rows w' = peer_rows w -> invite_rows w' = alter mark_used id (invite_rows w) -> fd_peers w' = fd_peers w ->
      effect w w'
  | Eff_touch id f g : (forall p, same_identity (f p) p) -> (forall p, same_identity (g p) p) ->
      peer_rows w' = alter g id (peer_rows w) -> invite_rows w' = invite_rows w -> fd_peers w' = alter f id (fd_peers w) -> effect w w'
  | Eff_load : peer_rows w' = peer_rows w -> invite_rows w' = invite_rows w ->
      (forall id p, fd_peers w' !! id = Some p -> fd_peers w !! id = Some p \/
         P p /\ id = fp_ID p /\ exists k q, peer_rows w !! k = Some q /\ same_identity p q) ->
      effect w w'.

Definition effects : relation Fed := rtc effect.

#[export] Instance effects_preorder : PreOrder effects.
Proof. unfold effects. apply _. Qed.

Lemma runs_kept {A} (m : GoM Fed A) : quietly m -> runs effects m.
Proof. intros Hm w r w' E. apply Hm in E as [Hs Hk]. split; [done|]. by apply rtc_once, Eff_kept. Qed.

Lemma runs_once {A} (m : GoM Fed A) : (forall w r w', m w = (r, w') -> settles r /\ effect w w') -> runs effects m.
Proof. intros Hm w r w' E. apply Hm in E as [Hs He]. split; [done|]. by apply rtc_once. Qed.
End Effects.

#[export] Hint Resolve runs_kept : quiet.

Lemma effect_mono self (P Q : FederationPeer -> Prop) w w' : (forall p, P p -> Q p) -> effect self P w w' -> effect self Q w w'.
Proof.
  intros HPQ He. destruct He as [? | p q ? | | | | id f g | ? ? H1].
  - by apply Eff_kept.
  - apply (Eff_add _ _ _ _ p q); auto.
  - eapply Eff_remove_row; eassumption.
  - eapply Eff_invite; eassumption.
  - eapply Eff_use; eassumption.
  - apply (Eff_touch _ _ _ _ id f g); assumption.
  - apply Eff_load; [assumption..|]. intros i p Hp. destruct (H1 i p Hp) as [?|(? & ? & ?)]; auto.
Qed.

Lemma effects_mono self (P Q : FederationPeer -> Prop) w w' : (forall p, P p -> Q p) -> effects self P w w' -> effects self Q w w'.
Proof.
  intros HPQ He. unfold effects in *. induction He as [u|u v x Hv _ IH]; [reflexivity|]. eapply rtc_l; [|exact IH]. by eapply effect_mono.
Qed.

(** The values that a method gives to a new peer. *)
Definition stamped (t : Z) (p : FederationPeer) : FederationPeer :=
  mkPeer (fp_ID p) (fp_Name p) (fp_PublicURL p) (fp_PublicKey p) (fp_Status p) t t
    (if blank (fp_Capabilities p) then join_comma DefaultCapabilities else fp_Capabilities p).

Lemma AddPeer_cases config p w r w' : AddPeer config p w = (r, w') ->
  ((exists e, r = Err e) /\ kept w w') \/
  (let p' := stamped (db_now (base (fd_db w))) p in
   r = Ok p' /\ effect (fc_ServerID config) (eq p') w w' /\ fd_peers w' = <[fp_ID p := p']> (fd_peers w) /\
   db_now (base (fd_db w')) = db_now (base (fd_db w))).
Proof.
  destruct w as [[d t] m]. unfold AddPeer, wrap, on_fed, AddFederationPeer, tab_exec, upsert_peer, fed_now, on_fed, tab_now, known,
    set_known, mbind, GoM_bind. simpl.
  destruct (bool_decide _) eqn:Es; [intros [= <- <-]; left; split; [by eexists|done]|]. apply bool_decide_eq_false in Es. simpl.
  destruct (next_fault _) as [[] l]; [intros [= <- <-]; left; split; [by eexists|done]|]. simpl.
  destruct (url_taken _ _ _) eqn:Eu; [intros [= <- <-]; left; split; [by eexists|done]|]. simpl.
  intros [= <- <-]. right. split; [done|]. split; [|done].
  eapply (Eff_add _ _ _ _ (stamped (db_now d) p)); [done|done|exact Eu| |reflexivity..]. simpl. by destruct (ft_peers t !! fp_ID p).
Qed.

Lemma AddPeer_effects config (P : FederationPeer -> Prop) p : (forall t, P (stamped t p)) ->
  runs (effects (fc_ServerID config) P) (AddPeer config p).
Proof.
  intros HP. apply runs_once. intros w r w' E.
  apply AddPeer_cases in E as [[[e ->] Hk]|(-> & He & _)]; [by split; [|apply Eff_kept]|].
  split; [done|]. eapply effect_mono; [|exact He]. intros ? <-. apply HP.
Qed.

Section Writes.
Context (self : string) (P : FederationPeer -> Prop).

Lemma RemovePeer_effects id : runs (effects self P) (RemovePeer id).
Proof.
  apply runs_once. intros [[d t] m] r w'. unfold RemovePeer, RemoveFederationPeer, on_fed, tab_exec, known, set_known, mbind, GoM_bind. simpl.
  destruct (next_fault _) as [[] l]; simpl; intros [= <- <-]; (split; [done|]); [by apply Eff_kept|by eapply (Eff_remove_row _ _ _ _ id)].
Qed.

Lemma CreateFederationInvite_effects i : runs (effects self P) (on_fed (CreateFederationInvite i)).
Proof.
  apply runs_once. intros [[d t] m] r w'. unfold CreateFederationInvite, insert_invite, on_fed, tab_exec, mbind, GoM_bind. simpl.
  destruct (next_fault _) as [[] l]; simpl; [intros [= <- <-]; split; [done|by apply Eff_kept]|].
  destruct (bool_decide _ || _) eqn:E; simpl; intros [= <- <-]; (split; [done|]); [by apply Eff_kept|].
  apply orb_false_iff in E as [Ei Et]. apply bool_decide_eq_false, eq_None_not_Some in Ei.
  apply (Eff_invite _ _ _ _ i); try done. simpl. intros k j Hj Htok.
  apply not_true_iff_false in Et. apply Et, existsb_exists. exists j. split; [|by apply bool_decide_eq_true].
  apply list_elem_of_In. unfold rows. apply list_elem_of_fmap. exists (k, j). split; [done|]. by apply elem_of_map_to_list.
Qed.

Lemma UseFederationInvite_effects id : runs (effects self P) (on_fed (UseFederationInvite id)).
Proof.
  apply runs_once. intros [[d t] m] r w'. unfold UseFederationInvite, on_fed, tab_exec, mbind, GoM_bind. simpl.
  destruct (next_fault _) as [[] l]; simpl; intros [= <- <-]; (split; [done|]); [by apply Eff_kept|by eapply (Eff_use _ _ _ _ id)].
Qed.

Lemma touched_row now status p : same_identity (set_last_seen now (set_peer_status status p)) p.
Proof. by repeat split. Qed.

Lemma updatePeerStatus_effects id status : runs (effects self P) (updatePeerStatus id status).
Proof.
  apply runs_once. intros [[d t] m] r w'.
  unfold updatePeerStatus, UpdateFederationPeerStatus, ignore, attempt, on_fed, tab_exec, tab_now, known, set_known, mbind, GoM_bind. simpl.
  destruct (next_fault _) as [[] l]; simpl; intros [= <- <-]; (split; [done|]).
  - apply (Eff_touch _ _ _ _ id (set_peer_status status) (fun p => p)); try done. simpl.
    symmetry. apply map_eq. intros k. destruct (decide (id = k)) as [->|Hk]; [rewrite lookup_alter_eq|by rewrite lookup_alter_ne].
    by destruct (_ !! k).
  - by apply (Eff_touch _ _ _ _ id (set_peer_status status) (fun p => set_last_seen (db_now d) (set_peer_status status p))).
Qed.

Lemma updatePeerLastSeen_effects id : runs (effects self P) (updatePeerLastSeen id).
Proof.
  apply runs_once. intros [[d t] m] r w' [= <- <-]. split; [done|].
  apply (Eff_touch _ _ _ _ id (set_last_seen (db_now d)) (fun p => p)); try done. simpl.
  symmetry. apply map_eq. intros k. destruct (decide (id = k)) as [->|Hk]; [rewrite lookup_alter_eq|by rewrite lookup_alter_ne].
  by destruct (_ !! k).
Qed.

Lemma checkPeerHealth_effects net p : runs (effects self P) (checkPeerHealth net p).
Proof.
  unfold checkPeerHealth. destruct (net _ _) as [a|]; [|apply updatePeerStatus_effects]. case_bool; [|apply updatePeerStatus_effects].
  apply runs_bind; [apply _|apply updatePeerStatus_effects|]. intros _. apply updatePeerLastSeen_effects.
Qed.
End Writes.

Lemma at_decoded (R : relation Fed) `{!PreOrder R} w {A B} (o : option A) (k : A -> GoM Fed B) :
  (forall a, o = Some a -> runs_at R w (k a)) -> runs_at R w (fed_decoded o ≫= k).
Proof. intros Hk r w'. destruct o as [a|]; [by apply Hk|]. by intros [= <- <-]. Qed.

Lemma at_now (R : relation Fed) w {B} (k : Z -> GoM Fed B) : runs_at R w (k (db_now (base (fd_db w)))) -> runs_at R w (fed_now ≫= k).
Proof. intros Hk r w'. destruct w as [[d t] m]. apply Hk. Qed.

Lemma find_invite_inv token w i w' reread : on_fed (GetFederationInvite reread token) w = (Ok i, w') ->
  kept w w' /\ exists k j, invite_rows w !! k = Some j /\ fi_Token j = token /\ scan_invite reread j = Some i.
Proof.
  intros E. split; [by apply quietly_row in E as [_ ?]|]. destruct w as [[d t] m]. revert E.
  unfold on_fed, GetFederationInvite, one_row, tab_query, mbind, GoM_bind. simpl. destruct (next_fault _) as [[] l]; [done|]. simpl.
  destruct (head _) as [j|] eqn:Ej; [|done]. unfold scanned. destruct (scan_invite reread j) as [i'|] eqn:Es; [|done]. intros [= -> <-].
  apply head_Some_elem_of, list_elem_of_filter in Ej as [Htok Hin]. unfold rows in Hin. apply list_elem_of_fmap in Hin as ([k j'] & -> & Hin).
  apply elem_of_map_to_list in Hin. by exists k, j'.
Qed.

(** An invitation that a join can use at the instant [now]. *)
Definition open_invite (reread : Z -> option Z) (now : Z) (token : string) (j : FederationInvite) : Prop :=
  fi_Token j = token /\ fi_Used j = false /\ exists t, reread (fi_ExpiresAt j) = Some t /\ now <= t.

Lemma VerifyInvite_inv reread token w i w' : VerifyInvite reread token w = (Ok i, w') ->
  kept w w' /\ exists k j, invite_rows w !! k = Some j /\ fi_ID j = fi_ID i /\ open_invite reread (db_now (base (fd_db w))) token j.
Proof.
  intros E. split; [by apply quietly_verify in E as [_ ?]|]. unfold VerifyInvite in E.
  apply bind_ok_inv in E as (i' & w1 & E & E1). apply find_invite_inv in E as [(_ & _ & Hn) (k & j & Hk & Htok & Hs)].
  apply bind_ok_inv in E1 as (t & w2 & [= <- <-] & E1).
  destruct (fi_Used i') eqn:Eu; [done|]. destruct (fi_ExpiresAt i' <? _) eqn:Ee; [done|]. revert E1. intros [= -> <-].
  exists k, j. split; [done|]. unfold scan_invite in Hs. apply bind_Some in Hs as (x & Hx & Hs). apply bind_Some in Hs as (c & _ & [= <-]).
  simpl in *. split; [done|]. split; [done|]. split; [done|]. exists x. split; [done|]. rewrite <- Hn. apply Z.ltb_ge in Ee. done.
Qed.

(** *** Where a known peer comes from *)

Definition describes (status : string) (a : PeerAnnouncement) (p : FederationPeer) : Prop :=
  fp_ID p = pa_ServerID a /\ fp_Name p = pa_Name a /\ fp_PublicURL p = pa_PublicURL a /\ fp_PublicKey p = pa_PublicKey a /\
  fp_Status p = status.

Section Origins.
Context `{Ed25519} (reread : Z -> option Z) (sql_before : Z -> Z -> bool) (config : FederationConfig).

(** The event that may put the peer into memory, in the state before it. *)
Inductive origin (w : Fed) (p : FederationPeer) : fed_event -> Prop :=
  | From_administrator req r : IsEnabled config = true -> Middleware_IsAdmin r = true -> fp_ID p = rq_ID req -> fp_PublicURL p = rq_PublicURL req ->
      fp_PublicKey p = rq_PublicKey req -> origin w p (E_request (C_add (Some req)) r)
  | From_announcement a sig r : IsEnabled config = true -> fc_AutoDiscovery config = true -> Base64StdDecode (pa_Signature a) = Some sig ->
      VerifyMessage (pa_PublicKey a) (announced a) sig = Ok tt ->
      Z.abs (pa_Timestamp a - db_now (base (fd_db w))) <= maxSkew -> describes "active" a p ->
      origin w p (E_request (C_discover (Some a)) r)
  | From_invitation token a k j r : IsEnabled config = true -> invite_rows w !! k = Some j -> open_invite reread (db_now (base (fd_db w))) token j ->
      describes "active" a p -> origin w p (E_request (C_join (Some (token, a))) r)
  | From_list net peer st l a : net (fp_PublicURL peer +:+ "/federation/v1/peers")%string O_list = Some (mkFedAnswer st (Some l)) -> a ∈ l ->
      fd_peers w !! fp_ID p = None -> describes "pending" a p -> origin w p (E_list net peer)
  | From_table net k q : IsEnabled config = true -> peer_rows w !! k = Some q -> fp_Status q <> "blocked"%string -> same_identity p q ->
      origin w p (E_start net).

Notation self := (fc_ServerID config).

Lemma add_request_effects r body w :
  runs_at (effects self (fun p => origin w p (E_request (C_add body) r))) w (handleAddPeer config r body).
Proof.
  apply at_require; [apply _|]. intros Hr. apply at_require; [apply _|]. intros He. apply at_decoded; [apply _|]. intros req ->.
  apply at_require; [apply _|]. intros _. apply at_runs. apply runs_bind; [apply _| |intros p; apply runs_ret; apply _].
  apply runs_instead, AddPeer_effects. intros t. by apply From_administrator.
Qed.

Lemma discover_effects r body w :
  runs_at (effects self (fun p => origin w p (E_request (C_discover body) r))) w (handleDiscover config body).
Proof.
  apply at_require; [apply _|]. intros He. apply at_decoded; [apply _|]. intros a ->.
  apply at_require; [apply _|]. intros _. apply at_require; [apply _|]. intros _. apply at_now.
  apply at_require; [apply _|]. intros Ht. apply negb_true_iff, orb_false_iff in Ht as [T1 T2].
  apply Z.ltb_ge in T1, T2. unfold maxSkew in T1, T2.
  destruct (Base64StdDecode (pa_Signature a)) as [sig|] eqn:Es; [|intros x w' [= <- <-]; by split].
  apply (at_bind _ w (mret sig)); [intros x w' [= <- <-]; by split|]. intros sig' w1 [= <- <-].
  apply at_checked; [apply _|apply VerifyMessage_settles|]. intros [] Hv.
  apply at_require; [apply _|]. intros _. apply at_require; [apply _|]. intros Hauto. apply at_runs.
  apply runs_bind; [apply _| |intros p; apply runs_ret; apply _]. apply runs_ignore; [apply _|]. apply AddPeer_effects.
  intros t. eapply From_announcement; try eassumption; [|by repeat split]. unfold maxSkew. lia.
Qed.

Lemma join_effects r body w :
  runs_at (effects self (fun p => origin w p (E_request (C_join body) r))) w (handleJoin reread config body).
Proof.
  apply at_require; [apply _|]. intros He. apply at_decoded; [apply _|]. intros [token a] ->.
  apply at_bind; [apply _| |intros ? ? ?; apply at_runs, runs_ret; apply _].
  apply at_instead. apply at_bind; [apply _|by apply at_runs, runs_kept, quietly_verify|].
  intros i w1 E. apply VerifyInvite_inv in E as [Hk (k & j & Hj & _ & Ho)]. apply at_runs.
  apply runs_bind; [apply _|apply UseFederationInvite_effects|]. intros _. apply runs_bind; [apply _| |intros ?; apply runs_ret; apply _].
  apply AddPeer_effects. intros t. by eapply From_invitation.
Qed.

Lemma add_discovered_cases a w r w' : add_discovered config a w = (r, w') -> settles r /\
  (effect self (fun p => describes "pending" a p /\ fd_peers w !! fp_ID p = None) w w' /\
   forall id, is_Some (fd_peers w !! id) -> is_Some (fd_peers w' !! id)).
Proof.
  unfold add_discovered. case_bool; [intros [= <- <-]; split; [done|]; by split; [apply Eff_kept|]|].
  destruct (fd_peers w !! pa_ServerID a) as [q|] eqn:Eq.
  - unfold attempt, GetPeer, known, mbind, GoM_bind. simpl. rewrite Eq. intros [= <- <-]. split; [done|]. by split; [apply Eff_kept|].
  - unfold attempt, GetPeer, known, ignore, attempt, mbind, GoM_bind. simpl. rewrite Eq. simpl.
    destruct (AddPeer _ _ _) as [x w1] eqn:E. apply AddPeer_cases in E as [[[e ->] Hk]|(-> & He & Hm & _)].
    + intros [= <- <-]. split; [done|]. split; [by apply Eff_kept|]. destruct Hk as (_ & -> & _). done.
    + intros [= <- <-]. split; [done|]. split.
      * eapply effect_mono; [|exact He]. intros p <-. simpl. by repeat split.
      * intros id Hid. rewrite Hm. destruct (decide (id = pa_ServerID a)) as [->|Hne]; simpl.
        -- by rewrite lookup_insert_eq.
        -- by rewrite lookup_insert_ne.
Qed.

Lemma list_effects (l0 : list PeerAnnouncement) (w0 : Fed) (l : list PeerAnnouncement) (w : Fed) : (forall a, a ∈ l -> a ∈ l0) -> (forall id, is_Some (fd_peers w0 !! id) -> is_Some (fd_peers w !! id)) ->
  runs_at (effects self (fun p => exists a, a ∈ l0 /\ describes "pending" a p /\ fd_peers w0 !! fp_ID p = None)) w
    (forM l (add_discovered config)).
Proof.
  revert w. induction l as [|a l IH]; intros w Hl Hw; simpl; [apply at_runs, runs_ret; apply _|].
  apply at_bind; [apply _| |].
  - intros r w' E. apply add_discovered_cases in E as [Hs [He _]]. split; [done|]. apply rtc_once.
    eapply effect_mono; [|exact He]. intros p [Hd Hp]. exists a. split; [apply Hl; by left|]. split; [done|].
    apply eq_None_not_Some. intros Hsome. apply Hw in Hsome. rewrite Hp in Hsome. by destruct Hsome.
  - intros [] w1 E. apply add_discovered_cases in E as [_ [_ Hgrow]]. apply IH; [intros b Hb; apply Hl; by right|]. auto.
Qed.

Lemma peer_list_effects net peer w : runs_at (effects self (fun p => origin w p (E_list net peer))) w (requestPeerList config net peer).
Proof.
  unfold requestPeerList. destruct (net _ _) as [[st lo]|] eqn:En; [|apply at_runs, runs_ret; apply _].
  case_bool; [apply at_runs, runs_ret; apply _|]. destruct lo as [l|]; simpl; [|apply at_runs, runs_ret; apply _].
  intros r w' E. apply (list_effects l w) in E as [Hs Hk]; [|done|done]. split; [done|].
  eapply effects_mono; [|exact Hk]. intros p (a & Ha & Hd & Hp). by eapply From_list.
Qed.
End Origins.

Section Steps.
Context `{Ed25519} (reread : Z -> option Z) (sql_before : Z -> Z -> bool) (config : FederationConfig).
Notation self := (fc_ServerID config).

Lemma mapM_scan l l' : mapM (scan_peer reread) l = Some l' ->
  Forall2 (fun q p => same_identity p q /\ fp_Status p = fp_Status q) l l'.
Proof.
  intros E%mapM_Some. induction E as [|q p l l' Hs _ IH]; [done|]. constructor; [|done].
  unfold scan_peer in Hs. apply bind_Some in Hs as (s & _ & Hs). apply bind_Some in Hs as (c & _ & [= <-]). by repeat split.
Qed.

Lemma insert_all_lookup (l : list FederationPeer) (m : gmap string FederationPeer) id p : foldl (fun (m : gmap string FederationPeer) p => <[fp_ID p := p]> m) m l !! id = Some p ->
  m !! id = Some p \/ (p ∈ l /\ id = fp_ID p).
Proof.
  revert m. induction l as [|q l IH]; intros m; simpl; [by left|]. intros [Hm|[Hp ->]]%IH.
  - destruct (decide (id = fp_ID q)) as [->|Hne]; [rewrite lookup_insert_eq in Hm|rewrite lookup_insert_ne in Hm by done; by left].
    injection Hm as ->. right. split; [by left|done].
  - right. split; [by right|done].
Qed.

Lemma loadPeers_effects (P : FederationPeer -> Prop) w :
  (forall k q p, peer_rows w !! k = Some q -> fp_Status q <> "blocked"%string -> same_identity p q -> P p) ->
  runs_at (effects self P) w (loadPeers reread sql_before).
Proof.
  destruct w as [[d t] m]. simpl. intros HP r w'.
  unfold loadPeers, GetFederationPeers, on_fed, tab_query, known, set_known, mbind, GoM_bind. simpl.
  destruct (next_fault _) as [[] lf]; simpl; [intros [= <- <-]; split; [done|by apply rtc_once, Eff_kept]|].
  set (rs := merge_sort _ _). destruct (mapM _ rs) as [l|] eqn:E; simpl; intros [= <- <-]; (split; [done|]); apply rtc_once; [|by apply Eff_kept].
  apply Eff_load; [done|done|]. simpl. intros id p [Hm|[Hp ->]]%insert_all_lookup; [by left|right].
  apply mapM_scan in E. apply list_elem_of_lookup_1 in Hp as [i Hi].
  destruct (Forall2_lookup_r _ _ _ _ _ E Hi) as (q & Hq & [Hid Hst]).
  apply list_elem_of_lookup_2 in Hq. unfold rs in Hq. rewrite merge_sort_Permutation in Hq.
  apply list_elem_of_filter in Hq as [Hb Hq]. unfold rows in Hq. apply list_elem_of_fmap in Hq as ([k q'] & -> & Hq).
  apply elem_of_map_to_list in Hq. split; [by apply (HP k q')|]. split; [done|]. by exists k, q'.
Qed.

Lemma start_effects net w : runs_at (effects self (fun p => origin reread config w p (E_start net))) w (Federation_Start reread sql_before config net).
Proof.
  unfold Federation_Start. case_bool; [apply at_runs, runs_ret; apply _|].
  apply at_bind; [apply _| |].
  - intros r w'. unfold ignore, attempt, mbind, GoM_bind. destruct (loadPeers _ _ w) as [x w1] eqn:E.
    apply (loadPeers_effects (fun p => origin reread config w p (E_start net))) in E as [Hs He].
    + destruct x; try done; by intros [= <- <-].
    + intros k q p Hk Hb Hsame. eapply From_table; try eassumption. by apply negb_false_iff.
  - intros [] w1 _. apply at_runs. apply runs_bind; [apply _| |intros _; apply runs_ret; apply _].
    apply runs_forM; [apply _|]. intros u _. apply runs_ignore; [apply _|]. apply runs_kept, quietly_net.
Qed.

Lemma create_invite_effects (P : FederationPeer -> Prop) n : runs (effects self P) (CreateInvite config n).
Proof.
  unfold CreateInvite. apply runs_bind; [apply _|apply runs_kept, quietly_random|]. intros i.
  apply runs_bind; [apply _|apply runs_kept, quietly_random|]. intros tk.
  apply runs_bind; [apply _|apply runs_kept, quietly_now|]. intros t.
  apply runs_bind; [apply _|apply CreateFederationInvite_effects|]. intros _. apply runs_ret. apply _.
Qed.

(** A request settles, and adds to memory only peers of an origin. *)
Lemma serve_effects c r w : runs_at (effects self (fun p => origin reread config w p (E_request c r))) w (fed_serve reread config c r).
Proof.
  destruct c as [| |body|id|body| |body|body|body].
  - apply at_require; [apply _|]. intros _. case_bool; apply at_runs, runs_ret; apply _.
  - apply at_require; [apply _|]. intros _. apply at_require; [apply _|]. intros _. apply at_runs, runs_kept.
    apply runs_bind; [apply _|apply quietly_peers|]. intros l. apply runs_ret. apply _.
  - apply add_request_effects.
  - apply at_require; [apply _|]. intros _. apply at_require; [apply _|]. intros _. apply at_require; [apply _|]. intros _. apply at_runs.
    apply runs_bind; [apply _|apply runs_instead, RemovePeer_effects|]. intros _. apply runs_ret. apply _.
  - apply at_require; [apply _|]. intros _. apply at_require; [apply _|]. intros _. apply at_runs.
    apply runs_bind; [apply _|apply runs_instead, create_invite_effects|]. intros i. apply runs_ret. apply _.
  - apply at_runs, runs_ret. apply _.
  - apply discover_effects.
  - apply at_require; [apply _|]. intros _. apply at_decoded; [apply _|]. intros msg _. apply at_runs, runs_kept.
    apply runs_bind; [apply _|apply runs_instead, quietly_incoming|]. intros _. repeat case_bool; apply runs_ret; apply _.
  - apply join_effects.
Qed.

Lemma step_effects e w : (exists t, e = E_time t) \/ effects self (fun p => origin reread config w p e) w (fed_step reread sql_before config e w).
Proof.
  destruct e as [c r|net|net p|net p|net id ty b|t]; [right..|by left; exists t]; simpl.
  - destruct (fed_serve _ _ _ _ _) as [x w'] eqn:E. by apply serve_effects in E as [_ Hk].
  - destruct (Federation_Start _ _ _ _ _) as [x w'] eqn:E. exact (proj2 (start_effects net w x w' E)).
  - destruct (checkPeerHealth _ _ _) as [x w'] eqn:E. exact (proj2 (checkPeerHealth_effects self (fun q => origin reread config w q (E_check net p)) net p w x w' E)).
  - destruct (requestPeerList _ _ _ _) as [x w'] eqn:E. exact (proj2 (peer_list_effects reread config net p w x w' E)).
  - destruct (SendMessage _ _ _ _ _ _) as [x w'] eqn:E. apply rtc_once, Eff_kept. exact (proj2 (quietly_send net config id ty b w x w' E)).
Qed.
End Steps.

(** *** The state invariant *)

Record fed_ok (self : string) (w : Fed) : Prop := {
  fo_keys : forall id p, peer_rows w !! id = Some p -> fp_ID p = id;
  fo_urls : forall i j p q, peer_rows w !! i = Some p -> peer_rows w !! j = Some q -> fp_PublicURL p = fp_PublicURL q -> i = j;
  fo_self : peer_rows w !! self = None;
  fo_memory : forall id p, fd_peers w !! id = Some p -> exists q, peer_rows w !! id = Some q /\ same_identity p q;
  fo_invites : forall i j a b, invite_rows w !! i = Some a -> invite_rows w !! j = Some b -> fi_Token a = fi_Token b -> i = j;
  fo_invite_keys : forall i a, invite_rows w !! i = Some a -> fi_ID a = i
}.

Lemma not_taken id url m k p : url_taken id url m = false -> m !! k = Some p -> fp_PublicURL p = url -> k = id.
Proof.
  intros Ht Hk Hu. destruct (decide (k = id)) as [->|Hne]; [done|]. apply not_true_iff_false in Ht. exfalso. apply Ht.
  unfold url_taken. apply existsb_exists. exists p. split; [|by apply bool_decide_eq_true].
  apply list_elem_of_In. unfold rows. apply list_elem_of_fmap. exists (k, p). split; [done|].
  apply elem_of_map_to_list. by rewrite lookup_delete_ne.
Qed.

Section Invariant.
Context (self : string) (P : FederationPeer -> Prop).

Lemma add_ok w w' p q : fed_ok self w -> fp_ID p <> self -> url_taken (fp_ID p) (fp_PublicURL p) (peer_rows w) = false -> same_identity p q ->
  peer_rows w' = <[fp_ID p := q]> (peer_rows w) -> invite_rows w' = invite_rows w -> fd_peers w' = <[fp_ID p := p]> (fd_peers w) -> fed_ok self w'.
Proof.
  intros [K U S M I J] Hself Ht Hsame Hr Hi Hm. destruct Hsame as (Hid & Hn & Hu & Hkey & Hc). split; rewrite ?Hr, ?Hi, ?Hm; try done.
  - intros id x [[<- <-]|[_ Hx]]%lookup_insert_Some; [done|by apply K].
  - intros i j x y [[<- <-]|[Hi' Hx]]%lookup_insert_Some [[<- <-]|[Hj' Hy]]%lookup_insert_Some Exy.
    + done.
    + symmetry. apply (not_taken _ _ _ _ _ Ht Hy). congruence.
    + apply (not_taken _ _ _ _ _ Ht Hx). congruence.
    + by apply (U i j x y).
  - rewrite lookup_insert_ne by done. exact S.
  - intros id x [[<- <-]|[Hne Hx]]%lookup_insert_Some.
    + exists q. rewrite lookup_insert_eq. split; [done|]. by repeat split.
    + destruct (M id x Hx) as (y & Hy & Hs). exists y. by rewrite lookup_insert_ne.
Qed.

Lemma remove_ok w w' id : fed_ok self w -> peer_rows w' = delete id (peer_rows w) -> invite_rows w' = invite_rows w ->
  fd_peers w' = delete id (fd_peers w) -> fed_ok self w'.
Proof.
  intros [K U S M I J] Hr Hi Hm. split; rewrite ?Hr, ?Hi, ?Hm; try done.
  - intros i p [_ Hp]%lookup_delete_Some. by apply K.
  - intros i j p q [_ Hp]%lookup_delete_Some [_ Hq]%lookup_delete_Some. by apply (U i j p q).
  - destruct (decide (self = id)) as [->|]; [by rewrite lookup_delete_eq|by rewrite lookup_delete_ne].
  - intros i p [Hne Hp]%lookup_delete_Some. destruct (M i p Hp) as (q & Hq & Hs). exists q. by rewrite lookup_delete_ne.
Qed.

Lemma touch_ok w w' id f g : fed_ok self w -> (forall p, same_identity (f p) p) -> (forall p, same_identity (g p) p) ->
  peer_rows w' = alter g id (peer_rows w) -> invite_rows w' = invite_rows w -> fd_peers w' = alter f id (fd_peers w) -> fed_ok self w'.
Proof.
  intros [K U S M I J] Hf Hg Hr Hi Hm.
  assert (forall (h : FederationPeer -> FederationPeer) (m : gmap string FederationPeer) k p, (forall p, same_identity (h p) p) ->
    alter h id m !! k = Some p -> exists q, m !! k = Some q /\ same_identity p q) as Halter.
  { intros h m k p Hh. destruct (decide (id = k)) as [->|Hne].
    - rewrite lookup_alter_eq. destruct (m !! k) as [q|]; [|done]. intros [= <-]. by exists q.
    - rewrite lookup_alter_ne by done. intros Hp. exists p. by split. }
  assert (forall k q, peer_rows w !! k = Some q -> exists p, alter g id (peer_rows w) !! k = Some p /\ same_identity p q) as Hback.
  { intros k q Hq. destruct (decide (id = k)) as [->|Hne].
    - exists (g q). by rewrite lookup_alter_eq, Hq.
    - exists q. by rewrite lookup_alter_ne. }
  split; rewrite ?Hr, ?Hi, ?Hm; try done.
  - intros k p (q & Hq & Hs & _)%Halter; [|done]. rewrite Hs. by apply K.
  - intros i j p q (p' & Hp & _ & _ & Hpu & _)%Halter (q' & Hq & _ & _ & Hqu & _)%Halter; [|done..]. rewrite Hpu, Hqu. by apply (U i j p' q').
  - apply eq_None_not_Some. intros [p (q & Hq & _)%Halter]; [|done]. by rewrite S in Hq.
  - intros k p (q & Hq & Hs)%Halter; [|done]. destruct (M k q Hq) as (x & Hx & Hqx). destruct (Hback k x Hx) as (y & Hy & Hyx).
    exists y. split; [done|]. by rewrite Hs, Hqx, Hyx.
Qed.

Lemma effect_ok w w' : fed_ok self w -> effect self P w w' -> fed_ok self w'.
Proof.
  intros Hok He. destruct He as [(Ht & Hm & _)|p q _ ? ? ? ? ? ?|id ? ? ?|i Hn Hfresh Hr Hi Hm|id Hr Hi Hm|id f g ? ? ? ? ?|Hr Hi Hm].
  - destruct Hok. by split; rewrite ?Ht, ?Hm.
  - by eapply (add_ok w w' p q).
  - by eapply (remove_ok w w' id).
  - destruct Hok as [K U S M I J]. split; rewrite ?Hr, ?Hi, ?Hm; try done.
    + intros k l a b [[<- <-]|[_ Ha]]%lookup_insert_Some [[<- <-]|[_ Hb]]%lookup_insert_Some Hab; [done| | |by apply (I k l a b)].
      * by destruct (Hfresh l b Hb).
      * by destruct (Hfresh k a Ha).
    + intros k a [[<- <-]|[_ Ha]]%lookup_insert_Some; [done|by apply J].
  - destruct Hok as [K U S M I J].
    assert (forall k a, alter mark_used id (invite_rows w) !! k = Some a -> exists b, invite_rows w !! k = Some b /\
      fi_Token b = fi_Token a /\ fi_ID b = fi_ID a) as Halter.
    { intros k a. destruct (decide (id = k)) as [->|Hne].
      - rewrite lookup_alter_eq. destruct (_ !! k) as [b|]; [|done]. intros [= <-]. by exists b.
      - rewrite lookup_alter_ne by done. by exists a. }
    split; rewrite ?Hr, ?Hi, ?Hm; try done.
    + intros k l a b (a' & Ha & Ta & _)%Halter (b' & Hb & Tb & _)%Halter Hab. apply (I k l a' b' Ha Hb). by rewrite Ta, Tb.
    + intros k a (b & Hb & _ & <-)%Halter. by apply J.
  - apply (touch_ok w w' id f g); assumption.
  - destruct Hok as [K U S M I J]. split; rewrite ?Hr, ?Hi; try done. intros id p [Hp|(_ & -> & k & q & Hq & Hs)]%Hm; [by apply M|].
    exists q. destruct Hs as (Hid & Hs). rewrite Hid, (K k q Hq). by split.
Qed.

Lemma effects_ok w w' : fed_ok self w -> effects self P w w' -> fed_ok self w'.
Proof. intros Hw He. unfold effects in He. induction He as [w|u v x Huv _ IH]; [done|]. apply IH. by eapply effect_ok. Qed.
End Invariant.

Lemma effects_origin self (P : FederationPeer -> Prop) w w' id p : effects self P w w' -> fd_peers w' !! id = Some p ->
  exists q, same_identity p q /\ (fd_peers w !! id = Some q \/ (P q /\ fp_ID q = id)).
Proof.
  intros He. unfold effects in He. induction He as [w|u v x Huv _ IH]; [intros Hp; exists p; split; [done|]; by left|].
  intros (q & Hpq & [Hq|Hq])%IH; [|exists q; by split; [|right]]. clear IH.
  assert (exists q', same_identity q q' /\ (fd_peers u !! id = Some q' \/ (P q' /\ fp_ID q' = id))) as (q' & Hs & Ho);
    [|exists q'; by split; [rewrite Hpq|]].
  destruct Huv as [(_ & Hm & _)|a b HP _ _ _ _ _ Hm|i _ _ Hm|i _ _ _ _ Hm|i _ _ Hm|i f g Hf _ _ _ Hm|_ _ Hm].
  - exists q. rewrite <- Hm. by split; [|left].
  - rewrite Hm in Hq. exists q. split; [done|]. apply lookup_insert_Some in Hq as [[<- <-]|[_ Hq]]; [by right|by left].
  - rewrite Hm in Hq. apply lookup_delete_Some in Hq as [_ Hq]. exists q. by split; [|left].
  - exists q. rewrite <- Hm. by split; [|left].
  - exists q. rewrite <- Hm. by split; [|left].
  - rewrite Hm in Hq. destruct (decide (i = id)) as [->|Hne].
    + rewrite lookup_alter_eq in Hq. destruct (fd_peers u !! id) as [b|]; [|done]. injection Hq as <-. exists b. split; [apply Hf|by left].
    + rewrite lookup_alter_ne in Hq by done. exists q. by split; [|left].
  - exists q. split; [done|]. destruct (Hm id q Hq) as [?|(? & -> & _)]; [by left|by right].
Qed.

Lemma time_ok self t w : fed_ok self w -> fed_ok self (pass_time t w).
Proof. intros [K U S M I J]. by split. Qed.

Section Correctness.
Context `{Ed25519} (reread : Z -> option Z) (sql_before : Z -> Z -> bool) (config : FederationConfig).
Notation self := (fc_ServerID config).
Notation step := (fed_step reread sql_before config).
Notation run := (fed_run reread sql_before config).

Lemma fed_step_ok e w : fed_ok self w -> fed_ok self (step e w).
Proof.
  intros Hw. destruct (step_effects reread sql_before config e w) as [[t ->]|He]; [by apply time_ok|by eapply effects_ok].
Qed.

Lemma fed_run_ok es w : fed_ok self w -> fed_ok self (run es w).
Proof. revert w. induction es as [|e es IH]; intros w Hw; [done|]. apply IH. by apply fed_step_ok. Qed.

(** [Fact] Whatever requests, checks, lists and starts a server goes through, the
    peers it knows are rows of its table with the same name, address and key under
    the same identifier, no two of them share an address, and it is never its own
    peer. *)
Theorem peers_mirrored es w : fed_ok self w ->
  let w' := run es w in
  (forall id p, fd_peers w' !! id = Some p -> fp_ID p = id /\ exists q, peer_rows w' !! id = Some q /\ same_identity p q) /\
  (forall i j p q, fd_peers w' !! i = Some p -> fd_peers w' !! j = Some q -> fp_PublicURL p = fp_PublicURL q -> i = j) /\
  fd_peers w' !! self = None.
Proof.
  intros Hw w'. destruct (fed_run_ok es w Hw) as [K U S M I J]. fold w' in K, U, S, M, I, J. split_and!.
  - intros id p Hp. destruct (M id p Hp) as (q & Hq & Hs). split; [|by exists q]. destruct Hs as (-> & _). by apply K.
  - intros i j p q Hp Hq Hu. destruct (M i p Hp) as (p' & Hp' & Hs). destruct (M j q Hq) as (q' & Hq' & Hs').
    apply (U i j p' q' Hp' Hq'). destruct Hs as (_ & _ & <- & _), Hs' as (_ & _ & <- & _). done.
  - apply eq_None_not_Some. intros [p Hp]. destruct (M self p Hp) as (q & Hq & _). by rewrite S in Hq.
Qed.

(** [C8] A step of a server adds or changes the address and the key of a known
    peer only for a reason: an administrator named it; it announced itself with a
    fresh signature under the very key it announces, and discovery is on; it
    presented an invitation that was neither used nor expired; a peer listed it
    and its identifier was unknown, as a pending peer; or the table held it when
    the server started. *)
Theorem peers_have_an_origin e w id p : fd_peers (step e w) !! id = Some p ->
  exists q, same_identity p q /\ (fd_peers w !! id = Some q \/ (origin reread config w q e /\ fp_ID q = id)).
Proof.
  destruct (step_effects reread sql_before config e w) as [[t ->]|He]; [intros Hp; exists p; split; [done|]; by left|].
  intros Hp. eapply effects_origin; eassumption.
Qed.

(** *** Invitations *)

(** Some row holds the token, and every row that does is used. *)
Definition spent (token : string) (w : Fed) : Prop :=
  (exists k j, invite_rows w !! k = Some j /\ fi_Token j = token) /\
  forall k j, invite_rows w !! k = Some j -> fi_Token j = token -> fi_Used j = true.

Lemma effect_spent P token w w' : spent token w -> effect self P w w' -> spent token w'.
Proof.
  intros [(k0 & j0 & Hk & Ht) Hall] He.
  destruct He as [(Htab & _)|p q _ _ _ _ _ Hi _|id _ Hi _|i Hn Hfresh _ Hi _|id _ Hi _|id f g _ _ _ Hi _|_ Hi _]; unfold spent;
    rewrite ?Htab, ?Hi; try (split; [by exists k0, j0|done]).
  - split.
    + exists k0, j0. split; [|done]. rewrite lookup_insert_ne; [done|]. intros E. by rewrite E, Hk in Hn.
    + intros k j [[<- <-]|[_ Hj]]%lookup_insert_Some Hj'; [|by apply (Hall k j)]. destruct (Hfresh k0 j0 Hk). congruence.
  - split.
    + destruct (decide (id = k0)) as [->|Hne].
      * exists k0, (mark_used j0). by rewrite lookup_alter_eq, Hk.
      * exists k0, j0. by rewrite lookup_alter_ne.
    + intros k j. destruct (decide (id = k)) as [->|Hne].
      * rewrite lookup_alter_eq. destruct (invite_rows w !! k) as [b|]; [|done]. by intros [= <-].
      * rewrite lookup_alter_ne by done. apply Hall.
Qed.

Lemma effects_spent P token w w' : spent token w -> effects self P w w' -> spent token w'.
Proof. intros Hw He. unfold effects in He. induction He as [w|u v x Huv _ IH]; [done|]. apply IH. by eapply effect_spent. Qed.

Lemma run_spent token es w : spent token w -> spent token (run es w).
Proof.
  revert w. induction es as [|e es IH]; intros w Hw; [done|]. apply IH.
  destruct (step_effects reread sql_before config e w) as [[t ->]|He]; [done|]. by eapply effects_spent.
Qed.

Lemma use_spends token w w1 w2 k j : fed_ok self w -> tab (fd_db w1) = tab (fd_db w) -> invite_rows w !! k = Some j -> fi_Token j = token ->
  on_fed (UseFederationInvite (fi_ID j)) w1 = (Ok tt, w2) -> spent token w2.
Proof.
  intros [K U S M I J] Ht Hk Htok. destruct w1 as [[d t] m]. simpl in Ht. subst t.
  unfold UseFederationInvite, on_fed, tab_exec, mbind, GoM_bind. simpl. destruct (next_fault _) as [[] l]; [done|]. intros [= <-].
  unfold spent. simpl. rewrite (J k j Hk). split.
  - exists k, (mark_used j). by rewrite lookup_alter_eq, Hk.
  - intros k' j'. destruct (decide (k = k')) as [->|Hne].
    + rewrite lookup_alter_eq, Hk. by intros [= <-].
    + rewrite lookup_alter_ne by done. intros Hj' Ht. destruct Hne. apply (I k k' j j' Hk Hj'). by rewrite Htok.
Qed.

(** A join that gets past the verification spends its token, also when the peer
    is then refused. *)
Lemma accept_spends token a w r w' : fed_ok self w -> AcceptInvite reread config token a w = (r, w') -> is_ok r = true -> spent token w'.
Proof.
  intros Hw E Hr. unfold AcceptInvite in E. destruct r as [[]| | |]; try done.
  apply bind_ok_inv in E as (i & w1 & Ev & E). apply VerifyInvite_inv in Ev as [(Ht & _) (k & j & Hk & Hid & Htok & _)].
  unfold finish_join in E. apply bind_ok_inv in E as ([] & w2 & Eu & E). rewrite <- Hid in Eu.
  apply (use_spends token w w1 w2 k j Hw Ht Hk Htok) in Eu. apply bind_ok_inv in E as (p & w3 & E & [= ->]).
  apply (AddPeer_effects config (fun _ => True)) in E as [_ He]; [|done]. by eapply effects_spent.
Qed.

Lemma spent_refused token w i w' : spent token w -> VerifyInvite reread token w <> (Ok i, w').
Proof.
  intros [_ Hall] E. apply VerifyInvite_inv in E as [_ (k & j & Hk & _ & Htok & Hu & _)]. by rewrite (Hall k j Hk Htok) in Hu.
Qed.

(** [C17] An invitation admits one server: when a join with a token has succeeded,
    then whatever happens afterwards, every further join with that token is
    answered with 401 and leaves peers, tables and memory as they are. *)
Theorem invitation_admits_once token a b r r' w reply w1 es : fed_ok self w -> IsEnabled config = true ->
  fed_serve reread config (C_join (Some (token, a))) r w = (Ok reply, w1) ->
  let w2 := run es w1 in
  (fed_serve reread config (C_join (Some (token, b))) r' w2).1 = Err (ErrHTTP 401 "Unauthorized") /\
  kept w2 (fed_serve reread config (C_join (Some (token, b))) r' w2).2.
Proof.
  intros Hw Hen E w2. assert (spent token w2) as Hs.
  { apply run_spent. simpl in E. unfold handleJoin, requireEnabled in E. rewrite Hen in E. simpl in E. unfold require in E.
    rewrite bind_mret in E. unfold fed_decoded in E. rewrite bind_mret in E. apply bind_ok_inv in E as ([] & w1' & E & [= _ <-]).
    unfold instead in E. destruct (AcceptInvite _ _ _ _ _) as [[[]|e|s|] u] eqn:Ea; try done. injection E as <-.
    by eapply accept_spends. }
  simpl. unfold handleJoin, requireEnabled. rewrite Hen. unfold require. rewrite bind_mret. unfold fed_decoded. rewrite bind_mret.
  unfold instead, AcceptInvite. unfold mbind at 1 3, GoM_bind at 1 3. unfold mbind at 1 2, GoM_bind at 1 2.
  destruct (VerifyInvite reread token w2) as [x u] eqn:Ev. pose proof Ev as Hq. apply quietly_verify in Hq as [Hset Hk].
  destruct x as [i|e|s|]; try done. by apply spent_refused in Ev.
Qed.
End Correctness.

Section Exchange.
Context `{Ed25519}.

(** [Fact] The announcement that a server sends to the peers it trusts carries no
    signature: whatever the configurations and the states, an enabled server
    refuses it with 400, and asking a server for its list of peers finds no route.
    Servers never discover each other. *)
Theorem discovery_is_refused config config' w w' url peer : IsEnabled config' = true ->
  (discoverPeer config (served_by config' w') url w).1 = Err (Errorf "peer returned error: 400") /\
  requestPeerList config (served_by config' w') peer w = (Ok tt, w).
Proof.
  intros He. split.
  - unfold discoverPeer, sendHTTPRequest, served_by. cbv beta iota. simpl an_Status.
    assert ((handleDiscover config' (Some (own_announcement config)) w').1 = Err (ErrHTTP 400 "Missing required fields") \/
            (handleDiscover config' (Some (own_announcement config)) w').1 = Err (ErrHTTP 400 "Missing signature or timestamp")) as [E|E];
      [|by rewrite E..].
    unfold handleDiscover, requireEnabled. rewrite He. unfold require, fed_decoded. rewrite !bind_mret.
    simpl. destruct (blank _ || _ || _); simpl; auto.
  - reflexivity.
Qed.

(** What decides on a message: its sender, its payload and its signature. *)
Definition accepts (w : Fed) (from : string) (payload signature : bytes) : bool :=
  match fd_peers w !! from with
  | None => false
  | Some p =>
      bool_decide (fp_Status p = "active"%string) &&
      match Base64StdDecode (fp_PublicKey p) with
      | Some key => (length key =? 32)%nat && ed_verify key payload signature
      | None => false
      end
  end.

Definition message_reply (msgType : string) : fed_reply :=
  if bool_decide (msgType = "share_request"%string) then F_not_implemented "federation share requests are not yet supported"
  else if bool_decide (msgType = "sync_request"%string) then F_not_implemented "federation sync requests are not yet supported"
  else F_status "acknowledged".

Lemma VerifyIncoming_exact msg w :
  exists e, VerifyIncomingMessage msg w = (if accepts w (fm_From msg) (fm_Payload msg) (fm_Signature msg) then Ok tt else Err e, w).
Proof.
  unfold VerifyIncomingMessage, accepts, GetPeer, known, wrap, mbind, GoM_bind. simpl.
  destruct (fd_peers w !! fm_From msg) as [p|]; simpl; [|by eexists].
  destruct (bool_decide _); simpl; [|by eexists]. unfold lift, VerifyMessage.
  destruct (Base64StdDecode (fp_PublicKey p)) as [key|]; simpl; [|by eexists].
  destruct (length key =? 32)%nat; simpl; [|by eexists]. destruct (ed_verify _ _ _); [by exists ErrScan|by eexists].
Qed.

(** [Fact] The reply to a message is a function of what the server knows of the
    sender, of the payload and its signature, and of the type that the message
    claims; its target, its identifier and its time are not looked at, so that a
    message once accepted is accepted again, under any other type as well.  No
    message changes anything. *)
Theorem message_judged_by_payload config m w : IsEnabled config = true ->
  handlePeerMessage config (Some m) w =
    (if accepts w (fm_From m) (fm_Payload m) (fm_Signature m) then Ok (message_reply (fm_MsgType m))
     else Err (ErrHTTP 401 "Invalid signature"), w).
Proof.
  intros He. unfold handlePeerMessage, requireEnabled. rewrite He. unfold require. rewrite bind_mret. unfold fed_decoded. rewrite bind_mret.
  destruct (VerifyIncoming_exact m w) as [e E]. unfold instead, mbind, GoM_bind. rewrite E.
  destruct (accepts _ _ _ _); [|done]. unfold message_reply. by repeat case_match.
Qed.

Lemma random_settles n w : exists x w', fed_random (random_base64 n) w = (Ok x, w') /\ kept w w'.
Proof.
  destruct (fed_random (random_base64 n) w) as [r w'] eqn:E. pose proof E as Hk. apply quietly_random in Hk as [_ Hk].
  revert E. destruct w as [[d t] m]. unfold fed_random, on_fed, on_base, random_base64, attempt, rand_read, mbind, GoM_bind. simpl.
  destruct (next_fault _) as [[] l]; simpl; intros [= <- <-]; by eexists _, _.
Qed.


Lemma AddPeer_still config p w : still (fd_db w) -> fp_ID p <> fc_ServerID config ->
  url_taken (fp_ID p) (fp_PublicURL p) (peer_rows w) = false ->
  exists w', AddPeer config p w = (Ok (stamped (db_now (base (fd_db w))) p), w') /\
    fd_peers w' = <[fp_ID p := stamped (db_now (base (fd_db w))) p]> (fd_peers w).
Proof.
  destruct w as [[d t] m]. unfold still. simpl. intros Hf Hs Hu.
  unfold AddPeer, wrap, on_fed, AddFederationPeer, tab_exec, upsert_peer, fed_now, on_fed, tab_now, known, set_known, mbind, GoM_bind. simpl.
  rewrite bool_decide_false by done. simpl. rewrite Hf. simpl. rewrite Hu. simpl. by eexists.
Qed.

(** [Fact] Where discovery is on, anybody takes over the name of a known peer: an
    announcement of its identifier, at an address no other peer has, signed with
    the key that it announces itself, replaces the key and makes the peer active,
    so that from then on the messages of the new key are the ones accepted. *)
Theorem announcements_take_over config a sig old w : IsEnabled config = true -> fc_AutoDiscovery config = true -> still (fd_db w) ->
  fd_peers w !! pa_ServerID a = Some old -> pa_ServerID a <> fc_ServerID config ->
  blank (pa_ServerID a) || blank (pa_PublicURL a) || blank (pa_PublicKey a) = false ->
  blank (pa_Signature a) = false -> pa_Timestamp a <> 0 -> Z.abs (pa_Timestamp a - db_now (base (fd_db w))) <= maxSkew ->
  Base64StdDecode (pa_Signature a) = Some sig -> VerifyMessage (pa_PublicKey a) (announced a) sig = Ok tt ->
  url_taken (pa_ServerID a) (pa_PublicURL a) (peer_rows w) = false ->
  exists w' p, handleDiscover config (Some a) w = (Ok (F_announcement (own_announcement config)), w') /\
    fd_peers w' !! pa_ServerID a = Some p /\ describes "active" a p /\
    forall key payload s, Base64StdDecode (pa_PublicKey a) = Some key -> length key = 32%nat ->
      accepts w' (pa_ServerID a) payload s = ed_verify key payload s.
Proof.
  intros He Ha Hst Hold Hself Hb Hsig Ht Hskew Hdec Hver Hurl. unfold handleDiscover, requireEnabled. rewrite He.
  unfold require, fed_decoded. rewrite !bind_mret, Hb, Hsig, (proj2 (Z.eqb_neq _ _) Ht). simpl negb. cbv iota. rewrite !bind_mret.
  assert (fed_now w = (Ok (db_now (base (fd_db w))), w)) as En by by destruct w as [[d t] m]. rewrite (bind_ok _ _ _ _ _ En).
  unfold maxSkew in *. rewrite (proj2 (Z.ltb_ge _ (pa_Timestamp a))) by lia. rewrite (proj2 (Z.ltb_ge (pa_Timestamp a) _)) by lia.
  simpl negb. cbv iota. rewrite bind_mret, Hdec, bind_mret. rewrite (bind_ok _ _ w tt w) by (unfold instead, lift; by rewrite Hver).
  rewrite bool_decide_false by done. simpl negb. cbv iota. rewrite bind_mret, Ha, bind_mret.
  destruct (AddPeer_still config (peer_announced a) w Hst Hself Hurl) as (w' & E & Hm).
  rewrite (bind_ok _ _ w tt w') by (unfold ignore, attempt, mbind, GoM_bind; by rewrite E).
  exists w', (stamped (db_now (base (fd_db w))) (peer_announced a)). split; [done|]. rewrite Hm. split; [apply lookup_insert_eq|].
  split; [by repeat split|]. intros key payload s Hk Hl. unfold accepts. rewrite Hm. simpl. rewrite lookup_insert_eq. simpl.
  rewrite Hk, Hl. done.
Qed.

(** [Fact] A peer that was only listed by another one becomes active by answering
    the health check at the address it was listed with. *)
Theorem health_check_activates net p q w reread sql_before config : fd_peers w !! fp_ID p = Some q ->
  net (fp_PublicURL p +:+ "/federation/v1/health")%string O_health = Some (mkFedAnswer 200 None) ->
  exists q', fd_peers (fed_step reread sql_before config (E_check net p) w) !! fp_ID p = Some q' /\
    same_identity q' q /\ fp_Status q' = "active"%string.
Proof.
  intros Hq Hn. destruct w as [[d t] m]. simpl in *. unfold checkPeerHealth. rewrite Hn. simpl.
  unfold updatePeerStatus, updatePeerLastSeen, ignore, attempt, on_fed, UpdateFederationPeerStatus, tab_exec, fed_now, on_fed, tab_now,
    known, set_known, mbind, GoM_bind. simpl.
  destruct (next_fault _) as [[] l]; simpl; rewrite !lookup_alter_eq, Hq; eexists; (split; [reflexivity|by repeat split]).
Qed.
End Exchange.

(** ** Witnesses *)

Section Witnesses.

(** Keys that are their own signatures' checks: the public key is the first half
    of the private one, and a signature is the key and the message. *)
Definition half_key (seed : bytes) : bytes := take 32 (seed ++ replicate 32 x00).

Lemma half_key_length seed : length (half_key seed) = 32%nat.
Proof. unfold half_key. rewrite length_take, length_app, length_replicate. lia. Qed.

#[refine] Instance toy_ed : Ed25519 := {|
  ed_keys seed := (half_key seed, half_key seed ++ half_key []);
  ed_sign priv m := take 32 priv ++ m;
  ed_verify pub m s := bool_decide (s = pub ++ m)
|}.
Proof.
  - intros seed. apply half_key_length.
  - intros seed. cbn [snd]. by rewrite length_app, !half_key_length.
  - intros seed m. cbn [fst snd]. apply bool_decide_eq_true. f_equal. rewrite <- (half_key_length seed). apply take_app_length.
Defined.

Definition fed_seed (n : Z) : bytes := replicate 32 (zb n).
Definition fed_public (n : Z) : string := Base64StdEncode (ed_keys (fed_seed n)).1.
Definition fed_private (n : Z) : string := Base64StdEncode (ed_keys (fed_seed n)).2.

Definition alpha : FederationConfig := mkFedConfig true "alpha" "http://alpha" (fed_private 1) (fed_public 1) ["http://beta"%string] true.
Definition beta : FederationConfig := mkFedConfig true "beta" "http://beta" (fed_private 2) (fed_public 2) [] true.

Definition peer_row (id : string) (n : Z) : FederationPeer := mkPeer id id ("http://" +:+ id)%string (fed_public n) "active" 5 5 "".
Definition open_row : FederationInvite := mkInvite "i" "beta" "ticket" 5000 false 5.

Definition fed_state (now : Z) (peers : gmap string FederationPeer) : Fed :=
  mkFed (mkExt (mkDB ∅ ∅ ∅ ∅ now toy_rand [] true) (mkFedTables peers {["i"%string := open_row]} ∅)) peers.

Definition alpha_state : Fed := fed_state 1000 {["beta"%string := peer_row "beta" 2]}.
Definition beta_state : Fed := fed_state 1000 {["alpha"%string := peer_row "alpha" 1]}.
Definition reads (t : Z) : option Z := Some t.

Lemma single_ok self now p : fp_ID p <> self -> fed_ok self (fed_state now {[fp_ID p := p]}).
Proof.
  intros Hs. split; simpl.
  - by intros i q [<- <-]%lookup_singleton_Some.
  - by intros i j q q' [<- <-]%lookup_singleton_Some [<- <-]%lookup_singleton_Some.
  - by apply lookup_singleton_ne.
  - intros i q [<- <-]%lookup_singleton_Some. exists p. split; [apply lookup_singleton_eq|reflexivity].
  - by intros i j a b [<- _]%lookup_singleton_Some [<- _]%lookup_singleton_Some.
  - by intros i a [<- <-]%lookup_singleton_Some.
Qed.

Definition gamma_join (url : string) : PeerAnnouncement := mkAnnouncement "gamma" "gamma" url (fed_public 3) [] "" 0.
Definition no_request : HttpRequest := mkHttp "POST" "/" "" "" "" "" false "" ∅ 0.
Definition admit_gamma : fed_event := E_request (C_join (Some ("ticket"%string, gamma_join "http://gamma"))) no_request.

Lemma mirrored_witness :
  fd_peers (fed_run reads (fun a b => a <? b) beta [admit_gamma] beta_state) !! "gamma"%string <> None /\
  fd_peers (fed_run reads (fun a b => a <? b) beta [admit_gamma] beta_state) !! "beta"%string = None.
Proof.
  split; [vm_compute; discriminate|].
  apply (peers_mirrored reads (fun a b => a <? b) beta [admit_gamma] beta_state).
  exact (single_ok "beta" 1000 (peer_row "alpha" 1) ltac:(discriminate)).
Defined.

Lemma origin_witness : exists p q,
  fd_peers (fed_step reads (fun a b => a <? b) beta admit_gamma beta_state) !! "gamma"%string = Some p /\ same_identity p q /\
  (fd_peers beta_state !! "gamma"%string = Some q \/ origin reads beta beta_state q admit_gamma /\ fp_ID q = "gamma"%string).
Proof.
  eexists. edestruct (peers_have_an_origin reads (fun a b => a <? b) beta admit_gamma beta_state "gamma") as (q & Hq); cycle 1.
  - exists q. split; [|exact Hq]. vm_compute. reflexivity.
  - vm_compute. reflexivity.
Defined.

Lemma admits_once_witness : exists reply w1,
  fed_serve reads beta (C_join (Some ("ticket"%string, gamma_join "http://gamma"))) no_request beta_state = (Ok reply, w1) /\
  (fed_serve reads beta (C_join (Some ("ticket"%string, gamma_join "http://delta"))) no_request w1).1 = Err (ErrHTTP 401 "Unauthorized").
Proof.
  destruct (fed_serve reads beta (C_join (Some ("ticket"%string, gamma_join "http://gamma"))) no_request beta_state) as [[reply|e|s|] w1] eqn:E;
    [|exfalso; vm_compute in E; discriminate E..].
  exists reply, w1. split; [reflexivity|].
  apply (invitation_admits_once reads (fun a b => a <? b) beta "ticket" (gamma_join "http://gamma") (gamma_join "http://delta") no_request no_request
           beta_state reply w1 []); [|reflexivity|exact E].
  exact (single_ok "beta" 1000 (peer_row "alpha" 1) ltac:(discriminate)).
Defined.


Lemma discovery_refused_witness :
  (discoverPeer alpha (served_by beta beta_state) "http://beta" alpha_state).1 = Err (Errorf "peer returned error: 400").
Proof. apply (discovery_is_refused alpha beta alpha_state beta_state "http://beta" (peer_row "beta" 2)). reflexivity. Defined.

Definition mallory : PeerAnnouncement :=
  let a := mkAnnouncement "alpha" "alpha" "http://mallory" (fed_public 9) [] "" 1000 in
  mkAnnouncement "alpha" "alpha" "http://mallory" (fed_public 9) [] (Base64StdEncode (ed_sign (ed_keys (fed_seed 9)).2 (announced a))) 1000.

Lemma takeover_witness : exists w' p,
  fd_peers beta_state !! "alpha"%string = Some (peer_row "alpha" 1) /\
  handleDiscover beta (Some mallory) beta_state = (Ok (F_announcement (own_announcement beta)), w') /\
  fd_peers w' !! "alpha"%string = Some p /\ fp_PublicKey p = fed_public 9.
Proof.
  destruct (announcements_take_over beta mallory (ed_sign (ed_keys (fed_seed 9)).2 (announced mallory)) (peer_row "alpha" 1) beta_state)
    as (w' & p & E & Hp & Hd & _);
    [reflexivity|reflexivity|reflexivity|reflexivity|discriminate|reflexivity|vm_compute; reflexivity|discriminate|vm_compute; discriminate
    |vm_compute; reflexivity|vm_compute; reflexivity|vm_compute; reflexivity|].
  exists w', p. split; [reflexivity|]. split; [exact E|]. split; [exact Hp|]. apply Hd.
Defined.

Definition message_of_alpha : FederationMessage :=
  mkFedMessage "1" "alpha" "somebody else" "hello" [x61] (ed_sign (ed_keys (fed_seed 1)).2 [x61]) 0.

Lemma judged_witness : (handlePeerMessage beta (Some message_of_alpha) beta_state).1 = Ok (F_status "acknowledged").
Proof. rewrite (message_judged_by_payload beta message_of_alpha beta_state); vm_compute; reflexivity. Defined.

(** Two joins that are verified before either of them marks the invitation as
    used are both accepted. *)
Example joins_race : exists i w1 w2 w3,
  VerifyInvite reads "ticket" beta_state = (Ok i, w1) /\ VerifyInvite reads "ticket" w1 = (Ok i, w1) /\
  finish_join beta i (gamma_join "http://gamma") w1 = (Ok tt, w2) /\
  finish_join beta i (mkAnnouncement "delta" "delta" "http://delta" (fed_public 4) [] "" 0) w2 = (Ok tt, w3) /\
  is_Some (fd_peers w3 !! "gamma"%string) /\ is_Some (fd_peers w3 !! "delta"%string).
Proof. do 4 eexists. repeat (split; [vm_compute; reflexivity|]). split; vm_compute; by eexists. Qed.
End Witnesses.
