(* ===== verification/Backup.v ===== *)
(** * Backups of the database (internal/server/handlers_backup.go)

    The archives, the database and its safety copy are files of one file system,
    whose calls may each be refused.  The formats gzip and tar are an interface: an
    archive is the file that holds the given entries, and reading a file back
    yields its entries up to the first that is broken.  Deferred closes write what
    the writers still hold, and their errors are not looked at.  The database is
    the content of its main file. *)

From S2P Require Import Prelude GoStrings GoCrypto Database Rbac Storage Server Download Middleware.

(** ** archive/tar over compress/gzip *)

Inductive tar_item :=
  | T_entry (name : string) (data : bytes)
  (* the content breaks off *)
  | T_torn (name : string) (data : bytes)
  (* the header cannot be read *)
  | T_error.

Class TarGz : Type := {
  tar_gz : list (string * bytes) -> bytes;
  gz_header : bytes -> bool;
  tar_items : bytes -> list tar_item;
  gz_header_tar : forall l, gz_header (tar_gz l) = true;
  tar_items_tar : forall l, tar_items (tar_gz l) = (fun e => T_entry e.1 e.2) <$> l
}.

(** ** time.Format

    [20060102_150405] of an instant in seconds, in UTC, for years of four digits. *)

Definition civil_from_days (days : Z) : Z * Z * Z :=
  let z := days + 719468 in
  let era := z / 146097 in
  let doe := z mod 146097 in
  let yoe := (doe - doe / 1460 + doe / 36524 - doe / 146096) / 365 in
  let doy := doe - (365 * yoe + yoe / 4 - yoe / 100) in
  let mp := (5 * doy + 2) / 153 in
  let m := if mp <? 10 then mp + 3 else mp - 9 in
  (yoe + era * 400 + (if m <=? 2 then 1 else 0), m, doy - (153 * mp + 2) / 5 + 1).

Definition decimal_digit (z : Z) : ascii := ascii_of_N (Z.to_N (48 + z mod 10)).

Fixpoint fixed_digits (w : nat) (z : Z) : string :=
  match w with O => "" | S w => fixed_digits w (z / 10) +:+ String (decimal_digit z) "" end.

Definition backup_stamp (t : Z) : string :=
  let '(y, m, d) := civil_from_days (t / 86400) in
  let s := t mod 86400 in
  (fixed_digits 4 y +:+ fixed_digits 2 m +:+ fixed_digits 2 d +:+ "_" +:+
   fixed_digits 2 (s / 3600) +:+ fixed_digits 2 (s / 60 mod 60) +:+ fixed_digits 2 (s mod 60))%string.

Example stamp_epoch : backup_stamp 0 = "19700101_000000"%string.
Proof. vm_compute. reflexivity. Qed.

Example stamp_leap_day : backup_stamp 1709210096 = "20240229_123456"%string.
Proof. vm_compute. reflexivity. Qed.

(** ** The host *)

Record Host := mkHost { ho_fs : FS; ho_mtime : gmap string Z; ho_now : Z }.

Definition on_disk {A} (m : GoM FS A) : GoM Host A := fun w => let '(r, s) := m (ho_fs w) in (r, mkHost s (ho_mtime w) (ho_now w)).
Definition host_now : GoM Host Z := fun w => (Ok (ho_now w), w).

(** The file is created or emptied. *)
Definition os_Create (path : string) : GoM FS unit := fun s =>
  let '(f, s) := pop_fault s in
  if f || bool_decide (path ∈ fs_dirs s) then (Err ErrDriver, s) else (Ok tt, with_files s (<[path := []]> (fs_files s))).

(** The content of a file, or [None] for a directory, whose reads fail. *)
Definition os_Open (path : string) : GoM FS (option bytes) := fun s =>
  let '(f, s) := pop_fault s in
  if f then (Err ErrDriver, s)
  else match fs_files s !! path with
       | Some d => (Ok (Some d), s)
       | None => if bool_decide (path ∈ fs_dirs s) then (Ok None, s) else (Err ErrNotFound, s)
       end.

(** A call of an open file that touches no content: Stat, Sync, Seek. *)
Definition device_call : GoM FS unit := fun s => let '(f, s) := pop_fault s in if f then (Err ErrDriver, s) else (Ok tt, s).

Definition touch (path : string) : GoM Host unit := fun w => (Ok tt, mkHost (ho_fs w) (<[path := ho_now w]> (ho_mtime w)) (ho_now w)).

Definition create_file (path : string) : GoM Host unit := on_disk (os_Create path);; touch path.
Definition write_file (path : string) (data : bytes) : GoM Host unit := touch path;; on_disk (os_WriteFile path data).

Inductive backup_reply :=
  | B_created (filename : string) (size created_at : Z)
  | B_list (backups : list (string * Z * Z))
  | B_file (filename : string) (content : option bytes)
  | B_deleted
  | B_restored (safety_backup : string).

Section Backup.
Context `{TarGz} (dataDir dbPath cwd : string).

Definition backupDir : string := fp_join dataDir ["backups"%string].
Definition backup_path (filename : string) : string := fp_join dataDir ["backups"%string; filename].

Definition only_admin (r : HttpRequest) : GoM Host unit := require (Middleware_IsAdmin r) 403 "Admin access required".

(** ** Creating *)

Definition archive_name : string := "vaultdrift.db".

Definition read_database : GoM Host bytes :=
  if bool_decide (dbPath = ""%string) then fail (Errorf "database path not available")
  else
    wrap "failed to stat database" (on_disk (os_Stat dbPath));;
    dbFile ← wrap "failed to open database" (on_disk (os_Open dbPath));
    match dbFile with Some data => mret data | None => fail (Errorf "failed to write database to archive") end.

(** The part of an archive that is written before the writers are closed. *)
Definition written_early (archive : bytes) : bytes := take (length archive / 2) archive.

Definition createBackupArchive (backupPath : string) : GoM Host unit :=
  wrap "failed to create backup file" (create_file backupPath);;
  r ← attempt read_database;
  match r with
  | inr e => ignore (write_file backupPath (tar_gz []));; fail e
  | inl data =>
      let archive := tar_gz [(archive_name, data)] in
      wrap "failed to write database to archive" (write_file backupPath (written_early archive));;
      ignore (write_file backupPath archive)
  end.

Definition file_size (path : string) : GoM Host Z :=
  on_disk (os_Stat path);;
  w ← get_w;
  mret (Z.of_nat (length (default [] (fs_files (ho_fs w) !! path)))).

Definition backup_filename (timestamp : string) : string := ("vaultdrift_backup_" +:+ timestamp +:+ ".tar.gz")%string.

Definition createBackup (r : HttpRequest) : GoM Host backup_reply :=
  only_admin r;;
  instead (ErrHTTP 500 "Failed to create backup directory") (on_disk (os_MkdirAll backupDir));;
  now ← host_now;
  let filename := backup_filename (backup_stamp now) in
  let backupPath := backup_path filename in
  instead (ErrHTTP 500 "Internal server error") (createBackupArchive backupPath);;
  size ← instead (ErrHTTP 500 "Failed to get backup info") (file_size backupPath);
  now ← host_now;
  mret (B_created filename size now).

(** ** Listing *)

(** The names of the files of a directory. *)
Definition files_in (dir : string) (s : FS) : list string :=
  omap (fun p => let prefix := (dir +:+ "/")%string in
                 let name := TrimPrefix p prefix in
                 if HasPrefix p prefix && negb (has_char slash name) then Some name else None) (map_to_list (fs_files s)).*1.

Definition name_le (a b : string) : Prop := String.leb a b = true.

#[export] Instance name_le_dec : RelDecision name_le.
Proof. intros a b. unfold name_le. apply _. Defined.

Definition os_ReadDir (dir : string) : GoM FS (list string) := fun s =>
  let '(f, s) := pop_fault s in
  if f then (Err ErrDriver, s) else (Ok (merge_sort name_le (files_in dir s)), s).

(** [entry.Info()]: the size and the time of the last change. *)
Definition entry_info (path : string) : GoM Host (Z * Z) :=
  on_disk device_call;;
  w ← get_w;
  mret (Z.of_nat (length (default [] (fs_files (ho_fs w) !! path))), default 0 (ho_mtime w !! path)).

(** The body of the loop: an entry without information is left out. *)
Definition list_entry (acc : list (string * Z * Z)) (name : string) : GoM Host (list (string * Z * Z)) :=
  r ← attempt (entry_info (backupDir +:+ "/" +:+ name)%string);
  match r with inr _ => mret acc | inl (size, mtime) => mret (acc ++ [(name, size, mtime)]) end.

Fixpoint list_entries (acc : list (string * Z * Z)) (names : list string) : GoM Host (list (string * Z * Z)) :=
  match names with [] => mret acc | n :: names => acc ← list_entry acc n; list_entries acc names end.

Definition listBackups (r : HttpRequest) : GoM Host backup_reply :=
  only_admin r;;
  d ← attempt (on_disk (os_MkdirAll backupDir));
  match d with
  | inr _ => mret (B_list [])
  | inl _ =>
      entries ← instead (ErrHTTP 500 "Failed to read backup directory") (on_disk (os_ReadDir backupDir));
      backups ← list_entries [] entries;
      mret (B_list backups)
  end.

(** ** The name of a backup *)

Definition str_contains (s sub : string) : bool := bool_decide (is_Some (index_str sub s 0)).

Definition containsPathTraversal (filename : string) : bool :=
  str_contains filename ".." || str_contains filename "/" || str_contains filename (String "092"%char "").

(** [filepath.Abs] in the directory [cwd]. *)
Definition filepath_Abs (p : string) : string := if HasPrefix p "/" then Clean p else fp_join cwd [p].

(** The checks that downloading, deleting and restoring share. *)
Definition checked_path (filename : string) : GoM Host string :=
  require (negb (bool_decide (filename = ""%string))) 400 "Filename required";;
  require (negb (containsPathTraversal filename)) 400 "Invalid filename";;
  require (HasPrefix (filepath_Abs (backup_path filename)) (filepath_Abs backupDir)) 403 "Access denied";;
  mret (backup_path filename).

Definition downloadBackup (r : HttpRequest) (filename : string) : GoM Host backup_reply :=
  only_admin r;;
  backupPath ← checked_path filename;
  file ← instead (ErrHTTP 404 "Backup not found") (on_disk (os_Open backupPath));
  instead (ErrHTTP 500 "Failed to get file info") (on_disk device_call);;
  mret (B_file (sanitizeFilename filename) file).

Definition deleteBackup (r : HttpRequest) (filename : string) : GoM Host backup_reply :=
  only_admin r;;
  backupPath ← checked_path filename;
  instead (ErrHTTP 500 "Failed to delete backup") (on_disk (os_Remove backupPath));;
  mret B_deleted.

(** ** Restoring *)

Definition copyFile (src dst : string) : GoM Host unit :=
  in_ ← on_disk (os_Open src);
  create_file dst;;
  match in_ with
  | None => fail (Errorf "is a directory")
  | Some data => write_file dst data;; on_disk device_call
  end.

Fixpoint extract_items (path : string) (items : list tar_item) : GoM Host unit :=
  match items with
  | [] => fail (Errorf "vaultdrift.db not found in archive")
  | T_error :: _ => fail (Errorf "failed to read tar")
  | T_entry name data :: items =>
      if bool_decide (name = archive_name) then
        wrap "failed to create db file" (create_file path);;
        wrap "failed to write db file" (write_file path data);;
        on_disk device_call
      else extract_items path items
  | T_torn name data :: _ =>
      if bool_decide (name = archive_name) then
        wrap "failed to create db file" (create_file path);;
        ignore (write_file path data);; fail (Errorf "failed to write db file")
      else fail (Errorf "failed to read tar")
  end.

Definition extractDatabaseFromArchive (archivePath path : string) : GoM Host unit :=
  f ← wrap "failed to open archive" (on_disk (os_Open archivePath));
  match f with
  | None => fail (Errorf "failed to create gzip reader")
  | Some b => if negb (gz_header b) then fail (Errorf "failed to create gzip reader") else extract_items path (tar_items b)
  end.

Definition safety_path : string := (dbPath +:+ ".pre-restore")%string.

Definition restoreBackup (r : HttpRequest) (body : option string) : GoM Host backup_reply :=
  only_admin r;;
  filename ← match body with Some f => mret f | None => fail (ErrHTTP 400 "Invalid request body") end;
  backupPath ← checked_path filename;
  instead (ErrHTTP 404 "Backup not found") (on_disk (os_Stat backupPath));;
  require (negb (bool_decide (dbPath = ""%string))) 500 "Cannot determine database path";;
  instead (ErrHTTP 500 "Failed to create safety backup before restore") (copyFile dbPath safety_path);;
  r ← attempt (extractDatabaseFromArchive backupPath dbPath);
  match r with
  | inl _ => mret (B_restored safety_path)
  | inr _ => ignore (copyFile safety_path dbPath);; fail (ErrHTTP 500 "Internal server error")
  end.

Inductive backup_call :=
  | C_create | C_listing | C_download (filename : string) | C_delete (filename : string) | C_restore (body : option string).

Definition serve_backup (c : backup_call) (r : HttpRequest) : GoM Host backup_reply :=
  match c with
  | C_create => createBackup r
  | C_listing => listBackups r
  | C_download f => downloadBackup r f
  | C_delete f => deleteBackup r f
  | C_restore body => restoreBackup r body
  end.
End Backup.

(** ** Lemmas *)

(** *** Which files a computation may change *)

Definition only_at (P : string -> Prop) : relation Host := fun w w' =>
  forall p, ~ P p -> fs_files (ho_fs w') !! p = fs_files (ho_fs w) !! p.

#[export] Instance only_at_preorder P : PreOrder (only_at P).
Proof. split; [by intros w p _|]. intros u v w A B p Hp. by rewrite (B p Hp), (A p Hp). Qed.

Lemma only_at_mono (P Q : string -> Prop) w w' : (forall p, P p -> Q p) -> only_at P w w' -> only_at Q w w'.
Proof. intros HPQ Hw p Hp. apply Hw. auto. Qed.

Lemma runs_on_disk P {A} (m : GoM FS A) :
  (forall s r s', m s = (r, s') -> settles r /\ forall p, ~ P p -> fs_files s' !! p = fs_files s !! p) -> runs (only_at P) (on_disk m).
Proof.
  intros Hm [s t n] r w'. unfold on_disk. simpl. destruct (m s) as [x s'] eqn:E. intros [= <- <-]. apply Hm in E as [Hs Hp]. by split.
Qed.

Section Changes.
Context (P : string -> Prop).

Lemma runs_touch path : runs (only_at P) (touch path).
Proof. by intros w r w' [= <- <-]. Qed.

Lemma runs_host_now : runs (only_at P) host_now.
Proof. by intros w r w' [= <- <-]. Qed.

Lemma runs_get_host : runs (only_at P) (@get_w Host).
Proof. by intros w r w' [= <- <-]. Qed.

Lemma runs_device : runs (only_at P) (on_disk device_call).
Proof. apply runs_on_disk. intros s r s'. unfold device_call, pop_fault. destruct (next_fault _) as [[] l]; by intros [= <- <-]. Qed.

Lemma runs_mkdir d : runs (only_at P) (on_disk (os_MkdirAll d)).
Proof. apply runs_on_disk. intros s r s'. unfold os_MkdirAll, pop_fault. destruct (next_fault _) as [[] l]; by intros [= <- <-]. Qed.

Lemma runs_stat p : runs (only_at P) (on_disk (os_Stat p)).
Proof.
  apply runs_on_disk. intros s r s'. unfold os_Stat, pop_fault. destruct (next_fault _) as [[] l]; [by intros [= <- <-]|].
  case_bool; by intros [= <- <-].
Qed.

Lemma runs_open p : runs (only_at P) (on_disk (os_Open p)).
Proof.
  apply runs_on_disk. intros s r s'. unfold os_Open, pop_fault. destruct (next_fault _) as [[] l]; [by intros [= <- <-]|]. simpl.
  destruct (fs_files s !! p); [by intros [= <- <-]|]. case_bool; by intros [= <- <-].
Qed.

Lemma runs_readdir d : runs (only_at P) (on_disk (os_ReadDir d)).
Proof. apply runs_on_disk. intros s r s'. unfold os_ReadDir, pop_fault. destruct (next_fault _) as [[] l]; by intros [= <- <-]. Qed.

Lemma runs_create p : P p -> runs (only_at P) (create_file p).
Proof.
  intros Hp. apply runs_bind; [apply _| |intros _; apply runs_touch]. apply runs_on_disk. intros s r s'.
  unfold os_Create, pop_fault. destruct (next_fault _) as [[] l]; [by intros [= <- <-]|]. simpl. case_bool; intros [= <- <-]; [done|].
  split; [done|]. intros q Hq. simpl. apply lookup_insert_ne. by intros ->.
Qed.

Lemma runs_write p data : P p -> runs (only_at P) (write_file p data).
Proof.
  intros Hp. apply runs_bind; [apply _|apply runs_touch|]. intros _. apply runs_on_disk. intros s r s'.
  unfold os_WriteFile, pop_fault. destruct (next_fault _) as [[] l]; intros [= <- <-]; (split; [done|]); intros q Hq; simpl;
    apply lookup_insert_ne; by intros ->.
Qed.

Lemma runs_remove p : P p -> runs (only_at P) (on_disk (os_Remove p)).
Proof.
  intros Hp. apply runs_on_disk. intros s r s'. unfold os_Remove, pop_fault. destruct (next_fault _) as [[] l]; [by intros [= <- <-]|]. simpl.
  destruct (fs_files s !! p).
  - intros [= <- <-]. split; [done|]. intros q Hq. simpl. apply lookup_delete_ne. by intros ->.
  - repeat case_bool; by intros [= <- <-].
Qed.
End Changes.

#[export] Hint Resolve runs_touch runs_host_now runs_get_host runs_device runs_mkdir runs_stat runs_open runs_readdir runs_create runs_write
  runs_remove : quiet.

Section Confinement.
Context `{TarGz} (dataDir dbPath cwd : string).
Notation backup_path := (backup_path dataDir).

Lemma copy_runs (P : string -> Prop) src dst : P dst -> runs (only_at P) (copyFile src dst).
Proof.
  intros Hp. apply runs_bind; [apply _|apply runs_open|]. intros f. apply runs_bind; [apply _|by apply runs_create|]. intros _.
  destruct f as [d|]; [|apply runs_fail; apply _]. apply runs_bind; [apply _|by apply runs_write|]. intros _. apply runs_device.
Qed.

Lemma extract_items_runs (P : string -> Prop) path items : P path -> runs (only_at P) (extract_items path items).
Proof.
  intros Hp. induction items as [|[name data|name data|] items IH]; simpl; [apply runs_fail; apply _| | |apply runs_fail; apply _].
  - case_bool; [|done]. apply runs_bind; [apply _|by apply runs_wrap, runs_create|]. intros _.
    apply runs_bind; [apply _|by apply runs_wrap, runs_write|]. intros _. apply runs_device.
  - case_bool; [|apply runs_fail; apply _]. apply runs_bind; [apply _|by apply runs_wrap, runs_create|]. intros _.
    apply runs_bind; [apply _|apply runs_ignore; [apply _|by apply runs_write]|]. intros _. apply runs_fail. apply _.
Qed.

Lemma extract_runs (P : string -> Prop) archive path : P path -> runs (only_at P) (extractDatabaseFromArchive archive path).
Proof.
  intros Hp. apply runs_bind; [apply _|apply runs_wrap, runs_open|]. intros [b|]; [|apply runs_fail; apply _].
  case_bool; [apply runs_fail; apply _|by apply extract_items_runs].
Qed.

Lemma checked_runs (P : string -> Prop) filename : runs (only_at P) (checked_path dataDir cwd filename).
Proof. do 3 (apply runs_bind; [apply _|apply runs_require; apply _|intros _]). apply runs_ret. apply _. Qed.

Lemma checked_inv filename w path w' : checked_path dataDir cwd filename w = (Ok path, w') ->
  w' = w /\ path = backup_path filename /\ filename <> ""%string /\ containsPathTraversal filename = false.
Proof.
  unfold checked_path, require. repeat case_match; try done. intros [= <- <-]. by bool_to_prop; case_bool_decide.
Qed.
End Confinement.

(** *** Names *)

Lemma index_str_shift sub s i j : is_Some (index_str sub s i) <-> is_Some (index_str sub s j).
Proof.
  revert i j. induction s as [|c s IH]; intros i j; cbn [index_str]; destruct (String.prefix _ _); try (split; intros _; by eexists).
  - by split; intros [].
  - apply IH.
Qed.

Lemma contains_char s c : str_contains s (String c "") = has_char c s.
Proof.
  unfold str_contains. induction s as [|d s IH]; [done|]. simpl. destruct (Ascii.ascii_dec c d) as [->|Hne].
  - rewrite bool_decide_true; [|by destruct s]. by rewrite bool_decide_true.
  - rewrite (bool_decide_false (d = c)) by congruence. simpl. rewrite <- IH. apply bool_decide_ext, index_str_shift.
Qed.

Lemma contains_skip a b c sub : has_char c a = false -> str_contains (a +:+ b) (String c sub) = str_contains b (String c sub).
Proof.
  unfold str_contains. induction a as [|d a IH]; [done|]. simpl. intros [Hd Ha]%orb_false_iff. rewrite <- (IH Ha). str_simpl. simpl.
  apply bool_decide_eq_false in Hd. destruct (Ascii.ascii_dec c d) as [->|_]; [done|]. apply bool_decide_ext, index_str_shift.
Qed.

Lemma digit_not c z : (N_of_ascii c < 48)%N \/ (57 < N_of_ascii c)%N -> decimal_digit z <> c.
Proof.
  intros Hc <-. unfold decimal_digit in Hc. pose proof (Z.mod_pos_bound z 10 ltac:(lia)).
  rewrite N_ascii_embedding in Hc; lia.
Qed.

Lemma fixed_digits_no c w z : (N_of_ascii c < 48)%N \/ (57 < N_of_ascii c)%N -> has_char c (fixed_digits w z) = false.
Proof.
  intros Hc. revert z. induction w as [|w IH]; intros z; [done|]. simpl. rewrite has_char_app, IH. simpl.
  by rewrite bool_decide_false by (by apply digit_not).
Qed.

(** Characters that are neither a digit nor the underscore. *)
Lemma stamp_no c t : (N_of_ascii c < 48)%N \/ (57 < N_of_ascii c)%N -> c <> "_"%char -> has_char c (backup_stamp t) = false.
Proof.
  intros Hc Hu. unfold backup_stamp. destruct (civil_from_days _) as [[y m] d].
  rewrite !has_char_app, !fixed_digits_no by done. simpl. by rewrite bool_decide_false by congruence.
Qed.

Lemma filename_ok t : containsPathTraversal (backup_filename (backup_stamp t)) = false /\
  no_sep slash (backup_filename (backup_stamp t)) /\ good_elem (backup_filename (backup_stamp t)).
Proof.
  assert (forall c, (N_of_ascii c < 48)%N \/ (57 < N_of_ascii c)%N -> c <> "_"%char ->
    has_char c ("vaultdrift_backup_" +:+ backup_stamp t) = has_char c "vaultdrift_backup_"%string) as Hno.
  { intros c Hc Hu. by rewrite has_char_app, stamp_no, orb_false_r. }
  assert (has_char slash (backup_filename (backup_stamp t)) = false) as Hs.
  { unfold backup_filename. rewrite <- str_app_assoc, has_char_app, Hno; [done|by left|done]. }
  split; [|split; [exact Hs|]].
  - unfold containsPathTraversal. change "/"%string with (String slash ""). rewrite !contains_char, Hs.
    unfold backup_filename. rewrite <- str_app_assoc, has_char_app, Hno; [|by right|done].
    rewrite contains_skip; [done|]. rewrite Hno; [done|by left|done].
  - by split_and!.
Qed.

(** *** The path of a backup, in the directory the server runs in *)

Section Paths.
Context (root rel : list string) (Hroot : Forall good_elem root) (Hrel : Forall good_elem rel) (Hne : rel <> []).
Notation cwd := (abs_path root).
Notation dataDir := (join_char slash rel).

Lemma join_no_slash_first l : Forall good_elem l -> l <> [] -> HasPrefix (join_char slash l) "/" = false.
Proof.
  intros Hl Hn. destruct l as [|w l]; [done|]. inversion_clear Hl as [|? ? (Hw & _ & _ & Hs) Hl']. destruct w as [|c w]; [done|].
  assert (c <> slash) as Hc by (intros ->; by unfold no_sep in Hs; simpl in Hs).
  assert (exists t, join_char slash (String c w :: l) = String c t) as [t ->] by (destruct l; by eexists).
  rewrite HasPrefix_slash. by apply bool_decide_eq_false.
Qed.

Lemma Clean_rel l : Forall good_elem l -> l <> [] -> Clean (join_char slash l) = join_char slash l.
Proof.
  intros Hl Hn. unfold Clean. rewrite (join_no_slash_first l Hl Hn). rewrite split_join by (done || by apply good_elems_no_sep).
  rewrite clean_elems_id by done. destruct l as [|w l]; [done|]. inversion_clear Hl as [|? ? (Hw & _) Hl']. destruct w as [|c w]; [done|].
  by destruct l.
Qed.

Lemma join_join l l' : Forall good_elem l -> l <> [] -> join_char slash (join_char slash l :: l') = join_char slash (l ++ l').
Proof.
  intros Hl Hn. induction l' as [|a l' IH] using rev_ind; [by rewrite app_nil_r|].
  rewrite app_comm_cons, join_char_snoc, IH by done. rewrite app_assoc, join_char_snoc; [done|]. by destruct l.
Qed.

Lemma join_below l : Forall good_elem l -> fp_join dataDir l = join_char slash (rel ++ l).
Proof.
  intros Hl. unfold fp_join. rewrite filter_all.
  - rewrite join_join by done. apply Clean_rel; [by apply Forall_app|]. by destruct rel.
  - constructor; [|eapply Forall_impl; [exact Hl|]; by intros ? (? & _)].
    clear -Hrel Hne. destruct rel as [|w ws]; [done|]. inversion_clear Hrel as [|? ? (Hw & _) ?]. destruct w; [done|]. by destruct ws.
Qed.

Lemma Abs_below l : Forall good_elem l -> filepath_Abs cwd (fp_join dataDir l) = abs_path (root ++ rel ++ l).
Proof.
  intros Hl. rewrite join_below by done. assert (Forall good_elem (rel ++ l)) as Hall by by apply Forall_app.
  assert (rel ++ l <> []) as Hn by by destruct rel. unfold filepath_Abs. rewrite join_no_slash_first by done.
  unfold fp_join. rewrite filter_all.
  - change (join_char slash [cwd; join_char slash (rel ++ l)]) with (cwd +:+ String slash (join_char slash (rel ++ l)))%string.
    by apply Clean_join.
  - constructor; [done|]. constructor; [|constructor]. intros E. assert (HasPrefix (join_char slash (rel ++ l)) "/" = false) as Hf
      by by apply join_no_slash_first. clear Hf. destruct (rel ++ l) as [|w ws]; [done|]. inversion_clear Hall as [|? ? (Hw & _) ?].
    destruct w; [done|]. by destruct ws.
Qed.

Lemma good_backups : good_elem "backups".
Proof. by split_and!. Qed.

Lemma checked_ok name w : good_elem name -> containsPathTraversal name = false ->
  checked_path dataDir cwd name w = (Ok (backup_path dataDir name), w).
Proof.
  intros Hn Ht. unfold checked_path, require. rewrite bool_decide_false by apply Hn. rewrite Ht. simpl negb. cbv iota. rewrite !bind_mret.
  unfold backup_path, backupDir. pose proof good_backups as Hb.
  assert (Forall good_elem ["backups"%string]) as F1 by (constructor; [exact Hb|constructor]).
  assert (Forall good_elem ["backups"%string; name]) as F2 by (constructor; [exact Hb|constructor; [exact Hn|constructor]]).
  rewrite (Abs_below _ F1), (Abs_below _ F2).
  change ["backups"%string; name] with (["backups"%string] ++ [name]). rewrite !app_assoc, abs_path_snoc.
  rewrite bool_decide_false by (intros E; apply app_eq_nil in E as [_ E]; done). unfold HasPrefix. by rewrite prefix_app.
Qed.
End Paths.

Section Correctness.
Context `{TarGz} (dataDir dbPath cwd : string).
Notation serve := (serve_backup dataDir dbPath cwd).
Notation backup_path := (backup_path dataDir).
Notation safety := (safety_path dbPath).

(** A path with one plain name below the directory of the backups. *)
Definition in_backups (p : string) : Prop := exists name, no_sep slash name /\ p = backup_path name.

Definition may_change (c : backup_call) (p : string) : Prop :=
  match c with
  | C_create | C_delete _ => in_backups p
  | C_restore _ => p = dbPath \/ p = safety
  | _ => False
  end.

Lemma plain_name filename : containsPathTraversal filename = false -> no_sep slash filename.
Proof.
  unfold containsPathTraversal. intros E. apply orb_false_iff in E as [E _]. apply orb_false_iff in E as [_ E].
  change "/"%string with (String slash "") in E. by rewrite contains_char in E.
Qed.

Lemma archive_runs P path : P path -> runs (only_at P) (createBackupArchive dbPath path).
Proof.
  intros Hp. apply runs_bind; [apply _|by apply runs_wrap, runs_create|]. intros _. apply runs_bind; [apply _| |].
  - apply runs_attempt. unfold read_database. case_bool; [apply runs_fail; apply _|].
    apply runs_bind; [apply _|apply runs_wrap, runs_stat|]. intros _. apply runs_bind; [apply _|apply runs_wrap, runs_open|].
    intros [d|]; [apply runs_ret; apply _|apply runs_fail; apply _].
  - intros [d|e].
    + apply runs_bind; [apply _|by apply runs_wrap, runs_write|]. intros _. apply runs_ignore; [apply _|by apply runs_write].
    + apply runs_bind; [apply _|apply runs_ignore; [apply _|by apply runs_write]|]. intros _. apply runs_fail. apply _.
Qed.

Lemma list_entries_runs P acc names : runs (only_at P) (list_entries dataDir acc names).
Proof.
  revert acc. induction names as [|n names IH]; intros acc; simpl; [apply runs_ret; apply _|].
  apply runs_bind; [apply _| |intros a; apply IH]. apply runs_bind; [apply _| |intros [[]|]; apply runs_ret; apply _].
  apply runs_attempt. apply runs_bind; [apply _|apply runs_device|]. intros _.
  apply runs_bind; [apply _|apply runs_get_host|]. intros v. apply runs_ret. apply _.
Qed.

Lemma serve_runs c r w : runs_at (only_at (may_change c)) w (serve c r).
Proof.
  destruct c as [| |f|f|body]; (apply at_require; [apply _|]); intros _.
  - apply at_runs. apply runs_bind; [apply _|apply runs_instead, runs_mkdir|]. intros _.
    apply runs_bind; [apply _|apply runs_host_now|]. intros t.
    apply runs_bind; [apply _|apply runs_instead, archive_runs; eexists; split; [apply filename_ok|reflexivity]|]. intros _.
    apply runs_bind; [apply _| |intros n; apply runs_bind; [apply _|apply runs_host_now|intros ?; apply runs_ret; apply _]].
    apply runs_instead. apply runs_bind; [apply _|apply runs_stat|]. intros _.
    apply runs_bind; [apply _|apply runs_get_host|]. intros v. apply runs_ret. apply _.
  - apply at_runs. apply runs_bind; [apply _|apply runs_attempt, runs_mkdir|]. intros [d|]; [|apply runs_ret; apply _].
    apply runs_bind; [apply _|apply runs_instead, runs_readdir|]. intros l.
    apply runs_bind; [apply _|apply list_entries_runs|]. intros x. apply runs_ret. apply _.
  - apply at_runs. apply runs_bind; [apply _|apply checked_runs|]. intros p. apply runs_bind; [apply _|apply runs_instead, runs_open|].
    intros x. apply runs_bind; [apply _|apply runs_instead, runs_device|]. intros _. apply runs_ret. apply _.
  - apply at_bind; [apply _|apply at_runs, checked_runs|]. intros p w1 (-> & -> & _ & Hf)%checked_inv. apply at_runs.
    apply runs_bind; [apply _| |intros _; apply runs_ret; apply _]. apply runs_instead, runs_remove. exists f. by split; [apply plain_name|].
  - apply at_runs. apply runs_bind; [apply _|destruct body; [apply runs_ret|apply runs_fail]; apply _|]. intros f.
    apply runs_bind; [apply _|apply checked_runs|]. intros p. apply runs_bind; [apply _|apply runs_instead, runs_stat|]. intros _.
    apply runs_bind; [apply _|apply runs_require; apply _|]. intros _.
    apply runs_bind; [apply _|apply runs_instead, copy_runs; by right|]. intros _.
    apply runs_bind; [apply _|apply runs_attempt, extract_runs; by left|]. intros [x|e]; [apply runs_ret; apply _|].
    apply runs_bind; [apply _|apply runs_ignore; [apply _|apply copy_runs; by left]|]. intros _. apply runs_fail. apply _.
Qed.

(** [C34] Whatever names come in and whatever calls the device refuses, a request
    is answered; one that is not an administrator's is answered with 403 and
    changes nothing; and every file keeps its content but for files below the
    directory of the backups, when one is created or deleted, and the database and
    its safety copy, when one is restored. *)
Theorem backups_confined c r w :
  settles (serve c r w).1 /\
  (Middleware_IsAdmin r = false -> serve c r w = (Err (ErrHTTP 403 "Admin access required"), w)) /\
  (forall p, ~ may_change c p -> fs_files (ho_fs (serve c r w).2) !! p = fs_files (ho_fs w) !! p).
Proof.
  destruct (serve c r w) as [x w'] eqn:E. pose proof E as Hr. apply serve_runs in Hr as [Hs Hp]. split_and!; [exact Hs| |].
  - intros Ha. destruct c; revert E; simpl; unfold createBackup, listBackups, downloadBackup, deleteBackup, restoreBackup, only_admin;
      rewrite Ha; by intros [= <- <-].
  - exact Hp.
Qed.

(** *** Restoring never loses the database *)

Lemma safety_differs : safety <> dbPath.
Proof. unfold safety_path. intros E. apply (f_equal len) in E. rewrite len_app in E. simpl in E. lia. Qed.

(** A successful copy leaves the source, and the destination with its content. *)
Lemma copyFile_ok src dst w w' d : src <> dst -> fs_files (ho_fs w) !! src = Some d -> copyFile src dst w = (Ok tt, w') ->
  fs_files (ho_fs w') !! dst = Some d.
Proof.
  intros Hne Hd. destruct w as [[m dirs l] t n]. simpl in Hd.
  unfold copyFile, create_file, write_file, touch, on_disk, os_Open, os_Create, os_WriteFile, device_call, pop_fault, mbind, GoM_bind. simpl.
  destruct (next_fault l) as [[] l1]; [done|]. simpl. rewrite Hd. simpl.
  destruct (next_fault l1) as [[] l2]; [done|]. simpl. destruct (bool_decide _); [done|]. simpl.
  destruct (next_fault l2) as [[] l3]; [done|]. simpl. destruct (next_fault l3) as [[] l4]; [done|]. simpl. intros [= <-]. simpl.
  apply lookup_insert_eq.
Qed.

(** A bind goes on after a value, or ends with an error or a panic. *)
Lemma bind_cases {A B} (m : GoM Host A) (k : A -> GoM Host B) w x w' : (m ≫= k) w = (x, w') ->
  (exists a w1, m w = (Ok a, w1) /\ k a w1 = (x, w')) \/ (is_ok x = false /\ exists y, m w = (y, w')).
Proof. unfold mbind, GoM_bind. destruct (m w) as [[a|e|s|] w1]; intros E; [left; eauto|right..]; injection E as <- <-; eauto. Qed.

Section Safety.
Context (d : bytes).

Definition in_place (w : Host) : Prop := fs_files (ho_fs w) !! dbPath = Some d.
Definition in_safety (w : Host) : Prop := fs_files (ho_fs w) !! safety = Some d.
Definition not_lost (x : Res backup_reply) (w : Host) : Prop := (in_place w \/ in_safety w) /\ (is_ok x = true -> in_safety w).

(** A step before the copy, which leaves the database where it is. *)
Lemma step_in_place P {A} (m : GoM Host A) (k : A -> GoM Host backup_reply) w x w' : runs (only_at P) m -> ~ P dbPath -> in_place w ->
  (forall a w1, m w = (Ok a, w1) -> in_place w1 -> k a w1 = (x, w') -> not_lost x w') -> (m ≫= k) w = (x, w') -> not_lost x w'.
Proof.
  intros Hm HP Hw Hk [(a & w1 & E & E')|(Hx & y & E)]%bind_cases; pose proof E as Hr; apply Hm in Hr as [_ Hr].
  - apply (Hk a w1 E); [|done]. unfold in_place. by rewrite Hr.
  - split; [left; unfold in_place; by rewrite Hr|]. by rewrite Hx.
Qed.

Lemma restore_tail w x w' archive : in_safety w ->
  (r ← attempt (extractDatabaseFromArchive archive dbPath);
   match r with
   | inl _ => mret (B_restored safety)
   | inr _ => ignore (copyFile safety dbPath);; fail (ErrHTTP 500 "Internal server error")
   end) w = (x, w') -> not_lost x w'.
Proof.
  intros Hw E.
  assert (runs (only_at (eq dbPath)) (r ← attempt (extractDatabaseFromArchive archive dbPath);
     match r with
     | inl _ => mret (B_restored safety)
     | inr _ => ignore (copyFile safety dbPath);; fail (ErrHTTP 500 "Internal server error")
     end)) as Hr.
  { apply runs_bind; [apply _|by apply runs_attempt, extract_runs|]. intros [a|e]; [apply runs_ret; apply _|].
    apply runs_bind; [apply _|apply runs_ignore; [apply _|by apply copy_runs]|]. intros _. apply runs_fail. apply _. }
  apply Hr in E as [_ E]. assert (in_safety w') as Hs; [|by split; [right|]].
  unfold in_safety. rewrite E; [done|]. intros Heq. by apply safety_differs.
Qed.
End Safety.

(** [C19] Whatever calls are refused and whatever the archive holds, a request to
    restore leaves the database of before in its place or in the safety copy; the
    request succeeds only when the safety copy holds it. *)
Theorem restore_keeps_database body r w d : dbPath <> ""%string -> fs_files (ho_fs w) !! dbPath = Some d ->
  let '(x, w') := serve (C_restore body) r w in
  (fs_files (ho_fs w') !! dbPath = Some d \/ fs_files (ho_fs w') !! safety = Some d) /\
  (is_ok x = true -> fs_files (ho_fs w') !! safety = Some d).
Proof.
  intros Hdb Hd. destruct (serve (C_restore body) r w) as [x w'] eqn:E. change (not_lost d x w'). revert E. simpl. unfold restoreBackup.
  apply (step_in_place d (fun _ => False)); [apply runs_require; apply _|tauto|exact Hd|]. intros [] w1 _ H1.
  apply (step_in_place d (fun _ => False)); [destruct body; [apply runs_ret|apply runs_fail]; apply _|tauto|exact H1|]. intros f w2 _ H2.
  apply (step_in_place d (fun _ => False)); [apply checked_runs|tauto|exact H2|]. intros path w3 _ H3.
  apply (step_in_place d (fun _ => False)); [apply runs_instead, runs_stat|tauto|exact H3|]. intros [] w4 _ H4.
  apply (step_in_place d (fun _ => False)); [apply runs_require; apply _|tauto|exact H4|]. intros [] w5 _ H5.
  apply (step_in_place d (eq safety)); [by apply runs_instead, copy_runs|apply safety_differs|exact H5|]. intros [] w6 E6 _.
  apply restore_tail. apply (copyFile_ok dbPath safety w5 w6 d); [intros Heq; by apply safety_differs|exact H5|].
  unfold instead in E6. by destruct (copyFile dbPath safety w5) as [[[]| | |] ?].
Qed.

(** *** What a backup brings back *)

Definition healthy_host (w : Host) : Prop := fs_faults (ho_fs w) = [].
Notation files w := (fs_files (ho_fs w)).
Notation dirs w := (fs_dirs (ho_fs w)).

(** A host whose device accepts every call. *)
Definition host_of (m : gmap string bytes) (ds : gset string) (mt : gmap string Z) (n : Z) : Host := mkHost (mkFS m ds []) mt n.

Lemma healthy_eta w : healthy_host w -> w = host_of (files w) (dirs w) (ho_mtime w) (ho_now w).
Proof. destruct w as [[m ds l] mt n]. unfold healthy_host. simpl. by intros ->. Qed.

Lemma create_host p m ds mt n : p ∉ ds -> create_file p (host_of m ds mt n) = (Ok tt, host_of (<[p := []]> m) ds (<[p := n]> mt) n).
Proof.
  intros Hp. unfold create_file, touch, on_disk, os_Create, pop_fault, host_of, mbind, GoM_bind. simpl. by rewrite bool_decide_false.
Qed.

Lemma write_host p b m ds mt n : write_file p b (host_of m ds mt n) = (Ok tt, host_of (<[p := b]> m) ds (<[p := n]> mt) n).
Proof. done. Qed.

Lemma stat_host p b m ds mt n : m !! p = Some b -> on_disk (os_Stat p) (host_of m ds mt n) = (Ok tt, host_of m ds mt n).
Proof. intros Hp. unfold on_disk, os_Stat, pop_fault, host_of. simpl. rewrite bool_decide_true; [done|]. rewrite Hp. left. by eexists. Qed.

Lemma open_host p b m ds mt n : m !! p = Some b -> on_disk (os_Open p) (host_of m ds mt n) = (Ok (Some b), host_of m ds mt n).
Proof. intros Hp. unfold on_disk, os_Open, pop_fault, host_of. simpl. by rewrite Hp. Qed.

Lemma copy_host src dst b m ds mt n : m !! src = Some b -> dst ∉ ds ->
  copyFile src dst (host_of m ds mt n) = (Ok tt, host_of (<[dst := b]> m) ds (<[dst := n]> mt) n).
Proof.
  intros Hs Hd. unfold copyFile. rewrite (bind_ok _ _ _ _ _ (open_host src b m ds mt n Hs)).
  rewrite (bind_ok _ _ _ _ _ (create_host dst m ds mt n Hd)), (bind_ok _ _ _ _ _ (write_host dst b _ _ _ _)).
  by rewrite !insert_insert_eq.
Qed.

Lemma wrap_ok {A} msg (m : GoM Host A) w a w' : m w = (Ok a, w') -> wrap msg m w = (Ok a, w').
Proof. intros E. unfold wrap. by rewrite E. Qed.

Lemma instead_ok {A} e (m : GoM Host A) w a w' : m w = (Ok a, w') -> instead e m w = (Ok a, w').
Proof. intros E. unfold instead. by rewrite E. Qed.

Lemma attempt_ok {A} (m : GoM Host A) w a w' : m w = (Ok a, w') -> attempt m w = (Ok (inl a), w').
Proof. intros E. unfold attempt. by rewrite E. Qed.

Lemma archive_host path d m ds mt n : dbPath <> ""%string -> m !! dbPath = Some d -> path <> dbPath -> path ∉ ds ->
  createBackupArchive dbPath path (host_of m ds mt n) =
    (Ok tt, host_of (<[path := tar_gz [(archive_name, d)]]> m) ds (<[path := n]> mt) n).
Proof.
  intros Hdb Hd Hne Hp. unfold createBackupArchive. rewrite (bind_ok _ _ _ _ _ (wrap_ok _ _ _ _ _ (create_host path m ds mt n Hp))).
  assert (<[path := []]> m !! dbPath = Some d) as Hd' by by rewrite lookup_insert_ne.
  assert (read_database dbPath (host_of (<[path := []]> m) ds (<[path := n]> mt) n) = (Ok d, host_of (<[path := []]> m) ds (<[path := n]> mt) n)) as Er.
  { unfold read_database. rewrite bool_decide_false by done. rewrite (bind_ok _ _ _ _ _ (wrap_ok _ _ _ _ _ (stat_host _ _ _ ds _ n Hd'))).
    by rewrite (bind_ok _ _ _ _ _ (wrap_ok _ _ _ _ _ (open_host _ _ _ ds _ n Hd'))). }
  rewrite (bind_ok _ _ _ _ _ (attempt_ok _ _ _ _ Er)).
  rewrite (bind_ok _ _ _ _ _ (wrap_ok _ _ _ _ _ (write_host path (written_early (tar_gz [(archive_name, d)])) _ _ _ _))).
  unfold ignore. rewrite (bind_ok _ _ _ _ _ (attempt_ok _ _ _ _ (write_host path (tar_gz [(archive_name, d)]) _ _ _ _))).
  by rewrite !insert_insert_eq.
Qed.

Lemma createBackup_exact r w d : Middleware_IsAdmin r = true -> healthy_host w -> dbPath <> ""%string -> files w !! dbPath = Some d ->
  let name := backup_filename (backup_stamp (ho_now w)) in
  let archive := tar_gz [(archive_name, d)] in
  backup_path name <> dbPath -> backup_path name <> backupDir dataDir -> backup_path name ∉ dirs w ->
  exists w1, serve C_create r w = (Ok (B_created name (Z.of_nat (length archive)) (ho_now w)), w1) /\
    files w1 = <[backup_path name := archive]> (files w) /\ healthy_host w1.
Proof.
  intros Ha Hw Hdb Hd name archive Hne Hdir Hnd. rewrite (healthy_eta w Hw). simpl. set (m := files w) in *. set (ds := dirs w) in *.
  set (n := ho_now w) in *. set (mt := ho_mtime w). unfold createBackup, only_admin. rewrite Ha. unfold require. rewrite bind_mret.
  assert (backup_path name ∉ {[backupDir dataDir]} ∪ ds) as Hout by set_solver.
  rewrite (bind_ok _ _ (host_of m ds mt n) tt (host_of m ({[backupDir dataDir]} ∪ ds) mt n)) by done.
  rewrite (bind_ok _ _ (host_of _ _ _ _) n (host_of m ({[backupDir dataDir]} ∪ ds) mt n)) by done. cbv zeta. fold name.
  rewrite (bind_ok _ _ _ _ _ (instead_ok _ _ _ _ _ (archive_host (backup_path name) d m _ mt n Hdb Hd Hne Hout))). fold archive.
  assert (<[backup_path name := archive]> m !! backup_path name = Some archive) as Hl by apply lookup_insert_eq.
  assert (file_size (backup_path name) (host_of (<[backup_path name := archive]> m) ({[backupDir dataDir]} ∪ ds) (<[backup_path name := n]> mt) n) =
    (Ok (Z.of_nat (length archive)), host_of (<[backup_path name := archive]> m) ({[backupDir dataDir]} ∪ ds) (<[backup_path name := n]> mt) n)) as Es.
  { unfold file_size. rewrite (bind_ok _ _ _ _ _ (stat_host _ _ _ _ _ _ Hl)). rewrite bind_get. simpl. by rewrite Hl. }
  rewrite (bind_ok _ _ _ _ _ (instead_ok _ _ _ _ _ Es)). by eexists.
Qed.

Lemma extract_host archive d m ds mt n : m !! archive = Some (tar_gz [(archive_name, d)]) -> dbPath ∉ ds ->
  extractDatabaseFromArchive archive dbPath (host_of m ds mt n) = (Ok tt, host_of (<[dbPath := d]> m) ds (<[dbPath := n]> mt) n).
Proof.
  intros Hm Hd. unfold extractDatabaseFromArchive. rewrite (bind_ok _ _ _ _ _ (wrap_ok _ _ _ _ _ (open_host _ _ _ _ _ _ Hm))).
  rewrite gz_header_tar, tar_items_tar. simpl. rewrite (bind_ok _ _ _ _ _ (wrap_ok _ _ _ _ _ (create_host dbPath m ds mt n Hd))).
  rewrite (bind_ok _ _ _ _ _ (wrap_ok _ _ _ _ _ (write_host dbPath d _ _ _ _))). by rewrite !insert_insert_eq.
Qed.

Lemma restoreBackup_exact r w filename d old : Middleware_IsAdmin r = true -> healthy_host w -> dbPath <> ""%string ->
  checked_path dataDir cwd filename w = (Ok (backup_path filename), w) ->
  files w !! backup_path filename = Some (tar_gz [(archive_name, d)]) -> files w !! dbPath = Some old ->
  backup_path filename <> safety -> dbPath ∉ dirs w -> safety ∉ dirs w ->
  exists w1, serve (C_restore (Some filename)) r w = (Ok (B_restored safety), w1) /\
    files w1 = <[dbPath := d]> (<[safety := old]> (files w)) /\ healthy_host w1.
Proof.
  intros Ha Hw Hdb Hc Hb Ho Hs D1 D2. simpl. unfold restoreBackup, only_admin. rewrite Ha. unfold require. rewrite !bind_mret.
  rewrite (bind_ok _ _ _ _ _ Hc). rewrite (healthy_eta w Hw) in *. simpl in Hb, Ho, D1, D2. set (m := files w) in *. set (ds := dirs w) in *.
  set (n := ho_now w). set (mt := ho_mtime w).
  rewrite (bind_ok _ _ _ _ _ (instead_ok _ _ _ _ _ (stat_host _ _ m ds mt n Hb))).
  rewrite (bool_decide_false (dbPath = ""%string)) by done. simpl negb. cbv iota. rewrite bind_mret.
  rewrite (bind_ok _ _ _ _ _ (instead_ok _ _ _ _ _ (copy_host dbPath safety old m ds mt n Ho D2))).
  assert (<[safety := old]> m !! backup_path filename = Some (tar_gz [(archive_name, d)])) as Hb' by by rewrite lookup_insert_ne.
  rewrite (bind_ok _ _ _ _ _ (attempt_ok _ _ _ _ (extract_host _ d _ ds _ n Hb' D1))). by eexists.
Qed.
End Correctness.

(** [C7] A backup brings the database back: after one has been created, and
    whatever has happened to the other files since, restoring it puts the content
    of that moment in the place of the database and keeps the present content in
    the safety copy. *)
Theorem backup_restore_roundtrip `{TarGz} root rel dbPath r r' w d : Forall good_elem root -> Forall good_elem rel -> rel <> [] ->
  let cwd := abs_path root in
  let dataDir := join_char slash rel in
  let name := backup_filename (backup_stamp (ho_now w)) in
  let path := backup_path dataDir name in
  Middleware_IsAdmin r = true -> Middleware_IsAdmin r' = true -> healthy_host w -> dbPath <> ""%string ->
  fs_files (ho_fs w) !! dbPath = Some d -> path <> dbPath -> path <> backupDir dataDir -> path ∉ fs_dirs (ho_fs w) -> path <> safety_path dbPath ->
  exists size w1, serve_backup dataDir dbPath cwd C_create r w = (Ok (B_created name size (ho_now w)), w1) /\
    forall w2 now, healthy_host w2 -> fs_files (ho_fs w2) !! path = fs_files (ho_fs w1) !! path -> fs_files (ho_fs w2) !! dbPath = Some now ->
      dbPath ∉ fs_dirs (ho_fs w2) -> safety_path dbPath ∉ fs_dirs (ho_fs w2) ->
      exists w3, serve_backup dataDir dbPath cwd (C_restore (Some name)) r' w2 = (Ok (B_restored (safety_path dbPath)), w3) /\
        fs_files (ho_fs w3) !! dbPath = Some d /\ fs_files (ho_fs w3) !! safety_path dbPath = Some now.
Proof.
  intros Hroot Hrel Hne cwd dataDir name path Ha Ha' Hw Hdb Hd P1 P2 P3 P4.
  destruct (createBackup_exact dataDir dbPath cwd r w d Ha Hw Hdb Hd P1 P2 P3) as (w1 & E & Hf & _). eexists _, w1. split; [exact E|].
  intros w2 now Hw2 Hkept Hnow D1 D2. destruct (filename_ok (ho_now w)) as (Ht & _ & Hgood).
  destruct (restoreBackup_exact dataDir dbPath cwd r' w2 name d now Ha' Hw2 Hdb) as (w3 & E3 & Hf3 & _); try assumption.
  - by apply checked_ok.
  - unfold path in Hkept. rewrite Hkept, Hf. apply lookup_insert_eq.
  - exists w3. split; [exact E3|]. rewrite Hf3. split; [apply lookup_insert_eq|].
    rewrite lookup_insert_ne by (intros Heq; by apply (safety_differs dbPath)). apply lookup_insert_eq.
Qed.

(** ** Witnesses *)

Section Witnesses.

(** A transparent archive format: every byte is marked, names and contents are
    ended by marks of their own. *)
Definition marked (b : bytes) : bytes := concat ((fun c => [x01; c]) <$> b).

Definition toy_entry (e : string * bytes) : bytes := marked (bytes_of e.1) ++ x02 :: marked e.2 ++ [x03].

Fixpoint toy_items (acc : bytes) (name : option string) (s : bytes) : list tar_item :=
  match s with
  | [] => match name with Some n => [T_torn n acc] | None => if bool_decide (acc = []) then [] else [T_error] end
  | x01 :: c :: s => toy_items (acc ++ [c]) name s
  | x02 :: s => toy_items [] (Some (string_of acc)) s
  | x03 :: s => match name with Some n => T_entry n acc :: toy_items [] None s | None => [T_error] end
  | _ => [T_error]
  end.

Lemma toy_items_marked acc name b s : toy_items acc name (marked b ++ s) = toy_items (acc ++ b) name s.
Proof.
  revert acc. induction b as [|c b IH]; intros acc; [by rewrite app_nil_r|].
  change (marked (c :: b) ++ s) with (x01 :: c :: (marked b ++ s)). cbn [toy_items]. by rewrite IH, <- app_assoc.
Qed.

#[refine] Instance toy_tar : TarGz := {|
  tar_gz l := x1f :: concat (toy_entry <$> l);
  gz_header b := bool_decide (head b = Some x1f);
  tar_items b := toy_items [] None (drop 1 b)
|}.
Proof.
  - intros l. by apply bool_decide_eq_true.
  - intros l. cbn [drop]. rewrite drop_0. induction l as [|[n d] l IH]; [done|]. cbn [fmap list_fmap concat]. unfold toy_entry at 1. cbn [fst snd].
    rewrite <- app_assoc, toy_items_marked. simpl. rewrite <- app_assoc, toy_items_marked. simpl. by rewrite string_of_bytes, IH.
Defined.

Definition admin_request : HttpRequest :=
  mkHttp "POST" "/" "" "" "" "" false "" {[(server_key, "roles"%string) := VStrings ["admin"%string]]} 0.

Definition the_host (content : bytes) (faults : list bool) : Host :=
  mkHost (mkFS {["/srv/vault.db"%string := content]} ∅ faults) ∅ 1709210096.

Definition saved_host : Host := (serve_backup "data" "/srv/vault.db" "/srv" C_create admin_request (the_host [x61; x62] [])).2.
Definition damaged (w : Host) : Host := mkHost (mkFS (<["/srv/vault.db"%string := [x00]]> (fs_files (ho_fs w))) ∅ []) ∅ 1709210999.

Lemma roundtrip_witness : exists w3,
  serve_backup "data" "/srv/vault.db" "/srv" (C_restore (Some "vaultdrift_backup_20240229_123456.tar.gz"%string)) admin_request (damaged saved_host)
    = (Ok (B_restored "/srv/vault.db.pre-restore"), w3) /\
  fs_files (ho_fs w3) !! "/srv/vault.db"%string = Some [x61; x62] /\ fs_files (ho_fs w3) !! "/srv/vault.db.pre-restore"%string = Some [x00].
Proof.
  destruct (backup_restore_roundtrip ["srv"%string] ["data"%string] "/srv/vault.db" admin_request admin_request (the_host [x61; x62] []) [x61; x62])
    as (size & w1 & E & Hback);
    [repeat constructor; discriminate|repeat constructor; discriminate|discriminate|vm_compute; reflexivity|vm_compute; reflexivity|reflexivity
    |discriminate|vm_compute; reflexivity|vm_compute; discriminate|vm_compute; discriminate|apply not_elem_of_empty|vm_compute; discriminate|].
  assert (w1 = saved_host) as -> by exact (eq_sym (f_equal snd E)).
  apply (Hback (damaged saved_host) [x00]); try (vm_compute; reflexivity); apply not_elem_of_empty.
Defined.

Lemma confined_witness :
  serve_backup "data" "/srv/vault.db" "/srv" (C_delete "x") (mkHttp "POST" "/" "" "" "" "" false "" ∅ 0) saved_host =
    (Err (ErrHTTP 403 "Admin access required"), saved_host).
Proof.
  apply (backups_confined "data" "/srv/vault.db" "/srv" (C_delete "x") (mkHttp "POST" "/" "" "" "" "" false "" ∅ 0) saved_host).
  vm_compute. reflexivity.
Defined.

(** The device refuses the write of the restored database, and then the copy back. *)
Definition failing_host : Host :=
  mkHost (mkFS (fs_files (ho_fs (damaged saved_host))) ∅ [false; false; false; false; false; false; false; true; true]) ∅ 1709210999.

Lemma restore_witness :
  let '(x, w') := serve_backup "data" "/srv/vault.db" "/srv" (C_restore (Some "vaultdrift_backup_20240229_123456.tar.gz"%string)) admin_request failing_host in
  is_ok x = false /\
  (fs_files (ho_fs w') !! "/srv/vault.db"%string = Some [x00] \/ fs_files (ho_fs w') !! "/srv/vault.db.pre-restore"%string = Some [x00]).
Proof.
  pose proof (restore_keeps_database "data" "/srv/vault.db" "/srv" (Some "vaultdrift_backup_20240229_123456.tar.gz"%string) admin_request failing_host [x00]
    ltac:(discriminate) ltac:(vm_compute; reflexivity)) as Hk.
  destruct (serve_backup _ _ _ _ _ _) as [x w'] eqn:E. split; [|exact (proj1 Hk)].
  replace x with ((serve_backup "data" "/srv/vault.db" "/srv" (C_restore (Some "vaultdrift_backup_20240229_123456.tar.gz"%string)) admin_request failing_host).1)
    by (by rewrite E). vm_compute. reflexivity.
Defined.
End Witnesses.
